(* ===== verification/_CoqProject ===== *)
-Q . S2P
Prelude.v
Net.v
Socks5Impl.v
Rfc1928.v
ProxyHandler.v
Streams.v
Socks.v
SocksSession.v
NoProxy.v
Traffic.v
Http.v
HttpSession.v
Dns.v
DnsExample.v
DnsTheorems.v
DnsRouting.v
DnsTransactions.v
DnsOverTcp.v
Persistence.v
VirtualDns.v
VirtualDnsProofs.v
VirtualDnsJournal.v
VirtualDnsQuery.v
VirtualDnsSession.v
TcpSession.v
Sessions.v
Routing.v
UdpAssociate.v
Process.v
ProcessMatch.v
IpText.v
Icmp.v
Direct.v
DirectDns.v
PhysicalDns.v
UdpBypass.v
UdpBypassProofs.v
Udpgw.v
UdpgwClient.v
UdpgwFlow.v
UdpgwServer.v
UdpgwServerProofs.v
WindowsConfig.v
WindowsConfigProofs.v
WindowsSession.v
WindowsIpHelper.v
WindowsMachine.v
WindowsBypass.v
Lifecycle.v
QueryOrigins.v
TraceSession.v
TraceSync.v
TraceSyncProofs.v
SocketTransfer.v
Outbound.v
ProxyDns.v
Forwarding.v
CommandLine.v
Elevation.v
UdpTable.v
UdpgwAccept.v
Args.v
Startup.v
SessionTask.v
ProcessNames.v
Entry.v
WideText.v
WindowsForeign.v
Android.v
UdpLookup.v
TunSession.v
VirtualDnsState.v
CacheCrash.v
