(* ===== verification/Prelude.v ===== *)
(** * Verification of tun2proxy

    tun2proxy takes the packets of a TUN device through a user-space network
    stack and carries every TCP and UDP session to a SOCKS4, SOCKS5 or HTTP
    proxy, to a UDP gateway, or directly to the network, with several strategies
    for DNS.  This library models the Rust sources under src/src/ as executable
    definitions and proves the properties below about them.

    ** The program and its model

    A TUN session is started (Startup, Lifecycle), enters the forwarding loop
    (Entry) and runs it (Forwarding).  An accepted session is counted (Sessions),
    assigned to a process (ProcessMatch), dispatched (Routing), and then served
    by one of the session handlers under its process policy (SessionTask).  A
    handler that uses a proxy drives a connection object through the interface
    [ProxyHandler] and then relays bytes or datagrams.

    - Prelude, Net, Streams: results and the state-and-error monad [M], machine
      integers, text, [std::net] addresses (session_info.rs, directions.rs),
      readers of the standard library.  IpText: [IpAddr::from_str].
    - ProxyHandler (proxy_handler.rs, lib.rs): the trait as a class with its
      laws, and the driver [handle_proxy_session] with
      [copy_and_record_traffic].  Its implementations: Socks (socks.rs) over the
      wire library Socks5Impl (instance Rfc1928), Http (http.rs), NoProxy
      (no_proxy.rs).  SocksSession and HttpSession compose them with the driver.
    - TcpSession, UdpAssociate (lib.rs): the relay of a TCP session as two pumps
      under any schedule; a SOCKS5 UDP association.
    - Sessions, Routing, SessionTask, Traffic (lib.rs, args.rs,
      traffic_status.rs): session limits as atomic steps, the dispatch of the
      accept loop, the task around a relay that ends when the process policy
      changes, the counters.
    - Lifecycle, Entry, Forwarding (general_api.rs, network_config.rs, lib.rs): a
      TUN session from its checks to the restoration of the network; what is
      resolved, looked up and spawned before the loop, for each entry point; the
      loop with its tasks, its limit and its drain.  TunSession: the entry points
      for applications, and the session as a whole, in which the forwarding task
      of Lifecycle is Entry followed by Forwarding.  Android (android.rs): the
      functions called from Java.
    - Args, Startup, CommandLine, Elevation (args.rs, bin/main.rs, win_svc.rs,
      general_api.rs, dump_logger.rs, bin/windows_elevation/mod.rs): the options
      and their checks, the ways into the program, and the elevated process of
      Windows with its quoted command line.
    - SocketTransfer, Outbound (socket_transfer.rs, lib.rs): the sockets that
      another namespace provides, and the creation of outgoing streams.
    - Dns, DnsTransactions, DnsOverTcp, DnsRouting (dns.rs, dns_transactions.rs,
      lib.rs, dns_routing.rs): messages over an abstract codec (instance
      DnsExample), the table of outstanding queries, datagrams multiplexed over
      one TCP connection, and query-by-query routing.  ProxyDns (lib.rs): names
      resolved through the proxy.
    - QueryOrigins, TraceSession, TraceSync (dns_routing/windows.rs): who asked a
      question on Windows, from the events of a trace; the trace with its
      resources and retries; the checkpoints that order answers behind events.
    - VirtualDns, Persistence, VirtualDnsSession (virtual_dns.rs,
      virtual_dns/persistence.rs, lib.rs): fake addresses, their journal, and the
      sessions that answer from them.  CacheCrash: the bytes of the journal when
      the process is killed.  VirtualDnsState: the handle that keeps the resolver
      across sessions.
    - Udpgw, UdpgwClient, UdpgwServer, UdpgwAccept (udpgw.rs, lib.rs,
      bin/udpgw_server.rs): frames, the pool of gateway connections with its
      heartbeat and the session loop, one client connection of the server as
      concurrent tasks, and the server with all its clients.
    - Process, ProcessMatch (process_bypass.rs, process_profile.rs,
      process/mod.rs): names in effect, socket tables, ancestors, the cache,
      pinned decisions.  UdpTable, ProcessNames (process/windows_udp.rs and the
      other files of process/): the back ends, down to the bytes of the table.
    - UdpBypass, UdpLookup (udp_bypass.rs): physical sockets shared by bypassed
      flows, and the permit under which the owners of sockets are looked up.
    - Icmp (icmp.rs): Echo flows.
    - Direct, DirectDns, PhysicalDns (direct.rs, physical_dns.rs): the physical
      interface, sockets pinned to it as histories of system calls, DNS over
      them, and the portal for sessions.
    - WindowsConfig, WindowsIpHelper, WindowsBypass (windows_network_config.rs):
      the transaction that installs routes, forwarding settings and DNS, its
      monitor and live updates over the trait [NetworkOperations]; the
      implementation of the trait over the calls of the operating system; the
      client of live updates.  WindowsForeign, WideText: the same calls with
      their tables, pointers, wide strings and the library they are loaded from.

    Code outside the repository is an argument of the definitions that use it: a
    class of operations with a class of laws that state its documented behaviour
    ([Socks5Laws], [DnsLibLaws], [NetworkLaws], [WinApiLaws], ...), and an
    instance that shows that the laws can hold.  Errors are values of [res]; a
    panic is the value [Panic], and theorems say where it does not occur.
    Concurrent tasks are step functions or relations whose interleavings the
    theorems quantify over; a step is what happens between two waiting points or
    inside one critical section.  Times are arguments.

    ** What the theorems show

    - Handshakes (SocksSession, HttpSession): every fragmentation of the server's
      bytes leads to the same messages and keeps what follows for the client;
      whatever the server sends, nothing panics; challenges are answered once;
      one unchecked length can wrap, and then [state_change] never returns.
    - Relays (TcpSession, UdpAssociate, UdpgwFlow): exact prefixes or datagrams in
      order under every interleaving, in the wire forms of RFC 1928 and with the
      DNS filter where it applies; cancelling a read loses nothing; pooled
      connections are at a frame boundary.
    - Concurrency (Sessions, UdpgwServerProofs, UdpBypassProofs, WindowsBypass):
      counters are exact, replies of replaced sessions are never written, flows
      never share a peer, updates never overlap.  The gateway server and the
      forwarding loop (UdpgwAccept, Forwarding) own every task they started and
      return only when none is left; after a shutdown they do return, because
      the clients' tasks watch the token and the drain aborts the others.  Owner lookups never overlap and never go
      back in time (UdpLookup).
    - Starting and stopping (Lifecycle, Entry, TunSession, Startup, Android,
      Elevation, CommandLine, Args): a session refines an abstract life in which
      what was installed is given back by one removal, followed on Windows by the
      guard's attempt if it failed, or by the guard when the session is dropped;
      entering the loop respects its environment and a failed start leaves nothing
      behind but, on Windows, two watchers; composed, every session of the loop is
      bound to the interface that was picked before the network was changed or, on
      Windows, to one of a later refresh; the command line of the elevated process is read back as it
      was written, and its handles are closed.
    - DNS (DnsTheorems, DnsOverTcp, DnsRouting, VirtualDnsProofs,
      VirtualDnsJournal, VirtualDnsQuery, VirtualDnsSession, DirectDns,
      PhysicalDns): answers belong to their questions; fake addresses are a
      bijection that survives a restart, also of a process killed in the middle
      of a write (CacheCrash); sessions refine a query-by-query
      specification; physical queries end and are authentic; names resolved over
      the proxy take at most eight validated answers (ProxyDns); questions are
      attributed to the process that asked, behind a checkpoint (QueryOrigins,
      TraceSyncProofs).
    - Policy (Routing, Process, ProcessMatch, Direct): bypassed sessions never use
      the proxy or a fake address, the proxy gets the names that fake addresses
      stand for (but for DNS over TCP to port 53), matches come from tables and
      names read after the request, direct sockets are pinned before they are used; an
      established session follows a changed policy (SessionTask); the tables of
      the system are read inside their buffers and as they are (UdpTable,
      ProcessNames).
    - Windows (WindowsSession, with WindowsConfigProofs and WindowsMachine): a
      session owns exactly what it changed, whatever fails and whatever others
      change within the limits of [foreign_change], installing is atomic,
      removing restores the machine, live updates are transactions.  The operations with
      pointers refine those on values, stay inside their memory and release it
      once (WindowsForeign).

    ** Fuel

    [Socks.state_change] needs two levels, because no state returns to an earlier
    one; [Http.state_change] takes [change_fuel], its result says whether it has
    returned, and [state_change_returns] shows that the fuel is enough unless a
    length wraps.  The loops over streams take one
    more than the number of reads, or the length of the input
    ([drain_tcp_messages]); the searches take one more than the size of the table
    ([VirtualDns.alloc_loop], [DnsTransactions.next_free],
    [ProcessMatch.ancestors]); the alias chains and the attempts of DNS have the
    constants of the source.  [TraceSession.query_loop] takes the bound on the
    number of sessions, which grows with each turn; [CommandLine.parse_arguments]
    takes the number of units; [UdpTable.table] the four attempts of the source;
    [Entry.wait_loop] the 21 turns that fit into its time-out;
    [WindowsForeign.read_text] the length of the block.  In each case a
    lemma or the theorem shows that the fuel does not run out.

    ** Not modelled

    The user-space network stack (ipstack), sockets, timers and the scheduler are
    the environment: theorems quantify over what they do.  The parser generated
    by clap, the serialization of the options and their builder methods but for
    four (args.rs), the build script (build.rs), the processes that are spawned
    (the admin command, unshare) beyond their command lines, the parameters of
    the TUN device beyond its name and descriptor, and the text of log lines and
    errors with their run-time values are left out: they are generated code,
    records handed to a library, or input and output without decisions.  A loss
    of power, after which written bytes may be missing, is not considered. *)

From stdpp Require Export base tactics list gmap strings pretty.
From Stdlib Require Export ZArith Lia.

Declare Scope rs_scope.
Delimit Scope rs_scope with rs.
Open Scope Z_scope.
Open Scope rs_scope.

(** ** Tactics and hint databases *)

Create HintDb rs.

(** Split a match or an if of the goal or of a hypothesis on its scrutinee,
    keeping the equation. *)
Ltac split_match :=
  match goal with
  | |- context [match ?x with _ => _ end] =>
      lazymatch x with context [match _ with _ => _ end] => fail | _ => destruct x eqn:? end
  | H : context [match ?x with _ => _ end] |- _ =>
      lazymatch x with context [match _ with _ => _ end] => fail | _ => destruct x eqn:? end
  end.

(** Split the first [if] of the goal on its test, naming the equation. *)
Ltac split_if E :=
  match goal with |- context [if ?b then _ else _] => destruct b eqn:E end.

(** Exhaust the case analysis of a definition. *)
Ltac crush_cases := repeat (simplify_eq/=; try split_match); simplify_eq/=.

(** Turn the boolean tests of the sources into propositions. *)
Ltac b2p :=
  repeat match goal with
  | H : _ && _ = true |- _ => apply andb_true_iff in H as [? ?]
  | H : _ || _ = false |- _ => apply orb_false_iff in H as [? ?]
  | H : negb _ = true |- _ => apply negb_true_iff in H
  | H : negb _ = false |- _ => apply negb_false_iff in H
  | H : bool_decide _ = true |- _ => apply bool_decide_eq_true_1 in H
  | H : bool_decide _ = false |- _ => apply bool_decide_eq_false_1 in H
  | H : (_ =? _)%nat = true |- _ => apply Nat.eqb_eq in H
  | H : (_ =? _)%nat = false |- _ => apply Nat.eqb_neq in H
  | H : (_ <? _)%nat = true |- _ => apply Nat.ltb_lt in H
  | H : (_ <? _)%nat = false |- _ => apply Nat.ltb_ge in H
  | H : (_ <=? _)%nat = true |- _ => apply Nat.leb_le in H
  | H : (_ <=? _)%nat = false |- _ => apply Nat.leb_gt in H
  | H : (_ =? _) = true |- _ => apply Z.eqb_eq in H
  | H : (_ =? _) = false |- _ => apply Z.eqb_neq in H
  | H : (_ <? _) = true |- _ => apply Z.ltb_lt in H
  | H : (_ <? _) = false |- _ => apply Z.ltb_ge in H
  | H : (_ <=? _) = true |- _ => apply Z.leb_le in H
  | H : (_ <=? _) = false |- _ => apply Z.leb_gt in H
  end.

(** ** Results, errors and panics *)

(** [std::io::ErrorKind], the variants the sources construct or test. *)
Inductive ErrorKind :=
  | UnexpectedEof | InvalidData | InvalidInput | NotFound | TimedOut
  | PermissionDenied | BrokenPipe | WouldBlock | AddrNotAvailable | AddrInUse
  | Unsupported | WriteZero | ConnectionReset | ConnectionRefused | OtherKind.

#[export] Instance ErrorKind_eq_dec : EqDecision ErrorKind.
Proof. solve_decision. Defined.

(** [std::io::Error]: its kind and its text. *)
Record IoError := mkIo { io_kind : ErrorKind; io_msg : string }.

#[export] Instance IoError_eq_dec : EqDecision IoError.
Proof. solve_decision. Defined.

(** [std::io::Error::other] and [ErrorKind::into]. *)
Definition io_other (msg : string) : IoError := mkIo OtherKind msg.

Definition io_of_kind (k : ErrorKind) : IoError := mkIo k "".

(** [crate::Error].  The payload of a wrapped library error is its text; a
    formatted message is kept as its template, with the run-time values left
    out. *)
Inductive Error :=
  | Nul (text : string)
  | Io (err : IoError)
  | TryFromInt (text : string)
  | AddrParse (text : string)
  | Utf8 (text : string)
  | TryFromSlice (text : string)
  | IpStack (text : string)
  | DnsProto (text : string)
  | Httparse (text : string)
  | DigestAuth (text : string)
  | EString (text : string)
  | IntParseError (text : string).

#[export] Instance Error_eq_dec : EqDecision Error.
Proof. solve_decision. Defined.

(** The [Display] text of an error. *)
Definition error_text (err : Error) : string :=
  match err with
  | Nul t => "std::ffi::NulError " +:+ t
  | Io e => io_msg e
  | TryFromInt t => "TryFromIntError " +:+ t
  | AddrParse t => "std::net::AddrParseError " +:+ t
  | Utf8 t => "std::str::Utf8Error " +:+ t
  | TryFromSlice t => "TryFromSliceError " +:+ t
  | IpStack t => "IpStackError " +:+ t
  | DnsProto t => "DnsProtoError " +:+ t
  | Httparse t => "httparse::Error " +:+ t
  | DigestAuth t => "digest_auth::Error " +:+ t
  | EString t => t
  | IntParseError t => "std::num::ParseIntError " +:+ t
  end.

(** [impl From<Error> for std::io::Error]. *)
Definition io_from_error (err : Error) : IoError :=
  match err with
  | Io e => e
  | _ => io_other (error_text err)
  end.

(** What a Rust call returns: a value, an error, or a panic. *)
Inductive res (E A : Type) :=
  | Ok (a : A)
  | Err (e : E)
  | Panic.
Arguments Ok {_ _} _.
Arguments Err {_ _} _.
Arguments Panic {_ _}.

#[export] Instance res_ret {E} : MRet (res E) := fun _ a => Ok a.

#[export] Instance res_bind {E} : MBind (res E) := fun _ _ k r =>
  match r with Ok a => k a | Err e => Err e | Panic => Panic end.

(** [Result::map_err], used for the error conversions of the [?] operator. *)
Definition map_err {E F A} (f : E -> F) (r : res E A) : res F A :=
  match r with Ok a => Ok a | Err e => Err (f e) | Panic => Panic end.

(** [Option::ok_or]. *)
Definition ok_or {E A} (e : E) (o : option A) : res E A :=
  match o with Some a => Ok a | None => Err e end.

(** [Result::is_ok]. *)
Definition is_ok {E A} (r : res E A) : bool :=
  match r with Ok _ => true | _ => false end.

(** ** Methods on [&mut self]: a state monad whose error keeps the state *)

Definition M (S E A : Type) : Type := S -> res E A * S.

#[export] Instance M_ret {S E} : MRet (M S E) := fun _ a s => (Ok a, s).

#[export] Instance M_bind {S E} : MBind (M S E) := fun _ _ k m s =>
  match m s with
  | (Ok a, s') => k a s'
  | (Err e, s') => (Err e, s')
  | (Panic, s') => (Panic, s')
  end.

Definition gets {S E A} (f : S -> A) : M S E A := fun s => (Ok (f s), s).
Definition modify {S E} (f : S -> S) : M S E unit := fun s => (Ok tt, f s).
Definition throw {S E A} (e : E) : M S E A := fun s => (Err e, s).
Definition panic {S E A} : M S E A := fun s => (Panic, s).
Definition lift {S E A} (r : res E A) : M S E A := fun s => (r, s).
Definition map_errM {S E F A} (f : E -> F) (m : M S E A) : M S F A :=
  fun s => let '(r, s') := m s in (map_err f r, s').

(** Expose the state passing of a monadic definition. *)
Ltac run_M :=
  unfold mbind, M_bind, mret, M_ret, gets, modify, throw, panic, lift, map_errM in *; simpl in *.

(** ** Machine integers *)

Definition u8_max : Z := 255.
Definition u16_max : Z := 65535.
Definition u64_max : Z := 18446744073709551615.
(** [usize] on a 64-bit target. *)
Definition usize_max : Z := u64_max.

Definition is_u8 (z : Z) : Prop := 0 <= z < 256.
Definition is_u16 (z : Z) : Prop := 0 <= z < 65536.

(** [as u8], [as u16] and the wrapping operations. *)
Definition wrap8 (z : Z) : Z := z mod 256.
Definition wrap16 (z : Z) : Z := z mod 65536.
Definition wrap64 (z : Z) : Z := z mod 18446744073709551616.

(** [slice::len] as a [usize]. *)
Definition len {A} (l : list A) : Z := Z.of_nat (length l).

(** [u16::to_be_bytes] and [u16::from_be_bytes]. *)
Definition be16 (n : Z) : list Z := [(n / 256) mod 256; n mod 256].
Definition of_be16 (hi lo : Z) : Z := hi * 256 + lo.

#[global] Arguments Nat.ltb : simpl never.
#[global] Arguments be16 : simpl never.
#[global] Arguments of_be16 : simpl never.
#[global] Arguments wrap8 : simpl never.
#[global] Arguments wrap16 : simpl never.
#[global] Arguments wrap64 : simpl never.
#[global] Arguments len {A} l : simpl never.

Lemma of_be16_be16 n : is_u16 n -> of_be16 ((n / 256) mod 256) (n mod 256) = n.
Proof.
  intros [H1 H2]. unfold of_be16.
  rewrite (Z.mod_small (n / 256)).
  - pose proof (Z.div_mod n 256). lia.
  - split; [apply Z.div_pos | apply Z.div_lt_upper_bound]; lia.
Qed.

Lemma of_be16_u16 hi lo : is_u8 hi -> is_u8 lo -> is_u16 (of_be16 hi lo).
Proof. unfold is_u8, is_u16, of_be16. lia. Qed.

Lemma be16_of_be16 hi lo : is_u8 hi -> is_u8 lo -> be16 (of_be16 hi lo) = [hi; lo].
Proof.
  unfold is_u8, be16, of_be16. intros Hh Hl.
  rewrite Z.div_add_l by lia. rewrite (Z.div_small lo) by lia.
  rewrite Z.add_0_r, (Z.mod_small hi) by lia.
  rewrite Z.add_comm, Z.mod_add by lia. by rewrite Z.mod_small by lia.
Qed.

Lemma be16_u8 n : Forall is_u8 (be16 n).
Proof. repeat constructor; apply Z.mod_pos_bound; lia. Qed.

Lemma length_be16 n : length (be16 n) = 2%nat.
Proof. done. Qed.

Lemma len_app {A} (a b : list A) : len (a ++ b) = len a + len b.
Proof. unfold len. rewrite length_app. lia. Qed.

Lemma len_nonneg {A} (l : list A) : 0 <= len l.
Proof. unfold len. lia. Qed.

Lemma len_cons {A} (x : A) l : len (x :: l) = 1 + len l.
Proof. unfold len. simpl. lia. Qed.

(** ** Buffers *)

(** [VecDeque::drain(0..n)] and [Vec::drain(..n)] with the result dropped:
    the call panics when the range is out of bounds. *)
Definition drain {E A} (n : nat) (l : list A) : res E (list A) :=
  if (length l <? n)%nat then Panic else Ok (drop n l).

Lemma drain_ok {E A} n (l : list A) :
  (n <= length l)%nat -> drain (E := E) n l = Ok (drop n l).
Proof. intros H. unfold drain. by rewrite (proj2 (Nat.ltb_ge _ _)). Qed.

Lemma drain_app {E A} (a b : list A) : drain (E := E) (length a) (a ++ b) = Ok b.
Proof. rewrite drain_ok by (rewrite length_app; lia). by rewrite drop_app_length. Qed.

(** A list shorter than [w] that starts [w ++ e] is a strict prefix of [w]. *)
Lemma app_shorter {A} (a b w e : list A) :
  a ++ b = w ++ e -> (length a < length w)%nat ->
  exists r, r <> [] /\ w = a ++ r /\ b = r ++ e.
Proof.
  revert w. induction a as [|x a IH]; intros w Heq Hl.
  - exists w. split_and!; [|done|done]. intros ->. simpl in Hl. lia.
  - destruct w as [|y w]; simpl in *; [lia|]. simplify_eq.
    destruct (IH w) as (r & ? & -> & ->); [done|lia|]. by exists r.
Qed.

(** ** Text as bytes *)

(** [str::as_bytes]. *)
Fixpoint as_bytes (s : string) : list Z :=
  match s with
  | EmptyString => []
  | String c s' => Z.of_N (Ascii.N_of_ascii c) :: as_bytes s'
  end.

Lemma as_bytes_app s1 s2 : as_bytes (s1 +:+ s2) = as_bytes s1 ++ as_bytes s2.
Proof. induction s1 as [|c s1 IH]; simpl; [done|]. by f_equal. Qed.

Lemma as_bytes_u8 s : Forall is_u8 (as_bytes s).
Proof.
  induction s as [|c s IH]; simpl; constructor; [|done].
  unfold is_u8. pose proof (Ascii.N_ascii_bounded c). lia.
Qed.

Lemma length_as_bytes s : length (as_bytes s) = String.length s.
Proof. induction s; simpl; congruence. Qed.

(** [u8::to_ascii_lowercase] and [u8::eq_ignore_ascii_case]. *)
Definition lower8 (b : Z) : Z := if (65 <=? b) && (b <=? 90) then b + 32 else b.

Fixpoint eq_ignore_ascii_case (a b : list Z) : bool :=
  match a, b with
  | [], [] => true
  | x :: a', y :: b' => (lower8 x =? lower8 y) && eq_ignore_ascii_case a' b'
  | _, _ => false
  end.

(** [str::ends_with] and the prefix left by removing that suffix. *)
Definition ends_with (suffix s : string) : bool :=
  let k := String.length suffix in
  let n := String.length s in
  (k <=? n)%nat && bool_decide (String.substring (n - k) k s = suffix).

Definition strip_end (suffix s : string) : string :=
  String.substring 0 (String.length s - String.length suffix) s.

#[export] Hint Resolve be16_u8 as_bytes_u8 len_nonneg : rs.
