(* ===== verification/Net.v ===== *)
(** * Network values shared by every component

    [std::net] addresses, the session record of src/src/session_info.rs and the
    data directions of src/src/directions.rs.  An IPv4 address is its [u32]
    value and an IPv6 address its [u128] value; [octets] and [of_octets] are
    the big-endian views the sources use.  The flow label and scope of a
    [SocketAddrV6] are not represented: every address the sources build has
    them zero but the rows of the Windows UDP table, of which only address and
    port are compared. *)

From S2P Require Import Prelude.


(** ** IP addresses *)

Inductive IpAddr := V4 (ip : Z) | V6 (ip : Z).

#[export] Instance IpAddr_eq_dec : EqDecision IpAddr.
Proof. solve_decision. Defined.

#[export] Instance IpAddr_countable : Countable IpAddr.
Proof.
  refine (inj_countable'
    (fun a => match a with V4 n => inl n | V6 n => inr n end)
    (fun s : Z + Z => match s with inl n => V4 n | inr n => V6 n end) _).
  by intros [].
Defined.

Definition is_ipv4 (a : IpAddr) : bool := match a with V4 _ => true | V6 _ => false end.
Definition is_ipv6 (a : IpAddr) : bool := negb (is_ipv4 a).
Definition ip_value (a : IpAddr) : Z := match a with V4 n | V6 n => n end.
Definition ip_bytes (a : IpAddr) : nat := match a with V4 _ => 4%nat | V6 _ => 16%nat end.

(** The values an address type can hold. *)
Definition ip_wf (a : IpAddr) : Prop :=
  match a with V4 n => 0 <= n < 2 ^ 32 | V6 n => 0 <= n < 2 ^ 128 end.

(** [IpAddr]'s derived order: every IPv4 address sorts before every IPv6 one. *)
Definition ip_le (a b : IpAddr) : bool :=
  match a, b with
  | V4 x, V4 y | V6 x, V6 y => x <=? y
  | V4 _, V6 _ => true
  | V6 _, V4 _ => false
  end.

(** [Ipv4Addr::octets] and [Ipv6Addr::octets], most significant byte first. *)
Fixpoint be_bytes (k : nat) (n : Z) : list Z :=
  match k with
  | O => []
  | S k' => be_bytes k' (n / 256) ++ [n mod 256]
  end.

Definition of_be_bytes (bs : list Z) : Z := fold_left (fun acc b => acc * 256 + b) bs 0.

Definition octets (a : IpAddr) : list Z := be_bytes (ip_bytes a) (ip_value a).

#[global] Arguments octets : simpl never.

Definition is_unspecified (a : IpAddr) : bool := ip_value a =? 0.

Definition is_loopback (a : IpAddr) : bool :=
  match a with
  | V4 n => n / 2 ^ 24 =? 127
  | V6 n => n =? 1
  end.

Definition is_multicast (a : IpAddr) : bool :=
  match a with
  | V4 n => (224 <=? n / 2 ^ 24) && (n / 2 ^ 24 <=? 239)
  | V6 n => n / 2 ^ 120 =? 255
  end.

(** [Ipv6Addr::is_unicast_link_local], fe80::/10. *)
Definition is_unicast_link_local (n : Z) : bool := Z.land (n / 2 ^ 112) 65472 =? 65152.

Definition ipv4 (a b c d : Z) : IpAddr := V4 (a * 2 ^ 24 + b * 2 ^ 16 + c * 2 ^ 8 + d).

Lemma of_be_bytes_snoc bs b : of_be_bytes (bs ++ [b]) = of_be_bytes bs * 256 + b.
Proof. unfold of_be_bytes. by rewrite fold_left_app. Qed.

Lemma length_be_bytes k n : length (be_bytes k n) = k.
Proof. revert n. induction k as [|k IH]; intros n; simpl; [done|]. rewrite length_app, IH. simpl. lia. Qed.

Lemma be_bytes_u8 k n : Forall is_u8 (be_bytes k n).
Proof.
  revert n. induction k as [|k IH]; intros n; simpl; [constructor|].
  apply Forall_app; split; [apply IH|]. repeat constructor; apply Z.mod_pos_bound; lia.
Qed.

Lemma of_be_bytes_be_bytes k n :
  of_be_bytes (be_bytes k n) = n mod 256 ^ Z.of_nat k.
Proof.
  revert n. induction k as [|k IH]; intros n; simpl be_bytes.
  - unfold of_be_bytes. simpl. by rewrite Z.mod_1_r.
  - rewrite of_be_bytes_snoc, IH.
    rewrite Nat2Z.inj_succ, Z.pow_succ_r by lia.
    rewrite (Z.rem_mul_r n 256 (256 ^ Z.of_nat k)) by lia. lia.
Qed.

Lemma be_bytes_of_be_bytes bs :
  Forall is_u8 bs -> be_bytes (length bs) (of_be_bytes bs) = bs.
Proof.
  induction bs as [|b bs IH] using rev_ind; intros H; [done|].
  apply Forall_app in H as [H1 H2]. inversion H2 as [|?? Hb _]; subst.
  rewrite length_app, Nat.add_comm. cbn [length Nat.add be_bytes].
  unfold is_u8 in Hb.
  rewrite of_be_bytes_snoc, Z.div_add_l by lia.
  rewrite (Z.div_small b), Z.add_0_r, IH by (done || lia).
  rewrite Z.add_comm, Z.mod_add by lia. by rewrite Z.mod_small by lia.
Qed.

Lemma of_be_bytes_bound bs :
  Forall is_u8 bs -> 0 <= of_be_bytes bs < 256 ^ len bs.
Proof.
  intros H. rewrite <- (be_bytes_of_be_bytes bs H) at 1 2.
  rewrite of_be_bytes_be_bytes. apply Z.mod_pos_bound. unfold len. lia.
Qed.

(** ** Socket addresses *)

Record SocketAddr := mkSA { sa_ip : IpAddr; sa_port : Z }.

#[export] Instance SocketAddr_eq_dec : EqDecision SocketAddr.
Proof. solve_decision. Defined.

#[export] Instance SocketAddr_countable : Countable SocketAddr.
Proof.
  refine (inj_countable' (fun a => (sa_ip a, sa_port a)) (fun p => mkSA p.1 p.2) _).
  by intros [].
Defined.

Definition sa_is_ipv4 (a : SocketAddr) : bool := is_ipv4 (sa_ip a).
Definition sa_is_ipv6 (a : SocketAddr) : bool := is_ipv6 (sa_ip a).
Definition sa_wf (a : SocketAddr) : Prop := ip_wf (sa_ip a) /\ is_u16 (sa_port a).

(** [SocketAddr::set_ip]. *)
Definition set_ip (a : SocketAddr) (ip : IpAddr) : SocketAddr := mkSA ip (sa_port a).

(** ** Text form of addresses ([Display] of [std::net]) *)

Definition show_dec (n : Z) : string := pretty (Z.to_N n).

Definition hex_digit (d : Z) : string :=
  String (Ascii.ascii_of_N (Z.to_N (if d <? 10 then 48 + d else 87 + d))) EmptyString.

(** Lower-case hexadecimal of a 16-bit segment, without leading zeros. *)
Definition show_hex16 (n : Z) : string :=
  (if 4096 <=? n then hex_digit (n / 4096) else "") +:+
  (if 256 <=? n then hex_digit (n / 256 mod 16) else "") +:+
  (if 16 <=? n then hex_digit (n / 16 mod 16) else "") +:+
  hex_digit (n mod 16).

Definition show_ipv4 (n : Z) : string :=
  show_dec (n / 2 ^ 24) +:+ "." +:+ show_dec (n / 2 ^ 16 mod 256) +:+ "." +:+
  show_dec (n / 2 ^ 8 mod 256) +:+ "." +:+ show_dec (n mod 256).

Definition segments (n : Z) : list Z :=
  (fun i => n / 2 ^ (16 * (7 - Z.of_nat i)) mod 65536) <$> seq 0 8.

(** The first longest run of zero segments, as a start and a length. *)
Fixpoint zero_run (segs : list Z) (i : nat) (current longest : nat * nat) : nat * nat :=
  match segs with
  | [] => longest
  | s :: segs' =>
      if s =? 0 then
        let cur := if (current.2 =? 0)%nat then (i, 1%nat) else (current.1, S current.2) in
        zero_run segs' (S i) cur (if (longest.2 <? cur.2)%nat then cur else longest)
      else zero_run segs' (S i) (0%nat, 0%nat) longest
  end.

Fixpoint show_segments (segs : list Z) : string :=
  match segs with
  | [] => ""
  | [s] => show_hex16 s
  | s :: segs' => show_hex16 s +:+ ":" +:+ show_segments segs'
  end.

Definition show_ipv6 (n : Z) : string :=
  if n / 2 ^ 32 =? 65535 then "::ffff:" +:+ show_ipv4 (n mod 2 ^ 32)
  else
    let segs := segments n in
    let '(start, run) := zero_run segs 0 (0%nat, 0%nat) (0%nat, 0%nat) in
    if (1 <? run)%nat then
      show_segments (take start segs) +:+ "::" +:+ show_segments (drop (start + run) segs)
    else show_segments segs.

Definition show_ip (a : IpAddr) : string :=
  match a with V4 n => show_ipv4 n | V6 n => show_ipv6 n end.

Definition show_sockaddr (a : SocketAddr) : string :=
  match sa_ip a with
  | V4 n => show_ipv4 n +:+ ":" +:+ show_dec (sa_port a)
  | V6 n => "[" +:+ show_ipv6 n +:+ "]:" +:+ show_dec (sa_port a)
  end.

Example show_ip_examples :
  show_ip (ipv4 198 18 0 255) = "198.18.0.255" /\
  show_ip (V6 1) = "::1" /\ show_ip (V6 0) = "::" /\
  show_ip (V6 (0x20010db8 * 2 ^ 96 + 1)) = "2001:db8::1" /\
  show_ip (V6 (0x20010db8 * 2 ^ 96 + 0x10000)) = "2001:db8::1:0" /\
  show_sockaddr (mkSA (V6 1) 53) = "[::1]:53".
Proof. by vm_compute. Qed.

(** ** Sessions (session_info.rs) *)

Inductive IpProtocol := Tcp | Udp | Icmp | Other (p : Z).

#[export] Instance IpProtocol_eq_dec : EqDecision IpProtocol.
Proof. solve_decision. Defined.

Record SessionInfo := mkInfo
  { info_src : SocketAddr; info_dst : SocketAddr; info_protocol : IpProtocol; info_id : Z }.

#[export] Instance SessionInfo_eq_dec : EqDecision SessionInfo.
Proof. solve_decision. Defined.

(** [SessionInfo::new]: the identifier is the value of the global counter
    [SESSION_ID] before its wrapping increment.  The second component is the
    new value of the counter. *)
Definition session_info_new (session_id : Z) (src dst : SocketAddr) (protocol : IpProtocol)
    : SessionInfo * Z :=
  (mkInfo src dst protocol session_id, wrap64 (session_id + 1)).

(** [info.dst = destination] on a copy of the session record. *)
Definition with_dst (i : SessionInfo) (dst : SocketAddr) : SessionInfo :=
  mkInfo (info_src i) dst (info_protocol i) (info_id i).

Definition with_protocol (i : SessionInfo) (p : IpProtocol) : SessionInfo :=
  mkInfo (info_src i) (info_dst i) p (info_id i).

(** ** Directions (directions.rs) *)

Inductive IncomingDirection := FromServer | FromClient.
Inductive OutgoingDirection := ToServer | ToClient.

#[export] Instance IncomingDirection_eq_dec : EqDecision IncomingDirection.
Proof. solve_decision. Defined.
#[export] Instance OutgoingDirection_eq_dec : EqDecision OutgoingDirection.
Proof. solve_decision. Defined.

(** [DataEvent]: a direction and the borrowed bytes. *)
Record DataEvent (T : Type) := mkEvent { direction : T; buffer : list Z }.
Arguments mkEvent {_} _ _.
Arguments direction {_} _.
Arguments buffer {_} _.

(** Session identifiers stay distinct until the 64-bit counter wraps: the
    [n]-th session created after a counter value [c] has identifier
    [(c + n) mod 2^64]. *)
Fixpoint nth_session_counter (n : nat) (session_id : Z) : Z :=
  match n with
  | O => session_id
  | S n' => snd (session_info_new (nth_session_counter n' session_id)
                   (mkSA (V4 0) 0) (mkSA (V4 0) 0) Tcp)
  end.

Lemma nth_session_counter_value n c :
  0 <= c < 2 ^ 64 -> nth_session_counter n c = (c + Z.of_nat n) mod 2 ^ 64.
Proof.
  intros Hc. induction n as [|n IH].
  - rewrite Z.add_0_r. symmetry. by apply Z.mod_small.
  - change (nth_session_counter (S n) c) with (wrap64 (nth_session_counter n c + 1)).
    rewrite IH. unfold wrap64. change 18446744073709551616 with (2 ^ 64).
    rewrite Zplus_mod_idemp_l. f_equal. lia.
Qed.
