(* ===== verification/Socks5Impl.v ===== *)
(** * The SOCKS wire library, as an interface

    The crate [socks5_impl] is not part of the repository.  Its data types are
    declared here as the sources build and match them; its encoders and
    decoders are the operations of the class [Socks5], and what the sources
    rely on is the class of laws [Socks5Laws] (RFC 1928 and RFC 1929 framing,
    [StreamOperation::len], and the [UnexpectedEof] of a short read).
    [Rfc1928.v] holds a concrete instance. *)

From S2P Require Import Prelude Net.

(** [socks5_impl::Address]. *)
Inductive Address :=
  | SocketAddress (addr : SocketAddr)
  | DomainAddress (domain : string) (port : Z).

#[export] Instance Address_eq_dec : EqDecision Address.
Proof. solve_decision. Defined.

(** [socks5_impl::UserKey]. *)
Record UserKey := mkKey { username : string; password : string }.

#[export] Instance UserKey_eq_dec : EqDecision UserKey.
Proof. solve_decision. Defined.

(** [UserKey::default()]. *)
Definition default_key : UserKey := mkKey "" "".

Inductive Version := VSocks4 | VSocks5.

(** [version as u8]. *)
Definition version_code (v : Version) : Z := match v with VSocks4 => 4 | VSocks5 => 5 end.

Inductive Command := Connect | Bind | UdpAssociate.

#[export] Instance Command_eq_dec : EqDecision Command.
Proof. solve_decision. Defined.

Definition command_code (c : Command) : Z :=
  match c with Connect => 1 | Bind => 2 | UdpAssociate => 3 end.

(** [AuthMethod] by its code, the argument of [AuthMethod::from(u8)]. *)
Definition AuthMethod := Z.
Definition NoAuth : AuthMethod := 0.
Definition UserPass : AuthMethod := 2.

(** [password_method::Status::Succeeded] and [protocol::Reply::Succeeded]. *)
Definition StatusSucceeded : Z := 0.
Definition ReplySucceeded : Z := 0.

(** [protocol::Response]. *)
Record Response := mkResponse { reply : Z; bound : Address }.

(** Encoders and decoders.  A decoder is [retrieve_from_stream] on a copy of
    the bytes received so far; an encoder is what [write_to_stream] appends;
    [*_len] is [StreamOperation::len]. *)
Class Socks5 := {
  handshake_request : list AuthMethod -> list Z;
  handshake_response : list Z -> res IoError AuthMethod;
  handshake_response_len : AuthMethod -> nat;
  password_request : string -> string -> res IoError (list Z);
  password_response : list Z -> res IoError Z;
  password_response_len : Z -> nat;
  request : Command -> Address -> res IoError (list Z);
  response : list Z -> res IoError Response;
  response_len : Response -> nat;
  address_write : Address -> list Z;
  address_read : list Z -> res IoError (Address * list Z);
  address_len : Address -> nat;
  udp_header_write : Address -> res IoError (list Z);
  udp_header_read : list Z -> res IoError nat;
  sockaddr_try_from : Address -> res IoError SocketAddr;
}.

(** [decodes read len wire m]: [wire] is the wire form of [m].  Reading it,
    whatever follows, gives [m]; a strict prefix of it is a short read; its
    length is what [len] reports. *)
Definition decodes {A} (read : list Z -> res IoError A) (msg_len : A -> nat)
    (wire : list Z) (m : A) : Prop :=
  length wire = msg_len m /\
  (forall rest, read (wire ++ rest) = Ok m) /\
  (forall p s, wire = p ++ s -> s <> [] ->
     exists e, read p = Err e /\ io_kind e = UnexpectedEof).

(** The addresses the wire format can carry: a domain name has at most 255
    bytes, a port is 16 bits wide. *)
Definition address_ok (a : Address) : Prop :=
  match a with
  | SocketAddress s => sa_wf s
  | DomainAddress d p => len (as_bytes d) <= 255 /\ is_u16 p
  end.

Class Socks5Laws `{Socks5} := {
  (** a decoder never reports more bytes than it was given *)
  handshake_response_fits : forall bs m,
    handshake_response bs = Ok m -> (handshake_response_len m <= length bs)%nat;
  password_response_fits : forall bs s,
    password_response bs = Ok s -> (password_response_len s <= length bs)%nat;
  response_fits : forall bs r,
    response bs = Ok r -> (response_len r <= length bs)%nat;
  (** the decoders are total: no panic *)
  handshake_response_total : forall bs, handshake_response bs <> Panic;
  password_response_total : forall bs, password_response bs <> Panic;
  response_total : forall bs, response bs <> Panic;
  (** the encoders are total *)
  handshake_request_nonempty : forall ms, handshake_request ms <> [];
  password_request_total : forall u p, password_request u p <> Panic;
  request_total : forall c a, request c a <> Panic;
  request_nonempty : forall c a bs, request c a = Ok bs -> bs <> [];
  sockaddr_try_from_total : forall a, sockaddr_try_from a <> Panic;
  sockaddr_try_from_socket : forall s, sockaddr_try_from (SocketAddress s) = Ok s;
  (** RFC 1928, section 5: the address field *)
  address_write_len : forall a, length (address_write a) = address_len a;
  address_read_write : forall a rest,
    address_ok a -> address_read (address_write a ++ rest) = Ok (a, rest);
  address_read_consumes : forall bs a rest,
    address_read bs = Ok (a, rest) ->
    exists used, bs = used ++ rest /\ length used = address_len a;
  address_read_extends : forall bs a rest more,
    address_read bs = Ok (a, rest) -> address_read (bs ++ more) = Ok (a, rest ++ more);
  address_read_total : forall bs, address_read bs <> Panic;
  (** the UDP request header precedes the datagram *)
  udp_header_round_trip : forall a bs rest,
    udp_header_write a = Ok bs -> udp_header_read (bs ++ rest) = Ok (length bs);
  (** RFC 1928, section 7: RSV and FRAG are zero in a header made with FRAG 0 *)
  udp_header_shape : forall a bs,
    udp_header_write a = Ok bs -> (4 <= length bs)%nat /\ take 3 bs = [0; 0; 0];
  udp_header_fits : forall bs n, udp_header_read bs = Ok n -> (n <= length bs)%nat;
  udp_header_write_total : forall a, udp_header_write a <> Panic;
  udp_header_read_total : forall bs, udp_header_read bs <> Panic;
}.

(** RFC 1928, sections 4 and 5: an address on the wire is its type, the address
    or the counted name, and the port. *)
Definition address_wire (a : Address) : list Z :=
  match a with
  | SocketAddress s => (if sa_is_ipv4 s then 1 else 4) :: octets (sa_ip s) ++ be16 (sa_port s)
  | DomainAddress d p => 3 :: len (as_bytes d) :: as_bytes d ++ be16 p
  end.

(** The wire forms of the UDP header: RSV, RSV and FRAG before the address. *)
Class Socks5Wire `{Socks5} := {
  address_read_wire : forall bs a rest,
    Forall is_u8 bs -> address_read bs = Ok (a, rest) -> bs = address_wire a ++ rest;
  udp_header_write_wire : forall a bs,
    udp_header_write a = Ok bs -> bs = [0; 0; 0] ++ address_wire a;
  udp_header_read_wire : forall bs n, (n <= length bs)%nat ->
    udp_header_read bs = Ok n <->
    (3 <= length bs)%nat /\ exists a, address_read (drop 3 bs) = Ok (a, drop n bs);
}.
