(* ===== verification/Rfc1928.v ===== *)
(** * A concrete SOCKS wire library

    An instance of [Socks5] that follows RFC 1928 and RFC 1929, with the proof
    that it satisfies [Socks5Laws].  The theorems of the other files are
    proved against the class; this instance shows that the laws can hold and
    lets the examples run. *)

From S2P Require Import Prelude Net Socks5Impl.

Module Rfc1928.

(** ** Text *)

Fixpoint of_bytes (bs : list Z) : string :=
  match bs with
  | [] => EmptyString
  | b :: bs' => String (Ascii.ascii_of_N (Z.to_N b)) (of_bytes bs')
  end.

Lemma of_bytes_as_bytes s : of_bytes (as_bytes s) = s.
Proof.
  induction s as [|c s IH]; simpl; [done|].
  by rewrite N2Z.id, Ascii.ascii_N_embedding, IH.
Qed.

(** ** Reading *)

Definition eof {A} : res IoError A := Err (io_of_kind UnexpectedEof).
Definition invalid {A} : res IoError A := Err (io_of_kind InvalidData).

(** [read_exact] of [n] bytes. *)
Definition take_exact (n : nat) (bs : list Z) : res IoError (list Z * list Z) :=
  if (length bs <? n)%nat then eof else Ok (take n bs, drop n bs).

Definition read_port (bs : list Z) : res IoError (Z * list Z) :=
  match bs with
  | hi :: lo :: rest => Ok (of_be16 hi lo, rest)
  | _ => eof
  end.

Definition addr_read (bs : list Z) : res IoError (Address * list Z) :=
  match bs with
  | [] => eof
  | 1 :: bs1 =>
      '(ip, bs2) ← take_exact 4 bs1;
      '(port, rest) ← read_port bs2;
      mret (SocketAddress (mkSA (V4 (of_be_bytes ip)) port), rest)
  | 4 :: bs1 =>
      '(ip, bs2) ← take_exact 16 bs1;
      '(port, rest) ← read_port bs2;
      mret (SocketAddress (mkSA (V6 (of_be_bytes ip)) port), rest)
  | 3 :: bs1 =>
      '(n, bs2) ← take_exact 1 bs1;
      '(name, bs3) ← take_exact (Z.to_nat (default 0 (head n))) bs2;
      '(port, rest) ← read_port bs3;
      mret (DomainAddress (of_bytes name) port, rest)
  | _ => invalid
  end.

Definition addr_write (a : Address) : list Z :=
  match a with
  | SocketAddress s => (if sa_is_ipv4 s then 1 else 4) :: octets (sa_ip s) ++ be16 (sa_port s)
  | DomainAddress d p => 3 :: len (as_bytes d) :: as_bytes d ++ be16 p
  end.

Definition addr_len (a : Address) : nat :=
  match a with
  | SocketAddress s => (1 + ip_bytes (sa_ip s) + 2)%nat
  | DomainAddress d _ => (2 + String.length d + 2)%nat
  end.

Definition two_byte (tag : Z) (bs : list Z) : res IoError Z :=
  match bs with
  | t :: rest =>
      if t =? tag then match rest with v :: _ => Ok v | [] => eof end else invalid
  | [] => eof
  end.

Definition read_response (bs : list Z) : res IoError Response :=
  '(hd, bs1) ← take_exact 3 bs;
  match hd with
  | [5; r; _] => '(a, _) ← addr_read bs1; mret (mkResponse r a)
  | _ => invalid
  end.

Definition too_long {A} : res IoError A := Err (io_of_kind InvalidInput).

#[export] Instance rfc1928 : Socks5 := {
  handshake_request := fun ms => [5; len ms] ++ ms;
  handshake_response := two_byte 5;
  handshake_response_len := fun _ => 2%nat;
  password_request := fun u p =>
    if (255 <? String.length u)%nat || (255 <? String.length p)%nat then too_long
    else Ok ([1; len (as_bytes u)] ++ as_bytes u ++ [len (as_bytes p)] ++ as_bytes p);
  password_response := two_byte 1;
  password_response_len := fun _ => 2%nat;
  request := fun c a =>
    match a with
    | DomainAddress d _ => if (255 <? String.length d)%nat then too_long
                           else Ok ([5; command_code c; 0] ++ addr_write a)
    | _ => Ok ([5; command_code c; 0] ++ addr_write a)
    end;
  response := read_response;
  response_len := fun r => (3 + addr_len (bound r))%nat;
  address_write := addr_write;
  address_read := addr_read;
  address_len := addr_len;
  udp_header_write := fun a =>
    match a with
    | SocketAddress _ => Ok ([0; 0; 0] ++ addr_write a)
    | DomainAddress d _ =>
        if (255 <? String.length d)%nat then too_long else Ok ([0; 0; 0] ++ addr_write a)
    end;
  udp_header_read := fun bs =>
    '(hd, bs1) ← take_exact 3 bs;
    '(a, rest) ← addr_read bs1;
    mret (length bs - length rest)%nat;
  sockaddr_try_from := fun a =>
    match a with
    | SocketAddress s => Ok s
    | DomainAddress _ _ => Err (io_of_kind InvalidInput)
    end;
}.

(** ** Laws *)

Lemma take_exact_app n a rest : length a = n -> take_exact n (a ++ rest) = Ok (a, rest).
Proof.
  intros <-. unfold take_exact. rewrite (proj2 (Nat.ltb_ge _ _)) by (rewrite length_app; lia).
  by rewrite take_app_length, drop_app_length.
Qed.

Lemma take_exact_inv n bs a rest :
  take_exact n bs = Ok (a, rest) -> bs = a ++ rest /\ length a = n.
Proof.
  unfold take_exact. destruct (_ <? _)%nat eqn:E; [done|]. b2p. intros [= <- <-].
  rewrite take_drop, length_take. split; [done|lia].
Qed.

Lemma take_exact_total n bs : take_exact n bs <> Panic.
Proof. unfold take_exact. by destruct (_ <? _)%nat. Qed.

Lemma read_port_inv bs p rest :
  read_port bs = Ok (p, rest) -> exists hi lo, bs = hi :: lo :: rest /\ p = of_be16 hi lo.
Proof. destruct bs as [|hi [|lo bs]]; simpl; try done. intros [= <- <-]. by exists hi, lo. Qed.

(** Success of a bind. *)
Lemma bind_ok {A B} (r : res IoError A) (k : A -> res IoError B) b :
  r ≫= k = Ok b -> exists a, r = Ok a /\ k a = Ok b.
Proof. destruct r; simpl; try done. intros. by eexists. Qed.

Lemma as_bytes_of_bytes bs : Forall is_u8 bs -> as_bytes (of_bytes bs) = bs.
Proof.
  induction 1 as [|b bs Hb Hbs IH]; simpl; [done|]. rewrite IH. f_equal.
  unfold is_u8 in Hb. rewrite Ascii.N_ascii_embedding by lia. lia.
Qed.

Lemma length_of_bytes bs : String.length (of_bytes bs) = length bs.
Proof. induction bs; simpl; congruence. Qed.

(** An address that was read: the bytes it used, and that any bytes may follow. *)
Lemma addr_read_inv bs a rest :
  addr_read bs = Ok (a, rest) ->
  exists used, bs = used ++ rest /\ length used = addr_len a /\
    forall more, addr_read (used ++ more) = Ok (a, more).
Proof.
  intros Hr. destruct bs as [|t bs]; [done|]. unfold addr_read in Hr.
  destruct (decide (t = 1)) as [->|]; [|destruct (decide (t = 4)) as [->|];
    [|destruct (decide (t = 3)) as [->|]]].
  - apply bind_ok in Hr as ([ip b2] & [-> Hl]%take_exact_inv & Hr).
    apply bind_ok in Hr as ([p b3] & (hi & lo & -> & ->)%read_port_inv & [= <- <-]).
    exists (1 :: ip ++ [hi; lo]). split; [cbn [app]; by rewrite <- app_assoc|]. split.
    + simpl. rewrite length_app. simpl. lia.
    + intros more. cbn [app addr_read]. rewrite <- app_assoc, take_exact_app by done. done.
  - apply bind_ok in Hr as ([ip b2] & [-> Hl]%take_exact_inv & Hr).
    apply bind_ok in Hr as ([p b3] & (hi & lo & -> & ->)%read_port_inv & [= <- <-]).
    exists (4 :: ip ++ [hi; lo]). split; [cbn [app]; by rewrite <- app_assoc|]. split.
    + simpl. rewrite length_app. simpl. lia.
    + intros more. cbn [app addr_read]. rewrite <- app_assoc, take_exact_app by done. done.
  - apply bind_ok in Hr as ([k b1] & [-> Hn]%take_exact_inv & Hr).
    apply bind_ok in Hr as ([name b2] & [-> Hl]%take_exact_inv & Hr).
    apply bind_ok in Hr as ([p b3] & (hi & lo & -> & ->)%read_port_inv & [= <- <-]).
    exists (3 :: k ++ name ++ [hi; lo]). split; [cbn [app]; by rewrite <- !app_assoc|]. split.
    + simpl. rewrite !length_app, length_of_bytes. simpl. lia.
    + intros more. cbn [app addr_read]. rewrite <- !app_assoc, take_exact_app by done.
      unfold mbind, res_bind. rewrite take_exact_app by done. done.
  - destruct t as [|[[[]|[]|]|[[]|[]|]|]|]; done.
Qed.

Lemma addr_read_total bs : addr_read bs <> Panic.
Proof.
  destruct bs as [|t bs]; [done|]. unfold addr_read, take_exact, read_port, mbind, res_bind.
  repeat (split_match; simplify_eq/=); done.
Qed.

Lemma addr_read_write a rest :
  address_ok a -> addr_read (addr_write a ++ rest) = Ok (a, rest).
Proof.
  destruct a as [[[n|n] p]|d p]; [simpl|simpl|].
  - intros [Hn Hp]. cbn in Hn, Hp.
    change (of_be_bytes _) with (of_be_bytes (be_bytes 4 n)).
    rewrite of_be16_be16, of_be_bytes_be_bytes by done. simpl. by rewrite Z.mod_small.
  - intros [Hn Hp]. cbn in Hn, Hp.
    change (of_be_bytes _) with (of_be_bytes (be_bytes 16 n)).
    rewrite of_be16_be16, of_be_bytes_be_bytes by done. simpl. by rewrite Z.mod_small.
  - intros [Hd Hp]. cbn [addr_write app addr_read]. rewrite <- app_assoc.
    change (?x :: as_bytes d ++ ?l) with ([x] ++ as_bytes d ++ l). rewrite take_exact_app by done.
    unfold mbind, res_bind. cbn [head default].
    rewrite take_exact_app by (unfold len; simpl; lia).
    simpl. rewrite of_bytes_as_bytes, of_be16_be16 by done. done.
Qed.

Lemma two_byte_fits tag bs v : two_byte tag bs = Ok v -> (2 <= length bs)%nat.
Proof. destruct bs as [|t [|v' bs]]; simpl; [done|by destruct (_ =? _)|lia]. Qed.

Lemma two_byte_total tag bs : two_byte tag bs <> Panic.
Proof. destruct bs as [|t [|v' bs]]; simpl; try done; by destruct (_ =? _). Qed.

Lemma two_byte_decodes tag v : decodes (two_byte tag) (fun _ => 2%nat) [tag; v] v.
Proof.
  split_and!; [done| |].
  - intros rest. simpl. by rewrite Z.eqb_refl.
  - intros p s Hp Hs. exists (io_of_kind UnexpectedEof).
    destruct p as [|x [|y [|z p]]]; simplify_eq/=; try done. by rewrite Z.eqb_refl.
Qed.

Lemma read_response_inv bs r :
  read_response bs = Ok r -> (3 + addr_len (bound r) <= length bs)%nat.
Proof.
  intros Hr. unfold read_response in Hr.
  apply bind_ok in Hr as ([hd b1] & [-> Hl]%take_exact_inv & Hr).
  repeat (split_match; simplify_eq/=).
  apply bind_ok in Hr as ([a rest] & (used & -> & Hu & _)%addr_read_inv & [= <-]).
  simpl. rewrite <- Hu, length_app. lia.
Qed.

Lemma read_response_total bs : read_response bs <> Panic.
Proof.
  unfold read_response. intros Hp.
  pose proof (take_exact_total 3 bs). pose proof addr_read_total.
  unfold mbind, res_bind in *. repeat (split_match; simplify_eq/=); naive_solver.
Qed.

Lemma header_read a rest :
  (match a with DomainAddress d _ => String.length d <= 255 | _ => True end)%nat ->
  exists b, addr_read (addr_write a ++ rest) = Ok (b, rest).
Proof.
  destruct a as [[[n|n] p]|d p]; intros Hd; [by eexists|by eexists|].
  cbn [addr_write app addr_read]. rewrite <- app_assoc.
  change (?x :: as_bytes d ++ ?l) with ([x] ++ as_bytes d ++ l). rewrite take_exact_app by done.
  unfold mbind, res_bind. cbn [head default].
  rewrite take_exact_app by (unfold len; simpl; lia). by eexists.
Qed.

(** The reply of a server, with an IPv4 bound address. *)
Lemma reply_decodes r a b c d hi lo :
  decodes response response_len [5; r; 0; 1; a; b; c; d; hi; lo]
    (mkResponse r (SocketAddress (mkSA (V4 (of_be_bytes [a; b; c; d])) (of_be16 hi lo)))).
Proof.
  split_and!; [done|done|].
  intros p s Hp Hs. exists (io_of_kind UnexpectedEof).
  do 11 (destruct p as [|? p]; [by split|]; simplify_eq/=).
Qed.

#[export] Instance rfc1928_laws : Socks5Laws.
Proof.
  constructor; simpl.
  - intros bs m. apply two_byte_fits.
  - intros bs m. apply two_byte_fits.
  - intros bs r. apply read_response_inv.
  - intros bs. apply two_byte_total.
  - intros bs. apply two_byte_total.
  - apply read_response_total.
  - done.
  - intros u p. by destruct (_ || _).
  - intros c [s|d p]; [done|]. by destruct (_ <? _)%nat.
  - intros c [s|d p] bs; [by intros [= <-]|]. destruct (_ <? _)%nat; [done|]. by intros [= <-].
  - by intros [].
  - done.
  - intros [[[n|n] p]|d p]; simpl; [done|done|].
    rewrite length_app, length_as_bytes. simpl. lia.
  - apply addr_read_write.
  - intros bs a rest (used & ? & ? & _)%addr_read_inv. by exists used.
  - intros bs a rest more (used & -> & _ & Hm)%addr_read_inv. by rewrite <- app_assoc.
  - apply addr_read_total.
  - intros a bs rest Hw.
    assert (bs = [0; 0; 0] ++ addr_write a /\
      exists b, addr_read (addr_write a ++ rest) = Ok (b, rest)) as [-> [b Hb]].
    { destruct a as [s|d p].
      - simplify_eq. split; [done|]. by apply header_read.
      - destruct (255 <? _)%nat eqn:E; [done|]. b2p. simplify_eq. split; [done|].
        by apply header_read. }
    rewrite <- app_assoc, take_exact_app by done. unfold mbind, res_bind. rewrite Hb.
    unfold mret, res_ret. f_equal. rewrite !length_app. lia.
  - intros [s|d p] bs; [intros [= <-]; split; [simpl; lia|done]|].
    destruct (_ <? _)%nat; [done|]. intros [= <-]. split; [simpl; lia|done].
  - intros bs n Hr. apply bind_ok in Hr as ([hd b1] & [-> Hl]%take_exact_inv & Hr).
    apply bind_ok in Hr as ([a rest] & _ & [= <-]). lia.
  - intros [s|d p]; [done|]. by destruct (_ <? _)%nat.
  - intros bs Hp. pose proof (take_exact_total 3 bs). pose proof addr_read_total.
    unfold mbind, res_bind in *. repeat (split_match; simplify_eq/=); naive_solver.
Qed.

Lemma octets_of_bytes_4 ip : length ip = 4%nat -> Forall is_u8 ip -> octets (V4 (of_be_bytes ip)) = ip.
Proof. intros Hl Hu. rewrite <- (be_bytes_of_be_bytes ip Hu) at 2. by rewrite Hl. Qed.

Lemma octets_of_bytes_16 ip : length ip = 16%nat -> Forall is_u8 ip -> octets (V6 (of_be_bytes ip)) = ip.
Proof. intros Hl Hu. rewrite <- (be_bytes_of_be_bytes ip Hu) at 2. by rewrite Hl. Qed.

Lemma addr_read_wire bs a rest :
  Forall is_u8 bs -> addr_read bs = Ok (a, rest) -> bs = address_wire a ++ rest.
Proof.
  intros Hu Hr. destruct bs as [|t bs]; [done|]. apply Forall_cons in Hu as [_ Hu]. unfold addr_read in Hr.
  destruct (decide (t = 1)) as [->|]; [|destruct (decide (t = 4)) as [->|];
    [|destruct (decide (t = 3)) as [->|]]].
  - apply bind_ok in Hr as ([ip b2] & [-> Hl]%take_exact_inv & Hr).
    apply bind_ok in Hr as ([p b3] & (hi & lo & -> & ->)%read_port_inv & [= <- <-]).
    apply Forall_app in Hu as [Hip Hp]. apply Forall_cons in Hp as [? Hp]. apply Forall_cons in Hp as [? _].
    unfold address_wire. cbn [sa_is_ipv4 is_ipv4 sa_ip sa_port app].
    rewrite octets_of_bytes_4, be16_of_be16, <- app_assoc by done. done.
  - apply bind_ok in Hr as ([ip b2] & [-> Hl]%take_exact_inv & Hr).
    apply bind_ok in Hr as ([p b3] & (hi & lo & -> & ->)%read_port_inv & [= <- <-]).
    apply Forall_app in Hu as [Hip Hp]. apply Forall_cons in Hp as [? Hp]. apply Forall_cons in Hp as [? _].
    unfold address_wire. cbn [sa_is_ipv4 is_ipv4 sa_ip sa_port app].
    rewrite octets_of_bytes_16, be16_of_be16, <- app_assoc by done. done.
  - apply bind_ok in Hr as ([k b1] & [-> Hn]%take_exact_inv & Hr).
    apply bind_ok in Hr as ([name b2] & [-> Hl]%take_exact_inv & Hr).
    apply bind_ok in Hr as ([p b3] & (hi & lo & -> & ->)%read_port_inv & [= <- <-]).
    destruct k as [|k [|]]; try done. cbn [app head default] in *.
    apply Forall_cons in Hu as [? Hu]. apply Forall_app in Hu as [Hip Hp].
    apply Forall_cons in Hp as [? Hp]. apply Forall_cons in Hp as [? _].
    unfold address_wire. cbn [app]. rewrite as_bytes_of_bytes, be16_of_be16, <- app_assoc by done.
    unfold len, id in *. rewrite Hl, Z2Nat.id by (unfold is_u8 in *; lia). done.
  - destruct t as [|[[[]|[]|]|[[]|[]|]|]|]; done.
Qed.

#[export] Instance rfc1928_wire : Socks5Wire.
Proof.
  constructor; simpl.
  - apply addr_read_wire.
  - intros [s|d p] bs; [by intros [= <-]|]. destruct (_ <? _)%nat; [done|]. by intros [= <-].
  - intros bs n Hn. unfold take_exact. destruct (length bs <? 3)%nat eqn:E; b2p.
    { split; [done|]. intros [? _]. lia. }
    unfold mbind, res_bind. pose proof (length_drop bs 3) as Hd.
    destruct (addr_read (drop 3 bs)) as [[a rest]|e|] eqn:Ea; [|by split; [|intros (_ & ? & ?)]..].
    destruct (addr_read_inv _ _ _ Ea) as (used & Hb & _). rewrite Hb in Hd. rewrite length_app in Hd.
    unfold mret, res_ret. split.
    + intros [= <-]. split; [lia|]. exists a. f_equal. f_equal. rewrite <- (take_drop 3 bs) at 2. rewrite Hb.
      rewrite (app_assoc (take 3 bs)), drop_app_length'; [done|]. rewrite length_app, length_take. lia.
    + intros (_ & a' & [= _ ->]). f_equal. rewrite length_drop. lia.
Qed.
End Rfc1928.
