(* ===== verification/ProxyHandler.v ===== *)
(** * The proxy handler interface and its driver

    [ProxyHandler] is the trait of src/src/proxy_handler.rs, [ProxyHandlerLaws]
    what the drivers of src/src/lib.rs need from an implementation.  The
    drivers modelled here are [handle_proxy_session], which runs a proxy
    handshake over the server connection, the copy loop
    [copy_and_record_traffic], and the hand-over of [handle_tcp_session] from
    the handshake to the relay. *)

From S2P Require Import Prelude Net.

(** The trait.  [peek_data] returns the bytes of [make_contiguous];
    [consume_data] can only panic. *)
Class ProxyHandler (H : Type) := {
  get_server_addr : H -> SocketAddr;
  get_session_info : H -> SessionInfo;
  get_domain_name : H -> option string;
  push_data : DataEvent IncomingDirection -> M H IoError unit;
  consume_data : OutgoingDirection -> nat -> M H IoError unit;
  peek_data : OutgoingDirection -> H -> list Z;
  connection_established : H -> bool;
  data_len : OutgoingDirection -> H -> nat;
  reset_connection : H -> bool;
  get_udp_associate : H -> option SocketAddr;
}.

(** What a driver relies on.  [handler_ok] is the implementation's invariant. *)
Class ProxyHandlerLaws (H : Type) `{ProxyHandler H} := {
  handler_ok : H -> Prop;
  push_keeps_ok : forall ev h r h',
    handler_ok h -> push_data ev h = (r, h') -> r <> Panic -> handler_ok h';
  consume_drops : forall dir n h,
    handler_ok h -> (n <= length (peek_data dir h))%nat ->
    exists h', consume_data dir n h = (Ok tt, h') /\ handler_ok h' /\
      peek_data dir h' = drop n (peek_data dir h) /\
      (forall dir', dir' <> dir -> peek_data dir' h' = peek_data dir' h) /\
      connection_established h' = connection_established h /\
      get_udp_associate h' = get_udp_associate h;
  data_len_peek : forall dir h, data_len dir h = length (peek_data dir h);
  push_established : forall ev h,
    handler_ok h -> connection_established h = true ->
    exists h', push_data ev h = (Ok tt, h') /\ connection_established h' = true /\
      get_udp_associate h' = get_udp_associate h /\
      peek_data ToClient h' = peek_data ToClient h ++
        (if decide (direction ev = FromServer) then buffer ev else []) /\
      peek_data ToServer h' = peek_data ToServer h ++
        (if decide (direction ev = FromClient) then buffer ev else []);
}.

(** A handler whose [push_data] always returns. *)
Class ProxyHandlerTotal (H : Type) `{ProxyHandlerLaws H} :=
  push_total : forall ev h, handler_ok h -> (push_data ev h).1 <> Panic.

(** ** The connection to the proxy server *)

(** The server stream as the driver sees it: the results of its next reads
    (an empty read is the end of the stream), the results of its next
    [write_all]s ([None] is success, and a missing entry succeeds too), the
    bytes written so far, and the traffic records made. *)
Record Server := mkServer
  { reads : list (res IoError (list Z)); write_results : list (option IoError);
    written : list Z; traffic : list (Z * Z) }.

(** [write_all]: all the bytes are written, or an error is returned. *)
Definition write_all (bs : list Z) (s : Server) : res IoError unit * Server :=
  match write_results s with
  | Some e :: rest => (Err e, mkServer (reads s) rest (written s) (traffic s))
  | None :: rest => (Ok tt, mkServer (reads s) rest (written s ++ bs) (traffic s))
  | [] => (Ok tt, mkServer (reads s) [] (written s ++ bs) (traffic s))
  end.

(** How far a driver got: it returned, or it is waiting for a read that has
    not completed. *)
Inductive progress (A : Type) := Returned (a : A) | Waiting.
Arguments Returned {_} _.
Arguments Waiting {_}.

(** Outcome of sending the handler's pending bytes. *)
Definition flush `{ProxyHandler H} (h : H) (s : Server) : res Error unit * H * Server :=
  let data := peek_data ToServer h in
  match write_all data s with
  | (Err e, s') => (Err (Io e), h, s')
  | (Panic, s') => (Panic, h, s')
  | (Ok _, s') =>
      let '(r, h') := consume_data ToServer (length data) h in
      (map_err Io r, h', s')
  end.

(** The part of the loop of [handle_proxy_session] that follows the
    [connection_established] test, up to the next turn of the loop.  The
    remaining reads are the recursion argument: each turn takes one. *)
Fixpoint session_loop `{ProxyHandler H} (rs : list (res IoError (list Z)))
    (tx rx : Z) (h : H) (s : Server)
    : progress (res Error (option SocketAddr)) * H * Server * list (res IoError (list Z)) :=
  match rs with
  | [] => (Waiting, h, s, [])
  | Err e :: rs' => (Returned (Err (Io e)), h, s, rs')
  | Panic :: rs' => (Returned Panic, h, s, rs')
  | Ok [] :: rs' => (Returned (Err (EString "server closed accidentially")), h, s, rs')
  | Ok bs :: rs' =>
      match push_data (mkEvent FromServer bs) h with
      | (Err e, h') => (Returned (Err (Io e)), h', s, rs')
      | (Panic, h') => (Returned Panic, h', s, rs')
      | (Ok _, h') =>
          let pending := length (peek_data ToServer h') in
          let '(r, h'', s'') := if (0 <? pending)%nat then flush h' s else (Ok tt, h', s) in
          match r with
          | Err e => (Returned (Err e), h'', s'', rs')
          | Panic => (Returned Panic, h'', s'', rs')
          | Ok _ =>
              let tx' := tx + Z.of_nat pending in
              let rx' := rx + len bs in
              if connection_established h'' then
                (Returned (Ok (get_udp_associate h'')), h'',
                 mkServer [] (write_results s'') (written s'') (traffic s'' ++ [(tx', rx')]), rs')
              else session_loop rs' tx' rx' h'' s''
          end
      end
  end.

(** [handle_proxy_session]. *)
Definition handle_proxy_session `{ProxyHandler H} (h : H) (s : Server)
    : progress (res Error (option SocketAddr)) * H * Server :=
  if connection_established h then
    (Returned (Ok (get_udp_associate h)), h,
     mkServer (reads s) (write_results s) (written s) (traffic s ++ [(0, 0)]))
  else
    let data := peek_data ToServer h in
    if (length data =? 0)%nat then
      (Returned (Err (EString "proxy_handler launched went wrong")), h, s)
    else
      match flush h s with
      | (Err e, h', s') => (Returned (Err e), h', s')
      | (Panic, h', s') => (Returned Panic, h', s')
      | (Ok _, h', s') =>
          let '(p, h'', s'', rest) := session_loop (reads s') (len data) 0 h' s' in
          (p, h'', mkServer rest (write_results s'') (written s'') (traffic s''))
      end.

(** ** The TCP relay *)

(** [copy_and_record_traffic]: copy until the end of the reader, recording
    every chunk.  [Server] stands for the writer half. *)
Fixpoint copy_and_record_traffic (rs : list (res IoError (list Z))) (is_tx : bool)
    (total : Z) (w : Server) : progress (res IoError Z) * Server :=
  match rs with
  | [] => (Waiting, w)
  | Err e :: _ => (Returned (Err e), w)
  | Panic :: _ => (Returned Panic, w)
  | Ok [] :: _ => (Returned (Ok total), w)
  | Ok bs :: rs' =>
      let record := if is_tx then (len bs, 0) else (0, len bs) in
      match write_all bs (mkServer (reads w) (write_results w) (written w) (traffic w ++ [record])) with
      | (Ok _, w') => copy_and_record_traffic rs' is_tx (total + len bs) w'
      | (Err e, w') => (Returned (Err e), w')
      | (Panic, w') => (Returned Panic, w')
      end
  end.

(** The tail of the setup block of [handle_tcp_session]: the bytes the proxy
    sent after its handshake are taken out of the handler before the raw relay
    starts. *)
Definition take_prefetched `{ProxyHandler H} (h : H) : res IoError (list Z) * H :=
  let prefetched := peek_data ToClient h in
  match consume_data ToClient (length prefetched) h with
  | (Ok _, h') => (Ok prefetched, h')
  | (Err e, h') => (Err e, h')
  | (Panic, h') => (Panic, h')
  end.

(** ** Properties *)

(** The bytes of a list of successful reads, up to the end of the stream. *)
Fixpoint received (rs : list (res IoError (list Z))) : list Z :=
  match rs with
  | Ok [] :: _ => []
  | Ok bs :: rs' => bs ++ received rs'
  | _ => []
  end.

Definition reads_safe (rs : list (res IoError (list Z))) : Prop :=
  Forall (fun r => r <> Panic) rs.

Section driver.
Context `{ProxyHandlerLaws H}.

Lemma write_all_frame bs s r s' :
  write_all bs s = (r, s') ->
  r <> Panic /\ reads s' = reads s /\ traffic s' = traffic s /\
  (r = Ok tt -> written s' = written s ++ bs).
Proof. unfold write_all. crush_cases; naive_solver. Qed.

Lemma flush_spec h s r h' s' :
  handler_ok h -> flush h s = (r, h', s') ->
  r <> Panic /\ handler_ok h' /\ reads s' = reads s /\ traffic s' = traffic s /\
  connection_established h' = connection_established h /\
  get_udp_associate h' = get_udp_associate h /\
  peek_data ToClient h' = peek_data ToClient h /\
  (r = Ok tt -> peek_data ToServer h' = [] /\ written s' = written s ++ peek_data ToServer h).
Proof.
  intros Hok. unfold flush.
  destruct (write_all _ _) as [[[]|e|] s1] eqn:Hw;
    apply write_all_frame in Hw as (HP & Hr & Ht & Hwr); [|naive_solver|naive_solver].
  destruct (consume_drops ToServer (length (peek_data ToServer h)) h Hok (Nat.le_refl _))
    as (h1 & -> & Hok1 & Hpk & Hother & Hest & Hudp).
  rewrite drop_all in Hpk.
  intros [= <- <- <-]. split_and!; try done.
  - by apply Hother.
  - intros _. split; [done|]. by apply Hwr.
Qed.

(** A read that brought data. *)
Definition is_chunk (r : res IoError (list Z)) : Prop := exists bs, r = Ok bs /\ bs <> [].

(** What a returning driver guarantees: the connection is established, the
    result is the association address, nothing is left to send, the reads it
    used all brought data, and one traffic record accounts for the bytes
    written and read. *)
Definition session_post (tx rx : Z) (rs : list (res IoError (list Z))) (s : Server)
    (p : progress (res Error (option SocketAddr))) (h' : H) (s' : Server)
    (rest : list (res IoError (list Z))) : Prop :=
  match p with
  | Returned (Ok u) =>
      connection_established h' = true /\ u = get_udp_associate h' /\
      peek_data ToServer h' = [] /\
      exists used, rs = used ++ rest /\ Forall is_chunk used /\
        traffic s' = traffic s ++
          [(tx + (len (written s') - len (written s)), rx + len (received used))]
  | _ => True
  end.

Lemma session_loop_spec rs tx rx h s p h' s' rest :
  handler_ok h ->
  session_loop rs tx rx h s = (p, h', s', rest) ->
  (p <> Returned Panic -> handler_ok h') /\ session_post tx rx rs s p h' s' rest.
Proof.
  revert tx rx h s. induction rs as [|r rs IH]; intros tx rx h s Hok; simpl.
  { by intros [= <- <- <- <-]. }
  destruct r as [bs|e|]; [|by intros [= <- <- <- <-]..].
  destruct bs as [|b bs]; [by intros [= <- <- <- <-]|].
  destruct (push_data _ h) as [[[]|e|] h1] eqn:Hpush;
    try (apply push_keeps_ok in Hpush as Hok1; [|done|done]); try (by intros [= <- <- <- <-]).
  destruct (if (0 <? _)%nat then _ else _) as [[r2 h2] s2] eqn:Hfl.
  assert (r2 <> Panic /\ handler_ok h2 /\ traffic s2 = traffic s /\
    (r2 = Ok tt -> peek_data ToServer h2 = [] /\
       written s2 = written s ++ peek_data ToServer h1)) as (HnP2 & Hok2 & Htr & Hfin).
  { destruct (0 <? _)%nat eqn:Hpos; b2p.
    - apply flush_spec in Hfl as (? & ? & _ & ? & _ & _ & _ & ?); done.
    - simplify_eq. destruct (peek_data ToServer h2) eqn:?; simpl in *; [|lia].
      rewrite app_nil_r. by split_and!. }
  destruct r2 as [[]|e|]; [|by intros [= <- <- <- <-]|done].
  destruct (Hfin eq_refl) as [Hpk Hw]. clear Hfin.
  destruct (connection_established h2) eqn:Hest.
  - intros [= <- <- <- <-]. split; [done|]. simpl. split_and!; try done.
    exists [Ok (b :: bs)]. split_and!; [done| |].
    + constructor; [|done]. by exists (b :: bs).
    + rewrite Htr, Hw, len_app. simpl received. rewrite app_nil_r.
      do 3 f_equal. unfold len. lia.
  - intros Hloop. apply IH in Hloop as [Hok' Hpost]; [|done].
    split; [done|]. destruct p as [[u|e|]|]; try done.
    destruct Hpost as (? & ? & ? & used & -> & Hch & Htr').
    simpl. split_and!; try done. exists (Ok (b :: bs) :: used). split_and!; [done| |].
    + constructor; [|done]. by exists (b :: bs).
    + rewrite Htr', Htr, Hw, len_app.
      change (received (Ok (b :: bs) :: used)) with ((b :: bs) ++ received used).
      rewrite (len_app (b :: bs)). do 3 f_equal; unfold len; lia.
Qed.

Lemma handle_proxy_session_spec h s p h' s' :
  handler_ok h ->
  handle_proxy_session h s = (p, h', s') ->
  (p <> Returned Panic -> handler_ok h') /\
  match p with
  | Returned (Ok u) =>
      connection_established h' = true /\ u = get_udp_associate h' /\
      (connection_established h = false -> peek_data ToServer h' = []) /\
      exists used, reads s = used ++ reads s' /\ Forall is_chunk used /\
        traffic s' = traffic s ++
          [(len (written s') - len (written s), len (received used))]
  | _ => True
  end.
Proof.
  intros Hok. unfold handle_proxy_session.
  destruct (connection_established h) eqn:Hest.
  { intros [= <- <- <-]. split; [done|]. split_and!; try done.
    exists []. simpl. rewrite Z.sub_diag. split_and!; try done. }
  destruct (_ =? 0)%nat; [by intros [= <- <- <-]|].
  destruct (flush h s) as [[r h1] s1] eqn:Hfl.
  apply flush_spec in Hfl as (HnP & Hok1 & Hrd & Htr & _ & _ & _ & Hfin); [|done].
  destruct r as [[]|e|]; [|by intros [= <- <- <-]|done].
  destruct (Hfin eq_refl) as [_ Hw].
  destruct (session_loop _ _ _ _ _) as [[[p2 h2] s2] rest] eqn:Hloop.
  apply session_loop_spec in Hloop as [Hok2 Hpost]; [|done].
  intros [= <- <- <-]. split; [done|].
  destruct p2 as [[u|e|]|]; try done.
  destruct Hpost as (? & ? & ? & used & Hrs & Hch & Htr').
  split_and!; try done. simpl. exists used. rewrite <- Hrd. split_and!; [done|done|].
  rewrite Htr', Htr, Hw, len_app. do 3 f_equal. unfold len. lia.
Qed.

(** With a total handler, no panic: neither in the loop nor in the driver. *)
Lemma session_loop_total `{!ProxyHandlerTotal H} rs tx rx h s :
  handler_ok h -> reads_safe rs -> (session_loop rs tx rx h s).1.1.1 <> Returned Panic.
Proof.
  revert tx rx h s. induction rs as [|r rs IH]; intros tx rx h s Hok Hsafe; simpl; [done|].
  apply Forall_cons in Hsafe as [Hr Hsafe].
  destruct r as [[|b bs]|e|]; try done.
  pose proof (push_total (mkEvent FromServer (b :: bs)) h Hok) as Ht.
  destruct (push_data _ h) as [[[]|e|] h1] eqn:Hpush; try done.
  apply push_keeps_ok in Hpush as Hok1; [|done|done].
  destruct (if (0 <? _)%nat then _ else _) as [[r2 h2] s2] eqn:Hfl.
  assert (r2 <> Panic /\ handler_ok h2) as [HnP2 Hok2].
  { destruct (0 <? _)%nat; [|by simplify_eq].
    apply flush_spec in Hfl as (? & ? & _); done. }
  destruct r2 as [[]|e|]; [|done|done].
  destruct (connection_established h2); [done|]. by apply IH.
Qed.

Lemma handle_proxy_session_total `{!ProxyHandlerTotal H} h s :
  handler_ok h -> reads_safe (reads s) -> (handle_proxy_session h s).1.1 <> Returned Panic.
Proof.
  intros Hok Hsafe. unfold handle_proxy_session.
  destruct (connection_established h); [done|]. destruct (_ =? 0)%nat; [done|].
  destruct (flush h s) as [[r h1] s1] eqn:Hfl.
  apply flush_spec in Hfl as (HnP & Hok1 & Hrd & _); [|done].
  destruct r as [[]|e|]; [|done|done].
  pose proof (session_loop_total (reads s1) (len (peek_data ToServer h)) 0 h1 s1 Hok1) as Ht.
  rewrite Hrd in Ht. specialize (Ht Hsafe). rewrite Hrd.
  destruct (session_loop _ _ _ _ _) as [[[p2 h2] s2] rest]. exact Ht.
Qed.

Lemma copy_spec rs is_tx total w r w' :
  reads_safe rs ->
  copy_and_record_traffic rs is_tx total w = (Returned (Ok r), w') ->
  r = total + len (received rs) /\ written w' = written w ++ received rs.
Proof.
  revert total w. induction rs as [|x rs IH]; intros total w Hs; simpl; [done|].
  apply Forall_cons in Hs as [_ Hs].
  destruct x as [[|b bs]|e|]; try done.
  - intros [= <- <-]. rewrite app_nil_r. split; [unfold len; simpl; lia|done].
  - destruct (write_all _ _) as [[[]|e|] w1] eqn:Hw; try done.
    apply write_all_frame in Hw as (_ & _ & _ & Hw). specialize (Hw eq_refl). simpl in Hw.
    intros Hc. apply IH in Hc as [-> ->]; [|done]. rewrite Hw, <- app_assoc.
    split; [|done]. change (b :: bs ++ received rs) with ((b :: bs) ++ received rs).
    rewrite len_app. lia.
Qed.

Lemma take_prefetched_ok h :
  handler_ok h ->
  exists h', take_prefetched h = (Ok (peek_data ToClient h), h') /\ handler_ok h' /\
    peek_data ToClient h' = [] /\ peek_data ToServer h' = peek_data ToServer h /\
    connection_established h' = connection_established h.
Proof.
  intros Hok. unfold take_prefetched.
  destruct (consume_drops ToClient (length (peek_data ToClient h)) h Hok (Nat.le_refl _))
    as (h1 & -> & Hok1 & Hpk & Hother & Hest & _).
  rewrite drop_all in Hpk. exists h1. split_and!; try done. by apply Hother.
Qed.
(** ** Replies in fragments *)

(** A reply cut into non-empty reads; it is complete only with the last one,
    which may carry [extra] bytes behind it. *)
Definition fragments (wire extra : list Z) (chunks : list (list Z)) : Prop :=
  Forall (fun c => c <> []) chunks /\
  exists init last, chunks = init ++ [last] /\ concat init ++ last = wire ++ extra /\
    (length (concat init) < length wire)%nat.

(** [h] buffers every strict prefix of [wire] and answers nothing: what
    comes next is handled as if both had come together. *)
Definition absorbs (h : H) (wire : list Z) : Prop :=
  forall c r, wire = c ++ r -> c <> [] -> r <> [] ->
  exists h1, push_data (mkEvent FromServer c) h = (Ok tt, h1) /\
    peek_data ToServer h1 = [] /\ connection_established h1 = false /\
    forall c2, push_data (mkEvent FromServer c2) h1 = push_data (mkEvent FromServer (c ++ c2)) h.

Lemma absorbs_step h wire c r h1 :
  absorbs h wire -> wire = c ++ r -> c <> [] ->
  (forall c2, push_data (mkEvent FromServer c2) h1 = push_data (mkEvent FromServer (c ++ c2)) h) ->
  absorbs h1 r.
Proof.
  intros Ha -> Hc Hj c' r' -> Hc' Hr'.
  destruct (Ha (c ++ c') r') as (h2 & Hp & Hpk & He & Hj2); [by rewrite app_assoc| |done|].
  { by destruct c. }
  exists h2. rewrite Hj. split_and!; try done. intros c2. by rewrite Hj2, Hj, app_assoc.
Qed.

Lemma session_loop_join init h wire extra last rs tx rx srv :
  absorbs h wire -> Forall (fun c => c <> []) (init ++ [last]) ->
  concat init ++ last = wire ++ extra -> (length (concat init) < length wire)%nat ->
  session_loop ((Ok <$> (init ++ [last])) ++ rs) tx rx h srv =
  session_loop (Ok (concat init ++ last) :: rs) tx rx h srv.
Proof.
  revert h wire rx. induction init as [|c init IH]; intros h wire rx Ha Hne Heq Hlt; [done|].
  cbn [app fmap list_fmap concat] in *. apply Forall_cons in Hne as [Hc Hne].
  destruct (app_shorter c (concat init ++ last) wire extra) as (r & Hr & Hw & Hb).
  { by rewrite <- Heq, <- app_assoc. }
  { rewrite length_app in Hlt. lia. }
  destruct (Ha c r Hw Hc Hr) as (h1 & Hp & Hpk & He & Hj).
  assert (session_loop (Ok c :: (Ok <$> (init ++ [last])) ++ rs) tx rx h srv =
    session_loop ((Ok <$> (init ++ [last])) ++ rs) tx (rx + len c) h1 srv) as ->.
  { destruct c as [|b c]; [done|]. cbn [session_loop]. rewrite Hp, Hpk. cbn [length Z.of_nat].
    change (0 <? 0)%nat with false. cbv beta iota. by rewrite He, Z.add_0_r. }
  rewrite (IH h1 r); [|by eapply absorbs_step|done|done|].
  2:{ subst wire. rewrite !length_app in Hlt. lia. }
  assert (concat init ++ last <> []) as Hne2.
  { rewrite Hb. by destruct r. }
  destruct c as [|b c]; [done|]. rewrite <- app_assoc. cbn [app].
  destruct (concat init ++ last) as [|b' l'] eqn:El; [done|]. cbn [session_loop].
  rewrite Hj. cbn [app].
  replace (rx + len (b :: c) + len (b' :: l')) with (rx + len (b :: c ++ b' :: l'))
    by (unfold len; simpl; rewrite length_app; simpl; lia).
  done.
Qed.

(** The handler once its pending output was sent. *)
Definition sent (h : H) : H :=
  if (0 <? length (peek_data ToServer h))%nat
  then (consume_data ToServer (length (peek_data ToServer h)) h).2 else h.

Lemma flush_sent h srv :
  handler_ok h -> write_results srv = [] -> peek_data ToServer h <> [] ->
  flush h srv = (Ok tt, sent h,
    mkServer (reads srv) [] (written srv ++ peek_data ToServer h) (traffic srv)).
Proof.
  intros Hok Hwr Hne. unfold flush, write_all, sent. rewrite Hwr.
  rewrite (proj2 (Nat.ltb_lt _ _)) by (destruct (peek_data ToServer h); simpl; [done|lia]).
  by destruct (consume_drops ToServer (length (peek_data ToServer h)) h Hok (Nat.le_refl _))
    as (h1 & -> & _).
Qed.

Lemma sent_established h :
  handler_ok h -> connection_established (sent h) = connection_established h /\
    get_udp_associate (sent h) = get_udp_associate h.
Proof.
  intros Hok. unfold sent. destruct (_ <? _)%nat; [|done].
  by destruct (consume_drops ToServer (length (peek_data ToServer h)) h Hok (Nat.le_refl _))
    as (h1 & -> & _ & _ & _ & ? & ?).
Qed.

(** The driver's turn on a reply that has come in any fragmentation. *)
Lemma session_phase h h1 wire extra chunks rs tx rx srv :
  absorbs h wire -> wire <> [] -> fragments wire extra chunks -> write_results srv = [] ->
  push_data (mkEvent FromServer (wire ++ extra)) h = (Ok tt, h1) -> handler_ok h ->
  session_loop ((Ok <$> chunks) ++ rs) tx rx h srv =
  let tx' := tx + len (peek_data ToServer h1) in
  let rx' := rx + len (wire ++ extra) in
  let out := written srv ++ peek_data ToServer h1 in
  if connection_established h1 then
    (Returned (Ok (get_udp_associate h1)), sent h1,
     mkServer [] [] out (traffic srv ++ [(tx', rx')]), rs)
  else session_loop rs tx' rx' (sent h1) (mkServer (reads srv) [] out (traffic srv)).
Proof.
  intros Ha Hw (Hne & init & last & -> & Heq & Hlt) Hwr Hp Hok0.
  assert (handler_ok h1) as Hok by by eapply push_keeps_ok.
  rewrite (session_loop_join init h wire extra) by done. rewrite Heq.
  destruct (wire ++ extra) as [|b all] eqn:E; [by destruct wire|].
  cbn [session_loop]. rewrite Hp.
  destruct (sent_established h1 Hok) as [He Hu].
  destruct (peek_data ToServer h1) as [|o out] eqn:Hpk.
  - change (0 <? length (@nil Z))%nat with false. cbv iota zeta beta.
    assert (sent h1 = h1) as -> by (unfold sent; by rewrite Hpk).
    destruct srv as [rd wr wt tr]. simpl in *. subst wr. rewrite app_nil_r.
    unfold len. simpl. rewrite Z.add_0_r. done.
  - rewrite (proj2 (Nat.ltb_lt _ _)) by (simpl; lia).
    rewrite flush_sent by (done || by rewrite Hpk). rewrite Hpk, He, Hu. done.
Qed.

(** The driver's first turn sends the greeting of a fresh connection. *)
Lemma handle_proxy_session_start h srv :
  handler_ok h -> connection_established h = false -> peek_data ToServer h <> [] ->
  write_results srv = [] ->
  handle_proxy_session h srv =
  let '(p, h', srv', rest) :=
    session_loop (reads srv) (len (peek_data ToServer h)) 0 (sent h)
      (mkServer (reads srv) [] (written srv ++ peek_data ToServer h) (traffic srv)) in
  (p, h', mkServer rest (write_results srv') (written srv') (traffic srv')).
Proof.
  intros Hok He Hne Hwr. unfold handle_proxy_session. rewrite He.
  rewrite (proj2 (Nat.eqb_neq _ _)) by (by destruct (peek_data ToServer h)).
  by rewrite flush_sent.
Qed.
End driver.
