(* ===== verification/Streams.v ===== *)
(** * Byte streams: the readers of the standard library and of tokio

    [read_exact] on a slice and on an asynchronous stream.  An asynchronous
    stream is the list of the results of its next reads, as in ProxyHandler.v;
    reading from it does not depend on how the bytes are cut into reads. *)

From S2P Require Import Prelude ProxyHandler.

(** [Read::read_exact] on a slice reader, with the bytes left. *)
Definition read_exact (n : nat) (bs : list Z) : res IoError (list Z * list Z) :=
  if (length bs <? n)%nat then Err (io_of_kind UnexpectedEof) else Ok (take n bs, drop n bs).

(** [AsyncReadExt::read_exact]: reads until [n] bytes have arrived.  A reader
    is the list of the results of its next reads; what a read leaves over stays
    in the reader; a read that never completes ends in the caller's timeout. *)
Fixpoint read_exact_async (n : nat) (rs : list (res IoError (list Z)))
    : res IoError (list Z) * list (res IoError (list Z)) :=
  match n with
  | O => (Ok [], rs)
  | S _ =>
      match rs with
      | [] => (Err (io_of_kind TimedOut), [])
      | Err e :: rs' => (Err e, rs')
      | Panic :: rs' => (Panic, rs')
      | Ok [] :: rs' => (Err (io_of_kind UnexpectedEof), rs')
      | Ok bs :: rs' =>
          if (n <? length bs)%nat then (Ok (take n bs), Ok (drop n bs) :: rs')
          else
            let '(r, rs'') := read_exact_async (n - length bs) rs' in
            (tail ← r; mret (bs ++ tail), rs'')
      end
  end.

Lemma read_exact_app n a rest : length a = n -> read_exact n (a ++ rest) = Ok (a, rest).
Proof.
  intros <-. unfold read_exact. rewrite length_app, (proj2 (Nat.ltb_ge _ _)) by lia.
  by rewrite take_app_length, drop_app_length.
Qed.

Lemma read_exact_inv n bs a rest :
  read_exact n bs = Ok (a, rest) -> bs = a ++ rest /\ length a = n.
Proof.
  unfold read_exact. case_match; [done|]. intros [= <- <-]. b2p.
  rewrite take_drop, length_take. split; [done|lia].
Qed.

Lemma received_cons x rs : x <> [] -> received (Ok x :: rs) = x ++ received rs.
Proof. by destruct x. Qed.

(** Reading from an asynchronous stream is reading the bytes it delivers, in
    whatever pieces they arrive. *)
Lemma read_exact_async_app a rest rs :
  received rs = a ++ rest ->
  exists rs', read_exact_async (length a) rs = (Ok a, rs') /\ received rs' = rest.
Proof.
  revert a. induction rs as [|[x|e|] rs IH]; intros [|a0 a] Hr; try done; try by eexists.
  set (w := a0 :: a) in *.
  assert (length w = S (length a)) as Hw by done.
  destruct x as [|b bs]; [done|]. set (x := b :: bs) in *.
  rewrite received_cons in Hr by done.
  assert (read_exact_async (length w) (Ok x :: rs) =
    if (length w <? length x)%nat then (Ok (take (length w) x), Ok (drop (length w) x) :: rs)
    else let '(r, rs'') := read_exact_async (length w - length x) rs in
         (tail ← r; mret (x ++ tail), rs'')) as -> by done.
  clearbody w x. clear b bs.
  destruct (length w <? length x)%nat eqn:E; b2p.
  - destruct (app_shorter w rest x (received rs)) as (r & Hne & -> & ->); [done|done|].
    rewrite take_app_length, drop_app_length. eexists; split; [done|]. by rewrite received_cons.
  - destruct (app_eq_inv _ _ _ _ Hr) as [(k & -> & ->)|(k & -> & Hk)].
    + rewrite length_app in E. destruct k; [|simpl in E; lia].
      rewrite app_nil_r, Nat.sub_diag. exists rs. split; [|done].
      destruct rs; simpl; by rewrite app_nil_r.
    + destruct (IH k Hk) as (rs' & Hrs & <-). exists rs'. split; [|done].
      rewrite length_app, Nat.add_comm, Nat.add_sub, Hrs. done.
Qed.

Lemma read_exact_async_ok n rs a rest :
  read_exact n (received rs) = Ok (a, rest) ->
  exists rs', read_exact_async n rs = (Ok a, rs') /\ received rs' = rest.
Proof. intros [Hr <-]%read_exact_inv. by apply read_exact_async_app. Qed.

Lemma read_exact_async_inv n rs a rs' :
  read_exact_async n rs = (Ok a, rs') -> received rs = a ++ received rs' /\ length a = n.
Proof.
  revert n a. induction rs as [|[x|e|] rs IH]; intros [|n] a; simpl; try (by intros [= <- <-]); try done.
  destruct x as [|b bs]; [done|]. split_if E; b2p.
  - intros [= <- <-]. rewrite received_cons by (intros Hd; apply (f_equal length) in Hd;
      rewrite length_drop in Hd; simpl in *; lia).
    change (b :: take n bs) with (take (S n) (b :: bs)).
    change (drop n bs) with (drop (S n) (b :: bs)).
    rewrite app_assoc, take_drop, length_take. simpl length in *. split; [done|lia].
  - destruct (read_exact_async (S n - length (b :: bs)) rs) as [r rs2] eqn:Er.
    destruct r as [tail|e|]; cbn [mbind res_bind]; intros [= <- <-].
    destruct (IH _ _ Er) as [-> Hl]. simpl in *. rewrite length_app, <- app_assoc. split; [done|lia].
Qed.


(** ** Tasks: calls of asynchronous functions *)

(** A task returns, or waits for input that has not come. *)
Definition Task (S A : Type) : Type := S -> progress (res Error A) * S.

#[export] Instance Task_ret {S} : MRet (Task S) := fun _ a s => (Returned (Ok a), s).

#[export] Instance Task_bind {S} : MBind (Task S) := fun _ _ k m s =>
  match m s with
  | (Returned (Ok a), s') => k a s'
  | (Returned (Err e), s') => (Returned (Err e), s')
  | (Returned Panic, s') => (Returned Panic, s')
  | (Waiting, s') => (Waiting, s')
  end.

(** A call that does not wait, a result, an error. *)
Definition now {S A} (m : M S Error A) : Task S A := fun s => let '(r, s') := m s in (Returned r, s').
Definition done_with {S A} (r : res Error A) : Task S A := fun s => (Returned r, s).
Definition fail_with {S A} (e : Error) : Task S A := done_with (Err e).

(** A call on a part of the state. *)
Definition on {S T A} (get : S -> T) (set : T -> S -> S) (t : Task T A) : Task S A := fun s =>
  let '(p, x) := t (get s) in (p, set x s).

(** [read_exact] and [read_u16] on a connection whose reads are those of the
    list and no others: the call waits when they do not suffice. *)
Fixpoint read_full (n : nat) (rs : list (res IoError (list Z)))
    : progress (res IoError (list Z)) * list (res IoError (list Z)) :=
  match n with
  | O => (Returned (Ok []), rs)
  | S _ =>
      match rs with
      | [] => (Waiting, [])
      | Err e :: rs' => (Returned (Err e), rs')
      | Panic :: rs' => (Returned Panic, rs')
      | Ok [] :: rs' => (Returned (Err (io_of_kind UnexpectedEof)), rs')
      | Ok bs :: rs' =>
          if (n <? length bs)%nat then (Returned (Ok (take n bs)), Ok (drop n bs) :: rs')
          else
            let '(p, rs'') := read_full (n - length bs) rs' in
            (match p with
             | Returned r => Returned (tail ← r; mret (bs ++ tail))
             | Waiting => Waiting
             end, rs'')
      end
  end.

(** [read] into a buffer of one byte; no byte is the end of the stream. *)
Definition read_one (rs : list (res IoError (list Z)))
    : progress (res IoError (option Z)) * list (res IoError (list Z)) :=
  match rs with
  | [] => (Waiting, [])
  | Err e :: rs' => (Returned (Err e), rs')
  | Panic :: rs' => (Returned Panic, rs')
  | Ok [] :: rs' => (Returned (Ok None), rs')
  | Ok [b] :: rs' => (Returned (Ok (Some b)), rs')
  | Ok (b :: bs) :: rs' => (Returned (Ok (Some b)), Ok bs :: rs')
  end.

(** The same calls on a connection. *)
Definition reading {A} (f : list (res IoError (list Z)) ->
    progress (res IoError A) * list (res IoError (list Z))) : Task Server (res IoError A) := fun s =>
  let '(p, rs) := f (reads s) in
  let s' := mkServer rs (write_results s) (written s) (traffic s) in
  match p with
  | Returned Panic => (Returned Panic, s')
  | Returned r => (Returned (Ok r), s')
  | Waiting => (Waiting, s')
  end.

Definition recv_exact (n : nat) : Task Server (list Z) :=
  r ← reading (read_full n); done_with (map_err Io r).
Definition recv_one : Task Server (option Z) :=
  r ← reading read_one; done_with (map_err Io r).
Definition send_all (bs : list Z) : Task Server unit :=
  now (map_errM Io (write_all bs)).
Definition record_bytes (tx rx : Z) : Task Server unit := fun s =>
  (Returned (Ok tt), mkServer (reads s) (write_results s) (written s) (traffic s ++ [(tx, rx)])).

(** [u16::try_from(n)?]. *)
Definition try_u16 (n : Z) : res Error Z :=
  if n <=? u16_max then Ok n else Err (TryFromInt "out of range integral type conversion attempted").

Lemma read_full_exact n rs r rs' :
  read_full n rs = (Returned r, rs') -> read_exact_async n rs = (r, rs').
Proof.
  revert n r. induction rs as [|[x|e|] rs IH]; intros [|n] r; simpl; try (by intros [= <- <-]); try done.
  destruct x as [|b bs]; [by intros [= <- <-]|]. split_if E; [by intros [= <- <-]|].
  destruct (read_full _ rs) as [[p|] rs2] eqn:Er; [|done]. intros [= <- <-].
  by rewrite (IH _ _ Er).
Qed.

(** Bytes that have come are read without waiting. *)
Lemma read_full_app a rest rs :
  received rs = a ++ rest ->
  exists rs', read_full (length a) rs = (Returned (Ok a), rs') /\ received rs' = rest.
Proof.
  intros Hr. destruct (read_exact_async_app a rest rs Hr) as (rs' & Ha & Hrest). exists rs'.
  split; [|done]. clear rest Hr Hrest. revert a Ha.
  cut (forall n a, read_exact_async n rs = (Ok a, rs') -> read_full n rs = (Returned (Ok a), rs')).
  { intros Hc a Ha. by apply Hc. }
  induction rs as [|[x|e|] rs IH]; intros [|n] a; simpl; try (by intros [= <- <-]); try done.
  destruct x as [|b bs]; [done|]. split_if E; [by intros [= <- <-]|].
  destruct (read_exact_async _ rs) as [r rs2] eqn:Er. intros [= Hr ->].
  destruct r as [t|e|]; cbn [mbind res_bind] in Hr; try done. injection Hr as <-.
  by rewrite (IH _ _ Er).
Qed.

(** A loop whose turns say whether to go on; [Waiting] stands for a turn that
    the fuel does not reach. *)
Fixpoint turns {S} (turn : Task S bool) (fuel : nat) : Task S unit :=
  match fuel with
  | O => fun s => (Waiting, s)
  | Datatypes.S fuel' => go ← turn; if go : bool then turns turn fuel' else mret tt
  end.

(** The stream ends after the bytes it delivers. *)
Fixpoint finished (rs : list (res IoError (list Z))) : Prop :=
  match rs with
  | Ok [] :: _ => True
  | Ok _ :: rs' => finished rs'
  | _ => False
  end.

Lemma finished_read n rs a rs' :
  read_full n rs = (Returned (Ok a), rs') -> finished rs -> finished rs'.
Proof.
  revert n a. induction rs as [|[x|e|] rs IH]; intros [|n] a; simpl; try (by intros [= <- <-]); try done.
  destruct x as [|b bs]; [done|]. split_if E; b2p.
  - intros [= <- <-] Hf. simpl. destruct (drop n bs) eqn:Ed; [|done].
    apply (f_equal length) in Ed. rewrite length_drop in Ed. simpl in *. lia.
  - destruct (read_full _ rs) as [[r|] rs2] eqn:Er; [|done]. intros [= Hr <-].
    destruct r as [t|e|]; cbn [mbind res_bind] in Hr; try done. by eapply IH.
Qed.

Lemma finished_empty rs : finished rs -> received rs = [] -> exists rs', rs = Ok [] :: rs'.
Proof. destruct rs as [|[[|b bs]|e|] rs]; simpl; try done. intros _ _. by eexists. Qed.

Lemma read_one_inv rs b rs' :
  read_one rs = (Returned (Ok (Some b)), rs') -> received rs = b :: received rs'.
Proof. destruct rs as [|[[|x [|y bs]]|e|] rs]; simpl; try done; by intros [= <- <-]. Qed.

Lemma read_one_end rs rs' : read_one rs = (Returned (Ok None), rs') -> received rs = [].
Proof. by destruct rs as [|[[|x [|y bs]]|e|] rs]. Qed.

Lemma reading_inv {A} (f : list (res IoError (list Z)) ->
    progress (res IoError A) * list (res IoError (list Z))) s r s' :
  reading f s = (Returned (Ok r), s') ->
  f (reads s) = (Returned r, reads s') /\
  s' = mkServer (reads s') (write_results s) (written s) (traffic s).
Proof.
  unfold reading. destruct (f (reads s)) as [[[a|e|]|] rs] eqn:E; intros [= <- <-]; done.
Qed.

(** Success of a task composed with [≫=]. *)
Lemma task_bind_ok {S A B} (m : Task S A) (k : A -> Task S B) s b s' :
  (m ≫= k) s = (Returned (Ok b), s') ->
  exists a s1, m s = (Returned (Ok a), s1) /\ k a s1 = (Returned (Ok b), s').
Proof.
  unfold mbind, Task_bind. destruct (m s) as [[[a|e|]|] s1]; try done. intros Hk. by exists a, s1.
Qed.

(** What a reading task does to its connection: it only takes reads. *)
Definition only_reads {A} (t : Task Server A) : Prop := forall s p s',
  t s = (p, s') -> written s' = written s /\ write_results s' = write_results s.

Lemma reading_only_reads {A} (f : list (res IoError (list Z)) ->
    progress (res IoError A) * list (res IoError (list Z))) :
  only_reads (r ← reading f; done_with (map_err Io r)).
Proof.
  intros s p s'. unfold mbind, Task_bind, reading, done_with.
  destruct (f (reads s)) as [[[a|e|]|] rs]; by intros [= <- <-].
Qed.

Lemma recv_exact_inv n s a s' :
  recv_exact n s = (Returned (Ok a), s') ->
  received (reads s) = a ++ received (reads s') /\ length a = n.
Proof.
  unfold recv_exact. intros (r & s1 & Hr & Hd)%task_bind_ok.
  unfold done_with in Hd. injection Hd as Hd <-. destruct r as [a'|e|]; try done. injection Hd as ->.
  apply reading_inv in Hr as [Hr _]. by apply read_full_exact, read_exact_async_inv in Hr as [Hr Hn].
Qed.

Lemma recv_one_inv s o s' :
  recv_one s = (Returned (Ok o), s') ->
  match o with
  | Some b => received (reads s) = b :: received (reads s')
  | None => received (reads s) = []
  end.
Proof.
  unfold recv_one. intros (r & s1 & Hr & Hd)%task_bind_ok.
  unfold done_with in Hd. injection Hd as Hd <-. destruct r as [o'|e|]; try done. injection Hd as ->.
  apply reading_inv in Hr as [Hr _]. destruct o as [b|].
  - by apply read_one_inv in Hr.
  - by apply read_one_end in Hr.
Qed.

Lemma send_all_inv bs s r s' :
  send_all bs s = (r, s') ->
  reads s' = reads s /\
  ((r = Returned (Ok tt) /\ written s' = written s ++ bs) \/
   (r <> Returned (Ok tt) /\ written s' = written s)).
Proof.
  unfold send_all, now, map_errM, write_all. destruct (write_results s) as [|[e|] l];
    intros [= <- <-]; (split; [done|]); [by left|by right|by left].
Qed.

(** Frames of a length and that many bytes. *)
Lemma frame_bytes hi lo (req : list Z) :
  is_u8 hi -> is_u8 lo -> length req = Z.to_nat (of_be16 hi lo) -> be16 (len req) ++ req = hi :: lo :: req.
Proof.
  intros Hh Hl Hn. pose proof (of_be16_u16 hi lo Hh Hl) as [? ?].
  replace (len req) with (of_be16 hi lo) by (unfold len; rewrite Hn; lia).
  by rewrite be16_of_be16.
Qed.

(** The calls succeed on bytes that have come. *)
Definition next_reads (rs : list (res IoError (list Z))) (c : Server) : Server :=
  mkServer rs (write_results c) (written c) (traffic c).

Lemma recv_exact_app a rest c :
  received (reads c) = a ++ rest ->
  exists rs, recv_exact (length a) c = (Returned (Ok a), next_reads rs c) /\ received rs = rest /\
    (finished (reads c) -> finished rs).
Proof.
  intros Hr. destruct (read_full_app a rest (reads c) Hr) as (rs & Hf & Hrest). exists rs.
  split_and!; [|done|by eapply finished_read].
  unfold recv_exact, mbind, Task_bind, reading. by rewrite Hf.
Qed.

Lemma recv_one_app b rest c :
  received (reads c) = b :: rest ->
  exists rs, recv_one c = (Returned (Ok (Some b)), next_reads rs c) /\ received rs = rest /\
    (finished (reads c) -> finished rs).
Proof.
  intros Hr. destruct c as [rd wr wt tr]. cbn [reads] in Hr.
  destruct rd as [|[[|x bs]|e|] rd]; try done. cbn in Hr.
  injection Hr as -> Hr. unfold recv_one, mbind, Task_bind, reading. cbn [reads read_one].
  destruct bs as [|y bs]; eexists; (split; [reflexivity|]); done.
Qed.

Lemma recv_one_end c :
  finished (reads c) -> received (reads c) = [] ->
  exists rs, recv_one c = (Returned (Ok None), next_reads rs c).
Proof.
  intros Hf Hr. destruct (finished_empty _ Hf Hr) as [rs Hrs]. exists rs.
  unfold recv_one, mbind, Task_bind, reading. by rewrite Hrs.
Qed.

Lemma recv_exact_end n c :
  (0 < n)%nat -> finished (reads c) -> received (reads c) = [] ->
  exists rs, reading (read_full n) c =
    (Returned (Ok (Err (io_of_kind UnexpectedEof))), next_reads rs c).
Proof.
  intros Hn Hf Hr. destruct (finished_empty _ Hf Hr) as [rs Hrs]. exists rs.
  unfold reading. rewrite Hrs. by destruct n; [lia|].
Qed.

Lemma send_all_ok bs c :
  write_results c = [] ->
  send_all bs c = (Returned (Ok tt), mkServer (reads c) [] (written c ++ bs) (traffic c)).
Proof. intros Hw. unfold send_all, now, map_errM, write_all. by rewrite Hw. Qed.
