(* ===== verification/Socks.v ===== *)
(** * The SOCKS4/SOCKS5 client handshake (src/src/socks.rs)

    [SocksProxyImpl] is the connection record, one definition per method in the
    source's order.  The methods that call [state_change] again take it as an
    argument, and [state_change] ties the knot with fuel: no state reaches
    another one more than once, so two levels are enough ([state_change_fuel]). *)

From S2P Require Import Prelude Net Socks5Impl ProxyHandler.

Module Socks.

Inductive SocksState :=
  | ClientHello | ServerHello | SendAuthData | ReceiveAuthResponse
  | SendRequest | ReceiveResponse | Established.

#[export] Instance SocksState_eq_dec : EqDecision SocksState.
Proof. solve_decision. Defined.

Record SocksProxyImpl := mkSocks {
  server_addr : SocketAddr;
  info : SessionInfo;
  domain_name : option string;
  state : SocksState;
  client_inbuf : list Z;
  server_inbuf : list Z;
  client_outbuf : list Z;
  server_outbuf : list Z;
  version : Version;
  credentials : option UserKey;
  command : Command;
  udp_associate : option SocketAddr }.

Definition set_state (st : SocksState) (s : SocksProxyImpl) : SocksProxyImpl :=
  mkSocks (server_addr s) (info s) (domain_name s) st (client_inbuf s) (server_inbuf s)
    (client_outbuf s) (server_outbuf s) (version s) (credentials s) (command s) (udp_associate s).

Definition set_bufs (ci si co so : list Z) (s : SocksProxyImpl) : SocksProxyImpl :=
  mkSocks (server_addr s) (info s) (domain_name s) (state s) ci si co so
    (version s) (credentials s) (command s) (udp_associate s).

Definition set_server_inbuf (b : list Z) (s : SocksProxyImpl) : SocksProxyImpl :=
  set_bufs (client_inbuf s) b (client_outbuf s) (server_outbuf s) s.

(** [self.server_outbuf.extend(..)]. *)
Definition extend_server_out (b : list Z) (s : SocksProxyImpl) : SocksProxyImpl :=
  set_bufs (client_inbuf s) (server_inbuf s) (client_outbuf s) (server_outbuf s ++ b) s.

Definition set_udp_associate (a : option SocketAddr) (s : SocksProxyImpl) : SocksProxyImpl :=
  mkSocks (server_addr s) (info s) (domain_name s) (state s) (client_inbuf s) (server_inbuf s)
    (client_outbuf s) (server_outbuf s) (version s) (credentials s) (command s) a.

(** [self.server_inbuf.drain(0..n)]. *)
Definition drain_server_in (n : nat) : M SocksProxyImpl IoError unit := fun s =>
  match drain n (server_inbuf s) with
  | Ok b => (Ok tt, set_server_inbuf b s)
  | Err e => (Err e, s)
  | Panic => (Panic, s)
  end.

Section impl.
Context `{Socks5}.

Definition send_client_hello_socks4 : M SocksProxyImpl Error unit :=
  v ← gets version;
  modify (extend_server_out [version_code v; command_code Connect]);;
  dst ← gets (fun s => info_dst (info s));
  modify (extend_server_out (be16 (sa_port dst)));;
  host ← gets domain_name;
  vecs ← match sa_ip dst with
         | V4 _ =>
             match host with
             | Some host => mret ([0; 0; 0; wrap8 (len (as_bytes host))], as_bytes host ++ [0])
             | None => mret (octets (sa_ip dst), [])
             end
         | V6 _ => throw (EString "SOCKS4 does not support IPv6: {addr}")
         end;
  modify (extend_server_out vecs.1);;
  creds ← gets credentials;
  match creds with
  | Some c =>
      modify (extend_server_out (as_bytes (username c)));;
      if bool_decide (password c = "") then mret tt
      else modify (extend_server_out (58 :: as_bytes (password c)))
  | None => mret tt
  end;;
  modify (extend_server_out [0]);;
  modify (extend_server_out vecs.2).

Definition send_client_hello_socks5 : M SocksProxyImpl Error unit :=
  creds ← gets credentials;
  let methods := [NoAuth; 4; 100] ++ (if creds is Some _ then [UserPass] else []) in
  modify (extend_server_out (handshake_request methods)).

Definition send_client_hello : M SocksProxyImpl Error unit :=
  v ← gets version;
  match v with
  | VSocks4 => send_client_hello_socks4
  | VSocks5 => send_client_hello_socks5
  end;;
  modify (set_state ServerHello).

(** [SocksProxyImpl::new]. *)
Definition new (server : SocketAddr) (i : SessionInfo) (domain : option string)
    (creds : option UserKey) (v : Version) (cmd : Command) : res Error SocksProxyImpl :=
  match send_client_hello (mkSocks server i domain ClientHello [] [] [] [] v creds cmd None) with
  | (Ok _, s) => Ok s
  | (Err e, _) => Err e
  | (Panic, _) => Panic
  end.

Definition receive_server_hello_socks4 (state_change : M SocksProxyImpl IoError unit)
    : M SocksProxyImpl IoError unit :=
  inbuf ← gets server_inbuf;
  if (length inbuf <? 8)%nat then mret tt
  else if bool_decide (inbuf !! 1%nat = Some 0x5a) then
    drain_server_in 8;;
    modify (set_state Established);;
    state_change
  else throw (io_from_error (EString "SOCKS4 server replied with an unexpected reply code.")).

Definition receive_server_hello_socks5 (state_change : M SocksProxyImpl IoError unit)
    : M SocksProxyImpl IoError unit :=
  inbuf ← gets server_inbuf;
  match handshake_response inbuf with
  | Err e => if bool_decide (io_kind e = UnexpectedEof) then mret tt else throw e
  | Panic => panic
  | Ok auth_method =>
      drain_server_in (handshake_response_len auth_method);;
      creds ← gets credentials;
      let no_creds := bool_decide (creds = None) in
      if negb (auth_method =? NoAuth) && no_creds
         || (negb (auth_method =? NoAuth) && negb (auth_method =? UserPass)) && negb no_creds
      then throw (io_from_error (EString "SOCKS5 server requires an unsupported authentication method."))
      else
        modify (set_state (if auth_method =? UserPass then SendAuthData else SendRequest));;
        state_change
  end.

Definition receive_server_hello (state_change : M SocksProxyImpl IoError unit)
    : M SocksProxyImpl IoError unit :=
  v ← gets version;
  match v with
  | VSocks4 => receive_server_hello_socks4 state_change
  | VSocks5 => receive_server_hello_socks5 state_change
  end.

Definition SESSION_INFO_MARKER : string := "+info".

(** The user name sent by [send_auth_data]. *)
Definition session_username (creds : UserKey) (cmd : Command) (src : SocketAddr) : string :=
  if ends_with SESSION_INFO_MARKER (username creds) then
    let base_username := strip_end SESSION_INFO_MARKER (username creds) in
    let proto := match cmd with Connect => "tcp" | UdpAssociate => "udp" | _ => "unknown" end in
    base_username +:+ "|" +:+ proto +:+ "|" +:+ show_ip (sa_ip src) +:+ "|" +:+ show_dec (sa_port src)
  else username creds.

Definition send_auth_data : M SocksProxyImpl IoError unit :=
  s ← gets id;
  let creds := default default_key (credentials s) in
  let name := session_username creds (command s) (info_src (info s)) in
  bytes ← lift (password_request name (password creds));
  modify (extend_server_out bytes);;
  modify (set_state ReceiveAuthResponse).

Definition receive_auth_data (state_change : M SocksProxyImpl IoError unit)
    : M SocksProxyImpl IoError unit :=
  inbuf ← gets server_inbuf;
  match password_response inbuf with
  | Err e => if bool_decide (io_kind e = UnexpectedEof) then mret tt else throw e
  | Panic => panic
  | Ok status =>
      drain_server_in (password_response_len status);;
      if status =? StatusSucceeded then
        modify (set_state SendRequest);;
        state_change
      else throw (io_from_error (EString "SOCKS authentication failed: {:?}"))
  end.

Definition send_request_socks5 : M SocksProxyImpl IoError unit :=
  s ← gets id;
  let dst := info_dst (info s) in
  let addr :=
    if bool_decide (command s = UdpAssociate) then SocketAddress (mkSA (V4 0) 0)
    else match domain_name s with
         | Some d => DomainAddress d (sa_port dst)
         | None => SocketAddress dst
         end in
  bytes ← lift (request (command s) addr);
  modify (extend_server_out bytes);;
  modify (set_state ReceiveResponse).

Definition receive_connection_status (state_change : M SocksProxyImpl IoError unit)
    : M SocksProxyImpl IoError unit :=
  inbuf ← gets server_inbuf;
  match response inbuf with
  | Err e => if bool_decide (io_kind e = UnexpectedEof) then mret tt else throw e
  | Panic => panic
  | Ok r =>
      drain_server_in (response_len r);;
      if reply r =? ReplySucceeded then
        cmd ← gets command;
        (if bool_decide (cmd = UdpAssociate) then
           a ← lift (sockaddr_try_from (bound r));
           modify (set_udp_associate (Some a))
         else mret tt);;
        modify (set_state Established);;
        state_change
      else throw (io_from_error (EString "SOCKS connection failed: {}"))
  end.

Definition relay_traffic : M SocksProxyImpl IoError unit :=
  modify (fun s => set_bufs [] [] (client_outbuf s ++ server_inbuf s)
                     (server_outbuf s ++ client_inbuf s) s).

(** [state_change]; out of fuel is a panic, which [state_change_fuel] rules out. *)
Fixpoint state_change (fuel : nat) : M SocksProxyImpl IoError unit :=
  match fuel with
  | O => panic
  | S fuel' =>
      st ← gets state;
      match st with
      | ServerHello => receive_server_hello (state_change fuel')
      | SendAuthData => send_auth_data
      | ReceiveAuthResponse => receive_auth_data (state_change fuel')
      | SendRequest => send_request_socks5
      | ReceiveResponse => receive_connection_status (state_change fuel')
      | Established => relay_traffic
      | ClientHello => mret tt
      end
  end.

Definition push_data (ev : DataEvent IncomingDirection) : M SocksProxyImpl IoError unit :=
  match direction ev with
  | FromServer => modify (fun s => set_server_inbuf (server_inbuf s ++ buffer ev) s)
  | FromClient => modify (fun s => set_bufs (client_inbuf s ++ buffer ev) (server_inbuf s)
                                     (client_outbuf s) (server_outbuf s) s)
  end;;
  state_change 2.

Definition consume_data (dir : OutgoingDirection) (size : nat) : M SocksProxyImpl IoError unit :=
  fun s =>
  match dir with
  | ToServer =>
      match drain size (server_outbuf s) with
      | Ok b => (Ok tt, set_bufs (client_inbuf s) (server_inbuf s) (client_outbuf s) b s)
      | Err e => (Err e, s)
      | Panic => (Panic, s)
      end
  | ToClient =>
      match drain size (client_outbuf s) with
      | Ok b => (Ok tt, set_bufs (client_inbuf s) (server_inbuf s) b (server_outbuf s) s)
      | Err e => (Err e, s)
      | Panic => (Panic, s)
      end
  end.

Definition peek_data (dir : OutgoingDirection) (s : SocksProxyImpl) : list Z :=
  match dir with ToServer => server_outbuf s | ToClient => client_outbuf s end.

Definition connection_established (s : SocksProxyImpl) : bool :=
  bool_decide (state s = Established).

(** [SocksProxyManager] and its [new_proxy_handler]. *)
Record SocksProxyManager := mkManager
  { mgr_server : SocketAddr; mgr_credentials : option UserKey; mgr_version : Version }.

Definition new_proxy_handler (m : SocksProxyManager) (i : SessionInfo) (domain : option string)
    (udp : bool) : res IoError SocksProxyImpl :=
  map_err io_from_error
    (new (mgr_server m) i domain (mgr_credentials m) (mgr_version m)
       (if udp then UdpAssociate else Connect)).

#[export] Instance socks_handler : ProxyHandler SocksProxyImpl := {
  get_server_addr := server_addr;
  get_session_info := info;
  get_domain_name := domain_name;
  ProxyHandler.push_data := push_data;
  ProxyHandler.consume_data := consume_data;
  ProxyHandler.peek_data := peek_data;
  ProxyHandler.connection_established := connection_established;
  data_len := fun dir s => length (peek_data dir s);
  reset_connection := fun _ => false;
  get_udp_associate := udp_associate;
}.

(** ** Invariant *)

(** SOCKS4 skips the authentication and request states; only an established
    connection has empty input buffers between calls; credentials are needed to
    be asked for them; the association address is known exactly when a UDP
    association is established. *)
Definition socks_core (s : SocksProxyImpl) : Prop :=
  match state s with
  | ClientHello => False
  | ServerHello => udp_associate s = None
  | SendAuthData | ReceiveAuthResponse =>
      version s = VSocks5 /\ credentials s <> None /\ udp_associate s = None
  | SendRequest | ReceiveResponse => version s = VSocks5 /\ udp_associate s = None
  | Established => version s = VSocks5 -> command s = UdpAssociate -> is_Some (udp_associate s)
  end.

Definition socks_wf (s : SocksProxyImpl) : Prop :=
  socks_core s /\ (state s = Established -> server_inbuf s = [] /\ client_inbuf s = []).

(** The fields no method changes. *)
Definition same_session (s s' : SocksProxyImpl) : Prop :=
  server_addr s' = server_addr s /\ info s' = info s /\ domain_name s' = domain_name s /\
  version s' = version s /\ credentials s' = credentials s /\ command s' = command s.

Context `{!Socks5Laws}.

Lemma state_change_fuel n s : state_change (S (S n)) s = state_change 2 s.
Proof.
  destruct s as [sa i d [] ci si co so [] cr cmd ua]; try done;
    cbn; unfold receive_server_hello, receive_server_hello_socks4, receive_server_hello_socks5,
      receive_auth_data, receive_connection_status, drain_server_in; run_M;
    crush_cases; done.
Qed.

(** Running [m] in [s] keeps the invariant and the session, and does not panic. *)
Definition step_ok (s : SocksProxyImpl) (m : M SocksProxyImpl IoError unit) : Prop :=
  forall r s', m s = (r, s') -> socks_wf s' /\ same_session s s' /\ r <> Panic.

(** The invariant of a state that differs only in its buffers. *)
Ltac stay_wf Hst :=
  split_and!; try done; unfold socks_wf, socks_core; simpl; rewrite ?Hst; done.

Lemma relay_traffic_ok s : socks_core s -> state s = Established -> step_ok s relay_traffic.
Proof. intros Hc Hst r s' [= <- <-]. unfold socks_wf, socks_core in *. simpl. by rewrite Hst in *. Qed.

Lemma send_request_ok s :
  socks_core s -> state s = SendRequest -> step_ok s send_request_socks5.
Proof.
  unfold socks_core. intros Hc Hst r s' Hm. rewrite Hst in Hc. unfold send_request_socks5 in Hm. run_M.
  destruct (request _ _) eqn:E; [| |by destruct (request_total _ _ E)];
    simplify_eq; unfold socks_wf, socks_core; simpl; rewrite ?Hst; done.
Qed.

Lemma send_auth_data_ok s :
  socks_core s -> state s = SendAuthData -> step_ok s send_auth_data.
Proof.
  unfold socks_core. intros Hc Hst r s' Hm. rewrite Hst in Hc. unfold send_auth_data in Hm. run_M.
  destruct (password_request _ _) eqn:E; [| |by destruct (password_request_total _ _ E)];
    simplify_eq; unfold socks_wf, socks_core; simpl; rewrite ?Hst; done.
Qed.

Lemma same_session_trans s1 s2 s3 :
  same_session s1 s2 -> same_session s2 s3 -> same_session s1 s3.
Proof. unfold same_session. intros (?&?&?&?&?&?) (?&?&?&?&?&?). split_and!; congruence. Qed.

(** The states the last level of [state_change] is entered with. *)
Lemma state_change_last s :
  socks_core s -> state s = SendAuthData \/ state s = SendRequest \/ state s = Established ->
  step_ok s (state_change 1).
Proof.
  intros Hc Hst r s' Hm. simpl in Hm. unfold mbind, M_bind, gets in Hm.
  destruct Hst as [Hst|[Hst|Hst]]; rewrite Hst in Hm;
    [by eapply send_auth_data_ok|by eapply send_request_ok|by eapply relay_traffic_ok].
Qed.

(** The last level, entered from a state of the same session. *)
Lemma continue_ok s s1 r s' :
  same_session s s1 -> socks_core s1 ->
  state s1 = SendAuthData \/ state s1 = SendRequest \/ state s1 = Established ->
  state_change 1 s1 = (r, s') -> socks_wf s' /\ same_session s s' /\ r <> Panic.
Proof.
  intros Hs Hc Hst Hm. destruct (state_change_last _ Hc Hst _ _ Hm) as (? & ? & ?).
  split_and!; [done| |done]. by eapply same_session_trans.
Qed.

Lemma drain_server_in_ok n s :
  (n <= length (server_inbuf s))%nat ->
  drain_server_in n s = (Ok tt, set_server_inbuf (drop n (server_inbuf s)) s).
Proof. intros. unfold drain_server_in. by rewrite drain_ok. Qed.

Lemma receive_server_hello_ok s :
  socks_core s -> state s = ServerHello -> step_ok s (receive_server_hello (state_change 1)).
Proof.
  unfold socks_core. intros Hc Hst r s' Hm. rewrite Hst in Hc.
  assert (socks_wf s) as Hwf by (unfold socks_wf, socks_core; by rewrite Hst).
  unfold receive_server_hello, receive_server_hello_socks4, receive_server_hello_socks5 in Hm.
  unfold mbind, M_bind, gets in Hm. destruct (version s) eqn:Hv.
  - destruct (_ <? _)%nat eqn:Hl; [run_M; by simplify_eq|]. b2p.
    case_bool_decide; [|unfold throw in Hm; by simplify_eq].
    rewrite drain_server_in_ok in Hm by done. unfold modify in Hm.
    eapply continue_ok in Hm; [done|done| |by auto]. by unfold socks_core; simpl; rewrite Hv.
  - destruct (handshake_response _) as [m|e|] eqn:E; [| |by destruct (handshake_response_total _ E)].
    2:{ case_bool_decide; unfold throw in Hm; run_M; by simplify_eq. }
    rewrite drain_server_in_ok in Hm by (by eapply handshake_response_fits).
    simpl in Hm. destruct (negb _ && _ || _) eqn:Hrej.
    { unfold throw in Hm. simplify_eq. stay_wf Hst. }
    unfold modify in Hm. eapply continue_ok in Hm; [done|done| |simpl; destruct (m =? UserPass); auto].
    unfold socks_core. simpl. rewrite Hv. destruct (m =? UserPass) eqn:Hm2; [|done].
    apply Z.eqb_eq in Hm2. subst m. destruct (credentials s); [done|]. by vm_compute in Hrej.
Qed.

Lemma receive_auth_data_ok s :
  socks_core s -> state s = ReceiveAuthResponse -> step_ok s (receive_auth_data (state_change 1)).
Proof.
  unfold socks_core. intros Hc Hst r s' Hm. rewrite Hst in Hc.
  assert (socks_wf s) as Hwf by (unfold socks_wf, socks_core; by rewrite Hst).
  unfold receive_auth_data, mbind, M_bind, gets in Hm.
  destruct (password_response _) as [m|e|] eqn:E; [| |by destruct (password_response_total _ E)].
  2:{ case_bool_decide; unfold throw in Hm; run_M; by simplify_eq. }
  rewrite drain_server_in_ok in Hm by (by eapply password_response_fits).
  destruct (_ =? _); unfold modify, throw in Hm.
  - eapply continue_ok in Hm; [done|done| |by auto]. unfold socks_core; simpl. by destruct Hc as (?&?&?).
  - simplify_eq. stay_wf Hst.
Qed.

Lemma receive_connection_status_ok s :
  socks_core s -> state s = ReceiveResponse ->
  step_ok s (receive_connection_status (state_change 1)).
Proof.
  unfold socks_core. intros Hc Hst r s' Hm. rewrite Hst in Hc.
  assert (socks_wf s) as Hwf by (unfold socks_wf, socks_core; by rewrite Hst).
  unfold receive_connection_status, mbind, M_bind, gets in Hm.
  destruct (response _) as [m|e|] eqn:E; [| |by destruct (response_total _ E)].
  2:{ case_bool_decide; unfold throw in Hm; run_M; by simplify_eq. }
  rewrite drain_server_in_ok in Hm by (by eapply response_fits).
  destruct (_ =? _); unfold modify, throw, lift in Hm; simpl in Hm.
  - case_bool_decide as Hcmd; simpl in Hm.
    + destruct (sockaddr_try_from _) as [a|e|] eqn:Ea; [| |by destruct (sockaddr_try_from_total _ Ea)].
      * eapply continue_ok in Hm; [done|done| |by auto]. unfold socks_core; simpl. done.
      * simplify_eq. stay_wf Hst.
    + eapply continue_ok in Hm; [done|done| |by auto]. unfold socks_core; simpl. done.
  - simplify_eq. stay_wf Hst.
Qed.

Lemma state_change_ok s : socks_core s -> step_ok s (state_change 2).
Proof.
  intros Hc r s' Hm. change (state_change 2 s) with
    (match state s with
     | ServerHello => receive_server_hello (state_change 1)
     | SendAuthData => send_auth_data
     | ReceiveAuthResponse => receive_auth_data (state_change 1)
     | SendRequest => send_request_socks5
     | ReceiveResponse => receive_connection_status (state_change 1)
     | Established => relay_traffic
     | ClientHello => mret tt
     end s) in Hm.
  destruct (state s) eqn:Hst.
  - unfold socks_core in Hc. by rewrite Hst in Hc.
  - by eapply receive_server_hello_ok.
  - by eapply send_auth_data_ok.
  - by eapply receive_auth_data_ok.
  - by eapply send_request_ok.
  - by eapply receive_connection_status_ok.
  - by eapply relay_traffic_ok.
Qed.

Lemma push_data_ok ev s : socks_wf s -> step_ok s (push_data ev).
Proof.
  intros [Hc _] r s' Hm. unfold push_data, mbind, M_bind, modify in Hm.
  destruct (direction ev); (eapply state_change_ok in Hm; [|exact Hc]); done.
Qed.

(** [relay_traffic] on an established connection, with [c] and [d] just
    received from the client and from the server. *)
Lemma push_established_eq ev s :
  socks_wf s -> state s = Established ->
  push_data ev s = (Ok tt,
    set_bufs [] []
      (client_outbuf s ++ if decide (direction ev = FromServer) then buffer ev else [])
      (server_outbuf s ++ if decide (direction ev = FromClient) then buffer ev else []) s).
Proof.
  intros [_ Hin] Hst. destruct (Hin Hst) as [Hsi Hci].
  destruct s; simpl in *; subst. destruct ev as [[] b]; unfold push_data; run_M;
    unfold set_bufs, set_server_inbuf; simpl; repeat case_decide; try done;
    rewrite ?app_nil_r; done.
Qed.

#[export] Instance socks_laws : ProxyHandlerLaws SocksProxyImpl.
Proof.
  refine {| handler_ok := socks_wf |}.
  - intros ev h r h' Hwf Hp _. by destruct (push_data_ok ev h Hwf r h' Hp).
  - intros dir n h [Hc Hr] Hn. destruct h. unfold socks_wf, socks_core in *.
    destruct dir; simpl in *; rewrite drain_ok by done; eexists; simpl;
      (split_and!; [reflexivity|..]; try done; intros []; done).
  - done.
  - intros ev h Hwf Hest. apply bool_decide_eq_true_1 in Hest.
    eexists. split; [apply push_established_eq; done|].
    split_and!; try done. by apply bool_decide_eq_true_2.
Defined.

#[export] Instance socks_total : ProxyHandlerTotal SocksProxyImpl.
Proof.
  intros ev h Hwf. destruct (push_data ev h) as [r h'] eqn:Hp.
  destruct (push_data_ok ev h Hwf r h' Hp) as (_ & _ & Hr).
  change (ProxyHandler.push_data ev h) with (push_data ev h). by rewrite Hp.
Qed.

(** ** A fresh connection *)

Lemma extend_server_out_twice a b s :
  extend_server_out b (extend_server_out a s) = extend_server_out (a ++ b) s.
Proof. unfold extend_server_out, set_bufs. simpl. by rewrite app_assoc. Qed.

Lemma hello_socks4_eq sa i d creds cmd n :
  sa_ip (info_dst i) = V4 n ->
  send_client_hello_socks4 (mkSocks sa i d ClientHello [] [] [] [] VSocks4 creds cmd None) =
  (Ok tt, mkSocks sa i d ClientHello [] [] []
    ([4; 1] ++ be16 (sa_port (info_dst i)) ++
     match d with Some host => [0; 0; 0; wrap8 (len (as_bytes host))] | None => octets (V4 n) end ++
     match creds with
     | Some c => as_bytes (username c) ++
         (if bool_decide (password c = "") then [] else 58 :: as_bytes (password c))
     | None => [] end ++
     [0] ++ match d with Some host => as_bytes host ++ [0] | None => [] end)
    VSocks4 creds cmd None).
Proof.
  intros Hip. unfold send_client_hello_socks4. run_M. rewrite Hip.
  destruct d, creds as [c|]; simpl; try case_bool_decide; rewrite ?extend_server_out_twice;
    unfold extend_server_out, set_bufs; simpl; rewrite ?app_nil_r; do 2 f_equal;
    rewrite <- ?app_assoc; simpl; rewrite <- ?app_assoc; reflexivity.
Qed.

Lemma new_ok server i d creds v cmd s :
  new server i d creds v cmd = Ok s ->
  socks_wf s /\ state s = ServerHello /\ version s = v /\ credentials s = creds /\
  command s = cmd /\ info s = i /\ domain_name s = d /\ server_addr s = server /\
  client_inbuf s = [] /\ server_inbuf s = [] /\ client_outbuf s = [] /\ server_outbuf s <> [].
Proof.
  unfold new, send_client_hello. unfold mbind at 1, M_bind at 1, gets at 1. simpl.
  destruct v.
  - destruct (sa_ip (info_dst i)) eqn:Hip.
    + unfold mbind, M_bind. rewrite (hello_socks4_eq _ _ _ _ _ _ Hip). simpl.
      intros [= <-]. by split_and!.
    + unfold send_client_hello_socks4. run_M. by rewrite Hip.
  - unfold send_client_hello_socks5. run_M. intros [= <-]. split_and!; try done.
    simpl. apply handshake_request_nonempty.
Qed.

(** ** Fragmentation of the server's replies *)

(** [wire] is a whole reply of the kind the connection is waiting for. *)
Definition awaits (s : SocksProxyImpl) (wire : list Z) : Prop :=
  match state s, version s with
  | ServerHello, VSocks4 => length wire = 8%nat
  | ServerHello, VSocks5 => exists m, decodes handshake_response handshake_response_len wire m
  | ReceiveAuthResponse, _ => exists m, decodes password_response password_response_len wire m
  | ReceiveResponse, _ => exists r, decodes response response_len wire r
  | _, _ => False
  end.

Lemma state_change_eq n s :
  state_change (S n) s =
  match state s with
  | ServerHello => receive_server_hello (state_change n)
  | SendAuthData => send_auth_data
  | ReceiveAuthResponse => receive_auth_data (state_change n)
  | SendRequest => send_request_socks5
  | ReceiveResponse => receive_connection_status (state_change n)
  | Established => relay_traffic
  | ClientHello => mret tt
  end s.
Proof. done. Qed.

Lemma push_server_eq c s :
  push_data (mkEvent FromServer c) s = state_change 2 (set_server_inbuf (server_inbuf s ++ c) s).
Proof. done. Qed.

Lemma push_incomplete s wire c rest :
  awaits s wire -> wire = (server_inbuf s ++ c) ++ rest -> rest <> [] ->
  push_data (mkEvent FromServer c) s = (Ok tt, set_server_inbuf (server_inbuf s ++ c) s).
Proof.
  intros Ha Hw Hr. unfold awaits in Ha. destruct s as [sa i d st ci si co so v cr cmd ua].
  simpl in *. destruct st; try done; [destruct v|..].
  - rewrite push_server_eq, state_change_eq; cbn [state set_server_inbuf set_bufs];
    unfold receive_server_hello, receive_server_hello_socks4, mbind, M_bind, modify, gets.
    cbn [version server_inbuf set_server_inbuf set_bufs app]. rewrite (proj2 (Nat.ltb_lt _ _)); [done|].
    apply (f_equal length) in Hw. rewrite !length_app in Hw. rewrite length_app.
    destruct rest; [done|]. simpl in *. lia.
  - destruct Ha as (m & _ & _ & Hp). destruct (Hp _ _ Hw Hr) as (e & He & Hk).
    rewrite push_server_eq, state_change_eq; cbn [state set_server_inbuf set_bufs];
    unfold receive_server_hello, receive_server_hello_socks5, mbind, M_bind, modify, gets.
    cbn [version server_inbuf set_server_inbuf set_bufs app]. rewrite He. by rewrite bool_decide_eq_true_2.
  - destruct Ha as (m & _ & _ & Hp). destruct (Hp _ _ Hw Hr) as (e & He & Hk).
    rewrite push_server_eq, state_change_eq; cbn [state set_server_inbuf set_bufs];
    unfold receive_auth_data, mbind, M_bind, modify, gets.
    cbn [version server_inbuf set_server_inbuf set_bufs app]. rewrite He. by rewrite bool_decide_eq_true_2.
  - destruct Ha as (m & _ & _ & Hp). destruct (Hp _ _ Hw Hr) as (e & He & Hk).
    rewrite push_server_eq, state_change_eq; cbn [state set_server_inbuf set_bufs];
    unfold receive_connection_status, mbind, M_bind, modify, gets.
    cbn [version server_inbuf set_server_inbuf set_bufs app]. rewrite He. by rewrite bool_decide_eq_true_2.
Qed.

Lemma push_join s c1 c2 :
  push_data (mkEvent FromServer c2) (set_server_inbuf (server_inbuf s ++ c1) s) =
  push_data (mkEvent FromServer (c1 ++ c2)) s.
Proof.
  unfold push_data, mbind, M_bind, modify. simpl.
  unfold set_server_inbuf, set_bufs. simpl. by rewrite app_assoc.
Qed.

Fixpoint push_chunks (cs : list (list Z)) : M SocksProxyImpl IoError unit :=
  match cs with
  | [] => mret tt
  | c :: cs' => push_data (mkEvent FromServer c);; push_chunks cs'
  end.

(** A reply is handled when its last byte arrives, with whatever follows it in
    the same read, exactly as if it had come in one piece. *)
Lemma push_chunks_join init s wire extra last :
  awaits s wire -> server_inbuf s ++ concat init ++ last = wire ++ extra ->
  (length (server_inbuf s ++ concat init) < length wire)%nat ->
  push_chunks (init ++ [last]) s = push_data (mkEvent FromServer (concat init ++ last)) s.
Proof.
  revert s. induction init as [|c init IH]; intros s Ha Heq Hlt; simpl in *.
  - unfold mbind, M_bind, mret, M_ret.
    destruct (push_data (mkEvent FromServer last) s) as [[[]|e|] s']; done.
  - destruct (app_shorter (server_inbuf s ++ c) (concat init ++ last) wire extra)
      as (r & Hr & Hw & _).
    { by rewrite <- Heq, <- !app_assoc. }
    { rewrite !length_app in *. lia. }
    unfold mbind at 1, M_bind at 1. rewrite (push_incomplete s wire c r) by done.
    rewrite IH.
    + rewrite push_join. by rewrite app_assoc.
    + done.
    + simpl. by rewrite <- Heq, <- !app_assoc.
    + simpl. by rewrite <- app_assoc.
Qed.

(** ** Complete replies *)

Lemma push_socks4_granted s wire extra :
  state s = ServerHello -> version s = VSocks4 -> server_inbuf s = [] ->
  length wire = 8%nat -> wire !! 1%nat = Some 0x5a ->
  push_data (mkEvent FromServer (wire ++ extra)) s =
  (Ok tt, set_state Established
     (set_bufs [] [] (client_outbuf s ++ extra) (server_outbuf s ++ client_inbuf s) s)).
Proof.
  intros Hst Hv Hsi Hl H1. destruct s as [sa i d st ci si co so v cr cmd ua]; simpl in *; subst.
  rewrite push_server_eq, state_change_eq; cbn [state set_server_inbuf set_bufs];
    unfold receive_server_hello, receive_server_hello_socks4, mbind, M_bind, modify, gets.
  cbn [version server_inbuf set_server_inbuf set_bufs app]. rewrite (proj2 (Nat.ltb_ge _ _)) by (rewrite length_app; lia).
  rewrite bool_decide_eq_true_2 by (rewrite lookup_app_l; [done|lia]).
  rewrite drain_server_in_ok by (simpl; rewrite length_app; lia). simpl.
  rewrite (drop_app_length' wire) by done. done.
Qed.

(** The request sent once the authentication phase is over. *)
Definition request_address (cmd : Command) (domain : option string) (dst : SocketAddr) : Address :=
  if bool_decide (cmd = UdpAssociate) then SocketAddress (mkSA (V4 0) 0)
  else match domain with
       | Some d => DomainAddress d (sa_port dst)
       | None => SocketAddress dst
       end.

Lemma send_request_eq s bytes :
  request (command s) (request_address (command s) (domain_name s) (info_dst (info s))) = Ok bytes ->
  send_request_socks5 s = (Ok tt, set_state ReceiveResponse (extend_server_out bytes s)).
Proof.
  intros Hr. unfold send_request_socks5, mbind, M_bind, modify, gets, lift. simpl.
  fold (request_address (command s) (domain_name s) (info_dst (info s))). by rewrite Hr.
Qed.

Lemma push_hello_noauth s wire extra bytes :
  state s = ServerHello -> version s = VSocks5 -> server_inbuf s = [] ->
  decodes handshake_response handshake_response_len wire NoAuth ->
  request (command s) (request_address (command s) (domain_name s) (info_dst (info s))) = Ok bytes ->
  push_data (mkEvent FromServer (wire ++ extra)) s =
  (Ok tt, set_state ReceiveResponse (extend_server_out bytes (set_server_inbuf extra s))).
Proof.
  intros Hst Hv Hsi (Hl & Hd & _) Hreq.
  destruct s as [sa i d st ci si co so v cr cmd ua]; simpl in *; subst.
  rewrite push_server_eq, state_change_eq; cbn [state set_server_inbuf set_bufs];
    unfold receive_server_hello, receive_server_hello_socks5, mbind, M_bind, modify, gets.
  cbn [version server_inbuf set_server_inbuf set_bufs app]. rewrite Hd. rewrite drain_server_in_ok by (simpl; rewrite length_app; lia). simpl.
  rewrite <- Hl, drop_app_length. etrans; [by apply send_request_eq|done].
Qed.

Lemma push_hello_userpass s wire extra c bytes :
  state s = ServerHello -> version s = VSocks5 -> server_inbuf s = [] -> credentials s = Some c ->
  decodes handshake_response handshake_response_len wire UserPass ->
  password_request (session_username c (command s) (info_src (info s))) (password c) = Ok bytes ->
  push_data (mkEvent FromServer (wire ++ extra)) s =
  (Ok tt, set_state ReceiveAuthResponse (extend_server_out bytes (set_server_inbuf extra s))).
Proof.
  intros Hst Hv Hsi Hcr (Hl & Hd & _) Hreq.
  destruct s as [sa i d st ci si co so v cr cmd ua]; simpl in *; subst.
  rewrite push_server_eq, state_change_eq; cbn [state set_server_inbuf set_bufs];
    unfold receive_server_hello, receive_server_hello_socks5, mbind, M_bind, modify, gets.
  cbn [version server_inbuf set_server_inbuf set_bufs app]. rewrite Hd. rewrite drain_server_in_ok by (simpl; rewrite length_app; lia). simpl.
  rewrite <- Hl, drop_app_length.
  unfold send_auth_data, mbind, M_bind, modify, gets, lift. simpl. by rewrite Hreq.
Qed.

Lemma push_auth_succeeded s wire extra bytes :
  state s = ReceiveAuthResponse -> server_inbuf s = [] ->
  decodes password_response password_response_len wire StatusSucceeded ->
  request (command s) (request_address (command s) (domain_name s) (info_dst (info s))) = Ok bytes ->
  push_data (mkEvent FromServer (wire ++ extra)) s =
  (Ok tt, set_state ReceiveResponse (extend_server_out bytes (set_server_inbuf extra s))).
Proof.
  intros Hst Hsi (Hl & Hd & _) Hreq.
  destruct s as [sa i d st ci si co so v cr cmd ua]; simpl in *; subst.
  rewrite push_server_eq, state_change_eq; cbn [state set_server_inbuf set_bufs];
    unfold receive_auth_data, mbind, M_bind, modify, gets.
  cbn [version server_inbuf set_server_inbuf set_bufs app]. rewrite Hd. rewrite drain_server_in_ok by (simpl; rewrite length_app; lia). simpl.
  rewrite <- Hl, drop_app_length. etrans; [by apply send_request_eq|done].
Qed.

Lemma push_reply_succeeded s wire extra r a :
  state s = ReceiveResponse -> server_inbuf s = [] ->
  decodes response response_len wire r -> reply r = ReplySucceeded ->
  (command s = UdpAssociate -> bound r = SocketAddress a) ->
  push_data (mkEvent FromServer (wire ++ extra)) s =
  (Ok tt, set_state Established (set_bufs [] [] (client_outbuf s ++ extra)
            (server_outbuf s ++ client_inbuf s)
            (if bool_decide (command s = UdpAssociate) then set_udp_associate (Some a) s else s))).
Proof.
  intros Hst Hsi (Hl & Hd & _) Hrep Hb.
  destruct s as [sa i d st ci si co so v cr cmd ua]; simpl in *; subst.
  rewrite push_server_eq, state_change_eq; cbn [state set_server_inbuf set_bufs];
    unfold receive_connection_status, mbind, M_bind, modify, gets.
  cbn [version server_inbuf set_server_inbuf set_bufs app]. rewrite Hd. rewrite drain_server_in_ok by (simpl; rewrite length_app; lia). simpl.
  rewrite <- Hl, drop_app_length, Hrep. simpl.
  case_bool_decide as Hc; [|done]. rewrite Hb by done. unfold lift.
  by rewrite sockaddr_try_from_socket.
Qed.
End impl.
End Socks.
