(* ===== verification/SocksSession.v ===== *)
(** * SOCKS handshakes over a fragmented connection

    The composition of [SocksProxyImpl] (Socks.v) with the driver
    [handle_proxy_session] (ProxyHandler.v): whatever the sizes of the reads,
    the driver reaches [Established], the server is sent exactly the messages
    of the protocol, and bytes that follow the last reply are kept for the
    client. *)

From S2P Require Import Prelude Net Socks5Impl Rfc1928 ProxyHandler Socks.

Module SocksSession.
Import Socks.

Section session.
Context `{H : Socks5} `{!Socks5Laws}.

(** The connection absorbs the reply it waits for. *)
Lemma awaits_absorbs s wire :
  awaits s wire -> server_inbuf s = [] -> server_outbuf s = [] -> absorbs s wire.
Proof.
  intros Ha Hsi Hso c r Hw Hc Hr.
  exists (set_server_inbuf (server_inbuf s ++ c) s). split_and!.
  - apply (push_incomplete s wire c r); [done| |done]. by rewrite Hsi.
  - done.
  - apply bool_decide_eq_false_2. intros Hst. change (state s = Established) in Hst.
    unfold awaits in Ha. by rewrite Hst in Ha.
  - intros c2. apply push_join.
Qed.

Lemma sent_eq s : sent s = set_bufs (client_inbuf s) (server_inbuf s) (client_outbuf s) [] s.
Proof.
  destruct s as [sa i d st ci si co so v cr cmd ua]. unfold sent. destruct so as [|b so]; [done|].
  change (ProxyHandler.peek_data ToServer _) with (b :: so).
  change (0 <? length (b :: so))%nat with true. cbv iota.
  cbn [ProxyHandler.consume_data socks_handler consume_data server_outbuf].
  rewrite drain_ok by done. by rewrite drop_all.
Qed.

(** Run one reply of the goal's session; [push] proves what the connection
    does on it. *)
Ltac run_phase wire extra chunks push :=
  erewrite (session_phase _ _ wire extra chunks);
    [|apply awaits_absorbs; [first [done | by eexists]|done|done]|by try destruct wire|done|done
     |push; done|done];
  rewrite ?sent_eq; cbn.

(** What the driver has done when the handshake is over: it returned [u], the
    server was sent [sent] and nothing is pending for it, the reads [rest] are
    left, the connection relays and [extra] waits for the client. *)
Definition handshake_done (s : SocksProxyImpl) (srv : Server) (u : option SocketAddr)
    (sent extra : list Z) (rx : Z) (rest : list (res IoError (list Z))) : Prop :=
  exists s', handle_proxy_session s srv =
    (Returned (Ok u), s',
     mkServer rest [] (written srv ++ sent) (traffic srv ++ [(len sent, rx)])) /\
    state s' = Established /\ client_outbuf s' = extra /\ server_outbuf s' = [] /\
    server_inbuf s' = [] /\ client_inbuf s' = [].

Definition socks4_hello (dst : SocketAddr) (host : option string) (creds : option UserKey)
    : list Z :=
  [4; 1] ++ be16 (sa_port dst) ++
  match host with
  | Some h => [0; 0; 0; wrap8 (len (as_bytes h))]
  | None => octets (sa_ip dst)
  end ++
  match creds with
  | Some c => as_bytes (username c) ++
      (if bool_decide (password c = "") then [] else 58 :: as_bytes (password c))
  | None => []
  end ++ [0] ++ match host with Some h => as_bytes h ++ [0] | None => [] end.

Lemma new_socks4 server i d creds cmd s :
  new server i d creds VSocks4 cmd = Ok s -> server_outbuf s = socks4_hello (info_dst i) d creds.
Proof.
  unfold new, send_client_hello. unfold mbind at 1, M_bind at 1, gets at 1. simpl.
  destruct (sa_ip (info_dst i)) as [n|n] eqn:Hip.
  - unfold mbind, M_bind. rewrite (hello_socks4_eq _ _ _ _ _ _ Hip). simpl.
    intros [= <-]. unfold socks4_hello. by rewrite Hip.
  - unfold send_client_hello_socks4. run_M. by rewrite Hip.
Qed.

(** Methods offered by the client. *)
Definition offered (creds : option UserKey) : list AuthMethod :=
  [NoAuth; 4; 100] ++ (if creds is Some _ then [UserPass] else []).

Lemma new_socks5 server i d creds cmd :
  new server i d creds VSocks5 cmd =
  Ok (mkSocks server i d ServerHello [] [] [] (handshake_request (offered creds)) VSocks5 creds cmd None).
Proof. done. Qed.

(** A SOCKS4 handshake succeeds on every fragmentation of a granted reply:
    exactly one request is sent, and the bytes behind the reply are kept. *)
Theorem socks4_handshake server i d creds cmd s wire extra chunks rest tr :
  new server i d creds VSocks4 cmd = Ok s ->
  length wire = 8%nat -> wire !! 1%nat = Some 0x5a -> fragments wire extra chunks ->
  handshake_done s (mkServer ((Ok <$> chunks) ++ rest) [] [] tr) None
    (socks4_hello (info_dst i) d creds) extra (len (wire ++ extra)) rest.
Proof.
  intros Hnew Hl H1 Hf. pose proof (new_socks4 _ _ _ _ _ _ Hnew) as Hout.
  destruct (new_ok _ _ _ _ _ _ _ Hnew) as (_ & Hst & Hv & _ & _ & _ & _ & _ & Hci & Hsi & Hco & Hso).
  assert (udp_associate s = None) as Hua.
  { pose proof (new_ok _ _ _ _ _ _ _ Hnew) as [[Hc _] _]. unfold socks_core in Hc. by rewrite Hst in Hc. }
  destruct s as [sa i' d' st ci si co so v cr cmd' ua]. simpl in *. subst.
  unfold handshake_done. rewrite handle_proxy_session_start by done. rewrite sent_eq. cbn.
  run_phase wire extra chunks ltac:(apply push_socks4_granted).
  eexists. split; [by rewrite app_nil_r, Z.add_0_r|by split_and!].
Qed.

(** The last phase: a successful reply to the request. *)
Lemma reply_phase s wire r a extra chunks rest tx rx srv :
  state s = ReceiveResponse -> version s = VSocks5 -> udp_associate s = None ->
  server_inbuf s = [] -> server_outbuf s = [] -> client_inbuf s = [] -> client_outbuf s = [] ->
  decodes response response_len wire r -> reply r = ReplySucceeded ->
  (command s = UdpAssociate -> bound r = SocketAddress a) ->
  wire <> [] -> fragments wire extra chunks -> write_results srv = [] ->
  exists s', session_loop ((Ok <$> chunks) ++ rest) tx rx s srv =
    (Returned (Ok (if bool_decide (command s = UdpAssociate) then Some a else None)), s',
     mkServer [] [] (written srv) (traffic srv ++ [(tx, rx + len (wire ++ extra))]), rest) /\
    state s' = Established /\ client_outbuf s' = extra /\ server_outbuf s' = [] /\
    server_inbuf s' = [] /\ client_inbuf s' = [].
Proof.
  intros Hst Hv Hua Hsi Hso Hci Hco Hd Hr Hb Hw Hf Hwr.
  destruct s as [sa i d st ci si co so v cr cmd ua]. simpl in *. subst.
  run_phase wire extra chunks ltac:(eapply (push_reply_succeeded _ wire extra r a)).
  rewrite app_nil_r, Z.add_0_r.
  case_bool_decide; cbn; eexists; (split; [reflexivity|by split_and!]).
Qed.

(** Run the last phase of a handshake in the goal. *)
Ltac run_reply wire r a extra chunks rest :=
  match goal with
  | |- context [session_loop (_ ++ rest) ?tx ?rx ?s ?srv] =>
      destruct (reply_phase s wire r a extra chunks rest tx rx srv) as (? & -> & ?);
      [done|done|done|done|done|done|done|done|done|exact ltac:(assumption)|done|done|done|]
  end; eexists; split; [|eassumption]; cbn.

(** SOCKS5 without authentication: CONNECT and UDP ASSOCIATE succeed on every
    fragmentation of the replies. *)
Theorem socks5_noauth_handshake server i d creds cmd hello reply_wire r a req extra c1 c2 rest tr :
  decodes handshake_response handshake_response_len hello NoAuth -> hello <> [] ->
  request cmd (request_address cmd d (info_dst i)) = Ok req ->
  decodes response response_len reply_wire r -> reply_wire <> [] -> reply r = ReplySucceeded ->
  (cmd = UdpAssociate -> bound r = SocketAddress a) ->
  fragments hello [] c1 -> fragments reply_wire extra c2 ->
  exists s, new server i d creds VSocks5 cmd = Ok s /\
  handshake_done s (mkServer ((Ok <$> c1) ++ (Ok <$> c2) ++ rest) [] [] tr)
    (if bool_decide (cmd = UdpAssociate) then Some a else None)
    (handshake_request (offered creds) ++ req) extra (len hello + len (reply_wire ++ extra)) rest.
Proof.
  intros Hd1 Hn1 Hreq Hd2 Hn2 Hr Hb Hf1 Hf2. rewrite new_socks5. eexists. split; [done|].
  unfold handshake_done.
  rewrite handle_proxy_session_start; [|done|done|apply handshake_request_nonempty|done].
  rewrite sent_eq. cbn.
  run_phase hello (@nil Z) c1 ltac:(eapply push_hello_noauth).
  run_reply reply_wire r a extra c2 rest. by rewrite !app_nil_r, !len_app.
Qed.

(** C7. SOCKS5 with a user name and a password: the credentials are sent once the
    server has selected that method, the request once it has accepted them. *)
Theorem socks5_userpass_handshake
    server i d c cmd hello auth auth_wire reply_wire r a req extra c1 c2 c3 rest tr :
  decodes handshake_response handshake_response_len hello UserPass -> hello <> [] ->
  password_request (session_username c cmd (info_src i)) (password c) = Ok auth ->
  decodes password_response password_response_len auth_wire StatusSucceeded -> auth_wire <> [] ->
  request cmd (request_address cmd d (info_dst i)) = Ok req ->
  decodes response response_len reply_wire r -> reply_wire <> [] -> reply r = ReplySucceeded ->
  (cmd = UdpAssociate -> bound r = SocketAddress a) ->
  fragments hello [] c1 -> fragments auth_wire [] c2 -> fragments reply_wire extra c3 ->
  exists s, new server i d (Some c) VSocks5 cmd = Ok s /\
  handshake_done s (mkServer ((Ok <$> c1) ++ (Ok <$> c2) ++ (Ok <$> c3) ++ rest) [] [] tr)
    (if bool_decide (cmd = UdpAssociate) then Some a else None)
    (handshake_request (offered (Some c)) ++ auth ++ req) extra
    (len hello + len auth_wire + len (reply_wire ++ extra)) rest.
Proof.
  intros Hd1 Hn1 Hpw Hd2 Hn2 Hreq Hd3 Hn3 Hr Hb Hf1 Hf2 Hf3.
  rewrite new_socks5. eexists. split; [done|]. unfold handshake_done.
  rewrite handle_proxy_session_start; [|done|done|apply handshake_request_nonempty|done].
  rewrite sent_eq. cbn.
  run_phase hello (@nil Z) c1 ltac:(eapply push_hello_userpass).
  change (connection_established _) with false. cbv iota.
  run_phase auth_wire (@nil Z) c2 ltac:(eapply push_auth_succeeded).
  run_reply reply_wire r a extra c3 rest.
  by rewrite !app_nil_r, !len_app, <- !app_assoc, !Z.add_assoc.
Qed.

(** ** Every session *)

(** What holds of every SOCKS session, whatever the server answers: the driver
    never panics; when it returns a result the connection is established,
    every byte produced for the server was sent, and the one traffic record
    counts exactly the bytes written and the bytes read. *)
Theorem socks_session_safe server i d creds v cmd s rs wr tr p s' srv' :
  new server i d creds v cmd = Ok s -> reads_safe rs ->
  handle_proxy_session s (mkServer rs wr [] tr) = (p, s', srv') ->
  p <> Returned Panic /\
  forall u, p = Returned (Ok u) ->
    state s' = Established /\ u = udp_associate s' /\ server_outbuf s' = [] /\
    exists used, rs = used ++ reads srv' /\ Forall is_chunk used /\
      traffic srv' = tr ++ [(len (written srv'), len (received used))].
Proof.
  intros Hnew Hsafe Hp.
  destruct (new_ok _ _ _ _ _ _ _ Hnew) as (Hwf & Hst & _).
  pose proof (handle_proxy_session_total s (mkServer rs wr [] tr) Hwf Hsafe) as Ht.
  pose proof (handle_proxy_session_spec s (mkServer rs wr [] tr) p s' srv' Hwf Hp) as [_ Hspec].
  rewrite Hp in Ht. split; [exact Ht|]. intros u ->.
  destruct Hspec as (He & Hu & Hout & used & Hrs & Hch & Htr).
  apply bool_decide_eq_true_1 in He. split_and!; [done|done| |].
  - apply Hout. apply bool_decide_eq_false_2. rewrite Hst. done.
  - exists used. split_and!; [done|done|]. rewrite Htr. cbn. by rewrite Z.sub_0_r.
Qed.

(** ** Refusals *)

(** A method that is neither "no authentication" nor the offered password
    method ends the handshake, and nothing more is sent: in particular the
    credentials are not. *)
Theorem socks5_bad_method_refused s wire extra m :
  state s = ServerHello -> version s = VSocks5 -> server_inbuf s = [] ->
  decodes handshake_response handshake_response_len wire m ->
  m <> NoAuth -> (m = UserPass -> credentials s = None) ->
  exists e s', push_data (mkEvent FromServer (wire ++ extra)) s = (Err e, s') /\
    server_outbuf s' = server_outbuf s /\ state s' = ServerHello.
Proof.
  intros Hst Hv Hsi (Hl & Hd & _) Hm Hc.
  rewrite push_server_eq, state_change_eq. destruct s as [sa i d st ci si co so v cr cmd ua].
  simpl in *. subst. unfold receive_server_hello, receive_server_hello_socks5, mbind, M_bind, gets.
  cbn [version server_inbuf set_server_inbuf set_bufs app]. rewrite Hd.
  rewrite drain_server_in_ok by (simpl; rewrite length_app; lia). simpl.
  rewrite (proj2 (Z.eqb_neq _ _) Hm). simpl.
  destruct cr as [k|]; simpl; [|by eexists _, _].
  destruct (Z.eqb_spec m UserPass) as [->|]; [by specialize (Hc eq_refl)|].
  by eexists _, _.
Qed.

(** A refused connection is an error of the session, and is never relayed. *)
Theorem socks5_failed_reply s wire extra r :
  state s = ReceiveResponse -> server_inbuf s = [] ->
  decodes response response_len wire r -> reply r <> ReplySucceeded ->
  exists e s', push_data (mkEvent FromServer (wire ++ extra)) s = (Err e, s') /\
    connection_established s' = false /\ client_outbuf s' = client_outbuf s /\
    udp_associate s' = udp_associate s.
Proof.
  intros Hst Hsi (Hl & Hd & _) Hr.
  rewrite push_server_eq, state_change_eq. destruct s as [sa i d st ci si co so v cr cmd ua].
  simpl in *. subst. unfold receive_connection_status, mbind, M_bind, gets.
  cbn [version server_inbuf set_server_inbuf set_bufs app]. rewrite Hd.
  rewrite drain_server_in_ok by (simpl; rewrite length_app; lia). simpl.
  rewrite (proj2 (Z.eqb_neq _ _) Hr). by eexists _, _.
Qed.

(** Rejected credentials end the handshake before any request is sent. *)
Theorem socks5_auth_rejected s wire extra st :
  state s = ReceiveAuthResponse -> server_inbuf s = [] ->
  decodes password_response password_response_len wire st -> st <> StatusSucceeded ->
  exists e s', push_data (mkEvent FromServer (wire ++ extra)) s = (Err e, s') /\
    connection_established s' = false /\ server_outbuf s' = server_outbuf s.
Proof.
  intros Hst Hsi (Hl & Hd & _) Hr.
  rewrite push_server_eq, state_change_eq. destruct s as [sa i d st' ci si co so v cr cmd ua].
  simpl in *. subst. unfold receive_auth_data, mbind, M_bind, gets.
  cbn [version server_inbuf set_server_inbuf set_bufs app]. rewrite Hd.
  rewrite drain_server_in_ok by (simpl; rewrite length_app; lia). simpl.
  rewrite (proj2 (Z.eqb_neq _ _) Hr). by eexists _, _.
Qed.
End session.

(** ** The SOCKS4a request as a server reads it *)

(** The bytes before the next NUL, and those after it. *)
Fixpoint take_nul (bs : list Z) : option (list Z * list Z) :=
  match bs with
  | [] => None
  | b :: bs' => if b =? 0 then Some ([], bs') else ('(f, r) ← take_nul bs'; Some (b :: f, r))
  end.

(** A SOCKS4a CONNECT request: user id, destination (an address, or a name
    when the address is 0.0.0.x with x not zero), port, and the bytes left. *)
Definition parse_socks4 (bs : list Z) : option (list Z * (Z + list Z) * Z * list Z) :=
  match bs with
  | 4 :: 1 :: hi :: lo :: a :: b :: c :: d :: rest =>
      '(user, rest1) ← take_nul rest;
      if (a =? 0) && (b =? 0) && (c =? 0) && negb (d =? 0) then
        '(host, rest2) ← take_nul rest1;
        Some (user, inr host, of_be16 hi lo, rest2)
      else Some (user, inl (of_be_bytes [a; b; c; d]), of_be16 hi lo, rest1)
  | _ => None
  end.

Definition socks4_user (creds : option UserKey) : list Z :=
  match creds with
  | Some c => as_bytes (username c) ++
      (if bool_decide (password c = "") then [] else as_bytes (":" +:+ password c))
  | None => []
  end.

Lemma take_nul_app f rest : 0 ∉ f -> take_nul (f ++ 0 :: rest) = Some (f, rest).
Proof.
  induction f as [|b f IH]; intros Hn; [done|]. simpl.
  apply not_elem_of_cons in Hn as [Hb Hn].
  rewrite (proj2 (Z.eqb_neq b 0)) by done. by rewrite IH.
Qed.

(** [socks4_hello] is the client's greeting of socks.rs ([new_socks4]): a
    SOCKS4a server reads back the user, the destination and the port, and
    nothing is left over. *)
Theorem socks4_request_roundtrip `{Socks5Laws} server i d creds cmd s n :
  new server i d creds VSocks4 cmd = Ok s ->
  info_dst i = mkSA (V4 n) (sa_port (info_dst i)) -> 256 <= n < 2 ^ 32 ->
  is_u16 (sa_port (info_dst i)) -> 0 ∉ socks4_user creds ->
  (forall h, d = Some h -> (0 ∉ as_bytes h) /\ 0 < len (as_bytes h) < 256) ->
  parse_socks4 (server_outbuf s) =
  Some (socks4_user creds,
        match d with Some h => inr (as_bytes h) | None => inl n end,
        sa_port (info_dst i), []).
Proof.
  intros Hnew Hdst Hn Hp Hu Hd. rewrite (new_socks4 _ _ _ _ _ _ Hnew).
  unfold socks4_hello. rewrite Hdst. simpl sa_port in *. cbn [sa_ip sa_port].
  assert (forall tail, match creds with
    | Some c => as_bytes (username c) ++
        (if bool_decide (password c = "") then [] else 58 :: as_bytes (password c))
    | None => [] end ++ [0] ++ tail = socks4_user creds ++ 0 :: tail) as Huser by by destruct creds.
  rewrite Huser. destruct d as [h|].
  - destruct (Hd h eq_refl) as [Hh1 Hh2]. unfold be16. cbn [app parse_socks4].
    rewrite take_nul_app by done. cbn. unfold wrap8. rewrite (Z.mod_small (len _)) by lia.
    rewrite (proj2 (Z.eqb_neq (len _) 0)) by lia. cbn. rewrite take_nul_app by done. cbn.
    by rewrite of_be16_be16.
  - unfold be16.
    change (octets (V4 n)) with
      [(n / 256 / 256 / 256) mod 256; (n / 256 / 256) mod 256; (n / 256) mod 256; n mod 256].
    cbn [app parse_socks4].
    rewrite take_nul_app by done. cbn [mbind option_bind].
    assert (of_be_bytes [(n / 256 / 256 / 256) mod 256; (n / 256 / 256) mod 256;
      (n / 256) mod 256; n mod 256] = n) as Hval.
    { change (of_be_bytes (be_bytes 4 n) = n). rewrite of_be_bytes_be_bytes.
      apply Z.mod_small. simpl. lia. }
    destruct (_ && _) eqn:Hz; [|by rewrite Hval, of_be16_be16].
    b2p. exfalso. unfold of_be_bytes in Hval. simpl in Hval.
    pose proof (Z.mod_pos_bound n 256). lia.
Qed.

(** ** Concrete sessions *)

Section examples.
Import Rfc1928.

Let client := mkSA (ipv4 10 0 0 2) 40000.
Let proxy := mkSA (ipv4 127 0 0 1) 1080.
Let target := mkSA (ipv4 93 184 216 34) 443.
Let session := mkInfo client target Tcp 0.
Let key := mkKey "user+info" "pw".
Let banner := as_bytes "220 ready".

Lemma socks4_handshake_witness :
  exists s, new proxy session (Some "example.org") None VSocks4 Connect = Ok s /\
  handshake_done s
    (mkServer ((Ok <$> [[0; 0x5a; 0]; [0; 0; 0; 0; 0] ++ banner]) ++ [Ok []]) [] [] []) None
    (socks4_hello target (Some "example.org") None) banner 17 [Ok []].
Proof.
  eexists. split; [reflexivity|].
  apply (socks4_handshake proxy session (Some "example.org") None Connect _
    [0; 0x5a; 0; 0; 0; 0; 0; 0] banner); [done|done|done|].
  split; [repeat constructor; done|]. exists [[0; 0x5a; 0]], ([0; 0; 0; 0; 0] ++ banner).
  split_and!; [done|done|simpl; lia].
Defined.

Lemma socks5_noauth_handshake_witness :
  exists s, new proxy session None (Some key) VSocks5 UdpAssociate = Ok s /\
  handshake_done s
    (mkServer ((Ok <$> [[5]; [0]]) ++ (Ok <$> [[5; 0]; [0; 1; 127; 0; 0; 1; 4; 210]]) ++ []) [] [] [])
    (Some (mkSA (ipv4 127 0 0 1) 1234))
    (handshake_request (offered (Some key)) ++ [5; 3; 0; 1; 0; 0; 0; 0; 0; 0]) [] 12 [].
Proof.
  apply (socks5_noauth_handshake (H := rfc1928) proxy session None (Some key) UdpAssociate [5; 0]
    [5; 0; 0; 1; 127; 0; 0; 1; 4; 210] _ (mkSA (ipv4 127 0 0 1) 1234)
    [5; 3; 0; 1; 0; 0; 0; 0; 0; 0] [] [[5]; [0]]
    [[5; 0]; [0; 1; 127; 0; 0; 1; 4; 210]] [] []
    (two_byte_decodes 5 NoAuth) ltac:(done) eq_refl (reply_decodes 0 127 0 0 1 4 210)
    ltac:(done) eq_refl ltac:(done)).
  - split; [repeat constructor; done|]. exists [[5]], [0]. split_and!; [done|done|simpl; lia].
  - split; [repeat constructor; done|].
    exists [[5; 0]], [0; 1; 127; 0; 0; 1; 4; 210]. split_and!; [done|done|simpl; lia].
Defined.

Lemma socks5_userpass_handshake_witness :
  exists s, new proxy session None (Some key) VSocks5 Connect = Ok s /\
  handshake_done s
    (mkServer ((Ok <$> [[5; 2]]) ++ (Ok <$> [[1]; [0]]) ++
       (Ok <$> [[5; 0; 0; 1; 0; 0; 0; 0; 0; 0] ++ banner]) ++ [Ok []]) [] [] []) None
    (handshake_request (offered (Some key)) ++
     ([1; 23] ++ as_bytes "user|tcp|10.0.0.2|40000" ++ [2] ++ as_bytes "pw") ++
     [5; 1; 0; 1; 93; 184; 216; 34; 1; 187]) banner 23 [Ok []].
Proof.
  apply (socks5_userpass_handshake (H := rfc1928) proxy session None key Connect [5; 2]
    ([1; 23] ++ as_bytes "user|tcp|10.0.0.2|40000" ++ [2] ++ as_bytes "pw") [1; 0]
    [5; 0; 0; 1; 0; 0; 0; 0; 0; 0] _ (mkSA (V4 0) 0)
    [5; 1; 0; 1; 93; 184; 216; 34; 1; 187] banner [[5; 2]] [[1]; [0]]
    [[5; 0; 0; 1; 0; 0; 0; 0; 0; 0] ++ banner] [Ok []] []
    (two_byte_decodes 5 UserPass) ltac:(done) ltac:(vm_compute; reflexivity)
    (two_byte_decodes 1 StatusSucceeded) ltac:(done) ltac:(vm_compute; reflexivity)
    (reply_decodes 0 0 0 0 0 0 0) ltac:(done) eq_refl ltac:(done)).
  - split; [repeat constructor; done|]. exists [], [5; 2]. split_and!; [done|done|simpl; lia].
  - split; [repeat constructor; done|]. exists [[1]], [0]. split_and!; [done|done|simpl; lia].
  - split; [repeat constructor; done|].
    exists [], ([5; 0; 0; 1; 0; 0; 0; 0; 0; 0] ++ banner). split_and!; [done|done|simpl; lia].
Defined.

Lemma socks_session_safe_witness :
  exists s s' srv', new proxy session None None VSocks5 Connect = Ok s /\
  handle_proxy_session s
    (mkServer [Ok [5]; Ok [0]; Ok ([5; 0; 0; 1; 0; 0; 0; 0; 0; 0] ++ banner)] [] [] []) =
    (Returned (Ok None), s', srv') /\
  state s' = Established /\ None = udp_associate s' /\ server_outbuf s' = [] /\
  exists used, [Ok [5]; Ok [0]; Ok ([5; 0; 0; 1; 0; 0; 0; 0; 0; 0] ++ banner)] = used ++ reads srv' /\
    Forall is_chunk used /\ traffic srv' = [(len (written srv'), len (received used))].
Proof.
  eexists _, _, _. split; [reflexivity|]. split; [vm_compute; reflexivity|].
  refine (proj2 (socks_session_safe (H := rfc1928) proxy session None None VSocks5 Connect _
    [Ok [5]; Ok [0]; Ok ([5; 0; 0; 1; 0; 0; 0; 0; 0; 0] ++ banner)] [] [] _ _ _
    eq_refl _ _) None eq_refl); [by repeat constructor|vm_compute; reflexivity].
Defined.

(** A connection waiting for a reply. *)
Definition waiting (st : SocksState) (creds : option UserKey) : SocksProxyImpl :=
  mkSocks proxy session None st [] [] [] [] VSocks5 creds Connect None.

Lemma socks5_bad_method_refused_witness :
  exists e s', push_data (mkEvent FromServer ([5; 2] ++ [])) (waiting ServerHello None) = (Err e, s') /\
    server_outbuf s' = [] /\ state s' = ServerHello.
Proof.
  exact (socks5_bad_method_refused (H := rfc1928) (waiting ServerHello None) [5; 2] [] 2 eq_refl eq_refl eq_refl
    (two_byte_decodes 5 2) ltac:(done) ltac:(done)).
Defined.

Lemma socks5_failed_reply_witness :
  exists e s', push_data (mkEvent FromServer ([5; 5; 0; 1; 0; 0; 0; 0; 0; 0] ++ banner))
      (waiting ReceiveResponse None) = (Err e, s') /\
    connection_established s' = false /\ client_outbuf s' = [] /\ udp_associate s' = None.
Proof.
  exact (socks5_failed_reply (H := rfc1928) (waiting ReceiveResponse None) _ banner _ eq_refl eq_refl
    (reply_decodes 5 0 0 0 0 0 0) ltac:(done)).
Defined.

Lemma socks5_auth_rejected_witness :
  exists e s', push_data (mkEvent FromServer ([1; 1] ++ []))
      (waiting ReceiveAuthResponse (Some key)) = (Err e, s') /\
    connection_established s' = false /\ server_outbuf s' = [].
Proof.
  exact (socks5_auth_rejected (H := rfc1928) (waiting ReceiveAuthResponse (Some key)) [1; 1] [] 1 eq_refl eq_refl
    (two_byte_decodes 1 1) ltac:(done)).
Defined.

Lemma socks4_request_roundtrip_witness :
  exists s, new proxy session (Some "example.org") (Some (mkKey "u" "p")) VSocks4 Connect = Ok s /\
  parse_socks4 (server_outbuf s) = Some (as_bytes "u:p", inr (as_bytes "example.org"), 443, []).
Proof.
  eexists. split; [reflexivity|].
  apply (socks4_request_roundtrip proxy session (Some "example.org") (Some (mkKey "u" "p")) Connect
    _ (ip_value (sa_ip target))); [done|done|vm_compute; split; congruence|by vm_compute| |].
  - by apply (bool_decide_eq_true_1 (_ ∉ _)); vm_compute.
  - intros h [= <-]. split; [by apply (bool_decide_eq_true_1 (_ ∉ _)); vm_compute|by vm_compute].
Defined.
End examples.
End SocksSession.
