(* ===== verification/NoProxy.v ===== *)
(** * The direct handler (src/src/no_proxy.rs)

    [NoProxyHandler] is the handler of a session that goes to its destination
    without a proxy: it is established from the start and its server address is
    the destination. *)

From S2P Require Import Prelude Net ProxyHandler.

Module NoProxy.

Record NoProxyHandler := mkNoProxy {
  info : SessionInfo;
  domain_name : option string;
  client_outbuf : list Z;
  server_outbuf : list Z;
  udp_associate : bool }.

Definition set_outbufs (co so : list Z) (s : NoProxyHandler) : NoProxyHandler :=
  mkNoProxy (info s) (domain_name s) co so (udp_associate s).

Definition push_data (ev : DataEvent IncomingDirection) : M NoProxyHandler IoError unit :=
  match direction ev with
  | FromServer => modify (fun s => set_outbufs (client_outbuf s ++ buffer ev) (server_outbuf s) s)
  | FromClient => modify (fun s => set_outbufs (client_outbuf s) (server_outbuf s ++ buffer ev) s)
  end.

Definition peek_data (dir : OutgoingDirection) (s : NoProxyHandler) : list Z :=
  match dir with ToServer => server_outbuf s | ToClient => client_outbuf s end.

Definition consume_data (dir : OutgoingDirection) (size : nat) : M NoProxyHandler IoError unit :=
  fun s =>
  match drain size (peek_data dir s) with
  | Ok b => (Ok tt, match dir with
                    | ToServer => set_outbufs (client_outbuf s) b s
                    | ToClient => set_outbufs b (server_outbuf s) s
                    end)
  | Err e => (Err e, s)
  | Panic => (Panic, s)
  end.

(** [NoProxyManager::new_proxy_handler]. *)
Definition new_proxy_handler (i : SessionInfo) (domain : option string) (udp : bool)
    : res IoError NoProxyHandler :=
  Ok (mkNoProxy i domain [] [] udp).

#[export] Instance no_proxy_handler : ProxyHandler NoProxyHandler := {
  get_server_addr := fun s => info_dst (info s);
  get_session_info := info;
  get_domain_name := domain_name;
  ProxyHandler.push_data := push_data;
  ProxyHandler.consume_data := consume_data;
  ProxyHandler.peek_data := peek_data;
  connection_established := fun _ => true;
  data_len := fun dir s => length (peek_data dir s);
  reset_connection := fun _ => false;
  get_udp_associate := fun s => if udp_associate s then Some (info_dst (info s)) else None;
}.

#[export] Instance no_proxy_laws : ProxyHandlerLaws NoProxyHandler.
Proof.
  refine {| handler_ok := fun _ => True |}; try done.
  - intros dir n [] _ Hn. destruct dir; simpl in *; unfold consume_data; simpl;
      rewrite drain_ok by done; eexists; (split_and!; [reflexivity|done|done|by intros []|done|done]).
  - intros [[] b] [] _ _; eexists; (split_and!; [reflexivity|..]; simpl; rewrite ?app_nil_r; done).
Defined.

#[export] Instance no_proxy_total : ProxyHandlerTotal NoProxyHandler.
Proof. by intros [[] b] []. Qed.

(** A direct session starts relaying at once: its handshake writes nothing to
    the destination and reads nothing from it. *)
Lemma no_proxy_handshake i domain udp h s :
  new_proxy_handler i domain udp = Ok h ->
  handle_proxy_session h s =
  (Returned (Ok (if udp then Some (info_dst i) else None)), h,
   mkServer (reads s) (write_results s) (written s) (traffic s ++ [(0, 0)])).
Proof. by intros [= <-]. Qed.
End NoProxy.
