(* ===== verification/Traffic.v ===== *)
(** * Traffic statistics (src/src/traffic_status.rs)

    The process-wide counters, the optional callback and the time of the last
    report are one record.  The callback is foreign code: its calls are the
    list of values it was given.  The clock is an argument, in nanoseconds. *)

From S2P Require Import Prelude.

Module Traffic.

Record TrafficStatus := mkStatus { tx : Z; rx : Z }.

Record Stats := mkStats {
  callback_set : bool;          (* TRAFFIC_STATUS_CALLBACK is Some *)
  callback_fn : bool;           (* ... and holds a function pointer *)
  send_interval_secs : Z;       (* SEND_INTERVAL_SECS *)
  status : TrafficStatus;       (* TRAFFIC_STATUS *)
  time_stamp : Z;               (* TIME_STAMP *)
  reports : list TrafficStatus  (* calls of the callback, oldest first *) }.

Definition initial (now : Z) : Stats := mkStats false false 1 (mkStatus 0 0) now [].

(** [tun2proxy_set_traffic_status_callback]. *)
Definition set_traffic_status_callback (interval : Z) (cb : bool) (s : Stats) : Stats :=
  mkStats true cb (if 0 <? interval then interval else send_interval_secs s)
    (status s) (time_stamp s) (reports s).

Definition send_traffic_stat (t : TrafficStatus) (s : Stats) : Stats :=
  if callback_set s && callback_fn s then
    mkStats (callback_set s) (callback_fn s) (send_interval_secs s) (status s) (time_stamp s)
      (reports s ++ [t])
  else s.

Definition nanos_per_sec : Z := 1000000000.

(** [traffic_status_update]; [now] and [now'] are the two readings of the clock. *)
Definition traffic_status_update (now now' : Z) (delta_tx delta_rx : Z) (s : Stats)
    : res Error unit * Stats :=
  if negb (callback_set s) then (Ok tt, s)
  else
    let t := mkStatus (wrap64 (tx (status s) + delta_tx)) (wrap64 (rx (status s) + delta_rx)) in
    let s1 := mkStats (callback_set s) (callback_fn s) (send_interval_secs s) t (time_stamp s)
                (reports s) in
    (* Instant::duration_since saturates at zero *)
    if send_interval_secs s1 <=? Z.max 0 (now - time_stamp s1) / nanos_per_sec then
      let s2 := send_traffic_stat t s1 in
      (Ok tt, mkStats (callback_set s2) (callback_fn s2) (send_interval_secs s2) (status s2) now'
                (reports s2))
    else (Ok tt, s1).

(** A sequence of updates: the clock readings and the deltas. *)
Fixpoint run (us : list (Z * Z * Z * Z)) (s : Stats) : Stats :=
  match us with
  | [] => s
  | (now, now', dt, dr) :: us' => run us' (traffic_status_update now now' dt dr s).2
  end.

Definition sum_tx (us : list (Z * Z * Z * Z)) : Z := foldr (fun u acc => u.1.2 + acc) 0 us.
Definition sum_rx (us : list (Z * Z * Z * Z)) : Z := foldr (fun u acc => u.2 + acc) 0 us.

Lemma update_result now now' dt dr s : (traffic_status_update now now' dt dr s).1 = Ok tt.
Proof. unfold traffic_status_update. crush_cases; done. Qed.

Lemma update_settings now now' dt dr s :
  let s' := (traffic_status_update now now' dt dr s).2 in
  callback_set s' = callback_set s /\ callback_fn s' = callback_fn s /\
  send_interval_secs s' = send_interval_secs s.
Proof. unfold traffic_status_update, send_traffic_stat. crush_cases; done. Qed.

Lemma update_status now now' dt dr s :
  callback_set s = true ->
  status (traffic_status_update now now' dt dr s).2 =
  mkStatus (wrap64 (tx (status s) + dt)) (wrap64 (rx (status s) + dr)).
Proof. intros H. unfold traffic_status_update, send_traffic_stat. rewrite H. crush_cases; done. Qed.

Lemma update_status_off now now' dt dr s :
  callback_set s = false -> traffic_status_update now now' dt dr s = (Ok tt, s).
Proof. intros H. unfold traffic_status_update. by rewrite H. Qed.

Lemma wrap64_add_l a b : wrap64 (wrap64 a + b) = wrap64 (a + b).
Proof. unfold wrap64. by rewrite Zplus_mod_idemp_l. Qed.

(** The counters are the sums of the deltas modulo 2^64, from the first update
    after a callback was registered, and stay unchanged before. *)
Lemma run_status us s :
  0 <= tx (status s) <= u64_max -> 0 <= rx (status s) <= u64_max ->
  status (run us s) =
  if callback_set s then mkStatus (wrap64 (tx (status s) + sum_tx us)) (wrap64 (rx (status s) + sum_rx us))
  else status s.
Proof.
  revert s. induction us as [|[[[now now'] dt] dr] us IH]; intros s Ht Hr; simpl.
  - unfold sum_tx, sum_rx. simpl. rewrite !Z.add_0_r. destruct (status s) as [t r]. simpl in *.
    unfold wrap64, u64_max in *. rewrite !Z.mod_small by lia. by destruct (callback_set s).
  - destruct (callback_set s) eqn:Hc.
    + destruct (update_settings now now' dt dr s) as (Hc' & _).
      rewrite IH; rewrite ?update_status by done; rewrite ?Hc', ?Hc; simpl.
      * rewrite !wrap64_add_l, <- !Z.add_assoc. done.
      * unfold wrap64, u64_max. pose proof (Z.mod_pos_bound (tx (status s) + dt) 18446744073709551616). lia.
      * unfold wrap64, u64_max. pose proof (Z.mod_pos_bound (rx (status s) + dr) 18446744073709551616). lia.
    + rewrite update_status_off by done. simpl. rewrite IH by done. by rewrite Hc.
Qed.

(** A report is made only when the interval has passed, and carries the
    counters as they are after the update. *)
Lemma update_reports now now' dt dr s :
  let s' := (traffic_status_update now now' dt dr s).2 in
  reports s' = reports s \/
  (reports s' = reports s ++ [status s'] /\ time_stamp s' = now' /\
   send_interval_secs s <= Z.max 0 (now - time_stamp s) / nanos_per_sec).
Proof.
  unfold traffic_status_update, send_traffic_stat.
  destruct (callback_set s); simpl; [|by left].
  destruct (_ <=? _) eqn:E; simpl; [|by left]. b2p.
  destruct (callback_fn s); simpl; [right|by left]. by split_and!.
Qed.
(** ** The counters and the reports *)

(** Every counter value a report may carry: the sums after a prefix of the
    updates. *)
Definition counted (s : Stats) (us : list (Z * Z * Z * Z)) (t : TrafficStatus) : Prop :=
  exists done rest, us = done ++ rest /\
    t = mkStatus (wrap64 (tx (status s) + sum_tx done)) (wrap64 (rx (status s) + sum_rx done)).

Definition status_ok (s : Stats) : Prop :=
  0 <= tx (status s) <= u64_max /\ 0 <= rx (status s) <= u64_max.

Lemma update_ok now now' dt dr s :
  status_ok s -> status_ok (traffic_status_update now now' dt dr s).2.
Proof.
  intros [Ht Hr]. destruct (callback_set s) eqn:Hc.
  - unfold status_ok. rewrite update_status by done. unfold wrap64, u64_max. simpl.
    pose proof (Z.mod_pos_bound (tx (status s) + dt) 18446744073709551616).
    pose proof (Z.mod_pos_bound (rx (status s) + dr) 18446744073709551616). lia.
  - by rewrite update_status_off.
Qed.

Lemma run_app a b s : run (a ++ b) s = run b (run a s).
Proof. revert s. by induction a as [|[[[? ?] ?] ?] a IH]; intros s; simpl. Qed.

Lemma run_callback us s : callback_set (run us s) = callback_set s.
Proof.
  revert s. induction us as [|[[[now now'] dt] dr] us IH]; intros s; simpl; [done|].
  rewrite IH. by destruct (update_settings now now' dt dr s).
Qed.

(** The counters are exact modulo 2^64 once a callback is registered, and every
    new report carries the exact counters of the moment it was made. *)
Theorem traffic_counters_exact us s :
  callback_set s = true -> status_ok s ->
  status (run us s) =
    mkStatus (wrap64 (tx (status s) + sum_tx us)) (wrap64 (rx (status s) + sum_rx us)) /\
  exists new, reports (run us s) = reports s ++ new /\ Forall (counted s us) new.
Proof.
  intros Hc [Ht Hr]. split; [by rewrite run_status, Hc|].
  induction us as [|[[[now now'] dt] dr] us IH] using rev_ind.
  { exists []. by rewrite app_nil_r. }
  destruct IH as (new & Hnew & Hall). rewrite run_app. cbn [run].
  assert (Forall (counted s (us ++ [(now, now', dt, dr)])) new) as Hall'.
  { eapply Forall_impl; [exact Hall|]. intros t (d & rest & -> & ->).
    exists d, (rest ++ [(now, now', dt, dr)]). by rewrite app_assoc. }
  destruct (update_reports now now' dt dr (run us s)) as [->|(-> & _ & _)]; [by exists new|].
  eexists. split; [by rewrite Hnew, <- app_assoc|]. apply Forall_app. split; [done|].
  constructor; [|done]. exists (us ++ [(now, now', dt, dr)]), []. split; [by rewrite app_nil_r|].
  change (traffic_status_update now now' dt dr (run us s)).2 with (run [(now, now', dt, dr)] (run us s)).
  rewrite <- run_app, run_status by done. by rewrite Hc.
Qed.

Lemma traffic_counters_exact_witness :
  let s := set_traffic_status_callback 0 true (initial 0) in
  let us := [(10, 20, 5, 7); (3000000000, 3000000001, 1, u64_max)] in
  status (run us s) = mkStatus 6 6 /\
  exists new, reports (run us s) = [] ++ new /\ Forall (counted s us) new.
Proof.
  apply (traffic_counters_exact [(10, 20, 5, 7); (3000000000, 3000000001, 1, u64_max)]
    (set_traffic_status_callback 0 true (initial 0))); [reflexivity|by vm_compute].
Defined.
End Traffic.
