(* ===== verification/Http.v ===== *)
(** * The HTTP CONNECT client handshake (src/src/http.rs)

    [HttpConnection] is the connection record with one definition per method.
    The digest challenge is shared by the connections of one [HttpManager]
    (an [Arc<Mutex<..>>]): the field [digest_state] is that shared cell as the
    connection sees it, and the theorems hold for every value another
    connection may leave in it ([set_digest]).

    The crates [httparse], [digest_auth] and [base64easy] are the operations of
    [HttpLib].  [state_change] calls itself after each transition; [fuel] bounds
    the calls, and its result says whether it has returned ([true]) or is still
    running when the fuel is used up ([false]).  [state_change_returns] shows
    that [change_fuel] is enough unless a length overflows. *)

From S2P Require Import Prelude Net Socks5Impl ProxyHandler.

Module Http.

Inductive AuthenticationScheme := SchemeNone | SchemeBasic | SchemeDigest.

Inductive HttpState := SendRequest | ExpectResponseHeaders | ExpectResponse | Reset | Established.

#[export] Instance HttpState_eq_dec : EqDecision HttpState.
Proof. solve_decision. Defined.

(** What [httparse::Response::parse] reports on a complete header block. *)
Record HttpResponse := mkHttpResponse {
  resp_len : nat;                        (* Status::Complete(len) *)
  resp_code : option Z;
  resp_version : option Z;
  resp_reason : option string;
  resp_headers : list (list Z * list Z) }.

(** The third-party parsers and encoders.  [httparse_response] returns [None]
    for [Status::Partial]; [digest_respond] updates the challenge's counters. *)
Class HttpLib := {
  Digest : Type;
  httparse_response : list Z -> res string (option HttpResponse);
  digest_parse : list Z -> res string Digest;
  digest_stale : Digest -> bool;
  digest_respond : Digest -> UserKey -> string -> res string string * Digest;
  base64_encode : list Z -> string;
}.

(** ** Standard library: UTF-8, integers, lists of values *)

Definition is_cont (b : Z) : bool := (128 <=? b) && (b <=? 191).

(** [str::from_utf8(..).is_ok()]. *)
Fixpoint utf8_valid (bs : list Z) : bool :=
  match bs with
  | [] => true
  | b0 :: r0 =>
    if b0 <? 128 then utf8_valid r0
    else match r0 with
    | [] => false
    | b1 :: r1 =>
      if (194 <=? b0) && (b0 <=? 223) then is_cont b1 && utf8_valid r1
      else match r1 with
      | [] => false
      | b2 :: r2 =>
        if (224 <=? b0) && (b0 <=? 239) then
          (((b0 =? 224) && (160 <=? b1) && (b1 <=? 191)) ||
           ((b0 =? 237) && (128 <=? b1) && (b1 <=? 159)) ||
           (negb (b0 =? 224) && negb (b0 =? 237) && is_cont b1))
          && is_cont b2 && utf8_valid r2
        else match r2 with
        | [] => false
        | b3 :: r3 =>
          (((b0 =? 240) && (144 <=? b1) && (b1 <=? 191)) ||
           ((241 <=? b0) && (b0 <=? 243) && is_cont b1) ||
           ((b0 =? 244) && (128 <=? b1) && (b1 <=? 143)))
          && is_cont b2 && is_cont b3 && utf8_valid r3
        end
      end
    end
  end.

Fixpoint parse_digits (acc : Z) (bs : list Z) : option Z :=
  match bs with
  | [] => Some acc
  | b :: bs' =>
      if (48 <=? b) && (b <=? 57) then
        let acc' := acc * 10 + (b - 48) in
        if usize_max <? acc' then None else parse_digits acc' bs'
      else None
  end.

(** [str::parse::<usize>]. *)
Definition parse_usize (bs : list Z) : option Z :=
  match bs with
  | [] => None
  | [43] => None
  | 43 :: bs' => parse_digits 0 bs'
  | _ => parse_digits 0 bs
  end.

(** [str::split(',')]. *)
Fixpoint split_comma (bs : list Z) : list (list Z) :=
  match bs with
  | [] => [[]]
  | b :: bs' =>
      if b =? 44 then [] :: split_comma bs'
      else match split_comma bs' with
           | [] => [[b]]
           | w :: ws => (b :: w) :: ws
           end
  end.

(** ** The connection *)

Section impl.
Context `{HttpLib}.

Record HttpConnection := mkHttp {
  server_addr : SocketAddr;
  state : HttpState;
  client_inbuf : list Z;
  server_inbuf : list Z;
  client_outbuf : list Z;
  server_outbuf : list Z;
  crlf_state : Z;
  counter : nat;
  skip : Z;
  digest_state : option Digest;
  before : bool;
  credentials : option UserKey;
  info : SessionInfo;
  domain_name : option string }.

Definition set_state (st : HttpState) (s : HttpConnection) : HttpConnection :=
  mkHttp (server_addr s) st (client_inbuf s) (server_inbuf s) (client_outbuf s) (server_outbuf s)
    (crlf_state s) (counter s) (skip s) (digest_state s) (before s) (credentials s) (info s) (domain_name s).

Definition set_bufs (ci si co so : list Z) (s : HttpConnection) : HttpConnection :=
  mkHttp (server_addr s) (state s) ci si co so (crlf_state s) (counter s) (skip s)
    (digest_state s) (before s) (credentials s) (info s) (domain_name s).

Definition set_server_inbuf (b : list Z) (s : HttpConnection) : HttpConnection :=
  set_bufs (client_inbuf s) b (client_outbuf s) (server_outbuf s) s.

Definition set_server_outbuf (b : list Z) (s : HttpConnection) : HttpConnection :=
  set_bufs (client_inbuf s) (server_inbuf s) (client_outbuf s) b s.

Definition set_scan (n : nat) (crlf : Z) (s : HttpConnection) : HttpConnection :=
  mkHttp (server_addr s) (state s) (client_inbuf s) (server_inbuf s) (client_outbuf s)
    (server_outbuf s) crlf n (skip s) (digest_state s) (before s) (credentials s) (info s) (domain_name s).

Definition set_skip (n : Z) (s : HttpConnection) : HttpConnection :=
  mkHttp (server_addr s) (state s) (client_inbuf s) (server_inbuf s) (client_outbuf s)
    (server_outbuf s) (crlf_state s) (counter s) n (digest_state s) (before s) (credentials s)
    (info s) (domain_name s).

Definition set_digest (d : option Digest) (s : HttpConnection) : HttpConnection :=
  mkHttp (server_addr s) (state s) (client_inbuf s) (server_inbuf s) (client_outbuf s)
    (server_outbuf s) (crlf_state s) (counter s) (skip s) d (before s) (credentials s)
    (info s) (domain_name s).

Definition set_before (b : bool) (s : HttpConnection) : HttpConnection :=
  mkHttp (server_addr s) (state s) (client_inbuf s) (server_inbuf s) (client_outbuf s)
    (server_outbuf s) (crlf_state s) (counter s) (skip s) (digest_state s) b (credentials s)
    (info s) (domain_name s).

(** [self.server_outbuf.extend(..)]. *)
Definition extend_server_out (b : list Z) (s : HttpConnection) : HttpConnection :=
  set_server_outbuf (server_outbuf s ++ b) s.

Definition PROXY_AUTHENTICATE : list Z := as_bytes "Proxy-Authenticate".
Definition PROXY_AUTHORIZATION : list Z := as_bytes "Proxy-Authorization".
Definition CONNECTION : list Z := as_bytes "Connection".
Definition TRANSFER_ENCODING : list Z := as_bytes "Transfer-Encoding".
Definition CONTENT_LENGTH : list Z := as_bytes "Content-Length".
Definition crlf : list Z := [13; 10].

Definition basic_auth_header_value (c : UserKey) : list Z :=
  as_bytes ("Basic " +:+ base64_encode (as_bytes (username c +:+ ":" +:+ password c))).

Definition is_digest_scheme (auth_data : list Z) : bool :=
  (6 <=? length auth_data)%nat && eq_ignore_ascii_case (take 6 auth_data) (as_bytes "digest").

(** The request target: the domain if there is one, else the address. *)
Definition connect_host (s : HttpConnection) : string :=
  match domain_name s with
  | Some d => d +:+ ":" +:+ show_dec (sa_port (info_dst (info s)))
  | None => show_sockaddr (info_dst (info s))
  end.

Definition send_auth_data (scheme : AuthenticationScheme) : M HttpConnection Error unit :=
  creds ← gets credentials;
  match creds with
  | None => mret tt
  | Some c =>
      match scheme with
      | SchemeDigest =>
          uri ← gets connect_host;
          st ← gets digest_state;
          match st with
          | None => throw (EString "Digest auth state is missing")
          | Some d =>
              let '(r, d') := digest_respond d c uri in
              modify (set_digest (Some d'));;
              match r with
              | Ok header =>
                  modify (extend_server_out (PROXY_AUTHORIZATION ++ [58; 32] ++ as_bytes header ++ crlf))
              | Err _ => throw (EString "Digest auth response failed: {e}")
              | Panic => panic
              end
          end
      | SchemeBasic =>
          modify (extend_server_out (PROXY_AUTHORIZATION ++ [58; 32] ++ basic_auth_header_value c ++ crlf))
      | SchemeNone => mret tt
      end
  end.

Definition send_tunnel_request : M HttpConnection Error unit :=
  host ← gets connect_host;
  modify (extend_server_out (as_bytes "CONNECT "));;
  modify (extend_server_out (as_bytes host));;
  modify (extend_server_out (as_bytes " HTTP/1.1" ++ crlf ++ as_bytes "Host: "));;
  modify (extend_server_out (as_bytes host));;
  modify (extend_server_out crlf);;
  d ← gets digest_state;
  send_auth_data (match d with None => SchemeBasic | Some _ => SchemeDigest end);;
  modify (extend_server_out crlf).

(** [HttpConnection::new]. *)
Definition new (server : SocketAddr) (i : SessionInfo) (domain : option string)
    (creds : option UserKey) (digest : option Digest) : res Error HttpConnection :=
  match send_tunnel_request
          (mkHttp server ExpectResponseHeaders [] [] [] [] 0 0 0 digest false creds i domain) with
  | (Ok _, s) => Ok s
  | (Err e, _) => Err e
  | (Panic, _) => Panic
  end.

(** The [while] loop that looks for the end of the headers, on the bytes from
    [counter] on. *)
Fixpoint scan (bs : list Z) (counter : nat) (crlf_state : Z) : nat * Z :=
  match bs with
  | [] => (counter, crlf_state)
  | b :: bs' =>
      let crlf' := if b =? 10 then crlf_state + 1 else if b =? 13 then crlf_state else 0 in
      if crlf' =? 2 then (S counter, crlf') else scan bs' (S counter) crlf'
  end.

(** [headers_map.get]: names compare without case, and a later header
    overwrites an earlier one of the same name. *)
Definition header (name : list Z) (hs : list (list Z * list Z)) : option (list Z) :=
  foldl (fun acc h => if eq_ignore_ascii_case h.1 name then Some h.2 else acc) None hs.

(** The value of a [Content-Length] header. *)
Fixpoint all_equal (f : Z) (it : list (list Z)) : res Error unit :=
  match it with
  | [] => Ok tt
  | w :: it' =>
      match parse_usize w with
      | None => Err (IntParseError "")
      | Some k => if k =? f then all_equal f it' else Err (EString "Malformed response")
      end
  end.

Definition parse_content_length (value : list Z) : res Error Z :=
  match parse_usize value with
  | Some x => Ok x
  | None =>
      match split_comma value with
      | [] => Err (EString "Malformed response")
      | first :: it =>
          match parse_usize first with
          | None => Err (IntParseError "")
          | Some f => all_equal f it;; Ok f
          end
      end
  end.

(** The two places where the response cannot be skipped: the buffers are
    cleared and the request is sent again. *)
Definition reset_and_retry : M HttpConnection Error unit :=
  modify (fun s => set_bufs (client_inbuf s) [] (client_outbuf s) [] s);;
  send_tunnel_request;;
  modify (set_state Reset).

(** The 407 branch of [state_change], after the status code was tested. *)
Definition answer_challenge (state_change : M HttpConnection Error bool)
    (r : HttpResponse) (version : Z) : M HttpConnection Error bool :=
  match header PROXY_AUTHENTICATE (resp_headers r) with
  | None => throw (EString "Proxy requires auth but didn't send authentication details")
  | Some auth_data =>
      if negb (is_digest_scheme auth_data) then
        throw (EString "Proxy authentication method is not supported; only Digest is supported")
      else if negb (utf8_valid auth_data) then throw (Utf8 "")
      else
        match digest_parse auth_data with
        | Err e => throw (DigestAuth e)
        | Panic => panic
        | Ok d =>
            b ← gets before;
            if b && negb (digest_stale d) then throw (EString "Bad credentials")
            else
              modify (set_digest (Some d));;
              modify (set_before true);;
              let closed := match header CONNECTION (resp_headers r) with
                            | Some v => eq_ignore_ascii_case v (as_bytes "close")
                            | None => false
                            end in
              if closed || (version =? 0) then reset_and_retry;; mret true
              else if header TRANSFER_ENCODING (resp_headers r) is Some _ then
                throw (EString "Header Transfer-Encoding not supported")
              else
                match header CONTENT_LENGTH (resp_headers r) with
                | None => reset_and_retry;; mret true
                | Some v =>
                    if negb (utf8_valid v) then throw (Utf8 "")
                    else
                      content_length ← lift (parse_content_length v);
                      modify (set_state ExpectResponse);;
                      modify (set_skip (wrap64 (content_length + Z.of_nat (resp_len r))));;
                      state_change
                end
        end
  end.

Definition drain_server_in (n : nat) : M HttpConnection Error unit := fun s =>
  match drain n (server_inbuf s) with
  | Ok b => (Ok tt, set_server_inbuf b s)
  | Err e => (Err e, s)
  | Panic => (Panic, s)
  end.

Definition expect_response_headers (state_change : M HttpConnection Error bool)
    : M HttpConnection Error bool :=
  modify (fun s => let '(n, c) := scan (drop (counter s) (server_inbuf s)) (counter s) (crlf_state s) in
                   set_scan n c s);;
  c ← gets crlf_state;
  if negb (c =? 2) then mret true
  else
    header_size ← gets counter;
    modify (set_scan 0 0);;
    slice ← gets server_inbuf;
    match httparse_response slice with
    | Err e => throw (Httparse e)
    | Panic => panic
    | Ok None => mret true
    | Ok (Some r) =>
        status_code ← lift (ok_or (EString "Malformed HTTP proxy response: missing status code") (resp_code r));
        version ← lift (ok_or (EString "Malformed HTTP proxy response: missing HTTP version") (resp_version r));
        if status_code =? 200 then
          modify (set_state Established);;
          drain_server_in header_size;;
          state_change
        else if negb (status_code =? 407) then
          lift (ok_or (EString "Malformed HTTP proxy response: missing reason phrase") (resp_reason r));;
          throw (EString "Expected success status code. Server replied with {} [Reason: {}].")
        else answer_challenge state_change r version
    end.

Definition expect_response (state_change : M HttpConnection Error bool) : M HttpConnection Error bool :=
  modify (fun s =>
    if 0 <? skip s then
      let cnt := Z.min (skip s) (len (server_inbuf s)) in
      set_skip (skip s - cnt) (set_server_inbuf (drop (Z.to_nat cnt) (server_inbuf s)) s)
    else s);;
  k ← gets skip;
  if k =? 0 then
    send_tunnel_request;;
    modify (set_state ExpectResponseHeaders);;
    state_change
  else mret true.

Definition relay_traffic : M HttpConnection Error unit :=
  modify (fun s => set_bufs [] [] (client_outbuf s ++ server_inbuf s) (server_outbuf s ++ client_inbuf s) s).

Fixpoint state_change (fuel : nat) : M HttpConnection Error bool :=
  match fuel with
  | O => mret false
  | S fuel' =>
      st ← gets state;
      match st with
      | ExpectResponseHeaders => expect_response_headers (state_change fuel')
      | ExpectResponse => expect_response (state_change fuel')
      | Established => relay_traffic;; mret true
      | Reset => modify (set_state ExpectResponseHeaders);; state_change fuel'
      | SendRequest => mret true
      end
  end.

(** Every cycle through [ExpectResponse] consumes a byte. *)
Definition change_fuel (s : HttpConnection) : nat := (2 * length (server_inbuf s) + 2)%nat.

(** The result of [push_data].  The interface of the handlers has no value for a
    call that is still running; [http_push_returns] shows when there is none. *)
Definition finish (r : res Error bool) : res IoError unit :=
  match r with
  | Ok true => Ok tt
  | Err e => Err (io_from_error e)
  | Ok false | Panic => Panic
  end.

Definition finished : M HttpConnection IoError unit := fun s =>
  let '(r, s') := state_change (change_fuel s) s in (finish r, s').

Definition push_data (ev : DataEvent IncomingDirection) : M HttpConnection IoError unit :=
  match direction ev with
  | FromServer => modify (fun s => set_server_inbuf (server_inbuf s ++ buffer ev) s)
  | FromClient => modify (fun s => set_bufs (client_inbuf s ++ buffer ev) (server_inbuf s)
                                     (client_outbuf s) (server_outbuf s) s)
  end;;
  finished.

Definition consume_data (dir : OutgoingDirection) (size : nat) : M HttpConnection IoError unit :=
  fun s =>
  match dir with
  | ToServer =>
      match drain size (server_outbuf s) with
      | Ok b => (Ok tt, set_server_outbuf b s)
      | Err e => (Err e, s)
      | Panic => (Panic, s)
      end
  | ToClient =>
      match drain size (client_outbuf s) with
      | Ok b => (Ok tt, set_bufs (client_inbuf s) (server_inbuf s) b (server_outbuf s) s)
      | Err e => (Err e, s)
      | Panic => (Panic, s)
      end
  end.

Definition peek_data (dir : OutgoingDirection) (s : HttpConnection) : list Z :=
  match dir with ToServer => server_outbuf s | ToClient => client_outbuf s end.

Definition connection_established (s : HttpConnection) : bool :=
  bool_decide (state s = Established).

(** [HttpManager] with the shared challenge, and its [new_proxy_handler]. *)
Record HttpManager := mkManager
  { mgr_server : SocketAddr; mgr_credentials : option UserKey; mgr_digest : option Digest }.

Definition manager_new (server : SocketAddr) (creds : option UserKey) : HttpManager :=
  mkManager server creds None.

Definition new_proxy_handler (m : HttpManager) (i : SessionInfo) (domain : option string)
    (udp : bool) : res IoError HttpConnection :=
  if bool_decide (info_protocol i = Tcp) then
    map_err io_from_error (new (mgr_server m) i domain (mgr_credentials m) (mgr_digest m))
  else Err (io_from_error (EString "Protocol not supported by HTTP proxy")).

#[export] Instance http_handler : ProxyHandler HttpConnection := {
  get_server_addr := server_addr;
  get_session_info := info;
  get_domain_name := domain_name;
  ProxyHandler.push_data := push_data;
  ProxyHandler.consume_data := consume_data;
  ProxyHandler.peek_data := peek_data;
  ProxyHandler.connection_established := connection_established;
  data_len := fun dir s => length (peek_data dir s);
  reset_connection := fun s => bool_decide (state s = Reset);
  get_udp_associate := fun _ => None;
}.
End impl.
End Http.
