(* ===== verification/HttpSession.v ===== *)
(** * Properties of the HTTP CONNECT handshake

    The invariant of [HttpConnection] (Http.v), that [state_change] returns,
    the incremental search for the end of the headers, and the handshake as
    [handle_proxy_session] runs it. *)

From S2P Require Import Prelude Net Socks5Impl ProxyHandler Http.

Module HttpSession.
Import Http.

(** What the sources rely on: [httparse] reports a header block inside its
    input, and no library call panics. *)
Class HttpLibLaws `{HttpLib} := {
  resp_len_fits : forall bs r,
    httparse_response bs = Ok (Some r) -> (0 < resp_len r <= length bs)%nat;
  httparse_total : forall bs, httparse_response bs <> Panic;
  digest_parse_total : forall bs, digest_parse bs <> Panic;
  digest_respond_total : forall d c uri, (digest_respond d c uri).1 <> Panic;
}.

(** ** The end of the headers *)

Lemma scan_spec bs n c n' c' :
  0 <= c <= 1 -> scan bs n c = (n', c') ->
  (n <= n' <= n + length bs)%nat /\ 0 <= c' <= 2 /\ (c' <> 2 -> n' = (n + length bs)%nat).
Proof.
  revert n c. induction bs as [|b bs IH]; intros n c Hc; simpl.
  { intros [= <- <-]. lia. }
  destruct (_ =? 2) eqn:E2.
  - intros [= <- <-]. b2p. lia.
  - intros Hs. apply IH in Hs; [lia|]. b2p.
    destruct (b =? 10); [lia|]. destruct (b =? 13); lia.
Qed.

(** Searching in two pieces, the second time from where the first stopped. *)
Lemma scan_app a b n c n' c' :
  0 <= c <= 1 -> scan a n c = (n', c') ->
  scan (a ++ b) n c = if c' =? 2 then (n', c') else scan b n' c'.
Proof.
  revert n c. induction a as [|x a IH]; intros n c Hc; simpl.
  { intros [= <- <-]. by rewrite (proj2 (Z.eqb_neq c 2)) by lia. }
  destruct ((if x =? 10 then _ else _) =? 2) eqn:E2.
  - intros [= <- <-]. by rewrite E2.
  - intros Hs. apply IH; [|done]. b2p. destruct (x =? 10); [lia|]. destruct (x =? 13); lia.
Qed.

Section proofs.
Context `{H : HttpLib} `{!HttpLibLaws}.

(** ** The CONNECT request *)

Definition request_head (host : string) : list Z :=
  as_bytes "CONNECT " ++ as_bytes host ++ as_bytes " HTTP/1.1" ++ crlf ++
  as_bytes "Host: " ++ as_bytes host ++ crlf.

(** The [Proxy-Authorization] line, and the challenge after it. *)
Definition auth_line (s : HttpConnection) : res Error (list Z) * option Digest :=
  match credentials s with
  | None => (Ok [], digest_state s)
  | Some c =>
      match digest_state s with
      | None => (Ok (PROXY_AUTHORIZATION ++ [58; 32] ++ basic_auth_header_value c ++ crlf), None)
      | Some d =>
          let '(r, d') := digest_respond d c (connect_host s) in
          (match r with
           | Ok h => Ok (PROXY_AUTHORIZATION ++ [58; 32] ++ as_bytes h ++ crlf)
           | Err _ => Err (EString "Digest auth response failed: {e}")
           | Panic => Panic
           end, Some d')
      end
  end.

Lemma extend_twice a b s :
  extend_server_out b (extend_server_out a s) = extend_server_out (a ++ b) s.
Proof. unfold extend_server_out, set_server_outbuf, set_bufs. simpl. by rewrite app_assoc. Qed.

Ltac rewrite_assoc :=
  unfold set_digest, extend_server_out, set_server_outbuf, set_bufs; simpl;
  repeat (rewrite <- app_assoc; simpl).

Lemma send_tunnel_request_eq s :
  send_tunnel_request s =
  match auth_line s with
  | (Ok h, d) => (Ok tt, set_digest d (extend_server_out (request_head (connect_host s) ++ h ++ crlf) s))
  | (Err e, d) => (Err e, set_digest d (extend_server_out (request_head (connect_host s)) s))
  | (Panic, d) => (Panic, set_digest d (extend_server_out (request_head (connect_host s)) s))
  end.
Proof.
  unfold send_tunnel_request, mbind, M_bind, gets, modify. cbv beta iota.
  rewrite !extend_twice. rewrite <- !app_assoc. fold (request_head (connect_host s)).
  generalize (request_head (connect_host s)) as rh. intros rh.
  destruct s as [sa st ci si co so cs k sk dg bf cr i dn].
  unfold send_auth_data, auth_line, mbind, M_bind, gets, modify, mret, M_ret.
  destruct cr as [c|]; [destruct dg as [d|]|];
    cbn [extend_server_out set_server_outbuf set_bufs credentials digest_state server_outbuf].
  - change (connect_host (extend_server_out rh ?s)) with (connect_host s).
    destruct (digest_respond d c _) as [[h|e|] d']; [|done|done].
    by rewrite_assoc.
  - by rewrite_assoc.
  - by rewrite_assoc.
Qed.
(** ** Invariant *)

Definition http_ready (s : HttpConnection) : Prop :=
  match state s with
  | SendRequest => False
  | ExpectResponseHeaders => (counter s <= length (server_inbuf s))%nat /\ 0 <= crlf_state s <= 1
  | ExpectResponse => counter s = 0%nat /\ crlf_state s = 0 /\ 0 <= skip s
  | Reset | Established => counter s = 0%nat /\ crlf_state s = 0
  end.

(** Between calls an established connection has also emptied its input. *)
Definition http_wf (s : HttpConnection) : Prop :=
  http_ready s /\ (state s = Established -> server_inbuf s = [] /\ client_inbuf s = []).

(** No response in the buffer announces a body so long that adding the header
    length wraps around. *)
Definition no_overflow (bs : list Z) : Prop :=
  forall k r v c, httparse_response (drop k bs) = Ok (Some r) ->
    header CONTENT_LENGTH (resp_headers r) = Some v -> parse_content_length v = Ok c ->
    c + Z.of_nat (resp_len r) <= usize_max.

Lemma no_overflow_drop k bs : no_overflow bs -> no_overflow (drop k bs).
Proof. intros Hn j r v c. rewrite drop_drop. apply Hn. Qed.

Lemma auth_line_total s : (auth_line s).1 <> Panic.
Proof.
  unfold auth_line. destruct (credentials s) as [c|]; [|done].
  destruct (digest_state s) as [d|]; [|done].
  pose proof (digest_respond_total d c (connect_host s)).
  destruct (digest_respond _ _ _) as [[]]; done.
Qed.

Lemma parse_digits_bound acc bs x :
  0 <= acc -> parse_digits acc bs = Some x -> 0 <= x.
Proof.
  revert acc. induction bs as [|b bs IH]; intros acc Ha; simpl; [by intros [= <-]|].
  destruct (_ && _) eqn:E; [|done]. b2p. destruct (_ <? _); [done|]. apply IH. lia.
Qed.

Lemma parse_usize_bound bs x : parse_usize bs = Some x -> 0 <= x.
Proof.
  unfold parse_usize. intros Hx. repeat split_match; try done; by eapply parse_digits_bound in Hx.
Qed.

Lemma parse_content_length_spec v :
  parse_content_length v <> Panic /\ forall c, parse_content_length v = Ok c -> 0 <= c.
Proof.
  unfold parse_content_length. destruct (parse_usize v) as [x|] eqn:Ex.
  { split; [done|]. intros c [= <-]. by eapply parse_usize_bound. }
  destruct (split_comma v) as [|w it]; [done|].
  destruct (parse_usize w) as [f|] eqn:Ef; [|done].
  assert (all_equal f it <> Panic) as Ha.
  { clear. induction it as [|w it IH]; simpl; [done|]. destruct (parse_usize w); [|done].
    by destruct (_ =? _). }
  unfold mbind, res_bind. destruct (all_equal f it); [|done|done].
  split; [done|]. intros c [= <-]. by eapply parse_usize_bound.
Qed.

(** A call that returns at once, keeping the invariant, or that goes on with
    [state_change] in a state the invariant allows. *)
Definition returns (s : HttpConnection) (m : M HttpConnection Error bool -> M HttpConnection Error bool) : Prop :=
  exists r s', (forall k, m k s = (r, s')) /\ (r <> Panic /\ r <> Ok false) /\ http_wf s'.

Definition goes_on (s : HttpConnection) (m : M HttpConnection Error bool -> M HttpConnection Error bool)
    (P : HttpConnection -> Prop) : Prop :=
  exists s', (forall k, m k s = k s') /\ http_ready s' /\ P s'.

(** A tunnel request in state [s], which [st] may follow. *)
Lemma tunnel_request_cases s :
  exists r d out, send_tunnel_request s = (r, set_digest d (extend_server_out out s)) /\
    r <> Panic /\ out <> [].
Proof.
  rewrite send_tunnel_request_eq. pose proof (auth_line_total s).
  destruct (auth_line s) as [[h|e|] d]; [|by eexists _, _, _|done].
  by eexists _, _, _.
Qed.

Lemma reset_and_retry_returns s :
  state s = ExpectResponseHeaders -> counter s = 0%nat -> crlf_state s = 0 ->
  returns s (fun _ => reset_and_retry;; mret true).
Proof.
  intros Hst Hc Hcr. unfold reset_and_retry, returns, mbind, M_bind, modify.
  destruct (tunnel_request_cases (set_bufs (client_inbuf s) [] (client_outbuf s) [] s))
    as (r & d & out & -> & Hr & _).
  destruct r as [[]|e|]; [| |done]; eexists _, _; (split; [done|]); (split; [done|]);
    unfold http_wf, http_ready; simpl; rewrite ?Hst, ?Hc, ?Hcr; simpl; split; (done || lia).
Qed.
Ltac returns_err Hst Hc Hcr :=
  left; eexists _, _; split; [intros k; reflexivity|]; split; [done|];
  unfold http_wf, http_ready; simpl; rewrite ?Hst, ?Hc, ?Hcr; simpl; split; (done || lia).

Lemma answer_challenge_cases s r version :
  state s = ExpectResponseHeaders -> counter s = 0%nat -> crlf_state s = 0 ->
  httparse_response (server_inbuf s) = Ok (Some r) ->
  returns s (fun k => answer_challenge k r version) \/
  goes_on s (fun k => answer_challenge k r version) (fun s' =>
    state s' = ExpectResponse /\ server_inbuf s' = server_inbuf s /\
    (no_overflow (server_inbuf s) -> 0 < skip s')).
Proof.
  intros Hst Hc Hcr Hp. unfold returns, goes_on, answer_challenge.
  destruct (header PROXY_AUTHENTICATE _) as [auth|]; [|returns_err Hst Hc Hcr].
  destruct (negb (is_digest_scheme _)); [returns_err Hst Hc Hcr|].
  destruct (negb (utf8_valid _)); [returns_err Hst Hc Hcr|].
  pose proof (digest_parse_total auth) as Hdt.
  destruct (digest_parse auth) as [d|e|]; [|returns_err Hst Hc Hcr|done].
  unfold mbind, M_bind, gets, modify. cbv beta iota. destruct (before s && _); [returns_err Hst Hc Hcr|].
  set (s1 := set_before true (set_digest (Some d) s)).
  destruct (_ || _).
  { left. by apply (reset_and_retry_returns s1). }
  destruct (header TRANSFER_ENCODING _); [returns_err Hst Hc Hcr|].
  destruct (header CONTENT_LENGTH _) as [v|] eqn:Hcl.
  2:{ left. by apply (reset_and_retry_returns s1). }
  destruct (negb (utf8_valid v)); [returns_err Hst Hc Hcr|].
  destruct (parse_content_length_spec v) as [Hnp Hpos]. unfold lift.
  destruct (parse_content_length v) as [c|e|] eqn:Ec; [|returns_err Hst Hc Hcr|done].
  right. eexists. split; [intros k; reflexivity|]. unfold http_ready. simpl.
  assert (0 <= wrap64 (c + Z.of_nat (resp_len r))) by (unfold wrap64; apply Z.mod_pos_bound; lia).
  rewrite Hc, Hcr. split_and!; try done.
  intros Hno. specialize (Hno 0%nat r v c Hp Hcl Ec). specialize (Hpos c eq_refl).
  pose proof (resp_len_fits _ _ Hp). unfold wrap64, usize_max, u64_max in *.
  rewrite Z.mod_small; lia.
Qed.

Lemma headers_cases s :
  http_ready s -> state s = ExpectResponseHeaders ->
  returns s expect_response_headers \/
  goes_on s expect_response_headers (fun s' => server_inbuf s <> [] /\
    (state s' = Established \/
     state s' = ExpectResponse /\ server_inbuf s' = server_inbuf s /\
     (no_overflow (server_inbuf s) -> 0 < skip s'))).
Proof.
  unfold http_ready. intros Hr Hst. rewrite Hst in Hr. destruct Hr as [Hk Hcs].
  unfold returns, goes_on, expect_response_headers, mbind, M_bind, gets, modify, mret, M_ret.
  cbv beta iota. destruct (scan (drop (counter s) (server_inbuf s)) (counter s) (crlf_state s)) as [n c] eqn:Hs.
  apply scan_spec in Hs as (Hn & Hc & Hne); [|done]. rewrite length_drop in Hn, Hne.
  cbn [crlf_state set_scan]. destruct (Z.eqb_spec c 2) as [->|Hc2]; cbn [negb].
  2:{ left. eexists _, _. split; [intros k; reflexivity|]. split; [done|].
      unfold http_wf, http_ready. simpl. rewrite Hst. split; [lia|done]. }
  cbn [counter set_scan server_inbuf].
  pose proof (httparse_total (server_inbuf s)) as Htot.
  set (s1 := set_scan 0 0 (set_scan n 2 s)).
  assert (http_wf s1) as Hwf1.
  { unfold http_wf, http_ready. simpl. rewrite Hst. split; [lia|done]. }
  destruct (httparse_response (server_inbuf s)) as [[r|]|e|] eqn:Hp;
    [|by left; eexists _, _|by left; eexists _, _|done].
  assert (server_inbuf s <> []) as Hnil.
  { intros E. apply resp_len_fits in Hp. rewrite E in Hp. simpl in Hp. lia. }
  unfold lift, ok_or. destruct (resp_code r) as [code|]; [|by left; eexists _, _].
  destruct (resp_version r) as [v|]; [|by left; eexists _, _].
  destruct (code =? 200).
  - right. eexists. split.
    { intros k. unfold drain_server_in. rewrite drain_ok; [reflexivity|]. simpl. lia. }
    by split_and!; try left.
  - destruct (negb _). { destruct (resp_reason r); by left; eexists _, _. }
    destruct (answer_challenge_cases s1 r v) as [Hret|(s2 & Hk2 & Hrd & Hst2 & Hin2 & Hno)]; try done.
    + by left.
    + right. exists s2. split_and!; try done. right. by split_and!.
Qed.

Lemma response_cases s :
  http_ready s -> state s = ExpectResponse ->
  returns s expect_response \/
  goes_on s expect_response (fun s' => state s' = ExpectResponseHeaders /\
    (exists j, server_inbuf s' = drop j (server_inbuf s)) /\
    (0 < skip s -> (length (server_inbuf s') < length (server_inbuf s))%nat)).
Proof.
  unfold http_ready. intros Hr Hst. rewrite Hst in Hr. destruct Hr as (Hk & Hcs & Hskip).
  unfold returns, goes_on, expect_response, mbind, M_bind, gets, modify, mret, M_ret. cbv beta iota.
  set (s1 := if 0 <? skip s then _ else s).
  assert (state s1 = ExpectResponse /\ counter s1 = 0%nat /\ crlf_state s1 = 0 /\ 0 <= skip s1 /\
    (exists j, server_inbuf s1 = drop j (server_inbuf s)) /\
    (0 < skip s -> skip s1 = 0 -> (length (server_inbuf s1) < length (server_inbuf s))%nat))
    as (Hst1 & Hk1 & Hcs1 & Hskip1 & Hj & Hlt).
  { unfold s1. destruct (0 <? skip s) eqn:E; b2p; simpl.
    - pose proof (len_nonneg (server_inbuf s)). split_and!; try done; [lia|by eexists|].
      intros _ Hz. rewrite length_drop. unfold len in *. lia.
    - split_and!; try done; [|lia]. by exists 0%nat. }
  clearbody s1. destruct (Z.eqb_spec (skip s1) 0) as [Hz|Hz].
  - destruct (tunnel_request_cases s1) as (r & d & out & -> & Hr & _).
    destruct r as [[]|e|]; [right|left|done].
    + eexists. split; [intros k; reflexivity|]. unfold http_ready. simpl.
      rewrite Hk1, Hcs1. split_and!; try done; [lia| by intros; apply Hlt].
    + eexists _, _. split; [intros k; reflexivity|]. unfold http_wf, http_ready. simpl.
      by rewrite Hst1, Hk1, Hcs1.
  - left. eexists _, _. split; [intros k; reflexivity|]. unfold http_wf, http_ready.
    by rewrite Hst1.
Qed.

Lemma state_change_wf n s r s' :
  http_ready s -> state_change n s = (r, s') -> finish r <> Panic -> http_wf s'.
Proof.
  revert s. induction n as [|n IH]; intros s Hr; [by intros [= <- <-]|].
  simpl. unfold mbind, M_bind, gets. destruct (state s) eqn:Hst.
  - unfold http_ready in Hr. by rewrite Hst in Hr.
  - destruct (headers_cases s Hr Hst) as [(r1 & s1 & -> & _ & ?)|(s1 & -> & Hr1 & _)];
      [by intros [= <- <-]|by apply IH].
  - destruct (response_cases s Hr Hst) as [(r1 & s1 & -> & _ & ?)|(s1 & -> & Hr1 & _)];
      [by intros [= <- <-]|by apply IH].
  - unfold modify. apply IH. unfold http_ready in *. rewrite Hst in Hr. simpl.
    destruct Hr as [-> ->]. lia.
  - intros [= <- <-] _. unfold http_wf, http_ready in *. simpl. by rewrite Hst in *.
Qed.

(** The calls of [state_change] a state may still need. *)
Definition need (s : HttpConnection) : nat :=
  let n := length (server_inbuf s) in
  match state s with
  | SendRequest | Established => 1
  | ExpectResponseHeaders => 2 * n + 1
  | ExpectResponse => if (0 <? skip s)%Z then Nat.max 1 (2 * n) else 2 * n + 2
  | Reset => 2 * n + 2
  end%nat.

Lemma finish_returns r : r <> Panic /\ r <> Ok false -> finish r <> Panic.
Proof. intros [Hp Hf]. by destruct r as [[]|e|]. Qed.

Lemma state_change_returns n s :
  http_ready s -> no_overflow (server_inbuf s) -> (need s <= n)%nat ->
  finish (state_change n s).1 <> Panic.
Proof.
  revert s. induction n as [|n IH]; intros s Hr Hno Hn.
  { exfalso. unfold need in Hn. destruct (state s), (0 <? skip s); lia. }
  simpl. unfold mbind, M_bind, gets. unfold need in Hn. destruct (state s) eqn:Hst.
  - done.
  - destruct (headers_cases s Hr Hst) as [(r1 & s1 & -> & ? & _)|(s1 & -> & Hr1 & Hne & Hs1)]; [by apply finish_returns|].
    assert (0 < length (server_inbuf s))%nat by (destruct (server_inbuf s); simpl; [done|lia]).
    destruct Hs1 as [Hest|(Hst1 & Hin & Hskip)].
    + destruct n; [lia|]. simpl. unfold mbind, M_bind, gets. by rewrite Hest.
    + apply IH; [done|by rewrite Hin|]. unfold need. rewrite Hst1, Hin.
      rewrite (proj2 (Z.ltb_lt _ _)) by auto. lia.
  - destruct (response_cases s Hr Hst) as [(r1 & s1 & -> & ? & _)|(s1 & -> & Hr1 & Hst1 & [j Hj] & Hlt)]; [by apply finish_returns|].
    apply IH; [done|rewrite Hj; by apply no_overflow_drop|].
    unfold need. rewrite Hst1. destruct (0 <? skip s) eqn:E; b2p.
    + specialize (Hlt E). lia.
    + rewrite Hj, length_drop. lia.
  - unfold modify. apply IH; simpl; [|done|].
    + unfold http_ready in *. rewrite Hst in Hr. simpl. destruct Hr as [-> ->]. lia.
    + unfold need. simpl. lia.
  - done.
Qed.
Lemma push_relayed_eq ev s :
  state s = Established ->
  push_data ev s = (Ok tt, set_bufs [] []
    (client_outbuf s ++ server_inbuf s ++ if decide (direction ev = FromServer) then buffer ev else [])
    (server_outbuf s ++ client_inbuf s ++ if decide (direction ev = FromClient) then buffer ev else []) s).
Proof.
  intros Hst. destruct s, ev as [[] b]; simpl in *; subst; unfold push_data, finished;
    cbn [direction buffer]; unfold mbind, M_bind, modify, gets; cbv beta iota;
    unfold change_fuel; rewrite (Nat.add_succ_r _ 1); cbn; rewrite ?app_nil_r; done.
Qed.

#[export] Instance http_laws : ProxyHandlerLaws HttpConnection.
Proof.
  refine {| handler_ok := http_wf |}.
  - intros ev h r h' [Hr Hin] Hp Hnp.
    change (ProxyHandler.push_data ev h) with (push_data ev h) in Hp.
    unfold push_data, finished, mbind, M_bind, modify, gets in Hp.
    set (h1 := match direction ev with FromServer => _ | FromClient => _ end) in Hp.
    assert (exists h2, h1 h = (Ok tt, h2) /\ http_ready h2) as (h2 & Hh & Hr2).
    { unfold h1, http_ready in *. destruct (direction ev); (eexists; split; [reflexivity|]); simpl;
        destruct (state h); try done. rewrite length_app. lia. }
    rewrite Hh in Hp. destruct (state_change _ h2) as [r2 s2] eqn:Hc.
    injection Hp as <- <-. by eapply state_change_wf.
  - intros dir n h [Hc Hr] Hn. destruct h. unfold http_wf, http_ready in *.
    destruct dir; simpl in *; rewrite drain_ok by done; eexists; simpl;
      (split_and!; [reflexivity|..]; try done; intros []; done).
  - done.
  - intros ev h [Hr Hin] Hest. apply bool_decide_eq_true_1 in Hest. destruct (Hin Hest) as [Hsi Hci].
    eexists. split; [apply push_relayed_eq; done|].
    destruct h. simpl in *. subst. destruct ev as [[] b]; simpl; rewrite ?app_nil_r; split_and!; try done.
Defined.

(** ** A response in fragments *)

(** [wire] is a header block: the search ends with its last byte. *)
Definition header_block (wire : list Z) : Prop := scan wire 0 0 = (length wire, 2).

Lemma header_block_prefix c r :
  header_block (c ++ r) -> r <> [] -> exists cs, scan c 0 0 = (length c, cs) /\ 0 <= cs <= 1.
Proof.
  unfold header_block. intros Hb Hr. destruct (scan c 0 0) as [n cs] eqn:Hs.
  pose proof (scan_spec c 0 0 n cs ltac:(lia) Hs) as (Hn & Hc & Hne).
  rewrite (scan_app _ _ 0 0 _ _ ltac:(lia) Hs) in Hb.
  destruct (Z.eqb_spec cs 2) as [Hcs|Hcs].
  - simplify_eq. rewrite length_app in *. destruct r; [done|]. simpl in *. lia.
  - exists cs. split; [|lia]. f_equal. by rewrite Hne.
Qed.

(** Only the bytes from [counter] on are searched: the position of the search
    does not matter as long as it was reached from the start. *)
Lemma headers_resume k n cs a b s :
  scan a 0 0 = (n, cs) -> n = length a -> 0 <= cs <= 1 -> counter s = 0%nat -> crlf_state s = 0 ->
  expect_response_headers k (set_scan n cs (set_server_inbuf (a ++ b) s)) =
  expect_response_headers k (set_server_inbuf (a ++ b) s).
Proof.
  intros Hs -> Hcs Hk Hc. unfold expect_response_headers, mbind, M_bind, gets, modify.
  cbn [counter crlf_state server_inbuf set_scan set_server_inbuf set_bufs].
  rewrite Hk, Hc, drop_0, drop_app_length, (scan_app _ _ 0 0 _ _ ltac:(lia) Hs).
  rewrite (proj2 (Z.eqb_neq cs 2)) by lia. by destruct (scan b _ _).
Qed.

Lemma push_headers_eq s c :
  state s = ExpectResponseHeaders ->
  push_data (mkEvent FromServer c) s =
  let s1 := set_server_inbuf (server_inbuf s ++ c) s in
  let '(r, s2) := expect_response_headers (state_change (2 * length (server_inbuf s ++ c) + 1)) s1 in
  (finish r, s2).
Proof.
  intros Hst. unfold push_data, finished. cbn [direction buffer].
  unfold mbind, M_bind, modify, gets. cbv beta iota zeta.
  unfold change_fuel. cbn [server_inbuf set_server_inbuf set_bufs].
  rewrite (Nat.add_succ_r _ 1). cbn [state_change]. unfold mbind, M_bind, gets.
  cbn [state set_server_inbuf set_bufs]. by rewrite Hst.
Qed.

(** A connection that waits for the answer to its request. *)
Definition fresh (s : HttpConnection) : Prop :=
  state s = ExpectResponseHeaders /\ server_inbuf s = [] /\ client_inbuf s = [] /\
  client_outbuf s = [] /\ server_outbuf s = [] /\ counter s = 0%nat /\ crlf_state s = 0.

Lemma header_block_absorbs s wire : fresh s -> header_block wire -> absorbs s wire.
Proof.
  intros (Hst & Hsi & Hci & Hco & Hso & Hk & Hc) Hb c r -> Hne Hr.
  destruct (header_block_prefix c r Hb Hr) as (cs & Hs & Hcs).
  exists (set_scan (length c) cs (set_server_inbuf c s)). split_and!.
  - change (ProxyHandler.push_data ?e ?s) with (push_data e s).
    rewrite push_headers_eq, Hsi by done. cbv zeta. cbn [app].
    unfold expect_response_headers, mbind, M_bind, gets, modify, mret, M_ret.
    cbn [counter crlf_state server_inbuf set_server_inbuf set_bufs].
    rewrite Hk, Hc, drop_0, Hs. cbn [crlf_state set_scan].
    by rewrite (proj2 (Z.eqb_neq cs 2)) by lia.
  - done.
  - apply bool_decide_eq_false_2. simpl. by rewrite Hst.
  - intros c2. change (ProxyHandler.push_data ?e ?s) with (push_data e s).
    rewrite !push_headers_eq, Hsi by done. cbv zeta. cbn [app server_inbuf set_scan set_server_inbuf set_bufs].
    change (set_server_inbuf (c ++ c2) (set_scan (length c) cs (set_server_inbuf c s)))
      with (set_scan (length c) cs (set_server_inbuf (c ++ c2) s)).
    by rewrite headers_resume.
Qed.

(** The verdict on a complete header block. *)
Lemma headers_found k s wire extra r code v :
  fresh s -> header_block wire -> httparse_response (wire ++ extra) = Ok (Some r) ->
  resp_code r = Some code -> resp_version r = Some v ->
  expect_response_headers k (set_server_inbuf (wire ++ extra) s) =
  let s1 := set_scan 0 0 (set_server_inbuf (wire ++ extra) s) in
  if code =? 200 then k (set_state Established (set_server_inbuf extra s1))
  else if negb (code =? 407) then
    (Err (match resp_reason r with
          | Some _ => EString "Expected success status code. Server replied with {} [Reason: {}]."
          | None => EString "Malformed HTTP proxy response: missing reason phrase"
          end), s1)
  else answer_challenge k r v s1.
Proof.
  intros (Hst & Hsi & Hci & Hco & Hso & Hk & Hc) Hb Hp Hcode Hv.
  unfold expect_response_headers, mbind, M_bind, gets, modify.
  cbn [counter crlf_state server_inbuf set_server_inbuf set_bufs].
  rewrite Hk, Hc, drop_0, (scan_app _ _ 0 0 _ _ ltac:(lia) Hb), Z.eqb_refl.
  cbn [crlf_state set_scan negb counter server_inbuf]. rewrite Z.eqb_refl.
  cbn [server_inbuf set_scan set_server_inbuf set_bufs counter negb].
  rewrite Hp, Hcode, Hv. unfold lift, ok_or, throw. cbv zeta. destruct (code =? 200).
  - unfold drain_server_in.
    cbn [server_inbuf set_scan set_server_inbuf set_bufs counter set_state]. by rewrite drain_app.
  - destruct (negb _); [|done]. by destruct (resp_reason r).
Qed.

Lemma push_success s wire extra r v :
  fresh s -> header_block wire -> httparse_response (wire ++ extra) = Ok (Some r) ->
  resp_code r = Some 200 -> resp_version r = Some v ->
  push_data (mkEvent FromServer (wire ++ extra)) s =
  (Ok tt, set_state Established (set_bufs [] [] extra [] (set_scan 0 0 s))).
Proof.
  intros Hf Hb Hp Hcode Hv. pose proof Hf as (Hst & Hsi & Hci & Hco & Hso & _).
  rewrite push_headers_eq, Hsi by done. cbv zeta. cbn [app].
  rewrite (headers_found _ s wire extra r 200 v) by done. cbv zeta. rewrite Z.eqb_refl.
  rewrite Nat.add_succ_r. cbn [state_change].
  unfold mbind, M_bind, gets, relay_traffic, modify. cbn.
  destruct s. simpl in *. by subst.
Qed.

(** A connection as [new] leaves it. *)
Lemma new_eq server i d creds digest :
  let s0 := mkHttp server ExpectResponseHeaders [] [] [] [] 0 0 0 digest false creds i d in
  new server i d creds digest =
  match auth_line s0 with
  | (Ok h, dg) => Ok (set_digest dg (extend_server_out (request_head (connect_host s0) ++ h ++ crlf) s0))
  | (Err e, _) => Err e
  | (Panic, _) => Panic
  end.
Proof.
  intros s0. unfold new. fold s0. rewrite send_tunnel_request_eq.
  by destruct (auth_line s0) as [[] ?].
Qed.

Lemma new_fresh server i d creds digest s :
  new server i d creds digest = Ok s ->
  fresh (set_server_outbuf [] s) /\ http_wf s /\ server_outbuf s <> [] /\ before s = false.
Proof.
  rewrite new_eq. destruct (auth_line _) as [[h|e|] dg]; [|done|done]. intros [= <-].
  by split_and!.
Qed.

Lemma sent_http_eq s : sent s = set_server_outbuf [] s.
Proof.
  destruct s. unfold sent. destruct server_outbuf0 as [|b so]; [done|].
  change (ProxyHandler.peek_data ToServer _) with (b :: so).
  change (0 <? length (b :: so))%nat with true. cbv iota.
  cbn [ProxyHandler.consume_data http_handler consume_data server_outbuf].
  rewrite drain_ok by done. by rewrite drop_all.
Qed.

(** C36. A CONNECT handshake succeeds on every fragmentation of a 200 response: the
    request is sent once, and the bytes behind the headers are kept for the
    client. *)
Theorem http_connect_handshake server i d creds digest s wire extra r v chunks rest tr :
  new server i d creds digest = Ok s ->
  header_block wire -> httparse_response (wire ++ extra) = Ok (Some r) ->
  resp_code r = Some 200 -> resp_version r = Some v -> fragments wire extra chunks ->
  exists s', handle_proxy_session s (mkServer ((Ok <$> chunks) ++ rest) [] [] tr) =
    (Returned (Ok None), s',
     mkServer rest [] (server_outbuf s) (tr ++ [(len (server_outbuf s), len (wire ++ extra))])) /\
    state s' = Established /\ client_outbuf s' = extra /\ server_outbuf s' = [] /\
    server_inbuf s' = [] /\ client_inbuf s' = [].
Proof.
  intros Hnew Hb Hp Hcode Hv Hf.
  destruct (new_fresh _ _ _ _ _ _ Hnew) as (Hfresh & Hwf & Hne & _).
  pose proof Hfresh as (Hst & _).
  rewrite handle_proxy_session_start; [|done| |done|done].
  2:{ apply bool_decide_eq_false_2. simpl in Hst. by rewrite Hst. }
  rewrite sent_http_eq. cbn [reads written traffic write_results].
  erewrite (session_phase _ _ wire extra chunks);
    [|by apply header_block_absorbs| |done|done|by eapply push_success|].
  - cbn. eexists. split; [by rewrite app_nil_r, Z.add_0_r|by split_and!].
  - by intros ->.
  - exact Hwf.
Qed.

(** ** Challenges *)

(** [r] is a digest challenge with a keep-alive connection and a body of
    [body] bytes. *)
Definition keep_alive_challenge (r : HttpResponse) (dg : Digest) (body : Z) : Prop :=
  resp_code r = Some 407 /\ (exists v, resp_version r = Some v /\ v <> 0) /\
  (exists a, header PROXY_AUTHENTICATE (resp_headers r) = Some a /\ is_digest_scheme a = true /\
     utf8_valid a = true /\ digest_parse a = Ok dg) /\
  (forall v, header CONNECTION (resp_headers r) = Some v -> eq_ignore_ascii_case v (as_bytes "close") = false) /\
  header TRANSFER_ENCODING (resp_headers r) = None /\
  (exists v, header CONTENT_LENGTH (resp_headers r) = Some v /\ utf8_valid v = true /\
     parse_content_length v = Ok body).

Lemma answer_challenge_keep_alive k s r dg body v :
  keep_alive_challenge r dg body -> resp_version r = Some v ->
  before s && negb (digest_stale dg) = false ->
  answer_challenge k r v s =
  k (set_skip (wrap64 (body + Z.of_nat (resp_len r))) (set_state ExpectResponse
       (set_before true (set_digest (Some dg) s)))).
Proof.
  intros (_ & (v' & Hv' & Hv0) & (a & Ha & Hda & Hua & Hpa) & Hconn & Hte & (cl & Hcl & Hucl & Hpcl)) Hv Hbf.
  assert (v = v') as -> by congruence.
  unfold answer_challenge. rewrite Ha, Hda, Hua, Hpa. cbn [negb].
  unfold mbind, M_bind, gets, modify. cbv beta iota. rewrite Hbf.
  assert (match header CONNECTION (resp_headers r) with
    | Some v => eq_ignore_ascii_case v (as_bytes "close") | None => false end = false) as ->.
  { destruct (header CONNECTION _) eqn:E; [|done]. by apply Hconn. }
  rewrite (proj2 (Z.eqb_neq v' 0)) by done. cbn [orb]. rewrite Hte, Hcl, Hucl. cbn [negb].
  unfold lift. by rewrite Hpcl.
Qed.
Lemma expect_response_all k s out dg dg' :
  state s = ExpectResponse -> skip s = len (server_inbuf s) -> 0 < skip s ->
  digest_state s = Some dg ->
  auth_line s = (Ok out, dg') ->
  expect_response k s =
  k (set_state ExpectResponseHeaders (set_digest dg' (extend_server_out
       (request_head (connect_host s) ++ out ++ crlf) (set_skip 0 (set_server_inbuf [] s))))).
Proof.
  intros Hst Hsk Hpos Hd Ha. unfold expect_response, mbind, M_bind, modify, gets.
  rewrite (proj2 (Z.ltb_lt _ _) Hpos). rewrite Hsk, Z.min_id, Z.sub_diag.
  assert (drop (Z.to_nat (len (server_inbuf s))) (server_inbuf s) = []) as ->.
  { apply drop_ge. unfold len. lia. }
  cbn [skip set_skip]. rewrite Z.eqb_refl, send_tunnel_request_eq.
  change (auth_line (set_skip 0 (set_server_inbuf [] s))) with (auth_line s).
  change (connect_host (set_skip 0 (set_server_inbuf [] s))) with (connect_host s).
  by rewrite Ha.
Qed.

Lemma headers_empty k s :
  counter s = 0%nat -> crlf_state s = 0 -> server_inbuf s = [] ->
  expect_response_headers k s = (Ok true, s).
Proof.
  intros Hk Hc Hsi. unfold expect_response_headers, mbind, M_bind, modify, gets, mret, M_ret.
  rewrite Hk, Hc, Hsi. cbn. destruct s. simpl in *. by subst.
Qed.

(** A digest challenge on a kept connection: its body is skipped exactly, and
    one new request with the digest response follows it; nothing of the body
    reaches the parser again or the client. *)
Theorem http_challenge_answered s wire body r dg c hdr dg' :
  fresh s -> credentials s = Some c -> header_block wire ->
  httparse_response (wire ++ body) = Ok (Some r) -> resp_len r = length wire ->
  keep_alive_challenge r dg (len body) -> before s && negb (digest_stale dg) = false ->
  len (wire ++ body) <= usize_max ->
  digest_respond dg c (connect_host s) = (Ok hdr, dg') ->
  exists s', push_data (mkEvent FromServer (wire ++ body)) s = (Ok tt, s') /\
    server_outbuf s' = request_head (connect_host s) ++
      (PROXY_AUTHORIZATION ++ [58; 32] ++ as_bytes hdr ++ crlf) ++ crlf /\
    state s' = ExpectResponseHeaders /\ server_inbuf s' = [] /\ client_outbuf s' = [] /\
    before s' = true /\ digest_state s' = Some dg'.
Proof.
  intros Hf Hcr Hb Hp Hlen Hch Hbf Hmax Hresp.
  pose proof Hf as (Hst & Hsi & Hci & Hco & Hso & Hk & Hc).
  pose proof Hch as (Hcode & (v & Hv & _) & _).
  rewrite push_headers_eq, Hsi by done. cbv zeta. cbn [app].
  rewrite (headers_found _ s wire body r 407 v) by done.
  change (407 =? 200) with false. change (407 =? 407) with true. cbn [negb]. cbv iota zeta.
  rewrite (answer_challenge_keep_alive _ (set_scan 0 0 (set_server_inbuf (wire ++ body) s)) r dg (len body) v Hch Hv Hbf).
  assert (0 < len (wire ++ body)) as Hpos.
  { destruct wire; [done|]. unfold len. simpl. lia. }
  assert (wrap64 (len body + Z.of_nat (resp_len r)) = len (wire ++ body)) as ->.
  { rewrite Hlen, (Z.add_comm (len body)). change (Z.of_nat (length wire)) with (len wire).
    rewrite <- len_app. unfold wrap64. apply Z.mod_small. unfold usize_max, u64_max in Hmax. lia. }
  assert (exists n, (2 * length (wire ++ body) + 1)%nat = S (S n)) as [n ->].
  { destruct wire; [done|]. simpl. eexists. by rewrite Nat.add_succ_r. }
  cbn [state_change]. unfold mbind at 1, M_bind at 1, gets at 1.
  cbn [state set_skip set_state].
  erewrite expect_response_all; [|done|done|done|done|].
  2:{ unfold auth_line. cbn [credentials digest_state set_skip set_state set_before set_digest
        set_scan set_server_inbuf set_bufs]. rewrite Hcr.
      change (connect_host (set_skip _ _)) with (connect_host s). by rewrite Hresp. }
  unfold mbind, M_bind, gets. cbn [state set_state].
  rewrite headers_empty by done. eexists. split; [done|]. cbn. rewrite Hso. cbn. by split_and!.
Qed.

(** A second challenge that is not marked stale means bad credentials: the
    session fails and no further request is sent. *)
Theorem http_bad_credentials s wire body r dg n :
  fresh s -> before s = true -> header_block wire ->
  httparse_response (wire ++ body) = Ok (Some r) ->
  keep_alive_challenge r dg n -> digest_stale dg = false ->
  exists s', push_data (mkEvent FromServer (wire ++ body)) s =
    (Err (io_other "Bad credentials"), s') /\ server_outbuf s' = [] /\
    connection_established s' = false.
Proof.
  intros Hf Hbf Hb Hp Hch Hstale. pose proof Hf as (Hst & Hsi & Hci & Hco & Hso & Hk & Hc).
  pose proof Hch as (Hcode & (v & Hv & _) & (a & Ha & Hda & Hua & Hpa) & _).
  rewrite push_headers_eq, Hsi by done. cbv zeta. cbn [app].
  rewrite (headers_found _ s wire body r 407 v) by done.
  change (407 =? 200) with false. change (407 =? 407) with true. cbn [negb]. cbv iota zeta.
  unfold answer_challenge. rewrite Ha, Hda, Hua, Hpa. cbn [negb].
  unfold mbind, M_bind, gets. cbn [before set_scan set_server_inbuf set_bufs].
  rewrite Hbf, Hstale. cbn. eexists. split; [done|]. cbn. split; [done|].
  apply bool_decide_eq_false_2. simpl. by rewrite Hst.
Qed.

(** Every call of [push_data] returns, unless a response announces a body so
    long that its length wraps around. *)
Theorem http_push_returns s ev :
  http_wf s ->
  no_overflow (server_inbuf s ++ if decide (direction ev = FromServer) then buffer ev else []) ->
  (push_data ev s).1 <> Panic /\ http_wf (push_data ev s).2.
Proof.
  intros Hwf Hno. assert (Hnp : (push_data ev s).1 <> Panic).
  { destruct Hwf as [Hr _]. unfold push_data, finished, mbind, M_bind, modify, gets.
    assert (forall s1, http_ready s1 -> no_overflow (server_inbuf s1) ->
      (let '(r, s') := state_change (change_fuel s1) s1 in (finish r, s')).1 <> Panic) as Hgo.
    { intros s1 Hr1 Hno1. pose proof (state_change_returns (change_fuel s1) s1 Hr1 Hno1) as Hret.
      destruct (state_change _ s1) as [x ?]. apply Hret.
      unfold need, change_fuel. destruct (state s1), (0 <? skip s1); lia. }
    destruct ev as [[] b]; simpl in *; apply Hgo; simpl; try done;
      unfold http_ready in *; simpl; destruct (state s); try done;
      rewrite ?length_app, ?app_nil_r in *; try done; lia. }
  split; [done|]. destruct (push_data ev s) as [r s'] eqn:Hp. exact (push_keeps_ok (H := HttpConnection) ev s r s' Hwf Hp Hnp).
Qed.

Lemma expect_response_zero k s :
  skip s = 0 ->
  expect_response k s =
  match send_tunnel_request s with
  | (Ok _, s') => k (set_state ExpectResponseHeaders s')
  | (Err e, s') => (Err e, s')
  | (Panic, s') => (Panic, s')
  end.
Proof.
  intros Hz. unfold expect_response, mbind, M_bind, gets, modify. rewrite Hz. simpl. rewrite Hz.
  simpl. by destruct (send_tunnel_request s) as [[] ?].
Qed.

(** One round: the challenge is read, the request is written again, and nothing
    is taken from the input. *)
Lemma wrapped_round n s wire body r dg cl out dg' :
  state s = ExpectResponseHeaders -> counter s = 0%nat -> crlf_state s = 0 ->
  server_inbuf s = wire ++ body -> header_block wire ->
  httparse_response (wire ++ body) = Ok (Some r) -> keep_alive_challenge r dg cl ->
  digest_stale dg = true -> wrap64 (cl + Z.of_nat (resp_len r)) = 0 ->
  auth_line (set_digest (Some dg) s) = (Ok out, dg') ->
  (state_change 1 s).1 = Ok false /\
  exists s', state_change (S (S n)) s = state_change n s' /\
    state s' = ExpectResponseHeaders /\ counter s' = 0%nat /\ crlf_state s' = 0 /\ server_inbuf s' = server_inbuf s /\
    server_outbuf s' = server_outbuf s ++ request_head (connect_host s) ++ out ++ crlf /\
    connect_host s' = connect_host s /\ auth_line (set_digest (Some dg) s') = (Ok out, dg').
Proof.
  intros Hst Hk Hc Hin Hb Hp Hch Hstale Hw Ha. pose proof Hch as (Hcode & (v & Hv & _) & _).
  assert (Hh : forall k, expect_response_headers k s = k (set_skip 0 (set_state ExpectResponse
    (set_before true (set_digest (Some dg) (set_scan 0 0 s)))))).
  { intros k. pose proof (answer_challenge_keep_alive k (set_scan 0 0 s) r dg cl v Hch Hv) as Hx.
    rewrite Hw in Hx. rewrite <- Hx by (by rewrite Hstale, andb_false_r).
    unfold expect_response_headers, mbind, M_bind, gets, modify.
    rewrite Hk, Hc, Hin, drop_0, (scan_app _ _ 0 0 _ _ ltac:(lia) Hb), Z.eqb_refl.
    cbn [crlf_state set_scan negb counter server_inbuf]. rewrite Z.eqb_refl.
    cbn [server_inbuf set_scan counter negb]. by rewrite Hin, Hp, Hcode, Hv. }
  split.
  { cbn [state_change]. unfold mbind at 1, M_bind at 1, gets at 1. by rewrite Hst, Hh. }
  eexists. split.
  { cbn [state_change]. unfold mbind at 1, M_bind at 1, gets at 1. rewrite Hst, Hh.
    unfold mbind, M_bind, gets. cbn [state set_skip set_state]. rewrite expect_response_zero by done.
    rewrite send_tunnel_request_eq. change (auth_line (set_skip _ _)) with (auth_line (set_digest (Some dg) s)).
    rewrite Ha. reflexivity. }
  by split_and!.
Qed.

(** C40. If the announced length and the length of the headers add up to zero
    modulo 2^64, a stale challenge on a kept connection is answered again and
    again without being consumed: [state_change] never returns, with or without
    credentials, if the answer to the challenge can be computed.  After any
    number of calls it is still running and has neither failed nor panicked;
    two calls add one more copy of the request to the output, and the input is
    the same.  (The sum wraps in a build without overflow checks.) *)
Theorem http_skip_wraps_forever s wire body r dg cl out dg' :
  fresh (set_server_outbuf [] (set_server_inbuf [] s)) ->
  server_inbuf s = wire ++ body -> header_block wire ->
  httparse_response (wire ++ body) = Ok (Some r) -> keep_alive_challenge r dg cl ->
  digest_stale dg = true -> wrap64 (cl + Z.of_nat (resp_len r)) = 0 ->
  auth_line (set_digest (Some dg) s) = (Ok out, dg') ->
  forall n, (state_change n s).1 = Ok false /\
    exists s', state_change (2 * n) s = (Ok false, s') /\ server_inbuf s' = server_inbuf s /\
      server_outbuf s' = server_outbuf s ++ concat (replicate n (request_head (connect_host s) ++ out ++ crlf)).
Proof.
  intros (Hst & _ & _ & _ & _ & Hk & Hc) Hin Hb Hp Hch Hstale Hw Ha n. cbn in Hst, Hk, Hc. split.
  - revert s Hst Hk Hc Hin Ha. induction n as [n IH] using lt_wf_ind. intros s Hst Hk Hc Hin Ha.
    destruct n as [|[|n]]; [done|by eapply (wrapped_round 0)|].
    destruct (wrapped_round n s wire body r dg cl out dg') as (_ & s' & -> & ? & ? & ? & Hi & _ & _ & ?); try done.
    apply IH; [lia|done|done|done|by rewrite Hi|done].
  - revert s Hst Hk Hc Hin Ha. induction n as [|n IH]; intros s Hst Hk Hc Hin Ha.
    { exists s. cbn. by rewrite app_nil_r. }
    replace (2 * S n)%nat with (S (S (2 * n))) by lia.
    destruct (wrapped_round (2 * n) s wire body r dg cl out dg') as (_ & s' & -> & ? & ? & ? & Hi & Ho & Hh & ?); try done.
    destruct (IH s') as (s2 & -> & Hi2 & Ho2); [done|done|done|by rewrite Hi|done|]. exists s2.
    split_and!; [done|by rewrite Hi2|]. rewrite Ho2, Ho, Hh. cbn [replicate concat]. by rewrite <- app_assoc.
Qed.
End proofs.
(** ** Concrete sessions *)

(** A library that knows three responses: success, a challenge with a body of
    four bytes, and a stale challenge that announces an absurd length.  A
    challenge is the flag "stale". *)
Definition line (t : string) : list Z := as_bytes t ++ crlf.

Definition ok_wire : list Z := line "HTTP/1.1 200 OK" ++ crlf.

Definition challenge_wire : list Z :=
  line "HTTP/1.1 407 Auth" ++ line "Proxy-Authenticate: Digest realm=x" ++
  line "Content-Length: 4" ++ crlf.

Definition absurd_wire : list Z :=
  line "HTTP/1.1 407 Auth" ++ line "Proxy-Authenticate: Digest stale" ++
  line "Content-Length: 18446744073709551523" ++ crlf.

Definition demo_table : list (list Z * HttpResponse) :=
  [(ok_wire, mkHttpResponse (length ok_wire) (Some 200) (Some 1) (Some "OK") []);
   (challenge_wire, mkHttpResponse (length challenge_wire) (Some 407) (Some 1) (Some "Auth")
      [(as_bytes "proxy-authenticate", as_bytes "Digest realm=x");
       (as_bytes "content-length", as_bytes "4")]);
   (absurd_wire, mkHttpResponse (length absurd_wire) (Some 407) (Some 1) (Some "Auth")
      [(as_bytes "proxy-authenticate", as_bytes "Digest stale");
       (as_bytes "content-length", as_bytes "18446744073709551523")])].

Fixpoint demo_find (table : list (list Z * HttpResponse)) (bs : list Z) : option HttpResponse :=
  match table with
  | [] => None
  | (w, r) :: t => if bool_decide (take (length w) bs = w) then Some r else demo_find t bs
  end.

#[export] Instance demo_lib : HttpLib := {
  Digest := bool;
  httparse_response := fun bs => Ok (demo_find demo_table bs);
  digest_parse := fun bs => Ok (bool_decide (bs = as_bytes "Digest stale"));
  digest_stale := fun d => d;
  digest_respond := fun d c uri => (Ok ("Digest username=" +:+ username c), d);
  base64_encode := fun _ => "YTpi";
}.

#[export] Instance demo_laws : HttpLibLaws.
Proof.
  constructor; try done. intros bs r. unfold httparse_response, demo_lib, demo_table, demo_find.
  intros Hr. repeat case_bool_decide; simplify_eq; cbn [resp_len];
    match goal with H : take (length ?w) bs = ?w |- _ =>
      apply (f_equal length) in H; rewrite length_take in H;
      let n := eval vm_compute in (length w) in change (length w) with n in * end; lia.
Qed.

Section examples.

Let client := mkSA (ipv4 10 0 0 2) 40000.
Let proxy := mkSA (ipv4 127 0 0 1) 8080.
Let target := mkSA (ipv4 93 184 216 34) 443.
Let session := mkInfo client target Tcp 0.
Let key := mkKey "a" "b".
Let banner := as_bytes "SSH-2.0".

Lemma http_connect_handshake_witness :
  exists s, new proxy session (Some "example.org") (Some key) None = Ok s /\
  exists s', handle_proxy_session s
      (mkServer ((Ok <$> [take 5 ok_wire; drop 5 ok_wire ++ banner]) ++ [Ok []]) [] [] []) =
    (Returned (Ok None), s',
     mkServer [Ok []] [] (server_outbuf s) ([] ++ [(len (server_outbuf s), len (ok_wire ++ banner))])) /\
    state s' = Established /\ client_outbuf s' = banner /\ server_outbuf s' = [] /\
    server_inbuf s' = [] /\ client_inbuf s' = [].
Proof.
  eexists. split; [reflexivity|].
  apply (http_connect_handshake proxy session (Some "example.org") (Some key) None _ ok_wire banner
    (mkHttpResponse (length ok_wire) (Some 200) (Some 1) (Some "OK") []) 1
    [take 5 ok_wire; drop 5 ok_wire ++ banner] [Ok []] []); try reflexivity.
  split; [repeat constructor; done|]. exists [take 5 ok_wire], (drop 5 ok_wire ++ banner).
  split_and!; [reflexivity|reflexivity|]. apply Nat.ltb_lt. reflexivity.
Defined.

(** A connection whose request was sent. *)
Definition waiting (creds : option UserKey) (answered : bool) : HttpConnection :=
  mkHttp proxy ExpectResponseHeaders [] [] [] [] 0 0 0 None answered creds session None.

Definition demo_challenge : HttpResponse :=
  mkHttpResponse (length challenge_wire) (Some 407) (Some 1) (Some "Auth")
    [(as_bytes "proxy-authenticate", as_bytes "Digest realm=x");
     (as_bytes "content-length", as_bytes "4")].

Definition absurd_challenge : HttpResponse :=
  mkHttpResponse (length absurd_wire) (Some 407) (Some 1) (Some "Auth")
    [(as_bytes "proxy-authenticate", as_bytes "Digest stale");
     (as_bytes "content-length", as_bytes "18446744073709551523")].

Lemma demo_challenge_ok : keep_alive_challenge demo_challenge false 4.
Proof.
  split_and!; try reflexivity; [exists 1; by split| |by vm_compute|];
    eexists; (split_and!; [reflexivity|reflexivity..]).
Qed.

Lemma absurd_challenge_ok : keep_alive_challenge absurd_challenge true 18446744073709551523.
Proof.
  split_and!; try reflexivity; [exists 1; by split| |by vm_compute|];
    eexists; (split_and!; [reflexivity|reflexivity..]).
Qed.

Lemma http_challenge_answered_witness :
  exists s', push_data (mkEvent FromServer (challenge_wire ++ as_bytes "body")) (waiting (Some key) false)
      = (Ok tt, s') /\
    server_outbuf s' = request_head "93.184.216.34:443" ++
      (PROXY_AUTHORIZATION ++ [58; 32] ++ as_bytes "Digest username=a" ++ crlf) ++ crlf /\
    state s' = ExpectResponseHeaders /\ server_inbuf s' = [] /\ client_outbuf s' = [] /\
    before s' = true /\ digest_state s' = Some false.
Proof.
  apply (http_challenge_answered (waiting (Some key) false) challenge_wire (as_bytes "body")
    demo_challenge false key "Digest username=a" false); try reflexivity; try done.
  exact demo_challenge_ok.
Defined.

Lemma http_bad_credentials_witness :
  exists s', push_data (mkEvent FromServer (challenge_wire ++ as_bytes "body")) (waiting (Some key) true)
      = (Err (io_other "Bad credentials"), s') /\ server_outbuf s' = [] /\
    connection_established s' = false.
Proof.
  apply (http_bad_credentials (waiting (Some key) true) challenge_wire (as_bytes "body")
    demo_challenge false 4); try reflexivity; try done.
  exact demo_challenge_ok.
Defined.

Lemma http_push_returns_witness :
  let ev := mkEvent FromServer (challenge_wire ++ as_bytes "body") in
  (push_data ev (waiting None false)).1 <> Panic /\ http_wf (push_data ev (waiting None false)).2.
Proof.
  apply (http_push_returns (waiting None false)
    (mkEvent FromServer (challenge_wire ++ as_bytes "body"))).
  - split; [|done]. split; simpl; lia.
  - intros k r v c Hr Hv Hc. cbn [direction buffer] in Hr.
    unfold httparse_response, demo_lib, demo_table, demo_find in Hr.
    repeat case_bool_decide; simplify_eq.
    + vm_compute in Hv. simplify_eq. vm_compute in Hc. simplify_eq. by vm_compute.
    + exfalso. apply (f_equal length) in H1. rewrite length_take, length_drop in H1.
      vm_compute (length absurd_wire) in H1.
      match type of H1 with context [length (?a ++ ?b)] =>
        let n := eval vm_compute in (length (a ++ b)) in change (length (a ++ b)) with n in H1 end.
      lia.
Defined.

(** With credentials: a thousand calls, five hundred requests. *)
Lemma http_skip_wraps_forever_witness :
  let s := set_server_inbuf absurd_wire (waiting (Some key) false) in
  (state_change 1000 s).1 = Ok false /\
  exists s', state_change 2000 s = (Ok false, s') /\ server_inbuf s' = absurd_wire.
Proof.
  intros s.
  assert (H : forall n, (state_change n s).1 = Ok false /\
    exists s', state_change (2 * n) s = (Ok false, s') /\ server_inbuf s' = server_inbuf s /\
      server_outbuf s' = server_outbuf s ++ concat (replicate n (request_head (connect_host s) ++
        (PROXY_AUTHORIZATION ++ [58; 32] ++ as_bytes ("Digest username=" +:+ username key) ++ crlf) ++ crlf))).
  { eapply (http_skip_wraps_forever (H := demo_lib) s absurd_wire [] absurd_challenge true 18446744073709551523);
      try reflexivity; try done. exact absurd_challenge_ok. }
  split; [exact (proj1 (H 1000%nat))|]. destruct (proj2 (H 1000%nat)) as (s' & E & Hi & _). exists s'. split; [exact E|exact Hi].
Defined.
End examples.

(** RFC 9110, section 5.6.1 allows blanks after the comma of a list; a
    repeated length written that way is refused. *)
Theorem content_length_list_blank :
  parse_content_length (as_bytes "42,42") = Ok 42 /\
  parse_content_length (as_bytes "42, 42") = Err (IntParseError "").
Proof. by vm_compute. Qed.
End HttpSession.
