(* ===== verification/Dns.v ===== *)
(** * DNS messages (src/src/dns.rs)

    The message types of the crate [hickory_proto] are declared here with the
    fields the sources read or write; its name type, its codec and
    [Message::into_response] are the operations of the class [DnsLib], and
    [DnsLibLaws] states what the sources rely on.  The functions of dns.rs
    follow in the source's order. *)

From S2P Require Import Prelude Net.

Module Dns.

(** ** Messages *)

Inductive MessageType := Query_ | Response_.

#[export] Instance MessageType_eq_dec : EqDecision MessageType.
Proof. solve_decision. Defined.

(** Opcodes, response codes, record types and classes by their number. *)
Definition OpCodeQuery : Z := 0.
Definition NoError : Z := 0.
Definition TypeA : Z := 1.
Definition TypeCNAME : Z := 5.
Definition TypeAAAA : Z := 28.
Definition ClassIN : Z := 1.

(** The crate's operations on names. *)
Class DnsName := {
  Name : Type;
  eq_ignore_root : Name -> Name -> bool;
  to_ascii : Name -> string;
}.

Section messages.
Context `{DnsName}.

Record Query := mkQuery { q_name : Name; q_type : Z; q_class : Z }.

(** [RData]; the variants the sources do not match are kept as bytes. *)
Inductive RData := RA (ip : Z) | RAAAA (ip : Z) | RCNAME (target : Name) | ROther (rtype : Z) (data : list Z).

Record Record_ := mkRecord { r_name : Name; dns_class : Z; ttl : Z; data : RData }.

(** [Record::from_rdata]. *)
Definition from_rdata (name : Name) (t : Z) (d : RData) : Record_ := mkRecord name ClassIN t d.

Record Message := mkMessage {
  id : Z;
  message_type : MessageType;
  op_code : Z;
  authoritative : bool;
  truncation : bool;
  recursion_desired : bool;
  recursion_available : bool;
  authentic_data : bool;
  checking_disabled : bool;
  response_code : Z;
  queries : list Query;
  answers : list Record_;
  authorities : list Record_;
  additionals : list Record_;
  signature : option (list Z);
  edns : option (list Z) }.
End messages.

(** The crate's codec. *)
Class DnsLib `{DnsName} := {
  from_vec : list Z -> res string Message;
  to_vec : Message -> res string (list Z);
  into_response : Message -> Message;
}.

Section dns.
Context `{DnsLib}.

Definition DNS_TCP_PREFIX_SIZE : nat := 2.
Definition MAX_CNAME_DEPTH : nat := 8.

Inductive AddressLookup := Address (ip : IpAddr) | Cname (name : string).

Definition validate_dns_query (m : Message) : res string Query :=
  if negb (bool_decide (message_type m = Query_)) then Err "DNS request is not a query"
  else if negb (op_code m =? OpCodeQuery) then Err "unsupported DNS opcode {:?}"
  else match queries m with
       | [q] => Ok q
       | _ => Err "DNS request must contain exactly one question, got {}"
       end.

Definition build_dns_response (request : Message) (ip : option IpAddr) (t : Z) : res string Message :=
  query ← validate_dns_query request;
  let record :=
    match ip with
    | Some (V4 a) => if q_type query =? TypeA then Some (from_rdata (q_name query) t (RA a)) else None
    | Some (V6 a) => if q_type query =? TypeAAAA then Some (from_rdata (q_name query) t (RAAAA a)) else None
    | None => None
    end in
  let record := (fun r => mkRecord (r_name r) (q_class query) (ttl r) (data r)) <$> record in
  let m := into_response request in
  Ok (mkMessage (id m) (message_type m) (op_code m) false false (recursion_desired m) true false
        (checking_disabled m) NoError (queries m) (option_list record) [] [] None (edns m)).

Definition is_aaaa (r : Record_) : bool := match data r with RAAAA _ => true | _ => false end.

Definition remove_ipv6_entries (m : Message) : Message :=
  let keep := List.filter (fun r => negb (is_aaaa r)) in
  mkMessage (id m) (message_type m) (op_code m) (authoritative m) (truncation m)
    (recursion_desired m) (recursion_available m) false (checking_disabled m) (response_code m)
    (queries m) (keep (answers m)) (keep (authorities m)) (keep (additionals m)) None (edns m).

Definition names_equal (left right : Name) : bool := eq_ignore_root left right.

Definition validate_dns_response (m : Message) (request_id : Z) (expected : Query) : res string unit :=
  if negb (bool_decide (message_type m = Response_)) then Err "DNS reply has the query bit set"
  else if negb (op_code m =? OpCodeQuery) then Err "DNS reply has unexpected opcode {:?}"
  else if negb (id m =? request_id) then Err "DNS response ID mismatch"
  else match queries m with
       | [] => Err "DNS response has no question"
       | actual :: rest =>
           if negb (bool_decide (rest = []))
              || negb (names_equal (q_name actual) (q_name expected))
              || negb (q_type actual =? q_type expected)
              || negb (q_class actual =? q_class expected)
           then Err "DNS response question does not match the request"
           else Ok tt
       end.

(** The inner [for] over the answers for [current]: the first address of the
    wanted family, or the last alias. *)
Fixpoint scan_answers (want_ipv6 : bool) (current : Name) (cname : option Name) (rs : list Record_)
    : IpAddr + option Name :=
  match rs with
  | [] => inr cname
  | r :: rs' =>
      if names_equal (r_name r) current then
        match data r with
        | RA a => if negb want_ipv6 then inl (V4 a) else scan_answers want_ipv6 current cname rs'
        | RAAAA a => if want_ipv6 then inl (V6 a) else scan_answers want_ipv6 current cname rs'
        | RCNAME target => scan_answers want_ipv6 current (Some target) rs'
        | ROther _ _ => scan_answers want_ipv6 current cname rs'
        end
      else scan_answers want_ipv6 current cname rs'
  end.

(** The outer [for _ in 0..MAX_CNAME_DEPTH]. *)
Fixpoint follow (depth : nat) (want_ipv6 : bool) (rs : list Record_) (current : Name)
    (followed_cname : bool) : res string AddressLookup :=
  match depth with
  | O => Err "DNS CNAME chain for {} exceeded {MAX_CNAME_DEPTH} records"
  | S depth' =>
      match scan_answers want_ipv6 current None rs with
      | inl ip => Ok (Address ip)
      | inr (Some name) =>
          if names_equal name current then Err "DNS CNAME loop at {}"
          else follow depth' want_ipv6 rs name true
      | inr None =>
          if followed_cname then Ok (Cname (to_ascii current))
          else Err "DNS response contained no {:?} address for {}"
      end
  end.

Definition extract_address_or_cname (m : Message) (query : Query) : res string AddressLookup :=
  if negb (response_code m =? NoError) then Err "{:?}"
  else follow MAX_CNAME_DEPTH (q_type query =? TypeAAAA) (answers m) (q_name query) false.

Definition extract_ipaddr_from_dns_message (m : Message) : res string IpAddr :=
  query ← ok_or "DNS response has no question" (head (queries m));
  lookup ← extract_address_or_cname m query;
  match lookup with
  | Address ip => Ok ip
  | Cname name => Err name
  end.

Definition extract_domain_from_dns_message (m : Message) : res string string :=
  query ← ok_or "DnsRequest no query body" (head (queries m));
  Ok (to_ascii (q_name query)).

Definition parse_data_to_dns_message (bs : list Z) (used_by_tcp : bool) : res string Message :=
  if used_by_tcp then
    match bs with
    | hi :: lo :: rest =>
        if negb (length bs =? Z.to_nat (of_be16 hi lo) + DNS_TCP_PREFIX_SIZE)%nat
        then Err "DNS-over-TCP frame length mismatch"
        else from_vec rest
    | _ => Err "invalid dns data"
    end
  else from_vec bs.

(** The loop of [drain_tcp_messages] on the bytes not consumed yet: the
    messages and the remaining bytes.  Every turn consumes at least three
    bytes, so the length of the buffer bounds the turns. *)
Fixpoint drain_loop (fuel : nat) (remaining : list Z) : res string (list Message * list Z) :=
  match fuel with
  | O => Panic
  | S fuel' =>
      match remaining with
      | hi :: lo :: rest =>
          let message_len := Z.to_nat (of_be16 hi lo) in
          if (message_len =? 0)%nat then Err "empty DNS-over-TCP frame"
          else if (length rest <? message_len)%nat then Ok ([], remaining)
          else
            m ← parse_data_to_dns_message (take message_len rest) false;
            '(ms, rem) ← drain_loop fuel' (drop message_len rest);
            Ok (m :: ms, rem)
      | _ => Ok ([], remaining)
      end
  end.

(** [drain_tcp_messages]: on an error the buffer keeps all its bytes. *)
Definition drain_tcp_messages (buffer : list Z) : res string (list Message) * list Z :=
  match drain_loop (S (length buffer)) buffer with
  | Ok (ms, rem) => (Ok ms, rem)
  | Err e => (Err e, buffer)
  | Panic => (Panic, buffer)
  end.
End dns.

(** What the sources rely on. *)
Class DnsLibLaws `{DnsLib} := {
  names_equal_refl : forall n, eq_ignore_root n n = true;
  names_equal_sym : forall a b, eq_ignore_root a b = eq_ignore_root b a;
  names_equal_trans : forall a b c,
    eq_ignore_root a b = true -> eq_ignore_root b c = true -> eq_ignore_root a c = true;
  from_vec_total : forall bs, from_vec bs <> Panic;
  to_vec_total : forall m, to_vec m <> Panic;
  (** a message has a header of twelve bytes that starts with its identifier *)
  from_vec_header : forall bs m, from_vec bs = Ok m ->
    (12 <= length bs)%nat /\ 0 <= id m <= u16_max /\ take 2 bs = be16 (id m);
  from_vec_set_id : forall bs m i, from_vec bs = Ok m -> is_u16 i ->
    from_vec (be16 i ++ drop 2 bs) =
    Ok (mkMessage i (message_type m) (op_code m) (authoritative m) (truncation m)
          (recursion_desired m) (recursion_available m) (authentic_data m) (checking_disabled m)
          (response_code m) (queries m) (answers m) (authorities m) (additionals m)
          (signature m) (edns m));
  (** a response keeps the identifier, the opcode and the questions *)
  into_response_spec : forall m,
    id (into_response m) = id m /\ message_type (into_response m) = Response_ /\
    op_code (into_response m) = op_code m /\ queries (into_response m) = queries m;
}.
Section properties.
Context `{L : DnsLibLaws}.

(** ** Responses *)

Lemma validate_query_inv m q :
  validate_dns_query m = Ok q -> message_type m = Query_ /\ op_code m = OpCodeQuery /\ queries m = [q].
Proof.
  unfold validate_dns_query. case_bool_decide; simpl; [|done].
  destruct (_ =? _) eqn:E; simpl; [|done]. b2p.
  destruct (queries m) as [|q' [|]]; try done. by intros [= ->].
Qed.

Lemma build_ok_iff m ip t :
  (exists q, validate_dns_query m = Ok q) <-> exists r, build_dns_response m ip t = Ok r.
Proof.
  unfold build_dns_response, mbind, res_bind. destruct (validate_dns_query m) as [q|e|].
  - split; intros _; by eexists.
  - split; by intros [? ?].
  - split; by intros [? ?].
Qed.

(** The answer to a query passes the check of [validate_dns_response] against
    that query: same identifier, same single question. *)
Lemma build_response_valid m ip t q r :
  validate_dns_query m = Ok q -> build_dns_response m ip t = Ok r ->
  validate_dns_response r (id m) q = Ok tt.
Proof.
  intros Hq. unfold build_dns_response, mbind, res_bind. rewrite Hq. intros [= <-].
  apply validate_query_inv in Hq as (_ & Ho & Hqs).
  destruct (into_response_spec m) as (Hi & Ht & Hop & Hq).
  unfold validate_dns_response. simpl. rewrite Ht, Hop, Ho, Hi, Hq, Hqs, Z.eqb_refl.
  rewrite !bool_decide_eq_true_2 by done. simpl. unfold names_equal.
  by rewrite names_equal_refl, !Z.eqb_refl.
Qed.

Definition query_type_for (ip : IpAddr) : Z := match ip with V4 _ => TypeA | V6 _ => TypeAAAA end.

(** The address put into a response is the one a client extracts from it. *)
Lemma build_extract m ip t q r :
  validate_dns_query m = Ok q -> q_type q = query_type_for ip ->
  build_dns_response m (Some ip) t = Ok r -> extract_ipaddr_from_dns_message r = Ok ip.
Proof.
  intros Hq Ht. unfold build_dns_response, mbind, res_bind. rewrite Hq, Ht. intros [= <-].
  apply validate_query_inv in Hq as (_ & _ & Hqs).
  destruct (into_response_spec m) as (_ & _ & _ & Hq).
  unfold extract_ipaddr_from_dns_message, extract_address_or_cname, mbind, res_bind. simpl.
  rewrite Hq, Hqs. simpl. rewrite Ht. destruct ip as [a|a]; simpl;
    unfold names_equal; rewrite names_equal_refl; done.
Qed.

(** No address of the other family is ever put into a response. *)
Lemma build_no_answer m ip t q r :
  validate_dns_query m = Ok q -> (forall a, ip = Some a -> q_type q <> query_type_for a) ->
  build_dns_response m ip t = Ok r -> answers r = [] /\ response_code r = NoError.
Proof.
  intros Hq Hip. unfold build_dns_response, mbind, res_bind. rewrite Hq. intros [= <-]. simpl.
  split; [|done]. destruct ip as [[a|a]|]; [| |done]; specialize (Hip _ eq_refl); simpl in Hip;
    by rewrite (proj2 (Z.eqb_neq _ _) Hip).
Qed.

(** ** Filtering IPv6 *)

Lemma filter_aaaa rs r :
  r ∈ List.filter (fun r => negb (is_aaaa r)) rs <-> r ∈ rs /\ is_aaaa r = false.
Proof. rewrite !list_elem_of_In, filter_In, negb_true_iff. done. Qed.

(** Without IPv6 records the outcome of an A lookup is the same. *)
Lemma scan_filter rs cur cn :
  scan_answers false cur cn (List.filter (fun r => negb (is_aaaa r)) rs) = scan_answers false cur cn rs.
Proof.
  revert cn. induction rs as [|r rs IH]; intros cn; simpl; [done|]. unfold is_aaaa at 1.
  destruct (data r) eqn:Hd; simpl; rewrite ?Hd, ?IH; by destruct (names_equal _ _).
Qed.

Lemma follow_filter depth rs cur fl :
  follow depth false (List.filter (fun r => negb (is_aaaa r)) rs) cur fl = follow depth false rs cur fl.
Proof.
  revert cur fl. induction depth as [|depth IH]; intros cur fl; simpl; [done|].
  rewrite scan_filter. destruct (scan_answers _ _ _ _) as [ip|[n|]]; [done| |done].
  destruct (names_equal _ _); [done|]. apply IH.
Qed.

Lemma scan_family want cur cn rs ip :
  scan_answers want cur cn rs = inl ip ->
  exists r, r ∈ rs /\ names_equal (r_name r) cur = true /\
    data r = match ip with V4 a => RA a | V6 a => RAAAA a end /\ is_ipv6 ip = want.
Proof.
  revert cn. induction rs as [|r rs IH]; intros cn; simpl; [done|].
  assert (forall cn, scan_answers want cur cn rs = inl ip -> exists r0, r0 ∈ r :: rs /\
    names_equal (r_name r0) cur = true /\ data r0 = match ip with V4 a => RA a | V6 a => RAAAA a end /\
    is_ipv6 ip = want) as Hrec.
  { intros cn' (r0 & ? & ?)%IH. exists r0. split; [by right|done]. }
  destruct (names_equal (r_name r) cur) eqn:Hn; [|apply Hrec].
  destruct (data r) as [a|a|n|ty d] eqn:Hd; try apply Hrec.
  - destruct want; [apply Hrec|]. intros [= <-]. exists r. split_and!; [by left|done..].
  - destruct want; [|apply Hrec]. intros [= <-]. exists r. split_and!; [by left|done..].
Qed.

Lemma scan_alias want cur cn rs n :
  scan_answers want cur cn rs = inr (Some n) ->
  cn = Some n \/ exists r, r ∈ rs /\ names_equal (r_name r) cur = true /\ data r = RCNAME n.
Proof.
  revert cn. induction rs as [|r rs IH]; intros cn; simpl; [intros [= ->]; by left|].
  destruct (names_equal (r_name r) cur) eqn:Hn.
  2:{ intros [?|(r0 & ? & ?)]%IH; [by left|]. right. exists r0. split; [by right|done]. }
  destruct (data r) as [a|a|t|ty d] eqn:Hd; [destruct want; simpl; [|done]|destruct want; simpl; [done|]| |];
    (intros [Hc|(r0 & ? & ?)]%IH; [|right; exists r0; split; [by right|done]]); try (by left).
  simplify_eq. right. exists r. split_and!; [by left|done..].
Qed.

(** ** Address lookup *)

(** [alias_chain rs k a b]: [k] CNAME records of [rs] lead from [a] to [b]. *)
Inductive alias_chain (rs : list Record_) : nat -> Name -> Name -> Prop :=
  | chain_here n : alias_chain rs 0 n n
  | chain_step k a b c r :
      r ∈ rs -> names_equal (r_name r) a = true -> data r = RCNAME b ->
      alias_chain rs k b c -> alias_chain rs (S k) a c.

Definition lookup_spec (rs : list Record_) (want_ipv6 : bool) (start : Name) (depth : nat)
    (followed : bool) (l : AddressLookup) : Prop :=
  exists k owner, (k < depth)%nat /\ alias_chain rs k start owner /\
  match l with
  | Address ip => is_ipv6 ip = want_ipv6 /\ exists r, r ∈ rs /\ names_equal (r_name r) owner = true /\
      data r = match ip with V4 a => RA a | V6 a => RAAAA a end
  | Cname s => s = to_ascii owner /\ (followed = true \/ (0 < k)%nat) /\
      scan_answers want_ipv6 owner None rs = inr None
  end.

Lemma follow_sound depth want rs cur fl l :
  follow depth want rs cur fl = Ok l -> lookup_spec rs want cur depth fl l.
Proof.
  revert cur fl. induction depth as [|depth IH]; intros cur fl; simpl; [done|].
  destruct (scan_answers want cur None rs) as [ip|[n|]] eqn:Hs.
  - intros [= <-]. apply scan_family in Hs as (r & ? & ? & ? & ?).
    exists 0%nat, cur. split_and!; [lia|constructor|done|]. by exists r.
  - destruct (names_equal n cur); [done|].
    apply scan_alias in Hs as [?|(r & Hr & Hn & Hd)]; [done|].
    intros (k & owner & Hk & Hch & Hl)%IH. exists (S k), owner.
    split_and!; [lia|by econstructor|]. destruct l; [done|]. destruct Hl as (? & ? & ?).
    split_and!; try done. right. lia.
  - destruct fl; [|done]. intros [= <-]. exists 0%nat, cur.
    split_and!; [lia|constructor|done|by left|done].
Qed.

(** ** DNS over TCP *)

Definition dns_frame (w : list Z) : list Z := be16 (len w) ++ w.

Lemma drain_loop_total fuel bs : (length bs < fuel)%nat -> drain_loop fuel bs <> Panic.
Proof.
  revert bs. induction fuel as [|fuel IH]; intros bs Hl; [lia|]. simpl.
  destruct bs as [|hi [|lo rest]]; try done.
  destruct (_ =? 0)%nat eqn:E0; [done|]. destruct (_ <? _)%nat eqn:E1; [done|]. b2p.
  unfold mbind, res_bind. pose proof (from_vec_total (take (Z.to_nat (of_be16 hi lo)) rest)) as Hf.
  simpl parse_data_to_dns_message. destruct (from_vec _); [|done|done].
  specialize (IH (drop (Z.to_nat (of_be16 hi lo)) rest)).
  destruct (drain_loop fuel _) as [[]| |]; try done. apply IH. rewrite length_drop. simpl in Hl. lia.
Qed.

Lemma drain_loop_fuel f1 f2 bs :
  (length bs < f1)%nat -> (length bs < f2)%nat -> drain_loop f1 bs = drain_loop f2 bs.
Proof.
  revert f2 bs. induction f1 as [|f1 IH]; intros f2 bs H1 H2; [lia|]. destruct f2 as [|f2]; [lia|].
  simpl. destruct bs as [|hi [|lo rest]]; try done.
  destruct (_ =? 0)%nat; [done|]. destruct (_ <? _)%nat; [done|].
  destruct (from_vec _); [|done|done]. simpl.
  rewrite (IH f2); [done|..]; rewrite length_drop; simpl in *; lia.
Qed.

Lemma drain_restart g bs :
  (length bs < g)%nat ->
  drain_loop g bs = ('(ms, rem) ← drain_loop (S (length bs)) bs; Ok ([] ++ ms, rem)).
Proof.
  intros Hg. rewrite (drain_loop_fuel g (S (length bs))) by lia.
  by destruct (drain_loop _ _) as [[]| |].
Qed.

(** Messages read from a buffer are the same when more bytes follow. *)
Lemma drain_loop_app f g bs more ms rem :
  (length bs < f)%nat -> (length (bs ++ more) < g)%nat ->
  drain_loop f bs = Ok (ms, rem) ->
  drain_loop g (bs ++ more) =
  ('(ms', rem') ← drain_loop (S (length (rem ++ more))) (rem ++ more); Ok (ms ++ ms', rem')).
Proof.
  revert g bs ms rem. induction f as [|f IH]; intros g bs ms rem Hf Hg; [lia|].
  destruct g as [|g]; [lia|]. destruct bs as [|hi [|lo rest]].
  - intros [= <- <-]. by apply drain_restart.
  - intros [= <- <-]. by apply drain_restart.
  - intros Hd. cbn [drain_loop] in Hd.
    destruct (_ =? 0)%nat eqn:E0; [done|]. destruct (length rest <? _)%nat eqn:E1.
    { injection Hd as <- <-. by apply (drain_restart (S g)). }
    b2p. set (R := drain_loop (S (length (rem ++ more))) (rem ++ more)).
    cbn [app drain_loop]. rewrite (proj2 (Nat.eqb_neq _ _)) by done.
    rewrite (proj2 (Nat.ltb_ge _ _)) by (rewrite length_app; lia).
    rewrite take_app_le, drop_app_le by lia.
    destruct (parse_data_to_dns_message _ _) as [m| |] eqn:Ep; try done. cbn [mbind res_bind] in *.
    destruct (drain_loop f _) as [[ms1 rem1]| |] eqn:Ed; try done. cbn in Hd. simplify_eq.
    rewrite (IH g _ ms1 rem); [| | |done].
    + fold R. by destruct R as [[]| |].
    + rewrite length_drop. simpl in Hf. lia.
    + simpl in Hg. rewrite !length_app in *. rewrite length_drop. lia.
Qed.

(** A frame that cannot be read makes every longer buffer fail the same way. *)
Lemma drain_loop_err f g bs more e :
  (length bs < f)%nat -> (length (bs ++ more) < g)%nat ->
  drain_loop f bs = Err e -> drain_loop g (bs ++ more) = Err e.
Proof.
  revert g bs. induction f as [|f IH]; intros g bs Hf Hg; [lia|]. destruct g as [|g]; [lia|].
  destruct bs as [|hi [|lo rest]]; try done. intros Hd. cbn [app drain_loop] in *.
  destruct (_ =? 0)%nat eqn:E0; [done|]. destruct (length rest <? _)%nat eqn:E1; [done|]. b2p.
  rewrite (proj2 (Nat.ltb_ge _ _)) by (rewrite length_app; lia).
  rewrite take_app_le, drop_app_le by lia.
  destruct (parse_data_to_dns_message _ _) as [m| |] eqn:Ep; try done. cbn [mbind res_bind] in *.
  destruct (drain_loop f _) as [[ms1 rem1]| |] eqn:Ed; try done. cbn in Hd. simplify_eq.
  rewrite (IH g _); [done| | |done].
  - rewrite length_drop. simpl in Hf. lia.
  - simpl in Hg. rewrite !length_app in *. rewrite length_drop. lia.
Qed.

(** [drain_tcp_messages] on a buffer that grows. *)
Lemma drain_tcp_messages_app a b ms rem :
  drain_tcp_messages a = (Ok ms, rem) ->
  match drain_tcp_messages (rem ++ b) with
  | (Ok ms', rem') => drain_tcp_messages (a ++ b) = (Ok (ms ++ ms'), rem')
  | (Err e, _) => drain_tcp_messages (a ++ b) = (Err e, a ++ b)
  | (Panic, _) => False
  end.
Proof.
  unfold drain_tcp_messages. intros Ha.
  destruct (drain_loop (S (length a)) a) as [[ms0 rem0]| |] eqn:E; simplify_eq.
  pose proof (drain_loop_app _ (S (length (a ++ b))) a b ms rem
    (Nat.lt_succ_diag_r _) (Nat.lt_succ_diag_r _) E) as ->.
  pose proof (drain_loop_total (S (length (rem ++ b))) (rem ++ b) (Nat.lt_succ_diag_r _)) as Ht.
  by destruct (drain_loop (S (length (rem ++ b))) (rem ++ b)) as [[]| |].
Qed.

Lemma drain_tcp_messages_prefix a b ms rem :
  drain_tcp_messages (a ++ b) = (Ok ms, rem) ->
  exists ms1 rem1 ms2, drain_tcp_messages a = (Ok ms1, rem1) /\ ms = ms1 ++ ms2 /\
    drain_tcp_messages (rem1 ++ b) = (Ok ms2, rem).
Proof.
  intros Hd. destruct (drain_tcp_messages a) as [r rem1] eqn:Ea. destruct r as [ms1|e|].
  - pose proof (drain_tcp_messages_app a b ms1 rem1 Ea) as Hb.
    destruct (drain_tcp_messages (rem1 ++ b)) as [[ms2|e|] rem2] eqn:Eb; try done; try (by rewrite Hb in Hd).
    rewrite Hb in Hd. simplify_eq. by exists ms1, rem1, ms2.
  - exfalso. assert (drain_loop (S (length a)) a = Err e) as E.
    { unfold drain_tcp_messages in Ea. destruct (drain_loop _ _) as [[]| |]; try done.
      by injection Ea as ->. }
    unfold drain_tcp_messages in Hd. pose proof (drain_loop_err _ (S (length (a ++ b))) a b e (Nat.lt_succ_diag_r _)
      (Nat.lt_succ_diag_r _) E) as He. by rewrite He in Hd.
  - exfalso. unfold drain_tcp_messages in Ea.
    pose proof (drain_loop_total (S (length a)) a (Nat.lt_succ_diag_r _)).
    by destruct (drain_loop (S (length a)) a) as [[]| |].
Qed.
End properties.
End Dns.
