(* ===== verification/DnsExample.v ===== *)
(** * A concrete DNS library

    An instance of [DnsLib] that satisfies [DnsLibLaws]: names are text, a
    message is a header and at most one question.  It shows that the laws can
    hold and lets the examples of the other files run. *)

From S2P Require Import Prelude Net Rfc1928 Dns.

Module DnsExample.
Import Dns.

Fixpoint lower_string (s : string) : string :=
  match s with
  | EmptyString => EmptyString
  | String c s' => String (Ascii.ascii_of_N (Z.to_N (lower8 (Z.of_N (Ascii.N_of_ascii c))))) (lower_string s')
  end.

(** A name without its terminal dot, in lower case. *)
Definition plain (s : string) : string :=
  lower_string (if ends_with "." s then strip_end "." s else s).

#[export] Instance text_names : DnsName := {
  Name := string;
  eq_ignore_root := fun a b => bool_decide (plain a = plain b);
  to_ascii := fun a => a;
}.

Definition is_u8b (b : Z) : bool := (0 <=? b) && (b <? 256).

(** Length-prefixed name, type and class. *)
Definition read_question (bs : list Z) : option Query :=
  match bs with
  | n :: rest =>
      let k := Z.to_nat n in
      match drop k rest with
      | [t1; t2; c1; c2] =>
          Some (mkQuery (Rfc1928.of_bytes (take k rest)) (of_be16 t1 t2) (of_be16 c1 c2))
      | _ => None
      end
  | [] => None
  end.

Definition write_question (q : Query) : list Z :=
  let name := as_bytes (q_name q) in
  len name :: name ++ be16 (q_type q) ++ be16 (q_class q).

Definition example_from_vec (bs : list Z) : res string Message :=
  if (12 <=? length bs)%nat && forallb is_u8b bs then
    match bs with
    | i1 :: i2 :: f1 :: f2 :: rest =>
        let q := drop 8 rest in
        match (if (length q =? 0)%nat then Some [] else (fun x => [x]) <$> read_question q) with
        | Some qs =>
            Ok (mkMessage (of_be16 i1 i2) (if 128 <=? f1 then Response_ else Query_) (f1 / 8 mod 16)
                  false false false false false false (f2 mod 16) qs [] [] [] None None)
        | None => Err "malformed question"
        end
    | _ => Err "short message"
    end
  else Err "short message".

Definition example_to_vec (m : Message) : res string (list Z) :=
  Ok (be16 (id m) ++
      [(if bool_decide (message_type m = Response_) then 128 else 0) + op_code m mod 16 * 8;
       response_code m mod 16] ++ replicate 8 0 ++
      match queries m with q :: _ => write_question q | [] => [] end).

#[export] Instance example_dns : DnsLib := {
  from_vec := example_from_vec;
  to_vec := example_to_vec;
  into_response := fun m =>
    mkMessage (id m) Response_ (op_code m) (authoritative m) (truncation m) (recursion_desired m)
      (recursion_available m) (authentic_data m) (checking_disabled m) (response_code m) (queries m)
      (answers m) (authorities m) (additionals m) (signature m) (edns m);
}.

Lemma is_u8b_spec bs : forallb is_u8b bs = true <-> Forall is_u8 bs.
Proof.
  induction bs as [|b bs IH]; simpl; [split; [constructor|done]|].
  rewrite andb_true_iff, IH, Forall_cons. unfold is_u8b, is_u8.
  rewrite andb_true_iff, Z.leb_le, Z.ltb_lt. done.
Qed.

#[export] Instance example_dns_laws : DnsLibLaws.
Proof.
  constructor; simpl.
  - intros n. by rewrite bool_decide_eq_true_2.
  - intros a b. apply bool_decide_ext. split; congruence.
  - intros a b c Ha Hb. b2p. apply bool_decide_eq_true_2. congruence.
  - intros bs. unfold example_from_vec. repeat split_match; done.
  - done.
  - intros bs m. unfold example_from_vec. destruct (_ && _) eqn:E; [|done]. b2p.
    destruct bs as [|i1 [|i2 [|f1 [|f2 rest]]]]; try done.
    match goal with H : forallb _ _ = true |- _ => apply is_u8b_spec in H; inversion H as [|?? Hi1 Hr]; subst;
      inversion Hr as [|?? Hi2 Hr2]; subst end.
    destruct (if (_ =? _)%nat then _ else _); [|done]. intros [= <-]. simpl.
    pose proof (of_be16_u16 i1 i2 Hi1 Hi2) as Hu. unfold is_u16, u16_max in *.
    rewrite be16_of_be16 by done. split_and!; [done|lia|lia|done].
  - intros bs m i. unfold example_from_vec. destruct (_ && _) eqn:E; [|done]. b2p.
    destruct bs as [|i1 [|i2 [|f1 [|f2 rest]]]]; try done. intros Hm Hi.
    assert (forallb is_u8b (be16 i ++ f1 :: f2 :: rest) = true) as Hall.
    { match goal with H : forallb _ _ = true |- _ => apply is_u8b_spec in H; inversion H as [|?? Hi1 Hr]; subst;
        inversion Hr as [|?? Hi2 Hr2]; subst end.
      apply is_u8b_spec, Forall_app. split; [apply be16_u8|done]. }
    unfold be16 in Hall |- *. cbn [app] in Hall |- *. change (drop 2 _) with (f1 :: f2 :: rest) in *.
    rewrite Hall. rewrite (proj2 (Nat.leb_le _ _)) by (simpl in *; lia). cbn [andb].
    destruct (if (_ =? _)%nat then _ else _); [|done].
    injection Hm as <-. simpl. by rewrite of_be16_be16.
  - done.
Qed.

(** A query for a name. *)
Definition query_bytes (i : Z) (name : string) (t : Z) : list Z :=
  be16 i ++ replicate 10 0 ++ write_question (mkQuery name t ClassIN).
End DnsExample.
