(* ===== verification/DnsTheorems.v ===== *)
(** * Correctness of the DNS functions

    The main statements about dns.rs, proved from the lemmas of Dns.v, with
    concrete instances on the library of DnsExample.v. *)

From S2P Require Import Prelude Net Dns DnsExample.

Module DnsTheorems.
Import Dns.

Section theorems.
Context `{L : DnsLibLaws}.

(** A fake answer is accepted by the client's own checks and carries the
    address it was built from. *)
Theorem dns_response_roundtrip m ip t q :
  validate_dns_query m = Ok q -> q_type q = query_type_for ip ->
  exists r, build_dns_response m (Some ip) t = Ok r /\
    validate_dns_response r (id m) q = Ok tt /\
    extract_ipaddr_from_dns_message r = Ok ip /\ length (answers r) = 1%nat.
Proof.
  intros Hq Ht. destruct (proj1 (build_ok_iff m (Some ip) t)) as [r Hr]; [by eexists|].
  exists r. split_and!; [done|by eapply build_response_valid|by eapply build_extract|].
  revert Hr. unfold build_dns_response, mbind, res_bind. rewrite Hq, Ht. intros [= <-].
  by destruct ip.
Qed.

(** An address or alias extracted from a response belongs to the question: it
    is reached from the queried name by fewer than eight aliases of the answer
    section, and has the family the question asked for. *)
Theorem dns_lookup_sound m q l :
  extract_address_or_cname m q = Ok l ->
  response_code m = NoError /\
  lookup_spec (answers m) (q_type q =? TypeAAAA) (q_name q) MAX_CNAME_DEPTH false l.
Proof.
  unfold extract_address_or_cname. destruct (_ =? _) eqn:E; simpl; [|done]. b2p.
  intros Hf. split; [done|]. by apply follow_sound.
Qed.

(** Filtering removes exactly the AAAA records of the three sections, clears
    the DNSSEC claims, and does not change what an A lookup finds. *)
Theorem dns_ipv6_filter m q :
  let m' := remove_ipv6_entries m in
  (forall r, r ∈ answers m' <-> r ∈ answers m /\ is_aaaa r = false) /\
  (forall r, r ∈ authorities m' <-> r ∈ authorities m /\ is_aaaa r = false) /\
  (forall r, r ∈ additionals m' <-> r ∈ additionals m /\ is_aaaa r = false) /\
  authentic_data m' = false /\ signature m' = None /\ id m' = id m /\ queries m' = queries m /\
  (q_type q <> TypeAAAA -> extract_address_or_cname m' q = extract_address_or_cname m q).
Proof.
  simpl. split_and!; try done; try apply filter_aaaa.
  intros Hq. unfold extract_address_or_cname. cbn [response_code answers remove_ipv6_entries]. destruct (negb _); [done|].
  rewrite (proj2 (Z.eqb_neq _ _) Hq). apply follow_filter.
Qed.

(** Reading a DNS-over-TCP stream in two pieces gives the messages of the whole
    stream: no message is lost, repeated or split. *)
Theorem dns_tcp_incremental a b ms rem :
  drain_tcp_messages a = (Ok ms, rem) ->
  match drain_tcp_messages (rem ++ b) with
  | (Ok ms', rem') => drain_tcp_messages (a ++ b) = (Ok (ms ++ ms'), rem')
  | (Err e, _) => drain_tcp_messages (a ++ b) = (Err e, a ++ b)
  | (Panic, _) => False
  end.
Proof.
  apply drain_tcp_messages_app.
Qed.

(** A frame that is not complete yet. *)
Definition incomplete (part : list Z) : Prop :=
  match part with
  | hi :: lo :: rest => (0 < Z.to_nat (of_be16 hi lo))%nat /\ (length rest < Z.to_nat (of_be16 hi lo))%nat
  | _ => True
  end.

(** The frames of a list of messages are read back, whatever incomplete frame
    follows them. *)
Theorem dns_tcp_frames ws ms part :
  Forall2 (fun w m => from_vec w = Ok m) ws ms ->
  Forall (fun w => len w <= u16_max) ws -> incomplete part ->
  drain_tcp_messages (concat (dns_frame <$> ws) ++ part) = (Ok ms, part).
Proof.
  intros Hws Hlen Hpart.
  assert (forall fuel, (length (concat (dns_frame <$> ws) ++ part) < fuel)%nat ->
    drain_loop fuel (concat (dns_frame <$> ws) ++ part) = Ok (ms, part)) as Hd.
  2:{ unfold drain_tcp_messages. rewrite Hd by lia. done. }
  induction Hws as [|w m ws ms Hw Hws IH]; intros [|fuel] Hf; try lia; cbn [fmap list_fmap concat app] in *.
  - destruct part as [|hi [|lo rest]]; try done. cbn [drain_loop]. destruct Hpart as [Hp1 Hp2].
    rewrite (proj2 (Nat.eqb_neq _ _)) by lia. by rewrite (proj2 (Nat.ltb_lt _ _)).
  - apply Forall_cons in Hlen as [Hl Hlen]. specialize (IH Hlen).
    destruct (from_vec_header _ _ Hw) as (H12 & _ & _).
    assert (is_u16 (len w)) as Hu by (unfold is_u16, len, u16_max in *; lia).
    change (dns_frame w) with (be16 (len w) ++ w) in *. unfold be16 in *. rewrite <- !app_assoc in *. cbn [app] in *.
    cbn [drain_loop]. rewrite of_be16_be16 by done.
    assert (Z.to_nat (len w) = length w) as -> by (unfold len; lia).
    rewrite (proj2 (Nat.eqb_neq _ _)) by lia.
    rewrite (proj2 (Nat.ltb_ge _ _)) by (rewrite !length_app; lia).
    rewrite take_app_length, drop_app_length. unfold parse_data_to_dns_message. rewrite Hw.
    cbn [mbind res_bind]. rewrite IH; [done|].
    simpl in Hf. rewrite !length_app in *. lia.
Qed.
End theorems.

(** ** Concrete messages *)

Section examples.
Import DnsExample.

Let question := mkQuery "example.org" TypeA ClassIN.
Let request := mkMessage 7 Query_ 0 false false true false false false 0 [question] [] [] [] None None.

Lemma dns_response_roundtrip_witness :
  exists r, build_dns_response request (Some (ipv4 198 18 0 1)) 5 = Ok r /\
    validate_dns_response r 7 question = Ok tt /\
    extract_ipaddr_from_dns_message r = Ok (ipv4 198 18 0 1) /\ length (answers r) = 1%nat.
Proof. by apply (dns_response_roundtrip request (ipv4 198 18 0 1) 5 question). Defined.

Let aliased := mkMessage 7 Response_ 0 false false true true false false 0 [question]
  [mkRecord "cdn.example.net." ClassIN 60 (RA 16909060);
   mkRecord "EXAMPLE.org." ClassIN 60 (RCNAME "cdn.example.net")] [] [] None None.

Lemma dns_lookup_sound_witness :
  response_code aliased = NoError /\
  lookup_spec (answers aliased) false "example.org" MAX_CNAME_DEPTH false (Address (V4 16909060)).
Proof. apply (dns_lookup_sound aliased question (Address (V4 16909060))). by vm_compute. Defined.

Let dual := mkMessage 7 Response_ 0 false false true true true false 0 [question]
  [mkRecord "example.org." ClassIN 60 (RAAAA 1); mkRecord "example.org." ClassIN 60 (RA 16909060)]
  [] [] None None.

Lemma dns_ipv6_filter_witness :
  (forall r, r ∈ answers (remove_ipv6_entries dual) <-> r ∈ answers dual /\ is_aaaa r = false) /\
  extract_address_or_cname (remove_ipv6_entries dual) question =
    extract_address_or_cname dual question.
Proof.
  destruct (dns_ipv6_filter dual question) as (Ha & _ & _ & _ & _ & _ & _ & Hx).
  split; [exact Ha|]. apply Hx. discriminate.
Defined.

Definition example_query (i : Z) (name : string) : Message :=
  mkMessage i Query_ 0 false false false false false false 0 [mkQuery name TypeA ClassIN]
    [] [] [] None None.

Lemma first_query : from_vec (query_bytes 1 "a.org" TypeA) = Ok (example_query 1 "a.org").
Proof. reflexivity. Qed.

Lemma second_query : from_vec (query_bytes 2 "b.org" TypeA) = Ok (example_query 2 "b.org").
Proof. reflexivity. Qed.

Lemma dns_tcp_frames_witness :
  drain_tcp_messages (concat (dns_frame <$>
    [query_bytes 1 "a.org" TypeA; query_bytes 2 "b.org" TypeA]) ++ [0; 9; 1]) =
  (Ok [example_query 1 "a.org"; example_query 2 "b.org"], [0; 9; 1]).
Proof.
  apply (dns_tcp_frames [query_bytes 1 "a.org" TypeA; query_bytes 2 "b.org" TypeA]).
  - constructor; [exact first_query|]. constructor; [exact second_query|constructor].
  - repeat constructor; vm_compute; discriminate.
  - vm_compute. split; lia.
Defined.

Definition whole : list Z := dns_frame (query_bytes 1 "a.org" TypeA).
Definition second : list Z := dns_frame (query_bytes 2 "b.org" TypeA).

Lemma whole_then_part :
  drain_tcp_messages (whole ++ take 2 second) = (Ok [example_query 1 "a.org"], take 2 second).
Proof. reflexivity. Qed.

Lemma dns_tcp_incremental_witness :
  match drain_tcp_messages (take 2 second ++ drop 2 second) with
  | (Ok ms', rem') =>
      drain_tcp_messages ((whole ++ take 2 second) ++ drop 2 second) =
      (Ok ([example_query 1 "a.org"] ++ ms'), rem')
  | (Err e, _) => drain_tcp_messages ((whole ++ take 2 second) ++ drop 2 second) =
      (Err e, (whole ++ take 2 second) ++ drop 2 second)
  | (Panic, _) => False
  end.
Proof. exact (dns_tcp_incremental _ (drop 2 second) _ _ whole_then_part). Defined.
End examples.
End DnsTheorems.
