(* ===== verification/DnsRouting.v ===== *)
(** * DNS routing (src/src/dns_routing.rs)

    The trait [DnsOverride] with its implementations, the lazily opened
    connection to the proxy [Upstream], and the session that answers DNS over
    TCP query by query.  The results of opening a connection are a list: each
    attempt takes the next one.  The physical resolver of ProcessDns and the
    record of query origins are arguments. *)

From S2P Require Import Prelude Net ProxyHandler Streams NoProxy Dns DnsExample.

Module DnsRouting.
Import Dns.

(** The trait.  The futures of [matches] and [answer] are their results. *)
Class DnsOverride := {
  active : bool;
  matches : list Z -> res Error bool;
  answer : list Z -> bool -> res Error (list Z);
}.

Definition NoDnsOverride : DnsOverride := {|
  active := false;
  matches := fun _ => Ok false;
  answer := fun _ _ => Err (EString "DNS override is unavailable");
|}.

Section process_dns.
Context `{DnsLib}.

(** [ProcessDns] over an interface type.  [origins] is [QueryOrigins::bypass]
    with the process rules; [physical] is [physical_dns::answer] with the
    configured resolver and the IPv6 switch; [log_info] tells whether the
    arguments of the [info!] line are evaluated. *)
Definition ProcessDns {I} (windows log_info : bool) (origins : option (list Z -> res Error bool))
    (interface : option I) (physical : I -> list Z -> bool -> res Error (list Z)) : DnsOverride := {|
  active := windows && match interface, origins with Some _, Some _ => true | _, _ => false end;
  matches := fun request =>
    if windows then
      match interface, origins with Some _, Some bypass => bypass request | _, _ => Ok false end
    else Ok false;
  answer := fun request udp =>
    i ← ok_or (EString "physical DNS interface unavailable") interface;
    response ← physical i request udp;
    message ← map_err EString (parse_data_to_dns_message response false);
    _ ← (if log_info then map_err EString (extract_domain_from_dns_message message) else Ok "");
    Ok response;
|}.
End process_dns.

(** ** The connection to the proxy *)

Section upstream.
Context `{PH : ProxyHandler H} `{DL : DnsLib}.

(** [socket_queue] is in the results of opening a connection. *)
Record Upstream := mkUpstream {
  handler : H;
  stream : option Server;
  dials : list (res Error Server);   (* results of the next connection attempts *)
  dialed : list SocketAddr           (* the attempts made *) }.

Definition new (h : H) (ds : list (res Error Server)) : Upstream := mkUpstream h None ds [].

Definition set_stream (st : option Server) (u : Upstream) : Upstream :=
  mkUpstream (handler u) st (dials u) (dialed u).

(** A call on the open stream. *)
Definition on_stream {A} (t : Task Server A) : Task Upstream A := fun u =>
  match stream u with
  | Some srv => let '(p, srv') := t srv in (p, set_stream (Some srv') u)
  | None => (Returned Panic, u)
  end.

Definition write_request (request : list Z) : Task Server unit :=
  n ← done_with (try_u16 (len request));
  send_all (be16 n ++ request);;
  record_bytes (len request + 2) 0.

(** The first part of [send]. *)
Definition open : Task Upstream unit := fun u =>
  match stream u with
  | Some _ => (Returned (Ok tt), u)
  | None =>
      let address := get_server_addr (handler u) in
      match dials u with
      | [] => (Waiting, mkUpstream (handler u) None [] (dialed u ++ [address]))
      | Err e :: ds => (Returned (Err e), mkUpstream (handler u) None ds (dialed u ++ [address]))
      | Panic :: ds => (Returned Panic, mkUpstream (handler u) None ds (dialed u ++ [address]))
      | Ok srv :: ds =>
          let '(p, h', srv') := handle_proxy_session (handler u) srv in
          match p with
          | Returned (Ok _) =>
              (Returned (Ok tt), mkUpstream h' (Some srv') ds (dialed u ++ [address]))
          | Returned (Err e) => (Returned (Err e), mkUpstream h' None ds (dialed u ++ [address]))
          | Returned Panic => (Returned Panic, mkUpstream h' None ds (dialed u ++ [address]))
          | Waiting => (Waiting, mkUpstream h' None ds (dialed u ++ [address]))
          end
      end
  end.

Definition send (request : list Z) : Task Upstream unit :=
  open;; on_stream (write_request request).

(** The second part of [exchange]: the answer to [query]. *)
Definition receive (query : Message) (question : Query) : Task Upstream (list Z) :=
  size ← on_stream (recv_exact 2);
  response ← on_stream (recv_exact
    (match size with hi :: lo :: _ => Z.to_nat (of_be16 hi lo) | _ => 0%nat end));
  on_stream (record_bytes 0 (len response + 2));;
  message ← done_with (map_err EString (parse_data_to_dns_message response false));
  _ ← done_with (map_err EString (validate_dns_response message (id query) question));
  mret response.

Definition exchange (request : list Z) : Task Upstream (list Z) :=
  query ← done_with (map_err EString (parse_data_to_dns_message request false));
  question ← done_with (map_err EString (validate_dns_query query));
  send request;;
  receive query question.

(** ** The forwarding task of DNS over TCP *)

(** The request of one turn; none when the client has closed. *)
Definition read_request : Task Server (option (list Z)) :=
  first ← recv_one;
  match first with
  | None => mret None
  | Some hi =>
      lo ← recv_exact 1;
      request ← recv_exact (Z.to_nat (of_be16 hi (default 0 (head lo))));
      mret (Some request)
  end.

(** The two halves of [forward] after the first request: the open stream, the
    channel of requests and whether its sender is gone, the answers put into
    the other channel and whether its receiver is gone. *)
Record Forward := mkForward {
  f_stream : Server;
  f_requests : list (list Z);
  f_closed : bool;
  f_responses : list (list Z);
  f_hung_up : bool }.

Definition on_forward {A} (t : Task Server A) : Task Forward A :=
  on f_stream (fun srv f => mkForward srv (f_requests f) (f_closed f) (f_responses f) (f_hung_up f)) t.

(** One turn of [send]. *)
Definition send_turn : Task Forward bool := fun f =>
  match f_requests f with
  | [] => if f_closed f then (Returned (Ok false), f) else (Waiting, f)
  | r :: rs =>
      (on_forward (write_request r);; mret true)
        (mkForward (f_stream f) rs (f_closed f) (f_responses f) (f_hung_up f))
  end.

(** [responses.send]. *)
Definition push_response (response : list Z) : Task Forward bool := fun f =>
  if f_hung_up f then (Returned (Ok false), f)
  else (Returned (Ok true), mkForward (f_stream f) (f_requests f) (f_closed f)
                              (f_responses f ++ [response]) (f_hung_up f)).

(** One turn of [receive]. *)
Definition receive_turn : Task Forward bool :=
  o ← on_forward read_request;
  match o with
  | None => mret false
  | Some response =>
      on_forward (record_bytes 0 (len response + 2));; push_response response
  end.

Inductive Half := SendHalf | ReceiveHalf.

(** The [select!]: a half that waits keeps its place, the first that ends ends
    the task. *)
Fixpoint forward_loop (schedule : list Half) (f : Forward) : progress (res Error unit) * Forward :=
  match schedule with
  | [] => (Waiting, f)
  | half :: schedule' =>
      match (match half with SendHalf => send_turn | ReceiveHalf => receive_turn end) f with
      | (Returned (Ok true), f') => forward_loop schedule' f'
      | (Returned (Ok false), f') => (Returned (Ok tt), f')
      | (Returned (Err e), f') => (Returned (Err e), f')
      | (Returned Panic, f') => (Returned Panic, f')
      | (Waiting, _) => forward_loop schedule' f
      end
  end.

(** [forward]: the first request opens the stream. *)
Definition forward (schedule : list Half) (requests : list (list Z)) (closed hung_up : bool)
    : Upstream -> progress (res Error unit) * (Upstream + Forward) := fun u =>
  match requests with
  | [] => (if closed then Returned (Ok tt) else Waiting, inl u)
  | first :: rest =>
      match send first u with
      | (Returned (Ok _), u') =>
          match stream u' with
          | Some srv =>
              let '(p, f) := forward_loop schedule (mkForward srv rest closed [] hung_up) in (p, inr f)
          | None => (Returned Panic, inl u')
          end
      | (Returned (Err e), u') => (Returned (Err e), inl u')
      | (Returned Panic, u') => (Returned Panic, inl u')
      | (Waiting, u') => (Waiting, inl u')
      end
  end.

(** ** DNS over TCP, query by query *)

Record Session := mkSession { client : Server; upstream : Upstream }.

Definition on_client {A} (t : Task Server A) : Task Session A :=
  on client (fun c s => mkSession c (upstream s)) t.
Definition on_upstream {A} (t : Task Upstream A) : Task Session A :=
  on upstream (fun u s => mkSession (client s) u) t.

Context `{DO : DnsOverride}.
Variable ipv6 : bool.

(** Where the answer comes from. *)
Definition resolve (request : list Z) : Task Session (list Z) :=
  m ← done_with (matches request);
  if m : bool then done_with (answer request false) else on_upstream (exchange request).

(** The answer the client gets. *)
Definition reply_bytes (response : list Z) : res Error (list Z) :=
  message ← map_err EString (parse_data_to_dns_message response false);
  map_err DnsProto (to_vec (if ipv6 then message else remove_ipv6_entries message)).

Definition write_reply (bytes : list Z) : Task Server unit :=
  n ← done_with (try_u16 (len bytes));
  send_all (be16 n);; send_all bytes.

Definition turn : Task Session bool :=
  request ← on_client read_request;
  match request with
  | None => mret false
  | Some request =>
      response ← resolve request;
      bytes ← done_with (reply_bytes response);
      on_client (write_reply bytes);;
      mret true
  end.

(** [tcp].  Every turn but the last takes at least two bytes of the client. *)
Definition tcp : Task Session unit := fun s =>
  turns turn (S (length (received (reads (client s))))) s.
End upstream.

(** ** Properties *)

Section properties.
Context `{PH : ProxyHandler H} `{L : DnsLibLaws} {D : DnsOverride}.
Implicit Types (u : Upstream (H := H)) (s : Session (H := H)).

(** At most one attempt, to the address of the proxy. *)
Definition attempts u u' : Prop :=
  dialed u' = dialed u \/ dialed u' = dialed u ++ [get_server_addr (handler u)].

(** Opening: at most one attempt, none on an open stream. *)
Lemma open_spec u p u' :
  open u = (p, u') ->
  (is_Some (stream u) -> u' = u) /\ attempts u u' /\ (p = Returned (Ok tt) -> is_Some (stream u')).
Proof.
  unfold open. destruct (stream u) eqn:Es.
  { intros [= <- <-]. split_and!; [done|by left|]. intros _. rewrite Es. by eexists. }
  destruct (dials u) as [|[srv|e|] ds];
    [|destruct (handle_proxy_session (handler u) srv) as [[[[]|] ?] ?] | |];
    intros [= <- <-]; (split_and!; [by intros []|by right|done]).
Qed.

(** Calls that leave the attempts alone and keep an open stream open. *)
Definition quiet {A} (t : Task Upstream A) : Prop := forall u p u',
  t u = (p, u') -> dialed u' = dialed u /\ (is_Some (stream u) -> is_Some (stream u')).

Lemma quiet_bind {A B} (t : Task Upstream A) (k : A -> Task Upstream B) :
  quiet t -> (forall a, quiet (k a)) -> quiet (t ≫= k).
Proof.
  intros Ht Hk u p u'. unfold mbind, Task_bind.
  destruct (t u) as [[[a|e|]|] u1] eqn:E; apply Ht in E as [E1 E2]; try (by intros [= <- <-]).
  intros Hb. apply Hk in Hb as [-> ?]. auto.
Qed.

Lemma quiet_on_stream {A} (t : Task Server A) : quiet (on_stream t).
Proof.
  intros u p u'. unfold on_stream. destruct (stream u) eqn:E; [|by intros [= <- <-]; rewrite E].
  destruct (t s) as [q srv]. intros [= <- <-]. split; [done|]. by eexists.
Qed.

Lemma quiet_done {A} (r : res Error A) : quiet (done_with r).
Proof. by intros u p u' [= <- <-]. Qed.

(** Calls that make at most one attempt, and none on an open stream. *)
Definition touches u u' : Prop :=
  (is_Some (stream u) -> dialed u' = dialed u /\ is_Some (stream u')) /\ attempts u u'.

Definition touching {A} (t : Task Upstream A) : Prop := forall u p u', t u = (p, u') -> touches u u'.

Lemma touching_bind {A B} (t : Task Upstream A) (k : A -> Task Upstream B) :
  touching t -> (forall a, quiet (k a)) -> touching (t ≫= k).
Proof.
  intros Ht Hk u p u'. unfold mbind, Task_bind.
  destruct (t u) as [[[a|e|]|] u1] eqn:E; apply Ht in E as [E1 E2]; try (by intros [= <- <-]).
  intros Hb. apply Hk in Hb as [Hd Hs]. unfold touches, attempts. rewrite Hd. split; [|done].
  intros Hs1. destruct (E1 Hs1). auto.
Qed.

Lemma touching_done {A B} (r : res Error A) (k : A -> Task Upstream B) :
  (forall a, touching (k a)) -> touching (done_with r ≫= k).
Proof.
  intros Hk u p u'. unfold mbind, Task_bind, done_with.
  destruct r as [a|e|]; [apply Hk|..]; intros [= <- <-]; (split; [done|by left]).
Qed.

Lemma receive_quiet query question : quiet (receive query question).
Proof.
  unfold receive.
  repeat (apply quiet_bind; [first [apply quiet_on_stream | apply quiet_done]|intros ?]).
  by intros ? ? ? [= <- <-].
Qed.

Lemma exchange_touching request : touching (exchange request).
Proof.
  unfold exchange, send. do 2 (apply touching_done; intros ?).
  apply touching_bind.
  - apply touching_bind; [|intros _; apply quiet_on_stream].
    intros u p u' Ho. destruct (open_spec u p u' Ho) as (Ho1 & Ho2 & _). split; [|done].
    intros Hs. by rewrite (Ho1 Hs).
  - intros _. apply receive_quiet.
Qed.

(** What an answered exchange has checked. *)
Lemma exchange_ok request u resp u' :
  exchange request u = (Returned (Ok resp), u') ->
  exists query q m, from_vec request = Ok query /\ validate_dns_query query = Ok q /\
    from_vec resp = Ok m /\ validate_dns_response m (id query) q = Ok tt /\ is_Some (stream u').
Proof.
  unfold exchange. intros (query & u1 & Hq & Hk)%task_bind_ok.
  apply task_bind_ok in Hk as (q & u2 & Hv & Hk). apply task_bind_ok in Hk as ([] & u3 & Hsend & Hk).
  assert (is_Some (stream u')) as Hs.
  { apply task_bind_ok in Hsend as ([] & u4 & Hopen & Hw). apply (receive_quiet _ _ _ _ _ Hk).
    apply (quiet_on_stream _ _ _ _ Hw). destruct (open_spec _ _ _ Hopen) as (_ & _ & Ho).
    by apply Ho. }
  unfold receive in Hk. do 3 (apply task_bind_ok in Hk as (? & ? & _ & Hk)).
  apply task_bind_ok in Hk as (m & u4 & Hm & Hk). apply task_bind_ok in Hk as ([] & u5 & Hr & Hk).
  unfold done_with, parse_data_to_dns_message in *. injection Hk as <- <-. exists query, q, m.
  destruct (from_vec request); [|done|done]. destruct (validate_dns_query query); [|done|done].
  destruct (from_vec _); [|done|done]. destruct (validate_dns_response m _ _) as [[]| |]; [|done|done].
  by simplify_eq/=.
Qed.
(** *** The turns of a session *)

Variable ipv6 : bool.

(** [out] is an answer to [req]: the physical resolver's if the request
    matches, else one of the proxy's that was checked against the question. *)
Definition answers_request (req out : list Z) : Prop :=
  exists resp m, from_vec resp = Ok m /\
    to_vec (if ipv6 then m else remove_ipv6_entries m) = Ok out /\
    ((matches req = Ok true /\ answer req false = Ok resp) \/
     (matches req = Ok false /\ exists query q, from_vec req = Ok query /\
        validate_dns_query query = Ok q /\ validate_dns_response m (id query) q = Ok tt)).

Lemma read_request_only_reads : only_reads read_request.
Proof.
  intros c p c'. unfold read_request. unfold mbind at 1, Task_bind at 1.
  destruct (recv_one c) as [[[[hi|]|e|]|] c1] eqn:E1; apply reading_only_reads in E1 as [Hw1 Hr1];
    try (by intros [= <- <-]).
  unfold mbind at 1, Task_bind at 1.
  destruct (recv_exact 1 c1) as [[[lo|e|]|] c2] eqn:E2; apply reading_only_reads in E2 as [Hw2 Hr2];
    try (intros [= <- <-]; by rewrite Hw2, Hr2).
  unfold mbind at 1, Task_bind at 1.
  destruct (recv_exact _ c2) as [[[x|e|]|] c3] eqn:E3; apply reading_only_reads in E3 as [Hw3 Hr3];
    intros [= <- <-]; by rewrite Hw3, Hr3, Hw2, Hr2.
Qed.

Lemma read_request_inv c o c' :
  read_request c = (Returned (Ok o), c') -> Forall is_u8 (received (reads c)) ->
  match o with
  | Some req => received (reads c) = dns_frame req ++ received (reads c')
  | None => received (reads c) = []
  end.
Proof.
  unfold read_request. intros (first & c1 & R1 & Hk)%task_bind_ok Hu8. apply recv_one_inv in R1.
  destruct first as [hi|]; [|by injection Hk as <- <-].
  apply task_bind_ok in Hk as (lo & c2 & R2 & Hk). apply task_bind_ok in Hk as (req & c3 & R3 & Hk).
  injection Hk as <- <-. apply recv_exact_inv in R2 as [R2 Hl]. apply recv_exact_inv in R3 as [R3 Hn].
  destruct lo as [|l [|]]; try done. cbn [head default] in *. rewrite R1, R2, R3 in *.
  cbn [app] in Hu8. apply Forall_cons in Hu8 as [? Hu8]. apply Forall_cons in Hu8 as [? _].
  unfold dns_frame. by rewrite (frame_bytes hi l).
Qed.

(** A request that goes to the proxy: it is not overridden and is a query. *)
Definition proxied (req : list Z) : Prop :=
  matches req = Ok false /\ exists query q, from_vec req = Ok query /\ validate_dns_query query = Ok q.

Lemma exchange_proxied req u p u' :
  matches req = Ok false -> exchange req u = (p, u') -> u' = u \/ proxied req.
Proof.
  unfold exchange, mbind, Task_bind, done_with, parse_data_to_dns_message. intros Hm.
  destruct (from_vec req) as [query|e|] eqn:Eq; cbn [map_err]; [|intros [= <- <-]; by left..].
  destruct (validate_dns_query query) as [q|e|] eqn:Ev; cbn [map_err]; [|intros [= <- <-]; by left..].
  intros _. right. split; [done|]. by exists query, q.
Qed.

Lemma resolve_spec req s p s' :
  resolve req s = (p, s') ->
  client s' = client s /\ touches (upstream s) (upstream s') /\
  (upstream s' = upstream s \/ proxied req) /\ (matches req = Ok true -> upstream s' = upstream s) /\
  (forall resp, p = Returned (Ok resp) ->
     (matches req = Ok true /\ answer req false = Ok resp) \/
     (matches req = Ok false /\ exists query q m, from_vec req = Ok query /\
        validate_dns_query query = Ok q /\ from_vec resp = Ok m /\
        validate_dns_response m (id query) q = Ok tt) /\ is_Some (stream (upstream s'))).
Proof.
  unfold resolve, mbind, Task_bind, done_with.
  assert (forall u, touches u u) as Hrefl by (split; [done|by left]).
  destruct (matches req) as [[]|e|] eqn:Em; try (intros [= <- <-]; split_and!; first [done|by left]).
  - intros [= <- <-]. split_and!; try done; [by left|]. intros resp [= ->]. by left.
  - unfold on_upstream, on. destruct (exchange req (upstream s)) as [q u] eqn:E.
    intros [= <- <-]. split_and!; [done|by eapply exchange_touching| |done|].
    { cbn [upstream]. by eapply exchange_proxied. }
    intros resp ->. right. apply exchange_ok in E as (query & q' & m & ? & ? & ? & ? & ?).
    split; [|done]. split; [done|]. by exists query, q', m.
Qed.

Lemma write_reply_spec bytes c p c' :
  write_reply bytes c = (p, c') ->
  reads c' = reads c /\
  ((p = Returned (Ok tt) /\ written c' = written c ++ dns_frame bytes) \/
   (p <> Returned (Ok tt) /\ exists tail, written c' = written c ++ tail /\ (length tail <= 2)%nat)).
Proof.
  unfold write_reply, mbind, Task_bind, done_with, try_u16.
  assert (exists tail, written c = written c ++ tail /\ (length tail <= 2)%nat) as Hnil
    by (exists []; rewrite app_nil_r; split; [done|simpl; lia]).
  split_if E; [|intros [= <- <-]; split; [done|]; by right].
  destruct (send_all (be16 (len bytes)) c) as [r1 c1] eqn:E1.
  apply send_all_inv in E1 as [Hr1 [[-> Hw1]|[Hn1 Hw1]]].
  - destruct (send_all bytes c1) as [r2 c2] eqn:E2. intros [= <- <-].
    apply send_all_inv in E2 as [Hr2 [[-> Hw2]|[Hn2 Hw2]]]; (split; [by rewrite Hr2|]).
    + left. split; [done|]. by rewrite Hw2, Hw1, <- app_assoc.
    + right. split; [done|]. exists (be16 (len bytes)). rewrite Hw2. by split.
  - destruct r1 as [[[]|e|]|]; try done; intros [= <- <-]; (split; [done|]); right; by rewrite Hw1.
Qed.

(** What a session has done when it stops, for whatever reason: [reqs] are
    answered, [last] is a request that is not. *)
Definition session_spec s (p : progress (res Error unit)) s' : Prop :=
  exists reqs last outs tail, Forall2 answers_request reqs outs /\
    written (client s') = written (client s) ++ concat (dns_frame <$> outs) ++ tail /\
    (length last <= 1)%nat /\ (length tail <= 2)%nat /\
    concat (dns_frame <$> reqs ++ last) `prefix_of` received (reads (client s)) /\
    (p = Returned (Ok tt) -> last = [] /\ tail = [] /\ received (reads (client s)) = concat (dns_frame <$> reqs)) /\
    touches (upstream s) (upstream s') /\
    (upstream s' = upstream s \/ Exists proxied (reqs ++ last)).

Lemma touches_refl u : touches u u.
Proof. split; [done|by left]. Qed.

Lemma touches_trans u u1 u2 :
  touches u u1 -> is_Some (stream u1) \/ u1 = u -> touches u1 u2 -> touches u u2.
Proof.
  intros [A1 A2] Hor [B1 B2]. destruct Hor as [Hs| ->]; [|done]. destruct (B1 Hs) as [Hd _].
  split; [|unfold attempts in *; by rewrite Hd]. intros Hu. destruct (A1 Hu) as [<- Hu1]. by apply B1.
Qed.

Lemma reply_answers req resp out (st : Prop) :
  reply_bytes ipv6 resp = Ok out ->
  (matches req = Ok true /\ answer req false = Ok resp) \/
  (matches req = Ok false /\ exists query q m, from_vec req = Ok query /\
     validate_dns_query query = Ok q /\ from_vec resp = Ok m /\
     validate_dns_response m (id query) q = Ok tt) /\ st ->
  answers_request req out.
Proof.
  unfold reply_bytes, parse_data_to_dns_message. destruct (from_vec resp) as [m|e|] eqn:Em; try done.
  cbn [map_err mbind res_bind]. destruct (to_vec _) as [bs|e|] eqn:Et; try done. intros [= ->] Hor.
  exists resp, m. split_and!; [done|done|].
  destruct Hor as [Hyes|[(Hno & query & q & m' & Hq & Hv & Hm & Hr) _]]; [by left|right].
  injection Hm as <-. split; [done|]. by exists query, q.
Qed.

(** One turn. *)
Lemma turn_spec s p s' :
  turn ipv6 s = (p, s') -> Forall is_u8 (received (reads (client s))) ->
  touches (upstream s) (upstream s') /\
  (upstream s' = upstream s \/ exists req rest, received (reads (client s)) = dns_frame req ++ rest /\ proxied req) /\
  match p with
  | Returned (Ok true) => exists req out, answers_request req out /\ (upstream s' = upstream s \/ proxied req) /\
      received (reads (client s)) = dns_frame req ++ received (reads (client s')) /\
      written (client s') = written (client s) ++ dns_frame out /\
      (is_Some (stream (upstream s')) \/ upstream s' = upstream s)
  | Returned (Ok false) => received (reads (client s)) = [] /\ written (client s') = written (client s)
  | _ => exists tail, written (client s') = written (client s) ++ tail /\ (length tail <= 2)%nat
  end.
Proof.
  intros Ht Hu8. revert Ht. unfold turn. unfold mbind at 1, Task_bind at 1, on_client, on.
  destruct (read_request (client s)) as [r c] eqn:Er.
  destruct (read_request_only_reads _ _ _ Er) as [Hw _].
  assert (written c = written (client s) ++ []) as Hw' by by rewrite app_nil_r.
  pose proof (touches_refl (upstream s)) as Hrefl.
  destruct r as [[[req|]|e|]|]; cbn [client upstream];
    try (intros [= <- <-]; split_and!; [done|by left|]; exists []; split; [done|simpl; lia]).
  2:{ apply read_request_inv in Er; [|done]. intros [= <- <-]. split_and!; [done|by left|done|done]. }
  apply read_request_inv in Er; [|done].
  unfold mbind at 1, Task_bind at 1. destruct (resolve req _) as [r1 s1] eqn:Eres.
  apply resolve_spec in Eres as (Hc & Hto & Hpx & Hm & Hok). cbn [client upstream] in *.
  assert (upstream s1 = upstream s \/ exists req rest, received (reads (client s)) = dns_frame req ++ rest /\ proxied req) as Hup
    by (destruct Hpx as [?|?]; [by left|right; eauto]).
  assert (written (client s1) = written (client s) ++ []) as Hw1 by by rewrite Hc.
  destruct r1 as [[resp|e|]|];
    try (intros [= <- <-]; split_and!; try done; exists []; split; [done|simpl; lia]).
  specialize (Hok _ eq_refl). unfold mbind at 1, Task_bind at 1, done_with.
  destruct (reply_bytes ipv6 resp) as [out|e|] eqn:Eout;
    try (intros [= <- <-]; split_and!; try done; exists []; split; [done|simpl; lia]).
  unfold mbind, Task_bind. destruct (write_reply out (client s1)) as [r2 c2] eqn:Ew.
  apply write_reply_spec in Ew as [Hrd [[-> Hw2]|(Hn & tail & Hw2 & Htail)]].
  - intros [= <- <-]. cbn [client upstream]. split_and!; try done. exists req, out.
    rewrite Hw2, Hrd, Hc, Hw, Er. split_and!; try done.
    + by eapply reply_answers.
    + destruct Hok as [[Hyes _]|[_ ?]]; [right; by apply Hm|by left].
  - destruct r2 as [[[]|e|]|]; try done; intros [= <- <-]; cbn [client upstream];
      (split_and!; try done); exists tail; by rewrite Hw2, Hc, Hw.
Qed.

Lemma turns_spec fuel s p s' :
  turns (turn ipv6) fuel s = (p, s') -> Forall is_u8 (received (reads (client s))) ->
  session_spec s p s'.
Proof.
  revert s. induction fuel as [|fuel IH]; intros s Ht Hu8.
  { injection Ht as <- <-. exists [], [], [], []. cbn. rewrite app_nil_r.
    split_and!; first [done | by constructor | apply prefix_nil | apply touches_refl | simpl; lia | by left]. }
  cbn [turns] in Ht. revert Ht. unfold mbind, Task_bind.
  destruct (turn ipv6 s) as [r s1] eqn:Et. apply turn_spec in Et as (Hto & Hup & Hr); [|done].
  assert (forall tail, written (client s1) = written (client s) ++ tail -> (length tail <= 2)%nat ->
    forall q, q <> Returned (Ok tt) -> session_spec s q s1) as Hstop.
  { intros tail Hw Hl q Hq. destruct Hup as [Hup|(req & rest & Hrd & Hpx)].
    - exists [], [], [], tail. cbn. split_and!; first [done | by constructor | apply prefix_nil | lia | by left].
    - exists [], [req], [], tail. cbn. rewrite app_nil_r, Hrd.
      split_and!; first [done | by constructor | by apply prefix_app_r | lia | right; by constructor]. }
  destruct r as [[[]|e|]|].
  - destruct Hr as (req & out & Ha & Hpx & Hrd & Hw & Hst). intros Ht.
    apply IH in Ht as (reqs & last & outs & tail & Has & Hw' & Hlast & Hl & Hp & Hok & Hto' & Hup');
      [|by rewrite Hrd in Hu8; apply Forall_app in Hu8 as [_ ?]].
    exists (req :: reqs), last, (out :: outs), tail. cbn [fmap list_fmap concat app].
    split_and!; [by constructor|by rewrite Hw', Hw, <- !app_assoc|done|done| | | |].
    + rewrite Hrd. by apply prefix_app.
    + intros Hp'. destruct (Hok Hp') as (-> & -> & Hrd'). by rewrite Hrd, Hrd'.
    + by eapply touches_trans.
    + destruct Hup' as [Hup'|?]; [|right; by apply Exists_cons_tl].
      destruct Hpx as [Hpx|?]; [left; by rewrite Hup'|right; by apply Exists_cons_hd].
  - destruct Hr as [Hrd Hw]. intros [= <- <-].
    assert (Hup0 : upstream s1 = upstream s).
    { destruct Hup as [?|(req & rest & Hx & _)]; [done|]. by rewrite Hrd in Hx. }
    exists [], [], [], []. cbn. rewrite Hrd, Hw, app_nil_r.
    split_and!; first [done | by constructor | simpl; lia | by left].
  - destruct Hr as (tail & Hw & Hl). intros [= <- <-]. by eapply Hstop.
  - destruct Hr as (tail & Hw & Hl). intros [= <- <-]. by eapply Hstop.
  - destruct Hr as (tail & Hw & Hl). intros [= <- <-]. by eapply Hstop.
Qed.

(** *** The forwarding task *)

Lemma write_request_spec r c p c' :
  write_request r c = (p, c') ->
  reads c' = reads c /\
  ((p = Returned (Ok tt) /\ written c' = written c ++ dns_frame r) \/
   (p <> Returned (Ok tt) /\ written c' = written c)).
Proof.
  unfold write_request, mbind, Task_bind, done_with, try_u16.
  split_if E; [|intros [= <- <-]; split; [done|]; by right].
  destruct (send_all _ c) as [q c1] eqn:Es. apply send_all_inv in Es as [Hr [[-> Hw]|[Hn Hw]]].
  - intros [= <- <-]. split; [done|]. by left.
  - destruct q as [[[]|e|]|]; try done; intros [= <- <-]; (split; [done|]); by right.
Qed.

(** What the task has done: [sent] went out as whole frames, [lost] is a
    request whose write failed, [outs] are the frames read. *)
Definition forwarded (f f' : Forward) (p : progress (res Error unit)) : Prop :=
  exists sent lost outs, f_requests f = sent ++ lost ++ f_requests f' /\
    written (f_stream f') = written (f_stream f) ++ concat (dns_frame <$> sent) /\
    f_responses f' = f_responses f ++ outs /\
    concat (dns_frame <$> outs) `prefix_of` received (reads (f_stream f)) /\
    (length lost <= 1)%nat /\ (p = Waiting -> lost = []).

Lemma send_turn_spec f p f' :
  send_turn f = (p, f') ->
  reads (f_stream f') = reads (f_stream f) /\ f_responses f' = f_responses f /\
  exists sent lost, f_requests f = sent ++ lost ++ f_requests f' /\ (length lost <= 1)%nat /\
    written (f_stream f') = written (f_stream f) ++ concat (dns_frame <$> sent) /\
    (p = Returned (Ok true) -> lost = []).
Proof.
  unfold send_turn. destruct (f_requests f) as [|r rs] eqn:Er.
  { destruct (f_closed f); intros [= <- <-]; (split_and!; [done|done|]); exists [], [];
      rewrite app_nil_r; (split_and!; [done|simpl; lia|done|done]). }
  unfold mbind, Task_bind, on_forward, on. cbn [f_stream f_requests f_closed f_responses f_hung_up].
  destruct (write_request r (f_stream f)) as [q c] eqn:Ew.
  apply write_request_spec in Ew as [Hr [[-> Hw]|[Hn Hw]]].
  - intros [= <- <-]. split_and!; [done|done|]. exists [r], []. cbn. rewrite app_nil_r.
    split_and!; [done|lia|done|done].
  - destruct q as [[[]|e|]|]; try done; intros [= <- <-]; (split_and!; [done|done|]);
      exists [], [r]; cbn; rewrite app_nil_r; (split_and!; [done|lia|done|done]).
Qed.

Lemma receive_turn_spec f p f' :
  receive_turn f = (p, f') -> Forall is_u8 (received (reads (f_stream f))) ->
  written (f_stream f') = written (f_stream f) /\ f_requests f' = f_requests f /\
  ((f_responses f' = f_responses f /\ p <> Returned (Ok true)) \/
   exists out, p = Returned (Ok true) /\ f_responses f' = f_responses f ++ [out] /\
     received (reads (f_stream f)) = dns_frame out ++ received (reads (f_stream f'))).
Proof.
  intros Ht Hu8. revert Ht. unfold receive_turn, on_forward, on, mbind, Task_bind.
  destruct (read_request (f_stream f)) as [q c] eqn:Er.
  destruct (read_request_only_reads _ _ _ Er) as [Hw _].
  destruct q as [[[out|]|e|]|]; try (intros [= <- <-]; split_and!; [done|done|by left]).
  apply read_request_inv in Er; [|done].
  unfold record_bytes, push_response. cbn. destruct (f_hung_up f); intros [= <- <-].
  - split_and!; [done|done|by left].
  - split_and!; [done|done|]. right. by exists out.
Qed.

Lemma forward_loop_spec schedule f p f' :
  forward_loop schedule f = (p, f') -> Forall is_u8 (received (reads (f_stream f))) ->
  forwarded f f' p.
Proof.
  revert f. induction schedule as [|half schedule IH]; intros f Hl Hu8.
  { injection Hl as <- <-. exists [], [], []. rewrite !app_nil_r.
    split_and!; first [done | apply prefix_nil | simpl; lia]. }
  cbn [forward_loop] in Hl. destruct half.
  - destruct (send_turn f) as [q f1] eqn:Es.
    apply send_turn_spec in Es as (Hrd & Hres & sent & lost & Hreq & Hlost & Hw & Hok).
    destruct q as [[[]|e|]|]; try (by apply IH).
    + rewrite (Hok eq_refl) in Hreq. clear Hok Hlost.
      apply IH in Hl as (sent' & lost' & outs & Hreq' & Hw' & Hres' & Hp & Hlost' & Hwait);
        [|by rewrite Hrd].
      exists (sent ++ sent'), lost', outs. rewrite fmap_app, concat_app, <- app_assoc, <- Hrd.
      split_and!; try done; [by rewrite Hreq, Hreq'|by rewrite Hw', Hw, <- app_assoc|by rewrite Hres', Hres].
    + injection Hl as <- <-. exists sent, lost, []. rewrite app_nil_r.
      split_and!; first [done | apply prefix_nil].
    + injection Hl as <- <-. exists sent, lost, []. rewrite app_nil_r.
      split_and!; first [done | apply prefix_nil].
    + injection Hl as <- <-. exists sent, lost, []. rewrite app_nil_r.
      split_and!; first [done | apply prefix_nil].
  - destruct (receive_turn f) as [q f1] eqn:Er. apply receive_turn_spec in Er as (Hw & Hreq & Hor); [|done].
    assert (forall q', forwarded f f q') as Hsame.
    { intros q'. exists [], [], []. rewrite !app_nil_r. split_and!; first [done | apply prefix_nil | simpl; lia]. }
    destruct Hor as [[Hres Hn]|(out & -> & Hres & Hrd)].
    + assert (forwarded f f1 p) as Hf1.
      { exists [], [], []. rewrite !app_nil_r. rewrite Hreq.
        split_and!; first [done | apply prefix_nil | simpl; lia]. }
      destruct q as [[[]|e|]|]; try done; try (injection Hl as <- <-; done). by apply IH.
    + apply IH in Hl as (sent & lost & outs & Hreq' & Hw' & Hres' & Hp & Hlost & Hwait);
        [|by rewrite Hrd in Hu8; apply Forall_app in Hu8 as [_ ?]].
      exists sent, lost, (out :: outs). cbn [fmap list_fmap concat]. rewrite Hrd.
      split_and!; try done; [by rewrite <- Hreq|by rewrite Hw', Hw|by rewrite Hres', Hres, <- app_assoc|].
      by apply prefix_app.
Qed.

(** *** Sessions that complete *)

Lemma read_request_app req rest c :
  len req <= u16_max -> received (reads c) = dns_frame req ++ rest ->
  exists rs, read_request c = (Returned (Ok (Some req)), next_reads rs c) /\ received rs = rest /\
    (finished (reads c) -> finished rs).
Proof.
  intros Hl Hr. unfold dns_frame, be16 in Hr. cbn [app] in Hr.
  destruct (recv_one_app _ _ _ Hr) as (rs1 & E1 & R1 & F1).
  destruct (recv_exact_app [len req mod 256] (req ++ rest) (next_reads rs1 c) R1) as (rs2 & E2 & R2 & F2).
  destruct (recv_exact_app req rest (next_reads rs2 c) R2) as (rs3 & E3 & R3 & F3).
  exists rs3. split_and!; [|done|auto]. unfold read_request, mbind, Task_bind.
  rewrite E1. cbn [length] in E2. rewrite E2. cbn [head default].
  rewrite of_be16_be16 by (unfold is_u16, u16_max, len in *; lia).
  replace (Z.to_nat (len req)) with (length req) by (unfold len; lia).
  change (next_reads rs2 (next_reads rs1 c)) with (next_reads rs2 c). by rewrite E3.
Qed.

Lemma write_reply_ok bytes c :
  len bytes <= u16_max -> write_results c = [] ->
  write_reply bytes c = (Returned (Ok tt), mkServer (reads c) [] (written c ++ dns_frame bytes) (traffic c)).
Proof.
  intros Hl Hw. unfold write_reply, try_u16, mbind, Task_bind, done_with.
  rewrite (proj2 (Z.leb_le _ _) Hl), send_all_ok by done. rewrite send_all_ok by done.
  cbn. by rewrite <- app_assoc.
Qed.

Lemma frames_length (ws : list (list Z)) : (length ws <= length (concat (dns_frame <$> ws)))%nat.
Proof.
  induction ws as [|w ws IH]; [done|]. rewrite fmap_cons. cbn [concat length].
  rewrite length_app. assert (length (dns_frame w) = S (S (length w))) as -> by done. lia.
Qed.

(** [out] is the answer of the physical resolver to [req]. *)
Definition physical_answer (req out : list Z) : Prop :=
  matches req = Ok true /\ len req <= u16_max /\ len out <= u16_max /\
  exists resp, answer req false = Ok resp /\ reply_bytes ipv6 resp = Ok out.

Lemma turns_physical reqs outs fuel s :
  Forall2 physical_answer reqs outs -> received (reads (client s)) = concat (dns_frame <$> reqs) ->
  finished (reads (client s)) -> write_results (client s) = [] -> (length reqs < fuel)%nat ->
  exists s', turns (turn ipv6) fuel s = (Returned (Ok tt), s') /\
    written (client s') = written (client s) ++ concat (dns_frame <$> outs) /\
    upstream s' = upstream s.
Proof.
  intros Hall. revert fuel s. induction Hall as [|req out reqs outs Ha Hall IH];
    intros [|fuel] s Hr Hf Hw Hfuel; try (simpl in Hfuel; lia); cbn [fmap list_fmap concat] in *.
  - destruct (recv_one_end _ Hf Hr) as [rs E]. eexists. split.
    + cbn [turns]. unfold turn, on_client, on, read_request, mbind, Task_bind. by rewrite E.
    + by rewrite app_nil_r.
  - destruct Ha as (Hm & Hlr & Hlo & resp & Hans & Hrep).
    destruct (read_request_app req _ (client s) Hlr Hr) as (rs & E & Hrest & Hfin).
    destruct (IH fuel (mkSession (mkServer rs [] (written (client s) ++ dns_frame out)
      (traffic (client s))) (upstream s))) as (s' & Et & Hw' & Hu');
      [done|by apply Hfin|done|simpl in Hfuel; lia|].
    exists s'. rewrite Hw', Hu'. cbn [client upstream written]. rewrite <- app_assoc.
    split_and!; [|done|done]. rewrite <- Et. cbn [turns].
    assert (turn ipv6 s = (Returned (Ok true), mkSession (mkServer rs [] (written (client s) ++ dns_frame out)
      (traffic (client s))) (upstream s))) as Hturn.
    { unfold turn, resolve, on_client, on, mbind, Task_bind, done_with. rewrite E. cbn [client upstream].
      rewrite Hm, Hans. cbn [client upstream]. rewrite Hrep.
      by rewrite write_reply_ok. }
    unfold mbind, Task_bind. by rewrite Hturn.
Qed.

(** C32. Every answer of a routed session belongs to its request: the client
    receives the answers one by one in the order of its requests, each from the
    physical resolver or checked against its question.  The proxy is dialled at
    most once, at its own address, and only if one of the requests taken from
    the client, answered or the last one, is a well-formed query that is not
    overridden.  A session that ends well has answered every request, and it
    does end well when the physical resolver answers them all.  The verdict of
    the override on a request is a function of the request. *)
Theorem dns_routed_in_order h ds c p s' :
  Forall is_u8 (received (reads c)) ->
  tcp ipv6 (mkSession c (new h ds)) = (p, s') ->
  (exists reqs last outs tail, Forall2 answers_request reqs outs /\
    written (client s') = written c ++ concat (dns_frame <$> outs) ++ tail /\
    (length last <= 1)%nat /\ (length tail <= 2)%nat /\
    concat (dns_frame <$> reqs ++ last) `prefix_of` received (reads c) /\
    (p = Returned (Ok tt) -> last = [] /\ tail = [] /\ received (reads c) = concat (dns_frame <$> reqs)) /\
    (dialed (upstream s') = [] \/
     dialed (upstream s') = [get_server_addr h] /\ Exists proxied (reqs ++ last))) /\
  (forall reqs outs, Forall2 physical_answer reqs outs ->
     received (reads c) = concat (dns_frame <$> reqs) -> finished (reads c) -> write_results c = [] ->
     p = Returned (Ok tt) /\ written (client s') = written c ++ concat (dns_frame <$> outs)).
Proof.
  intros Hu8 Ht.
  destruct (turns_spec _ _ _ _ Ht Hu8) as (reqs & last & outs & tail & Ha & Hw & Hlast & Hl & Hp & Hok & [_ Hto] & Hup).
  split.
  { exists reqs, last, outs, tail. split_and!; try done.
    destruct Hup as [->|?]; [by left|]. destruct Hto as [->| ->]; [by left|by right]. }
  intros reqs' outs' Hall Hr Hf Hwr.
  destruct (turns_physical reqs' outs' (S (length (received (reads c)))) (mkSession c (new h ds)) Hall Hr Hf Hwr)
    as (s2 & Et & Hw2 & _).
  { cbn [client]. rewrite Hr. pose proof (frames_length reqs'). lia. }
  unfold tcp in Ht. cbn [client] in Ht. rewrite Et in Ht. by injection Ht as <- <-.
Qed.
End properties.

(** ** A concrete session *)

Section examples.
Import DnsExample NoProxy.

(** Question 1 goes to the physical resolver, question 2 to the proxy. *)
Definition response_bytes (i : Z) (name : string) : list Z :=
  be16 i ++ [128] ++ replicate 9 0 ++ write_question (mkQuery name TypeA ClassIN).

Definition example_override : DnsOverride := {|
  active := true;
  matches := fun req => Ok (bool_decide (take 2 req = be16 1));
  answer := fun _ _ => Ok (response_bytes 1 "a.org");
|}.

Definition example_requests : list Z :=
  dns_frame (query_bytes 1 "a.org" TypeA) ++ dns_frame (query_bytes 2 "b.org" TypeA).

Definition example_client : Server :=
  mkServer [Ok (take 5 example_requests); Ok (drop 5 example_requests); Ok []] [] [] [].

Definition example_upstream : Server :=
  mkServer [Ok (dns_frame (response_bytes 2 "B.org"))] [] [] [].

Definition example_handler : NoProxyHandler :=
  mkNoProxy (mkInfo (mkSA (ipv4 10 0 0 2) 40000) (mkSA (ipv4 8 8 8 8) 53) Tcp 0) None [] [] false.

Definition example_run : progress (res Error unit) * Session (H := NoProxyHandler) :=
  tcp (DO := example_override) true (mkSession example_client (new example_handler [Ok example_upstream])).

Lemma example_run_result :
  example_run.1 = Returned (Ok tt) /\
  written (client example_run.2) =
    dns_frame (response_bytes 1 "a.org") ++ dns_frame (response_bytes 2 "B.org").
Proof. split; reflexivity. Qed.

Lemma dns_routed_in_order_witness :
  exists reqs outs, Forall2 (answers_request (D := example_override) true) reqs outs /\
    written (client example_run.2) = concat (dns_frame <$> outs) /\
    received (reads example_client) = concat (dns_frame <$> reqs) /\
    Exists (proxied (D := example_override)) reqs.
Proof.
  destruct (dns_routed_in_order (D := example_override) true example_handler [Ok example_upstream]
    example_client example_run.1 example_run.2) as ((reqs & last & outs & tail & Ha & Hw & _ & _ & _ & Hok & Hd) & _).
  - by apply is_u8b_spec.
  - unfold example_run. by destruct (tcp _ _).
  - destruct (Hok (proj1 example_run_result)) as (-> & -> & Hr). exists reqs, outs. rewrite !app_nil_r in *.
    refine (conj Ha (conj Hw (conj Hr _))). destruct Hd as [Hd|[_ Hd]]; [vm_compute in Hd; discriminate Hd|exact Hd].
Defined.
End examples.
End DnsRouting.
