(* ===== verification/DnsTransactions.v ===== *)
(** * Outstanding DNS queries (src/src/dns_transactions.rs)

    [Transactions] is the table of queries in flight on one DNS-over-TCP
    connection, by upstream identifier.  The [while] loop of [prepare] that
    looks for a free identifier takes fuel; [next_free_found] shows that one
    more than the size of the table is enough. *)

From S2P Require Import Prelude Net Dns.

Module DnsTransactions.
Import Dns.

Definition MAX_OUTSTANDING_DNS_QUERIES : nat := 256.

Section transactions.
Context `{DnsLib}.

Record Pending := mkPending { request : list Z; question : Query; client_id : Z }.

(** [HashMap<u16, Pending>]. *)
Abbreviation Transactions := (gmap Z Pending).

(** The identifier search: [None] is out of fuel. *)
Fixpoint next_free (fuel : nat) (pending : Transactions) (upstream_id : Z) : option Z :=
  match fuel with
  | O => None
  | S fuel' =>
      match pending !! upstream_id with
      | Some _ => next_free fuel' pending (wrap16 (upstream_id + 1))
      | None => Some upstream_id
      end
  end.

(** Whether the same datagram is already in flight. *)
Definition in_flight (req : list Z) (pending : Transactions) : bool :=
  existsb (fun p => bool_decide (request p.2 = req)) (map_to_list pending).

(** [prepare]; the copy into [forwarded[..2]] panics on a shorter datagram. *)
Definition prepare (req : list Z) : M Transactions string (option (list Z)) := fun pending =>
  match parse_data_to_dns_message req false with
  | Err e => (Err e, pending)
  | Panic => (Panic, pending)
  | Ok query =>
      match validate_dns_query query with
      | Err e => (Err e, pending)
      | Panic => (Panic, pending)
      | Ok q =>
          if in_flight req pending then (Ok None, pending)
          else if (MAX_OUTSTANDING_DNS_QUERIES <=? size pending)%nat then
            (Err "DNS-over-TCP outstanding query limit reached ({})", pending)
          else
            match next_free (S (size pending)) pending (id query) with
            | None => (Panic, pending)
            | Some upstream_id =>
                if (length req <? 2)%nat then (Panic, pending)
                else (Ok (Some (be16 upstream_id ++ drop 2 req)),
                      <[upstream_id := mkPending req q (id query)]> pending)
            end
      end
  end.

Definition set_id (i : Z) (m : Message) : Message :=
  mkMessage i (message_type m) (op_code m) (authoritative m) (truncation m) (recursion_desired m)
    (recursion_available m) (authentic_data m) (checking_disabled m) (response_code m) (queries m)
    (answers m) (authorities m) (additionals m) (signature m) (edns m).

(** [complete]: the response with the client's identifier. *)
Definition complete (response : Message) : M Transactions string Message := fun pending =>
  match pending !! id response with
  | None => (Err "unsolicited DNS-over-TCP response ID {}", pending)
  | Some p =>
      match validate_dns_response response (id response) (question p) with
      | Err e => (Err e, pending)
      | Panic => (Panic, pending)
      | Ok _ => (Ok (set_id (client_id p) response), delete (id response) pending)
      end
  end.
End transactions.

Section properties.
Context `{L : DnsLibLaws}.

(** ** Free identifiers *)

Definition id_at (i : Z) (j : nat) : Z := (i + Z.of_nat j) mod 65536.

Lemma id_at_inj i j k :
  Z.of_nat j < 65536 -> Z.of_nat k < 65536 -> id_at i j = id_at i k -> j = k.
Proof.
  unfold id_at. intros Hj Hk He.
  pose proof (Z.div_mod (i + Z.of_nat j) 65536). pose proof (Z.div_mod (i + Z.of_nat k) 65536). lia.
Qed.

(** A failed search has met as many used identifiers as it had fuel. *)
Lemma next_free_none fuel (pending : gmap Z Pending) i :
  next_free fuel pending i = None -> 0 <= i < 65536 ->
  forall j, (j < fuel)%nat -> is_Some (pending !! id_at i j).
Proof.
  revert i. induction fuel as [|fuel IH]; intros i; simpl; [lia|].
  destruct (pending !! i) as [p|] eqn:Hp; [|done]. intros Hn Hi [|j] Hj.
  - unfold id_at. rewrite Z.add_0_r, Z.mod_small by lia. rewrite Hp. done.
  - pose proof (IH (wrap16 (i + 1)) Hn) as Hj'.
    assert (0 <= wrap16 (i + 1) < 65536) as Hw by (unfold wrap16; apply Z.mod_pos_bound; lia).
    specialize (Hj' Hw j). unfold id_at, wrap16 in *. rewrite Zplus_mod_idemp_l in Hj'.
    replace (i + Z.of_nat (S j)) with (i + 1 + Z.of_nat j) by lia. apply Hj'. lia.
Qed.

Lemma next_free_some fuel (pending : gmap Z Pending) i x :
  next_free fuel pending i = Some x -> 0 <= i < 65536 -> pending !! x = None /\ 0 <= x < 65536.
Proof.
  revert i. induction fuel as [|fuel IH]; intros i; simpl; [done|].
  destruct (pending !! i) eqn:Hp.
  - intros Hn _. apply (IH _ Hn). unfold wrap16. apply Z.mod_pos_bound. lia.
  - intros [= <-] ?. done.
Qed.

(** The search succeeds within one more turn than there are entries. *)
Lemma next_free_found (pending : gmap Z Pending) i :
  Z.of_nat (size pending) < 65536 -> 0 <= i < 65536 ->
  exists x, next_free (S (size pending)) pending i = Some x /\ pending !! x = None /\ 0 <= x < 65536.
Proof.
  intros Hs Hi. destruct (next_free _ pending i) as [x|] eqn:Hn.
  { exists x. split; [done|]. by eapply next_free_some. }
  exfalso. pose proof (next_free_none _ _ _ Hn Hi) as Hall.
  set (ids := id_at i <$> seq 0 (S (size pending))).
  assert (NoDup ids) as Hnd.
  { apply NoDup_fmap_2_strong; [|apply NoDup_seq].
    intros j k [_ Hj]%elem_of_seq [_ Hk]%elem_of_seq. apply id_at_inj; lia. }
  assert ((list_to_set ids : gset Z) ⊆ dom pending) as Hsub.
  { apply elem_of_subseteq. intros x. rewrite elem_of_list_to_set. unfold ids.
    intros (j & -> & [_ Hj]%elem_of_seq)%list_elem_of_fmap. apply elem_of_dom. apply Hall. lia. }
  apply subseteq_size in Hsub. rewrite size_list_to_set, size_dom in Hsub by done.
  unfold ids in Hsub. rewrite length_fmap, length_seq in Hsub. lia.
Qed.

(** ** Invariant *)

(** Every entry was made from a well-formed query; no datagram is in flight
    twice; the table is bounded. *)
Definition tx_wf (pending : gmap Z Pending) : Prop :=
  (size pending <= MAX_OUTSTANDING_DNS_QUERIES)%nat /\
  (forall i p, pending !! i = Some p -> 0 <= i < 65536 /\
     exists m, from_vec (request p) = Ok m /\ validate_dns_query m = Ok (question p) /\ client_id p = id m) /\
  (forall i j p q, pending !! i = Some p -> pending !! j = Some q -> request p = request q -> i = j).

Lemma in_flight_spec req (pending : gmap Z Pending) :
  in_flight req pending = true <-> exists i p, pending !! i = Some p /\ request p = req.
Proof.
  unfold in_flight. rewrite existsb_exists. split.
  - intros ([i p] & Hin & Hb). b2p. exists i, p. split; [|done].
    apply elem_of_map_to_list. by apply list_elem_of_In.
  - intros (i & p & Hp & Hr). exists (i, p). split; [|by apply bool_decide_eq_true_2].
    apply list_elem_of_In. by apply elem_of_map_to_list.
Qed.

Lemma tx_wf_empty : tx_wf ∅.
Proof. split_and!; [by rewrite map_size_empty; unfold MAX_OUTSTANDING_DNS_QUERIES; lia|done|done]. Qed.

Lemma validate_query_total (m : Message) : validate_dns_query m <> Panic.
Proof. unfold validate_dns_query. repeat split_match; done. Qed.

Lemma validate_response_total (m : Message) i q : validate_dns_response m i q <> Panic.
Proof. unfold validate_dns_response. repeat split_match; done. Qed.

(** [prepare] by its cases. *)
Lemma prepare_cases req (pending : gmap Z Pending) r pending' :
  tx_wf pending -> prepare req pending = (r, pending') ->
  match r with
  | Panic => False
  | Err _ => pending' = pending
  | Ok None => pending' = pending /\ in_flight req pending = true
  | Ok (Some fwd) =>
      exists i m q, from_vec req = Ok m /\ validate_dns_query m = Ok q /\
        in_flight req pending = false /\ (size pending < MAX_OUTSTANDING_DNS_QUERIES)%nat /\
        pending !! i = None /\ 0 <= i < 65536 /\
        fwd = be16 i ++ drop 2 req /\ pending' = <[i := mkPending req q (id m)]> pending
  end.
Proof.
  intros (Hsz & _ & _). unfold prepare. simpl parse_data_to_dns_message.
  pose proof (from_vec_total req). destruct (from_vec req) as [m|e|] eqn:Hm; [|by intros [= <- <-]|done].
  pose proof (validate_query_total m).
  destruct (validate_dns_query m) as [q|e|] eqn:Hq; [|by intros [= <- <-]|done].
  destruct (in_flight req pending) eqn:Hfl; [by intros [= <- <-]|].
  destruct (_ <=? _)%nat eqn:Hle; [by intros [= <- <-]|]. b2p.
  destruct (from_vec_header _ _ Hm) as (H12 & Hid & _). unfold u16_max in Hid.
  destruct (next_free_found pending (id m)) as (i & -> & Hi & Hrange);
    [unfold MAX_OUTSTANDING_DNS_QUERIES in *; lia|lia|].
  rewrite (proj2 (Nat.ltb_ge _ _)) by lia. intros [= <- <-].
  exists i, m, q. split_and!; (done || lia).
Qed.

Lemma prepare_wf req (pending : gmap Z Pending) r pending' :
  tx_wf pending -> prepare req pending = (r, pending') -> tx_wf pending'.
Proof.
  intros Hwf Hp. pose proof (prepare_cases _ _ _ _ Hwf Hp) as Hc.
  destruct r as [[fwd|]|e|]; [|by destruct Hc as [-> _]|by subst|done].
  destruct Hc as (i & m & q & Hm & Hq & Hfl & Hsz & Hi & Hr & _ & ->).
  destruct Hwf as (_ & He & Hu).
  assert (forall j p, pending !! j = Some p -> request p <> req) as Hno.
  { intros j p Hj Hrq. assert (in_flight req pending = true) by (apply in_flight_spec; by exists j, p).
    congruence. }
  split_and!.
  - rewrite map_size_insert_None by done. lia.
  - intros j p. destruct (decide (i = j)) as [->|].
    + rewrite lookup_insert_eq. intros [= <-]. split; [done|]. by exists m.
    + rewrite lookup_insert_ne by done. apply He.
  - intros j k p1 p2. destruct (decide (i = j)) as [<-|], (decide (i = k)) as [<-|];
      rewrite ?lookup_insert_eq, ?lookup_insert_ne by done.
    + done.
    + intros [= <-] Hk Hrq. simpl in Hrq. by destruct (Hno _ _ Hk).
    + intros Hj [= <-] Hrq. simpl in Hrq. by destruct (Hno _ _ Hj).
    + apply Hu.
Qed.

Lemma complete_wf resp (pending : gmap Z Pending) r pending' :
  tx_wf pending -> complete resp pending = (r, pending') -> tx_wf pending' /\ r <> Panic.
Proof.
  unfold complete. intros (Hsz & He & Hu).
  destruct (pending !! id resp) as [p|] eqn:Hp; [|by intros [= <- <-]].
  pose proof (validate_response_total resp (id resp) (question p)).
  destruct (validate_dns_response _ _ _); [|by intros [= <- <-]|done].
  intros [= <- <-]. split; [|done]. split_and!.
  - rewrite map_size_delete_Some by by eexists. lia.
  - intros i q [_ Hq]%lookup_delete_Some. by apply He.
  - intros i j q1 q2 [_ Hq1]%lookup_delete_Some [_ Hq2]%lookup_delete_Some. by apply Hu.
Qed.
End properties.
End DnsTransactions.
