(* ===== verification/DnsOverTcp.v ===== *)
(** * Sessions of DNS datagrams over one TCP connection (src/src/lib.rs,
    [handle_dns_over_tcp_session])

    A step relation for the [select!] loop: a client datagram, an answer of a
    physical query, an answer of the upstream task, the end of the upstream
    task.  The two [mpsc] channels of capacity 256 and the set of physical
    queries are lists; the upstream task ([dns_routing::Upstream::forward]) is
    the environment, which takes requests from one channel and puts one answer
    per request into the other. *)

From S2P Require Import Prelude Net Dns DnsTransactions DnsExample.

Module DnsOverTcp.
Import Dns DnsTransactions.

Section session.
Context `{DnsLib}.
Variable ipv6_enabled : bool.
(** [DnsOverride::matches] on the forwarded request. *)
Variable matches : list Z -> bool.

Record Session := mkSession {
  transactions : gmap Z Pending;
  requests : list (list Z);        (* the channel to the upstream task *)
  upstream : list (list Z);        (* taken by the upstream task *)
  responses : list (list Z);       (* the channel back *)
  direct_queries : list (list Z);  (* physical queries running *)
  answered : list Message          (* written to the client *) }.

Definition initial : Session := mkSession ∅ [] [] [] [] [].

Definition text_error {A} (r : res string A) : res Error A := map_err EString r.

(** The first branch: a datagram from the client. *)
Definition on_datagram (bs : list Z) (s : Session) : res Error Session :=
  let '(r, tx) := prepare bs (transactions s) in
  fwd ← text_error r;
  match fwd with
  | None => Ok s
  | Some request =>
      if matches request then
        Ok (mkSession tx (requests s) (upstream s) (responses s)
              (direct_queries s ++ [request]) (answered s))
      else if (length (requests s) <? MAX_OUTSTANDING_DNS_QUERIES)%nat then
        Ok (mkSession tx (requests s ++ [request]) (upstream s) (responses s)
              (direct_queries s) (answered s))
      else Err (Io (io_other "no available capacity"))
  end.

(** The answer [response] is checked, its identifier restored, and it is
    written.  In the branch of the upstream task the name is first extracted
    for the log ([named]); [filter] tells whether IPv6 records are removed. *)
Definition deliver (named filter : bool) (response : list Z) (s : Session) : res Error Session :=
  m ← text_error (parse_data_to_dns_message response false);
  let '(r, tx) := complete m (transactions s) in
  m1 ← text_error r;
  _ ← (if named : bool then text_error (extract_domain_from_dns_message m1) else Ok "");
  let m2 := if filter : bool then remove_ipv6_entries m1 else m1 in
  _ ← map_err DnsProto (to_vec m2);
  Ok (mkSession tx (requests s) (upstream s) (responses s) (direct_queries s) (answered s ++ [m2])).

Fixpoint deliver_all (filter : bool) (rs : list (list Z)) (s : Session) : res Error Session :=
  match rs with
  | [] => Ok s
  | r :: rs' => s' ← deliver false filter r s; deliver_all filter rs' s'
  end.

(** The last branch: the upstream task has ended with [result].  The answers
    it left and those of the physical queries are flushed before the loop
    ends. *)
Definition on_upstream_end (direct_answers : list (list Z)) (result : res Error unit) (s : Session)
    : res Error Session :=
  s1 ← deliver_all (negb ipv6_enabled) (responses s) s;
  s2 ← deliver_all false direct_answers s1;
  _ ← result;
  Ok (mkSession (transactions s2) (requests s2) (upstream s2) [] [] (answered s2)).

(** The identifier on the wire. *)
Definition wire_id (bs : list Z) : Z :=
  match bs with hi :: lo :: _ => of_be16 hi lo | _ => 0 end.

(** Turns of the loop and of its environment.  A datagram that [prepare]
    coalesces, or an answer, may also end the session with an error; those
    have no successor here. *)
Inductive step : Session -> Session -> Prop :=
  | StepDatagram bs s s' : on_datagram bs s = Ok s' -> step s s'
  | StepTake req s reqs :
      requests s = req :: reqs ->
      step s (mkSession (transactions s) reqs (upstream s ++ [req]) (responses s)
                (direct_queries s) (answered s))
  | StepAnswer l req l' resp s :
      upstream s = l ++ req :: l' -> wire_id resp = wire_id req ->
      step s (mkSession (transactions s) (requests s) (l ++ l') (responses s ++ [resp])
                (direct_queries s) (answered s))
  | StepUpstream resp resps s s' :
      responses s = resp :: resps ->
      deliver true (negb ipv6_enabled) resp (mkSession (transactions s) (requests s) (upstream s) resps
                               (direct_queries s) (answered s)) = Ok s' ->
      step s s'
  | StepDirect l req l' resp s s' :
      direct_queries s = l ++ req :: l' -> wire_id resp = wire_id req ->
      deliver false false resp (mkSession (transactions s) (requests s) (upstream s) (responses s)
                            (l ++ l') (answered s)) = Ok s' ->
      step s s'.

Definition reachable : Session -> Prop := rtc step initial.

(** Everything in flight, by upstream identifier. *)
Definition flying (s : Session) : list Z :=
  wire_id <$> (requests s ++ upstream s ++ responses s ++ direct_queries s).

(** Each forwarded request is in exactly one place and has an entry. *)
Definition session_wf (s : Session) : Prop :=
  tx_wf (transactions s) /\ NoDup (flying s) /\
  forall i, i ∈ flying s -> is_Some (transactions s !! i).
End session.

Section properties.
Context `{L : DnsLibLaws}.
Variable ipv6_enabled : bool.
Variable matches : list Z -> bool.
Abbreviation step := (step ipv6_enabled matches).

Lemma wire_id_be16 i bs : is_u16 i -> wire_id (be16 i ++ bs) = i.
Proof. intros Hi. unfold be16. simpl. by apply of_be16_be16. Qed.

Lemma wire_id_message bs m : from_vec bs = Ok m -> wire_id bs = id m.
Proof.
  intros Hm. destruct (from_vec_header _ _ Hm) as (Hl & Hi & Ht). unfold u16_max in Hi.
  rewrite <- (take_drop 2 bs), Ht. apply wire_id_be16. unfold is_u16. lia.
Qed.

(** A delivered answer, as the client sees it. *)
Definition answer_of (filter : bool) (p : Pending) (m : Message) : Message :=
  if filter then remove_ipv6_entries (set_id (client_id p) m) else set_id (client_id p) m.

Lemma deliver_inv named filter resp s s' :
  deliver named filter resp s = Ok s' ->
  exists m p, from_vec resp = Ok m /\ wire_id resp = id m /\ transactions s !! id m = Some p /\
    validate_dns_response m (id m) (question p) = Ok tt /\
    s' = mkSession (delete (id m) (transactions s)) (requests s) (upstream s) (responses s)
           (direct_queries s) (answered s ++ [answer_of filter p m]).
Proof.
  unfold deliver, text_error. simpl parse_data_to_dns_message.
  destruct (from_vec resp) as [m|e|] eqn:Hm; [|done|done]. simpl. unfold complete.
  destruct (transactions s !! id m) as [p|] eqn:Hp; [|done].
  destruct (validate_dns_response _ _ _) as [[]|e|] eqn:Hv; [|done|done]. simpl.
  destruct (if named then _ else _); [|done|done]. simpl.
  destruct (to_vec _); [|done|done]. simpl. intros [= <-].
  exists m, p. split_and!; try done. by apply wire_id_message.
Qed.

(** ** The invariant *)

(** An answer that leaves the session frees its identifier, and only it. *)
Lemma deliver_wf named filter resp s s' :
  tx_wf (transactions s) -> NoDup (wire_id resp :: flying s) ->
  (forall i, i ∈ flying s -> is_Some (transactions s !! i)) ->
  deliver named filter resp s = Ok s' -> session_wf s'.
Proof.
  intros Htx Hnd Hdom Hd.
  destruct (deliver_inv _ _ _ _ _ Hd) as (m & p & Hm & Hid & Hp & Hv & ->).
  apply NoDup_cons in Hnd as [Hni Hnd]. rewrite Hid in Hni. split_and!; simpl.
  - eapply (complete_wf m (transactions s)); [done|]. unfold complete. by rewrite Hp, Hv.
  - done.
  - intros i Hi. rewrite lookup_delete_ne; [by apply Hdom|]. by intros <-.
Qed.

Lemma step_wf s s' : session_wf s -> step s s' -> session_wf s'.
Proof.
  intros (Htx & Hnd & Hdom) Hs. inversion Hs as
    [bs ?? Hd|req ? reqs Hq|l req l' resp ? Hu Hw|resp resps ?? Hr Hd|l req l' resp ?? Hu Hw Hd]; subst.
  - unfold on_datagram in Hd. destruct (prepare bs (transactions s)) as [r tx] eqn:Hp.
    pose proof (prepare_wf _ _ _ _ Htx Hp) as Hwf'. pose proof (prepare_cases _ _ _ _ Htx Hp) as Hc.
    destruct r as [[fwd|]|e|]; simpl in Hd; [|by simplify_eq|done|done].
    destruct Hc as (i & m & q & Hm & Hq & Hfl & Hsz & Hi & Hr & -> & ->).
    assert (exists fl, flying s' ≡ₚ i :: fl /\ fl = flying s /\
      transactions s' = <[i := mkPending bs q (id m)]> (transactions s)) as (fl & Hfl' & -> & Htx').
    { destruct (matches _); [|destruct (_ <? _)%nat; [|done]]; simplify_eq; eexists;
        (split; [|done]); unfold flying; cbn [requests upstream responses direct_queries];
        rewrite !fmap_app; cbn [fmap list_fmap];
        cbn [wire_id]; rewrite of_be16_be16 by (unfold is_u16; lia); solve_Permutation. }
    assert (i ∉ flying s) as Hni by (intros Hin; destruct (Hdom _ Hin); congruence).
    split_and!; [by rewrite Htx'| |].
    + rewrite Hfl'. by constructor.
    + intros j. rewrite Hfl', elem_of_cons, Htx'. intros [->|Hj]; [by rewrite lookup_insert_eq|].
      rewrite lookup_insert_ne; [by apply Hdom|]. intros ->. done.
  - assert (flying (mkSession (transactions s) reqs (upstream s ++ [req]) (responses s)
      (direct_queries s) (answered s)) ≡ₚ flying s) as Hp.
    { unfold flying. simpl. rewrite Hq, !fmap_app. simpl. solve_Permutation. }
    split_and!; [done|by rewrite Hp|]. intros i. rewrite Hp. apply Hdom.
  - assert (flying (mkSession (transactions s) (requests s) (l ++ l') (responses s ++ [resp])
      (direct_queries s) (answered s)) ≡ₚ flying s) as Hp.
    { unfold flying. simpl. rewrite Hu, !fmap_app. simpl. rewrite Hw. solve_Permutation. }
    split_and!; [done|by rewrite Hp|]. intros i. rewrite Hp. apply Hdom.
  - assert (flying s ≡ₚ wire_id resp :: flying (mkSession (transactions s) (requests s) (upstream s)
      resps (direct_queries s) (answered s))) as Hp.
    { unfold flying. simpl. rewrite Hr, !fmap_app. simpl. solve_Permutation. }
    eapply deliver_wf; [| | |exact Hd]; [done|by rewrite <- Hp|].
    intros i Hi. apply Hdom. rewrite Hp. by right.
  - assert (flying s ≡ₚ wire_id resp :: flying (mkSession (transactions s) (requests s) (upstream s)
      (responses s) (l ++ l') (answered s))) as Hp.
    { unfold flying. simpl. rewrite Hu, !fmap_app. simpl. rewrite Hw. solve_Permutation. }
    eapply deliver_wf; [| | |exact Hd]; [done|by rewrite <- Hp|].
    intros i Hi. apply Hdom. rewrite Hp. by right.
Qed.

Lemma initial_wf : session_wf initial.
Proof. split_and!; [apply tx_wf_empty|constructor|]. intros i. by rewrite elem_of_nil. Qed.

Lemma reachable_wf s : reachable ipv6_enabled matches s -> session_wf s.
Proof.
  revert s. apply (rtc_ind_r session_wf initial); [apply initial_wf|].
  intros s1 s2 _ Hs Hwf. by eapply step_wf.
Qed.

(** In every reachable state the channel to the upstream task has room for a
    new request: the session never fails because it is full. *)
Theorem dns_queue_never_full s bs :
  reachable ipv6_enabled matches s ->
  on_datagram matches bs s <> Err (Io (io_other "no available capacity")) /\
  on_datagram matches bs s <> Panic /\
  (length (requests s) <= size (transactions s) <= MAX_OUTSTANDING_DNS_QUERIES)%nat.
Proof.
  intros (Htx & Hnd & Hdom)%reachable_wf.
  assert (length (requests s) <= size (transactions s))%nat as Hlen.
  { assert ((list_to_set (flying s) : gset Z) ⊆ dom (transactions s)) as Hsub.
    { apply elem_of_subseteq. intros i Hi%elem_of_list_to_set. apply elem_of_dom. by apply Hdom. }
    apply subseteq_size in Hsub. rewrite size_list_to_set, size_dom in Hsub by done.
    unfold flying in Hsub. rewrite length_fmap, length_app in Hsub. lia. }
  unfold on_datagram. destruct (prepare bs (transactions s)) as [r tx] eqn:Hp.
  pose proof (prepare_cases _ _ _ _ Htx Hp) as Hc. destruct Htx as (Hsz & _ & _).
  destruct r as [[fwd|]|e|]; simpl; [|by split_and!; try lia|by split_and!; try lia|done].
  destruct Hc as (_ & _ & _ & _ & _ & _ & Hlt & _). destruct (matches fwd); [by split_and!; try lia|].
  rewrite (proj2 (Nat.ltb_lt _ _)) by lia. by split_and!; try lia.
Qed.

(** C10. An answer that is delivered belongs to a query of the client: it has that
    query's identifier and question, and it was checked against them. *)
Theorem dns_answer_matches_query s named filter resp s' :
  reachable ipv6_enabled matches s -> deliver named filter resp s = Ok s' ->
  exists m p query q, from_vec resp = Ok m /\ transactions s !! id m = Some p /\
    from_vec (request p) = Ok query /\ validate_dns_query query = Ok q /\
    validate_dns_response m (id m) q = Ok tt /\
    answered s' = answered s ++ [answer_of filter p m] /\
    id (answer_of filter p m) = id query /\ queries (answer_of filter p m) = queries m /\
    transactions s' = delete (id m) (transactions s).
Proof.
  intros (Htx & Hnd & Hdom)%reachable_wf Hd.
  destruct (deliver_inv _ _ _ _ _ Hd) as (m & p & Hm & Hid & Hp & Hv & ->).
  destruct Htx as (_ & He & _). destruct (He _ _ Hp) as (_ & query & Hq & Hval & Hcid).
  exists m, p, query, (question p). split_and!; try done; unfold answer_of; by destruct filter.
Qed.

Lemma deliver_all_answered filter rs s s' :
  deliver_all filter rs s = Ok s' ->
  length (answered s') = (length (answered s) + length rs)%nat /\
  answered s `prefix_of` answered s' /\
  transactions s' = foldl (fun t r => delete (wire_id r) t) (transactions s) rs.
Proof.
  revert s. induction rs as [|r rs IH]; intros s; simpl.
  { intros [= <-]. split; [lia|done]. }
  destruct (deliver false filter r s) as [s1|e|] eqn:Hd; [|done|done]. simpl. intros Hs.
  destruct (deliver_inv _ _ _ _ _ Hd) as (m & p & Hm & Hid & Hp & Hv & ->).
  apply IH in Hs as (Hl & Hpre & Ht). simpl in *. rewrite length_app in Hl. simpl in Hl.
  split_and!; [lia| |by rewrite Ht, Hid].
  etrans; [|exact Hpre]. by apply prefix_app_r.
Qed.

(** When the upstream task ends, every answer it produced and every physical
    query still running is delivered before the session ends. *)
Theorem dns_flush_before_end s direct_answers result s' :
  on_upstream_end ipv6_enabled direct_answers result s = Ok s' ->
  result = Ok tt /\
  length (answered s') = (length (answered s) + length (responses s) + length direct_answers)%nat /\
  answered s `prefix_of` answered s' /\ responses s' = [] /\ direct_queries s' = [].
Proof.
  unfold on_upstream_end. destruct (deliver_all _ (responses s) s) as [s1|e|] eqn:H1; [|done|done].
  simpl. destruct (deliver_all false direct_answers s1) as [s2|e|] eqn:H2; [|done|done]. simpl.
  destruct result as [[]|e|]; [|done|done]. intros [= <-].
  apply deliver_all_answered in H1 as (Hl1 & Hp1 & _).
  apply deliver_all_answered in H2 as (Hl2 & Hp2 & _). simpl.
  split_and!; try done; [lia|]. by etrans.
Qed.
End properties.

(** A request that was prepared and answered leaves the table as it was, and
    the answer carries the client's identifier again, whichever identifier the
    query had upstream. *)
Theorem dns_transaction_roundtrip `{L : DnsLibLaws} req (pending pending' : gmap Z Pending) fwd resp :
  tx_wf pending -> prepare req pending = (Ok (Some fwd), pending') ->
  (exists f q, from_vec fwd = Ok f /\ validate_dns_query f = Ok q /\
     validate_dns_response resp (id f) q = Ok tt) ->
  exists query, from_vec req = Ok query /\
    complete resp pending' = (Ok (set_id (id query) resp), pending).
Proof.
  intros Hwf Hp (f & q & Hf & Hq & Hv).
  destruct (prepare_cases _ _ _ _ Hwf Hp) as (i & m & q' & Hm & Hq' & _ & _ & Hi & Hr & -> & ->).
  exists m. split; [done|].
  rewrite (from_vec_set_id _ _ i Hm) in Hf by (unfold is_u16; lia). injection Hf as <-. simpl in Hv.
  assert (q = q') as ->.
  { apply validate_query_inv in Hq as (_ & _ & Hqs). apply validate_query_inv in Hq' as (_ & _ & Hqs').
    simpl in Hqs. congruence. }
  assert (id resp = i) as Hid.
  { revert Hv. unfold validate_dns_response. destruct (negb _); [done|]. destruct (negb _); [done|].
    destruct (_ =? _) eqn:E; [|done]. by b2p. }
  unfold complete. rewrite Hid, lookup_insert_eq. simpl question. rewrite Hv. simpl client_id.
  by rewrite delete_insert_id.
Qed.

(** ** A concrete session *)

Section examples.
Import DnsExample.

Let req := query_bytes 7 "a.org" TypeA.
Let asked := mkMessage 7 Query_ 0 false false false false false false 0
  [mkQuery "a.org" TypeA ClassIN] [] [] [] None None.
(** The answer of the upstream server. *)
Let resp := be16 7 ++ [128] ++ replicate 9 0 ++ write_question (mkQuery "A.org" TypeA ClassIN).

Definition after_query : Session :=
  mkSession {[7 := mkPending req (mkQuery "a.org" TypeA ClassIN) 7]} [req] [] [] [] [].

Definition never (bs : list Z) : bool := false.

Lemma after_query_step : on_datagram never req initial = Ok after_query.
Proof. reflexivity. Qed.

Lemma after_query_reachable : reachable true never after_query.
Proof. apply rtc_once. apply (StepDatagram _ _ req). exact after_query_step. Qed.

Lemma dns_queue_never_full_witness :
  on_datagram never req after_query <> Err (Io (io_other "no available capacity")) /\
  on_datagram never req after_query <> Panic /\
  (length (requests after_query) <= size (transactions after_query) <= MAX_OUTSTANDING_DNS_QUERIES)%nat.
Proof. exact (dns_queue_never_full true never after_query req after_query_reachable). Defined.

Definition after_answer : Session :=
  mkSession ∅ [req] [] [] []
    [mkMessage 7 Response_ 0 false false false false false false 0
       [mkQuery "A.org" TypeA ClassIN] [] [] [] None None].

Lemma after_answer_eq : deliver true false resp after_query = Ok after_answer.
Proof. reflexivity. Qed.

Lemma dns_answer_matches_query_witness :
  exists m p query q, from_vec resp = Ok m /\ transactions after_query !! id m = Some p /\
    from_vec (request p) = Ok query /\ validate_dns_query query = Ok q /\
    validate_dns_response m (id m) q = Ok tt /\
    answered after_answer = answered after_query ++ [answer_of false p m] /\
    id (answer_of false p m) = id query /\ queries (answer_of false p m) = queries m /\
    transactions after_answer = delete (id m) (transactions after_query).
Proof.
  exact (dns_answer_matches_query true never after_query true false resp after_answer
    after_query_reachable after_answer_eq).
Defined.

Lemma dns_transaction_roundtrip_witness :
  exists query, from_vec req = Ok query /\
    complete (mkMessage 7 Response_ 0 false false false false false false 0
      [mkQuery "A.org" TypeA ClassIN] [] [] [] None None)
      {[7 := mkPending req (mkQuery "a.org" TypeA ClassIN) 7]} =
    (Ok (set_id (id query) (mkMessage 7 Response_ 0 false false false false false false 0
      [mkQuery "A.org" TypeA ClassIN] [] [] [] None None)), ∅).
Proof.
  apply (dns_transaction_roundtrip req ∅ _ req); [apply tx_wf_empty|reflexivity|].
  exists asked, (mkQuery (H := text_names) "a.org" TypeA ClassIN). split_and!; reflexivity.
Defined.

Lemma dns_flush_before_end_witness :
  Ok (A := unit) (E := Error) tt = Ok tt /\
  length (answered after_answer) = (0 + 1 + 0)%nat /\
  [] `prefix_of` answered after_answer /\ responses after_answer = [] /\ direct_queries after_answer = [].
Proof.
  exact (dns_flush_before_end true
    (mkSession (transactions after_query) [req] [] [resp] [] []) [] (Ok tt) after_answer eq_refl).
Defined.
End examples.
End DnsOverTcp.
