(* ===== verification/Persistence.v ===== *)
(** * The journal of fake addresses (src/src/virtual_dns/persistence.rs)

    The cache file is its list of lines; a line that is not UTF-8 is [None].
    Every call of the file system takes the next entry of [outcomes]: it
    succeeds (also when the list is exhausted), or it fails with an error, and
    a failed append may leave a partial line behind.  The JSON encoding of a
    record ([serde_json]) is the class [CacheCodec].  The bytes of the file, and
    a process that is killed between or inside these calls, are in
    CacheCrash.v. *)

From S2P Require Import Prelude Net.

Module Persistence.

Definition CACHE_VERSION : Z := 1.
Definition COMPACT_STALE_RECORDS : Z := 1024.

(** [OwnedCacheRecord] and [BorrowedCacheRecord]. *)
Inductive CacheRecord :=
  | Header (version : Z) (network_addr broadcast_addr allocation_cursor : IpAddr)
  | Mapping (ip : IpAddr) (name : string).

#[export] Instance CacheRecord_eq_dec : EqDecision CacheRecord.
Proof. solve_decision. Defined.

Class CacheCodec := {
  encode : CacheRecord -> string;
  decode : string -> option CacheRecord;
}.

Definition record_ok (r : CacheRecord) : Prop :=
  match r with
  | Header v n b c => is_u8 v /\ ip_wf n /\ ip_wf b /\ ip_wf c
  | Mapping ip _ => ip_wf ip
  end.

(** A record is one line that is read back. *)
Class CacheCodecLaws `{CacheCodec} := {
  decode_encode : forall r, record_ok r -> decode (encode r) = Some r;
  encode_not_empty : forall r, encode r <> "";
}.

(** ** The file system *)

Inductive Outcome := Done | Failed (err : IoError) (partial : option string).

Record Disk := mkDisk {
  file : option (list (option string));  (* the cache file, [None] if it does not exist *)
  outcomes : list Outcome }.

(** The outcome of the next call. *)
Definition next_outcome (d : Disk) : Outcome * Disk :=
  match outcomes d with
  | [] => (Done, d)
  | o :: os => (o, mkDisk (file d) os)
  end.

(** A call that only succeeds or fails. *)
Definition attempt (d : Disk) : res IoError unit * Disk :=
  match next_outcome d with
  | (Done, d') => (Ok tt, d')
  | (Failed e _, d') => (Err e, d')
  end.

(** ** The cache *)

Inductive LoadResult :=
  | Missing
  | Incompatible
  | Loaded (allocation_cursor : IpAddr) (mappings : list (IpAddr * string)) (repair_needed : bool).

Record PersistentCache := mkCache { journal_records : Z; dirty : bool; disk : Disk }.

(** [PersistentCache::new]. *)
Definition new (d : Disk) : PersistentCache := mkCache 0 false d.

(** [saturating_add], [saturating_sub] and [saturating_mul] of [usize]. *)
Definition sat (z : Z) : Z := Z.max 0 (Z.min z usize_max).

Definition address_in_pool (ip network_addr broadcast_addr : IpAddr) : bool :=
  Bool.eqb (is_ipv4 ip) (is_ipv4 network_addr) && ip_le network_addr ip && ip_le ip broadcast_addr.

Section cache.
Context `{CacheCodec}.
(** [cfg(target_os = "windows")]. *)
Variable windows : bool.

(** The [for] over the lines behind the header: the mappings, whether the file
    needs repair, and the number of records counted. *)
Fixpoint load_lines (lines : list (option string)) (records : Z)
    : list (IpAddr * string) * bool * Z :=
  match lines with
  | [] => ([], false, records)
  | None :: _ => ([], true, records)
  | Some l :: lines' =>
      if bool_decide (l = "") then
        let '(ms, _, n) := load_lines lines' records in (ms, true, n)
      else
        match decode l with
        | Some (Mapping ip name) =>
            let '(ms, rep, n) := load_lines lines' (sat (records + 1)) in ((ip, name) :: ms, rep, n)
        | _ => let '(ms, _, n) := load_lines lines' records in (ms, true, n)
        end
  end.

Definition load (network_addr broadcast_addr : IpAddr) (c : PersistentCache)
    : res IoError LoadResult * PersistentCache :=
  let '(r, d) := attempt (disk c) in
  let c0 := mkCache 0 false d in
  match r with
  | Err e => if bool_decide (io_kind e = NotFound) then (Ok Missing, c0) else (Err e, c0)
  | Panic => (Panic, c0)
  | Ok _ =>
      match file d with
      | None => (Ok Missing, c0)
      | Some (Some line :: lines) =>
          match decode line with
          | Some (Header version n b cursor) =>
              if (version =? CACHE_VERSION) && bool_decide (n = network_addr)
                 && bool_decide (b = broadcast_addr) && address_in_pool cursor network_addr broadcast_addr
              then
                let '(ms, rep, records) := load_lines lines 0 in
                (Ok (Loaded cursor ms rep), mkCache records false d)
              else (Ok Incompatible, c0)
          | _ => (Ok Incompatible, c0)
          end
      | Some _ => (Ok Incompatible, c0)
      end
  end.

(** One call of the file system for the cache. *)
Definition try_io : M PersistentCache IoError unit := fun c =>
  let '(r, d) := attempt (disk c) in (r, mkCache (journal_records c) (dirty c) d).

Definition set_file (f : option (list (option string))) (c : PersistentCache) : PersistentCache :=
  mkCache (journal_records c) (dirty c) (mkDisk f (outcomes (disk c))).

Definition needs_rewrite : M PersistentCache IoError bool := fun c =>
  if dirty c then (Ok true, c)
  else match try_io c with
       | (Ok _, c') =>
           (Ok (match file (disk c') with None | Some [] => true | Some _ => false end), c')
       | (Err e, c') => if bool_decide (io_kind e = NotFound) then (Ok true, c') else (Err e, c')
       | (Panic, c') => (Panic, c')
       end.

(** [OpenOptions::create(true).append(true)], the record and the flush. *)
Definition append_mapping (ip : IpAddr) (name : string) : M PersistentCache IoError unit :=
  try_io;;
  old ← gets (fun c => default [] (file (disk c)));
  o ← (fun c => let '(o, d) := next_outcome (disk c) in
                (Ok o, mkCache (journal_records c) (dirty c) d));
  match o with
  | Failed e partial =>
      modify (set_file (Some (match partial with Some p => old ++ [Some p] | None => old end)));;
      throw e
  | Done =>
      modify (set_file (Some (old ++ [Some (encode (Mapping ip name))])));;
      modify (fun c => mkCache (sat (journal_records c + 1)) false (disk c))
  end.

Definition should_compact (live_mappings : Z) (c : PersistentCache) : bool :=
  (COMPACT_STALE_RECORDS <=? sat (journal_records c - live_mappings))
  && (sat (live_mappings * 2) <=? journal_records c).

(** [rewrite]: the directory, the temporary file and its contents, then
    [replace_file].  The cache file changes only in [replace_file]: by the
    rename, and on Windows by the removal before it. *)
Definition rewrite (network_addr broadcast_addr allocation_cursor : IpAddr)
    (mappings : list (IpAddr * string)) : M PersistentCache IoError unit :=
  try_io;;                                               (* create_dir_all *)
  try_io;;                                               (* File::create *)
  try_io;;                                               (* write_cache_record, flush *)
  here ← gets (fun c => bool_decide (is_Some (file (disk c))));
  (if windows && here then try_io;; modify (set_file None) else mret tt);;  (* remove_file *)
  try_io;;                                               (* rename *)
  modify (set_file (Some
    (Some (encode (Header CACHE_VERSION network_addr broadcast_addr allocation_cursor))
     :: ((fun m => Some (encode (Mapping m.1 m.2))) <$> mappings))));;
  modify (fun c => mkCache (sat (len mappings)) false (disk c)).

Definition mark_dirty (c : PersistentCache) : PersistentCache :=
  mkCache (journal_records c) true (disk c).
End cache.
End Persistence.
