(* ===== verification/VirtualDns.v ===== *)
(** * Fake addresses for names (src/src/virtual_dns.rs)

    [VirtualDns] keeps the two directions of the mapping between names and
    addresses of a pool: the cache from address to name in order of use
    ([hashlink::LruCache], the class [LruCache]) and the table from name to
    address.  The allocation loop takes fuel; [alloc_loop_spec] (VirtualDnsProofs.v) shows that
    one more than the number of mappings is enough. *)

From S2P Require Import Prelude Net Dns Persistence.

Module VirtualDns.
Import Dns.

(** The operations of [hashlink::LruCache<IpAddr, Arc<str>>] the sources use.
    [lru_get] stands for [get] and [get_mut], [lru_insert] for [insert] and for
    the insertion into a vacant entry. *)
Class LruCache := {
  lru : Type;
  lru_new : lru;
  lru_peek : IpAddr -> lru -> option string;
  lru_get : IpAddr -> lru -> option string * lru;
  lru_insert : IpAddr -> string -> lru -> lru;
  lru_remove : IpAddr -> lru -> option string * lru;
  lru_remove_lru : lru -> option ((IpAddr * string) * lru);
  lru_iter : lru -> list (IpAddr * string);
  lru_len : lru -> nat;
}.

(** The entries other than the one of [k]. *)
Definition without (k : IpAddr) (l : list (IpAddr * string)) : list (IpAddr * string) :=
  List.filter (fun e => negb (bool_decide (e.1 = k))) l.

(** Documented behaviour: [lru_iter] lists the entries from the least to the
    most recently used one; a used or inserted entry becomes the last one. *)
Class LruCacheLaws `{LruCache} := {
  iter_nodup : forall c, NoDup (lru_iter c).*1;
  iter_new : lru_iter lru_new = [];
  peek_spec : forall k c v, lru_peek k c = Some v <-> (k, v) ∈ lru_iter c;
  get_value : forall k c, (lru_get k c).1 = lru_peek k c;
  get_iter : forall k c, lru_iter (lru_get k c).2 =
    match lru_peek k c with Some v => without k (lru_iter c) ++ [(k, v)] | None => lru_iter c end;
  insert_iter : forall k v c, lru_iter (lru_insert k v c) = without k (lru_iter c) ++ [(k, v)];
  remove_value : forall k c, (lru_remove k c).1 = lru_peek k c;
  remove_iter : forall k c, lru_iter (lru_remove k c).2 = without k (lru_iter c);
  remove_lru_spec : forall c, match lru_iter c with
    | [] => lru_remove_lru c = None
    | e :: rest => exists c', lru_remove_lru c = Some (e, c') /\ lru_iter c' = rest end;
  len_iter : forall c, lru_len c = length (lru_iter c);
}.

Section vdns.
Context `{LruCache} `{CacheCodec : Persistence.CacheCodec}.
Variable windows : bool.

Record VirtualDns := mkVDns {
  trailing_dot : bool;
  lru_cache : lru;
  name_to_ip : gmap string IpAddr;
  network_addr : IpAddr;
  broadcast_addr : IpAddr;
  next_addr : IpAddr;
  persistence : option Persistence.PersistentCache }.

Definition set_maps (c : lru) (n : gmap string IpAddr) (v : VirtualDns) : VirtualDns :=
  mkVDns (trailing_dot v) c n (network_addr v) (broadcast_addr v) (next_addr v) (persistence v).

Definition set_lru (c : lru) (v : VirtualDns) : VirtualDns := set_maps c (name_to_ip v) v.

Definition set_next (a : IpAddr) (v : VirtualDns) : VirtualDns :=
  mkVDns (trailing_dot v) (lru_cache v) (name_to_ip v) (network_addr v) (broadcast_addr v) a (persistence v).

Definition set_persistence (p : option Persistence.PersistentCache) (v : VirtualDns) : VirtualDns :=
  mkVDns (trailing_dot v) (lru_cache v) (name_to_ip v) (network_addr v) (broadcast_addr v) (next_addr v) p.

(** [VirtualDns::new] on a pool with these first and last addresses. *)
Definition new (first_address last_address : IpAddr) : VirtualDns :=
  mkVDns false lru_new ∅ first_address last_address first_address None.

Definition clear_mappings (v : VirtualDns) : VirtualDns :=
  set_next (network_addr v) (set_maps lru_new ∅ v).

(** [str::trim_end_matches('.')] and [to_ascii_lowercase]. *)
Fixpoint trim_dots (s : string) : string :=
  match s with
  | EmptyString => EmptyString
  | String c s' =>
      match trim_dots s' with
      | EmptyString => if bool_decide (Ascii.N_of_ascii c = 46%N) then EmptyString else String c EmptyString
      | t => String c t
      end
  end.

Definition lower_char (c : Ascii.ascii) : Ascii.ascii :=
  Ascii.ascii_of_N (Z.to_N (lower8 (Z.of_N (Ascii.N_of_ascii c)))).

Fixpoint to_ascii_lowercase (s : string) : string :=
  match s with
  | EmptyString => EmptyString
  | String c s' => String (lower_char c) (to_ascii_lowercase s')
  end.

Definition canonical_name (v : VirtualDns) (name : string) : string :=
  to_ascii_lowercase (if ends_with "." name && negb (trailing_dot v) then trim_dots name else name).

Definition address_in_pool (v : VirtualDns) (ip : IpAddr) : bool :=
  Bool.eqb (is_ipv4 ip) (is_ipv4 (network_addr v)) && ip_le (network_addr v) ip
  && ip_le ip (broadcast_addr v).

Definition restore_mapping (ip : IpAddr) (name : string) (v : VirtualDns) : bool * VirtualDns :=
  let name := canonical_name v name in
  if bool_decide (name = "") || (253 <? String.length name)%nat || negb (address_in_pool v ip)
  then (false, v)
  else
    let v1 := match name_to_ip v !! name with
              | Some old_ip => set_maps (lru_remove old_ip (lru_cache v)).2 (delete name (name_to_ip v)) v
              | None => v
              end in
    let '(old_name, c2) := lru_remove ip (lru_cache v1) in
    let n2 := match old_name with Some o => delete o (name_to_ip v1) | None => name_to_ip v1 end in
    (true, set_maps (lru_insert ip name c2) (<[name := ip]> n2) v1).

(** [rewrite_persistence]. *)
Definition rewrite_persistence : M VirtualDns IoError unit := fun v =>
  match persistence v with
  | None => (Ok tt, v)
  | Some p =>
      let '(r, p') := Persistence.rewrite windows (network_addr v) (broadcast_addr v) (next_addr v)
                        (lru_iter (lru_cache v)) p in
      (r, set_persistence (Some p') v)
  end.

(** The [result] computed by [persist_mapping]. *)
Definition persist_result (ip : IpAddr) (name : string) : M VirtualDns IoError unit := fun v =>
  match persistence v with
  | None => (Ok tt, v)
  | Some p =>
      match Persistence.needs_rewrite p with
      | (Ok true, p1) => rewrite_persistence (set_persistence (Some p1) v)
      | (Ok false, p1) =>
          match Persistence.append_mapping ip name p1 with
          | (Ok _, p2) =>
              let v2 := set_persistence (Some p2) v in
              if Persistence.should_compact (Z.of_nat (lru_len (lru_cache v))) p2
              then rewrite_persistence v2 else (Ok tt, v2)
          | (Err e, p2) => (Err e, set_persistence (Some p2) v)
          | (Panic, p2) => (Panic, set_persistence (Some p2) v)
          end
      | (Err e, p1) => (Err e, set_persistence (Some p1) v)
      | (Panic, p1) => (Panic, set_persistence (Some p1) v)
      end
  end.

(** [persist_mapping]: a failure is repaired at once by a rewrite, and is
    otherwise only logged. *)
Definition persist_mapping (ip : IpAddr) (name : string) (v : VirtualDns) : VirtualDns :=
  match persist_result ip name v with
  | (Ok _, v') => v'
  | (_, v') =>
      let dirty := set_persistence (Persistence.mark_dirty <$> persistence v') v' in
      (rewrite_persistence dirty).2
  end.

Definition retry_dirty_persistence (v : VirtualDns) : VirtualDns :=
  match persistence v with
  | Some p => if Persistence.dirty p then (rewrite_persistence v).2 else v
  | None => v
  end.

(** [increment_ip]: the loop over the bytes from right to left, here on the
    reversed list. *)
Fixpoint increment_bytes (rev_bytes : list Z) : list Z :=
  match rev_bytes with
  | [] => []
  | b :: rest => if negb (b =? 255) then (b + 1) :: rest else 0 :: increment_bytes rest
  end.

Definition increment_ip (addr : IpAddr) : IpAddr :=
  let bytes := of_be_bytes (rev (increment_bytes (rev (octets addr)))) in
  match addr with V4 _ => V4 bytes | V6 _ => V6 bytes end.

Definition touch_ip (addr : IpAddr) (v : VirtualDns) : VirtualDns :=
  set_lru (lru_get addr (lru_cache v)).2 v.

Definition resolve_ip (addr : IpAddr) (v : VirtualDns) : option string * VirtualDns :=
  let '(r, c) := lru_get addr (lru_cache v) in (r, set_lru c v).

Definition contains_address (addr : IpAddr) (v : VirtualDns) : bool := address_in_pool v addr.

(** The loop of [find_or_allocate_ip]. *)
Fixpoint alloc_loop (fuel : nat) (started_at : IpAddr) (insert_name : string)
    : M VirtualDns Error IpAddr := fun v =>
  match fuel with
  | O => (Panic, v)
  | S fuel' =>
      match lru_peek (next_addr v) (lru_cache v) with
      | None =>
          let ip := next_addr v in
          let v1 := set_maps (lru_insert ip insert_name (lru_cache v)) (<[insert_name := ip]> (name_to_ip v)) v in
          let v2 := persist_mapping ip insert_name v1 in
          (Ok (next_addr v2), v2)
      | Some _ =>
          let next := if bool_decide (next_addr v = broadcast_addr v) then network_addr v
                      else increment_ip (next_addr v) in
          let v1 := set_next next v in
          if bool_decide (next = started_at) then
            match lru_remove_lru (lru_cache v1) with
            | None => (Err (EString "Virtual IP space for DNS exhausted"), v1)
            | Some ((ip, old_name), c) =>
                let v2 := set_maps (lru_insert ip insert_name c)
                            (<[insert_name := ip]> (delete old_name (name_to_ip v1))) v1 in
                (Ok ip, persist_mapping ip insert_name v2)
            end
          else alloc_loop fuel' started_at insert_name v1
      end
  end.

Definition find_or_allocate_ip (name : string) : M VirtualDns Error IpAddr := fun v =>
  let insert_name := canonical_name v name in
  match name_to_ip v !! insert_name with
  | Some ip => (Ok ip, retry_dirty_persistence (touch_ip ip v))
  | None => alloc_loop (S (lru_len (lru_cache v))) (next_addr v) insert_name v
  end.

Definition upper_half_start (network broadcast : IpAddr) : IpAddr :=
  match network, broadcast with
  | V4 n, V4 b => V4 (n + (b - n) / 2 + (b - n) mod 2)
  | V6 n, V6 b => V6 (n + (b - n) / 2 + (b - n) mod 2)
  | _, _ => network
  end.

(** The [for] over the loaded mappings. *)
Fixpoint restore_all (ms : list (IpAddr * string)) (repair : bool) (v : VirtualDns) : bool * VirtualDns :=
  match ms with
  | [] => (repair, v)
  | (ip, name) :: ms' =>
      let '(ok, v') := restore_mapping ip name v in
      restore_all ms' (repair || negb ok) v'
  end.

(** [enable_persistence] with the contents of the file system at [path]. *)
Definition enable_persistence (d : Persistence.Disk) : M VirtualDns IoError nat := fun v =>
  match Persistence.load (network_addr v) (broadcast_addr v) (Persistence.new d) with
  | (Err e, _) => (Err e, v)
  | (Panic, _) => (Panic, v)
  | (Ok r, p) =>
      let '(rewrite, v1) :=
        match r with
        | Persistence.Missing =>
            (true, if (lru_len (lru_cache v) =? 0)%nat
                   then set_next (upper_half_start (network_addr v) (broadcast_addr v)) v else v)
        | Persistence.Incompatible =>
            (true, set_next (upper_half_start (network_addr v) (broadcast_addr v)) (clear_mappings v))
        | Persistence.Loaded cursor ms rep => restore_all ms rep (set_next cursor (clear_mappings v))
        end in
      let v2 := set_persistence (Some p) v1 in
      match (if rewrite then rewrite_persistence v2 else (Ok tt, v2)) with
      | (Ok _, v3) => (Ok (lru_len (lru_cache v3)), v3)
      | (Err e, v3) => (Err e, v3)
      | (Panic, v3) => (Panic, v3)
      end
  end.
End vdns.

Section query.
Context `{DnsLib} `{LruCache} `{CacheCodec : Persistence.CacheCodec}.
Variable windows : bool.

(** [generate_query]: the response, the queried name and the fake address. *)
Definition generate_query (bs : list Z) : M VirtualDns Error (list Z * string * option IpAddr) :=
  message ← lift (map_err EString (parse_data_to_dns_message bs false));
  q ← lift (map_err EString (validate_dns_query message));
  qname ← lift (map_err EString (extract_domain_from_dns_message message));
  network ← gets network_addr;
  let wanted := match network with V4 _ => TypeA | V6 _ => TypeAAAA end in
  ip ← (if q_type q =? wanted
        then ip ← find_or_allocate_ip windows qname; mret (Some ip)
        else mret None);
  response ← lift (map_err EString (build_dns_response message ip 5));
  bytes ← lift (map_err DnsProto (to_vec response));
  mret (bytes, qname, ip).
End query.
End VirtualDns.
