(* ===== verification/VirtualDnsProofs.v ===== *)
(** * Correctness of the fake address allocation

    The invariant of [VirtualDns] and what [find_or_allocate_ip] guarantees:
    it always finds an address of the pool, the two directions of the mapping
    agree, no other name loses its address unless the pool is full, and then
    only the least recently used one does. *)

From S2P Require Import Prelude Net Dns Persistence VirtualDns.

Module VirtualDnsProofs.
Import VirtualDns.

(** ** [increment_ip] *)

Lemma increment_bytes_spec l :
  Forall is_u8 l ->
  of_be_bytes (rev (increment_bytes l)) = (of_be_bytes (rev l) + 1) mod 256 ^ len l.
Proof.
  induction l as [|b l IH]; intros Hl; [done|]. apply Forall_cons in Hl as [Hb Hl].
  assert (Hr : Forall is_u8 (rev l)) by (rewrite Forall_forall in *; intros x Hx;
    apply Hl; rewrite list_elem_of_In in *; by apply in_rev).
  pose proof (of_be_bytes_bound _ Hr) as Hbd. unfold len in *. rewrite length_rev in Hbd.
  assert (0 < 256 ^ Z.of_nat (length l)) as Hpos by lia.
  cbn [length increment_bytes]. rewrite Nat2Z.inj_succ, Z.pow_succ_r by lia.
  unfold is_u8 in Hb. destruct (Z.eqb_spec b 255) as [->|Hb255]; cbn [negb rev];
    rewrite !of_be_bytes_snoc.
  - rewrite IH by done. rewrite Z.add_0_r, Z.mul_comm, <- Z.mul_mod_distr_l by lia. f_equal. lia.
  - rewrite Z.mod_small; [lia|]. split; [lia|]. nia.
Qed.

Lemma increment_ip_spec a :
  ip_wf a ->
  increment_ip a = match a with V4 n => V4 ((n + 1) mod 2 ^ 32) | V6 n => V6 ((n + 1) mod 2 ^ 128) end.
Proof.
  intros Hwf. unfold increment_ip, octets.
  assert (forall k n, of_be_bytes (rev (increment_bytes (rev (be_bytes k n)))) =
    (n mod 256 ^ Z.of_nat k + 1) mod 256 ^ Z.of_nat k) as Hinc.
  { intros k n. rewrite increment_bytes_spec.
    - rewrite rev_involutive, of_be_bytes_be_bytes. unfold len. by rewrite length_rev, length_be_bytes.
    - pose proof (be_bytes_u8 k n) as Hu. rewrite Forall_forall in *. intros x Hx. apply Hu.
      rewrite list_elem_of_In in *. by apply in_rev. }
  destruct a as [n|n]; cbn [ip_bytes ip_value]; rewrite Hinc; simpl in Hwf;
    change (256 ^ Z.of_nat 4) with (2 ^ 32); change (256 ^ Z.of_nat 16) with (2 ^ 128);
    rewrite (Z.mod_small n) by done; done.
Qed.

(** ** Entries *)

Lemma elem_of_without k l e : e ∈ without k l <-> e ∈ l /\ e.1 <> k.
Proof.
  unfold without. rewrite !list_elem_of_In, filter_In, negb_true_iff, bool_decide_eq_false. done.
Qed.

Lemma without_id k l : k ∉ l.*1 -> without k l = l.
Proof.
  induction l as [|[a n] l IH]; simpl; [done|]. intros Hk. apply not_elem_of_cons in Hk as [Hne Hk].
  unfold without. simpl. rewrite bool_decide_eq_false_2 by done. simpl. f_equal. by apply IH.
Qed.

Section proofs.
Context `{LL : LruCacheLaws} `{CC : Persistence.CacheCodec}.
Variable windows : bool.

Lemma iter_functional c k a b : (k, a) ∈ lru_iter c -> (k, b) ∈ lru_iter c -> a = b.
Proof. rewrite <- !peek_spec. congruence. Qed.

Lemma peek_none c k : lru_peek k c = None <-> k ∉ (lru_iter c).*1.
Proof.
  split.
  - intros Hn ([k' v] & Hk & Hin)%list_elem_of_fmap. simpl in Hk. subst k'.
    apply peek_spec in Hin. congruence.
  - intros Hk. destruct (lru_peek k c) as [v|] eqn:E; [|done]. apply peek_spec in E.
    destruct Hk. apply list_elem_of_fmap. by exists (k, v).
Qed.

Lemma peek_some c k : is_Some (lru_peek k c) <-> k ∈ (lru_iter c).*1.
Proof.
  rewrite <- not_eq_None_Some, peek_none. split; [|tauto].
  intros Hn. destruct (decide (k ∈ (lru_iter c).*1)); [done|]. by destruct Hn.
Qed.

(** Using an entry keeps the set of entries. *)
Lemma get_entries k c e : e ∈ lru_iter (lru_get k c).2 <-> e ∈ lru_iter c.
Proof.
  rewrite get_iter. destruct (lru_peek k c) as [v|] eqn:E; [|done]. apply peek_spec in E.
  rewrite elem_of_app, elem_of_without, list_elem_of_singleton. split.
  - intros [[? _]| ->]; done.
  - intros He. destruct (decide (e.1 = k)) as [Hk|]; [right|by left].
    destruct e as [k' v']. simpl in Hk. subst k'. f_equal. by eapply iter_functional.
Qed.

(** ** Invariant *)

(** The pool is an interval of one address family. *)
Definition pool_ok (v : VirtualDns) : Prop :=
  is_ipv4 (network_addr v) = is_ipv4 (broadcast_addr v) /\
  ip_wf (network_addr v) /\ ip_wf (broadcast_addr v) /\
  ip_value (network_addr v) <= ip_value (broadcast_addr v).

(** The name table is the inverse of the cache. *)
Definition maps_agree (v : VirtualDns) : Prop :=
  forall n ip, name_to_ip v !! n = Some ip <-> (ip, n) ∈ lru_iter (lru_cache v).

Definition vd_wf (v : VirtualDns) : Prop :=
  pool_ok v /\ address_in_pool v (next_addr v) = true /\ trailing_dot v = false /\
  (forall e, e ∈ lru_iter (lru_cache v) -> address_in_pool v e.1 = true) /\ maps_agree v.

(** Only the cache file and its bookkeeping differ. *)
Definition same_but_persistence (v v' : VirtualDns) : Prop :=
  exists p, v' = set_persistence p v.

Lemma rewrite_frame v : same_but_persistence v (rewrite_persistence windows v).2.
Proof.
  unfold rewrite_persistence. destruct (persistence v) as [p|] eqn:E.
  - destruct (Persistence.rewrite _ _ _ _ _ _) as [r p']. by eexists.
  - exists None. destruct v. simpl in *. by subst.
Qed.

Lemma frame_trans v p v2 : same_but_persistence (set_persistence p v) v2 -> same_but_persistence v v2.
Proof. intros [q ->]. by exists q. Qed.

Lemma frame_refl v : same_but_persistence v v.
Proof. exists (persistence v). by destruct v. Qed.

Lemma persist_result_frame ip name v : same_but_persistence v (persist_result windows ip name v).2.
Proof.
  unfold persist_result. destruct (persistence v) as [p|]; [|apply frame_refl].
  destruct (Persistence.needs_rewrite p) as [[[]|e|] p1]; try (by eexists).
  - eapply frame_trans, rewrite_frame.
  - destruct (Persistence.append_mapping ip name p1) as [[u|e|] p2]; try (by eexists).
    destruct (Persistence.should_compact _ _); [|by eexists].
    eapply frame_trans, rewrite_frame.
Qed.

Lemma persist_frame ip name v : same_but_persistence v (persist_mapping windows ip name v).
Proof.
  unfold persist_mapping. pose proof (persist_result_frame ip name v) as Hf.
  destruct (persist_result windows ip name v) as [[u|e|] v']; simpl in Hf; [done|..];
    destruct Hf as [p ->]; (eapply frame_trans; [apply rewrite_frame]).
Qed.

Lemma retry_frame v : same_but_persistence v (retry_dirty_persistence windows v).
Proof.
  unfold retry_dirty_persistence. destruct (persistence v) as [p|] eqn:E; [|apply frame_refl].
  destruct (Persistence.dirty p); [apply rewrite_frame|apply frame_refl].
Qed.

Lemma wf_frame v v' : same_but_persistence v v' -> vd_wf v -> vd_wf v'.
Proof. intros [p ->]. done. Qed.

(** ** Positions in the pool *)

Definition pool_size (v : VirtualDns) : Z := ip_value (broadcast_addr v) - ip_value (network_addr v) + 1.

(** An address of the pool's family. *)
Definition pool_addr (v : VirtualDns) (z : Z) : IpAddr :=
  match network_addr v with V4 _ => V4 z | V6 _ => V6 z end.

(** The [j]-th address from [a] on, going around at the end of the pool. *)
Definition addr_at (v : VirtualDns) (a : IpAddr) (j : nat) : IpAddr :=
  pool_addr v (ip_value (network_addr v) +
    (ip_value a - ip_value (network_addr v) + Z.of_nat j) mod pool_size v).

Lemma in_pool_iff v a :
  pool_ok v ->
  address_in_pool v a = true <->
  is_ipv4 a = is_ipv4 (network_addr v) /\
  ip_value (network_addr v) <= ip_value a <= ip_value (broadcast_addr v).
Proof.
  intros (Hf & _ & _ & _). unfold address_in_pool. rewrite !andb_true_iff, eqb_true_iff.
  destruct a, (network_addr v), (broadcast_addr v); simpl in *; try done;
    rewrite ?Z.leb_le; (split; intros ?; destruct_and?; split_and!; done).
Qed.

Lemma pool_addr_value v z : ip_value (pool_addr v z) = z.
Proof. unfold pool_addr. by destruct (network_addr v). Qed.

Lemma pool_addr_eq v a : is_ipv4 a = is_ipv4 (network_addr v) -> pool_addr v (ip_value a) = a.
Proof. unfold pool_addr. destruct a, (network_addr v); done. Qed.

Lemma addr_at_in_pool v a j : pool_ok v -> address_in_pool v (addr_at v a j) = true.
Proof.
  intros Hp. rewrite in_pool_iff by done. unfold addr_at. rewrite pool_addr_value. split.
  - unfold pool_addr. by destruct (network_addr v).
  - destruct Hp as (_ & _ & _ & Hle). unfold pool_size.
    pose proof (Z.mod_pos_bound (ip_value a - ip_value (network_addr v) + Z.of_nat j)
      (ip_value (broadcast_addr v) - ip_value (network_addr v) + 1)). lia.
Qed.

Lemma addr_at_0 v a : pool_ok v -> address_in_pool v a = true -> addr_at v a 0 = a.
Proof.
  intros Hp Ha. apply in_pool_iff in Ha as [Hf Hr]; [|done]. unfold addr_at, pool_size.
  rewrite Z.add_0_r, Z.mod_small by lia. rewrite <- (pool_addr_eq v a) at 2 by done. f_equal. lia.
Qed.

Lemma addr_at_offset v a j :
  ip_value (addr_at v a j) - ip_value (network_addr v) =
  (ip_value a - ip_value (network_addr v) + Z.of_nat j) mod pool_size v.
Proof. unfold addr_at. rewrite pool_addr_value. lia. Qed.

Lemma addr_at_inj v a j k :
  pool_ok v -> Z.of_nat j < pool_size v -> Z.of_nat k < pool_size v ->
  addr_at v a j = addr_at v a k -> j = k.
Proof.
  intros (_ & _ & _ & Hle) Hj Hk He.
  pose proof (addr_at_offset v a j) as Oj. pose proof (addr_at_offset v a k) as Ok_. rewrite He in Oj.
  set (x := ip_value a - ip_value (network_addr v)) in *.
  assert (0 < pool_size v) by (unfold pool_size; lia).
  pose proof (Z.div_mod (x + Z.of_nat j) (pool_size v)) as Dj.
  pose proof (Z.div_mod (x + Z.of_nat k) (pool_size v)) as Dk.
  destruct (Z.lt_trichotomy ((x + Z.of_nat j) / pool_size v) ((x + Z.of_nat k) / pool_size v))
    as [?|[Hq|?]]; [nia|rewrite Hq in Dj; lia|nia].
Qed.

Lemma addr_at_next v a j :
  pool_ok v ->
  (if bool_decide (addr_at v a j = broadcast_addr v) then network_addr v
   else increment_ip (addr_at v a j)) = addr_at v a (S j).
Proof.
  intros Hp. pose proof (addr_at_in_pool v a j Hp) as Hin. apply in_pool_iff in Hin as [Hf Hr]; [|done].
  pose proof (addr_at_offset v a j) as Ho. destruct Hp as (Hfam & Hn & Hb & Hle).
  set (x := ip_value a - ip_value (network_addr v)) in *.
  assert (addr_at v a (S j) = pool_addr v (ip_value (network_addr v) +
    (x + Z.of_nat j + 1) mod pool_size v)) as ->.
  { unfold addr_at. do 2 f_equal. f_equal. unfold x. lia. }
  rewrite <- (Zplus_mod_idemp_l (x + Z.of_nat j)), <- Ho.
  case_bool_decide as He.
  - rewrite He. replace (ip_value (broadcast_addr v) - ip_value (network_addr v) + 1) with (pool_size v) by done.
    rewrite Z.mod_same by (unfold pool_size; lia). rewrite Z.add_0_r. symmetry. by apply pool_addr_eq.
  - assert (ip_value (addr_at v a j) <> ip_value (broadcast_addr v)) as Hne.
    { intros Heq. apply He. destruct (addr_at v a j), (broadcast_addr v), (network_addr v); simpl in *;
        try done; by f_equal. }
    rewrite Z.mod_small by (unfold pool_size; lia).
    rewrite increment_ip_spec.
    + unfold pool_addr. destruct (addr_at v a j) as [z|z], (network_addr v) as [n|n], (broadcast_addr v) as [b|b];
        simpl in *; try done; rewrite Z.mod_small by lia; f_equal; lia.
    + destruct (addr_at v a j) as [z|z], (network_addr v) as [n|n], (broadcast_addr v) as [b|b];
        simpl in *; try done; lia.
Qed.

Lemma addr_at_wrap v a j :
  pool_ok v -> address_in_pool v a = true -> (0 < j)%nat -> addr_at v a j = a -> pool_size v <= Z.of_nat j.
Proof.
  intros Hp Ha Hj He. destruct (Z_lt_ge_dec (Z.of_nat j) (pool_size v)) as [Hlt|]; [|lia].
  rewrite <- (addr_at_0 v a) in He at 2 by done.
  apply addr_at_inj in He; [lia|done|done|]. unfold pool_size in *. destruct Hp as (_ & _ & _ & ?). lia.
Qed.

(** Addresses in use from [a] on are no more than the entries. *)
Lemma addr_at_count v a k c :
  pool_ok v -> Z.of_nat k <= pool_size v ->
  (forall j, (j < k)%nat -> addr_at v a j ∈ (lru_iter c).*1) -> (k <= length (lru_iter c))%nat.
Proof.
  intros Hp Hk Hin. rewrite <- (length_fmap fst (lru_iter c)).
  rewrite <- (length_seq k 0), <- (length_fmap (addr_at v a)).
  apply submseteq_length, NoDup_submseteq.
  - apply NoDup_fmap_2_strong; [|apply NoDup_seq].
    intros i j [_ Hi]%elem_of_seq [_ Hj]%elem_of_seq. apply addr_at_inj; [done|lia|lia].
  - intros x (j & -> & [_ Hj]%elem_of_seq)%list_elem_of_fmap. apply Hin. lia.
Qed.

(** ** Allocation *)

(** The pool and its settings, which no operation changes. *)
Definition same_pool (v v' : VirtualDns) : Prop :=
  trailing_dot v' = trailing_dot v /\ network_addr v' = network_addr v /\
  broadcast_addr v' = broadcast_addr v.

(** What an allocation of [ip] for [name] does to the mappings: a free address
    is added at the recent end, or, when every address is in use, the entry at
    the other end is replaced. *)
Definition allocated (v : VirtualDns) (name : string) (ip : IpAddr) (v' : VirtualDns) : Prop :=
  same_pool v v' /\ address_in_pool v ip = true /\ address_in_pool v (next_addr v') = true /\
  (((ip ∉ (lru_iter (lru_cache v)).*1) /\
    lru_iter (lru_cache v') = lru_iter (lru_cache v) ++ [(ip, name)] /\
    name_to_ip v' = <[name := ip]> (name_to_ip v)) \/
   (exists old rest, lru_iter (lru_cache v) = (ip, old) :: rest /\
    lru_iter (lru_cache v') = rest ++ [(ip, name)] /\
    name_to_ip v' = <[name := ip]> (delete old (name_to_ip v)) /\
    (forall a, address_in_pool v a = true -> a ∈ (lru_iter (lru_cache v)).*1))).

Lemma allocated_frame v name ip v1 v2 :
  allocated v name ip v1 -> same_but_persistence v1 v2 -> allocated v name ip v2.
Proof. intros Ha [p ->]. exact Ha. Qed.

Lemma allocated_next v a name ip v' :
  allocated (set_next a v) name ip v' -> allocated v name ip v'.
Proof. done. Qed.

(** Every address of the pool is some [addr_at]. *)
Lemma addr_at_surj v s0 a :
  pool_ok v -> address_in_pool v a = true -> exists j, Z.of_nat j < pool_size v /\ addr_at v s0 j = a.
Proof.
  intros Hp Ha. apply in_pool_iff in Ha as [Hf Hr]; [|done].
  assert (0 < pool_size v) as Hpos by (destruct Hp as (_ & _ & _ & ?); unfold pool_size; lia).
  exists (Z.to_nat ((ip_value a - ip_value s0) mod pool_size v)).
  pose proof (Z.mod_pos_bound (ip_value a - ip_value s0) (pool_size v) Hpos) as Hm.
  rewrite Z2Nat.id by lia. split; [lia|]. unfold addr_at. rewrite Z2Nat.id by lia.
  rewrite Zplus_mod_idemp_r.
  replace (ip_value s0 - ip_value (network_addr v) + (ip_value a - ip_value s0))
    with (ip_value a - ip_value (network_addr v)) by lia.
  rewrite Z.mod_small by (unfold pool_size; lia).
  rewrite <- (pool_addr_eq v a) at 2 by done. f_equal. lia.
Qed.

Lemma recycle_spec v name s0 :
  vd_wf v -> (forall a, address_in_pool v a = true -> a ∈ (lru_iter (lru_cache v)).*1) ->
  address_in_pool v s0 = true ->
  exists ip old c, lru_remove_lru (lru_cache v) = Some ((ip, old), c) /\
    allocated v name ip (set_maps (lru_insert ip name c) (<[name := ip]> (delete old (name_to_ip v)))
      (set_next s0 v)).
Proof.
  intros (Hp & Hn & Ht & Hin & Hag) Hfull Hs0.
  pose proof (remove_lru_spec (lru_cache v)) as Hl.
  destruct (lru_iter (lru_cache v)) as [|[ip old] rest] eqn:Hit.
  { specialize (Hfull _ Hn). by apply elem_of_nil in Hfull. }
  destruct Hl as (c & Hc & Hrest). exists ip, old, c. split; [done|].
  split_and!; [done..| |done|].
  - apply (Hin (ip, old)). by left.
  - right. exists old, rest. rewrite Hit. split_and!; [done| |done|done]. simpl.
    rewrite insert_iter, Hrest. f_equal. apply without_id.
    pose proof (iter_nodup (lru_cache v)) as Hnd. rewrite Hit in Hnd. simpl in Hnd.
    by apply NoDup_cons in Hnd as [? _].
Qed.

Lemma alloc_loop_spec fuel v s0 name j :
  vd_wf v -> address_in_pool v s0 = true -> next_addr v = addr_at v s0 j -> Z.of_nat j < pool_size v ->
  (forall i, (i < j)%nat -> addr_at v s0 i ∈ (lru_iter (lru_cache v)).*1) ->
  (S (length (lru_iter (lru_cache v))) <= fuel + j)%nat ->
  exists ip v1, alloc_loop windows fuel s0 name v = (Ok ip, persist_mapping windows ip name v1) /\
    allocated v name ip v1 /\ persistence v1 = persistence v.
Proof.
  revert v j. induction fuel as [|fuel IH]; intros v j Hwf Hs0 Hnext Hj Hused Hfuel.
  { pose proof Hwf as (Hp & _). pose proof (addr_at_count v s0 j (lru_cache v) Hp ltac:(lia) Hused). lia. }
  pose proof Hwf as (Hp & Hn & Ht & Hin & Hag). cbn [alloc_loop].
  destruct (lru_peek (next_addr v) (lru_cache v)) as [n|] eqn:Hpk.
  - assert (next_addr v ∈ (lru_iter (lru_cache v)).*1) as Hocc by (apply peek_some; by rewrite Hpk).
    assert (forall i, (i < S j)%nat -> addr_at v s0 i ∈ (lru_iter (lru_cache v)).*1) as Hused'.
    { intros i Hi. destruct (decide (i = j)) as [->|]; [by rewrite <- Hnext|]. apply Hused. lia. }
    rewrite Hnext, addr_at_next by done.
    case_bool_decide as Hw.
    + assert (forall a, address_in_pool v a = true -> a ∈ (lru_iter (lru_cache v)).*1) as Hfull.
      { intros a Ha. destruct (addr_at_surj v s0 a Hp Ha) as (i & Hi & <-). apply Hused'.
        pose proof (addr_at_wrap v s0 (S j) Hp Hs0 (Nat.lt_0_succ j) Hw). lia. }
      rewrite Hw. destruct (recycle_spec v name s0 Hwf Hfull Hs0) as (ip & old & c & Hc & Hal).
      change (lru_cache (set_next s0 v)) with (lru_cache v). rewrite Hc.
      eexists ip, _. split; [reflexivity|]. by split.
    + destruct (IH (set_next (addr_at v s0 (S j)) v) (S j)) as (ip & v' & Hr & Hal & Hpe); try done.
      * split_and!; try done. apply (addr_at_in_pool v s0 (S j) Hp).
      * change (Z.of_nat (S j) < pool_size v). destruct (Z_lt_ge_dec (Z.of_nat (S j)) (pool_size v)); [done|].
        destruct Hw. assert (pool_size v = Z.of_nat (S j)) as Hsz by lia.
        rewrite <- (addr_at_0 v s0) at 2 by done. unfold addr_at. do 2 f_equal.
        rewrite <- Hsz, <- (Z.mod_add (_ + Z.of_nat 0) 1) by (unfold pool_size in *; lia). f_equal. lia.
      * simpl. lia.
      * exists ip, v'. split; [done|]. split; [by eapply allocated_next|done].
  - set (v1 := set_maps (lru_insert (next_addr v) name (lru_cache v))
                 (<[name := next_addr v]> (name_to_ip v)) v).
    exists (next_addr v), v1. destruct (persist_frame (next_addr v) name v1) as [p Hpf].
    split; [by rewrite Hpf|]. split; [|done].
    apply peek_none in Hpk. split_and!; [done..| |].
    + exact Hn.
    + left. split_and!; [done| |done]. simpl. rewrite insert_iter. f_equal. by apply without_id.
Qed.

Lemma recycled_entry v ip old rest n a :
  maps_agree v -> lru_iter (lru_cache v) = (ip, old) :: rest ->
  (n <> old /\ name_to_ip v !! n = Some a) <-> (a, n) ∈ rest.
Proof.
  intros Hag Hit. pose proof (iter_nodup (lru_cache v)) as Hnd. rewrite Hit in Hnd. simpl in Hnd.
  apply NoDup_cons in Hnd as [Hni _]. rewrite (Hag n a), Hit, elem_of_cons. split.
  - intros [Hne [[= -> ->]|Hin]]; done.
  - intros Hin. split; [|by right]. intros ->.
    assert (name_to_ip v !! old = Some ip) as H1 by (apply Hag; rewrite Hit; by left).
    assert (name_to_ip v !! old = Some a) as H2 by (apply Hag; rewrite Hit; by right).
    assert (a = ip) as -> by congruence. destruct Hni. apply list_elem_of_fmap. by exists (ip, old).
Qed.

Lemma allocated_agree v name ip v' :
  maps_agree v -> name_to_ip v !! name = None -> allocated v name ip v' -> maps_agree v'.
Proof.
  intros Hag Hno (_ & _ & _ & [(Hfree & Hit & Hnm)|(old & rest & Hv & Hit & Hnm & _)]) n a;
    rewrite Hit, Hnm, lookup_insert_Some, elem_of_app, list_elem_of_singleton.
  - rewrite (Hag n a). split.
    + intros [[-> ->]|[Hne Hin]]; [by right|by left].
    + intros [Hin|[= -> ->]]; [right|by left]. split; [|done]. intros ->.
      apply Hag in Hin. congruence.
  - rewrite lookup_delete_Some. rewrite <- (recycled_entry v ip old rest n a) by done.
    assert (name <> old) as Hno'.
    { intros ->. assert (name_to_ip v !! old = Some ip) by (apply Hag; rewrite Hv; by left). congruence. }
    split.
    + intros [[-> ->]|[Hne [Ho Hl]]]; [by right|by left].
    + intros [[Ho Hl]|[= -> ->]]; [right|by left]. split_and!; try done. congruence.
Qed.

Lemma allocated_wf v name ip v' :
  vd_wf v -> name_to_ip v !! name = None -> allocated v name ip v' -> vd_wf v'.
Proof.
  intros (Hp & Hn & Ht & Hin & Hag) Hno Hal. pose proof (allocated_agree _ _ _ _ Hag Hno Hal) as Hag'.
  destruct Hal as ((Hdot & Hnet & Hbr) & Hip & Hnx & Hcase).
  assert (forall a, address_in_pool v' a = address_in_pool v a) as Hpool.
  { intros a. unfold address_in_pool. by rewrite Hnet, Hbr. }
  unfold vd_wf, pool_ok. rewrite Hnet, Hbr, Hdot, Hpool.
  split; [done|]. split; [done|]. split; [done|]. split; [|done].
  intros e. rewrite Hpool. destruct Hcase as [(_ & -> & _)|(old & rest & Hv & -> & _)];
    rewrite elem_of_app, list_elem_of_singleton; intros [He| ->]; try done; apply Hin; [done|].
  rewrite Hv. by right.
Qed.

Lemma touch_wf a v : vd_wf v -> vd_wf (touch_ip a v).
Proof.
  intros (Hp & Hn & Ht & Hin & Hag). split; [done|]. split; [done|]. split; [done|]. split.
  - intros e He. simpl in He. rewrite get_entries in He. by apply Hin.
  - intros n b. simpl. rewrite get_entries. apply Hag.
Qed.

(** [find_or_allocate_ip] by its two cases. *)
Lemma find_cases name v :
  vd_wf v -> exists ip v', find_or_allocate_ip windows name v = (Ok ip, v') /\
  ((name_to_ip v !! canonical_name v name = Some ip /\
    v' = retry_dirty_persistence windows (touch_ip ip v)) \/
   (name_to_ip v !! canonical_name v name = None /\
    exists v1, allocated v (canonical_name v name) ip v1 /\ persistence v1 = persistence v /\
      v' = persist_mapping windows ip (canonical_name v name) v1)).
Proof.
  intros Hwf. unfold find_or_allocate_ip.
  destruct (name_to_ip v !! canonical_name v name) as [ip|] eqn:Hl.
  - eexists ip, _. split; [reflexivity|]. by left.
  - pose proof Hwf as (Hp & Hn & _).
    destruct (alloc_loop_spec (S (lru_len (lru_cache v))) v (next_addr v) (canonical_name v name) 0)
      as (ip & v1 & Hr & Hal & Hpe); try done.
    + by rewrite addr_at_0.
    + destruct Hp as (_ & _ & _ & ?). unfold pool_size. lia.
    + intros i Hi. lia.
    + rewrite len_iter. lia.
    + eexists ip, _. split; [done|]. right. split; [done|]. by exists v1.
Qed.

(** The same, with the cache file left aside. *)
Lemma find_mapping name v :
  vd_wf v -> exists ip v', find_or_allocate_ip windows name v = (Ok ip, v') /\
  ((name_to_ip v !! canonical_name v name = Some ip /\ same_but_persistence (touch_ip ip v) v') \/
   (name_to_ip v !! canonical_name v name = None /\ allocated v (canonical_name v name) ip v')).
Proof.
  intros Hwf. destruct (find_cases name v Hwf) as (ip & v' & Hf & Hc). exists ip, v'. split; [done|].
  destruct Hc as [[Hl ->]|[Hl (v1 & Hal & _ & ->)]]; [left|right]; (split; [done|]).
  - apply retry_frame.
  - eapply allocated_frame; [exact Hal|apply persist_frame].
Qed.

Lemma find_wf name v ip v' :
  vd_wf v -> find_or_allocate_ip windows name v = (Ok ip, v') ->
  vd_wf v' /\ same_pool v v' /\ address_in_pool v ip = true /\
  name_to_ip v' !! canonical_name v name = Some ip.
Proof.
  intros Hwf Hf. destruct (find_mapping name v Hwf) as (ip0 & v0 & Hf0 & Hc).
  rewrite Hf0 in Hf. injection Hf as <- <-. destruct Hc as [[Hl [p ->]]|[Hl Hal]].
  - split_and!; try done; [by apply touch_wf|]. destruct Hwf as (_ & _ & _ & Hin & Hag).
    apply (Hin (ip0, canonical_name v name)). by apply Hag.
  - pose proof (allocated_wf _ _ _ _ Hwf Hl Hal) as Hwf'. destruct Hal as (Hsp & Hip & _ & Hcase).
    split_and!; try done. destruct Hcase as [(_ & _ & ->)|(old & rest & _ & _ & -> & _)];
      by rewrite lookup_insert_eq.
Qed.

Lemma resolve_mapped ip n v :
  vd_wf v -> name_to_ip v !! n = Some ip -> (resolve_ip ip v).1 = Some n.
Proof.
  intros (_ & _ & _ & _ & Hag) Hl. unfold resolve_ip. pose proof (get_value ip (lru_cache v)) as Hg.
  destruct (lru_get ip (lru_cache v)) as [r c]. simpl in *. rewrite Hg. apply peek_spec. by apply Hag.
Qed.

Lemma canonical_same_pool v v' n : same_pool v v' -> canonical_name v' n = canonical_name v n.
Proof. intros (Ht & _). unfold canonical_name. by rewrite Ht. Qed.

(** C23. A lookup never fails: whatever the pool, the mappings and the state of the
    cache file, it returns an address of the pool that resolves back to the
    canonical form of the name, and it keeps the invariant. *)
Theorem virtual_dns_allocates name v :
  vd_wf v ->
  exists ip v', find_or_allocate_ip windows name v = (Ok ip, v') /\ vd_wf v' /\
    address_in_pool v ip = true /\ name_to_ip v' !! canonical_name v name = Some ip /\
    (resolve_ip ip v').1 = Some (canonical_name v name).
Proof.
  intros Hwf. destruct (find_mapping name v Hwf) as (ip & v' & Hf & _). exists ip, v'.
  destruct (find_wf name v ip v' Hwf Hf) as (Hwf' & _ & Hip & Hl).
  split_and!; try done. by apply resolve_mapped.
Qed.

(** C2. A new name takes the address of another one only when every address of the
    pool is in use, and then that of the least recently used name; all other
    mappings stay. *)
Theorem virtual_dns_stable name v ip v' other a :
  vd_wf v -> find_or_allocate_ip windows name v = (Ok ip, v') ->
  name_to_ip v !! other = Some a -> other <> canonical_name v name ->
  name_to_ip v' !! other = Some a \/
  (head (lru_iter (lru_cache v)) = Some (a, other) /\ ip = a /\
   name_to_ip v !! canonical_name v name = None /\
   forall b, address_in_pool v b = true -> b ∈ (lru_iter (lru_cache v)).*1).
Proof.
  intros Hwf Hf Ho Hne. destruct (find_mapping name v Hwf) as (ip0 & v0 & Hf0 & Hc).
  rewrite Hf0 in Hf. injection Hf as <- <-. destruct Hc as [[Hl [p ->]]|[Hl Hal]]; [by left|].
  destruct Hal as (_ & _ & _ & [(_ & _ & ->)|(old & rest & Hv & _ & -> & Hfull)]).
  - left. by rewrite lookup_insert_ne.
  - destruct (decide (other = old)) as [->|Hold].
    + right. assert (name_to_ip v !! old = Some ip0) as Hip.
      { destruct Hwf as (_ & _ & _ & _ & Hag). apply Hag. rewrite Hv. by left. }
      assert (a = ip0) as -> by congruence. split_and!; [by rewrite Hv|done..].
    + left. rewrite lookup_insert_ne by done. by rewrite lookup_delete_ne.
Qed.

(** Looking a name up again, in any spelling with the same canonical form,
    gives the same address and changes no mapping. *)
Theorem virtual_dns_repeats name name' v ip v1 :
  vd_wf v -> find_or_allocate_ip windows name v = (Ok ip, v1) ->
  canonical_name v name' = canonical_name v name ->
  exists v2, find_or_allocate_ip windows name' v1 = (Ok ip, v2) /\ name_to_ip v2 = name_to_ip v1.
Proof.
  intros Hwf Hf Hcan. destruct (find_wf name v ip v1 Hwf Hf) as (Hwf1 & Hsp & _ & Hl).
  unfold find_or_allocate_ip. rewrite (canonical_same_pool v v1) by done. rewrite Hcan, Hl.
  eexists. split; [reflexivity|]. destruct (retry_frame (touch_ip ip v1)) as [p ->]. done.
Qed.

(** Two names never share an address, and the address handed out for a name is
    resolved to that name as long as the mapping exists. *)
Theorem virtual_dns_bijective v n1 n2 ip :
  vd_wf v -> name_to_ip v !! n1 = Some ip -> name_to_ip v !! n2 = Some ip ->
  n1 = n2 /\ (resolve_ip ip v).1 = Some n1 /\ vd_wf (resolve_ip ip v).2.
Proof.
  intros Hwf H1 H2. pose proof Hwf as (_ & _ & _ & _ & Hag). split_and!.
  - apply Hag in H1. apply Hag in H2. by eapply iter_functional.
  - by apply resolve_mapped.
  - pose proof (touch_wf ip v Hwf) as Ht. unfold touch_ip in Ht. unfold resolve_ip.
    by destruct (lru_get ip (lru_cache v)).
Qed.

(** [increment_ip] is the successor modulo the width of the address. *)
Theorem increment_ip_correct a :
  ip_wf a ->
  increment_ip a = match a with V4 n => V4 ((n + 1) mod 2 ^ 32) | V6 n => V6 ((n + 1) mod 2 ^ 128) end.
Proof. apply increment_ip_spec. Qed.
End proofs.
End VirtualDnsProofs.
