(* ===== verification/VirtualDnsJournal.v ===== *)
(** * Fake addresses survive a restart

    [VirtualDns] with its journal: after any sequence of lookups, loading the
    cache file into a new resolver gives the same table, so that an address an
    application has cached still resolves to the same name. *)

From S2P Require Import Prelude Net Dns Persistence VirtualDns VirtualDnsProofs.

Module VirtualDnsJournal.
Import VirtualDns VirtualDnsProofs.

(** ** Canonical names *)

Fixpoint last_dot (s : string) : bool :=
  match s with
  | EmptyString => false
  | String c EmptyString => bool_decide (Ascii.N_of_ascii c = 46%N)
  | String _ s' => last_dot s'
  end.

Lemma substring_full s n : (String.length s <= n)%nat -> String.substring 0 n s = s.
Proof.
  revert n. induction s as [|c s IH]; intros [|n] Hn; simpl in *; [done|done|lia|].
  f_equal. apply IH. lia.
Qed.

Lemma ends_with_dot s : ends_with "." s = last_dot s.
Proof.
  unfold ends_with. induction s as [|c [|c' s] IH]; [done| |].
  - simpl. change (1 <=? 1)%nat with true. simpl.
    destruct (decide (Ascii.N_of_ascii c = 46%N)) as [Hc|Hc].
    + rewrite (bool_decide_eq_true_2 (_ = 46%N)) by done. apply bool_decide_eq_true_2.
      f_equal. rewrite <- (Ascii.ascii_N_embedding c), Hc. done.
    + rewrite (bool_decide_eq_false_2 (_ = 46%N)) by done. apply bool_decide_eq_false_2.
      intros [= ->]. done.
  - change (last_dot (String c (String c' s))) with (last_dot (String c' s)). rewrite <- IH.
    cbn [String.length]. change (1 <=? S ?n)%nat with true. cbn [andb].
    replace (S (S (String.length s)) - 1)%nat with (S (S (String.length s) - 1)) by lia. done.
Qed.

Lemma trim_dots_last s : last_dot (trim_dots s) = false.
Proof.
  induction s as [|c s IH]; [done|]. simpl. destruct (trim_dots s) as [|c' t] eqn:E.
  - case_bool_decide as Hc; [done|]. simpl. by rewrite bool_decide_eq_false_2.
  - exact IH.
Qed.

Lemma lower_char_dot c : Ascii.N_of_ascii (lower_char c) = 46%N <-> Ascii.N_of_ascii c = 46%N.
Proof.
  unfold lower_char, lower8. pose proof (Ascii.N_ascii_bounded c) as Hb.
  destruct (_ && _) eqn:E; b2p.
  - rewrite Ascii.N_ascii_embedding by lia. lia.
  - rewrite N2Z.id, Ascii.ascii_N_embedding. done.
Qed.

Lemma lower_last s : last_dot (to_ascii_lowercase s) = last_dot s.
Proof.
  induction s as [|c [|c' s] IH]; [done| |exact IH].
  simpl. apply bool_decide_ext, lower_char_dot.
Qed.

Lemma lower_char_idem c : lower_char (lower_char c) = lower_char c.
Proof.
  unfold lower_char at 1 3. pose proof (Ascii.N_ascii_bounded c) as Hb. unfold lower_char.
  assert (lower8 (Z.of_N (Ascii.N_of_ascii (Ascii.ascii_of_N (Z.to_N (lower8 (Z.of_N (Ascii.N_of_ascii c)))))))
    = lower8 (Z.of_N (Ascii.N_of_ascii c))) as Hl; [|by rewrite Hl].
  set (z := Z.of_N (Ascii.N_of_ascii c)). assert (0 <= z < 256) as Hz by (unfold z; lia).
  assert (0 <= lower8 z < 256) as Hlz by (unfold lower8; destruct (_ && _) eqn:E; b2p; lia).
  rewrite Ascii.N_ascii_embedding by lia. rewrite Z2N.id by lia.
  unfold lower8. destruct ((65 <=? z) && (z <=? 90)) eqn:E; [|by rewrite E]. b2p.
  destruct (_ && _) eqn:E2; [|done]. b2p. lia.
Qed.

Lemma lower_idem s : to_ascii_lowercase (to_ascii_lowercase s) = to_ascii_lowercase s.
Proof. induction s as [|c s IH]; [done|]. simpl. by rewrite lower_char_idem, IH. Qed.

(** Canonicalisation is idempotent: a stored name is found again as it is. *)
Lemma canonical_idem `{LruCache} v n :
  trailing_dot v = false -> canonical_name v (canonical_name v n) = canonical_name v n.
Proof.
  intros Ht. unfold canonical_name. rewrite Ht, !ends_with_dot, !andb_true_r, lower_last.
  destruct (last_dot n) eqn:E.
  - by rewrite trim_dots_last, lower_idem.
  - by rewrite E, lower_idem.
Qed.

Section journal.
Context `{LL : LruCacheLaws} `{CL : Persistence.CacheCodecLaws}.
Variable windows : bool.

(** A name as the cache file can hold it. *)
Definition name_ok (v : VirtualDns) (n : string) : Prop :=
  canonical_name v n = n /\ n <> "" /\ (String.length n <= 253)%nat.

Lemma without_twice k l : without k (without k l) = without k l.
Proof.
  apply without_id. intros ([k' n] & Hk & Hin)%list_elem_of_fmap. simpl in Hk. subst k'.
  by apply elem_of_without in Hin as [_ ?].
Qed.

(** ** Restoring one mapping *)

Definition drop_owner (v : VirtualDns) (ip : IpAddr) : gmap string IpAddr :=
  match lru_peek ip (lru_cache v) with Some o => delete o (name_to_ip v) | None => name_to_ip v end.

Lemma drop_owner_spec v ip n a :
  maps_agree v -> drop_owner v ip !! n = Some a <-> (a, n) ∈ without ip (lru_iter (lru_cache v)).
Proof.
  intros Hag. rewrite elem_of_without, <- (Hag n a). simpl. unfold drop_owner.
  destruct (lru_peek ip (lru_cache v)) as [o|] eqn:Hpk.
  - apply peek_spec in Hpk. apply Hag in Hpk as Ho. rewrite lookup_delete_Some. split.
    + intros [Hne Hl]. split; [done|]. intros ->. apply Hag in Hl. by destruct Hne; eapply iter_functional.
    + intros [Hl Hne]. split; [|done]. intros ->. congruence.
  - split; [|by intros [? _]]. intros Hl. split; [done|]. intros ->.
    apply Hag in Hl. apply peek_spec in Hl. congruence.
Qed.

Lemma restore_fresh w ip n :
  vd_wf w -> name_ok w n -> address_in_pool w ip = true -> name_to_ip w !! n = None ->
  exists w', restore_mapping ip n w = (true, w') /\ vd_wf w' /\ same_pool w w' /\
    next_addr w' = next_addr w /\ name_to_ip w' = <[n := ip]> (drop_owner w ip) /\
    lru_iter (lru_cache w') = without ip (lru_iter (lru_cache w)) ++ [(ip, n)].
Proof.
  intros (Hp & Hn & Ht & Hin & Hag) (Hcan & Hne & Hlen) Hip Hno. unfold restore_mapping.
  rewrite Hcan, Hip. rewrite (bool_decide_eq_false_2 (n = "")) by done.
  rewrite (proj2 (Nat.ltb_ge 253 _)) by done. cbn [orb negb]. rewrite Hno.
  pose proof (remove_value ip (lru_cache w)) as Hrv. pose proof (remove_iter ip (lru_cache w)) as Hri.
  destruct (lru_remove ip (lru_cache w)) as [o c]. simpl in Hrv, Hri. subst o.
  fold (drop_owner w ip). eexists. split; [reflexivity|].
  assert (lru_iter (lru_insert ip n c) = without ip (lru_iter (lru_cache w)) ++ [(ip, n)]) as Hit.
  { by rewrite insert_iter, Hri, without_twice. }
  split_and!; try done. split; [done|]. split; [done|]. split; [done|]. split.
  - intros e. simpl. rewrite Hit, elem_of_app, list_elem_of_singleton, elem_of_without.
    intros [[He _]| ->]; [by apply Hin|done].
  - intros m a. simpl. rewrite Hit, elem_of_app, list_elem_of_singleton, lookup_insert_Some.
    rewrite <- (drop_owner_spec w ip m a Hag). split.
    + intros [[-> ->]|[_ Hl]]; [by right|by left].
    + intros [Hl|[= -> ->]]; [right|by left]. split; [|done]. intros <-.
      apply (drop_owner_spec w ip n a Hag) in Hl. apply elem_of_without in Hl as [Hl _].
      apply Hag in Hl. congruence.
Qed.

(** A list of mappings whose addresses and names are all new is restored as
    it is. *)
Lemma restore_all_fresh l w rep :
  vd_wf w -> Forall (fun e => name_ok w e.2 /\ address_in_pool w e.1 = true) l ->
  NoDup (lru_iter (lru_cache w) ++ l).*1 -> NoDup (lru_iter (lru_cache w) ++ l).*2 ->
  exists w', restore_all l rep w = (rep, w') /\ vd_wf w' /\ same_pool w w' /\
    next_addr w' = next_addr w /\ lru_iter (lru_cache w') = lru_iter (lru_cache w) ++ l.
Proof.
  revert w rep. induction l as [|[ip n] l IH]; intros w rep Hwf Hok Hk Hn.
  { exists w. rewrite app_nil_r. by split_and!. }
  apply Forall_cons in Hok as [[Hnm Hip] Hok]. simpl in Hnm, Hip.
  assert (ip ∉ (lru_iter (lru_cache w)).*1) as Hk1.
  { rewrite fmap_app, NoDup_app in Hk. destruct Hk as (_ & Hd & _). intros Hi. apply (Hd _ Hi). by left. }
  assert (name_to_ip w !! n = None) as Hn1.
  { rewrite fmap_app, NoDup_app in Hn. destruct Hn as (_ & Hd & _).
    destruct (name_to_ip w !! n) as [a|] eqn:E; [|done]. exfalso. destruct Hwf as (_ & _ & _ & _ & Hag).
    apply Hag in E. apply (Hd n); [|by left]. apply list_elem_of_fmap. by exists (a, n). }
  destruct (restore_fresh w ip n Hwf Hnm Hip Hn1) as (w1 & Hr & Hwf1 & Hsp & Hnx & _ & Hit).
  rewrite without_id in Hit by done. cbn [restore_all]. rewrite Hr. cbn [negb]. rewrite orb_false_r.
  destruct (IH w1 rep Hwf1) as (w' & Hr' & Hwf' & Hsp' & Hnx' & Hit').
  - eapply Forall_impl; [exact Hok|]. intros e [(Hc & He) Hpool]. destruct Hsp as (Hd & Hne & Hb).
    unfold name_ok, address_in_pool in *. rewrite (canonical_same_pool w w1) by done.
    by rewrite Hne, Hb.
  - by rewrite Hit, <- app_assoc.
  - by rewrite Hit, <- app_assoc.
  - exists w'. split; [done|]. split; [done|]. split_and!.
    + destruct Hsp as (? & ? & ?), Hsp' as (? & ? & ?). split_and!; congruence.
    + congruence.
    + by rewrite Hit', Hit, <- app_assoc.
Qed.

Lemma agree_same v w :
  maps_agree v -> maps_agree w -> lru_iter (lru_cache v) = lru_iter (lru_cache w) ->
  name_to_ip v = name_to_ip w.
Proof.
  intros Hv Hw Hit. apply map_eq. intros n. apply option_eq. intros a. by rewrite (Hv n a), (Hw n a), Hit.
Qed.

Lemma iter_names_nodup v : maps_agree v -> NoDup (lru_iter (lru_cache v)).*2.
Proof.
  intros Hag. pose proof (iter_nodup (lru_cache v)) as Hnd.
  assert (forall a b n, (a, n) ∈ lru_iter (lru_cache v) -> (b, n) ∈ lru_iter (lru_cache v) -> a = b) as Hinj.
  { intros a b n Ha Hb. apply Hag in Ha. apply Hag in Hb. congruence. }
  revert Hnd Hinj. generalize (lru_iter (lru_cache v)) as l. clear Hag v. induction l as [|[k n] l IH];
    intros Hnd Hinj; [constructor|]. simpl in *. apply NoDup_cons in Hnd as [Hk Hnd]. constructor.
  - intros ([k' n'] & Hn & Hin)%list_elem_of_fmap. simpl in Hn. subst n'.
    assert (k = k') as <- by (eapply Hinj; [by left|by right]).
    apply Hk. apply list_elem_of_fmap. by exists (k, n).
  - apply IH; [done|]. intros a b m Ha Hb. eapply Hinj; by right.
Qed.

(** ** The cache file *)

Definition encode_all (ms : list (IpAddr * string)) : list (option string) :=
  (fun m => Some (Persistence.encode (Persistence.Mapping m.1 m.2))) <$> ms.

Lemma load_lines_encoded ms k :
  Forall (fun m => ip_wf m.1) ms -> exists n, Persistence.load_lines (encode_all ms) k = (ms, false, n).
Proof.
  revert k. induction ms as [|[ip n] ms IH]; intros k Hok; [by eexists|].
  apply Forall_cons in Hok as [Hip Hok]. simpl in *.
  rewrite bool_decide_eq_false_2 by apply Persistence.encode_not_empty.
  rewrite Persistence.decode_encode by done.
  destruct (IH (Persistence.sat (k + 1)) Hok) as [m ->]. by eexists.
Qed.

Lemma in_pool_wf v a : pool_ok v -> address_in_pool v a = true -> ip_wf a.
Proof.
  intros Hp Ha. apply in_pool_iff in Ha as [Hf Hr]; [|done]. destruct Hp as (Hfam & Hn & Hb & _).
  destruct a, (network_addr v), (broadcast_addr v); simpl in *; try done; lia.
Qed.

Definition journal_lines (v : VirtualDns) (cursor : IpAddr) (ms : list (IpAddr * string))
    : list (option string) :=
  Some (Persistence.encode (Persistence.Header Persistence.CACHE_VERSION (network_addr v)
          (broadcast_addr v) cursor)) :: encode_all ms.

(** Replaying [ms] from an empty resolver of the same pool gives the table of [v]. *)
Definition replays (v : VirtualDns) (ms : list (IpAddr * string)) : Prop :=
  forall w0, vd_wf w0 -> same_pool v w0 -> lru_iter (lru_cache w0) = [] ->
  exists w, restore_all ms false w0 = (false, w) /\ vd_wf w /\ same_pool v w /\
    name_to_ip w = name_to_ip v.

(** The cache file is up to date, and no call of the file system will fail. *)
Definition journal (v : VirtualDns) : Prop :=
  exists n d cursor ms,
    persistence v = Some (Persistence.mkCache n false d) /\
    d = Persistence.mkDisk (Some (journal_lines v cursor ms)) [] /\
    address_in_pool v cursor = true /\ Forall (fun m => address_in_pool v m.1 = true) ms /\
    replays v ms.

Definition names_ok (v : VirtualDns) : Prop :=
  forall e, e ∈ lru_iter (lru_cache v) -> name_ok v e.2.

Lemma name_ok_pool v w n : same_pool v w -> name_ok v n -> name_ok w n.
Proof. intros Hs (Hc & Hn). unfold name_ok. by rewrite (canonical_same_pool v w). Qed.

Lemma in_pool_same v w a : same_pool v w -> address_in_pool w a = address_in_pool v a.
Proof. intros (_ & Hn & Hb). unfold address_in_pool. by rewrite Hn, Hb. Qed.

(** The entries themselves replay to the table. *)
Lemma replays_entries v : vd_wf v -> names_ok v -> replays v (lru_iter (lru_cache v)).
Proof.
  intros Hwf Hnames w0 Hw0 Hsp Hempty. pose proof Hwf as (Hp & _ & _ & Hin & Hag).
  destruct (restore_all_fresh (lru_iter (lru_cache v)) w0 false) as (w & Hr & Hww & Hsw & _ & Hit); [done| | | |].
  - apply Forall_forall. intros e He. split; [by eapply name_ok_pool; [|apply Hnames]|].
    rewrite (in_pool_same v w0) by done. by apply Hin.
  - rewrite Hempty. apply iter_nodup.
  - rewrite Hempty. by apply iter_names_nodup.
  - exists w. rewrite Hempty in Hit. split_and!; [done..| |].
    + destruct Hsp as (? & ? & ?), Hsw as (? & ? & ?). split_and!; congruence.
    + apply agree_same; [by destruct Hww as (_ & _ & _ & _ & ?)|done|done].
Qed.

Lemma rewrite_ok v n0 dirty0 f :
  persistence v = Some (Persistence.mkCache n0 dirty0 (Persistence.mkDisk f [])) ->
  exists n, rewrite_persistence windows v =
    (Ok tt, set_persistence (Some (Persistence.mkCache n false (Persistence.mkDisk
       (Some (journal_lines v (next_addr v) (lru_iter (lru_cache v)))) []))) v).
Proof.
  intros Hp. unfold rewrite_persistence. rewrite Hp. exists (Persistence.sat (len (lru_iter (lru_cache v)))).
  unfold Persistence.rewrite, Persistence.try_io, Persistence.attempt, Persistence.next_outcome. run_M.
  by destruct windows, f.
Qed.

Lemma journal_after_rewrite v n :
  vd_wf v -> names_ok v ->
  journal (set_persistence (Some (Persistence.mkCache n false (Persistence.mkDisk
    (Some (journal_lines v (next_addr v) (lru_iter (lru_cache v)))) []))) v).
Proof.
  intros Hwf Hnames. pose proof Hwf as (_ & Hn & _ & Hin & _).
  eexists n, _, (next_addr v), (lru_iter (lru_cache v)). split; [reflexivity|].
  split; [reflexivity|]. split; [done|]. split; [by apply Forall_forall|].
  exact (replays_entries v Hwf Hnames).
Qed.

Lemma restore_all_app a b rep w :
  restore_all (a ++ b) rep w = (let '(rep', w') := restore_all a rep w in restore_all b rep' w').
Proof.
  revert rep w. induction a as [|[ip n] a IH]; intros rep w; simpl; [done|].
  destruct (restore_mapping ip n w). apply IH.
Qed.

(** Recording a mapping in an up-to-date file. *)
Lemma persist_journal v n cursor ms ip name :
  vd_wf v -> names_ok v -> address_in_pool v ip = true ->
  persistence v = Some (Persistence.mkCache n false
    (Persistence.mkDisk (Some (journal_lines v cursor ms)) [])) ->
  address_in_pool v cursor = true -> Forall (fun m => address_in_pool v m.1 = true) ms ->
  replays v (ms ++ [(ip, name)]) ->
  journal (persist_mapping windows ip name v).
Proof.
  intros Hwf Hnames Hip Hp Hcur Hms Hrep. unfold persist_mapping, persist_result. rewrite Hp.
  cbn [Persistence.needs_rewrite Persistence.dirty Persistence.try_io Persistence.attempt
    Persistence.next_outcome Persistence.outcomes Persistence.disk Persistence.file journal_lines].
  unfold Persistence.append_mapping. run_M.
  set (p2 := Persistence.mkCache _ false _).
  destruct (Persistence.should_compact _ _).
  - edestruct (rewrite_ok (set_persistence (Some p2) v)) as [m Hrw]; [reflexivity|].
    rewrite Hrw. exact (journal_after_rewrite v m Hwf Hnames).
  - eexists _, _, cursor, (ms ++ [(ip, name)]). split; [reflexivity|]. split.
    { unfold journal_lines, encode_all. by rewrite fmap_app. }
    split; [done|]. split; [|done]. apply Forall_app. split; [done|]. by constructor.
Qed.

Lemma same_pool_trans v w x : same_pool v w -> same_pool w x -> same_pool v x.
Proof. intros (? & ? & ?) (? & ? & ?). split_and!; congruence. Qed.

Lemma same_pool_sym v w : same_pool v w -> same_pool w v.
Proof. intros (? & ? & ?). by split_and!. Qed.

(** A recorded allocation replays to the new table. *)
Lemma replays_allocated v name ip v1 ms :
  vd_wf v -> name_ok v name -> name_to_ip v !! name = None -> allocated v name ip v1 ->
  replays v ms -> replays v1 (ms ++ [(ip, name)]).
Proof.
  intros Hwf Hnm Hno (Hsp & Hip & _ & Hcase) Hrep w0 Hw0 Hsp0 Hempty.
  destruct (Hrep w0 Hw0 (same_pool_trans _ _ _ Hsp Hsp0) Hempty) as (w & Hr & Hww & Hspw & Hnw).
  pose proof Hww as (_ & _ & _ & _ & Hagw). pose proof Hwf as (_ & _ & _ & _ & Hag).
  destruct (restore_fresh w ip name) as (w' & Hr' & Hww' & Hspw' & _ & Hn' & _);
    [done|by eapply name_ok_pool|by rewrite (in_pool_same v w)|by rewrite Hnw|].
  exists w'. rewrite restore_all_app, Hr. cbn [restore_all]. rewrite Hr'. split; [done|]. split; [done|].
  split. { eapply same_pool_trans; [by apply same_pool_sym|]. by eapply same_pool_trans. }
  rewrite Hn'. unfold drop_owner. destruct Hcase as [(Hfree & _ & ->)|(old & rest & Hv & _ & -> & _)].
  - assert (lru_peek ip (lru_cache w) = None) as ->; [|by rewrite Hnw].
    destruct (lru_peek ip (lru_cache w)) as [o|] eqn:E; [|done]. exfalso. apply peek_spec in E.
    apply Hagw in E. rewrite Hnw in E. apply Hag in E. apply Hfree, list_elem_of_fmap. by exists (ip, o).
  - assert (lru_peek ip (lru_cache w) = Some old) as ->; [|by rewrite Hnw].
    apply peek_spec, Hagw. rewrite Hnw. apply Hag. rewrite Hv. by left.
Qed.

Lemma names_ok_allocated v name ip v1 :
  names_ok v -> name_ok v name -> allocated v name ip v1 -> names_ok v1.
Proof.
  intros Hns Hnm (Hsp & _ & _ & Hcase) e.
  destruct Hcase as [(_ & -> & _)|(old & rest & Hv & -> & _)];
    rewrite elem_of_app, list_elem_of_singleton; intros [He| ->]; (eapply name_ok_pool; [exact Hsp|]);
    try exact Hnm; apply Hns; [done|]. rewrite Hv. by right.
Qed.

(** ** Lookups keep the file up to date *)

Lemma find_journal name v ip v' :
  vd_wf v -> names_ok v -> journal v -> name_ok v (canonical_name v name) ->
  find_or_allocate_ip windows name v = (Ok ip, v') ->
  vd_wf v' /\ names_ok v' /\ journal v' /\ same_pool v v'.
Proof.
  intros Hwf Hns Hj Hnm Hf. destruct (find_wf windows name v ip v' Hwf Hf) as (Hwf' & Hsp & _ & _).
  split; [done|]. cut (names_ok v' /\ journal v'); [by intros [? ?]|]. clear Hwf' Hsp.
  destruct (find_cases windows name v Hwf) as (ip0 & v0 & Hf0 & Hc). rewrite Hf0 in Hf.
  injection Hf as <- <-. destruct Hj as (n & d & cursor & ms & Hp & -> & Hcur & Hms & Hrep).
  destruct Hc as [[Hl ->]|[Hl (v1 & Hal & Hpe & ->)]].
  - unfold retry_dirty_persistence. simpl. rewrite Hp. simpl. split.
    + intros e. simpl. rewrite get_entries. apply Hns.
    + by exists n, (Persistence.mkDisk (Some (journal_lines v cursor ms)) []), cursor, ms.
  - pose proof (names_ok_allocated _ _ _ _ Hns Hnm Hal) as Hns1.
    pose proof (allocated_wf _ _ _ _ Hwf Hl Hal) as Hwf1. pose proof Hal as (Hsp & Hip & _).
    split. { destruct (persist_frame windows ip0 (canonical_name v name) v1) as [q ->]. exact Hns1. }
    apply (persist_journal v1 n cursor ms).
    + done.
    + done.
    + by rewrite (in_pool_same v v1).
    + rewrite Hpe, Hp. destruct Hsp as (_ & Hne & Hb). unfold journal_lines. by rewrite Hne, Hb.
    + by rewrite (in_pool_same v v1).
    + eapply Forall_impl; [exact Hms|]. intros m Hm. by rewrite (in_pool_same v v1).
    + by apply (replays_allocated v).
Qed.

(** A resolver that is loaded from a file: [tail] is what follows the complete
    records, and [repair] whether it makes the file be written again. *)
Lemma restore_all_repair l w : restore_all l true w = (true, (restore_all l false w).2).
Proof.
  revert w. induction l as [|[ip n] l IH]; intros w; cbn [restore_all]; [done|].
  destruct (restore_mapping ip n w) as [[] w1]; cbn [orb negb]; rewrite IH; reflexivity.
Qed.

Lemma cleared_wf v0 cursor : vd_wf v0 -> address_in_pool v0 cursor = true -> vd_wf (set_next cursor (clear_mappings v0)).
Proof.
  intros (Hp0 & _ & Ht0 & _ & _) Hc. split; [done|]. split; [done|]. split; [done|]. split.
  - intros e. simpl. rewrite iter_new. by intros ?%elem_of_nil.
  - intros m a. simpl. rewrite iter_new, lookup_empty, elem_of_nil. done.
Qed.

Lemma lines_loaded v cursor ms tail repair :
  pool_ok v -> address_in_pool v cursor = true ->
  (forall k, exists n, Persistence.load_lines (encode_all ms ++ tail) k = (ms, repair, n)) ->
  let d := Persistence.mkDisk (Some (journal_lines v cursor ms ++ tail)) [] in
  exists n, Persistence.load (network_addr v) (broadcast_addr v) (Persistence.new d) =
    (Ok (Persistence.Loaded cursor ms repair), Persistence.mkCache n false d).
Proof.
  intros Hpool Hcur Hlines d. destruct (Hlines 0) as [n Hn]. exists n.
  assert (ip_wf cursor /\ ip_wf (network_addr v) /\ ip_wf (broadcast_addr v)) as (Hc & Hne & Hb).
  { split; [by eapply in_pool_wf|]. by destruct Hpool as (_ & ? & ? & _). }
  unfold Persistence.load, Persistence.attempt, Persistence.next_outcome. simpl.
  rewrite Persistence.decode_encode by (by split_and!). rewrite !bool_decide_eq_true_2 by done.
  change (Persistence.address_in_pool cursor (network_addr v) (broadcast_addr v)) with (address_in_pool v cursor).
  rewrite Hcur. simpl. by rewrite Hn.
Qed.

Lemma lines_restart v v0 cursor ms tail repair :
  vd_wf v -> vd_wf v0 -> same_pool v v0 -> address_in_pool v cursor = true -> replays v ms ->
  (forall k, exists n, Persistence.load_lines (encode_all ms ++ tail) k = (ms, repair, n)) ->
  exists k v2,
    enable_persistence windows (Persistence.mkDisk (Some (journal_lines v cursor ms ++ tail)) []) v0 = (Ok k, v2) /\
    vd_wf v2 /\ name_to_ip v2 = name_to_ip v.
Proof.
  intros (Hpool & _) Hwf0 Hsp Hcur Hrep Hlines. pose proof Hsp as (_ & Hnet & Hbr).
  assert (vd_wf (set_next cursor (clear_mappings v0))) as Hw1 by (apply cleared_wf; [done|by rewrite (in_pool_same v v0)]).
  destruct (Hrep _ Hw1 Hsp) as (w & Hr & Hww & _ & Hn); [simpl; apply iter_new|].
  destruct (lines_loaded v cursor ms tail repair Hpool Hcur Hlines) as [n Hload].
  unfold enable_persistence. rewrite Hnet, Hbr, Hload. destruct repair.
  - rewrite restore_all_repair, Hr. cbn [snd]. edestruct (rewrite_ok (set_persistence (Some (Persistence.mkCache n false
      (Persistence.mkDisk (Some (journal_lines v cursor ms ++ tail)) []))) w)) as [m Hrw]; [reflexivity|].
    rewrite Hrw. eexists _, _. split; [reflexivity|]. by split.
  - rewrite Hr. eexists _, _. split; [reflexivity|]. by split.
Qed.

(** A restart: the file of [v] is loaded by a new resolver of the same pool. *)
Lemma journal_restart v v0 :
  journal v -> vd_wf v -> vd_wf v0 -> same_pool v v0 ->
  exists p k v2, persistence v = Some p /\
    enable_persistence windows (Persistence.disk p) v0 = (Ok k, v2) /\ vd_wf v2 /\
    name_to_ip v2 = name_to_ip v.
Proof.
  intros (n & d & cursor & ms & Hp & -> & Hcur & Hms & Hrep) Hwf Hwf0 Hsp.
  destruct (lines_restart v v0 cursor ms [] false Hwf Hwf0 Hsp Hcur Hrep) as (k & v2 & He & Hw2 & Hn2).
  { intros k. rewrite app_nil_r. apply load_lines_encoded. eapply Forall_impl; [exact Hms|]. intros m.
    apply in_pool_wf. by destruct Hwf. }
  rewrite app_nil_r in He. by exists (Persistence.mkCache n false (Persistence.mkDisk (Some (journal_lines v cursor ms)) [])), k, v2.
Qed.

(** A sequence of lookups. *)
Fixpoint lookups (names : list string) (v : VirtualDns) : VirtualDns :=
  match names with
  | [] => v
  | n :: ns => lookups ns (find_or_allocate_ip windows n v).2
  end.

Lemma lookups_journal names v :
  vd_wf v -> names_ok v -> journal v -> Forall (fun n => name_ok v (canonical_name v n)) names ->
  vd_wf (lookups names v) /\ journal (lookups names v) /\ same_pool v (lookups names v).
Proof.
  revert v. induction names as [|n names IH]; intros v Hwf Hns Hj Hok; [by split_and!|].
  apply Forall_cons in Hok as [Hn Hok]. simpl.
  destruct (find_cases windows n v Hwf) as (ip & v1 & Hf & _). rewrite Hf. simpl.
  destruct (find_journal n v ip v1 Hwf Hns Hj Hn Hf) as (Hwf1 & Hns1 & Hj1 & Hsp).
  destruct (IH v1 Hwf1 Hns1 Hj1) as (Hwf2 & Hj2 & Hsp2).
  - eapply Forall_impl; [exact Hok|]. intros m Hm. rewrite (canonical_same_pool v v1) by done.
    by eapply name_ok_pool.
  - split_and!; [done|done|]. by eapply same_pool_trans.
Qed.

Definition pool_wf (first last : IpAddr) : Prop :=
  is_ipv4 first = is_ipv4 last /\ ip_wf first /\ ip_wf last /\ ip_value first <= ip_value last.

Lemma new_wf first last : pool_wf first last -> vd_wf (new first last).
Proof.
  intros (Hf & H1 & H2 & Hle).
  assert (pool_ok (new first last)) as Hp by by split_and!.
  split; [done|]. split. { apply in_pool_iff; [done|]. simpl. split; [done|lia]. }
  split; [done|]. split.
  - intros e. simpl. rewrite iter_new. by intros ?%elem_of_nil.
  - intros n a. simpl. rewrite iter_new, lookup_empty, elem_of_nil. done.
Qed.

Lemma upper_half_in_pool first last :
  pool_wf first last -> address_in_pool (new first last) (upper_half_start first last) = true.
Proof.
  intros (Hf & H1 & H2 & Hle). apply in_pool_iff; [by split_and!|]. simpl.
  pose proof (Z.div_mod (ip_value last - ip_value first) 2 ltac:(lia)).
  pose proof (Z.mod_pos_bound (ip_value last - ip_value first) 2 ltac:(lia)).
  destruct first as [a|a], last as [b|b]; simpl in *; try done; (split; [done|]); lia.
Qed.

(** The first start on an empty disk. *)
Lemma first_start first last :
  pool_wf first last ->
  exists v, enable_persistence windows (Persistence.mkDisk None []) (new first last) = (Ok 0%nat, v) /\
    vd_wf v /\ names_ok v /\ journal v /\ same_pool (new first last) v /\ name_to_ip v = ∅ /\
    lru_iter (lru_cache v) = [] /\ exists n, persistence v = Some (Persistence.mkCache n false
      (Persistence.mkDisk (Some (journal_lines v (next_addr v) (lru_iter (lru_cache v)))) [])).
Proof.
  intros Hp. pose proof (new_wf first last Hp) as Hwf.
  unfold enable_persistence.
  change (Persistence.load _ _ _) with
    (Ok (E := IoError) Persistence.Missing, Persistence.mkCache 0 false (Persistence.mkDisk None [])).
  cbv iota beta zeta. rewrite len_iter. change (lru_cache (new first last)) with lru_new.
  rewrite iter_new. cbn [length Nat.eqb].
  change (network_addr (new first last)) with first. change (broadcast_addr (new first last)) with last.
  set (v1 := set_next (upper_half_start first last) (new first last)).
  assert (vd_wf v1) as Hwf1.
  { destruct Hwf as (? & _ & ? & ? & ?). split; [done|]. split; [|done].
    by apply (upper_half_in_pool first last). }
  assert (names_ok v1) as Hns1.
  { intros e. simpl. rewrite iter_new. by intros ?%elem_of_nil. }
  edestruct (rewrite_ok (set_persistence (Some (Persistence.mkCache 0 false (Persistence.mkDisk None []))) v1))
    as [n Hrw]; [reflexivity|]. rewrite Hrw.
  assert (lru_len (lru_cache v1) = 0%nat) as Hz by (rewrite len_iter; simpl; by rewrite iter_new).
  match type of Hrw with _ = (_, ?v3) => exists v3 end.
  split. { change (lru_len (lru_cache (set_persistence _ _))) with (lru_len (lru_cache v1)). by rewrite Hz. }
  split; [exact Hwf1|]. split; [exact Hns1|]. split; [exact (journal_after_rewrite v1 n Hwf1 Hns1)|].
  split; [by split_and!|]. split; [done|]. split; [exact iter_new|]. by exists n.
Qed.

(** C8. After any lookups on a resolver that started with an empty disk, of names whose
    canonical form has 1 to 253 bytes (the root's has none; CacheCrash.v shows
    that it is forgotten) and with every call on the file system succeeding, a
    restart that loads the cache file has the same table: every address handed
    out before resolves to the same name. *)
Theorem virtual_dns_survives_restart first last names :
  pool_wf first last ->
  Forall (fun n => name_ok (new first last) (canonical_name (new first last) n)) names ->
  exists v1 p k v2,
    enable_persistence windows (Persistence.mkDisk None []) (new first last) = (Ok 0%nat, v1) /\
    persistence (lookups names v1) = Some p /\
    enable_persistence windows (Persistence.disk p) (new first last) = (Ok k, v2) /\ vd_wf v2 /\
    name_to_ip v2 = name_to_ip (lookups names v1) /\
    forall n ip, name_to_ip (lookups names v1) !! n = Some ip -> (resolve_ip ip v2).1 = Some n.
Proof.
  intros Hp Hnames. destruct (first_start first last Hp) as (v1 & He & Hwf & Hns & Hj & Hsp & _).
  destruct (lookups_journal names v1 Hwf Hns Hj) as (Hwf2 & Hj2 & Hsp2).
  { eapply Forall_impl; [exact Hnames|]. intros n Hn.
    rewrite (canonical_same_pool (new first last) v1) by done. by eapply name_ok_pool. }
  destruct (journal_restart (lookups names v1) (new first last) Hj2 Hwf2 (new_wf first last Hp))
    as (p & k & v2 & Hpe & Hen & Hwf3 & Hn).
  { apply same_pool_sym. by eapply same_pool_trans. }
  exists v1, p, k, v2. split_and!; try done. intros n ip Hl. apply resolve_mapped; [done|]. by rewrite Hn.
Qed.
End journal.
End VirtualDnsJournal.
