(* ===== verification/VirtualDnsQuery.v ===== *)
(** * Answers of the virtual resolver, and concrete resolvers

    [generate_query] end to end, then instances of the cache and of the journal
    codec (an association list and a byte encoding) with examples of the
    theorems about [VirtualDns]. *)

From S2P Require Import Prelude Net Rfc1928 Dns DnsExample Persistence VirtualDns VirtualDnsProofs VirtualDnsJournal.

Module VirtualDnsQuery.
Import Dns VirtualDns VirtualDnsProofs.

Section query.
Context `{DL : DnsLibLaws} `{LL : LruCacheLaws} `{CC : Persistence.CacheCodec}.
Variable windows : bool.

(** The record type the pool can answer. *)
Definition pool_type (v : VirtualDns) : Z :=
  match network_addr v with V4 _ => TypeA | V6 _ => TypeAAAA end.

Lemma query_type_for_pool v a :
  pool_ok v -> address_in_pool v a = true -> query_type_for a = pool_type v.
Proof.
  intros Hp Ha. apply in_pool_iff in Ha as [Hf _]; [|done]. unfold pool_type.
  by destruct a, (network_addr v).
Qed.

(** The answer to a query of the type of the pool. *)
Lemma generate_query_spec bs m q v :
  vd_wf v -> from_vec bs = Ok m -> validate_dns_query m = Ok q -> q_type q = pool_type v ->
  exists ip r v', find_or_allocate_ip windows (to_ascii (q_name q)) v = (Ok ip, v') /\
    generate_query windows bs v =
      (bytes ← map_err DnsProto (to_vec r); Ok (bytes, to_ascii (q_name q), Some ip), v') /\
    extract_ipaddr_from_dns_message r = Ok ip /\ validate_dns_response r (id m) q = Ok tt /\
    vd_wf v' /\ (resolve_ip ip v').1 = Some (canonical_name v (to_ascii (q_name q))) /\
    same_pool v v' /\ address_in_pool v ip = true /\ build_dns_response m (Some ip) 5 = Ok r.
Proof.
  intros Hwf Hm Hq Ht.
  destruct (find_cases windows (to_ascii (q_name q)) v Hwf) as (ip & v' & Hf & _).
  destruct (find_wf windows _ v ip v' Hwf Hf) as (Hwf' & Hsp & Hip & Hl).
  assert (q_type q = query_type_for ip) as Htq.
  { rewrite Ht. symmetry. apply query_type_for_pool; [by destruct Hwf|done]. }
  destruct (proj1 (build_ok_iff m (Some ip) 5)) as [r Hr]; [by eexists|].
  exists ip, r, v'. split; [done|]. split.
  - unfold generate_query. run_M. rewrite Hm. simpl. rewrite Hq. simpl.
    unfold extract_domain_from_dns_message. pose proof (validate_query_inv _ _ Hq) as (_ & _ & Hqs).
    rewrite Hqs. simpl. fold (pool_type v). rewrite Ht, Z.eqb_refl, Hf. simpl. rewrite Hr. simpl.
    by destruct (to_vec r).
  - split_and!; [by eapply build_extract|by eapply build_response_valid|done|by apply resolve_mapped|done|done|done].
Qed.

(** An A query (AAAA for an IPv6 pool) is answered with a fake address that
    resolves back to the queried name; the answer is a valid response to the
    query. *)
Theorem generate_query_answers bs m q v :
  vd_wf v -> from_vec bs = Ok m -> validate_dns_query m = Ok q -> q_type q = pool_type v ->
  exists ip r v', find_or_allocate_ip windows (to_ascii (q_name q)) v = (Ok ip, v') /\
    generate_query windows bs v =
      (bytes ← map_err DnsProto (to_vec r); Ok (bytes, to_ascii (q_name q), Some ip), v') /\
    extract_ipaddr_from_dns_message r = Ok ip /\ validate_dns_response r (id m) q = Ok tt /\
    vd_wf v' /\ (resolve_ip ip v').1 = Some (canonical_name v (to_ascii (q_name q))).
Proof.
  intros Hwf Hm Hq Ht.
  destruct (generate_query_spec bs m q v Hwf Hm Hq Ht) as (ip & r & v' & ? & ? & ? & ? & ? & ? & _).
  by exists ip, r, v'.
Qed.

(** A query of another type gets an empty answer and allocates nothing. *)
Theorem generate_query_other_type bs m q v :
  from_vec bs = Ok m -> validate_dns_query m = Ok q -> q_type q <> pool_type v ->
  exists r, generate_query windows bs v =
      (bytes ← map_err DnsProto (to_vec r); Ok (bytes, to_ascii (q_name q), None), v) /\
    answers r = [] /\ response_code r = NoError /\ validate_dns_response r (id m) q = Ok tt.
Proof.
  intros Hm Hq Ht. destruct (proj1 (build_ok_iff m None 5)) as [r Hr]; [by eexists|].
  exists r. split.
  - unfold generate_query. run_M. rewrite Hm. simpl. rewrite Hq. simpl.
    unfold extract_domain_from_dns_message. pose proof (validate_query_inv _ _ Hq) as (_ & _ & Hqs).
    rewrite Hqs. simpl. fold (pool_type v). rewrite (proj2 (Z.eqb_neq _ _) Ht). simpl. rewrite Hr. simpl.
    by destruct (to_vec r).
  - destruct (build_no_answer m None 5 q r) as [? ?]; [done|done|done|].
    split_and!; [done|done|by eapply build_response_valid].
Qed.
End query.

(** ** A cache as an association list *)

(** The first entry of every address. *)
Fixpoint dedup (l : list (IpAddr * string)) : list (IpAddr * string) :=
  match l with
  | [] => []
  | e :: r => e :: without e.1 (dedup r)
  end.

Fixpoint assoc (k : IpAddr) (l : list (IpAddr * string)) : option string :=
  match l with
  | [] => None
  | (k', n) :: r => if decide (k' = k) then Some n else assoc k r
  end.

#[export] Instance list_lru : LruCache := {
  lru := list (IpAddr * string);
  lru_new := [];
  lru_peek := fun k c => assoc k (dedup c);
  lru_get := fun k c =>
    match assoc k (dedup c) with
    | Some v => (Some v, without k (dedup c) ++ [(k, v)])
    | None => (None, c)
    end;
  lru_insert := fun k v c => without k (dedup c) ++ [(k, v)];
  lru_remove := fun k c => (assoc k (dedup c), without k (dedup c));
  lru_remove_lru := fun c => match dedup c with [] => None | e :: r => Some (e, r) end;
  lru_iter := dedup;
  lru_len := fun c => length (dedup c);
}.

Lemma without_nodup k l : NoDup l.*1 -> NoDup (without k l).*1 /\ k ∉ (without k l).*1.
Proof.
  intros Hnd. split.
  - induction l as [|[a n] l IH]; [done|]. simpl in Hnd. apply NoDup_cons in Hnd as [Ha Hnd].
    unfold without. simpl. destruct (negb _); [|by apply IH]. simpl. constructor; [|by apply IH].
    intros (e & He & Hin)%list_elem_of_fmap. apply elem_of_without in Hin as [Hin _].
    apply Ha. apply list_elem_of_fmap. by exists e.
  - intros (e & He & Hin)%list_elem_of_fmap. apply elem_of_without in Hin as [_ Hne]. by destruct Hne.
Qed.

Lemma dedup_nodup l : NoDup (dedup l).*1.
Proof.
  induction l as [|e l IH]; simpl; [constructor|]. destruct (without_nodup e.1 (dedup l) IH). by constructor.
Qed.

Lemma dedup_id l : NoDup l.*1 -> dedup l = l.
Proof.
  induction l as [|e l IH]; simpl; [done|]. intros [Hni Hnd]%NoDup_cons. rewrite IH by done.
  by rewrite without_id.
Qed.

Lemma assoc_spec k l v : NoDup l.*1 -> assoc k l = Some v <-> (k, v) ∈ l.
Proof.
  induction l as [|[a n] l IH]; simpl; intros Hnd.
  { rewrite elem_of_nil. done. }
  apply NoDup_cons in Hnd as [Hni Hnd]. rewrite elem_of_cons. case_decide as Ha.
  - subst a. split; [intros [= ->]; by left|]. intros [[= ->]|Hin]; [done|].
    destruct Hni. apply list_elem_of_fmap. by exists (k, v).
  - rewrite IH by done. split; [by right|]. intros [[= -> ->]|]; done.
Qed.

Lemma snoc_nodup k v l : NoDup l.*1 -> NoDup (without k l ++ [(k, v)]).*1.
Proof.
  intros Hnd. destruct (without_nodup k l Hnd) as [H1 H2]. rewrite fmap_app. apply NoDup_app.
  split_and!; [done| |simpl; constructor; [by apply not_elem_of_nil|constructor]].
  intros x Hx. simpl. rewrite list_elem_of_singleton. by intros ->.
Qed.

#[export] Instance list_lru_laws : LruCacheLaws.
Proof.
  constructor; simpl.
  - apply dedup_nodup.
  - done.
  - intros k c v. apply assoc_spec, dedup_nodup.
  - intros k c. by destruct (assoc k (dedup c)).
  - intros k c. destruct (assoc k (dedup c)) as [v|]; simpl; [|done].
    apply dedup_id, snoc_nodup, dedup_nodup.
  - intros k v c. apply dedup_id, snoc_nodup, dedup_nodup.
  - done.
  - intros k c. apply dedup_id, without_nodup, dedup_nodup.
  - intros c. destruct (dedup c) as [|e r] eqn:E; [done|]. exists r. split; [done|].
    apply dedup_id. pose proof (dedup_nodup c) as Hnd. rewrite E in Hnd. simpl in Hnd.
    by apply NoDup_cons in Hnd as [_ ?].
  - done.
Qed.

(** ** A journal codec *)

Section codec.
Import Persistence.

Definition ip_code (a : IpAddr) : list Z := (if is_ipv4 a then 4 else 6) :: octets a.

Definition read_ip (bs : list Z) : option (IpAddr * list Z) :=
  match bs with
  | 4 :: r => Some (V4 (of_be_bytes (take 4 r)), drop 4 r)
  | 6 :: r => Some (V6 (of_be_bytes (take 16 r)), drop 16 r)
  | _ => None
  end.

#[export] Instance byte_codec : CacheCodec := {
  encode := fun r => Rfc1928.of_bytes
    match r with
    | Header v n b c => 72 :: v :: ip_code n ++ ip_code b ++ ip_code c
    | Mapping ip name => 77 :: ip_code ip ++ as_bytes name
    end;
  decode := fun s =>
    match as_bytes s with
    | 72 :: v :: r =>
        '(n, r1) ← read_ip r; '(b, r2) ← read_ip r1; '(c, _) ← read_ip r2; Some (Header v n b c)
    | 77 :: r => '(ip, r1) ← read_ip r; Some (Mapping ip (Rfc1928.of_bytes r1))
    | _ => None
    end;
}.

Lemma ip_code_u8 a : Forall is_u8 (ip_code a).
Proof. unfold ip_code. constructor; [unfold is_u8; destruct (is_ipv4 a); lia|apply be_bytes_u8]. Qed.

Lemma read_ip_code a rest : ip_wf a -> read_ip (ip_code a ++ rest) = Some (a, rest).
Proof.
  intros Hwf. destruct a as [n|n]; unfold ip_code; cbn [is_ipv4 app read_ip]; simpl in Hwf.
  - rewrite (take_app_length' (octets (V4 n))), (drop_app_length' (octets (V4 n))) by done.
    unfold octets. rewrite of_be_bytes_be_bytes. simpl. by rewrite Z.mod_small.
  - rewrite (take_app_length' (octets (V6 n))), (drop_app_length' (octets (V6 n))) by done.
    unfold octets. rewrite of_be_bytes_be_bytes. simpl. by rewrite Z.mod_small.
Qed.

#[export] Instance byte_codec_laws : CacheCodecLaws.
Proof.
  constructor.
  - intros [v n b c|ip name]; unfold decode, encode, byte_codec; simpl record_ok.
    + intros (Hv & Hn & Hb & Hc). rewrite Rfc1928.as_bytes_of_bytes.
      * rewrite read_ip_code by done. cbn [mbind option_bind]. rewrite read_ip_code by done.
        cbn [mbind option_bind]. rewrite <- (app_nil_r (ip_code c)), read_ip_code by done. done.
      * pose proof (ip_code_u8 n). pose proof (ip_code_u8 b). pose proof (ip_code_u8 c).
        constructor; [unfold is_u8; lia|]. constructor; [done|]. rewrite !Forall_app. by split_and!.
    + intros Hip. rewrite Rfc1928.as_bytes_of_bytes.
      * rewrite read_ip_code by done. cbn [mbind option_bind]. by rewrite Rfc1928.of_bytes_as_bytes.
      * constructor; [unfold is_u8; lia|]. apply Forall_app. split; [apply ip_code_u8|apply as_bytes_u8].
  - by intros [].
Qed.
End codec.

(** ** A pool of two addresses *)

Section examples.
Import VirtualDnsJournal.

Let first := ipv4 198 18 0 0.
Let last := ipv4 198 18 0 1.

Lemma small_pool : pool_wf first last.
Proof. split_and!; try done; vm_compute; try split; discriminate || reflexivity. Qed.

(** "a.org" is mapped. *)
Definition one_name : VirtualDns := (find_or_allocate_ip false "A.org." (new first last)).2.

(** The pool is full; "a.org" was used last. *)
Definition full : VirtualDns :=
  (find_or_allocate_ip false "a.org" (find_or_allocate_ip false "b.org" one_name).2).2.

Lemma one_name_wf : vd_wf one_name.
Proof.
  pose proof (new_wf first last small_pool) as Hwf.
  destruct (find_cases false "A.org." (new first last) Hwf) as (ip & v & Hf & _).
  unfold one_name. rewrite Hf. by destruct (find_wf false _ _ _ _ Hwf Hf).
Qed.

Lemma full_wf : vd_wf full.
Proof.
  pose proof one_name_wf as Hwf.
  destruct (find_cases false "b.org" one_name Hwf) as (ip & v & Hf & _).
  destruct (find_wf false _ _ _ _ Hwf Hf) as (Hwf1 & _).
  destruct (find_cases false "a.org" v Hwf1) as (ip' & v' & Hf' & _).
  unfold full. rewrite Hf. simpl. rewrite Hf'. by destruct (find_wf false _ _ _ _ Hwf1 Hf').
Qed.

Lemma virtual_dns_allocates_witness :
  exists ip v', find_or_allocate_ip false "C.org" full = (Ok ip, v') /\ vd_wf v' /\
    address_in_pool full ip = true /\ name_to_ip v' !! canonical_name full "C.org" = Some ip /\
    (resolve_ip ip v').1 = Some (canonical_name full "C.org").
Proof. exact (virtual_dns_allocates false "C.org" full full_wf). Defined.

(** "b.org", the least recently used name, loses its address. *)
Lemma recycled : find_or_allocate_ip false "c.org" full =
  (Ok last, (find_or_allocate_ip false "c.org" full).2).
Proof. vm_compute. reflexivity. Qed.

Lemma virtual_dns_stable_witness :
  let v' := (find_or_allocate_ip false "c.org" full).2 in
  name_to_ip v' !! "b.org" = Some last \/
  (head (lru_iter (lru_cache full)) = Some (last, "b.org") /\ last = last /\
   name_to_ip full !! canonical_name full "c.org" = None /\
   forall b, address_in_pool full b = true -> b ∈ (lru_iter (lru_cache full)).*1).
Proof.
  apply (virtual_dns_stable false "c.org" full last _ "b.org" last full_wf recycled).
  - vm_compute. reflexivity.
  - vm_compute. discriminate.
Defined.

Lemma virtual_dns_repeats_witness :
  exists v2, find_or_allocate_ip false "a.ORG" one_name = (Ok first, v2) /\
    name_to_ip v2 = name_to_ip one_name.
Proof.
  apply (virtual_dns_repeats false "A.org." "a.ORG" (new first last) first one_name).
  - exact (new_wf first last small_pool).
  - vm_compute. reflexivity.
  - vm_compute. reflexivity.
Defined.

Lemma virtual_dns_bijective_witness :
  "a.org" = "a.org" /\ (resolve_ip first one_name).1 = Some "a.org" /\ vd_wf (resolve_ip first one_name).2.
Proof.
  apply (virtual_dns_bijective one_name "a.org" "a.org" first one_name_wf); vm_compute; reflexivity.
Defined.

Lemma increment_ip_correct_witness :
  increment_ip (ipv4 10 0 255 255) = ipv4 10 1 0 0 /\
  increment_ip (V4 4294967295) = V4 ((4294967295 + 1) mod 2 ^ 32).
Proof.
  split; [vm_compute; reflexivity|].
  exact (increment_ip_correct (V4 4294967295) ltac:(simpl; lia)).
Defined.

Lemma virtual_dns_survives_restart_witness :
  exists v1 p k v2,
    enable_persistence false (Persistence.mkDisk None []) (new first last) = (Ok 0%nat, v1) /\
    persistence (lookups false ["a.org"; "B.org."; "c.org"] v1) = Some p /\
    enable_persistence false (Persistence.disk p) (new first last) = (Ok k, v2) /\ vd_wf v2 /\
    name_to_ip v2 = name_to_ip (lookups false ["a.org"; "B.org."; "c.org"] v1) /\
    forall n ip, name_to_ip (lookups false ["a.org"; "B.org."; "c.org"] v1) !! n = Some ip ->
      (resolve_ip ip v2).1 = Some n.
Proof.
  apply (virtual_dns_survives_restart false first last ["a.org"; "B.org."; "c.org"] small_pool).
  repeat constructor; vm_compute; try reflexivity; try discriminate; repeat constructor.
Defined.

Import DnsExample.

Definition example_question (t : Z) : Query := mkQuery (H := text_names) "A.org" t ClassIN.

Definition example_query (t : Z) : Message :=
  mkMessage 7 Query_ 0 false false false false false false 0 [example_question t] [] [] [] None None.

Lemma generate_query_answers_witness :
  exists ip r v', find_or_allocate_ip false "A.org" one_name = (Ok ip, v') /\
    generate_query false (query_bytes 7 "A.org" TypeA) one_name =
      (bytes ← map_err DnsProto (to_vec r); Ok (bytes, "A.org", Some ip), v') /\
    extract_ipaddr_from_dns_message r = Ok ip /\
    validate_dns_response r 7 (example_question TypeA) = Ok tt /\
    vd_wf v' /\ (resolve_ip ip v').1 = Some (canonical_name one_name "A.org").
Proof.
  exact (generate_query_answers false (query_bytes 7 "A.org" TypeA) (example_query TypeA)
    (example_question TypeA) one_name one_name_wf eq_refl eq_refl eq_refl).
Defined.

Lemma generate_query_other_type_witness :
  exists r, generate_query false (query_bytes 7 "A.org" TypeAAAA) one_name =
      (bytes ← map_err DnsProto (to_vec r); Ok (bytes, "A.org", None), one_name) /\
    answers r = [] /\ response_code r = NoError /\
    validate_dns_response r 7 (example_question TypeAAAA) = Ok tt.
Proof.
  exact (generate_query_other_type false (query_bytes 7 "A.org" TypeAAAA) (example_query TypeAAAA)
    (example_question TypeAAAA) one_name eq_refl eq_refl ltac:(discriminate)).
Defined.
End examples.
End VirtualDnsQuery.
