(* ===== verification/VirtualDnsSession.v ===== *)
(** * Sessions of the virtual resolver (src/src/lib.rs,
    [handle_virtual_dns_session] and [handle_virtual_dns_tcp_session])

    The loops that answer DNS clients with fake addresses, over datagrams and
    over a TCP connection.  The resolver is behind a lock that is held for one
    query, so a query is one step on the shared [VirtualDns]. *)

From S2P Require Import Prelude Net ProxyHandler Streams Rfc1928 Dns DnsExample DnsRouting Persistence.
From S2P Require Import VirtualDns VirtualDnsProofs VirtualDnsJournal VirtualDnsQuery.

Module VirtualDnsSession.
Import Dns DnsRouting VirtualDns VirtualDnsProofs VirtualDnsQuery.

(** ** Datagrams *)

(** The application's side of a UDP session: the results of the next reads and
    writes, and the datagrams sent. *)
Record Datagrams := mkDatagrams {
  incoming : list (res IoError (list Z));
  send_results : list (option IoError);
  sent_datagrams : list (list Z) }.

(** [send] and [write_all] of a datagram. *)
Definition send_datagram (d : list Z) : Task Datagrams unit := fun c =>
  match send_results c with
  | Some e :: l => (Returned (Err (Io e)), mkDatagrams (incoming c) l (sent_datagrams c))
  | None :: l => (Returned (Ok tt), mkDatagrams (incoming c) l (sent_datagrams c ++ [d]))
  | [] => (Returned (Ok tt), mkDatagrams (incoming c) [] (sent_datagrams c ++ [d]))
  end.

(** The next read. *)
Definition recv_datagram : Task Datagrams (res IoError (list Z)) := fun c =>
  match incoming c with
  | [] => (Waiting, c)
  | Panic :: l => (Returned Panic, mkDatagrams l (send_results c) (sent_datagrams c))
  | r :: l => (Returned (Ok r), mkDatagrams l (send_results c) (sent_datagrams c))
  end.

Section sessions.
Context `{DL : DnsLib} `{LC : LruCache} `{CC : Persistence.CacheCodec} `{DO : DnsOverride}.
Variable windows : bool.

Record Session (C : Type) := mkSession { client : C; dns : VirtualDns }.
#[global] Arguments mkSession {_} _ _.
#[global] Arguments client {_} _.
#[global] Arguments dns {_} _.

Definition on_client {C A} (t : Task C A) : Task (Session C) A :=
  on client (fun c s => mkSession c (dns s)) t.
(** The critical section on the resolver. *)
Definition locked {C A} (m : M VirtualDns Error A) : Task (Session C) A :=
  on dns (fun v s => mkSession (client s) v) (now m).

Definition udp_turn : Task (Session Datagrams) bool :=
  r ← on_client recv_datagram;
  match r with
  | Err _ | Panic => mret false
  | Ok [] => mret false
  | Ok query =>
      m ← done_with (matches query);
      if m : bool then
        response ← done_with (answer query true);
        on_client (send_datagram response);; mret true
      else
        msg ← locked (generate_query windows query);
        on_client (send_datagram msg.1.1);; mret true
  end.

(** [handle_virtual_dns_session]: every turn takes one read. *)
Definition handle_virtual_dns_session : Task (Session Datagrams) unit := fun s =>
  turns udp_turn (S (length (incoming (client s)))) s.

Definition framing_limit : Error := EString "virtual DNS response exceeds TCP framing limit".

(** The part of a turn behind the read of the query. *)
Definition tcp_answer (query : list Z) : Task (Session Server) bool :=
  m ← done_with (matches query);
  if m : bool then
    response ← done_with (answer query false);
    n ← done_with (try_u16 (len response));
    on_client (send_all (be16 n));; on_client (send_all response);; mret true
  else
    msg ← locked (generate_query windows query);
    n ← done_with (map_err (fun _ => framing_limit) (try_u16 (len msg.1.1)));
    on_client (send_all (be16 n));; on_client (send_all msg.1.1);; mret true.

Definition tcp_turn : Task (Session Server) bool :=
  r ← on_client (reading (read_full 2));
  match r with
  | Err e => if bool_decide (io_kind e = UnexpectedEof) then mret false else fail_with (Io e)
  | Panic => done_with Panic
  | Ok prefix =>
      let query_len := match prefix with hi :: lo :: _ => Z.to_nat (of_be16 hi lo) | _ => 0%nat end in
      if (query_len =? 0)%nat then fail_with (EString "empty DNS-over-TCP query")
      else query ← on_client (recv_exact query_len); tcp_answer query
  end.

(** [handle_virtual_dns_tcp_session]: every turn but the last takes three
    bytes or more. *)
Definition handle_virtual_dns_tcp_session : Task (Session Server) unit := fun s =>
  turns tcp_turn (S (length (received (reads (client s))))) s.

(** ** The answers of a session, one query after the other *)

Definition respond (udp : bool) (query : list Z) : M VirtualDns Error (list Z) :=
  m ← lift (matches query);
  if m : bool then lift (answer query udp)
  else msg ← generate_query windows query; mret msg.1.1.

(** The answers up to the first error, and that error. *)
Fixpoint respond_all (udp : bool) (queries : list (list Z)) (v : VirtualDns)
    : res Error unit * list (list Z) * VirtualDns :=
  match queries with
  | [] => (Ok tt, [], v)
  | q :: queries' =>
      match respond udp q v with
      | (Ok out, v1) =>
          let '(r, outs, v2) := respond_all udp queries' v1 in (r, out :: outs, v2)
      | (Err e, v1) => (Err e, [], v1)
      | (Panic, v1) => (Panic, [], v1)
      end
  end.

Lemma udp_turn_respond q l sent v :
  q <> [] ->
  udp_turn (mkSession (mkDatagrams (Ok q :: l) [] sent) v) =
  match respond true q v with
  | (Ok out, v1) => (Returned (Ok true), mkSession (mkDatagrams l [] (sent ++ [out])) v1)
  | (Err e, v1) => (Returned (Err e), mkSession (mkDatagrams l [] sent) v1)
  | (Panic, v1) => (Returned Panic, mkSession (mkDatagrams l [] sent) v1)
  end.
Proof.
  intros Hq. destruct q as [|b q]; [done|].
  unfold udp_turn, respond, locked, on_client, on, mbind, Task_bind, M_bind, now, done_with, lift.
  cbn [client dns recv_datagram incoming send_results sent_datagrams].
  destruct (matches (b :: q)) as [[]|e|]; [|cbn [dns]|done|done].
  - by destruct (answer (b :: q) true) as [r|e|].
  - by destruct (generate_query windows (b :: q) v) as [[r|e|] v1].
Qed.

(** The two ways the datagrams end. *)
Definition ends (r : res IoError (list Z)) : Prop := r = Ok [] \/ exists e, r = Err e.

Lemma udp_turns_respond queries fin rest sent v fuel r outs v' :
  Forall (fun q => q <> []) queries -> ends fin ->
  respond_all true queries v = (r, outs, v') -> (length queries < fuel)%nat ->
  exists l, turns udp_turn fuel (mkSession (mkDatagrams ((Ok <$> queries) ++ fin :: rest) [] sent) v) =
    (Returned r, mkSession (mkDatagrams l [] (sent ++ outs)) v').
Proof.
  intros Hne Hfin. revert sent v fuel r outs v'.
  induction Hne as [|q queries Hq Hne IH]; intros sent v [|fuel] r outs v' Hr Hl; try (simpl in Hl; lia).
  - injection Hr as <- <- <-. exists rest. rewrite app_nil_r. cbn [turns fmap list_fmap app].
    by destruct Hfin as [->|[e ->]].
  - cbn [fmap list_fmap app turns respond_all] in *. unfold mbind, Task_bind.
    rewrite udp_turn_respond by done. destruct (respond true q v) as [[out|e|] v1].
    + destruct (respond_all true queries v1) as [[r1 outs1] v2] eqn:E. injection Hr as <- <- <-.
      destruct (IH (sent ++ [out]) v1 fuel r1 outs1 v2) as [l Ht]; [done|simpl in Hl; lia|].
      exists l. rewrite <- app_assoc in Ht. exact Ht.
    + injection Hr as <- <- <-. rewrite app_nil_r. by eexists.
    + injection Hr as <- <- <-. rewrite app_nil_r. by eexists.
Qed.

Lemma tcp_answer_respond q c v r v1 :
  write_results c = [] -> respond false q v = (r, v1) ->
  match r with
  | Ok out => len out <= u16_max ->
      tcp_answer q (mkSession c v) = (Returned (Ok true),
        mkSession (mkServer (reads c) [] (written c ++ dns_frame out) (traffic c)) v1)
  | Err e => tcp_answer q (mkSession c v) = (Returned (Err e), mkSession c v1)
  | Panic => tcp_answer q (mkSession c v) = (Returned Panic, mkSession c v1)
  end.
Proof.
  intros Hw. unfold tcp_answer, respond, locked, on_client, on, mbind, Task_bind, M_bind, now, done_with, lift.
  assert (forall out v2, len out <= u16_max ->
    (let '(p, x) := send_all out (mkServer (reads c) [] (written c ++ be16 (len out)) (traffic c)) in
     (p, mkSession x v2)) =
    (Returned (Ok tt), mkSession (mkServer (reads c) [] (written c ++ dns_frame out) (traffic c)) v2)) as Hs.
  { intros out v2 Ho. rewrite send_all_ok by done. cbn. by rewrite <- app_assoc. }
  destruct (matches q) as [[]|e|]; try (by intros [= <- <-]).
  - destruct (answer q false) as [out|e|]; intros [= <- <-]; try done. intros Ho.
    unfold try_u16. rewrite (proj2 (Z.leb_le _ _) Ho). cbn [client dns].
    rewrite send_all_ok by done. cbn [client dns]. by rewrite Hs.
  - cbn [dns]. destruct (generate_query windows q v) as [[[[out n] ip]|e|] v2]; intros [= <- <-]; try done.
    cbn [fst]. intros Ho.
    unfold try_u16. rewrite (proj2 (Z.leb_le _ _) Ho). cbn [map_err client dns].
    rewrite send_all_ok by done. cbn [client dns]. by rewrite Hs.
Qed.

Lemma tcp_turn_read q rest c v :
  0 < len q <= u16_max -> received (reads c) = dns_frame q ++ rest -> finished (reads c) ->
  exists rs, received rs = rest /\ finished rs /\
    tcp_turn (mkSession c v) = tcp_answer q (mkSession (next_reads rs c) v).
Proof.
  intros Hl Hr Hf. unfold dns_frame in Hr. rewrite <- app_assoc in Hr.
  destruct (read_full_app (be16 (len q)) (q ++ rest) (reads c) Hr) as (rs1 & E1 & R1).
  pose proof (finished_read _ _ _ _ E1 Hf) as F1. rewrite length_be16 in E1.
  destruct (recv_exact_app q rest (next_reads rs1 c) R1) as (rs & E2 & R2 & F2).
  exists rs. split_and!; [done|by apply F2|].
  assert (on_client (reading (read_full 2)) (mkSession c v) =
    (Returned (Ok (Ok (be16 (len q)))), mkSession (next_reads rs1 c) v)) as Ht.
  { unfold on_client, on, reading. cbn [client]. by rewrite E1. }
  unfold tcp_turn. unfold mbind at 1, Task_bind at 1. rewrite Ht. unfold be16. cbv iota beta zeta.
  rewrite of_be16_be16 by (unfold is_u16, u16_max in *; lia).
  replace (Z.to_nat (len q)) with (length q) by (unfold len; lia).
  rewrite (proj2 (Nat.eqb_neq _ _)) by (unfold len in Hl; lia).
  unfold mbind, Task_bind, on_client, on. cbn [client dns]. by rewrite E2.
Qed.

Lemma tcp_turns_respond queries c v fuel r outs v' :
  Forall (fun q => 0 < len q <= u16_max) queries ->
  received (reads c) = concat (dns_frame <$> queries) -> finished (reads c) -> write_results c = [] ->
  respond_all false queries v = (r, outs, v') -> Forall (fun o => len o <= u16_max) outs ->
  (length queries < fuel)%nat ->
  exists c', turns tcp_turn fuel (mkSession c v) = (Returned r, mkSession c' v') /\
    written c' = written c ++ concat (dns_frame <$> outs).
Proof.
  intros Hne. revert c v fuel r outs v'.
  induction Hne as [|q queries Hq Hne IH]; intros c v [|fuel] r outs v' Hrd Hf Hw Hr Ho Hl;
    try (simpl in Hl; lia); cbn [fmap list_fmap concat turns respond_all] in *.
  - injection Hr as <- <- <-. destruct (recv_exact_end 2 c) as [rs E]; [lia|done|done|].
    exists (next_reads rs c). split; [|cbn; by rewrite app_nil_r].
    unfold tcp_turn, on_client, on, mbind, Task_bind. cbn [client]. rewrite E.
    change (io_kind (io_of_kind UnexpectedEof)) with UnexpectedEof.
    by rewrite bool_decide_eq_true_2.
  - destruct (tcp_turn_read q _ c v Hq Hrd Hf) as (rs & Hrest & Hfin & Ht).
    unfold mbind, Task_bind. rewrite Ht. clear Ht.
    destruct (respond false q v) as [r1 v1] eqn:Er.
    pose proof (tcp_answer_respond q (next_reads rs c) v r1 v1 Hw Er) as Ha.
    destruct r1 as [out|e|]; [|injection Hr as <- <- <-; rewrite Ha; eexists; split; [done|by rewrite app_nil_r]..].
    destruct (respond_all false queries v1) as [[r2 outs2] v2] eqn:E. injection Hr as <- <- <-.
    apply Forall_cons in Ho as [Ho1 Ho2]. rewrite (Ha Ho1).
    destruct (IH (mkServer rs [] (written c ++ dns_frame out) (traffic c)) v1 fuel r2 outs2 v2)
      as (c' & Hc & Hwc); try done; [simpl in Hl; lia|].
    exists c'. split; [exact Hc|]. rewrite Hwc. cbn. by rewrite <- app_assoc.
Qed.
End sessions.

Section theorems.
Context `{DL : DnsLibLaws} `{LL : LruCacheLaws} `{CC : Persistence.CacheCodec} `{DO : DnsOverride}.
Variable windows : bool.

(** A query of the pool's type that no rule takes away, whose answer fits a
    frame. *)
Definition pool_query (v : VirtualDns) (query : list Z) : Prop :=
  matches query = Ok false /\ exists m q, from_vec query = Ok m /\ validate_dns_query m = Ok q /\
    q_type q = pool_type v /\
    forall ip r, build_dns_response m ip 5 = Ok r -> exists bs, to_vec r = Ok bs /\ len bs <= u16_max.

(** [out] answers [query] with an address of the pool. *)
Definition answered_in (v : VirtualDns) (query out : list Z) : Prop :=
  exists m q ip r, from_vec query = Ok m /\ validate_dns_query m = Ok q /\ to_vec r = Ok out /\
    validate_dns_response r (id m) q = Ok tt /\ extract_ipaddr_from_dns_message r = Ok ip /\
    address_in_pool v ip = true /\ len out <= u16_max.

Lemma pool_query_same v v' q : same_pool v v' -> pool_query v q -> pool_query v' q.
Proof.
  intros (_ & Hn & _) (Hm & m & qq & Hq1 & Hq2 & Hq3 & Hq4). split; [done|]. exists m, qq.
  split_and!; try done. unfold pool_type in *. by rewrite Hn.
Qed.

Lemma respond_pool udp query v :
  vd_wf v -> pool_query v query ->
  exists out v', respond windows udp query v = (Ok out, v') /\ vd_wf v' /\ same_pool v v' /\
    answered_in v query out.
Proof.
  intros Hwf (Hno & m & q & Hm & Hq & Ht & Henc).
  destruct (generate_query_spec windows query m q v Hwf Hm Hq Ht)
    as (ip & r & v' & _ & Hg & Hex & Hval & Hwf' & _ & Hsp & Hin & Hb).
  destruct (Henc _ _ Hb) as (bs & Hbs & Hlen). rewrite Hbs in Hg. cbn in Hg.
  exists bs, v'. split_and!; try done.
  - unfold respond, mbind, M_bind, lift. rewrite Hno, Hg. done.
  - by exists m, q, ip, r.
Qed.

Lemma respond_all_pool udp queries v :
  vd_wf v -> Forall (pool_query v) queries ->
  exists outs v', respond_all windows udp queries v = (Ok tt, outs, v') /\ vd_wf v' /\
    same_pool v v' /\ Forall2 (answered_in v) queries outs.
Proof.
  revert v. induction queries as [|q queries IH]; intros v Hwf Hall; [by exists [], v|].
  apply Forall_cons in Hall as [Hq Hall].
  destruct (respond_pool udp q v Hwf Hq) as (out & v1 & Hr & Hwf1 & Hsp1 & Ha).
  destruct (IH v1 Hwf1) as (outs & v2 & Hrs & Hwf2 & Hsp2 & Has).
  { eapply Forall_impl; [exact Hall|]. intros q' Hq'. by eapply pool_query_same. }
  exists (out :: outs), v2. cbn [respond_all]. rewrite Hr, Hrs. split_and!; [done|done| |].
  - destruct Hsp1 as (? & ? & ?), Hsp2 as (? & ? & ?). split_and!; congruence.
  - constructor; [done|]. eapply Forall2_impl; [exact Has|]. intros q' o' (m & qq & ip & r & Hx).
    exists m, qq, ip, r. by rewrite (VirtualDnsJournal.in_pool_same v v1) in Hx.
Qed.

(** C22. A session of the virtual resolver does what its query-by-query
    specification [respond_all] does, errors included: over datagrams and over
    TCP, whatever the fragmentation, the client gets exactly those answers in
    order, the shared resolver is left in that state, and the session ends with
    that result. *)
Theorem virtual_dns_session_refines queries v r outs v' :
  (forall fin rest sent, Forall (fun q => q <> []) queries -> ends fin ->
     respond_all windows true queries v = (r, outs, v') ->
     exists l, handle_virtual_dns_session windows
         (mkSession (mkDatagrams ((Ok <$> queries) ++ fin :: rest) [] sent) v) =
       (Returned r, mkSession (mkDatagrams l [] (sent ++ outs)) v')) /\
  (forall c, Forall (fun q => 0 < len q <= u16_max) queries ->
     received (reads c) = concat (dns_frame <$> queries) -> finished (reads c) ->
     write_results c = [] -> Forall (fun o => len o <= u16_max) outs ->
     respond_all windows false queries v = (r, outs, v') ->
     exists c', handle_virtual_dns_tcp_session windows (mkSession c v) =
         (Returned r, mkSession c' v') /\
       written c' = written c ++ concat (dns_frame <$> outs)).
Proof.
  split.
  - intros fin rest sent Hne Hfin Hr. unfold handle_virtual_dns_session.
    apply udp_turns_respond; [done|done|done|]. cbn. rewrite length_app, length_fmap. simpl. lia.
  - intros c Hl Hrd Hf Hw Ho Hr. unfold handle_virtual_dns_tcp_session.
    eapply tcp_turns_respond; try done. cbn [client]. rewrite Hrd.
    pose proof (frames_length queries). lia.
Qed.

(** A TCP client that asks for names of the pool's family is always served:
    every query gets an answer, in order, that is valid for it and carries an
    address of the pool, and the session ends without an error. *)
Theorem virtual_dns_tcp_serves queries v c :
  vd_wf v -> Forall (pool_query v) queries -> Forall (fun q => 0 < len q <= u16_max) queries ->
  received (reads c) = concat (dns_frame <$> queries) -> finished (reads c) -> write_results c = [] ->
  exists outs s', handle_virtual_dns_tcp_session windows (mkSession c v) = (Returned (Ok tt), s') /\
    written (client s') = written c ++ concat (dns_frame <$> outs) /\
    Forall2 (answered_in v) queries outs /\ vd_wf (dns s').
Proof.
  intros Hwf Hall Hl Hrd Hf Hw.
  destruct (respond_all_pool false queries v Hwf Hall) as (outs & v' & Hr & Hwf' & _ & Ha).
  destruct (tcp_turns_respond windows queries c v (S (length (received (reads c)))) (Ok tt) outs v')
    as (c' & Ht & Hwr); try done.
  - clear -Ha. induction Ha as [|q o ? ? (m & qq & ip & r & Hx) Ha IH]; constructor; [|done].
    by destruct Hx as (_ & _ & _ & _ & _ & _ & ?).
  - rewrite Hrd. pose proof (frames_length queries). lia.
  - by exists outs, (mkSession c' v').
Qed.
End theorems.

(** ** A concrete session *)

Section examples.
Import DnsExample.

Definition example_queries : list (list Z) := [query_bytes 7 "A.org" TypeA; query_bytes 8 "B.org" TypeA].

Definition example_stream : Server :=
  mkServer [Ok (concat (dns_frame <$> example_queries)); Ok []] [] [] [].

(** The resolver of VirtualDnsQuery.v whose pool has two addresses. *)
Lemma example_pool_queries : Forall (pool_query (DO := NoDnsOverride) one_name) example_queries.
Proof.
  repeat constructor; (eexists _, _; split_and!; [reflexivity|reflexivity|reflexivity|]);
    intros ip r [= <-]; (eexists; split; [reflexivity|discriminate]).
Qed.

Lemma virtual_dns_tcp_serves_witness :
  exists outs s', handle_virtual_dns_tcp_session (DO := NoDnsOverride) false
      (mkSession example_stream one_name) = (Returned (Ok tt), s') /\
    written (client s') = [] ++ concat (dns_frame <$> outs) /\
    Forall2 (answered_in one_name) example_queries outs /\ vd_wf (dns s').
Proof.
  apply (virtual_dns_tcp_serves (DO := NoDnsOverride) false example_queries one_name example_stream);
    [apply one_name_wf|apply example_pool_queries| |reflexivity|exact I|reflexivity].
  repeat constructor; reflexivity || discriminate.
Defined.

(** A datagram session that answers one query and ends at a malformed one. *)
Lemma virtual_dns_session_refines_witness :
  exists l outs v', handle_virtual_dns_session (DO := NoDnsOverride) false
      (mkSession (mkDatagrams [Ok (query_bytes 7 "A.org" TypeA); Ok [1]; Ok []] [] []) one_name) =
    (Returned (Err (EString "short message")), mkSession (mkDatagrams l [] outs) v') /\
    length outs = 1%nat.
Proof.
  destruct (respond_all (DO := NoDnsOverride) false true [query_bytes 7 "A.org" TypeA; [1]] one_name)
    as [[r outs] v'] eqn:E.
  destruct (proj1 (virtual_dns_session_refines (DO := NoDnsOverride) false
    [query_bytes 7 "A.org" TypeA; [1]] one_name r outs v') (Ok []) [] [])
    as [l Hl]; [repeat constructor; discriminate|by left|exact E|].
  cbn [respond_all] in E.
  destruct (respond_pool (DO := NoDnsOverride) false true (query_bytes 7 "A.org" TypeA) one_name)
    as (out & v1 & Hr & _); [apply one_name_wf|by pose proof example_pool_queries as Hq; inversion Hq|].
  rewrite Hr in E. injection E as <- <- <-. by exists l, [out], v1.
Defined.
End examples.
End VirtualDnsSession.
