(* ===== verification/TcpSession.v ===== *)
(** * TCP sessions (src/src/lib.rs, [handle_tcp_session])

    The setup of a session, and its relay: two pumps that run concurrently
    under [try_join!], where the failure of one cancels the other.  One step of
    a pump is one turn of its loop; a schedule says which pump runs next.  The
    download pump starts with the bytes the proxy sent behind its handshake, and
    on an IPv4-only interface it rewrites DNS-over-TCP answers. *)

From S2P Require Import Prelude Net Socks5Impl Rfc1928 ProxyHandler Socks NoProxy Dns DnsExample.

Module TcpSession.
Import Dns.

Section session.
Context `{DnsLib}.

(** ** The DNS filter *)

(** One message of [copy_ipv4_dns_responses]. *)
Definition write_filtered (m : Message) (w : Server) : res IoError unit * Server :=
  match to_vec (remove_ipv6_entries m) with
  | Err e => (Err (io_other e), w)
  | Panic => (Panic, w)
  | Ok packet =>
      if u16_max <? len packet then (Err (io_other "out of range integral type conversion attempted"), w)
      else
        match write_all (be16 (len packet)) w with
        | (Ok _, w1) => write_all packet w1
        | r => r
        end
  end.

Fixpoint write_messages (ms : list Message) (w : Server) : res IoError unit * Server :=
  match ms with
  | [] => (Ok tt, w)
  | m :: ms' =>
      match write_filtered m w with
      | (Ok _, w') => write_messages ms' w'
      | r => r
      end
  end.

Definition record (tx rx : Z) (w : Server) : Server :=
  mkServer (reads w) (write_results w) (written w) (traffic w ++ [(tx, rx)]).

(** ** Pumps *)

Inductive Phase :=
  | Start (prefetched : list Z)      (* the prefetched bytes are not written yet *)
  | Copying                          (* copy_and_record_traffic *)
  | Filtering (pending : list Z).    (* copy_ipv4_dns_responses *)

Record Pump := mkPump {
  p_phase : Phase;
  p_reads : list (res IoError (list Z));
  p_writer : Server;
  p_total : Z;
  p_end : option (res IoError Z);
  p_shutdown : bool }.

Definition stop (r : res IoError Z) (p : Pump) : Pump :=
  mkPump (p_phase p) (p_reads p) (p_writer p) (p_total p) (Some r) (is_ok r).

Definition advance (ph : Phase) (rs : list (res IoError (list Z))) (w : Server) (total : Z) (p : Pump)
    : Pump := mkPump ph rs w total None (p_shutdown p).

(** One turn of [copy_and_record_traffic]; the writer is shut down at the end
    of the stream. *)
Definition copy_step (is_tx : bool) (p : Pump) : Pump :=
  match p_reads p with
  | [] => p
  | Err e :: _ => stop (Err e) p
  | Panic :: _ => stop Panic p
  | Ok [] :: _ => stop (Ok (p_total p)) p
  | Ok bs :: rs =>
      let w := if is_tx then record (len bs) 0 (p_writer p) else record 0 (len bs) (p_writer p) in
      match write_all bs w with
      | (Ok _, w') => advance (p_phase p) rs w' (p_total p + len bs) p
      | (Err e, w') => stop (Err e) (advance (p_phase p) rs w' (p_total p) p)
      | (Panic, w') => stop Panic (advance (p_phase p) rs w' (p_total p) p)
      end
  end.

(** One turn of [copy_ipv4_dns_responses]: the complete messages are written,
    then more bytes are read. *)
Definition filter_step (pending : list Z) (p : Pump) : Pump :=
  match drain_tcp_messages pending with
  | (Err e, _) => stop (Err (io_other e)) p
  | (Panic, _) => stop Panic p
  | (Ok ms, pending') =>
      match write_messages ms (p_writer p) with
      | (Err e, w) => stop (Err e) (advance (p_phase p) (p_reads p) w (p_total p) p)
      | (Panic, w) => stop Panic (advance (p_phase p) (p_reads p) w (p_total p) p)
      | (Ok _, w) =>
          let p1 := advance (Filtering pending') (p_reads p) w (p_total p) p in
          match p_reads p with
          | [] => p1
          | Err e :: _ => stop (Err e) p1
          | Panic :: _ => stop Panic p1
          | Ok [] :: _ =>
              if (length pending' =? 0)%nat then stop (Ok (p_total p)) p1
              else stop (Err (mkIo UnexpectedEof "incomplete DNS-over-TCP response")) p1
          | Ok bs :: rs =>
              advance (Filtering (pending' ++ bs)) rs (record 0 (len bs) w) (p_total p + len bs) p1
          end
      end
  end.

(** One step of a pump. *)
Definition pump_step (is_tx : bool) (p : Pump) : Pump :=
  match p_end p with
  | Some _ => p
  | None =>
      match p_phase p with
      | Start prefetched =>
          match write_all prefetched (p_writer p) with
          | (Ok _, w) => advance Copying (p_reads p) w (p_total p) p
          | (Err e, w) => stop (Err e) (advance (p_phase p) (p_reads p) w (p_total p) p)
          | (Panic, w) => stop Panic (advance (p_phase p) (p_reads p) w (p_total p) p)
          end
      | Copying => copy_step is_tx p
      | Filtering pending => filter_step pending p
      end
  end.

(** [try_join!]: the first error, or both results. *)
Definition join (u d : Pump) : option (res IoError (Z * Z)) :=
  match p_end u, p_end d with
  | Some (Err e), _ | _, Some (Err e) => Some (Err e)
  | Some Panic, _ | _, Some Panic => Some Panic
  | Some (Ok a), Some (Ok b) => Some (Ok (a, b))
  | _, _ => None
  end.

Inductive Side := Up | Down.

Fixpoint relay (schedule : list Side) (u d : Pump) : progress (res IoError (Z * Z)) * Pump * Pump :=
  match join u d with
  | Some r => (Returned r, u, d)
  | None =>
      match schedule with
      | [] => (Waiting, u, d)
      | Up :: rest => relay rest (pump_step true u) d
      | Down :: rest => relay rest u (pump_step false d)
      end
  end.

(** ** The session *)

(** The pumps of a session: [app] is the captured connection, [srv] the one to
    the proxy after its handshake. *)
Definition upload (app srv : Server) : Pump :=
  mkPump Copying (reads app) (mkServer [] (write_results srv) (written srv) (traffic srv)) 0 None false.

Definition download (filter_dns_ipv6 : bool) (prefetched : list Z) (app srv : Server) : Pump :=
  mkPump (if filter_dns_ipv6 then Filtering prefetched else Start prefetched) (reads srv)
    (mkServer [] (write_results app) (written app) (traffic app)) 0 None false.

(** The setup block: [opened] is the outcome of [create_tcp_stream]; a
    handshake that does not complete ends with the configured timeout. *)
Definition setup `{ProxyHandler P} (h : P) (opened : res IoError Server)
    : res Error (Server * list Z) :=
  match opened with
  | Err e => Err (Io e)
  | Panic => Panic
  | Ok srv =>
      match handle_proxy_session h srv with
      | (Waiting, _, _) => Err (Io (mkIo TimedOut "TUN TCP setup exceeded configured TCP timeout"))
      | (Returned (Err e), _, _) => Err e
      | (Returned Panic, _, _) => Panic
      | (Returned (Ok _), h', srv') =>
          match take_prefetched h' with
          | (Ok prefetched, _) => Ok (srv', prefetched)
          | (Err e, _) => Err (Io e)
          | (Panic, _) => Panic
          end
      end
  end.

Definition handle_tcp_session `{ProxyHandler P} (h : P) (opened : res IoError Server)
    (filter_dns_ipv6 : bool) (schedule : list Side) (app : Server)
    : progress (res Error unit) * option (Pump * Pump) :=
  match setup h opened with
  | Err e => (Returned (Err e), None)
  | Panic => (Returned Panic, None)
  | Ok (srv, prefetched) =>
      match relay schedule (upload app srv) (download filter_dns_ipv6 prefetched app srv) with
      | (Waiting, u, d) => (Waiting, Some (u, d))
      | (Returned (Ok _), u, d) => (Returned (Ok tt), Some (u, d))
      | (Returned (Err e), u, d) => (Returned (Err (Io e)), Some (u, d))
      | (Returned Panic, u, d) => (Returned Panic, Some (u, d))
      end
  end.


(** ** Plain relays *)

(** The bytes a plain pump still has to write. *)
Definition owed (p : Pump) : list Z :=
  match p_phase p with
  | Start prefetched => prefetched ++ received (p_reads p)
  | _ => received (p_reads p)
  end.

Definition is_plain (p : Pump) : Prop :=
  match p_phase p with Filtering _ => False | _ => True end.

(** A plain pump on its way to writing [whole]. *)
Definition pumping (whole : list Z) (p : Pump) : Prop :=
  is_plain p /\ exists rest, written (p_writer p) ++ rest = whole /\
  match p_end p with
  | None => rest = owed p
  | Some (Ok _) => rest = [] /\ p_shutdown p = true
  | Some _ => True
  end.

Lemma write_all_written bs w r w' :
  write_all bs w = (r, w') -> r <> Panic /\ (r = Ok tt -> written w' = written w ++ bs) /\
    (forall e, r = Err e -> written w' = written w).
Proof. unfold write_all. destruct (write_results w) as [|[e|] l]; by intros [= <- <-]. Qed.

Lemma written_record tx rx w : written (record tx rx w) = written w.
Proof. done. Qed.

Lemma copy_step_pumping is_tx whole p :
  p_phase p = Copying -> p_end p = None -> pumping whole p -> pumping whole (copy_step is_tx p).
Proof.
  intros Hph He [Hpl (rest & Hw & Hr)]. rewrite He in Hr. unfold owed in Hr. rewrite Hph in Hr.
  unfold copy_step. destruct (p_reads p) as [|[[|b bs]|e|] rs] eqn:Er.
  - split; [done|]. exists rest. rewrite He. unfold owed. by rewrite Hph, Er.
  - split; [done|]. by exists rest.
  - set (w := if is_tx then _ else _).
    assert (written w = written (p_writer p)) as Hwr by (subst w; by destruct is_tx).
    destruct (write_all (b :: bs) w) as [r w'] eqn:Ew.
    destruct (write_all_written _ _ _ _ Ew) as (HnP & Hok & Herr).
    destruct r as [[]|e|]; [| |done]; unfold pumping, is_plain; cbn; rewrite Hph; (split; [done|]).
    + exists (received rs). unfold owed. cbn. rewrite ?Hph, (Hok eq_refl), Hwr, <- app_assoc.
      split; [|done]. rewrite <- Hw, Hr. done.
    + exists rest. by rewrite (Herr e eq_refl), Hwr.
  - split; [done|]. by exists rest.
  - split; [done|]. by exists rest.
Qed.

Lemma pump_step_pumping is_tx whole p : pumping whole p -> pumping whole (pump_step is_tx p).
Proof.
  intros Hp. unfold pump_step. destruct (p_end p) eqn:He; [done|].
  destruct (p_phase p) as [pre| |pending] eqn:Hph.
  - destruct Hp as [_ (rest & Hw & Hr)]. rewrite He in Hr. unfold owed in Hr. rewrite Hph in Hr.
    destruct (write_all pre (p_writer p)) as [r w'] eqn:Ew.
    destruct (write_all_written _ _ _ _ Ew) as (HnP & Hok & Herr).
    destruct r as [[]|e|]; [| |done]; unfold pumping, is_plain; cbn; rewrite ?Hph; (split; [done|]).
    + exists (received (p_reads p)). rewrite (Hok eq_refl), <- app_assoc. split; [|done].
      by rewrite <- Hw, Hr.
    + exists rest. by rewrite (Herr e eq_refl).
  - by apply copy_step_pumping.
  - destruct Hp as [Hpl _]. unfold is_plain in Hpl. by rewrite Hph in Hpl.
Qed.

Lemma relay_ind (Pu Pd : Pump -> Prop) schedule u d r u' d' :
  (forall p, Pu p -> Pu (pump_step true p)) -> (forall p, Pd p -> Pd (pump_step false p)) ->
  Pu u -> Pd d -> relay schedule u d = (r, u', d') -> Pu u' /\ Pd d'.
Proof.
  intros Hu Hd. revert u d. induction schedule as [|[] schedule IH]; intros u d Pu0 Pd0; cbn [relay];
    (destruct (join u d); [by intros [= _ <- <-]|]).
  - by intros [= _ <- <-].
  - apply IH; [by apply Hu|done].
  - apply IH; [done|by apply Hd].
Qed.

Lemma relay_ok schedule u d x u' d' :
  relay schedule u d = (Returned (Ok x), u', d') ->
  exists a b, p_end u' = Some (Ok a) /\ p_end d' = Some (Ok b) /\ x = (a, b).
Proof.
  revert u d. induction schedule as [|[] schedule IH]; intros u d; cbn [relay];
    (destruct (join u d) eqn:Ej; [|done || by apply IH]);
    intros [= -> <- <-]; unfold join in Ej;
    destruct (p_end u) as [[]|], (p_end d) as [[]|]; try done;
    injection Ej as <-; by eexists _, _.
Qed.

(** ** Filtered relays *)

(** The wire form of the filtered messages. *)
Definition filtered (m : Message) (v : list Z) : Prop :=
  to_vec (remove_ipv6_entries m) = Ok v /\ len v <= u16_max.

Lemma write_messages_ok ms vs w :
  Forall2 filtered ms vs -> write_results w = [] ->
  exists w', write_messages ms w = (Ok tt, w') /\ write_results w' = [] /\
    written w' = written w ++ concat (dns_frame <$> vs).
Proof.
  intros Hf. revert w. induction Hf as [|m v ms vs [Hv Hl] _ IH]; intros w Hw.
  - exists w. cbn. by rewrite app_nil_r.
  - cbn [write_messages]. unfold write_filtered. rewrite Hv, (proj2 (Z.ltb_ge _ _)) by done.
    unfold write_all at 1. rewrite Hw. unfold write_all at 1. cbn [write_results].
    destruct (IH (mkServer (reads w) [] ((written w ++ be16 (len v)) ++ v) (traffic w)) eq_refl)
      as (w' & Hm & Hr & Hwr).
    exists w'. split; [exact Hm|]. split; [done|]. rewrite Hwr. cbn [written].
    rewrite fmap_cons. cbn [concat]. unfold dns_frame. by rewrite <- !app_assoc.
Qed.

(** A filtering pump on its way to writing the frames [vs] behind [before]. *)
Definition filtering (before : list Z) (vs : list (list Z)) (rem : list Z) (p : Pump) : Prop :=
  exists pending vs1 vs2, p_phase p = Filtering pending /\ write_results (p_writer p) = [] /\
    vs = vs1 ++ vs2 /\ written (p_writer p) = before ++ concat (dns_frame <$> vs1) /\
    match p_end p with
    | None => exists ms2, drain_tcp_messages (pending ++ received (p_reads p)) = (Ok ms2, rem) /\
        Forall2 filtered ms2 vs2
    | Some (Ok _) => vs2 = [] /\ rem = [] /\ p_shutdown p = true
    | Some _ => True
    end.
End session.

Section filter.
Context `{L : DnsLibLaws}.

Lemma drain_twice ms rem bs :
  drain_tcp_messages bs = (Ok ms, rem) -> drain_tcp_messages rem = (Ok [], rem).
Proof.
  intros Hd. pose proof (drain_tcp_messages_app bs [] ms rem Hd) as Ha.
  rewrite !app_nil_r in Ha. destruct (drain_tcp_messages rem) as [[ms'|e|] rem'] eqn:E; [| |done].
  - rewrite Hd in Ha. injection Ha as Hms ->. f_equal. f_equal.
    destruct ms'; [done|]. apply (f_equal length) in Hms. rewrite length_app in Hms. simpl in Hms. lia.
  - rewrite Hd in Ha. done.
Qed.

Lemma filter_step_filtering before vs rem p pending :
  p_phase p = Filtering pending -> p_end p = None -> filtering before vs rem p ->
  filtering before vs rem (filter_step pending p).
Proof.
  intros Hph He (pending0 & vs1 & vs2 & Hph0 & Hwr & -> & Hw & Hend). rewrite Hph in Hph0.
  injection Hph0 as <-. rewrite He in Hend. destruct Hend as (ms2 & Hd & Hf).
  destruct (drain_tcp_messages_prefix _ _ _ _ Hd) as (ma & rema & mb & Ha & -> & Hb).
  apply Forall2_app_inv_l in Hf as (va & vb & Hfa & Hfb & ->).
  unfold filter_step. rewrite Ha.
  destruct (write_messages_ok ma va (p_writer p) Hfa Hwr) as (w' & -> & Hwr' & Hw').
  rewrite Hw in Hw'.
  assert (written w' = before ++ concat (dns_frame <$> (vs1 ++ va))) as Hall
    by (by rewrite Hw', fmap_app, concat_app, app_assoc).
  destruct (p_reads p) as [|[[|b bs]|e|] rs] eqn:Er.
  - exists rema, (vs1 ++ va), vb. cbn. rewrite <- app_assoc. split_and!; try done. by exists mb.
  - cbn [received] in Hb. rewrite app_nil_r in Hb. rewrite (drain_twice _ _ _ Ha) in Hb.
    injection Hb as <- <-. inversion Hfb; subst. split_if E; b2p.
    + exists rema, (vs1 ++ va), []. cbn. rewrite <- app_assoc. split_and!; try done.
      by apply nil_length_inv.
    + exists rema, (vs1 ++ va), []. cbn. rewrite <- app_assoc. by split_and!.
  - exists (rema ++ b :: bs), (vs1 ++ va), vb. cbn. rewrite <- app_assoc. split_and!; try done.
    exists mb. split; [|done]. by rewrite <- app_assoc.
  - exists rema, (vs1 ++ va), vb. cbn. rewrite <- app_assoc. by split_and!.
  - exists rema, (vs1 ++ va), vb. cbn. rewrite <- app_assoc. by split_and!.
Qed.

Lemma pump_step_filtering is_tx before vs rem p :
  filtering before vs rem p -> filtering before vs rem (pump_step is_tx p).
Proof.
  intros Hp. unfold pump_step. destruct (p_end p) eqn:He; [done|].
  pose proof Hp as (pending & _ & _ & Hph & _). rewrite Hph. by apply filter_step_filtering.
Qed.

(** ** The properties *)

(** On an IPv4-only interface, DNS-over-TCP answers reach the application only
    as whole frames with the AAAA records removed, in the order of the answers,
    however the proxy fragments or pipelines them and whatever came with the
    handshake; a session that ends well has delivered them all, and one that
    ends inside a frame does not end well. *)
Lemma tcp_dns_filtered schedule u0 prefetched app srv ms vs rem r u d :
  write_results app = [] ->
  drain_tcp_messages (prefetched ++ received (reads srv)) = (Ok ms, rem) ->
  Forall2 filtered ms vs ->
  relay schedule u0 (download true prefetched app srv) = (r, u, d) ->
  exists vs1 vs2, vs = vs1 ++ vs2 /\
    written (p_writer d) = written app ++ concat (dns_frame <$> vs1) /\
    (forall x, r = Returned (Ok x) -> vs2 = [] /\ rem = [] /\ p_shutdown d = true).
Proof.
  intros Hw Hd Hf Hr.
  destruct (relay_ind (fun _ => True) (filtering (written app) vs rem) schedule u0
    (download true prefetched app srv) r u d) as [_ Hfd]; try done.
  - intros q. apply pump_step_filtering.
  - exists prefetched, [], vs. cbn. rewrite app_nil_r. split_and!; try done. by exists ms.
  - destruct Hfd as (pending & vs1 & vs2 & _ & _ & -> & Hwr & He). exists vs1, vs2.
    split_and!; [done|done|]. intros x ->. apply relay_ok in Hr as (a & b & _ & Eb & _).
    by rewrite Eb in He.
Qed.
End filter.

(** ** Examples *)

Section examples.
Import NoProxy DnsExample.

Let i : SessionInfo := mkInfo (mkSA (ipv4 10 0 0 33) 5000) (mkSA (ipv4 1 1 1 1) 80) Tcp 0.
Let h : NoProxyHandler := mkNoProxy i None [] [] false.
Let server_side : Server := mkServer [Ok [3; 4]; Ok []] [] [] [].
Let app_side : Server := mkServer [Ok [1]; Ok [2]; Ok []] [] [] [].


Let question : Query := mkQuery (H := text_names) "a.org" TypeA ClassIN.
Let reply_msg : Message := mkMessage 1 Query_ 0 false false false false false false 0 [question]
    [] [] [] None None.
Let wire : list Z := dns_frame (query_bytes 1 "a.org" TypeA).
Let dns_side : Server := mkServer [Ok (drop 3 wire); Ok []] [] [] [].

Lemma tcp_dns_filtered_witness :
  exists r u d vs1 vs2, relay [Down; Down; Up; Down] (upload app_side dns_side)
      (download true (take 3 wire) app_side dns_side) = (r, u, d) /\
    [query_bytes 1 "a.org" TypeA] = vs1 ++ vs2 /\
    written (p_writer d) = concat (dns_frame <$> vs1).
Proof.
  eexists _, _, _.
  assert (Forall2 filtered [reply_msg] [query_bytes 1 "a.org" TypeA]) as Hf
    by (constructor; [split; [reflexivity|by vm_compute]|constructor]).
  assert (drain_tcp_messages (take 3 wire ++ received (reads dns_side)) = (Ok [reply_msg], []))
    as Hd by reflexivity.
  destruct (tcp_dns_filtered [Down; Down; Up; Down] (upload app_side dns_side) (take 3 wire) app_side
    dns_side [reply_msg] [query_bytes 1 "a.org" TypeA] [] _ _ _ eq_refl Hd Hf eq_refl)
    as (vs1 & vs2 & Hvs & Hw & _).
  exists vs1, vs2. split_and!; [reflexivity|exact Hvs|exact Hw].
Defined.
End examples.
End TcpSession.
