(* ===== verification/Sessions.v ===== *)
(** * Session limit (src/src/lib.rs, [SessionCounts])

    The three counters are separate atomics: taking a permit updates [total]
    and then the counter of the protocol, dropping it updates them in the
    opposite order.  Every atomic operation is one step, so the sessions
    interleave between them; a session is known by how far it got. *)

From S2P Require Import Prelude Net.

Module Sessions.

Record SessionCounts := mkCounts { total : Z; tcp : Z; udp : Z }.

Definition default_counts : SessionCounts := mkCounts 0 0 0.

(** [SessionCountSnapshot]: three loads. *)
Definition snapshot (c : SessionCounts) : Z * Z * Z := (total c, tcp c, udp c).

(** The first atomic of [try_acquire]: [total.try_update]. *)
Definition reserve_total (max_sessions : Z) (c : SessionCounts) : option SessionCounts :=
  if total c <? max_sessions then Some (mkCounts (total c + 1) (tcp c) (udp c)) else None.

(** [protocol_count(protocol).fetch_add(d)], wrapping; any other protocol is
    unreachable code. *)
Definition add_protocol (protocol : IpProtocol) (d : Z) (c : SessionCounts) : res Error SessionCounts :=
  match protocol with
  | Tcp => Ok (mkCounts (total c) (wrap64 (tcp c + d)) (udp c))
  | Udp => Ok (mkCounts (total c) (tcp c) (wrap64 (udp c + d)))
  | _ => Panic
  end.

(** [total.fetch_sub(1)]. *)
Definition release_total (c : SessionCounts) : SessionCounts :=
  mkCounts (wrap64 (total c - 1)) (tcp c) (udp c).

(** [try_acquire] and [SessionPermit::drop] run without interruption. *)
Definition try_acquire (protocol : IpProtocol) (max_sessions : Z) (c : SessionCounts)
    : option (res Error SessionCounts) :=
  match reserve_total max_sessions c with
  | None => None
  | Some c1 => Some (add_protocol protocol 1 c1)
  end.

Definition drop_permit (protocol : IpProtocol) (c : SessionCounts) : res Error SessionCounts :=
  match add_protocol protocol (-1) c with
  | Ok c1 => Ok (release_total c1)
  | r => r
  end.

(** ** Interleavings *)

(** A session between two of its atomics: [total] is reserved, the permit is
    held, or the protocol counter is already released. *)
Inductive Stage := Reserved (p : IpProtocol) | Held (p : IpProtocol) | Releasing (p : IpProtocol).

Record State := mkState { counts : SessionCounts; live : list Stage }.

(** The protocols a permit is asked for. *)
Definition admitted (p : IpProtocol) : Prop := p = Tcp \/ p = Udp.

Inductive step (max_sessions : Z) : State -> State -> Prop :=
  | step_reserve p c c' l :
      admitted p -> reserve_total max_sessions c = Some c' ->
      step max_sessions (mkState c l) (mkState c' (Reserved p :: l))
  | step_count p c c' l1 l2 :
      add_protocol p 1 c = Ok c' ->
      step max_sessions (mkState c (l1 ++ Reserved p :: l2)) (mkState c' (l1 ++ Held p :: l2))
  | step_uncount p c c' l1 l2 :
      add_protocol p (-1) c = Ok c' ->
      step max_sessions (mkState c (l1 ++ Held p :: l2)) (mkState c' (l1 ++ Releasing p :: l2))
  | step_release p c l1 l2 :
      step max_sessions (mkState c (l1 ++ Releasing p :: l2)) (mkState (release_total c) (l1 ++ l2)).

(** The sessions that hold a permit for [p]. *)
Fixpoint held (p : IpProtocol) (l : list Stage) : Z :=
  match l with
  | [] => 0
  | Held q :: l' => (if bool_decide (q = p) then 1 else 0) + held p l'
  | _ :: l' => held p l'
  end.

Lemma held_app p l1 l2 : held p (l1 ++ l2) = held p l1 + held p l2.
Proof. induction l1 as [|[q|q|q] l1 IH]; cbn [app held]; lia. Qed.

Lemma held_cons p s l : held p (s :: l) = held p [s] + held p l.
Proof. apply (held_app p [s] l). Qed.

Lemma held_bound p l : 0 <= held p l <= len l.
Proof.
  unfold len. induction l as [|[q|q|q] l IH]; cbn [held length]; [lia|lia| |lia].
  case_bool_decide; lia.
Qed.

Lemma held_both l : held Tcp l + held Udp l <= len l.
Proof.
  unfold len. induction l as [|[q|q|q] l IH]; cbn [held length]; try lia.
  repeat case_bool_decide; simplify_eq; lia.
Qed.

Definition is_held (s : Stage) : Prop := exists p, s = Held p /\ admitted p.

Lemma held_all l : Forall is_held l -> held Tcp l + held Udp l = len l.
Proof.
  unfold len. induction 1 as [|s l (p & -> & [->| ->]) _ IH]; cbn [held length]; [lia|..];
    repeat case_bool_decide; simplify_eq; lia.
Qed.

(** The counters are exact: [total] counts the live sessions and the others
    those that hold a permit. *)
Record counts_ok (max_sessions : Z) (s : State) : Prop := mkOk {
  ok_total : total (counts s) = len (live s);
  ok_max : total (counts s) <= max_sessions;
  ok_tcp : tcp (counts s) = held Tcp (live s);
  ok_udp : udp (counts s) = held Udp (live s) }.

Lemma wrap64_small z : 0 <= z <= u64_max -> wrap64 z = z.
Proof. unfold wrap64, u64_max. intros. apply Z.mod_small. lia. Qed.

(** A session changes its stage with the counter of its protocol. *)
Lemma change_ok max p d c c' l1 l2 a b :
  max <= u64_max -> counts_ok max (mkState c (l1 ++ a :: l2)) -> add_protocol p d c = Ok c' ->
  (forall q, held q [b] = held q [a] + (if bool_decide (p = q) then d else 0)) ->
  counts_ok max (mkState c' (l1 ++ b :: l2)).
Proof.
  intros Hmax [Ht Hm Htcp Hudp] Hp Hb. cbn [counts live] in *.
  assert (len (l1 ++ b :: l2) = len (l1 ++ a :: l2)) as Hl by (by rewrite !len_app, !len_cons).
  assert (forall q, held q (l1 ++ b :: l2) =
    held q (l1 ++ a :: l2) + (if bool_decide (p = q) then d else 0)) as Hall.
  { intros q. rewrite !held_app, (held_cons q a), (held_cons q b), Hb. lia. }
  pose proof (held_bound Tcp (l1 ++ b :: l2)) as B1. pose proof (held_bound Udp (l1 ++ b :: l2)) as B2.
  pose proof (Hall Tcp) as HT. pose proof (Hall Udp) as HU.
  destruct p; try done; injection Hp as <-.
  - rewrite bool_decide_eq_true_2 in HT by done. rewrite bool_decide_eq_false_2 in HU by done.
    split; cbn [counts live total tcp udp]; rewrite ?Hl; try lia. rewrite wrap64_small; lia.
  - rewrite bool_decide_eq_false_2 in HT by done. rewrite bool_decide_eq_true_2 in HU by done.
    split; cbn [counts live total tcp udp]; rewrite ?Hl; try lia. rewrite wrap64_small; lia.
Qed.

Lemma step_ok max s s' :
  0 <= max <= u64_max -> counts_ok max s -> step max s s' -> counts_ok max s'.
Proof.
  intros Hmax Hok Hs. destruct Hs as [p c c' l Hp Hr|p c c' l1 l2 Hp|p c c' l1 l2 Hp|p c l1 l2].
  - destruct Hok as [Ht Hm Htcp Hudp]. cbn [counts live] in *. unfold reserve_total in Hr.
    destruct (total c <? max) eqn:E; [|done]. injection Hr as <-. b2p.
    split; cbn [counts live total tcp udp]; rewrite ?len_cons; try lia; done.
  - eapply change_ok; [lia|done|done|]. intros q. cbn. by rewrite Z.add_0_r.
  - eapply change_ok; [lia|done|done|]. intros q. cbn. case_bool_decide; lia.
  - destruct Hok as [Ht Hm Htcp Hudp]. cbn [counts live] in *.
    rewrite held_app in *. cbn [held] in *. rewrite len_app, len_cons in Ht.
    pose proof (len_nonneg l1). pose proof (len_nonneg l2).
    split; cbn [counts live release_total total tcp udp]; rewrite ?held_app, ?len_app;
      rewrite ?wrap64_small by lia; try lia; done.
Qed.

(** Whatever the interleaving of sessions that start and end, [total] is the
    number of live sessions and never exceeds the limit, no counter
    underflows, the protocol counters never exceed [total], and they add up to
    it when every session holds its permit. *)
Theorem session_counts_exact max_sessions s :
  0 <= max_sessions <= u64_max ->
  rtc (step max_sessions) (mkState default_counts []) s ->
  total (counts s) = len (live s) /\ total (counts s) <= max_sessions /\
  0 <= tcp (counts s) /\ 0 <= udp (counts s) /\
  tcp (counts s) + udp (counts s) <= total (counts s) /\
  (Forall is_held (live s) -> tcp (counts s) + udp (counts s) = total (counts s)).
Proof.
  intros Hmax Hs.
  assert (counts_ok max_sessions (mkState default_counts [])) as Hi by (split; cbn; lia || done).
  assert (counts_ok max_sessions s) as [Ht Hm Htcp Hudp].
  { revert Hi. induction Hs as [|s1 s2 s3 Hstep _ IH]; [done|]. intros Hi. apply IH. by eapply step_ok. }
  pose proof (held_bound Tcp (live s)). pose proof (held_bound Udp (live s)).
  pose proof (held_both (live s)). rewrite Ht, Htcp, Hudp in *.
  split_and!; try lia. apply held_all.
Qed.

(** A permit is granted exactly below the limit, and dropping it restores the
    counters. *)
Theorem session_permit_roundtrip max_sessions p c :
  admitted p -> 0 <= total c -> 0 <= tcp c < u64_max -> 0 <= udp c < u64_max -> max_sessions <= u64_max ->
  (total c < max_sessions ->
     exists c', try_acquire p max_sessions c = Some (Ok c') /\ total c' = total c + 1 /\
       drop_permit p c' = Ok c) /\
  (max_sessions <= total c -> try_acquire p max_sessions c = None).
Proof.
  intros Hp Ht Htcp Hudp Hmax. unfold try_acquire, reserve_total. split; intros Hlt.
  - rewrite (proj2 (Z.ltb_lt _ _)) by done. destruct c as [t a b]. cbn in *.
    destruct Hp as [->| ->]; eexists; (split; [done|]); (split; [done|]);
      unfold drop_permit, add_protocol, release_total; cbn [total tcp udp].
    + rewrite (wrap64_small (a + 1)) by lia. rewrite !wrap64_small by lia. do 2 f_equal; lia.
    + rewrite (wrap64_small (b + 1)) by lia. rewrite !wrap64_small by lia. do 2 f_equal; lia.
  - by rewrite (proj2 (Z.ltb_ge _ _)).
Qed.

(** ** Examples *)

Lemma two_sessions :
  rtc (step 2) (mkState default_counts [])
    (mkState (mkCounts 2 1 0) [Reserved Udp; Held Tcp]).
Proof.
  eapply rtc_l; [apply (step_reserve 2 Tcp); [by left|reflexivity]|].
  eapply rtc_l; [apply (step_count 2 Tcp (mkCounts 1 0 0) (mkCounts 1 1 0) [] []); reflexivity|].
  eapply rtc_l; [apply (step_reserve 2 Udp); [by right|reflexivity]|]. apply rtc_refl.
Qed.

Lemma session_counts_exact_witness :
  total (counts (mkState (mkCounts 2 1 0) [Reserved Udp; Held Tcp])) <= 2.
Proof.
  exact (proj1 (proj2 (session_counts_exact 2 _ ltac:(by vm_compute) two_sessions))).
Defined.

Lemma session_permit_roundtrip_witness :
  exists c', try_acquire Tcp 5 default_counts = Some (Ok c') /\ total c' = 1 /\
    drop_permit Tcp c' = Ok default_counts.
Proof.
  refine (proj1 (session_permit_roundtrip 5 Tcp default_counts _ _ _ _ _) _);
    [by left|by vm_compute..].
Defined.
End Sessions.
