(* ===== verification/Routing.v ===== *)
(** * Session routing (src/src/lib.rs, [run_with_preselected_egress])

    What the accept loop does with one captured TCP or UDP session: which
    resolver answers it, which handler relays it, to which destination and
    through which interface.  The dispatch is modelled for Linux, macOS
    ([desktop]) and the mobile platforms; the shared UDP bypass sockets of
    Windows are not part of it.  The process matcher's verdict, the caller
    attribution of the DNS override, the physical and the proxied resolvers,
    the embedding application's UDP policy and [tproxy_config::is_private_ip]
    are arguments. *)

From S2P Require Import Prelude Net Socks5Impl Dns Persistence VirtualDns VirtualDnsProofs VirtualDnsQuery.

Module Routing.
Import VirtualDns VirtualDnsProofs.

Definition DNS_PORT : Z := 53.
Definition DNS_OVER_TLS_PORT : Z := 853.

(** args.rs *)
Inductive ArgDns := DVirtual | DOverTcp | DDirect | DPhysical.
Inductive ArgUdpStrategy := SProxy | SDirect | SBlock.
Inductive ProxyType := PHttp | PSocks4 | PSocks5 | PNone | PMixed.

#[export] Instance ArgDns_eq_dec : EqDecision ArgDns.
Proof. solve_decision. Defined.
#[export] Instance ArgUdpStrategy_eq_dec : EqDecision ArgUdpStrategy.
Proof. solve_decision. Defined.
#[export] Instance ProxyType_eq_dec : EqDecision ProxyType.
Proof. solve_decision. Defined.

Inductive UdpRoute := RDirect (destination : SocketAddr) | RProxy | RReject.

(** [is_local_multicast_destination]. *)
Definition is_local_multicast_destination (a : IpAddr) : bool := is_multicast a.

(** [icmp_type_code]. *)
Definition icmp_type_code (protocol : Z) (payload : list Z) : option (Z * Z) :=
  if negb (protocol =? 1) && negb (protocol =? 58) then None
  else match payload with kind :: code :: _ => Some (kind, code) | _ => None end.

(** [is_virtual_dns_tls_probe]. *)
Definition is_virtual_dns_tls_probe (dns : ArgDns) (portals : list IpAddr) (dst : SocketAddr) : bool :=
  negb (bool_decide (dns = DDirect)) && (sa_port dst =? DNS_OVER_TLS_PORT) &&
  bool_decide (sa_ip dst ∈ portals).

Section routing.
Context `{LruCache} {Bind : Type}.

Record Config := mkConfig {
  desktop : bool;
  dns : ArgDns;
  dns_addr : IpAddr;
  ipv6_enabled : bool;
  udp_strategy : ArgUdpStrategy;
  proxy_type : ProxyType;
  virtual_dns_portals : list IpAddr;
  udp_router : option (SocketAddr -> option string -> bool -> UdpRoute);
  udpgw_server : option SocketAddr;
  direct_bind : option Bind }.

(** The parts outside the repository, and what other components decide. *)
Record Environment := mkEnv {
  is_private_ip : IpAddr -> bool;
  (* direct::resolve_domain_bound: domain, port, resolver, family, interface *)
  resolve_bound : string -> Z -> IpAddr -> bool -> Bind -> res IoError SocketAddr;
  (* resolve_domain_over_proxy: domain, port, resolver, family, interface *)
  resolve_over_proxy : string -> Z -> IpAddr -> bool -> option Bind -> res IoError SocketAddr;
  dns_override_active : bool }.

Variable cfg : Config.
Variable env : Environment.

(** [resolve_virtual_domain]. *)
Definition resolve_virtual_domain (ip : IpAddr)
    : M (option VirtualDns) IoError (option string) := fun vd =>
  match vd with
  | None => (Ok None, None)
  | Some v =>
      let '(d, v1) := resolve_ip ip (touch_ip ip v) in
      match d with
      | Some name => (Ok (Some name), Some v1)
      | None =>
          if contains_address ip v1 then
            (Err (mkIo NotFound "stale virtual DNS address; reconnect after refreshing DNS"), Some v1)
          else (Ok None, Some v1)
      end
  end.

(** [restore_bypass_destination]: the session with its real destination. *)
Definition restore_bypass_destination (i : SessionInfo)
    : M (option VirtualDns) IoError SessionInfo :=
  domain ← resolve_virtual_domain (sa_ip (info_dst i));
  match domain with
  | None => mret i
  | Some name =>
      match direct_bind cfg with
      | None => throw (io_other "process-bypass physical interface is unavailable")
      | Some b =>
          dst ← lift (resolve_bound env name (sa_port (info_dst i)) (dns_addr cfg)
                        (sa_is_ipv6 (info_dst i)) b);
          mret (with_dst i dst)
      end
  end.

(** [restore_direct_udp_destination]. *)
Definition restore_direct_udp_destination (i : SessionInfo) (domain : option string)
    (bind : option Bind) : res IoError SessionInfo :=
  match domain with
  | None => Ok i
  | Some name =>
      dst ← resolve_over_proxy env name (sa_port (info_dst i)) (dns_addr cfg)
              (sa_is_ipv6 (info_dst i)) bind;
      mret (with_dst i dst)
  end.

(** [info.dst.set_ip(dns_addr)]. *)
Definition to_resolver (i : SessionInfo) : SessionInfo :=
  with_dst i (set_ip (info_dst i) (dns_addr cfg)).

(** The handler manager of a relay. *)
Inductive Manager := ProxyMgr | DirectMgr.

(** ** TCP *)

Inductive TcpAction :=
  | TPhysicalDns (bind : option Bind)   (* physical_dns::tcp, an error without an interface *)
  | TVirtualDns                         (* handle_virtual_dns_tcp_session, an error without a resolver *)
  | TRoutedDns (i : SessionInfo)        (* dns_routing::tcp *)
  | TRejectProbe                        (* the stream is shut down *)
  | TRelay (m : Manager) (i : SessionInfo) (domain : option string) (bind : option Bind)
           (filter_dns_ipv6 : bool)     (* handle_tcp_session *)
  | TAbort (e : IoError)
  | TPanic.

(** The end of the TCP task: the handler and the interface of the relay. *)
Definition tcp_relay (bypass : bool) (i : SessionInfo) (vd : option VirtualDns)
    : TcpAction * option VirtualDns :=
  let filter := negb bypass && bool_decide (dns cfg = DOverTcp) &&
                (sa_port (info_dst i) =? DNS_PORT) && negb (ipv6_enabled cfg) in
  if desktop cfg then
    let '(restored, vd1) := if bypass then restore_bypass_destination i vd else (Ok i, vd) in
    (* on an error [info] keeps its destination; the second lookup still runs *)
    let i1 := match restored with Ok i1 => i1 | _ => i end in
    let '(domain, vd2) := resolve_virtual_domain (sa_ip (info_dst i1)) vd1 in
    match restored, domain with
    | Err e, _ | _, Err e => (TAbort e, vd2)
    | Ok _, Ok d =>
        (if bypass then TRelay DirectMgr i1 d (direct_bind cfg) filter
         else TRelay ProxyMgr i1 d None filter, vd2)
    | _, _ => (TPanic, vd2)
    end
  else
    let '(domain, vd2) := resolve_virtual_domain (sa_ip (info_dst i)) vd in
    match domain with
    | Err e => (TAbort e, vd2)
    | Ok d => (TRelay ProxyMgr i d None filter, vd2)
    | Panic => (TPanic, vd2)
    end.

(** The TCP task.  [policy_bypass] is the verdict of the process matcher, which
    only desktop builds have. *)
Definition tcp_dispatch (policy_bypass : bool) (i : SessionInfo) (vd : option VirtualDns)
    : TcpAction * option VirtualDns :=
  let bypass := desktop cfg && policy_bypass in
  let to_dns := sa_port (info_dst i) =? DNS_PORT in
  if desktop cfg && to_dns && (bool_decide (dns cfg = DPhysical) || bypass) then
    (TPhysicalDns (direct_bind cfg), vd)
  else
    let i := if negb bypass && bool_decide (dns cfg = DOverTcp) && to_dns &&
                is_private_ip env (sa_ip (info_dst i)) then to_resolver i else i in
    if negb bypass && bool_decide (dns cfg = DVirtual) && to_dns then
      (TVirtualDns, vd)
    else if negb bypass && bool_decide (dns cfg = DOverTcp) && to_dns && dns_override_active env then
      (TRoutedDns i, vd)
    else if negb bypass && is_virtual_dns_tls_probe (dns cfg) (virtual_dns_portals cfg) (info_dst i) then
      (TRejectProbe, vd)
    else tcp_relay bypass i vd.

(** ** UDP *)

Inductive UdpAction :=
  | UPhysicalDns (bind : Bind)          (* physical_dns::udp *)
  | UDnsOverTcp (i : SessionInfo)       (* handle_dns_over_tcp_session *)
  | UVirtualDns                         (* handle_virtual_dns_session *)
  | UReject                             (* udp.reject *)
  | UAssociate (t : ProxyType) (m : Manager) (i : SessionInfo) (domain : option string)
               (bind : option Bind)     (* handle_udp_associate_session *)
  | UGateway (server : SocketAddr) (dst : Address)   (* handle_udp_gateway_session *)
  | UFail (e : Error)
  | UPanic.

(** The branch of an ordinary datagram flow, after DNS and process bypass. *)
Definition udp_ordinary (i : SessionInfo) (vd : option VirtualDns) : UdpAction * option VirtualDns :=
  match udp_router cfg, udp_strategy cfg with
  | None, SBlock => (UReject, vd)
  | router, strategy =>
      let '(domain, vd1) := resolve_virtual_domain (sa_ip (info_dst i)) vd in
      match domain with
      | Err _ => (UReject, vd1)
      | Panic => (UPanic, vd1)
      | Ok d =>
          match option_map (fun f => f (info_dst i) d (bool_decide (strategy = SProxy))) router with
          | Some RReject => (UReject, vd1)
          | Some (RDirect destination) =>
              (UAssociate PNone DirectMgr (with_dst i destination) None (direct_bind cfg), vd1)
          | _ =>
              if bool_decide (strategy = SDirect) then
                let dns_bind := if bool_decide (proxy_type cfg = PNone) then direct_bind cfg else None in
                match restore_direct_udp_destination i d dns_bind with
                | Ok i1 => (UAssociate PNone DirectMgr i1 None (direct_bind cfg), vd1)
                | Err e => (UFail (Io e), vd1)
                | Panic => (UPanic, vd1)
                end
              else
                match udpgw_server cfg with
                | Some server =>
                    let dst := match d with
                               | Some name => DomainAddress name (sa_port (info_dst i))
                               | None => SocketAddress (info_dst i)
                               end in
                    (UGateway server dst, vd1)
                | None => (UAssociate (proxy_type cfg) ProxyMgr i d None, vd1)
                end
          end
      end
  end.

(** The UDP task.  [policy_bypass] is the verdict of the process matcher. *)
Definition udp_dispatch (policy_bypass : bool) (i : SessionInfo) (vd : option VirtualDns)
    : UdpAction * option VirtualDns :=
  let bypass := desktop cfg && (is_local_multicast_destination (sa_ip (info_dst i)) || policy_bypass) in
  let to_dns := sa_port (info_dst i) =? DNS_PORT in
  if desktop cfg && to_dns && (bool_decide (dns cfg = DPhysical) || bypass) then
    match direct_bind cfg with
    | Some b => (UPhysicalDns b, vd)
    | None => (UFail (Io (io_other "physical DNS interface unavailable")), vd)
    end
  else if bypass then
    match restore_bypass_destination i vd with
    | (Ok i1, vd1) => (UAssociate PNone DirectMgr i1 None (direct_bind cfg), vd1)
    | (Err e, vd1) => (UFail (Io e), vd1)
    | (Panic, vd1) => (UPanic, vd1)
    end
  else if to_dns then
    let i := if is_private_ip env (sa_ip (info_dst i)) then to_resolver i else i in
    match dns cfg with
    | DOverTcp => (UDnsOverTcp (with_protocol i Tcp), vd)
    | DVirtual =>
        match vd with
        | Some _ => (UVirtualDns, vd)
        | None => (UFail (EString "virtual DNS manager is unavailable"), vd)
        end
    | DDirect => udp_ordinary i vd
    | DPhysical => (UPanic, vd)    (* assert_eq!(dns, ArgDns::Direct) *)
    end
  else udp_ordinary i vd.

(** The startup check of a build without physical interfaces. *)
Definition startup (p : Config) : res Error unit :=
  if negb (desktop p) && bool_decide (dns p = DPhysical) then
    Err (EString "physical DNS requires a desktop physical interface")
  else Ok tt.


(** ** Properties *)

(** What an action hands to the proxy as the destination, if it uses the proxy. *)
Definition named (d : option string) (s : SocketAddr) : Address :=
  match d with Some name => DomainAddress name (sa_port s) | None => SocketAddress s end.

Definition tcp_target (a : TcpAction) : option Address :=
  match a with
  | TRelay ProxyMgr i d _ _ => Some (named d (info_dst i))
  | TRoutedDns i => Some (SocketAddress (info_dst i))
  | _ => None
  end.

Definition udp_target (a : UdpAction) : option Address :=
  match a with
  | UAssociate _ ProxyMgr i d _ => Some (named d (info_dst i))
  | UDnsOverTcp i => Some (SocketAddress (info_dst i))
  | UGateway _ dst => Some dst
  | _ => None
  end.

(** The session, or the one for the configured resolver when it is a DNS session
    to a private address. *)
Definition redirected (i i' : SessionInfo) : Prop :=
  info_dst i' = info_dst i \/
  sa_port (info_dst i) = DNS_PORT /\ is_private_ip env (sa_ip (info_dst i)) = true /\ info_dst i' = info_dst (to_resolver i).

(** Names for fake addresses: a name stands for the address of the session that
    it is mapped to; an address is no fake one, or it is the destination of a DNS
    session that is carried over TCP, where no name is looked up. *)
Definition no_fake (i : SessionInfo) (v : VirtualDns) (t : Address) : Prop :=
  exists i', redirected i i' /\
  match t with
  | DomainAddress n p => name_to_ip v !! n = Some (sa_ip (info_dst i')) /\ p = sa_port (info_dst i')
  | SocketAddress s => s = info_dst i' /\
      (contains_address (sa_ip s) v = false \/ dns cfg = DOverTcp /\ sa_port (info_dst i) = DNS_PORT)
  end.

Context {LL : LruCacheLaws}.

(** A mapped address gives its name, an unmapped one of the pool is refused, any
    other has none; the mappings stay. *)
Lemma resolve_virtual_domain_spec ip v r vd' :
  vd_wf v -> resolve_virtual_domain ip (Some v) = (r, vd') ->
  (exists v', vd' = Some v' /\ vd_wf v' /\ name_to_ip v' = name_to_ip v /\
     forall a, contains_address a v' = contains_address a v) /\
  match r with
  | Ok (Some n) => name_to_ip v !! n = Some ip /\ contains_address ip v = true
  | Ok None => contains_address ip v = false
  | Err _ => True
  | Panic => False
  end.
Proof.
  intros Hwf. unfold resolve_virtual_domain, resolve_ip.
  pose proof (touch_wf ip _ (touch_wf ip v Hwf)) as Hwf2. unfold touch_ip in *.
  change (lru_cache (set_lru (lru_get ip (lru_cache v)).2 v)) with (lru_get ip (lru_cache v)).2 in *. cbn [lru_cache set_lru] in *.
  pose proof (get_value ip (lru_get ip (lru_cache v)).2) as Hv.
  destruct (lru_get ip (lru_get ip (lru_cache v)).2) as [d c]. cbn [fst snd] in *.
  assert (Hx : exists v', Some (set_lru c (set_lru (lru_get ip (lru_cache v)).2 v)) = Some v' /\ vd_wf v' /\
    name_to_ip v' = name_to_ip v /\ forall a, contains_address a v' = contains_address a v).
  { eexists. split_and!; [reflexivity|exact Hwf2|done|done]. }
  destruct d as [n|].
  - intros [= <- <-]. split; [done|]. symmetry in Hv. apply peek_spec, get_entries in Hv.
    destruct Hwf as (_ & _ & _ & Hin & Hag). split; [by apply Hag|by apply (Hin (ip, n))].
  - destruct (contains_address _ _) eqn:E; intros [= <- <-]; split; done.
Qed.

Lemma tcp_relay_named bypass i i' v t :
  redirected i i' -> vd_wf v -> (desktop cfg = false -> bypass = false) ->
  tcp_target (tcp_relay bypass i' (Some v)).1 = Some t -> no_fake i v t.
Proof.
  intros Hi Hwf Hb. unfold tcp_relay.
  assert (G : forall d vd', resolve_virtual_domain (sa_ip (info_dst i')) (Some v) = (Ok d, vd') -> no_fake i v (named d (info_dst i'))).
  { intros d vd' E. destruct (resolve_virtual_domain_spec _ _ _ _ Hwf E) as [_ Hr]. exists i'. split; [done|].
    destruct d as [n|]; cbn; [split; [apply Hr|done]|auto]. }
  destruct (desktop cfg).
  - destruct bypass.
    + destruct (restore_bypass_destination i' (Some v)) as [restored vd1]. destruct (resolve_virtual_domain _ vd1) as [domain vd2].
      by destruct restored, domain.
    + destruct (resolve_virtual_domain _ (Some v)) as [domain vd2] eqn:E. destruct domain as [d| |]; [|done|done].
      cbn. intros [= <-]. by eapply G.
  - destruct (resolve_virtual_domain _ (Some v)) as [domain vd2] eqn:E. destruct domain as [d| |]; [|done|done].
    cbn. intros [= <-]. by eapply G.
Qed.

Lemma tcp_dispatch_named policy i v t :
  vd_wf v -> tcp_target (tcp_dispatch policy i (Some v)).1 = Some t -> no_fake i v t.
Proof.
  intros Hwf. unfold tcp_dispatch. cbv zeta. split_if E1; [done|].
  set (i' := if (_ && is_private_ip _ _) then to_resolver i else i).
  assert (Hi : redirected i i').
  { unfold i'. destruct (_ && is_private_ip _ _) eqn:E; [right|by left]. apply andb_true_iff in E as [E Hp].
    apply andb_true_iff in E as [_ Hd]. apply Z.eqb_eq in Hd. done. }
  split_if E2; [done|]. split_if E3.
  - intros [= <-]. exists i'. split; [done|]. split; [done|]. right. b2p. done.
  - split_if E4; [done|]. apply tcp_relay_named; [done|done|]. by intros ->.
Qed.

Lemma udp_ordinary_named i i' v t :
  redirected i i' -> vd_wf v -> udp_target (udp_ordinary i' (Some v)).1 = Some t -> no_fake i v t.
Proof.
  intros Hi Hwf. unfold udp_ordinary.
  destruct (resolve_virtual_domain _ (Some v)) as [domain vd2] eqn:E.
  destruct (resolve_virtual_domain_spec _ _ _ _ Hwf E) as [_ Hr].
  destruct domain as [d|e|]; [|destruct (udp_router cfg), (udp_strategy cfg); done..].
  assert (G : no_fake i v (named d (info_dst i'))).
  { exists i'. split; [done|]. destruct d as [n|]; cbn; [split; [apply Hr|done]|auto]. }
  assert (Hgw : udp_target (match udpgw_server cfg with
    | Some server => (UGateway server match d with
                         | Some name => DomainAddress name (sa_port (info_dst i'))
                         | None => SocketAddress (info_dst i') end, vd2)
    | None => (UAssociate (proxy_type cfg) ProxyMgr i' d None, vd2) end).1 = Some t -> no_fake i v t).
  { destruct (udpgw_server cfg); cbn; intros [= <-]; exact G. }
  assert (Hdir : forall b, udp_target (match restore_direct_udp_destination i' d b with
    | Ok i1 => (UAssociate PNone DirectMgr i1 None (direct_bind cfg), vd2)
    | Err e => (UFail (Io e), vd2) | Panic => (UPanic, vd2) end).1 = Some t -> no_fake i v t)
    by (intros b; by destruct (restore_direct_udp_destination i' d b)).
  destruct (udp_router cfg) as [f|], (udp_strategy cfg); cbn [option_map];
    try (destruct (f _ _ _) as [dd| |]); try case_bool_decide;
    try apply Hdir; try apply Hgw; done.
Qed.

Lemma udp_dispatch_named policy i v t :
  vd_wf v -> udp_target (udp_dispatch policy i (Some v)).1 = Some t -> no_fake i v t.
Proof.
  intros Hwf. unfold udp_dispatch. split_if E1; [by destruct (direct_bind cfg)|].
  split_if E2; [by destruct (restore_bypass_destination i (Some v)) as [[] ?]|].
  split_if E3; [|apply udp_ordinary_named; [by left|done]]. b2p.
  set (i' := if is_private_ip _ _ then to_resolver i else i).
  assert (Hi : redirected i i') by (unfold i'; destruct (is_private_ip env _) eqn:E; [by right|by left]).
  destruct (dns cfg) eqn:Ed; cbn; try done; [|by apply udp_ordinary_named].
  intros [= <-]. exists (with_protocol i' Tcp). split; [exact Hi|]. split; [done|]. by right.
Qed.

(** The destination that a bypassed session is restored to: its own if that is
    no fake address, or else what the physical resolver answers for the name
    that the fake address stands for. *)
Definition restored (i i1 : SessionInfo) (vd : option VirtualDns) : Prop :=
  match vd with
  | None => i1 = i
  | Some v =>
      contains_address (sa_ip (info_dst i)) v = false /\ i1 = i \/
      exists n b d, name_to_ip v !! n = Some (sa_ip (info_dst i)) /\ direct_bind cfg = Some b /\
        resolve_bound env n (sa_port (info_dst i)) (dns_addr cfg) (sa_is_ipv6 (info_dst i)) b = Ok d /\ i1 = with_dst i d
  end.

(** A TCP or UDP action that stays off the proxy: DNS goes to the physical
    resolver, and everything else from the physical interface to where it was
    restored to, or it is refused. *)
Definition tcp_direct (i : SessionInfo) (vd : option VirtualDns) (a : TcpAction) : Prop :=
  match a with
  | TPhysicalDns b => sa_port (info_dst i) = DNS_PORT /\ b = direct_bind cfg
  | TRelay DirectMgr i1 _ b _ => b = direct_bind cfg /\ restored i i1 vd
  | TAbort _ => True
  | _ => False
  end.

Definition udp_direct (i : SessionInfo) (vd : option VirtualDns) (a : UdpAction) : Prop :=
  match a with
  | UPhysicalDns b => sa_port (info_dst i) = DNS_PORT /\ direct_bind cfg = Some b
  | UAssociate t DirectMgr i1 d b => t = PNone /\ d = None /\ b = direct_bind cfg /\ restored i i1 vd
  | UFail _ => True
  | _ => False
  end.

(** The state of the resolver, if there is one. *)
Definition vd_ok (vd : option VirtualDns) : Prop := match vd with Some v => vd_wf v | None => True end.

Lemma restore_bypass_spec i vd i1 vd1 :
  vd_ok vd -> restore_bypass_destination i vd = (Ok i1, vd1) -> restored i i1 vd /\ vd_ok vd1.
Proof.
  intros Hwf. unfold restore_bypass_destination. run_M. destruct vd as [v|]; [|cbn; by intros [= <- <-]].
  destruct (resolve_virtual_domain _ (Some v)) as [r vd'] eqn:E.
  destruct (resolve_virtual_domain_spec _ _ _ _ Hwf E) as [(v' & -> & Hwf' & _) Hr].
  destruct r as [[n|]|e|]; [|intros [= <- <-]; split; [by left|done]|done|done].
  destruct (direct_bind cfg) as [b|] eqn:Eb; [|done]. cbn. destruct (resolve_bound _ _ _ _ _ _) as [d| |] eqn:Er; [|done|done].
  cbn. intros [= <- <-]. split; [|done]. right. exists n, b, d. split_and!; [apply Hr|done|done|done].
Qed.

(** Nor is it a fake address again, if the physical resolver gives none. *)
Lemma restored_real i i1 v :
  restored i i1 (Some v) ->
  (forall n p a f b d, resolve_bound env n p a f b = Ok d -> contains_address (sa_ip d) v = false) ->
  contains_address (sa_ip (info_dst i1)) v = false.
Proof. intros [[? ->]|(n & b & d & _ & _ & Hd & ->)] Hr; [done|by eapply Hr]. Qed.

(** The resolvers return. *)
Definition env_total : Prop :=
  (forall n p a b i, resolve_bound env n p a b i <> Panic) /\
  (forall n p a b i, resolve_over_proxy env n p a b i <> Panic).

Lemma resolve_virtual_domain_total ip vd : (resolve_virtual_domain ip vd).1 <> Panic.
Proof.
  destruct vd as [v|]; [|done]. unfold resolve_virtual_domain.
  destruct (resolve_ip ip _) as [[d|] v1]; [done|]. by destruct (contains_address ip v1).
Qed.

Lemma restore_bypass_total i vd : env_total -> (restore_bypass_destination i vd).1 <> Panic.
Proof.
  intros [Hb _]. unfold restore_bypass_destination. run_M.
  pose proof (resolve_virtual_domain_total (sa_ip (info_dst i)) vd) as Ht.
  destruct (resolve_virtual_domain _ vd) as [[[name|]|e|] vd1]; try done.
  destruct (direct_bind cfg) as [b|]; [|done]. cbn.
  pose proof (Hb name (sa_port (info_dst i)) (dns_addr cfg) (sa_is_ipv6 (info_dst i)) b) as Hn.
  by destruct (resolve_bound _ _ _ _ _ _).
Qed.

Lemma udp_ordinary_total i vd : env_total -> (udp_ordinary i vd).1 <> UPanic.
Proof.
  intros [_ Hp]. unfold udp_ordinary.
  pose proof (resolve_virtual_domain_total (sa_ip (info_dst i)) vd) as Ht.
  destruct (resolve_virtual_domain _ vd) as [[d|e|] vd1]; [| |done].
  2: by destruct (udp_router cfg), (udp_strategy cfg).
  assert (forall b, (match restore_direct_udp_destination i d b with
    | Ok i1 => (UAssociate PNone DirectMgr i1 None (direct_bind cfg), vd1)
    | Err e => (UFail (Io e), vd1) | Panic => (UPanic, vd1) end).1 <> UPanic) as Hdir.
  { intros b. unfold restore_direct_udp_destination. destruct d as [name|]; [|done].
    pose proof (Hp name (sa_port (info_dst i)) (dns_addr cfg) (sa_is_ipv6 (info_dst i)) b) as Hn.
    by destruct (resolve_over_proxy _ _ _ _ _ _). }
  destruct (udp_router cfg) as [f|], (udp_strategy cfg); try done; cbn [option_map];
    try (destruct (f _ _ _) as [dd| |]; try done); case_bool_decide;
    try apply Hdir; by destruct (udpgw_server cfg).
Qed.

Lemma udp_dispatch_total policy i vd :
  env_total -> startup cfg = Ok tt -> (udp_dispatch policy i vd).1 <> UPanic.
Proof.
  intros He Hs. unfold startup in Hs. unfold udp_dispatch.
  pose proof (restore_bypass_total i vd He) as Hr.
  split_if E1; [by destruct (direct_bind cfg)|].
  split_if E2; [by destruct (restore_bypass_destination i vd) as [[] ?]|].
  split_if E3; [|by apply udp_ordinary_total].
  destruct (dns cfg) eqn:Ed; try done; [by destruct vd|by apply udp_ordinary_total|].
  rewrite bool_decide_eq_true_2 in Hs by done. destruct (desktop cfg); [|done]. cbn in E1. by rewrite bool_decide_eq_true_2 in E1.
Qed.

Lemma resolve_virtual_domain_returns ip vd r vd' : resolve_virtual_domain ip vd = (r, vd') -> r <> Panic.
Proof. intros E. pose proof (resolve_virtual_domain_total ip vd) as Ht. by rewrite E in Ht. Qed.

Lemma tcp_bypass_direct i vd :
  desktop cfg = true -> env_total -> vd_ok vd -> tcp_direct i vd (tcp_dispatch true i vd).1.
Proof.
  intros Hd He Hwf. unfold tcp_dispatch. rewrite Hd. cbn [andb negb]. rewrite orb_true_r, andb_true_r.
  split_if E; [b2p; done|]. unfold tcp_relay. rewrite Hd.
  pose proof (restore_bypass_total i vd He) as Ht. pose proof (restore_bypass_spec i vd) as Hs.
  destruct (restore_bypass_destination i vd) as [r vd1]. cbn in Ht.
  destruct (resolve_virtual_domain _ vd1) as [domain vd2] eqn:E2. pose proof (resolve_virtual_domain_returns _ _ _ _ E2) as Hp.
  destruct r as [i1|e|]; [|by destruct domain|done]. destruct domain as [d|e|]; [|done|done].
  cbn. split; [done|]. by apply (Hs i1 vd1 Hwf eq_refl).
Qed.

Lemma udp_bypass_direct i vd policy :
  desktop cfg = true -> env_total -> vd_ok vd -> policy = true \/ is_multicast (sa_ip (info_dst i)) = true ->
  udp_direct i vd (udp_dispatch policy i vd).1.
Proof.
  intros Hd He Hwf Hp. unfold udp_dispatch, is_local_multicast_destination. rewrite Hd. cbn [andb].
  assert (is_multicast (sa_ip (info_dst i)) || policy = true) as ->
    by (destruct Hp as [->| ->]; by rewrite ?orb_true_r).
  rewrite orb_true_r, andb_true_r. split_if E; [b2p; destruct (direct_bind cfg) eqn:Eb; cbn; by rewrite ?Eb|].
  pose proof (restore_bypass_total i vd He) as Ht. pose proof (restore_bypass_spec i vd) as Hs.
  destruct (restore_bypass_destination i vd) as [[i1|e|] vd1]; [|done|done].
  cbn. split_and!; [done|done|done|]. by apply (Hs i1 vd1 Hwf eq_refl).
Qed.



(** Once the startup check has passed, the assertion of the UDP dispatch never
    fires. *)
Theorem routing_udp_never_panics policy i vd :
  env_total -> startup cfg = Ok tt -> (udp_dispatch policy i vd).1 <> UPanic.
Proof. apply udp_dispatch_total. Qed.

(** Where a DNS datagram of an ordinary process goes, by mode, and that a
    blocked flow is refused without a lookup. *)
Theorem routing_udp_policy i vd :
  is_multicast (sa_ip (info_dst i)) = false ->
  (sa_port (info_dst i) = DNS_PORT ->
   match dns cfg with
   | DOverTcp => exists i', (udp_dispatch false i vd).1 = UDnsOverTcp i' /\ info_protocol i' = Tcp /\
       sa_port (info_dst i') = DNS_PORT /\
       sa_ip (info_dst i') = (if is_private_ip env (sa_ip (info_dst i)) then dns_addr cfg
                              else sa_ip (info_dst i))
   | DVirtual => forall v, vd = Some v -> udp_dispatch false i vd = (UVirtualDns, vd)
   | DPhysical => desktop cfg = true -> forall b, direct_bind cfg = Some b ->
       (udp_dispatch false i vd).1 = UPhysicalDns b
   | DDirect => True
   end) /\
  (sa_port (info_dst i) <> DNS_PORT -> udp_router cfg = None -> udp_strategy cfg = SBlock ->
   udp_dispatch false i vd = (UReject, vd)).
Proof.
  intros Hm. unfold udp_dispatch, is_local_multicast_destination. rewrite Hm. cbn [orb].
  rewrite andb_false_r. split.
  - intros Hp. rewrite Hp. rewrite Z.eqb_refl, andb_true_r, orb_false_r.
    destruct (dns cfg) eqn:Ed.
    + rewrite bool_decide_eq_false_2, andb_false_r by done. by intros v ->.
    + rewrite bool_decide_eq_false_2, andb_false_r by done. eexists. split; [done|].
      split; [done|]. by destruct (is_private_ip env _).
    + done.
    + intros Hd b Hb. rewrite bool_decide_eq_true_2, Hd, Hb by done. done.
  - intros Hp Hr Hs. rewrite (proj2 (Z.eqb_neq _ _)) by done. rewrite andb_false_r. cbn [andb].
    unfold udp_ordinary. by rewrite Hr, Hs.
Qed.
End routing.

(** [run_with_system_managed_network]: the guard of the provider entry point. *)
Definition provider_allowed (setup : bool) (bypass_process : list string) (bind_interface : option string)
    (d : ArgDns) : bool :=
  negb (setup || negb (bool_decide (bypass_process = [])) || bool_decide (is_Some bind_interface) ||
        bool_decide (d = DPhysical)).

(** The choice of the handler manager for the upstream proxy. *)
Inductive Upstream := UpNone | UpSocks5 (a : SocketAddr) | UpSocks4 (a : SocketAddr) | UpHttp (a : SocketAddr).

Definition select_manager (t : ProxyType) (server_addr : option SocketAddr) : res Error Upstream :=
  match t, server_addr with
  | PNone, _ => Ok UpNone
  | PSocks5, Some a => Ok (UpSocks5 a)
  | PSocks4, Some a => Ok (UpSocks4 a)
  | PHttp, Some a => Ok (UpHttp a)
  | PMixed, _ => Err (EString "a mixed proxy type describes a listener, not an upstream proxy")
  | _, None => Err (EString "the proxy address resolved to nothing")
  end.

(** ** Examples *)

Section examples.
Import VirtualDnsQuery.

Let config : Config (Bind := string) :=
  mkConfig true DOverTcp (ipv4 8 8 8 8) false SBlock PSocks5 [] None None (Some "eth0").
Let environment : Environment (Bind := string) :=
  mkEnv (fun _ => true) (fun _ p _ _ _ => Ok (mkSA (ipv4 1 2 3 4) p))
    (fun _ p _ _ _ => Ok (mkSA (ipv4 1 2 3 4) p)) false.
Let v : VirtualDns (H := list_lru) := new (ipv4 198 18 0 0) (ipv4 198 18 0 255).
Let session (dst : IpAddr) (port : Z) : SessionInfo :=
  mkInfo (mkSA (ipv4 10 0 0 33) 5000) (mkSA dst port) Udp 0.

Let mapped : VirtualDns (H := list_lru) := one_name.


(** A fake address that is mapped goes to the proxy by its name. *)
Let proxied : Config (Bind := string) :=
  mkConfig true DVirtual (ipv4 8 8 8 8) false SProxy PSocks5 [] None None (Some "eth0").


(** DNS over TCP: a session to port 53 of a fake address is handed to the proxy
    with that address, mapped or not. *)
Example dns_session_keeps_fake_address :
  let open := mkEnv (fun _ => false) (resolve_bound environment) (resolve_over_proxy environment) false in
  udp_target (udp_dispatch config open false (session (ipv4 198 18 0 0) 53) (Some mapped)).1 =
    Some (SocketAddress (mkSA (ipv4 198 18 0 0) 53)) /\ contains_address (ipv4 198 18 0 0) mapped = true.
Proof. split; vm_compute; reflexivity. Qed.

Lemma routing_udp_never_panics_witness :
  (udp_dispatch config environment false (session (ipv4 1 1 1 1) 53) (Some v)).1 <> UPanic.
Proof.
  refine (routing_udp_never_panics config environment false (session (ipv4 1 1 1 1) 53) (Some v) _ eq_refl).
  by split.
Defined.

Lemma routing_udp_policy_witness :
  udp_dispatch config environment false (session (ipv4 1 1 1 1) 443) (Some v) = (UReject, Some v).
Proof.
  exact (proj2 (routing_udp_policy config environment (session (ipv4 1 1 1 1) 443) (Some v) eq_refl)
    ltac:(done) eq_refl eq_refl).
Defined.
End examples.
End Routing.
