(* ===== verification/UdpAssociate.v ===== *)
(** * UDP through a SOCKS5 association (src/src/lib.rs,
    [handle_udp_associate_session])

    The setup of the association and its relay loop.  The loop is driven by the
    sequence of its [select!] outcomes: a read of the application's stream or a
    datagram of the relay socket. *)

From S2P Require Import Prelude Net Socks5Impl Rfc1928 ProxyHandler NoProxy Dns DnsExample Routing.

Module UdpAssociate.
Import Dns Routing.

(** An outcome of the [select!].  [None] is the end of the application's
    stream. *)
Inductive Event :=
  | StackRead (r : res IoError (option (list Z)))
  | ServerRead (r : res IoError (list Z)).

(** The sockets as the loop uses them, with the results of their next sends,
    the traffic records and the two counters. *)
Record Relay := mkRelay {
  to_server : list (list Z);
  server_results : list (option IoError);
  to_stack : list (list Z);
  stack_results : list (option IoError);
  records : list (Z * Z);
  sent : Z;
  received : Z }.

Definition fresh_relay (server_results stack_results : list (option IoError)) : Relay :=
  mkRelay [] server_results [] stack_results [] 0 0.

Definition record_traffic (tx rx : Z) : M Relay Error unit :=
  modify (fun r => mkRelay (to_server r) (server_results r) (to_stack r) (stack_results r)
    (records r ++ [(tx, rx)]) (sent r) (received r)).

(** [udp_server.0.send] with the counter behind it. *)
Definition send_server (d : list Z) : M Relay Error unit := fun r =>
  let done l := mkRelay (to_server r ++ [d]) l (to_stack r) (stack_results r) (records r)
    (wrap64 (sent r + 1)) (received r) in
  match server_results r with
  | Some e :: l => (Err (Io e), mkRelay (to_server r) l (to_stack r) (stack_results r) (records r)
                                  (sent r) (received r))
  | None :: l => (Ok tt, done l)
  | [] => (Ok tt, done [])
  end.

(** [udp_stack.send] with the counter behind it. *)
Definition send_stack (d : list Z) : M Relay Error unit := fun r =>
  let done l := mkRelay (to_server r) (server_results r) (to_stack r ++ [d]) l (records r)
    (sent r) (wrap64 (received r + 1)) in
  match stack_results r with
  | Some e :: l => (Err (Io e), mkRelay (to_server r) (server_results r) (to_stack r) l (records r)
                                  (sent r) (received r))
  | None :: l => (Ok tt, done l)
  | [] => (Ok tt, done [])
  end.

Definition is_socks (t : ProxyType) : bool :=
  match t with PSocks4 | PSocks5 => true | _ => false end.

Section associate.
Context `{S5 : Socks5} `{DL : DnsLib}.
Variable proxy_type : ProxyType.
Variable ipv6_enabled : bool.
Variable session_info : SessionInfo.
Variable domain_name : option string.

Definition s5addr : Socks5Impl.Address :=
  match domain_name with
  | Some d => DomainAddress d (sa_port (info_dst session_info))
  | None => SocketAddress (info_dst session_info)
  end.

(** What is sent to the relay for a datagram of the application. *)
Definition encapsulate (d : list Z) : res Error (list Z) :=
  if is_socks proxy_type then header ← map_err Io (udp_header_write s5addr); Ok (header ++ d)
  else Ok d.

Definition stack_branch (r : res IoError (option (list Z))) : M Relay Error bool :=
  len_ ← lift (map_err Io r);
  match len_ with
  | None => mret false
  | Some d =>
      record_traffic (len d) 0;;
      out ← lift (encapsulate d);
      send_server out;;
      mret true
  end.

(** The payload of a relayed datagram as the application gets it: on the DNS
    port it is parsed, and filtered on an IPv4-only interface. *)
Definition payload (d : list Z) : res Error (list Z) :=
  if sa_port (info_dst session_info) =? DNS_PORT then
    message ← map_err EString (parse_data_to_dns_message d false);
    map_err DnsProto (to_vec (if ipv6_enabled then message else remove_ipv6_entries message))
  else Ok d.

(** What the application gets for a datagram of the relay; [None] when it is
    dropped.  The slice [&buf2[header.len()..]] panics out of range. *)
Definition decapsulate (d : list Z) : option (res Error (list Z)) :=
  if is_socks proxy_type then
    if (length d <? 4)%nat || negb (bool_decide (take 3 d = [0; 0; 0])) then None
    else match udp_header_read d with
         | Err _ => None
         | Panic => Some Panic
         | Ok n => Some (data ← drain n d; payload data)
         end
  else Some (Ok d).

Definition server_branch (r : res IoError (list Z)) : M Relay Error bool :=
  d ← lift (map_err Io r);
  record_traffic 0 (len d);;
  match decapsulate d with
  | None => mret true
  | Some buf => out ← lift buf; send_stack out;; mret true
  end.

Definition turn (ev : Event) : M Relay Error bool :=
  match ev with StackRead r => stack_branch r | ServerRead r => server_branch r end.

(** The loop over a sequence of outcomes. *)
Fixpoint relay (events : list Event) (r : Relay) : progress (res Error unit) * Relay :=
  match events with
  | [] => (Waiting, r)
  | ev :: events' =>
      match turn ev r with
      | (Ok true, r') => relay events' r'
      | (Ok false, r') => (Returned (Ok tt), r')
      | (Err e, r') => (Returned (Err e), r')
      | (Panic, r') => (Returned Panic, r')
      end
  end.
End associate.

(** ** Setup *)

Section setup.
Context `{S5 : Socks5} `{DL : DnsLib} `{PH : ProxyHandler P}.
(** [create_tcp_stream] and [create_udp_stream] for an address. *)
Variable dial : SocketAddr -> res Error Server.
Variable open_udp : SocketAddr -> res Error unit.

Definition timed_out : Error := EString "{} UDP association setup timed out after {:?}".

(** The setup block: the address of the relay, and the control connection that
    must stay open when the handshake was run here.  A setup that waits ends in
    the timeout. *)
Definition setup (h : P) : res Error SocketAddr * option Server * P :=
  match get_udp_associate h with
  | Some udp_addr => (_ ← open_udp udp_addr; Ok udp_addr, None, h)
  | None =>
      match dial (get_server_addr h) with
      | Err e => (Err e, None, h)
      | Panic => (Panic, None, h)
      | Ok server =>
          match handle_proxy_session h server with
          | (Waiting, h', s') => (Err timed_out, Some s', h')
          | (Returned r, h', s') =>
              (o ← r; udp_addr ← ok_or (EString "udp associate failed") o;
               _ ← open_udp udp_addr; Ok udp_addr, Some s', h')
          end
      end
  end.

(** [handle_udp_associate_session]. *)
Definition handle_udp_associate_session (proxy_type : ProxyType) (ipv6_enabled : bool) (h : P)
    (server_results stack_results : list (option IoError)) (events : list Event)
    : progress (res Error unit) * option Relay :=
  match setup h with
  | (Ok _, _, h') =>
      let '(p, r) := relay proxy_type ipv6_enabled (get_session_info h) (get_domain_name h) events
                       (fresh_relay server_results stack_results) in (p, Some r)
  | (Err e, _, _) => (Returned (Err e), None)
  | (Panic, _, _) => (Returned Panic, None)
  end.
End setup.

(** ** Properties *)

Section theorems.
Context `{SL : Socks5Laws} {SW : Socks5Wire} `{LL : DnsLibLaws}.
Variable proxy_type : ProxyType.
Variable ipv6_enabled : bool.
Variable session_info : SessionInfo.
Variable domain_name : option string.
Abbreviation encapsulate := (encapsulate proxy_type session_info domain_name).
Abbreviation decapsulate := (decapsulate proxy_type ipv6_enabled session_info).
Abbreviation relay := (relay proxy_type ipv6_enabled session_info domain_name).
Abbreviation turn := (turn proxy_type ipv6_enabled session_info domain_name).

(** *** What is to be relayed, by RFC 1928, section 7 *)

(** The destination of the session. *)
Definition destination : Socks5Impl.Address :=
  named domain_name (info_dst session_info).

(** The datagram for the relay: RSV, RSV, FRAG 0, the destination, the data. *)
Definition outgoing (d out : list Z) : Prop :=
  out = if is_socks proxy_type then [0; 0; 0] ++ address_wire destination ++ d else d.

(** A datagram of the relay that is not fragmented and has a readable address;
    [data] is what follows it. *)
Definition framed (d data : list Z) : Prop :=
  if is_socks proxy_type then
    exists a, d = [0; 0; 0] ++ address_wire a ++ data /\ address_read (address_wire a ++ data) = Ok (a, data)
  else data = d.

(** What the application gets for the data: a DNS message is written anew, on an
    IPv4-only interface without its IPv6 records. *)
Definition delivered (data out : list Z) : Prop :=
  if is_socks proxy_type && (sa_port (info_dst session_info) =? DNS_PORT) then
    exists m, from_vec data = Ok m /\ to_vec (if ipv6_enabled then m else remove_ipv6_entries m) = Ok out
  else out = data.

(** The outcomes that keep the association, with what goes to the relay and to
    the application. *)
Inductive relayed : list Event -> list (list Z) -> list (list Z) -> Prop :=
  | rl_nil : relayed [] [] []
  | rl_out d out evs s k : outgoing d out -> relayed evs s k ->
      relayed (StackRead (Ok (Some d)) :: evs) (out :: s) k
  | rl_in d data out evs s k : framed d data -> delivered data out -> relayed evs s k ->
      relayed (ServerRead (Ok d) :: evs) s (out :: k)
  | rl_drop d evs s k : (forall data, ~ framed d data) -> relayed evs s k ->
      relayed (ServerRead (Ok d) :: evs) s k.

(** The outcomes that end it, with the result. *)
Inductive ends : Event -> res Error unit -> Prop :=
  | e_closed : ends (StackRead (Ok None)) (Ok tt)
  | e_stack e : ends (StackRead (Err e)) (Err (Io e))
  | e_send d e : ends (StackRead (Ok (Some d))) (Err (Io e))
  | e_server e : ends (ServerRead (Err e)) (Err (Io e))
  | e_deliver d data e : framed d data -> ends (ServerRead (Ok d)) (Err e).

(** Reads do not panic, and datagrams are bytes. *)
Definition event_safe (ev : Event) : Prop :=
  match ev with
  | StackRead r => r <> Panic
  | ServerRead r => r <> Panic /\ forall d, r = Ok d -> Forall is_u8 d
  end.

(** *** The two directions *)

Lemma encapsulate_spec d r :
  encapsulate d = r -> (exists out, r = Ok out /\ outgoing d out) \/ (exists e, r = Err (Io e)).
Proof.
  unfold encapsulate, outgoing. destruct (is_socks proxy_type); [|intros <-; left; by eexists].
  change (s5addr session_info domain_name) with destination.
  pose proof (udp_header_write_total destination) as Ht. pose proof (udp_header_write_wire destination) as Hw.
  destruct (udp_header_write destination) as [h|e|]; [| |done]; cbn; intros <-; [left|right; by eexists].
  eexists. split; [done|]. by rewrite (Hw _ eq_refl), <- app_assoc.
Qed.

Lemma payload_spec data r :
  is_socks proxy_type = true -> payload ipv6_enabled session_info data = r ->
  (exists out, r = Ok out /\ delivered data out) \/ (exists e, r = Err e).
Proof.
  intros Hs. unfold payload, delivered, parse_data_to_dns_message. rewrite Hs. cbn [andb].
  split_if E; [|intros <-; left; by eexists].
  pose proof (from_vec_total data). destruct (from_vec data) as [m|e|]; [|intros <-; right; by eexists|done]. cbn.
  pose proof (to_vec_total (if ipv6_enabled then m else remove_ipv6_entries m)).
  destruct (to_vec _) as [out|e|] eqn:Eo; [|intros <-; right; by eexists|done].
  intros <-. left. exists out. split; [done|]. by exists m.
Qed.

(** The header that the library reads is the one of a framed datagram. *)
Lemma header_framed d :
  is_socks proxy_type = true -> Forall is_u8 d ->
  if (length d <? 4)%nat || negb (bool_decide (take 3 d = [0; 0; 0])) then forall data, ~ framed d data
  else match udp_header_read d with
       | Err _ => forall data, ~ framed d data
       | Panic => False
       | Ok n => (n <= length d)%nat /\ framed d (drop n d)
       end.
Proof.
  intros Hs Hu. unfold framed. rewrite Hs. split_if E.
  { intros data (a & -> & _). apply orb_true_iff in E as [E|E]; [b2p|by rewrite bool_decide_eq_true_2 in E].
    assert (1 <= length (address_wire a))%nat by (destruct a; simpl; lia).
    cbn [app length] in E. rewrite length_app in E. lia. }
  apply orb_false_iff in E as [E E3]. rewrite negb_false_iff, bool_decide_eq_true in E3. b2p.
  pose proof (udp_header_read_total d). destruct (udp_header_read d) as [n|e|] eqn:En; [| |done].
  - pose proof (udp_header_fits _ _ En) as Hn. split; [done|].
    apply udp_header_read_wire in En as (_ & a & Ha); [|done]. exists a.
    apply address_read_wire in Ha as Hw; [|by apply Forall_drop].
    rewrite <- Hw. split; [|done]. by rewrite <- E3, take_drop.
  - intros data (a & Hd & Ha). set (n := (length d - length data)%nat).
    assert (Hlen : length d = (3 + length (address_wire a) + length data)%nat)
      by (rewrite Hd; cbn [app length]; rewrite length_app; lia).
    assert (Hr : udp_header_read d = Ok n); [|by rewrite Hr in En].
    apply udp_header_read_wire; [unfold n; lia|]. split; [lia|]. exists a. rewrite Hd at 1.
    rewrite (drop_app_length' [0; 0; 0]) by done. rewrite Ha. do 2 f_equal.
    rewrite Hd, app_assoc, drop_app_length'; [done|]. rewrite length_app. cbn [length]. unfold n. lia.
Qed.

Lemma decapsulate_spec d :
  Forall is_u8 d ->
  match decapsulate d with
  | None => forall data, ~ framed d data
  | Some (Ok out) => exists data, framed d data /\ delivered data out
  | Some (Err _) => exists data, framed d data
  | Some Panic => False
  end.
Proof.
  intros Hu. unfold decapsulate. destruct (is_socks proxy_type) eqn:Hs.
  2:{ exists d. unfold framed, delivered. by rewrite Hs. }
  pose proof (header_framed d Hs Hu) as Hh. split_if E; [done|].
  destruct (udp_header_read d) as [n|e|]; [|done|done]. destruct Hh as [Hn Hf].
  rewrite drain_ok by done. cbn [mbind res_bind].
  destruct (payload_spec (drop n d) _ Hs eq_refl) as [(out & -> & Hp)|[e ->]]; by exists (drop n d).
Qed.

(** *** One outcome *)

Lemma stack_turn_spec x r res r' :
  event_safe (StackRead x) -> turn (StackRead x) r = (res, r') ->
  to_stack r' = to_stack r /\
  match res with
  | Ok true => exists d out, x = Ok (Some d) /\ outgoing d out /\ to_server r' = to_server r ++ [out]
  | Ok false => ends (StackRead x) (Ok tt) /\ to_server r' = to_server r
  | Err e => ends (StackRead x) (Err e) /\ to_server r' = to_server r
  | Panic => False
  end.
Proof.
  intros Hs. unfold turn, stack_branch. run_M.
  destruct x as [[d|]|e|]; cbn [map_err]; [|intros [= <- <-]; split_and!; by constructor..|done].
  unfold record_traffic, modify. destruct (encapsulate_spec d _ eq_refl) as [(out & -> & Ho)|[e ->]].
  - unfold send_server. cbn [server_results to_server to_stack stack_results].
    destruct (server_results r) as [|[e|] l]; intros [= <- <-]; cbn [to_stack to_server];
      (split; [done|]); first [by exists d, out | split; [constructor|done]].
  - intros [= <- <-]. cbn [to_stack to_server]. split_and!; by constructor.
Qed.

Lemma server_turn_spec x r res r' :
  event_safe (ServerRead x) -> turn (ServerRead x) r = (res, r') ->
  to_server r' = to_server r /\
  match res with
  | Ok true => exists d, x = Ok d /\
      ((forall data, ~ framed d data) /\ to_stack r' = to_stack r \/
       exists data out, framed d data /\ delivered data out /\ to_stack r' = to_stack r ++ [out])
  | Err e => ends (ServerRead x) (Err e) /\ to_stack r' = to_stack r
  | _ => False
  end.
Proof.
  intros [Hp Hu]. unfold turn, server_branch. run_M.
  destruct x as [d|e|]; cbn [map_err]; [|intros [= <- <-]; split_and!; by constructor|done].
  unfold record_traffic, modify. pose proof (decapsulate_spec d (Hu d eq_refl)) as Hd.
  destruct (decapsulate d) as [[out|e|]|]; [| |done|].
  - destruct Hd as (data & Hf & Ho). unfold send_stack. cbn [server_results to_server to_stack stack_results].
    destruct (stack_results r) as [|[e|] l]; intros [= <- <-]; cbn [to_stack to_server]; (split; [done|]);
      first [split; [by econstructor|done] | exists d; split; [done|right; by exists data, out]].
  - destruct Hd as [data Hf]. intros [= <- <-]. cbn [to_stack to_server]. split_and!; [done|by econstructor|done].
  - intros [= <- <-]. split; [done|]. exists d. split; [done|by left].
Qed.

(** Appending what one outcome sends. *)
Definition sends (r r' : Relay) (s k : list (list Z)) : Prop :=
  to_server r' = to_server r ++ s /\ to_stack r' = to_stack r ++ k.

Lemma associate_turn ev r res r' :
  event_safe ev -> turn ev r = (res, r') ->
  match res with
  | Ok true => exists s k, sends r r' s k /\
      forall evs s' k', relayed evs s' k' -> relayed (ev :: evs) (s ++ s') (k ++ k')
  | Ok false => ends ev (Ok tt) /\ sends r r' [] []
  | Err e => ends ev (Err e) /\ sends r r' [] []
  | Panic => False
  end.
Proof.
  unfold sends. intros Hs Ht. destruct ev as [x|x].
  - destruct (stack_turn_spec x r res r' Hs Ht) as [-> Hr]. destruct res as [[]|e|]; [| | |done].
    + destruct Hr as (d & out & -> & Ho & ->). exists [out], []. rewrite app_nil_r. split; [done|]. intros. by constructor.
    + destruct Hr as [? ->]. by rewrite !app_nil_r.
    + destruct Hr as [? ->]. by rewrite !app_nil_r.
  - destruct (server_turn_spec x r res r' Hs Ht) as [-> Hr]. destruct res as [[]|e|]; [|done| |done].
    + destruct Hr as (d & -> & [[Hn ->]|(data & out & Hf & Ho & ->)]).
      * exists [], []. rewrite !app_nil_r. split; [done|]. intros. by apply rl_drop.
      * exists [], [out]. rewrite app_nil_r. split; [done|]. intros. by eapply rl_in.
    + destruct Hr as [? ->]. by rewrite !app_nil_r.
Qed.

Lemma relay_spec events r p r' :
  Forall event_safe events -> relay events r = (p, r') ->
  exists done rest s k, events = done ++ rest /\ relayed done s k /\ sends r r' s k /\
    match p with
    | Waiting => rest = []
    | Returned x => exists ev rest', rest = ev :: rest' /\ ends ev x
    end.
Proof.
  intros Hall. revert r. induction Hall as [|ev events He Hall IH]; intros r.
  { intros [= <- <-]. exists [], [], [], []. unfold sends. rewrite !app_nil_r. split_and!; by constructor. }
  cbn [UdpAssociate.relay]. destruct (turn ev r) as [res r1] eqn:Et. apply associate_turn in Et; [|done].
  assert (Hstop : forall x, ends ev x /\ sends r r1 [] [] -> (Returned x, r1) = (p, r') ->
    exists done rest s k, ev :: events = done ++ rest /\ relayed done s k /\ sends r r' s k /\
      match p with Waiting => rest = [] | Returned x => exists ev rest', rest = ev :: rest' /\ ends ev x end).
  { intros x [Hx Hr] [= <- <-]. exists [], (ev :: events), [], []. split_and!; [done|constructor|done|]. by exists ev, events. }
  destruct res as [[]|e|]; [|by apply Hstop|by apply Hstop|done].
  destruct Et as (s & k & [Hs Hk] & Hc). intros Hr. apply IH in Hr as (dn & rest & s' & k' & -> & Hrel & [Hs' Hk'] & Hp).
  exists (ev :: dn), rest, (s ++ s'), (k ++ k'). unfold sends. rewrite Hs', Hk', Hs, Hk, !app_assoc.
  split_and!; [done|by apply Hc|done|done|done].
Qed.

(** C34. An association relays exactly, under every interleaving of its two
    directions.  A datagram of the application goes to the SOCKS relay once and
    in order, behind the header of RFC 1928, section 7: two reserved bytes, FRAG
    0 and the wire form of the session's destination, its name if it has one.
    A datagram of the relay whose first three bytes are zero and are followed by
    a readable address reaches the application once and in order without that
    header (a DNS message written anew, without IPv6 records on an IPv4-only
    interface); any other one, so every fragment, is dropped and the association
    goes on.  It ends only when the application closes, on a failed read, when
    the destination has no wire form or a send fails, or when a framed DNS
    answer cannot be decoded or delivered; and nothing panics. *)
Theorem udp_associate_relays events sr kr p r' :
  Forall event_safe events -> relay events (fresh_relay sr kr) = (p, r') ->
  exists done rest, events = done ++ rest /\ relayed done (to_server r') (to_stack r') /\
    match p with
    | Waiting => rest = []
    | Returned x => exists ev rest', rest = ev :: rest' /\ ends ev x
    end.
Proof.
  intros Hs Hr. destruct (relay_spec _ _ _ _ Hs Hr) as (dn & rest & s & k & ? & Hrel & [-> ->] & ?). by exists dn, rest.
Qed.

(** A relay that returns a datagram as it was sent: the application gets its
    payload back. *)
Theorem udp_associate_roundtrip d out :
  is_socks proxy_type = true -> sa_port (info_dst session_info) <> DNS_PORT ->
  encapsulate d = Ok out -> decapsulate out = Some (Ok d).
Proof.
  intros Hsocks Hport. unfold encapsulate, decapsulate. rewrite Hsocks.
  destruct (udp_header_write _) as [h|e|] eqn:Eh; try done. intros [= <-].
  destruct (udp_header_shape _ _ Eh) as [Hl Ht].
  rewrite (proj2 (Nat.ltb_ge _ _)) by (rewrite length_app; lia).
  rewrite take_app_le, Ht by lia. cbn [orb negb bool_decide]. 
  rewrite (udp_header_round_trip _ _ _ Eh). cbn. rewrite drain_app. cbn.
  unfold payload. by rewrite (proj2 (Z.eqb_neq _ _) Hport).
Qed.
End theorems.

(** ** Concrete associations *)

Section examples.
Import Rfc1928 DnsExample.

Let info := mkInfo (mkSA (ipv4 10 0 0 2) 40000) (mkSA (ipv4 1 1 1 1) 9000) Udp 0.
Let wrapped (d : list Z) := [0; 0; 0; 1; 1; 1; 1; 1; 35; 40] ++ d.

(** A datagram, a fragment that is dropped, an answer, and the end. *)
Lemma udp_associate_relays_witness :
  exists done rest,
    [StackRead (Ok (Some [1; 2])); ServerRead (Ok [0; 0; 1; 1; 1; 1; 1; 1; 35; 40; 9]);
     ServerRead (Ok (wrapped [3])); StackRead (Ok None)] = done ++ rest /\
    relayed PSocks5 true info None done [wrapped [1; 2]] [[3]] /\
    exists ev rest', rest = ev :: rest' /\ ends PSocks5 ev (Ok tt).
Proof.
  apply (udp_associate_relays PSocks5 true info None
    [StackRead (Ok (Some [1; 2])); ServerRead (Ok [0; 0; 1; 1; 1; 1; 1; 1; 35; 40; 9]);
     ServerRead (Ok (wrapped [3])); StackRead (Ok None)] [] []
    (Returned (Ok tt)) (mkRelay [wrapped [1; 2]] [] [[3]] [] [(2, 0); (0, 11); (0, 11)] 1 1)).
  - repeat constructor; first [discriminate | intros d [= <-]; by apply is_u8b_spec].
  - reflexivity.
Defined.

Lemma udp_associate_roundtrip_witness :
  decapsulate PSocks5 true info (wrapped [7; 8]) = Some (Ok [7; 8]).
Proof.
  apply (udp_associate_roundtrip PSocks5 true info None [7; 8]); [reflexivity|discriminate|reflexivity].
Defined.
End examples.
End UdpAssociate.
