(* ===== verification/Process.v ===== *)
(** * Process rules (src/src/process_bypass.rs, src/src/process_profile.rs)

    A process name is the list of its code points.  [ProcessBypass] is the
    sorted list of names in effect with the revision counter of its watch
    channel.  The lock makes every access to the names one step; replacing them
    takes two, the write under the lock and then the announcement on the
    channel. *)

From Stdlib Require Import Sorting.Sorted.
From S2P Require Import Prelude.

Module Process.

Abbreviation Name := (list Z).

(** ** Text *)

(** [char::is_whitespace] (Unicode White_Space). *)
Definition is_whitespace (c : Z) : bool :=
  ((9 <=? c) && (c <=? 13)) || (c =? 32) || (c =? 0x85) || (c =? 0xA0) || (c =? 0x1680) ||
  ((0x2000 <=? c) && (c <=? 0x200A)) || (c =? 0x2028) || (c =? 0x2029) || (c =? 0x202F) ||
  (c =? 0x205F) || (c =? 0x3000).

Fixpoint trim_start (s : Name) : Name :=
  match s with c :: s' => if is_whitespace c then trim_start s' else s | [] => [] end.

(** [str::trim]. *)
Definition trim (s : Name) : Name := rev (trim_start (rev (trim_start s))).

Definition to_ascii_lowercase (s : Name) : Name := lower8 <$> s.

(** [str::strip_suffix]. *)
Definition strip_suffix (suffix s : Name) : option Name :=
  let n := (length s - length suffix)%nat in
  if bool_decide (drop n s = suffix) && (length suffix <=? length s)%nat then Some (take n s) else None.

Definition exe : Name := as_bytes ".exe".

Definition normalize_process_name (name : Name) : Name :=
  let lower := to_ascii_lowercase (trim name) in default lower (strip_suffix exe lower).

(** ** Sorted sets *)

(** The order of [str]: UTF-8 keeps the order of code points. *)
Fixpoint name_compare (a b : Name) : comparison :=
  match a, b with
  | [], [] => Eq
  | [], _ :: _ => Lt
  | _ :: _, [] => Gt
  | x :: a', y :: b' => match x ?= y with Eq => name_compare a' b' | c => c end
  end.

(** [BTreeSet::insert] on the sorted list of the elements. *)
Fixpoint set_insert (x : Name) (l : list Name) : list Name :=
  match l with
  | [] => [x]
  | y :: l' =>
      match name_compare x y with
      | Lt => x :: l
      | Eq => l
      | Gt => y :: set_insert x l'
      end
  end.

(** [collect::<BTreeSet<_>>().into_iter().collect()]. *)
Definition collect_sorted (names : list Name) : list Name := foldl (fun l x => set_insert x l) [] names.

(** ** The bypass list *)

Record ProcessBypass := mkBypass { names : list Name; changes : Z }.

Definition default_bypass : ProcessBypass := mkBypass [] 0.

Definition effective (new_names : list Name) : list Name :=
  collect_sorted (List.filter (fun n => negb (bool_decide (n = []))) (normalize_process_name <$> new_names)).

(** The first half of [set_names], under the lock: whether the names changed. *)
Definition write_names (new_names : list Name) (b : ProcessBypass) : bool * ProcessBypass :=
  let l := effective new_names in
  if bool_decide (names b = l) then (false, b) else (true, mkBypass l (changes b)).

(** The second half: [send_modify], when they did. *)
Definition announce (b : ProcessBypass) : ProcessBypass := mkBypass (names b) (wrap64 (changes b + 1)).

(** [set_names], when nothing else happens in between. *)
Definition set_names (new_names : list Name) (b : ProcessBypass) : ProcessBypass :=
  let '(changed, b1) := write_names new_names b in if changed then announce b1 else b1.

Definition new (new_names : list Name) : ProcessBypass := set_names new_names default_bypass.

Definition is_configured (b : ProcessBypass) : bool := negb (bool_decide (names b = [])).

(** ** Profiles *)

Inductive ProcessProfile := WeGame.

Definition rule (p : ProcessProfile) : Name := match p with WeGame => as_bytes "@group:wegame" end.

Definition wegame_names : list Name := as_bytes <$>
  ["wegame"; "wegame_env"; "wegame_launcher"; "wegamelauncher"; "tgp"; "tcls_core"; "leagueclient";
   "leagueclientux"; "leagueclientuxrender"; "league of legends"; "riotclientservices"; "sguard";
   "sguard64"; "sguardsvc"; "sguardsvc64"; "ace-service"; "ace-service64"].

Definition matches_names (p : ProcessProfile) (ns : list Name) : bool :=
  existsb (fun n => bool_decide (normalize_process_name n ∈ wegame_names)) ns.

Definition backslash : Z := 92.

(** [str::split]. *)
Fixpoint split_on (c : Z) (s : Name) : list Name :=
  match s with
  | [] => [[]]
  | x :: s' =>
      if x =? c then [] :: split_on c s'
      else match split_on c s' with p :: ps => (x :: p) :: ps | [] => [[x]] end
  end.

(** [rsplit_once] and [split] of its first half: the components before the
    last separator, if there is one. *)
Definition directories (c : Z) (s : Name) : option (list Name) :=
  match rev (split_on c s) with
  | _file :: p :: parts => Some (rev (p :: parts))
  | _ => None
  end.

Definition wegame_directories : list Name := as_bytes <$> ["wegame"; "wegameapps"; "anticheatexpert"].

Definition matches_path (p : ProcessProfile) (path : Name) : bool :=
  match directories backslash ((fun c => if c =? 47 then backslash else c) <$> path) with
  | Some parts => existsb (fun part => existsb (eq_ignore_ascii_case part) wegame_directories) parts
  | None => false
  end.

(** ** Properties *)

(** *** The order of names *)

Definition name_lt (a b : Name) : Prop := name_compare a b = Lt.

Lemma name_compare_eq a b : name_compare a b = Eq <-> a = b.
Proof.
  revert b. induction a as [|x a IH]; intros [|y b]; simpl; try done.
  destruct (Z.compare_spec x y) as [->|H|H].
  - rewrite IH. split; congruence.
  - split; [done|]. intros [= -> _]. lia.
  - split; [done|]. intros [= -> _]. lia.
Qed.

Lemma name_compare_opp a b : name_compare b a = CompOpp (name_compare a b).
Proof.
  revert b. induction a as [|x a IH]; intros [|y b]; simpl; try done.
  rewrite Z.compare_antisym. destruct (x ?= y); simpl; auto.
Qed.

Lemma name_lt_irrefl a : ~ name_lt a a.
Proof. unfold name_lt. rewrite (proj2 (name_compare_eq a a)) by done. done. Qed.

Lemma name_lt_trans a b c : name_lt a b -> name_lt b c -> name_lt a c.
Proof.
  unfold name_lt. revert b c. induction a as [|x a IH]; intros [|y b] [|z c]; simpl; try done.
  destruct (Z.compare_spec x y) as [->|H|H]; destruct (Z.compare_spec y z) as [->|H'|H']; try done;
    try apply IH; intros _ _; by rewrite (proj2 (Z.compare_lt_iff x z)) by lia.
Qed.

Lemma name_gt_lt a b : name_compare a b = Gt -> name_lt b a.
Proof. intros H. unfold name_lt. by rewrite name_compare_opp, H. Qed.

(** *** Sorted sets *)

Lemma elem_of_set_insert x y l : x ∈ set_insert y l <-> x = y \/ x ∈ l.
Proof.
  induction l as [|z l IH]; simpl; [by rewrite list_elem_of_singleton, elem_of_nil; intuition|].
  destruct (name_compare y z) eqn:E.
  - apply name_compare_eq in E as ->. rewrite elem_of_cons. tauto.
  - by rewrite elem_of_cons.
  - rewrite !elem_of_cons, IH. tauto.
Qed.

Lemma set_insert_sorted x l : StronglySorted name_lt l -> StronglySorted name_lt (set_insert x l).
Proof.
  induction 1 as [|y l Hs IH Hy]; simpl; [repeat constructor|].
  destruct (name_compare x y) eqn:E.
  - by constructor.
  - constructor; [by constructor|]. constructor; [done|].
    eapply Forall_impl; [exact Hy|]. intros z. by apply name_lt_trans.
  - constructor; [done|]. apply Forall_forall. intros z [->|Hz]%elem_of_set_insert.
    + by apply name_gt_lt.
    + by apply (proj1 (Forall_forall _ _) Hy).
Qed.

Lemma collect_sorted_spec l :
  StronglySorted name_lt (collect_sorted l) /\ forall x, x ∈ collect_sorted l <-> x ∈ l.
Proof.
  unfold collect_sorted.
  assert (forall acc, StronglySorted name_lt acc ->
    StronglySorted name_lt (foldl (fun l x => set_insert x l) acc l) /\
    forall x, x ∈ foldl (fun l x => set_insert x l) acc l <-> x ∈ l \/ x ∈ acc) as H.
  { induction l as [|y l IH]; intros acc Hacc; simpl.
    - split; [done|]. intros x. rewrite elem_of_nil. tauto.
    - destruct (IH (set_insert y acc)) as [H1 H2]; [by apply set_insert_sorted|].
      split; [done|]. intros x. rewrite H2, elem_of_set_insert, elem_of_cons. tauto. }
  destruct (H [] ltac:(constructor)) as [H1 H2]. split; [done|]. intros x.
  rewrite H2, elem_of_nil. tauto.
Qed.

Lemma sorted_ext l1 l2 :
  StronglySorted name_lt l1 -> StronglySorted name_lt l2 -> (forall x, x ∈ l1 <-> x ∈ l2) -> l1 = l2.
Proof.
  intros H1. revert l2. induction H1 as [|x l1 Hs IH Hx]; intros [|y l2] H2 Heq; [done| | |].
  - specialize (Heq y). rewrite elem_of_nil, elem_of_cons in Heq. tauto.
  - specialize (Heq x). rewrite elem_of_nil, elem_of_cons in Heq. tauto.
  - inversion_clear H2 as [|? ? Hs2 Hy].
    rewrite Forall_forall in Hx, Hy.
    assert (x = y) as <-.
    { assert (x ∈ y :: l2) as [->|Hxin]%elem_of_cons by (apply Heq; by left); [done|].
      assert (y ∈ x :: l1) as [->|Hyin]%elem_of_cons by (apply Heq; by left); [done|].
      exfalso. apply (name_lt_irrefl x). eapply name_lt_trans; [by apply Hx|by apply Hy]. }
    f_equal. apply IH; [done|]. intros z. specialize (Heq z). rewrite !elem_of_cons in Heq.
    split; intros Hz.
    + destruct (proj1 Heq (or_intror Hz)) as [->|]; [|done]. by destruct (name_lt_irrefl x (Hx _ Hz)).
    + destruct (proj2 Heq (or_intror Hz)) as [->|]; [|done]. by destruct (name_lt_irrefl x (Hy _ Hz)).
Qed.

Lemma effective_spec raw n :
  n ∈ effective raw <-> n <> [] /\ exists r, r ∈ raw /\ normalize_process_name r = n.
Proof.
  unfold effective. rewrite (proj2 (collect_sorted_spec _)), list_elem_of_In, filter_In, <- list_elem_of_In.
  rewrite negb_true_iff, bool_decide_eq_false, list_elem_of_fmap. split.
  - intros [(r & -> & Hr) Hn]. split; [done|]. by exists r.
  - intros [Hn (r & Hr & <-)]. split; [|done]. by exists r.
Qed.

(** The list is always in canonical form. *)
Definition bypass_wf (b : ProcessBypass) : Prop :=
  StronglySorted name_lt (names b) /\ ([] ∉ names b) /\ 0 <= changes b <= u64_max.

Lemma write_names_wf raw b : bypass_wf b -> bypass_wf (write_names raw b).2.
Proof.
  intros Hb. unfold write_names. case_bool_decide; [done|].
  split_and!; cbn; [apply collect_sorted_spec|by intros [? _]%effective_spec|apply Hb..].
Qed.

Lemma announce_wf b : bypass_wf b -> bypass_wf (announce b).
Proof.
  intros (Hs & Hn & Hc). split_and!; [done|done|..]; cbn; unfold wrap64, u64_max;
    pose proof (Z.mod_pos_bound (changes b + 1) 18446744073709551616); lia.
Qed.

Lemma set_names_wf raw b : bypass_wf b -> bypass_wf (set_names raw b).
Proof.
  intros Hb. unfold set_names. pose proof (write_names_wf raw b Hb) as Hw.
  destruct (write_names raw b) as [[] b1]; [by apply announce_wf|done].
Qed.

Lemma names_set_names raw b : names (set_names raw b) = effective raw.
Proof. unfold set_names, write_names. by case_bool_decide. Qed.

(** Replacing the list: the names in effect are exactly the normalised,
    non-empty ones, sorted and without repetition, whatever the order and
    spelling of the input; and subscribers are woken exactly when that set
    changes. *)
Theorem process_names_replaced raw b :
  bypass_wf b ->
  bypass_wf (set_names raw b) /\
  (forall n, n ∈ names (set_names raw b) <->
     n <> [] /\ exists r, r ∈ raw /\ normalize_process_name r = n) /\
  (changes (set_names raw b) = changes b <->
     forall n, n ∈ names b <-> n <> [] /\ exists r, r ∈ raw /\ normalize_process_name r = n).
Proof.
  intros Hb. split_and!; [by apply set_names_wf|intros n; rewrite names_set_names; apply effective_spec|].
  destruct Hb as (Hs & _ & Hc). unfold set_names, write_names. case_bool_decide as Heq.
  - split; [|done]. intros _ n. rewrite Heq. apply effective_spec.
  - cbn. split.
    + unfold wrap64, u64_max in *. intros Hw.
      destruct (decide (changes b = 18446744073709551615)) as [Hmax|].
      * rewrite Hmax in Hw. done.
      * rewrite Z.mod_small in Hw by lia. lia.
    + intros Hsame. destruct Heq. apply sorted_ext; [done|apply collect_sorted_spec|].
      intros n. by rewrite effective_spec.
Qed.

Lemma process_names_replaced_witness :
  forall n, n ∈ names (set_names [as_bytes " Curl.EXE "; as_bytes "curl"; as_bytes "  "] default_bypass) <->
    n <> [] /\ exists r, r ∈ [as_bytes " Curl.EXE "; as_bytes "curl"; as_bytes "  "] /\
      normalize_process_name r = n.
Proof.
  refine (proj1 (proj2 (process_names_replaced
    [as_bytes " Curl.EXE "; as_bytes "curl"; as_bytes "  "] default_bypass _))).
  split_and!; [constructor|by apply not_elem_of_nil|done|done].
Defined.

(** Reserved selectors are not touched by the normalisation. *)
Lemma profile_rule_normal p : normalize_process_name (rule p) = rule p.
Proof. by destruct p. Qed.
End Process.
