(* ===== verification/ProcessMatch.v ===== *)
(** * Matching sessions to processes (src/src/process/)

    The socket table of the operating system, the owner of a UDP socket, the
    names of a process and its ancestors, the cache of the matcher and the
    policy pinned to a session.  What the operating system answers (the socket
    tables, the process table, the names of a process) is an argument, for the
    matcher a function of the time it is asked at; time is in nanoseconds. *)

From Stdlib Require Import Sorting.Sorted.
From S2P Require Import Prelude Net Process.

Module ProcessMatch.
Import Process.

(** ** Socket tables *)

Record SocketOwner := mkOwner { owner_pid : Z; bound_at : Z }.

#[export] Instance SocketOwner_eq_dec : EqDecision SocketOwner.
Proof. solve_decision. Defined.

Record SocketEntry := mkEntry {
  e_protocol : IpProtocol;
  e_local : SocketAddr;
  e_remote : option SocketAddr;
  e_pids : list Z;
  e_udp_owner : option SocketOwner }.

(** [windows_udp::entry]. *)
Definition udp_entry (local : SocketAddr) (pid at_ : Z) : SocketEntry :=
  mkEntry Udp local None [pid]
    (if negb (pid =? 0) && (0 <? at_) then Some (mkOwner pid at_) else None).

(** A row of [netstat2::get_sockets_info]. *)
Inductive SocketInfo :=
  | TcpSocket (local remote : SocketAddr) (pids : list Z)
  | UdpSocket (local : SocketAddr) (pids : list Z).

Definition entry_of (si : SocketInfo) : SocketEntry :=
  match si with
  | TcpSocket l r pids => mkEntry Tcp l (Some r) pids None
  | UdpSocket l pids => mkEntry Udp l None pids None
  end.

(** [snapshot]: on Windows the UDP rows with generations replace those of the
    general table, unless reading them fails. *)
Definition snapshot (windows : bool) (udp_entries : res IoError (list SocketEntry))
    (get_sockets_info : bool -> res string (list SocketInfo)) : res Error (list SocketEntry) :=
  let udp := if windows then match udp_entries with Ok e => Some e | _ => None end else None in
  let with_udp := match udp with Some _ => false | None => true end in
  sockets ← map_err EString (get_sockets_info with_udp);
  Ok ((entry_of <$> sockets) ++ default [] udp).

(** ** UDP owners *)

Definition owner_candidate (source : SocketAddr) (e : SocketEntry) : bool :=
  bool_decide (e_protocol e = Udp) && (sa_port (e_local e) =? sa_port source) &&
  (Bool.eqb (sa_is_ipv4 (e_local e)) (sa_is_ipv4 source) ||
   (sa_is_ipv4 source && is_unspecified (sa_ip (e_local e)))).

(** [udp_owner]: the only candidate, if it is of the source's family. *)
Definition udp_owner (entries : list SocketEntry) (source : SocketAddr) : option SocketOwner :=
  match List.filter (owner_candidate source) entries with
  | [e] => if Bool.eqb (sa_is_ipv4 (e_local e)) (sa_is_ipv4 source) then e_udp_owner e else None
  | _ => None
  end.

(** [UdpOwners]: the rows by local port. *)
Abbreviation UdpOwners := (gmap Z (list SocketEntry)).

Definition add_row (m : UdpOwners) (e : SocketEntry) : UdpOwners :=
  <[sa_port (e_local e) := default [] (m !! sa_port (e_local e)) ++ [e]]> m.

Definition owners_snapshot (entries : list SocketEntry) : UdpOwners := foldl add_row ∅ entries.

Definition owners_get (m : UdpOwners) (source : SocketAddr) : option SocketOwner :=
  rows ← m !! sa_port source; udp_owner rows source.

(** ** The names of a process *)

Record SnapshotProcess := mkProcess { p_name : Name; parent_pid : Z }.

(** The walk up the process table (Windows): names of live ancestors. *)
Fixpoint ancestors (fuel : nat) (processes : gmap Z SnapshotProcess) (seen : list Z) (current : Z)
    : option (list Name) :=
  match fuel with
  | O => None
  | S fuel' =>
      if (current =? 0) || bool_decide (current ∈ seen) then Some []
      else match processes !! current with
           | None => Some []
           | Some p =>
               rest ← ancestors fuel' processes (current :: seen) (parent_pid p);
               Some (if bool_decide (p_name p = []) then rest else p_name p :: rest)
           end
  end.

(** [process_names] on Windows.  [path] is the full path of the process when
    its handle can be opened, [file_name] its last component. *)
Definition process_names_windows (processes : gmap Z SnapshotProcess) (path : Z -> option Name)
    (file_name : Name -> option Name) (pid : Z) : list Name :=
  if pid =? 0 then []
  else
    let names := default [] (ancestors (S (size processes)) processes [] pid) in
    let names := if bool_decide (names = []) then
                   match path pid with
                   | Some p => match file_name p with Some n => [n] | None => names end
                   | None => names
                   end
                 else names in
    if matches_names WeGame names ||
       match path pid with Some p => matches_path WeGame p | None => false end
    then names ++ [rule WeGame] else names.

(** The same walk on macOS, where every process is asked for by itself: each at
    most once, so the answers are a table. *)
Record MacProcess := mkMac { mac_name : option Name; mac_parent : option Z }.

Fixpoint mac_ancestors (fuel : nat) (answers : gmap Z MacProcess) (seen : list Z) (current : Z)
    : option (list Name) :=
  match fuel with
  | O => None
  | S fuel' =>
      if bool_decide (current ∈ seen) then Some []
      else
        match answers !! current with
        | None => Some []
        | Some p =>
            match mac_parent p with
            | None => Some (option_list (mac_name p))
            | Some parent =>
                rest ← mac_ancestors fuel' answers (current :: seen) parent;
                Some (option_list (mac_name p) ++ rest)
            end
        end
  end.

Definition process_names_macos (answers : gmap Z MacProcess) (pid : Z) : list Name :=
  if pid =? 0 then [] else default [] (mac_ancestors (S (size answers)) answers [] pid).

(** ** Candidates *)

(** The three filters of [candidate_entries]. *)
Definition concrete (protocol : IpProtocol) (src dst : SocketAddr) (e : SocketEntry) : bool :=
  bool_decide (e_protocol e = protocol) && (sa_port (e_local e) =? sa_port src) &&
  bool_decide (sa_ip (e_local e) = sa_ip src) &&
  (bool_decide (protocol = Udp) || bool_decide (e_remote e = Some dst)).

Definition translated (protocol : IpProtocol) (src dst : SocketAddr) (e : SocketEntry) : bool :=
  bool_decide (e_protocol e = protocol) && (sa_port (e_local e) =? sa_port src) &&
  Bool.eqb (sa_is_ipv4 (e_local e)) (sa_is_ipv4 src) && bool_decide (e_remote e = Some dst).

Definition wildcard (protocol : IpProtocol) (src : SocketAddr) (e : SocketEntry) : bool :=
  bool_decide (e_protocol e = protocol) && (sa_port (e_local e) =? sa_port src) &&
  is_unspecified (sa_ip (e_local e)).

Definition same_family (protocol : IpProtocol) (src : SocketAddr) (e : SocketEntry) : bool :=
  bool_decide (e_protocol e = protocol) && (sa_port (e_local e) =? sa_port src) &&
  Bool.eqb (sa_is_ipv4 (e_local e)) (sa_is_ipv4 src).

Definition candidate_entries (entries : list SocketEntry) (protocol : IpProtocol) (src dst : SocketAddr)
    : list SocketEntry :=
  match List.filter (concrete protocol src dst) entries with
  | (_ :: _) as l => l
  | [] =>
      if bool_decide (protocol = Tcp) then List.filter (translated protocol src dst) entries
      else match List.filter (wildcard protocol src) entries with
           | (_ :: _) as l => l
           | [] => List.filter (same_family protocol src) entries
           end
  end.

Definition candidate_pids (entries : list SocketEntry) (protocol : IpProtocol) (src dst : SocketAddr)
    : list Z :=
  concat (e_pids <$> candidate_entries entries protocol src dst).

(** ** The matcher *)

Record Cache := mkCache {
  fetched_at : option Z;
  entries : list SocketEntry;
  pid_names : gmap Z (list Name) }.

Definition default_cache : Cache := mkCache None [] ∅.

Record SessionIdentity := mkIdentity { i_names : list Name; i_udp_owner : option SocketOwner }.

Definition snapshot_covers_request (fetched : option Z) (requested_at : Z) : bool :=
  match fetched with Some f => requested_at <=? f | None => false end.

Section matcher.
(** The process id of this program, the socket tables at a time, and the names
    the system gives a process at a time. *)
Variable self_pid : Z.
Variable tables : Z -> res Error (list SocketEntry).
Variable process_names : Z -> Z -> list Name.

(** [refresh]: [started] is read before the tables. *)
Definition refresh (started : Z) (c : Cache) : Cache :=
  match tables started with
  | Ok es => mkCache (Some started) es ∅
  | _ => mkCache (Some started) [] ∅
  end.

Definition resolve_names (now pid : Z) : list Name :=
  List.filter (fun n => negb (bool_decide (n = []))) (normalize_process_name <$> process_names now pid).

(** The loop over the candidates, with the memo table; [asked] is the time at
    which this lookup asks for a process, which is once at most. *)
Fixpoint collect_names (exclude_self : bool) (asked : Z -> Z) (pids : list Z) (memo : gmap Z (list Name))
    : list Name * gmap Z (list Name) :=
  match pids with
  | [] => ([], memo)
  | pid :: pids' =>
      if exclude_self && (pid =? self_pid) then collect_names exclude_self asked pids' memo
      else
        let ns := default (resolve_names (asked pid) pid) (memo !! pid) in
        let '(rest, memo') := collect_names exclude_self asked pids' (<[pid := ns]> memo) in
        (ns ++ rest, memo')
  end.

(** [identities_in_cache]; sorting and removing repetitions is
    [collect_sorted]. *)
Definition identities_in_cache (exclude_self : bool) (asked : Z -> Z) (c : Cache) (protocol : IpProtocol)
    (src dst : SocketAddr) : list Name * Cache :=
  match candidate_pids (entries c) protocol src dst with
  | [] => ([], c)
  | pids =>
      let '(ns, memo) := collect_names exclude_self asked pids (pid_names c) in
      (collect_sorted ns, mkCache (fetched_at c) (entries c) memo)
  end.

(** [identities_blocking], with the cache locked from [started] on; the tables
    are read then if the cache does not cover the request. *)
Definition identities_blocking (windows exclude_self : bool) (protocol : IpProtocol)
    (src dst : SocketAddr) (requested_at started : Z) (asked : Z -> Z) (c : Cache)
    : SessionIdentity * Cache :=
  let c1 := if snapshot_covers_request (fetched_at c) requested_at then c else refresh started c in
  let '(ns, c2) := identities_in_cache exclude_self asked c1 protocol src dst in
  (mkIdentity ns (if windows && bool_decide (protocol = Udp) then udp_owner (entries c2) src else None), c2).
End matcher.

(** ** Policies *)

Definition matches_policy (b : ProcessBypass) (identities : list Name) : bool :=
  existsb (fun n => bool_decide (n ∈ names b)) identities.

(** The policy pinned to a session; [p_seen] is the revision its receiver has
    seen. *)
Record SessionPolicy := mkPolicy {
  p_identities : list Name;
  p_seen : Z;
  p_bypass : bool;
  p_udp_owner : option SocketOwner }.

(** [match_session]: the receiver is created before the lookup ([subscribed]),
    the decision is made after it ([decided]). *)
Definition match_session (subscribed decided : ProcessBypass) (identity : SessionIdentity) : SessionPolicy :=
  mkPolicy (i_names identity) (changes subscribed) (matches_policy decided (i_names identity))
    (i_udp_owner identity).

Definition is_current (b : ProcessBypass) (p : SessionPolicy) : bool :=
  Bool.eqb (matches_policy b (p_identities p)) (p_bypass p).

Definition may_delegate_dns (p : SessionPolicy) : bool :=
  bool_decide (p_identities p = []) || bool_decide (as_bytes "svchost" ∈ p_identities p).

(** One poll of [wait_for_routing_change] when the list is [b]: nothing has
    changed, a change that does not concern the session, or the end of the
    wait. *)
Inductive Poll := Idle | Irrelevant (p : SessionPolicy) | Changed.

Definition poll_routing_change (b : ProcessBypass) (p : SessionPolicy) : Poll :=
  if changes b =? p_seen p then Idle
  else if negb (Bool.eqb (matches_policy b (p_identities p)) (p_bypass p)) then Changed
  else Irrelevant (mkPolicy (p_identities p) (changes b) (p_bypass p) (p_udp_owner p)).

(** [wait_for_routing_change] polled at the given states of the list. *)
Fixpoint wait_for_routing_change (states : list ProcessBypass) (p : SessionPolicy) : bool :=
  match states with
  | [] => false
  | b :: states' =>
      match poll_routing_change b p with
      | Changed => true
      | Idle => wait_for_routing_change states' p
      | Irrelevant p' => wait_for_routing_change states' p'
      end
  end.

(** [LocalProcessMatcher::match_tcp]: whether the connection is looked up. *)
Definition local_lookup (b : ProcessBypass) (peer listener : SocketAddr) : bool :=
  is_configured b && is_loopback (sa_ip peer) && is_loopback (sa_ip listener).

(** ** Properties *)

(** *** Owners *)

Lemma owners_rows es (m : UdpOwners) port :
  default [] (foldl add_row m es !! port) =
  default [] (m !! port) ++ List.filter (fun e => sa_port (e_local e) =? port) es.
Proof.
  revert m. induction es as [|e es IH]; intros m; simpl; [by rewrite app_nil_r|].
  rewrite IH. unfold add_row. destruct (Z.eqb_spec (sa_port (e_local e)) port) as [<-|Hne].
  - rewrite lookup_insert_eq. simpl. by rewrite <- app_assoc.
  - by rewrite lookup_insert_ne.
Qed.

Lemma filter_candidates es source :
  List.filter (owner_candidate source)
    (List.filter (fun e => sa_port (e_local e) =? sa_port source) es) =
  List.filter (owner_candidate source) es.
Proof.
  induction es as [|e es IH]; simpl; [done|].
  destruct (sa_port (e_local e) =? sa_port source) eqn:E; simpl; rewrite IH; [done|].
  unfold owner_candidate. by rewrite E, andb_false_r.
Qed.

(** The index by port gives the same owner as a scan of the whole table. *)
Theorem udp_owners_indexed es source :
  owners_get (owners_snapshot es) source = udp_owner es source.
Proof.
  unfold owners_get, owners_snapshot. pose proof (owners_rows es ∅ (sa_port source)) as Hr.
  rewrite lookup_empty in Hr. simpl in Hr.
  unfold udp_owner. rewrite <- (filter_candidates es source), <- Hr.
  by destruct (_ !! sa_port source).
Qed.

(** *** Candidates *)

Lemma filter_cons {A} (f : A -> bool) l x : x ∈ List.filter f l <-> x ∈ l /\ f x = true.
Proof. by rewrite !list_elem_of_In, filter_In. Qed.

(** Every candidate is a row of the table for the session's protocol and source
    port; for TCP it also has the session's remote endpoint and family, so that
    no unrelated connection lends its process; and when a row has the exact
    local address, only such rows are used. *)
Theorem process_candidates_sound es protocol src dst e :
  e ∈ candidate_entries es protocol src dst ->
  e ∈ es /\ e_protocol e = protocol /\ sa_port (e_local e) = sa_port src /\
  (protocol = Tcp -> e_remote e = Some dst /\ sa_is_ipv4 (e_local e) = sa_is_ipv4 src) /\
  ((exists e', e' ∈ es /\ concrete protocol src dst e' = true) -> sa_ip (e_local e) = sa_ip src).
Proof.
  unfold candidate_entries.
  destruct (List.filter (concrete protocol src dst) es) as [|c cs] eqn:Ec.
  - assert (~ exists e', e' ∈ es /\ concrete protocol src dst e' = true) as Hno.
    { intros (e' & Hin & Hc). apply (not_elem_of_nil e'). rewrite <- Ec. by apply filter_cons. }
    case_bool_decide as Ht.
    + intros [Hin Hf]%filter_cons. unfold translated in Hf. b2p.
      match goal with H : Bool.eqb _ _ = true |- _ => apply Bool.eqb_prop in H end.
      split_and!; try done; by intros ?%Hno.
    + destruct (List.filter (wildcard protocol src) es) as [|w ws] eqn:Ew.
      * intros [Hin Hf]%filter_cons. unfold same_family in Hf. b2p.
        split_and!; try done; by intros ?%Hno.
      * intros He. assert (e ∈ List.filter (wildcard protocol src) es) as [Hin Hf]%filter_cons by by rewrite Ew.
        unfold wildcard in Hf. b2p.
        split_and!; try done; by intros ?%Hno.
  - intros He. assert (e ∈ List.filter (concrete protocol src dst) es) as [Hin Hf]%filter_cons by by rewrite Ec.
    unfold concrete in Hf. b2p.
    split_and!; try done. intros ->.
    match goal with H : _ || _ = true |- _ => apply orb_true_iff in H as [H|H]; b2p; [done|] end.
    split; [done|]. unfold sa_is_ipv4.
    match goal with H : sa_ip (e_local e) = _ |- _ => by rewrite H end.
Qed.

(** *** Ancestors *)

(** A walk that never repeats a process ends. *)
Lemma nodup_keys {A} (m : gmap Z A) (l : list Z) :
  NoDup l -> (forall x, x ∈ l -> is_Some (m !! x)) -> (length l <= size m)%nat.
Proof.
  intros Hn Hin. rewrite <- size_dom, <- (size_list_to_set (C := gset Z) l) by done.
  apply subseteq_size. intros x Hx. apply elem_of_dom, Hin. by apply elem_of_list_to_set in Hx.
Qed.

(** The processes of a walk from [current]: each is in the table and is the
    parent of the one before, none was visited before, and the walk stops at
    the first process that is absent, has id zero or was visited. *)
Inductive walk (processes : gmap Z SnapshotProcess) (seen : list Z) : Z -> list SnapshotProcess -> Prop :=
  | walk_end current :
      current = 0 \/ current ∈ seen \/ processes !! current = None -> walk processes seen current []
  | walk_step current p ps :
      current <> 0 -> current ∉ seen -> processes !! current = Some p ->
      walk processes (current :: seen) (parent_pid p) ps -> walk processes seen current (p :: ps).

Definition named (ps : list SnapshotProcess) : list Name :=
  List.filter (fun n => negb (bool_decide (n = []))) (p_name <$> ps).

Lemma ancestors_walk fuel processes seen current :
  NoDup seen -> (forall x, x ∈ seen -> is_Some (processes !! x)) ->
  (size processes - length seen < fuel)%nat ->
  exists ps, walk processes seen current ps /\ ancestors fuel processes seen current = Some (named ps).
Proof.
  revert seen current. induction fuel as [|fuel IH]; intros seen current Hn Hin Hf; [lia|].
  cbn [ancestors]. split_if E.
  - exists []. split; [|done]. apply walk_end. apply orb_true_iff in E as [E|E]; b2p; tauto.
  - b2p. destruct (processes !! current) as [p|] eqn:Ep; [|exists []; split; [apply walk_end; tauto|done]].
    assert (NoDup (current :: seen)) as Hn' by by constructor.
    assert (forall x, x ∈ current :: seen -> is_Some (processes !! x)) as Hin'.
    { intros x [->|Hx]%elem_of_cons; [by eexists|auto]. }
    pose proof (nodup_keys _ _ Hn' Hin') as Hlen. simpl in Hlen.
    destruct (IH (current :: seen) (parent_pid p) Hn' Hin') as (ps & Hw & ->); [simpl; lia|].
    exists (p :: ps). split; [by apply walk_step|]. unfold named. simpl.
    by destruct (bool_decide (p_name p = [])).
Qed.

(** The names of a process on Windows are those of its live ancestors, nearest
    first, whatever cycles or gaps the process table has: the walk always ends,
    and the profile selector is added behind them. *)
Theorem process_names_walk processes path file_name pid :
  pid <> 0 ->
  exists ps extra, walk processes [] pid ps /\
    process_names_windows processes path file_name pid = named ps ++ extra /\
    (named ps <> [] -> extra = [] \/ extra = [rule WeGame]).
Proof.
  intros Hpid. destruct (ancestors_walk (S (size processes)) processes [] pid) as (ps & Hw & Ha);
    [constructor|by intros x ?%not_elem_of_nil|simpl; lia|].
  unfold process_names_windows. rewrite (proj2 (Z.eqb_neq _ _) Hpid), Ha. cbn [default].
  exists ps. change (id (named ps)) with (named ps). case_bool_decide as Hnil.
  - rewrite Hnil. eexists. split_and!; [done|symmetry; apply app_nil_l|done].
  - split_if E; [exists [rule WeGame]|exists []]; rewrite ?app_nil_r; auto.
Qed.

Lemma mac_ancestors_total fuel answers seen current :
  NoDup seen -> (forall x, x ∈ seen -> is_Some (answers !! x)) ->
  (size answers - length seen < fuel)%nat -> is_Some (mac_ancestors fuel answers seen current).
Proof.
  revert seen current. induction fuel as [|fuel IH]; intros seen current Hn Hin Hf; [lia|].
  cbn [mac_ancestors]. case_bool_decide as Hs; [by eexists|].
  destruct (answers !! current) as [p|] eqn:Ep; [|by eexists].
  destruct (mac_parent p) as [parent|]; [|by eexists].
  assert (NoDup (current :: seen)) as Hn' by by constructor.
  assert (forall x, x ∈ current :: seen -> is_Some (answers !! x)) as Hin'.
  { intros x [->|Hx]%elem_of_cons; [by eexists|auto]. }
  pose proof (nodup_keys _ _ Hn' Hin') as Hlen. simpl in Hlen.
  destruct (IH (current :: seen) parent Hn' Hin') as [ns ->]; [simpl; lia|]. by eexists.
Qed.

(** *** The cache *)

(** A lookup: the session, when it asked, when the cache was locked for it and
    when each process was asked for. *)
Record Lookup := mkLookup {
  l_protocol : IpProtocol; l_src : SocketAddr; l_dst : SocketAddr;
  l_requested : Z; l_started : Z; l_asked : Z -> Z }.

Section cache.
Variable self_pid : Z.
Variable tables : Z -> res Error (list SocketEntry).
Variable process_names : Z -> Z -> list Name.
Variables windows exclude_self : bool.

Definition lookup_session (l : Lookup) (c : Cache) : SessionIdentity * Cache :=
  identities_blocking self_pid tables process_names windows exclude_self (l_protocol l) (l_src l) (l_dst l)
    (l_requested l) (l_started l) (l_asked l) c.

(** The cache after these lookups. *)
Fixpoint cache_after (ls : list Lookup) (c : Cache) : Cache :=
  match ls with [] => c | l :: ls' => cache_after ls' (lookup_session l c).2 end.

(** One lookup at a time: each starts when it was asked for or later, no earlier
    than the one before, and asks for names after it has started. *)
Fixpoint serialized (from : Z) (ls : list Lookup) : Prop :=
  match ls with
  | [] => True
  | l :: ls' =>
      from <= l_started l /\ l_requested l <= l_started l /\ (forall pid, l_started l <= l_asked l pid) /\
      serialized (l_started l) ls'
  end.

(** The table is the one of its time, and every name in the memo was the
    system's answer at that time or later. *)
Definition cache_ok (now : Z) (c : Cache) : Prop :=
  match fetched_at c with
  | None => pid_names c = ∅
  | Some f => f <= now /\ entries c = match tables f with Ok es => es | _ => [] end /\
      forall pid ns, pid_names c !! pid = Some ns -> exists t, f <= t /\ ns = resolve_names process_names t pid
  end.

(** The names of the candidates that count. *)
Definition counted_pids (pids : list Z) : list Z :=
  List.filter (fun pid => negb (exclude_self && (pid =? self_pid))) pids.

Definition answered (f : Z) (memo : gmap Z (list Name)) : Prop :=
  forall pid ns, memo !! pid = Some ns -> exists t, f <= t /\ ns = resolve_names process_names t pid.

(** The loop uses one answer for each process: the one in its final memo. *)
Lemma collect_names_spec f asked pids memo :
  (forall pid, f <= asked pid) -> answered f memo ->
  let '(ns, memo') := collect_names self_pid process_names exclude_self asked pids memo in
  answered f memo' /\ memo ⊆ memo' /\ (forall pid, pid ∈ counted_pids pids -> is_Some (memo' !! pid)) /\
  ns = concat ((fun pid => default [] (memo' !! pid)) <$> counted_pids pids).
Proof.
  intros Ha. revert memo. induction pids as [|pid pids IH]; intros memo Hm; simpl.
  - split_and!; [done|done|by intros ? ?%not_elem_of_nil|done].
  - destruct (exclude_self && (pid =? self_pid)); simpl; [by apply IH|].
    set (ns0 := default _ (memo !! pid)).
    assert (Hn : answered f (<[pid := ns0]> memo)).
    { intros q ns'. destruct (decide (q = pid)) as [->|Hne]; [|rewrite lookup_insert_ne by done; apply Hm].
      rewrite lookup_insert_eq. intros [= <-]. unfold ns0. destruct (memo !! pid) as [ns|] eqn:E; [by apply Hm|].
      by exists (asked pid). }
    assert (Hsub : memo ⊆ <[pid := ns0]> memo).
    { apply map_subseteq_spec. intros q ns' Hq. destruct (decide (q = pid)) as [->|Hne]; [|by rewrite lookup_insert_ne].
      rewrite lookup_insert_eq. unfold ns0. by rewrite Hq. }
    specialize (IH (<[pid := ns0]> memo) Hn). destruct (collect_names _ _ _ _ _ _) as [ns memo']. destruct IH as (H1 & H2 & H3 & ->).
    assert (Hp : memo' !! pid = Some ns0) by (eapply lookup_weaken; [apply lookup_insert_eq|done]).
    split_and!; [done|by etrans| |by rewrite Hp].
    intros q [->|Hq]%elem_of_cons; [by eexists|by apply H3].
Qed.

(** The answers that a lookup uses: each candidate process with a time, not
    before [f], at which it was asked for. *)
Definition answers_of (f : Z) (pids : list Z) (asks : list (Z * Z)) : Prop :=
  asks.*1 = counted_pids pids /\ Forall (fun a => f <= a.2) asks.

Definition names_of (asks : list (Z * Z)) : list Name :=
  concat ((fun a => resolve_names process_names a.2 a.1) <$> asks).

Lemma memo_answers f memo pids :
  answered f memo -> (forall pid, pid ∈ pids -> is_Some (memo !! pid)) ->
  exists asks, asks.*1 = pids /\ Forall (fun a => f <= a.2) asks /\
    concat ((fun pid => default [] (memo !! pid)) <$> pids) = names_of asks.
Proof.
  intros Hm. induction pids as [|pid pids IH]; intros Hd; [by exists []|].
  destruct IH as (asks & <- & Hf & He); [intros q Hq; apply Hd; by right|].
  destruct (Hd pid) as [ns E]; [by left|]. destruct (Hm _ _ E) as (t & Ht & ->).
  exists ((pid, t) :: asks). split_and!; [done|by constructor|]. unfold names_of in *. cbn. rewrite E. cbn. by rewrite He.
Qed.

(** The lookup in a table: the names of the owners of the candidates. *)
Lemma identities_in_cache_spec f asked protocol src dst c1 :
  (forall pid, f <= asked pid) -> answered f (pid_names c1) ->
  let '(ns, c2) := identities_in_cache self_pid process_names exclude_self asked c1 protocol src dst in
    fetched_at c2 = fetched_at c1 /\ entries c2 = entries c1 /\ answered f (pid_names c2) /\
    exists asks, answers_of f (candidate_pids (entries c1) protocol src dst) asks /\ forall n, n ∈ ns <-> n ∈ names_of asks.
Proof.
  intros Ha Hm. unfold identities_in_cache. destruct (candidate_pids (entries c1) protocol src dst) as [|p ps] eqn:Ep.
  - split_and!; [done|done|done|]. exists []. by split.
  - pose proof (collect_names_spec f asked (p :: ps) (pid_names c1) Ha Hm) as Hc.
    destruct (collect_names _ _ _ _ _ _) as [ns memo]. destruct Hc as (Hmemo & _ & Hdom & ->).
    destruct (memo_answers f memo (counted_pids (p :: ps)) Hmemo Hdom) as (asks & H1 & H2 & H3).
    split_and!; [done|done|done|]. exists asks. split; [done|]. intros n. by rewrite (proj2 (collect_sorted_spec _)), H3.
Qed.

(** One lookup on a cache that is in order. *)
Lemma lookup_session_spec now l c :
  cache_ok now c -> now <= l_started l -> l_requested l <= l_started l -> (forall pid, l_started l <= l_asked l pid) ->
  cache_ok (l_started l) (lookup_session l c).2 /\
  exists f asks, fetched_at (lookup_session l c).2 = Some f /\ l_requested l <= f /\
    entries (lookup_session l c).2 = (match tables f with Ok es => es | _ => [] end) /\
    answers_of f (candidate_pids (entries (lookup_session l c).2) (l_protocol l) (l_src l) (l_dst l)) asks /\
    (forall n, n ∈ i_names (lookup_session l c).1 <-> n ∈ names_of asks) /\
    i_udp_owner (lookup_session l c).1 =
      (if windows && bool_decide (l_protocol l = Udp) then udp_owner (entries (lookup_session l c).2) (l_src l) else None).
Proof.
  intros Hc Hn Hr Ha. unfold lookup_session, identities_blocking.
  set (c1 := if snapshot_covers_request (fetched_at c) (l_requested l) then c else refresh tables (l_started l) c).
  assert (exists f, fetched_at c1 = Some f /\ l_requested l <= f /\ f <= l_started l /\
    entries c1 = (match tables f with Ok es => es | _ => [] end) /\ answered f (pid_names c1)) as (f & Hf & Hle & Hst & He & Hm).
  { subst c1. unfold cache_ok in Hc. destruct (snapshot_covers_request (fetched_at c) (l_requested l)) eqn:E.
    - unfold snapshot_covers_request in E. destruct (fetched_at c) as [f|] eqn:Ef; [|done]. b2p.
      destruct Hc as (? & ? & ?). exists f. split_and!; [done|done|lia|done|done].
    - exists (l_started l). unfold refresh. destruct (tables (l_started l)); (split_and!; [done|done|done|done|]); by intros pid ns. }
  clearbody c1. pose proof (identities_in_cache_spec f (l_asked l) (l_protocol l) (l_src l) (l_dst l) c1) as Hi.
  destruct (identities_in_cache _ _ _ _ _ _ _ _) as [ns c2].
  destruct Hi as (Hf2 & He2 & Hm2 & asks & H1 & H2); [intros pid; specialize (Ha pid); lia|done|].
  cbn [fst snd i_names i_udp_owner]. split.
  - unfold cache_ok. rewrite Hf2, Hf, He2. done.
  - exists f, asks. rewrite Hf2, He2. by split_and!.
Qed.

Lemma cache_after_ok ls now c :
  cache_ok now c -> serialized now ls -> exists now', cache_ok now' (cache_after ls c) /\ now <= now' /\
    forall l, serialized now (ls ++ [l]) -> now' <= l_started l.
Proof.
  revert now c. induction ls as [|l ls IH]; intros now c Hc Hs; cbn.
  - exists now. split_and!; [done|lia|]. by intros l (? & _).
  - destruct Hs as (H1 & H2 & H3 & H4). destruct (lookup_session_spec now l c Hc H1 H2 H3) as [Hc' _].
    destruct (IH _ _ Hc' H4) as (now' & Hn & Hle & Hl). exists now'. split_and!; [done|lia|].
    intros l' (_ & _ & _ & Hs'). by apply Hl.
Qed.

(** C26. A match never comes from an old table or an old name.  The socket tables and
    the names of processes change with time (a process id can be given to another
    program).  After any lookups, one at a time as the lock and the permit make
    them: the table a lookup uses was read at a time not before the session asked,
    and nothing is matched when it could not be read; the names found are exactly
    those of the processes that own a candidate socket of it, without this program
    itself when it is excluded; and each of these processes was asked for after
    that table was read, so no answer from before the request is ever used. *)
Theorem process_match_fresh ls l from :
  serialized from (ls ++ [l]) ->
  let '(identity, c') := lookup_session l (cache_after ls default_cache) in
  exists f asks, fetched_at c' = Some f /\ l_requested l <= f /\
    entries c' = (match tables f with Ok es => es | _ => [] end) /\
    ((forall es, tables f <> Ok es) -> i_names identity = [] /\ i_udp_owner identity = None) /\
    asks.*1 = counted_pids (candidate_pids (entries c') (l_protocol l) (l_src l) (l_dst l)) /\
    Forall (fun a => f <= a.2) asks /\
    (forall n, n ∈ i_names identity <-> n ∈ names_of asks) /\
    i_udp_owner identity = (if windows && bool_decide (l_protocol l = Udp) then udp_owner (entries c') (l_src l) else None).
Proof.
  intros Hs. assert (Hsplit : forall from ls, serialized from (ls ++ [l]) -> serialized from ls /\ l_requested l <= l_started l /\
    forall pid, l_started l <= l_asked l pid).
  { clear. intros from ls. revert from. induction ls as [|x ls IH]; intros from; cbn; [tauto|].
    intros (? & ? & ? & Hx). destruct (IH _ Hx) as (? & ? & ?). tauto. }
  destruct (Hsplit _ _ Hs) as (Hs1 & Hr & Ha).
  destruct (cache_after_ok ls from default_cache eq_refl Hs1) as (now & Hc & _ & Hn).
  destruct (lookup_session_spec now l _ Hc (Hn l Hs) Hr Ha) as (_ & f & asks & H1 & H2 & H3 & [H4 H5] & H6 & H7).
  destruct (lookup_session l (cache_after ls default_cache)) as [identity c']. cbn in *.
  exists f, asks. split_and!; try done. intros Hno. assert (He : entries c' = []) by (rewrite H3; destruct (tables f); naive_solver).
  rewrite H7, He in *. assert (Ec : candidate_pids [] (l_protocol l) (l_src l) (l_dst l) = []).
  { by destruct (l_protocol l). }
  rewrite Ec in H4. apply fmap_nil_inv in H4 as ->. split; [|by destruct (windows && _)].
  destruct (i_names identity) as [|n ns]; [done|]. exfalso. apply (not_elem_of_nil n). apply H6. by left.
Qed.
End cache.

(** *** Policies *)

(** What callers of [set_names] do to the list, in any interleaving: one writes
    the names, and if they changed announces that later. *)
Inductive ListEvent := Written (raw : list Name) | Announced.

(** The list and the number of changes that are written but not announced. *)
Record Shared := mkShared { s_list : ProcessBypass; s_pending : nat }.

Definition list_step (x : Shared) (e : ListEvent) : Shared :=
  match e with
  | Written raw =>
      let '(changed, b) := write_names raw (s_list x) in
      mkShared b (if changed then S (s_pending x) else s_pending x)
  | Announced => match s_pending x with O => x | S n => mkShared (announce (s_list x)) n end
  end.

Definition updates (es : list ListEvent) (x : Shared) : Shared := foldl list_step x es.

Lemma updates_app a b x : updates (a ++ b) x = updates b (updates a x).
Proof. unfold updates. by rewrite foldl_app. Qed.

Lemma updates_wf es x : bypass_wf (s_list x) -> bypass_wf (s_list (updates es x)).
Proof.
  revert x. induction es as [|e es IH]; intros x Hb; [done|]. apply (IH (list_step x e)). destruct e as [raw|]; cbn.
  - pose proof (write_names_wf raw (s_list x) Hb) as Hw. by destruct (write_names raw (s_list x)) as [c b].
  - destruct (s_pending x); [done|by apply announce_wf].
Qed.

(** Without an announcement the revision stays, and the number of changes that
    wait for theirs only grows; if it did not, the names stay too. *)
Lemma updates_revision es x :
  bypass_wf (s_list x) ->
  exists k, 0 <= k <= len es /\ changes (s_list (updates es x)) = wrap64 (changes (s_list x) + k) /\
    (k = 0 -> (s_pending x <= s_pending (updates es x))%nat /\
      (s_pending (updates es x) = s_pending x -> names (s_list (updates es x)) = names (s_list x))).
Proof.
  revert x. induction es as [|e es IH]; intros x Hb.
  - exists 0. destruct Hb as (_ & _ & Hc). unfold wrap64, u64_max, len in *. simpl.
    rewrite Z.add_0_r, Z.mod_small by lia. split_and!; done || lia.
  - rewrite len_cons. cbn [updates foldl]. change (foldl list_step (list_step x e) es) with (updates es (list_step x e)).
    destruct (IH (list_step x e) (updates_wf [e] x Hb)) as (k & Hk & Hc & Heq). destruct e as [raw|]; cbn [list_step] in *.
    + exists k. unfold write_names in *. case_bool_decide as Hsame; cbn [s_list s_pending] in *.
      * split_and!; [lia|lia|done|done].
      * cbn [changes names] in *. split_and!; [lia|lia|done|]. intros Hz. destruct (Heq Hz). split; lia.
    + destruct (s_pending x) as [|n] eqn:Ep.
      * exists k. rewrite Ep in Heq. split_and!; [lia|lia|done|done].
      * exists (1 + k). cbn [s_list changes announce] in Hc. split_and!; [lia|lia| |lia].
        rewrite Hc. unfold wrap64. rewrite Zplus_mod_idemp_l. f_equal. lia.
Qed.

Lemma matches_policy_names b b' ns : names b = names b' -> matches_policy b ns = matches_policy b' ns.
Proof. intros E. unfold matches_policy. by rewrite E. Qed.

(** A pinned decision that was made with the list [updates during x0], no
    earlier than the revision its receiver has seen: the next poll reports a
    change only when the list in effect gives another decision, and does so
    unless a change of the list has still to be announced. *)
Lemma poll_exact x0 during later p :
  bypass_wf (s_list x0) -> len during + len later < 2 ^ 64 -> p_seen p = changes (s_list x0) ->
  matches_policy (s_list (updates during x0)) (p_identities p) = p_bypass p ->
  let current := updates later (updates during x0) in
  (poll_routing_change (s_list current) p = Changed -> matches_policy (s_list current) (p_identities p) <> p_bypass p) /\
  (matches_policy (s_list current) (p_identities p) <> p_bypass p -> s_pending current = 0%nat ->
     poll_routing_change (s_list current) p = Changed).
Proof.
  intros Hb Hlen Hseen Hdec current.
  assert (matches_policy (s_list current) (p_identities p) <> p_bypass p -> s_pending current = 0%nat ->
    changes (s_list current) <> p_seen p) as Hrev.
  { intros Hne Hz. subst current. rewrite Hseen. pose proof (updates_wf during x0 Hb) as Hb1.
    destruct (updates_revision during x0 Hb) as (k1 & Hk1 & Hc1 & _).
    destruct (updates_revision later (updates during x0) Hb1) as (k2 & Hk2 & Hc2 & He2).
    destruct (decide (k2 = 0)) as [Hk0|Hpos].
    { destruct (He2 Hk0) as [Hp He]. rewrite (matches_policy_names _ (s_list (updates during x0))) in Hne by (apply He; lia). done. }
    rewrite Hc2, Hc1. destruct Hb as (_ & _ & Hr). unfold wrap64, u64_max in *.
    rewrite Zplus_mod_idemp_l. intros Hmod.
    assert ((k1 + k2) mod 18446744073709551616 = 0) as Hk.
    { replace (k1 + k2) with (changes (s_list x0) + k1 + k2 - changes (s_list x0)) by lia.
      rewrite Zminus_mod, Hmod, Zminus_mod_idemp_r, Z.sub_diag. done. }
    rewrite Z.mod_small in Hk by lia. lia. }
  unfold poll_routing_change. split.
  - split_if E; [done|]. split_if E2; [|done]. intros _ Heq. by rewrite Heq, Bool.eqb_reflx in E2.
  - intros Hne Hz. rewrite (proj2 (Z.eqb_neq _ _) (Hrev Hne Hz)).
    split_if E; [done|]. b2p. apply Bool.eqb_prop in E. done.
Qed.

(** No update is lost: a session that subscribed before its decision is woken
    by the next poll after an update was announced exactly when the list in
    effect no longer gives the decision it was pinned to, whatever updates raced
    with the lookup. *)
Theorem process_policy_no_lost_update x0 during later identity :
  bypass_wf (s_list x0) -> len during + len later < 2 ^ 64 ->
  let decided := updates during x0 in
  let current := updates later decided in
  let p := match_session (s_list x0) (s_list decided) identity in
  s_pending current = 0%nat ->
  (poll_routing_change (s_list current) p = Changed <->
     matches_policy (s_list current) (i_names identity) <> p_bypass p) /\
  is_current (s_list current) p = bool_decide (matches_policy (s_list current) (i_names identity) = p_bypass p).
Proof.
  intros Hb Hlen decided current p Hz. destruct (poll_exact x0 during later p Hb Hlen eq_refl eq_refl) as [H1 H2].
  split; [split; [exact H1|intros Hne; exact (H2 Hne Hz)]|].
  unfold is_current. change (p_identities p) with (i_names identity).
  generalize (matches_policy (s_list current) (i_names identity)), (p_bypass p). by intros [] [].
Qed.

(** ** Concrete tables *)

Section examples.
Let src := mkSA (ipv4 10 0 0 2) 40000.
Let dst := mkSA (ipv4 93 184 216 34) 443.
Let curl := as_bytes "Curl.exe".
Definition example_entry : SocketEntry := mkEntry Tcp src (Some dst) [7; 9] None.

Lemma process_candidates_sound_witness :
  example_entry ∈ [example_entry] /\ e_protocol example_entry = Tcp /\
  sa_port (e_local example_entry) = sa_port src /\
  (Tcp = Tcp -> e_remote example_entry = Some dst /\ sa_is_ipv4 (e_local example_entry) = sa_is_ipv4 src) /\
  ((exists e', e' ∈ [example_entry] /\ concrete Tcp src dst e' = true) ->
   sa_ip (e_local example_entry) = sa_ip src).
Proof. apply (process_candidates_sound [example_entry] Tcp src dst example_entry). by left. Defined.

(** A process whose parent is its own child. *)
Definition example_processes : gmap Z SnapshotProcess :=
  {[7 := mkProcess (as_bytes "game.exe") 9; 9 := mkProcess (as_bytes "wegame.exe") 7]}.

Lemma process_names_walk_witness :
  exists ps extra, walk example_processes [] 7 ps /\
    process_names_windows example_processes (fun _ => None) Some 7 = named ps ++ extra /\
    (named ps <> [] -> extra = [] \/ extra = [rule WeGame]).
Proof. apply (process_names_walk example_processes (fun _ => None) Some 7). done. Defined.

(** A process id that is given to another program between two sessions of the
    same endpoints: the second lookup asks again. *)
Definition example_names (now pid : Z) : list Name := if now <? 10 then [curl] else [as_bytes "wget"].
Definition example_lookup (at_ : Z) : Lookup := mkLookup Tcp src dst at_ (at_ + 1) (fun _ => at_ + 2).

Lemma process_match_fresh_witness :
  let '(identity, c') := lookup_session 9 (fun _ => Ok [example_entry]) example_names false true (example_lookup 20)
    (cache_after 9 (fun _ => Ok [example_entry]) example_names false true [example_lookup 5] default_cache) in
  i_names identity = [as_bytes "wget"] /\ exists f, fetched_at c' = Some f /\ 20 <= f.
Proof.
  pose proof (process_match_fresh 9 (fun _ => Ok [example_entry]) example_names false true [example_lookup 5] (example_lookup 20) 0) as H.
  destruct (lookup_session _ _ _ _ _ _ _) as [identity c'] eqn:E.
  destruct H as (f & asks & H1 & H2 & _).
  { cbn [serialized app example_lookup l_started l_requested l_asked]. split_and!; try (intros; lia); exact I. }
  split; [|exists f; split; [exact H1 | exact H2]]. vm_compute in E. injection E as <- <-. reflexivity.
Defined.

Lemma process_policy_no_lost_update_witness :
  poll_routing_change (s_list (updates [Written [curl]; Announced] (mkShared default_bypass 0)))
    (match_session default_bypass default_bypass (mkIdentity [as_bytes "curl"] None)) = Changed.
Proof.
  apply (process_policy_no_lost_update (mkShared default_bypass 0) [] [Written [curl]; Announced] (mkIdentity [as_bytes "curl"] None)).
  - split_and!; [constructor|by apply not_elem_of_nil|done|done].
  - done.
  - reflexivity.
  - by vm_compute.
Defined.
End examples.
End ProcessMatch.
