(* ===== verification/IpText.v ===== *)
(** * Reading addresses from text ([std::net::IpAddr::from_str])

    The parser of the standard library, used for the literal hosts of proxy
    addresses and of the ICMP Echo tunnel.  A parser takes bytes and returns a
    value with the bytes left; it takes nothing when it fails. *)

From S2P Require Import Prelude Net.

Module IpText.

Definition Parser (A : Type) : Type := list Z -> option (A * list Z).

#[export] Instance Parser_ret : MRet Parser := fun _ a s => Some (a, s).
#[export] Instance Parser_bind : MBind Parser := fun _ _ k p s =>
  match p s with Some (a, s') => k a s' | None => None end.

Definition read_given_char (c : Z) : Parser unit := fun s =>
  match s with x :: s' => if x =? c then Some (tt, s') else None | [] => None end.

(** [char::to_digit]. *)
Definition to_digit (radix c : Z) : option Z :=
  let d := if (48 <=? c) && (c <=? 57) then c - 48
           else if (97 <=? c) && (c <=? 102) then c - 87
           else if (65 <=? c) && (c <=? 70) then c - 55 else 255 in
  if d <? radix then Some d else None.

(** The loop of [read_number]: the value, the number of digits, the rest. *)
Fixpoint read_digits (radix bound : Z) (max_digits count : nat) (acc : Z) (s : list Z)
    : option (Z * nat * list Z) :=
  match s with
  | c :: s' =>
      match to_digit radix c with
      | Some d =>
          let acc' := acc * radix + d in
          if (bound <? acc') || (max_digits <? S count)%nat then None
          else read_digits radix bound max_digits (S count) acc' s'
      | None => Some (acc, count, s)
      end
  | [] => Some (acc, count, [])
  end.

Definition read_number (radix bound : Z) (max_digits : nat) (allow_zero_prefix : bool) : Parser Z := fun s =>
  let has_leading_zero := match s with c :: _ => c =? 48 | [] => false end in
  match read_digits radix bound max_digits 0 0 s with
  | Some (v, count, s') =>
      if (count =? 0)%nat then None
      else if negb allow_zero_prefix && has_leading_zero && (1 <? count)%nat then None
      else Some (v, s')
  | None => None
  end.

Definition read_separator {A} (sep : Z) (i : nat) (p : Parser A) : Parser A :=
  if (0 <? i)%nat then read_given_char sep;; p else p.

Definition dot : Z := 46.
Definition colon : Z := 58.

Definition read_octet (i : nat) : Parser Z := read_separator dot i (read_number 10 255 3 false).

Definition read_ipv4_addr : Parser Z :=
  a ← read_octet 0; b ← read_octet 1; c ← read_octet 2; d ← read_octet 3;
  mret (ip_value (ipv4 a b c d)).

(** [read_groups]: at most [limit] groups from the [i]-th on; the groups read
    and whether the last two are an IPv4 address. *)
Fixpoint read_groups (fuel limit i : nat) (s : list Z) : list Z * bool * list Z :=
  match fuel with
  | O => ([], false, s)
  | S fuel' =>
      match (if (i <? limit - 1)%nat then read_separator colon i read_ipv4_addr s else None) with
      | Some (v4, s') => ([v4 / 65536; v4 mod 65536], true, s')
      | None =>
          match read_separator colon i (read_number 16 65535 4 true) s with
          | Some (g, s') =>
              let '(gs, is_v4, s'') := read_groups fuel' limit (S i) s' in (g :: gs, is_v4, s'')
          | None => ([], false, s)
          end
      end
  end.

Definition of_groups (gs : list Z) : Z := fold_left (fun acc g => acc * 65536 + g) gs 0.

Definition read_ipv6_addr : Parser Z := fun s =>
  let '(head, head_ipv4, s1) := read_groups 8 8 0 s in
  if (length head =? 8)%nat then Some (of_groups head, s1)
  else if head_ipv4 then None
  else match (read_given_char colon;; read_given_char colon) s1 with
       | None => None
       | Some (_, s2) =>
           let limit := (8 - (length head + 1))%nat in
           let '(tail, _, s3) := read_groups limit limit 0 s2 in
           Some (of_groups (head ++ replicate (8 - length head - length tail) 0 ++ tail), s3)
       end.

(** [IpAddr::from_str]: the whole text must be read. *)
Definition parse_ip (s : string) : option IpAddr :=
  match read_ipv4_addr (as_bytes s) with
  | Some (v, rest) => if bool_decide (rest = []) then Some (V4 v) else None
  | None =>
      match read_ipv6_addr (as_bytes s) with
      | Some (v, rest) => if bool_decide (rest = []) then Some (V6 v) else None
      | None => None
      end
  end.

Example parse_ip_examples :
  parse_ip "127.0.0.1" = Some (ipv4 127 0 0 1) /\ parse_ip "::1" = Some (V6 1) /\ parse_ip "::" = Some (V6 0) /\
  parse_ip "2001:db8::1:0" = Some (V6 (0x20010db8 * 2 ^ 96 + 0x10000)) /\
  parse_ip "::ffff:1.2.3.4" = Some (V6 (0xffff * 2 ^ 32 + 0x01020304)) /\
  parse_ip "1.2.3" = None /\ parse_ip "01.2.3.4" = None /\ parse_ip "1.2.3.256" = None /\
  parse_ip "1:2:3:4:5:6:7:8" = Some (V6 0x00010002000300040005000600070008) /\
  parse_ip "1:2:3:4:5:6:7:8:9" = None /\ parse_ip "example.org" = None /\ parse_ip "1.2.3.4.5" = None.
Proof. by vm_compute. Qed.

(** ** IPv4 literals are read back *)

(** What follows a number does not start with a digit. *)
Definition ends_number (radix : Z) (rest : list Z) : Prop :=
  match rest with c :: _ => to_digit radix c = None | [] => True end.

Lemma read_digits_app radix bound m rest ds :
  ends_number radix rest -> forall count acc v k,
  read_digits radix bound m count acc ds = Some (v, k, []) ->
  read_digits radix bound m count acc (ds ++ rest) = Some (v, k, rest).
Proof.
  intros Hr. induction ds as [|c ds IH]; intros count acc v k; cbn [read_digits app].
  - intros [= -> ->]. destruct rest as [|c rest]; [done|]. cbn in *. by rewrite Hr.
  - destruct (to_digit radix c); [|done]. split_if E; [done|]. apply IH.
Qed.

Lemma read_number_app radix bound m allow rest ds v :
  ends_number radix rest -> read_number radix bound m allow ds = Some (v, []) ->
  read_number radix bound m allow (ds ++ rest) = Some (v, rest).
Proof.
  intros Hr. unfold read_number. destruct (read_digits radix bound m 0 0 ds) as [[[v' k] s']|] eqn:E; [|done].
  destruct s' as [|c s']; [|by repeat case_match].
  rewrite (read_digits_app _ _ _ _ _ Hr _ _ _ _ E). destruct ds as [|c ds]; [|].
  - cbn in E. injection E as <- <-. done.
  - cbn [app]. split_if E1; [done|]. split_if E2; [done|]. by intros [= ->].
Qed.

Lemma read_shown n : 0 <= n < 256 -> read_number 10 255 3 false (as_bytes (show_dec n)) = Some (n, []).
Proof.
  intros Hn.
  assert (forallb (fun k => bool_decide (read_number 10 255 3 false (as_bytes (show_dec (Z.of_nat k))) =
    Some (Z.of_nat k, []))) (seq 0 256) = true) as Hall by by vm_compute.
  rewrite forallb_forall in Hall. specialize (Hall (Z.to_nat n) ltac:(apply in_seq; lia)).
  rewrite Z2Nat.id in Hall by lia. by apply bool_decide_eq_true_1 in Hall.
Qed.

Lemma read_octet_first n rest :
  0 <= n < 256 -> ends_number 10 rest -> read_octet 0 (as_bytes (show_dec n) ++ rest) = Some (n, rest).
Proof. intros Hn Hr. apply read_number_app; [done|by apply read_shown]. Qed.

Lemma read_octet_next n i rest :
  0 <= n < 256 -> ends_number 10 rest -> read_octet (S i) (dot :: as_bytes (show_dec n) ++ rest) = Some (n, rest).
Proof. intros Hn Hr. apply (read_number_app 10 255 3 false); [done|by apply read_shown]. Qed.

(** The literal of an IPv4 address is read as that address. *)
Lemma parse_show_ipv4 n : 0 <= n < 2 ^ 32 -> parse_ip (show_ipv4 n) = Some (V4 n).
Proof.
  intros Hn. unfold parse_ip.
  set (a := n / 2 ^ 24). set (b := n / 2 ^ 16 mod 256). set (c := n / 2 ^ 8 mod 256). set (d := n mod 256).
  assert (0 <= a < 256) by (unfold a; split; [apply Z.div_pos; lia|apply Z.div_lt_upper_bound; lia]).
  assert (0 <= b < 256 /\ 0 <= c < 256 /\ 0 <= d < 256) as (? & ? & ?)
    by (unfold b, c, d; split_and!; apply Z.mod_pos_bound; lia).
  assert (as_bytes (show_ipv4 n) = as_bytes (show_dec a) ++ dot :: as_bytes (show_dec b) ++ dot ::
    as_bytes (show_dec c) ++ dot :: as_bytes (show_dec d) ++ []) as ->.
  { unfold show_ipv4. by rewrite !as_bytes_app, app_nil_r. }
  assert (forall l, ends_number 10 (dot :: l)) as Hd by done.
  unfold read_ipv4_addr, mbind, Parser_bind.
  rewrite read_octet_first, !read_octet_next by done.
  cbn [mret Parser_ret]. rewrite bool_decide_eq_true_2 by done. unfold ipv4, ip_value.
  replace (a * 2 ^ 24 + b * 2 ^ 16 + c * 2 ^ 8 + d) with n; [done|].
  unfold a, b, c, d. change (2 ^ 24) with 16777216. change (2 ^ 16) with 65536. change (2 ^ 8) with 256.
  Z.div_mod_to_equations. lia.
Qed.
End IpText.
