(* ===== verification/Icmp.v ===== *)
(** * ICMP Echo forwarding (src/src/icmp.rs)

    The framing of Echo packets, the options that allow the extension, the
    table of flows with its bounds, and the worker of a flow.  The crate
    [internet_checksum] is the class [InternetChecksum] with the property its
    documentation gives (RFC 1071); the RFC's own definition is an instance.
    Time is in nanoseconds. *)

From S2P Require Import Prelude Net Socks5Impl ProxyHandler Streams Dns Routing IpText.

Module Icmp.
Import Routing IpText.

Definition SOCKS5_ECHO : Z := 224.
Definition MAX_ECHO_PACKET : Z := u16_max.
Definition MAX_FLOWS : nat := 64.
Definition QUEUE_DEPTH : nat := 4.
Definition ECHO_TIMEOUT : Z := 4 * 1000000000.

(** ** Framing *)

(** A connection: the results of the next reads, those of the next vectored
    writes (the number of bytes taken), and what was written. *)
Record Stream := mkStream {
  s_reads : list (res IoError (list Z));
  s_writes : list (res IoError nat);
  s_out : list Z }.

Definition read_bytes (n : nat) : Task Stream (list Z) := fun s =>
  let '(p, rs) := read_full n (s_reads s) in
  (match p with Returned r => Returned (map_err Io r) | Waiting => Waiting end,
   mkStream rs (s_writes s) (s_out s)).

Definition read_packet : Task Stream (list Z) :=
  prefix ← read_bytes 2;
  let length := match prefix with hi :: lo :: _ => of_be16 hi lo | _ => 0 end in
  if length <? 8 then fail_with (Io (mkIo InvalidData "invalid ICMP Echo packet length"))
  else read_bytes (Z.to_nat length).

(** The loop over the slices; [pending] is what they still hold. *)
Fixpoint write_vectored (results : list (res IoError nat)) (pending : list Z)
    : progress (res IoError unit) * list (res IoError nat) * list Z :=
  match pending with
  | [] => (Returned (Ok tt), results, [])
  | _ =>
      match results with
      | [] => (Waiting, [], [])
      | Err e :: rs => (Returned (Err e), rs, [])
      | Panic :: rs => (Returned Panic, rs, [])
      | Ok n :: rs =>
          if (n =? 0)%nat then (Returned (Err (io_of_kind WriteZero)), rs, [])
          else if (length pending <? n)%nat then (Returned Panic, rs, [])
          else let '(r, rs', out) := write_vectored rs (drop n pending) in (r, rs', take n pending ++ out)
      end
  end.

Definition write_packet (packet : list Z) : Task Stream unit := fun s =>
  if (len packet <? 8) || (MAX_ECHO_PACKET <? len packet)
  then (Returned (Err (Io (mkIo InvalidInput "invalid ICMP Echo packet length"))), s)
  else
    let '(r, rs, out) := write_vectored (s_writes s) (be16 (wrap16 (len packet)) ++ packet) in
    (match r with Returned r => Returned (map_err Io r) | Waiting => Waiting end,
     mkStream (s_reads s) rs (s_out s ++ out)).

(** ** Options *)

(** [ProxyParameters]: the parts read here. *)
Record EchoProxy := mkEchoProxy {
  ep_type : ProxyType;
  ep_credentials : bool;
  ep_addr : option Address }.

(** [host.strip_prefix('[').and_then(|host| host.strip_suffix(']')).unwrap_or(host)]. *)
Definition strip_brackets (host : string) : string :=
  match host with
  | String c rest =>
      if bool_decide (c = Ascii.ascii_of_nat 91) && ends_with "]" rest then strip_end "]" rest else host
  | EmptyString => host
  end.

Definition echo_endpoint (proxy : EchoProxy) : option SocketAddr :=
  if negb (bool_decide (ep_type proxy = PSocks5)) || ep_credentials proxy then None
  else
    addr ← ep_addr proxy;
    endpoint ← match addr with
               | SocketAddress a => Some a
               | DomainAddress host port => (fun ip => mkSA ip port) <$> parse_ip (strip_brackets host)
               end;
    if is_loopback (sa_ip endpoint) then Some endpoint else None.

Definition validate_options (icmp_echo : bool) (proxy : EchoProxy) : res IoError (option SocketAddr) :=
  if negb icmp_echo then Ok None
  else match echo_endpoint proxy with
       | Some a => Ok (Some a)
       | None => Err (mkIo InvalidInput "ICMP Echo requires proxy-everything's loopback SOCKS5 endpoint without authentication")
       end.

(** ** Packets *)

(** [IpStackUnknownTransport]. *)
Record Packet := mkPacket { ip_protocol : Z; src_addr : IpAddr; dst_addr : IpAddr; payload : list Z }.

Definition is_echo (p : Packet) : bool :=
  match payload p with
  | k :: c :: _ =>
      ((ip_protocol p =? 1) && (k =? 8) && (c =? 0)) || ((ip_protocol p =? 58) && (k =? 128) && (c =? 0))
  | _ => false
  end.

(** The checksum of all the bytes added, as a number. *)
Class InternetChecksum := { checksum : list Z -> Z }.

Definition packet_checksum `{InternetChecksum} (packet : list Z) (source destination : IpAddr) : Z :=
  checksum
    (match source, destination with
     | V6 s, V6 d => octets (V6 s) ++ octets (V6 d) ++ be_bytes 4 (len packet) ++ [0; 0; 0; 58]
     | _, _ => []
     end ++ packet).

(** ** Flows *)

(** [FlowKey]: source, destination and identifier. *)
Abbreviation FlowKey := (IpAddr * IpAddr * (Z * Z))%type.

Record EchoRequest := mkRequest { request : Packet; deadline : Z }.

(** A worker: its channel, whether it still runs, and what it was started
    with. *)
Record Worker := mkWorker {
  queue : list EchoRequest;
  alive : bool;
  target : string;
  ipv6 : bool }.

(** [EchoFlows] and the set of tasks: workers are numbered in the order they
    were spawned. *)
Record EchoFlows := mkFlows {
  flows : gmap FlowKey nat;
  proxy : SocketAddr;
  mtu : Z;
  workers : list Worker }.

Definition new (icmp_echo : bool) (p : EchoProxy) (mtu : Z) : res IoError (option EchoFlows) :=
  match validate_options icmp_echo p with
  | Ok o => Ok ((fun a => mkFlows ∅ a mtu []) <$> o)
  | Err e => Err e
  | Panic => Panic
  end.

(** [!sender.is_closed()]. *)
Definition open_worker (w : EchoFlows) (x : FlowKey * nat) : Prop :=
  match workers w !! x.2 with Some k => alive k = true | None => False end.

#[export] Instance open_worker_dec w x : Decision (open_worker w x).
Proof. unfold open_worker. destruct (workers w !! x.2); apply _. Defined.

(** [sender.try_send]. *)
Definition try_send (r : EchoRequest) (k : Worker) : Worker :=
  if alive k && (length (queue k) <? QUEUE_DEPTH)%nat
  then mkWorker (queue k ++ [r]) (alive k) (target k) (ipv6 k) else k.

Definition flow_key (p : Packet) : FlowKey :=
  (src_addr p, dst_addr p, (nth 4 (payload p) 0, nth 5 (payload p) 0)).

(** The checks on a packet before it gets a flow. *)
Definition acceptable `{InternetChecksum} (mtu : Z) (p : Packet) : bool :=
  let header_len := if is_ipv4 (src_addr p) then 20 else 40 in
  negb ((len (payload p) <? 8) || (Z.max 0 (mtu - header_len) <? len (payload p))
        || negb (packet_checksum (payload p) (src_addr p) (dst_addr p) =? 0)).

Definition dispatch `{InternetChecksum} (now : Z) (p : Packet) (domain : option string) (w : EchoFlows) : EchoFlows :=
  if negb (acceptable (mtu w) p) then w
  else
    let kept := filter (open_worker w) (flows w) in
    let key := flow_key p in
    if (MAX_FLOWS <=? size kept)%nat && negb (bool_decide (is_Some (kept !! key)))
    then mkFlows kept (proxy w) (mtu w) (workers w)
    else
      let r := mkRequest p (now + ECHO_TIMEOUT) in
      match kept !! key with
      | Some k => mkFlows kept (proxy w) (mtu w) (alter (try_send r) k (workers w))
      | None =>
          let fresh := mkWorker [] true (default (show_ip (dst_addr p)) domain) (is_ipv6 (dst_addr p)) in
          mkFlows (<[key := length (workers w)]> kept) (proxy w) (mtu w)
            (workers w ++ [try_send r fresh])
      end.

(** ** The worker *)

(** The request of [connect]. *)
Definition echo_request (target : string) (ipv6 : bool) : res IoError (list Z) :=
  body ← match parse_ip target with
         | Some (V4 n) => Ok (1 :: octets (V4 n))
         | Some (V6 n) => Ok (4 :: octets (V6 n))
         | None =>
             if 255 <? len (as_bytes target) then Err (mkIo InvalidInput "Echo hostname is too long")
             else Ok (3 :: len (as_bytes target) :: as_bytes target)
         end;
  Ok ([5; 1; 0; 5; SOCKS5_ECHO; 0] ++ body ++ be16 (if ipv6 then 6 else 4)).

(** [write_all] on the stream: the writes take what they take. *)
Definition write_all (bs : list Z) : Task Stream unit := fun s =>
  let '(r, rs, out) := write_vectored (s_writes s) bs in
  (match r with Returned r => Returned (map_err Io r) | Waiting => Waiting end,
   mkStream (s_reads s) rs (s_out s ++ out)).

(** [connect], once the stream is open. *)
Definition connect (target : string) (ipv6 : bool) : Task Stream unit :=
  request ← done_with (map_err Io (echo_request target ipv6));
  write_all request;;
  reply ← read_bytes 12;
  if bool_decide (take 6 reply = [5; 0; 5; 0; 0; 1]) then mret tt
  else fail_with (Io (mkIo Unsupported "local proxy rejected ICMP Echo; upgrade the proxy and use its native upstream")).

(** The check of a reply against its request. *)
Definition reply_matches (ipv6 : bool) (request response : list Z) : bool :=
  (length response =? length request)%nat &&
  (nth 0 response 0 =? (if ipv6 then 129 else 0)) && (nth 1 response 0 =? 0) &&
  bool_decide (drop 4 response = drop 4 request).

(** The reply with its checksum recomputed for the addresses swapped. *)
Definition with_checksum `{InternetChecksum} (p : Packet) (response : list Z) : list Z :=
  let zeroed := take 2 response ++ [0; 0] ++ drop 4 response in
  take 2 response ++ be16 (packet_checksum zeroed (dst_addr p) (src_addr p)) ++ drop 4 response.

Definition exchange `{InternetChecksum} (ipv6 : bool) (p : Packet) : Task Stream (list Z) :=
  write_packet (payload p);;
  response ← read_packet;
  if reply_matches ipv6 (payload p) response then mret (with_checksum p response)
  else fail_with (Io (mkIo InvalidData "remote ICMP reply does not match the request")).

(** A turn of [run_flow]: a request comes out of the channel, at some time, and
    the stack takes the reply or not; the end of the list is the idle timeout
    or the end of the channel. *)
Record Turn := mkTurn { t_request : EchoRequest; t_now : Z; t_sent : option IoError }.

(** The replies sent, with the request of each. *)
Abbreviation Replies := (list (Packet * list Z)).

Fixpoint serve `{InternetChecksum} (ipv6 : bool) (turns : list Turn) (s : Stream) (out : Replies)
    : res Error unit * Stream * Replies :=
  match turns with
  | [] => (Ok tt, s, out)
  | t :: turns' =>
      if deadline (t_request t) <=? t_now t then serve ipv6 turns' s out
      else
        let p := request (t_request t) in
        match exchange ipv6 p s with
        | (Returned (Ok reply), s') =>
            match t_sent t with
            | None => serve ipv6 turns' s' (out ++ [(p, reply)])
            | Some e => (Err (Io e), s', out)
            end
        | (Returned (Err e), s') => (Err e, s', out)
        | (Returned Panic, s') => (Panic, s', out)
        | (Waiting, s') => (Err (Io (mkIo TimedOut "deadline has elapsed")), s', out)
        end
  end.

(** [run_flow]; [opened] is the result of opening the connection. *)
Definition run_flow `{InternetChecksum} (target : string) (ipv6 : bool) (opened : res IoError Stream)
    (turns : list Turn) : res Error unit * Replies :=
  match opened with
  | Err e => (Err (Io e), [])
  | Panic => (Panic, [])
  | Ok s =>
      match connect target ipv6 s with
      | (Returned (Ok _), s') => let '(r, _, out) := serve ipv6 turns s' [] in (r, out)
      | (Returned (Err e), _) => (Err e, [])
      | (Returned Panic, _) => (Panic, [])
      | (Waiting, _) => (Err (Io (mkIo TimedOut "deadline has elapsed")), [])
      end
  end.

(** ** Properties *)

(** *** Framing *)

Definition frame (packet : list Z) : list Z := be16 (len packet) ++ packet.

Lemma write_vectored_spec results pending r rs out :
  write_vectored results pending = (r, rs, out) ->
  (exists tail, pending = out ++ tail) /\ (r = Returned (Ok tt) -> out = pending).
Proof.
  revert pending rs out. induction results as [|[n|e|] results IH]; intros [|b pending] rs out; cbn;
    try (intros [= <- <- <-]; split; [by eexists|done]).
  split_if E1; [intros [= <- <- <-]; split; [by eexists|done]|].
  split_if E2; [intros [= <- <- <-]; split; [by eexists|done]|]. b2p.
  destruct n as [|n]; [done|]. cbn [drop take].
  destruct (write_vectored results (drop n pending)) as [[r' rs'] out'] eqn:Ew. intros [= <- <- <-].
  destruct (IH _ _ _ Ew) as [[tail Htail] Hok]. split.
  - exists tail. cbn [app]. by rewrite <- app_assoc, <- Htail, take_drop.
  - intros Hr. rewrite (Hok Hr). by rewrite take_drop.
Qed.

(** A writer that takes some bytes every time, and all of them in the end. *)
Lemma write_vectored_all ns pending rest :
  Forall (fun n => (0 < n)%nat) ns -> list_sum ns = length pending ->
  write_vectored ((Ok <$> ns) ++ rest) pending = (Returned (Ok tt), rest, pending).
Proof.
  intros Hpos. revert pending. induction Hpos as [|n ns Hn Hpos IH]; intros pending Hs.
  - destruct pending; [|done]. by destruct rest.
  - change (list_sum (n :: ns)) with (n + list_sum ns)%nat in Hs. cbn [fmap list_fmap app]. destruct pending as [|b pending]; [simpl in Hs; lia|].
    assert (write_vectored (Ok n :: (Ok <$> ns) ++ rest) (b :: pending) =
      if (n =? 0)%nat then (Returned (Err (io_of_kind WriteZero)), (Ok <$> ns) ++ rest, [])
      else if (length (b :: pending) <? n)%nat then (Returned Panic, (Ok <$> ns) ++ rest, [])
      else let '(r, rs', out) := write_vectored ((Ok <$> ns) ++ rest) (drop n (b :: pending)) in
           (r, rs', take n (b :: pending) ++ out)) as -> by done.
    rewrite (proj2 (Nat.eqb_neq _ _)), (proj2 (Nat.ltb_ge _ _)) by (simpl in *; lia).
    rewrite IH by (rewrite length_drop; simpl in *; lia). by rewrite take_drop.
Qed.

Lemma read_bytes_app a rest s :
  received (s_reads s) = a ++ rest ->
  exists rs, read_bytes (length a) s = (Returned (Ok a), mkStream rs (s_writes s) (s_out s)) /\ received rs = rest.
Proof.
  intros Hr. destruct (read_full_app a rest (s_reads s) Hr) as (rs & Hf & Hrest). exists rs.
  unfold read_bytes. by rewrite Hf.
Qed.

(** A packet written, in whatever pieces the connection takes it, is read back
    exactly, in whatever pieces it arrives, and the next packet starts where it
    ends; what is written is never more than the frame, and is all of it when
    the call succeeds. *)
Theorem icmp_frame_roundtrip packet :
  8 <= len packet <= MAX_ECHO_PACKET ->
  (forall s r s', write_packet packet s = (r, s') ->
     exists part tail, s_out s' = s_out s ++ part /\ frame packet = part ++ tail /\
       (r = Returned (Ok tt) -> tail = [])) /\
  (forall s ns rest, s_writes s = (Ok <$> ns) ++ rest -> Forall (fun n => (0 < n)%nat) ns ->
     list_sum ns = length (frame packet) ->
     write_packet packet s = (Returned (Ok tt), mkStream (s_reads s) rest (s_out s ++ frame packet))) /\
  (forall s rest, received (s_reads s) = frame packet ++ rest ->
     exists rs, read_packet s = (Returned (Ok packet), mkStream rs (s_writes s) (s_out s)) /\ received rs = rest).
Proof.
  intros [Hmin Hmax]. unfold MAX_ECHO_PACKET, u16_max in *.
  assert (wrap16 (len packet) = len packet) as Hwrap by (unfold wrap16; rewrite Z.mod_small; [done|lia]).
  assert ((len packet <? 8) || (65535 <? len packet) = false) as Hlen
    by (apply orb_false_iff; split; apply Z.ltb_ge; lia).
  split_and!.
  - intros s r s'. unfold write_packet, MAX_ECHO_PACKET, u16_max. rewrite Hlen, Hwrap.
    destruct (write_vectored _ _) as [[r' rs] out] eqn:Ew. intros [= <- <-].
    destruct (write_vectored_spec _ _ _ _ _ Ew) as [[tail Ht] Hok]. exists out, tail. split_and!; [done|done|].
    intros Hr. destruct r' as [[[]|e|]|]; try done. rewrite (Hok eq_refl) in Ht.
    apply (f_equal length) in Ht. rewrite !length_app in Ht. destruct tail; [done|simpl in Ht; lia].
  - intros s ns rest Hw Hpos Hsum. unfold write_packet, MAX_ECHO_PACKET, u16_max. rewrite Hlen, Hwrap, Hw.
    fold (frame packet). by rewrite (write_vectored_all ns _ rest Hpos Hsum).
  - intros s rest Hr. unfold frame in Hr. rewrite <- app_assoc in Hr.
    destruct (read_bytes_app (be16 (len packet)) (packet ++ rest) s Hr) as (rs1 & E1 & R1).
    destruct (read_bytes_app packet rest (mkStream rs1 (s_writes s) (s_out s)) R1) as (rs2 & E2 & R2).
    exists rs2. split; [|done]. rewrite length_be16 in E1. unfold read_packet, mbind, Task_bind. rewrite E1.
    unfold be16. cbv zeta. rewrite of_be16_be16 by (unfold is_u16; lia).
    rewrite (proj2 (Z.ltb_ge _ _)) by lia. replace (Z.to_nat (len packet)) with (length packet) by (unfold len; lia).
    exact E2.
Qed.

(** *** Flows *)

Section flows.
Context `{InternetChecksum}.

(** What happens to the flows: a packet is dispatched, a worker takes its next
    request, a worker ends. *)
Inductive Op :=
  | Dispatch (now : Z) (p : Packet) (domain : option string)
  | Take (k : nat)
  | End_ (k : nat).

Definition take_request (k : Worker) : Worker := mkWorker (tail (queue k)) (alive k) (target k) (ipv6 k).
Definition end_worker (k : Worker) : Worker := mkWorker [] false (target k) (ipv6 k).

Definition step (op : Op) (w : EchoFlows) : EchoFlows :=
  match op with
  | Dispatch now p domain => dispatch now p domain w
  | Take k => mkFlows (flows w) (proxy w) (mtu w) (alter take_request k (workers w))
  | End_ k => mkFlows (flows w) (proxy w) (mtu w) (alter end_worker k (workers w))
  end.

(** What the table promises: its bound, workers that exist and belong to one
    key, and short queues of acceptable requests of that key. *)
Record flows_wf (w : EchoFlows) : Prop := {
  fw_size : (size (flows w) <= MAX_FLOWS)%nat;
  fw_worker : forall key k, flows w !! key = Some k -> is_Some (workers w !! k);
  fw_inj : forall a b k, flows w !! a = Some k -> flows w !! b = Some k -> a = b;
  fw_queue : forall k x, workers w !! k = Some x -> (length (queue x) <= QUEUE_DEPTH)%nat /\
    Forall (fun r => acceptable (mtu w) (request r) = true) (queue x);
  fw_key : forall key k x r, flows w !! key = Some k -> workers w !! k = Some x -> r ∈ queue x ->
    flow_key (request r) = key }.

Lemma try_send_spec r k :
  (length (queue k) <= QUEUE_DEPTH)%nat ->
  (length (queue (try_send r k)) <= QUEUE_DEPTH)%nat /\
  forall x, x ∈ queue (try_send r k) -> x ∈ queue k \/ x = r.
Proof.
  intros Hk. unfold try_send. split_if E; [|split; [done|by left]]. b2p. cbn. split.
  - rewrite length_app. simpl. lia.
  - intros x. rewrite elem_of_app, list_elem_of_singleton. done.
Qed.

(** A change of one worker that only removes requests, or adds one of its own. *)
Lemma flows_wf_alter w m f k :
  flows_wf w -> m ⊆ flows w ->
  (forall x, workers w !! k = Some x -> (length (queue (f x)) <= QUEUE_DEPTH)%nat /\
     forall r, r ∈ queue (f x) -> r ∈ queue x \/
       (acceptable (mtu w) (request r) = true /\ m !! flow_key (request r) = Some k)) ->
  flows_wf (mkFlows m (proxy w) (mtu w) (alter f k (workers w))).
Proof.
  intros Hw Hsub Hf.
  assert (forall j y, alter f k (workers w) !! j = Some y -> exists x, workers w !! j = Some x /\
    ((j = k /\ y = f x) \/ (j <> k /\ y = x))) as Hback.
  { intros j y Hy. destruct (decide (k = j)) as [<-|Hne].
    - rewrite list_lookup_alter_eq in Hy. destruct (workers w !! k) as [x|]; [|done]. injection Hy as <-.
      exists x. split; [done|]. by left.
    - rewrite list_lookup_alter_ne in Hy by done. exists y. split; [done|]. right. by split. }
  split; cbn.
  - etrans; [|apply (fw_size w Hw)]. by apply map_subseteq_size.
  - intros key j Hj. destruct (fw_worker w Hw key j) as [x Hx]; [by eapply lookup_weaken|].
    apply lookup_lt_is_Some. rewrite length_alter. apply lookup_lt_is_Some. by eexists.
  - intros a b j Ha Hb. eapply (fw_inj w Hw); by eapply lookup_weaken.
  - intros j y Hy. destruct (Hback j y Hy) as (x & Hx & [[-> ->]|[_ ->]]); [|by apply (fw_queue w Hw j)].
    destruct (Hf x Hx) as [Hl Hr]. split; [done|]. apply Forall_forall. intros r Hin.
    destruct (Hr r Hin) as [Hold|[? _]]; [|done].
    destruct (fw_queue w Hw k x Hx) as [_ Hall]. rewrite Forall_forall in Hall. by apply Hall.
  - intros key j y r Hkey Hy Hr. pose proof (lookup_weaken _ _ _ _ Hkey Hsub) as Hkey'.
    destruct (Hback j y Hy) as (x & Hx & [[-> ->]|[_ ->]]); [|by eapply (fw_key w Hw)].
    destruct (Hf x Hx) as [_ Hnew]. destruct (Hnew r Hr) as [Hold|[_ Hm]]; [by eapply (fw_key w Hw)|].
    eapply (fw_inj w Hw); [|done]. by eapply lookup_weaken.
Qed.

(** A new worker for a new key. *)
Lemma flows_wf_new w m key x :
  flows_wf w -> m ⊆ flows w -> m !! key = None -> (size m < MAX_FLOWS)%nat ->
  (length (queue x) <= QUEUE_DEPTH)%nat ->
  (forall r, r ∈ queue x -> acceptable (mtu w) (request r) = true /\ flow_key (request r) = key) ->
  flows_wf (mkFlows (<[key := length (workers w)]> m) (proxy w) (mtu w) (workers w ++ [x])).
Proof.
  intros Hw Hsub Hkey Hsize Hq Hx.
  assert (forall a k, m !! a = Some k -> (k < length (workers w))%nat) as Hlt.
  { intros a k Ha. apply lookup_lt_is_Some, (fw_worker w Hw a). by eapply lookup_weaken. }
  assert (forall j y, (workers w ++ [x]) !! j = Some y ->
    workers w !! j = Some y \/ (j = length (workers w) /\ y = x)) as Hback.
  { intros j y [?|[Hle Hy]]%lookup_app_Some; [by left|right]. apply list_lookup_singleton_Some in Hy as [? ->].
    split; [lia|done]. }
  split; cbn.
  - rewrite map_size_insert_None by done. lia.
  - intros a k [[<- <-]|[_ Ha]]%lookup_insert_Some; apply lookup_lt_is_Some; rewrite length_app; simpl; [lia|].
    apply Hlt in Ha. lia.
  - intros a b k [[<- <-]|[? Ha]]%lookup_insert_Some [[<- Heq]|[? Hb]]%lookup_insert_Some; try done.
    + apply Hlt in Hb. lia.
    + apply Hlt in Ha. lia.
    + eapply (fw_inj w Hw); by eapply lookup_weaken.
  - intros j y [Hy|[-> ->]]%Hback; [by apply (fw_queue w Hw j)|]. split; [done|].
    apply Forall_forall. intros r Hr. by apply Hx.
  - intros a k y r [[<- <-]|[? Ha]]%lookup_insert_Some [Hy|[Hk ->]]%Hback Hr.
    + apply lookup_lt_Some in Hy. lia.
    + by apply Hx.
    + eapply (fw_key w Hw); [by eapply lookup_weaken|done|done].
    + subst k. apply Hlt in Ha. lia.
Qed.

Lemma flows_step_wf op w : flows_wf w -> flows_wf (step op w).
Proof.
  intros Hw. destruct op as [now p domain|k|k]; cbn [step].
  - unfold dispatch. split_if Ea; [done|]. apply negb_false_iff in Ea. cbv zeta.
    set (m := filter (open_worker w) (flows w)). assert (m ⊆ flows w) as Hsub by apply map_filter_subseteq.
    set (r := mkRequest p (now + ECHO_TIMEOUT)).
    split_if El.
    { split; cbn.
      - etrans; [|apply (fw_size w Hw)]. by apply map_subseteq_size.
      - intros a k Ha. eapply (fw_worker w Hw). by eapply lookup_weaken.
      - intros a b k Ha Hb. eapply (fw_inj w Hw); by eapply lookup_weaken.
      - apply (fw_queue w Hw).
      - intros a k x r0 Ha. eapply (fw_key w Hw). by eapply lookup_weaken. }
    destruct (m !! flow_key p) as [k|] eqn:Hk.
    + apply flows_wf_alter; [done|done|]. intros x Hx.
      destruct (try_send_spec r x) as [Hl Hr]; [by apply (fw_queue w Hw k)|]. split; [done|].
      intros r0 Hr0. destruct (Hr r0 Hr0) as [?| ->]; [by left|by right].
    + assert (size m < MAX_FLOWS)%nat as Hs.
      { rewrite bool_decide_eq_false_2 in El by (by intros [? ?]). rewrite andb_true_r in El. b2p. done. }
      destruct (try_send_spec r (mkWorker [] true (default (show_ip (dst_addr p)) domain) (is_ipv6 (dst_addr p))))
        as [Hl Hr]; [cbn; lia|].
      apply flows_wf_new; [done|done|done|done|done|]. intros r0 Hr0.
      destruct (Hr r0 Hr0) as [Hn| ->]; [by apply not_elem_of_nil in Hn|done].
  - apply flows_wf_alter; [done|done|]. intros x Hx. destruct (fw_queue w Hw k x Hx) as [Hl _].
    destruct (queue x) as [|r q] eqn:Hq; cbn; rewrite Hq; cbn; (split; [simpl in Hl; lia|]); [by intros r0 ?%not_elem_of_nil|].
    intros r0 ?. left. by right.
  - apply flows_wf_alter; [done|done|]. intros x Hx. split; [cbn; lia|]. intros r Hr. by apply not_elem_of_nil in Hr.
Qed.

(** However packets come and workers end, there are at most sixty-four flows
    with at most four requests waiting each, every waiting request is a
    well-formed Echo request of acceptable size with a correct checksum, and it
    waits at the worker of its own source, destination and identifier. *)
Theorem icmp_flows_bounded icmp_echo p mtu0 w0 ops :
  new icmp_echo p mtu0 = Ok (Some w0) ->
  icmp_echo = true /\ is_loopback (sa_ip (proxy w0)) = true /\
  flows_wf (foldl (fun w op => step op w) w0 ops).
Proof.
  unfold new, validate_options. destruct icmp_echo; cbn; [|done].
  destruct (echo_endpoint p) as [a|] eqn:He; [|done]. intros [= <-]. split_and!; [done| |].
  - unfold echo_endpoint in He. destruct (_ || _); [done|]. destruct (ep_addr p) as [ad|]; [|done]. cbn in He.
    destruct (match ad with SocketAddress _ => _ | _ => _ end) as [ep|]; [|done]. cbn in He.
    destruct (is_loopback (sa_ip ep)) eqn:Hl; [|done]. by injection He as <-.
  - assert (flows_wf (mkFlows ∅ a mtu0 [])) as Hw.
    { split; cbn; try (intros *; by rewrite lookup_empty); try done. unfold MAX_FLOWS. rewrite map_size_empty. lia. }
    revert Hw. generalize (mkFlows ∅ a mtu0 []) as w. induction ops as [|op ops IH]; intros w Hw; cbn; [done|].
    by apply IH, flows_step_wf.
Qed.
End flows.

(** *** Replies *)

(** RFC 1071: a checksum is sixteen bits, and a message that carries its own
    checksum at an even position has checksum zero. *)
Class ChecksumLaws `{InternetChecksum} := {
  checksum_u16 : forall bs, Forall is_u8 bs -> is_u16 (checksum bs);
  checksum_verifies : forall a b, Forall is_u8 a -> Forall is_u8 b -> Nat.Even (length a) ->
    checksum (a ++ be16 (checksum (a ++ [0; 0] ++ b)) ++ b) = 0;
}.

Section replies.
Context `{CL : ChecksumLaws}.

(** What the pseudo header puts before a packet. *)
Definition pseudo (n : Z) (source destination : IpAddr) : list Z :=
  match source, destination with
  | V6 s, V6 d => octets (V6 s) ++ octets (V6 d) ++ be_bytes 4 n ++ [0; 0; 0; 58]
  | _, _ => []
  end.

Lemma packet_checksum_eq packet source destination :
  packet_checksum packet source destination = checksum (pseudo (len packet) source destination ++ packet).
Proof. done. Qed.

Lemma pseudo_u8 n source destination :
  Forall is_u8 (pseudo n source destination) /\ Nat.Even (length (pseudo n source destination)).
Proof.
  unfold pseudo. destruct source as [s|s], destination as [d|d]; try (split; [constructor|by exists 0%nat]).
  unfold octets. split.
  - rewrite !Forall_app. split_and!; try apply be_bytes_u8. by repeat constructor.
  - rewrite !length_app, !length_be_bytes. by exists 20%nat.
Qed.

(** The reply a worker hands to the stack for a packet. *)
Definition valid_reply (v6 : bool) (p : Packet) (reply : list Z) : Prop :=
  length reply = length (payload p) /\
  nth 0 reply 0 = (if v6 then 129 else 0) /\ nth 1 reply 0 = 0 /\
  drop 4 reply = drop 4 (payload p) /\
  packet_checksum reply (dst_addr p) (src_addr p) = 0.

Lemma with_checksum_valid v6 p response :
  Forall is_u8 response -> (8 <= length response)%nat -> reply_matches v6 (payload p) response = true ->
  valid_reply v6 p (with_checksum p response).
Proof.
  intros Hu Hl Hm. unfold reply_matches in Hm. b2p.
  destruct response as [|k [|c [|x [|y rest]]]]; try (simpl in Hl; lia).
  rewrite !Forall_cons in Hu. destruct Hu as (Hk & Hc & _ & _ & Hrest). cbn [nth drop take length] in *.
  unfold with_checksum. cbn [take drop app]. change (drop 0 rest) with rest in *. set (sum := packet_checksum _ _ _).
  unfold valid_reply. rewrite packet_checksum_eq.
  assert (be16 sum = [(sum / 256) mod 256; sum mod 256]) as Hb by done.
  split_and!.
  - rewrite Hb. simpl in *. lia.
  - done.
  - done.
  - by rewrite Hb.
  - destruct (pseudo_u8 (len (k :: c :: x :: y :: rest)) (dst_addr p) (src_addr p)) as [Hpu [j Hj]].
    set (ps := pseudo _ _ _) in *.
    assert (sum = checksum ((ps ++ [k; c]) ++ [0; 0] ++ rest)) as Hs by by rewrite <- app_assoc.
    change (len (k :: c :: be16 sum ++ rest)) with (len (k :: c :: x :: y :: rest)). fold ps.
    change (k :: c :: be16 sum ++ rest) with ([k; c] ++ be16 sum ++ rest). rewrite app_assoc, Hs.
    apply checksum_verifies; [|done|].
    + apply Forall_app. split; [done|]. by rewrite !Forall_cons, Forall_nil.
    + rewrite length_app. exists (S j). simpl. lia.
Qed.

Lemma exchange_valid v6 p s reply s' :
  Forall is_u8 (received (s_reads s)) -> exchange v6 p s = (Returned (Ok reply), s') ->
  valid_reply v6 p reply /\ Forall is_u8 (received (s_reads s')).
Proof.
  intros Hu. unfold exchange. intros ([] & s1 & Hw & Hk)%task_bind_ok.
  assert (s_reads s1 = s_reads s) as Hs1.
  { revert Hw. unfold write_packet. split_if E; [done|]. destruct (write_vectored _ _) as [[r rs] out].
    by intros [= _ <-]. }
  apply task_bind_ok in Hk as (response & s2 & Hr & Hk). unfold read_packet in Hr.
  assert (forall n s bs s', read_bytes n s = (Returned (Ok bs), s') ->
    received (s_reads s) = bs ++ received (s_reads s') /\ length bs = n) as Hrb.
  { intros n t bs t'. unfold read_bytes. destruct (read_full n (s_reads t)) as [[[b|e|]|] rs] eqn:Ef; try done.
    intros [= <- <-]. by apply read_full_exact, read_exact_async_inv in Ef. }
  apply task_bind_ok in Hr as (prefix & s3 & Hp & Hr). apply Hrb in Hp as [Hp Hpl]. cbv zeta in Hr.
  destruct (_ <? 8) eqn:E8; [done|]. apply Hrb in Hr as [Hr Hrl]. b2p.
  rewrite <- Hs1, Hp, Hr, !Forall_app in Hu. destruct Hu as (_ & Hresp & Hrest).
  destruct (reply_matches v6 (payload p) response) eqn:Em; [|done]. injection Hk as <- <-.
  split; [|done]. apply with_checksum_valid; [done|lia|done].
Qed.

(** The requests among the turns that are still in time. *)
Definition in_time (turns : list Turn) : list Packet :=
  (fun t => request (t_request t)) <$> filter (fun t => t_now t < deadline (t_request t)) turns.

Definition true_replies (v6 : bool) (turns : list Turn) (out : Replies) : Prop :=
  Forall (fun x => valid_reply v6 x.1 x.2) out /\ out.*1 `sublist_of` in_time turns.

Lemma no_replies v6 turns : true_replies v6 turns [].
Proof. split; [constructor|apply sublist_nil_l]. Qed.

Lemma serve_valid v6 turns s out0 r s' out :
  Forall is_u8 (received (s_reads s)) -> serve v6 turns s out0 = (r, s', out) ->
  exists new, out = out0 ++ new /\ true_replies v6 turns new.
Proof.
  revert s out0. induction turns as [|t turns IH]; intros s out0 Hu; cbn [serve].
  { intros [= <- <- <-]. exists []. rewrite app_nil_r. split; [done|apply no_replies]. }
  assert (out = out0 -> exists new, out = out0 ++ new /\ true_replies v6 (t :: turns) new) as Hstop.
  { intros ->. exists []. rewrite app_nil_r. split; [done|apply no_replies]. }
  unfold true_replies, in_time in *. split_if E; b2p.
  { rewrite filter_cons_False by lia. by apply IH. }
  rewrite filter_cons_True in * by lia. cbn [fmap list_fmap] in *.
  destruct (exchange v6 (request (t_request t)) s) as [[[reply|e|]|] s1] eqn:Ex;
    [|by intros [= <- <- <-]; apply Hstop..].
  destruct (t_sent t); [by intros [= <- <- <-]; apply Hstop|].
  destruct (exchange_valid _ _ _ _ _ Hu Ex) as [Hv Hu'].
  intros (new & -> & Hall & Hsub)%IH; [|done].
  exists ((request (t_request t), reply) :: new). rewrite <- app_assoc. split_and!; [done|by constructor|].
  cbn. by apply sublist_skip.
Qed.

Lemma connect_reads target v6 s s' :
  connect target v6 s = (Returned (Ok tt), s') ->
  exists reply, received (s_reads s) = reply ++ received (s_reads s').
Proof.
  unfold connect. intros (req & s1 & H1 & Ec)%task_bind_ok. injection H1 as _ <-.
  apply task_bind_ok in Ec as ([] & s2 & H2 & Ec).
  assert (s_reads s2 = s_reads s) as Hs2.
  { revert H2. unfold write_all. destruct (write_vectored _ _) as [[? ?] ?]. by intros [= _ <-]. }
  apply task_bind_ok in Ec as (reply & s3 & H3 & Ec). revert H3. unfold read_bytes. rewrite Hs2.
  destruct (read_full 12 (s_reads s)) as [[[b|e|]|] rs] eqn:Ef; try done. intros [= <- <-].
  apply read_full_exact, read_exact_async_inv in Ef as [Ef _]. case_bool_decide; [|done].
  injection Ec as <-. by exists b.
Qed.

(** C35. Nothing is injected but true replies: each packet a worker hands to the
    stack answers a request it took before its deadline, has that request's
    length, identifier, sequence number and data, the type of a reply, and a
    checksum the receiver accepts; requests are answered in order, each at
    most once. *)
Theorem icmp_reply_matches target v6 s turns r out :
  Forall is_u8 (received (s_reads s)) ->
  run_flow target v6 (Ok s) turns = (r, out) ->
  Forall (fun x => valid_reply v6 x.1 x.2) out /\ out.*1 `sublist_of` in_time turns.
Proof.
  intros Hu. unfold run_flow.
  destruct (connect target v6 s) as [[[[]|e|]|] s'] eqn:Ec; try (intros [= <- <-]; apply no_replies).
  destruct (connect_reads _ _ _ _ Ec) as [reply Hr]. rewrite Hr, Forall_app in Hu.
  destruct (serve v6 turns s' []) as [[r' s''] out'] eqn:Es. intros [= <- <-].
  destruct (serve_valid _ _ _ _ _ _ _ (proj2 Hu) Es) as (new & -> & Hn). exact Hn.
Qed.
End replies.

(** ** The checksum of RFC 1071, and concrete flows *)

Section examples.
(** The sum of the sixteen-bit words, the last one padded with zero. *)
Fixpoint sum16 (bs : list Z) : Z :=
  match bs with
  | hi :: lo :: bs' => of_be16 hi lo + sum16 bs'
  | [hi] => of_be16 hi 0
  | [] => 0
  end.

(** One's complement: carries are added back until none is left. *)
Definition fold16 (n : Z) : Z := if n =? 0 then 0 else (n - 1) mod 65535 + 1.

Definition rfc1071 : InternetChecksum := {| checksum := fun bs => 65535 - fold16 (sum16 bs) |}.

Lemma sum16_app j a b : length a = (2 * j)%nat -> sum16 (a ++ b) = sum16 a + sum16 b.
Proof.
  revert a. induction j as [|j IH]; intros [|x [|y a]] Hl; try (simpl in Hl; lia); [done|].
  cbn [app sum16]. rewrite IH by (simpl in Hl; lia). lia.
Qed.

Lemma sum16_nonneg bs : Forall is_u8 bs -> 0 <= sum16 bs.
Proof.
  remember (length bs) as n eqn:Hn. revert bs Hn. induction (lt_wf n) as [n _ IH]; intros bs ->.
  destruct bs as [|x [|y bs]]; [done| |]; rewrite !Forall_cons; unfold is_u8; cbn [sum16]; unfold of_be16.
  - lia.
  - intros (? & ? & Hb). specialize (IH (length bs) ltac:(simpl; lia) bs eq_refl Hb). lia.
Qed.

Lemma fold16_range n : 0 <= n -> 0 <= fold16 n <= 65535.
Proof. intros Hn. unfold fold16. split_if E; [lia|]. pose proof (Z.mod_pos_bound (n - 1) 65535). lia. Qed.

Lemma fold16_complement n : 0 <= n -> fold16 (n + (65535 - fold16 n)) = 65535.
Proof.
  intros Hn. unfold fold16 at 2. split_if E; b2p; [by subst|].
  pose proof (Z.mod_pos_bound (n - 1) 65535 ltac:(lia)). pose proof (Z.div_mod (n - 1) 65535 ltac:(lia)) as Hd.
  unfold fold16. replace (n + _) with (65535 + ((n - 1) / 65535) * 65535) by lia.
  assert (0 <= (n - 1) / 65535) by (apply Z.div_pos; lia).
  rewrite (proj2 (Z.eqb_neq _ _)) by lia.
  replace (65535 + (n - 1) / 65535 * 65535 - 1) with (65534 + (n - 1) / 65535 * 65535) by lia.
  by rewrite Z.mod_add.
Qed.

Lemma rfc1071_laws : @ChecksumLaws rfc1071.
Proof.
  constructor.
  - intros bs Hu. pose proof (fold16_range _ (sum16_nonneg bs Hu)). unfold is_u16. cbn. lia.
  - intros a b Ha Hb [j Hj]. cbn [checksum rfc1071].
    rewrite !(sum16_app j a) by done. cbn [app sum16]. change (of_be16 0 0) with 0. rewrite Z.add_0_l.
    pose proof (sum16_nonneg a Ha). pose proof (sum16_nonneg b Hb).
    set (n := sum16 a + sum16 b). set (c := 65535 - fold16 n).
    assert (0 <= fold16 n <= 65535) as Hr by (apply fold16_range; lia).
    assert (sum16 (be16 c ++ b) = c + sum16 b) as ->.
    { rewrite (sum16_app 1) by done. unfold be16. cbn [sum16]. rewrite of_be16_be16 by (unfold is_u16; lia). lia. }
    replace (sum16 a + (c + sum16 b)) with (n + c) by lia. unfold c. rewrite fold16_complement by lia. done.
Qed.

Definition ping : list Z := [8; 0; 247; 252; 0; 1; 0; 2].
Definition pong : list Z := [0; 0; 9; 9; 0; 1; 0; 2].
Definition ping_packet : Packet := mkPacket 1 (ipv4 10 0 0 2) (ipv4 1 1 1 1) ping.

Lemma icmp_frame_roundtrip_witness :
  write_packet ping (mkStream [] [Ok 3%nat; Ok 7%nat] []) = (Returned (Ok tt), mkStream [] [] ([] ++ frame ping)) /\
  exists rs, read_packet (mkStream [Ok (take 5 (frame ping)); Ok (drop 5 (frame ping) ++ [9])] [] []) =
    (Returned (Ok ping), mkStream rs [] []) /\ received rs = [9].
Proof.
  destruct (icmp_frame_roundtrip ping ltac:(done)) as (_ & Hw & Hr). split.
  - apply (Hw (mkStream [] [Ok 3%nat; Ok 7%nat] []) [3%nat; 7%nat] []); [done|repeat constructor|done].
  - apply (Hr (mkStream _ [] [])). reflexivity.
Defined.

Definition local_proxy : EchoProxy := mkEchoProxy PSocks5 false (Some (DomainAddress "[::1]" 1080)).

Lemma icmp_flows_bounded_witness :
  flows_wf (H := rfc1071)
    (foldl (fun w op => step (H := rfc1071) op w) (mkFlows ∅ (mkSA (V6 1) 1080) 1500 [])
       [Dispatch 0 ping_packet None; Dispatch 1 ping_packet None; Take 0]).
Proof.
  apply (icmp_flows_bounded (H := rfc1071) true local_proxy 1500 (mkFlows ∅ (mkSA (V6 1) 1080) 1500 [])).
  by vm_compute.
Defined.

Definition echo_stream : Stream :=
  mkStream [Ok [5; 0; 5; 0; 0; 1; 0; 0; 0; 0; 0; 0]; Ok (frame pong)] [Ok 13%nat; Ok 10%nat] [].

Lemma icmp_reply_matches_witness :
  Forall (fun x => valid_reply (H := rfc1071) false x.1 x.2) [(ping_packet, [0; 0; 255; 252; 0; 1; 0; 2])] /\
  [ping_packet] `sublist_of` in_time [mkTurn (mkRequest ping_packet 100) 5 None].
Proof.
  apply (icmp_reply_matches (CL := rfc1071_laws) "1.1.1.1" false echo_stream
    [mkTurn (mkRequest ping_packet 100) 5 None] (Ok tt)).
  - by repeat constructor.
  - by vm_compute.
Defined.
End examples.
End Icmp.
