(* ===== verification/Direct.v ===== *)
(** * Direct egress (src/src/direct.rs)

    The choice of the physical interface and the sockets pinned to it.  The
    interfaces the system reports, the adapters of Windows and the answers of
    the socket calls are arguments: a socket call is recorded in the history of
    the calls and answered by a function of that history, so every sequence of
    answers is covered. *)

From S2P Require Import Prelude Net ProxyHandler.

Module Direct.

(** ** Interfaces *)

Inductive Os := Windows | Linux | MacOs.

#[export] Instance Os_eq_dec : EqDecision Os.
Proof. solve_decision. Defined.

Record BindInterface := mkBind {
  ipv4_index : Z;
  ipv6_index : Z;
  ipv4_addr : option Z;
  dns_servers : list IpAddr;
  bind_name : string }.

#[export] Instance BindInterface_eq_dec : EqDecision BindInterface.
Proof. solve_decision. Defined.

(** [netdev::Interface]: the fields the sources read and what its methods
    answer. *)
Record Interface := mkInterface {
  index : Z;
  if_name : string;
  friendly_name : option string;
  description : option string;
  if_ipv4 : list Z;
  if_ipv6 : list Z;
  has_gateway : bool;
  is_tunnel : bool;
  is_tun : bool;
  if_loopback : bool;
  is_physical : bool;
  is_up : bool;
  is_oper_up : bool;
  if_dns : list IpAddr }.

(** The rows of [GetAdaptersAddresses]: a socket address with its length, its
    family and the bytes at the place of the address, if it is not null. *)
Record Sockaddr := mkSockaddr { sa_length : Z; sa_family : Z; sin_addr : list Z; sin6_addr : list Z }.

Record Adapter := mkAdapter {
  if_index : Z;
  adapter_name : option string;
  first_dns : list (option Sockaddr);
  ipv6_if_index : Z }.

Definition AF_INET : Z := 2.
Definition AF_INET6 : Z := 23.
Definition sizeof_in : Z := 16.
Definition sizeof_in6 : Z := 28.

(** The walk over the DNS servers of one adapter. *)
Fixpoint adapter_dns (rows : list (option Sockaddr)) : list IpAddr :=
  match rows with
  | [] => []
  | row :: rows' =>
      match row with
      | None => []
      | Some a =>
          if 2 <=? sa_length a then
            if (sa_family a =? AF_INET) && (sizeof_in <=? sa_length a) then [V4 (of_be_bytes (sin_addr a))]
            else if (sa_family a =? AF_INET6) && (sizeof_in6 <=? sa_length a)
                 then [V6 (of_be_bytes (sin6_addr a))]
            else []
          else []
      end ++ adapter_dns rows'
  end.

(** [windows_interface_details]; [size] is the answer of the first call
    ([None]: the buffer overflow it expects), [adapters] that of the second. *)
Definition windows_interface_details (size : option IoError) (adapters : res IoError (list Adapter))
    (iface : Interface) : res IoError (Z * Z * list IpAddr) :=
  match size with
  | Some e => Err e
  | None =>
      l ← adapters;
      match list_find (fun a => (index iface <> 0 /\ if_index a = index iface) \/
                                adapter_name a = Some (if_name iface)) l with
      | Some (_, a) => Ok (if_index a, ipv6_if_index a, adapter_dns (first_dns a))
      | None => Err (mkIo NotFound "network interface `{}` was not found by GetAdaptersAddresses")
      end
  end.

Section choice.
(** [tproxy_config::TUN_IPV4] and [windows_interface_details] as called. *)
Context (TUN_IPV4 : IpAddr) (details : Interface -> res IoError (Z * Z * list IpAddr)) (os : Os).

Definition from_netdev (iface : Interface) : res Error BindInterface :=
  let addr := snd <$> list_find (fun a => is_unspecified (V4 a) = false /\ is_loopback (V4 a) = false)
                        (if_ipv4 iface) in
  '(i4, i6, dns) ← (if bool_decide (os = Windows) then map_err Io (details iface)
                    else Ok (index iface, index iface, if_dns iface));
  if (i4 =? 0) && (i6 =? 0) then Err (EString "network interface `{}` has an invalid index 0")
  else Ok (mkBind i4 i6 addr dns (if_name iface)).

Definition matches_tun_name (iface : Interface) (tun_name : option string) : bool :=
  match tun_name with
  | None => false
  | Some tun =>
      let m c := match c with
                 | Some v => eq_ignore_ascii_case (as_bytes v) (as_bytes tun)
                 | None => false
                 end in
      m (Some (if_name iface)) || m (friendly_name iface) || m (description iface)
  end.

Definition is_unusable_egress (iface : Interface) (tun_name : option string) : bool :=
  let carries_tun_address := existsb (fun a => bool_decide (V4 a = TUN_IPV4)) (if_ipv4 iface) in
  matches_tun_name iface tun_name || carries_tun_address || is_tunnel iface || is_tun iface
  || if_loopback iface.

Definition egress_preference (iface : Interface) : Z * Z * Z :=
  let bit (b : bool) := if b then 1 else 0 in
  (if bool_decide (os = Windows) then 0 else bit (has_gateway iface),
   bit (is_physical iface),
   bit (existsb (fun a => negb (is_unspecified (V4 a)) && negb (is_loopback (V4 a))) (if_ipv4 iface))).

(** The derived order of the triples. *)
Definition preference_le (a b : Z * Z * Z) : bool :=
  let '(a1, a2, a3) := a in
  let '(b1, b2, b3) := b in
  (a1 <? b1) || ((a1 =? b1) && ((a2 <? b2) || ((a2 =? b2) && (a3 <=? b3)))).

(** [Iterator::max_by_key]: the last of the maxima. *)
Definition max_by_key (l : list Interface) : option Interface :=
  foldl (fun acc i =>
    match acc with
    | None => Some i
    | Some best => if preference_le (egress_preference best) (egress_preference i) then Some i else Some best
    end) None l.

(** What the system answers during [detect]: the interfaces at the two calls,
    the default interface, and [physical_default_interface] of
    windows_network_config.rs. *)
Record NetAnswers := mkAnswers {
  interfaces : list Interface;
  interfaces_again : list Interface;
  interfaces_last : list Interface;
  default_interface : option Interface;
  physical_default : option string -> list Z -> option Z }.

Definition detected_default (tun_name : option string) (n : NetAnswers) : option Interface :=
  let usable i := is_unusable_egress i tun_name = false in
  if bool_decide (os = Windows) then
    let candidates := index <$> filter usable (interfaces n) in
    i ← physical_default n tun_name candidates;
    snd <$> list_find (fun iface => index iface = i /\ usable iface) (interfaces_again n)
  else
    i ← default_interface n;
    if is_unusable_egress i tun_name then None else Some i.

Definition fallbacks (tun_name : option string) (l : list Interface) : list Interface :=
  filter (fun i => if_ipv4 i <> [] \/ if_ipv6 i <> [])
    (filter (fun i => (is_up i = true \/ is_oper_up i = true) /\ is_unusable_egress i tun_name = false) l).

(** The interface [detect] chooses, before it is converted. *)
Definition chosen (manual tun_name : option string) (n : NetAnswers) : res Error Interface :=
  match manual with
  | Some wanted =>
      ok_or (EString "--bind-interface `{wanted}` was not found")
        (snd <$> list_find (fun i => if_name i = wanted \/ friendly_name i = Some wanted \/
                                     description i = Some wanted) (interfaces n))
  | None =>
      match detected_default tun_name n with
      | Some i => Ok i
      | None =>
          ok_or (EString "no physical network interface is available for direct relays; every candidate is a tunnel, loopback, or has no address")
            (max_by_key (fallbacks tun_name (interfaces_last n)))
      end
  end.

Definition detect (manual tun_name : option string) (n : NetAnswers) : res Error BindInterface :=
  i ← chosen manual tun_name n; from_netdev i.
End choice.

(** ** Socket calls *)

Inductive Call :=
  | NewSocket (ipv6 stream : bool)
  | BindDevice (name : string)               (* SO_BINDTODEVICE *)
  | BoundIf (ipv6 : bool) (value : Z)        (* IP_BOUND_IF, IPV6_BOUND_IF *)
  | UnicastIf (ipv6 : bool) (value : Z)      (* IP_UNICAST_IF, IPV6_UNICAST_IF *)
  | MulticastV4 (addr : Z)
  | MulticastV6 (idx : Z)
  | OnlyV6
  | Nonblocking
  | BindTo (addr : SocketAddr)
  | ConnectTo (peer : SocketAddr)
  | Wrap                                     (* from_std *)
  | Writable
  | TakeError
  | Ioctl (control : Z)                      (* WSAIoctl *)
  | SendTo (peer : SocketAddr) (bs : list Z) (* send and write_all on the socket of a peer *)
  | RecvFrom (peer : SocketAddr)
  | ReadExact (peer : SocketAddr) (n : nat).

#[export] Instance Call_eq_dec : EqDecision Call.
Proof. solve_decision. Defined.

(** The answer of a call: it completes, with bytes where it reads; it fails; or
    it does not complete. *)
Inductive Reply := Done (bs : list Z) | Fails (e : IoError) | Never.

(** Functions on sockets: the calls made so far are the state. *)
Definition Sock (A : Type) : Type := list Call -> progress (res IoError A) * list Call.

#[export] Instance Sock_ret : MRet Sock := fun _ a h => (Returned (Ok a), h).

#[export] Instance Sock_bind : MBind Sock := fun _ _ k m h =>
  match m h with
  | (Returned (Ok a), h') => k a h'
  | (Returned (Err e), h') => (Returned (Err e), h')
  | (Returned Panic, h') => (Returned Panic, h')
  | (Waiting, h') => (Waiting, h')
  end.

Definition result {A} (r : res IoError A) : Sock A := fun h => (Returned r, h).

(** [tokio::time::timeout]: [None] when the time is over first. *)
Definition timeout {A} (m : Sock A) : Sock (option (res IoError A)) := fun h =>
  match m h with
  | (Returned Panic, h') => (Returned Panic, h')
  | (Returned r, h') => (Returned (Ok (Some r)), h')
  | (Waiting, h') => (Returned (Ok None), h')
  end.

Section sockets.
Context (os : Os) (answer : list Call -> Call -> Reply).
(** Whether an error is [EINPROGRESS]. *)
Context (einprogress : IoError -> bool).

Definition sys (c : Call) : Sock (list Z) := fun h =>
  (match answer h c with
   | Done bs => Returned (Ok bs)
   | Fails e => Returned (Err e)
   | Never => Waiting
   end, h ++ [c]).

(** [u32::to_be] on a little-endian machine. *)
Definition to_be32 (n : Z) : Z := of_be_bytes (rev (be_bytes 4 n)).

Definition connect_in_progress (e : IoError) : bool :=
  bool_decide (io_kind e = WouldBlock) || (negb (bool_decide (os = Windows)) && einprogress e).

Definition no_index (ipv6 : bool) : IoError :=
  mkIo AddrNotAvailable (if ipv6 then "interface `{}` has no IPv6 index" else "interface `{}` has no IPv4 index").

(** The option that pins a socket of the family to the interface. *)
Definition pin_call (ipv6 : bool) (iface : BindInterface) : Call :=
  match os with
  | Linux => BindDevice (bind_name iface)
  | MacOs => BoundIf ipv6 (if ipv6 then ipv6_index iface else ipv4_index iface)
  | Windows => UnicastIf ipv6 (if ipv6 then ipv6_index iface else to_be32 (ipv4_index iface))
  end.

Definition apply_device_bind (peer : SocketAddr) (iface : BindInterface) : Sock unit :=
  let ipv6 := sa_is_ipv6 peer in
  let idx := if ipv6 then ipv6_index iface else ipv4_index iface in
  if negb (bool_decide (os = Linux)) && (idx =? 0) then result (Err (no_index ipv6))
  else sys (pin_call ipv6 iface);; mret tt.

Definition connect_tcp_bound (peer : SocketAddr) (iface : BindInterface) : Sock unit :=
  sys (NewSocket (sa_is_ipv6 peer) true);;
  apply_device_bind peer iface;;
  sys Nonblocking;;
  (fun h => match sys (ConnectTo peer) h with
            | (Returned (Err e), h') =>
                if connect_in_progress e then (Returned (Ok tt), h') else (Returned (Err e), h')
            | (Returned (Ok _), h') => (Returned (Ok tt), h')
            | (Returned Panic, h') => (Returned Panic, h')
            | (Waiting, h') => (Waiting, h')
            end);;
  sys Wrap;;
  sys Writable;;
  sys TakeError;;
  mret tt.

(** The interface of multicast datagrams. *)
Definition multicast_if (peer : SocketAddr) (iface : BindInterface) : Sock unit :=
  if is_multicast (sa_ip peer) then
    match sa_ip peer with
    | V4 _ =>
        a ← result (ok_or (mkIo AddrNotAvailable "interface `{}` has no IPv4 address for multicast egress")
                      (ipv4_addr iface));
        sys (MulticastV4 a);; mret tt
    | V6 _ =>
        if ipv6_index iface =? 0 then
          result (Err (mkIo AddrNotAvailable "interface `{}` has no IPv6 index for multicast egress"))
        else sys (MulticastV6 (ipv6_index iface));; mret tt
    end
  else mret tt.

Definition unspecified (ipv6 : bool) : SocketAddr := mkSA (if ipv6 then V6 0 else V4 0) 0.

Definition bind_udp_bound (peer : SocketAddr) (iface : BindInterface) : Sock unit :=
  sys (NewSocket (sa_is_ipv6 peer) false);;
  apply_device_bind peer iface;;
  multicast_if peer iface;;
  sys (BindTo (unspecified (sa_is_ipv6 peer)));;
  sys (ConnectTo peer);;
  sys Nonblocking;;
  sys Wrap;;
  mret tt.

Definition bind_udp_unconnected (ipv6 : bool) (iface : BindInterface) : Sock unit :=
  sys (NewSocket ipv6 false);;
  (if ipv6 then sys OnlyV6;; sys (MulticastV6 (ipv6_index iface));; mret tt
   else match ipv4_addr iface with
        | Some a => sys (MulticastV4 a);; mret tt
        | None => mret tt
        end);;
  apply_device_bind (unspecified ipv6) iface;;
  sys (BindTo (unspecified ipv6));;
  sys Nonblocking;;
  sys Wrap;;
  mret tt.
End sockets.

(** ** Properties *)

(** *** A logic for functions on sockets: [E] holds of the history when the
    call fails or does not complete *)

Definition triple {A} (P : list Call -> Prop) (m : Sock A) (Q : A -> list Call -> Prop)
    (E : list Call -> Prop) : Prop :=
  forall h, P h ->
    match m h with
    | (Returned (Ok a), h') => Q a h'
    | (Returned Panic, _) => False
    | (_, h') => E h'
    end.

Lemma triple_ret {A} (a : A) (Q : A -> list Call -> Prop) E : triple (Q a) (mret a) Q E.
Proof. by intros h. Qed.

Lemma triple_bind {A B} P Q R E (m : Sock A) (k : A -> Sock B) :
  triple P m Q E -> (forall a, triple (Q a) (k a) R E) -> triple P (m ≫= k) R E.
Proof.
  intros Hm Hk h HP. specialize (Hm h HP). unfold mbind, Sock_bind.
  destruct (m h) as [[[a|e|]|] h']; [by apply Hk|done..].
Qed.

Lemma triple_weaken {A} (P P' : list Call -> Prop) (Q Q' : A -> list Call -> Prop) (E E' : list Call -> Prop) m :
  triple P m Q E -> (forall h, P' h -> P h) -> (forall a h, Q a h -> Q' a h) -> (forall h, E h -> E' h) ->
  triple P' m Q' E'.
Proof.
  intros Hm HP HQ HE h Hp. specialize (Hm h (HP h Hp)). destruct (m h) as [[[a|e|]|] h']; auto.
Qed.

Lemma triple_result {A} P (r : res IoError A) Q E :
  r <> Panic -> (forall a h, r = Ok a -> P h -> Q a h) -> (forall h, P h -> E h) ->
  triple P (result r) Q E.
Proof. intros Hp HQ HE h Hh. destruct r as [a|e|]; [by apply HQ|by apply HE|done]. Qed.

Lemma triple_timeout {A} P (m : Sock A) Q (E : list Call -> Prop) :
  triple P m Q E ->
  triple P (timeout m) (fun o h => match o with Some (Ok a) => Q a h | _ => E h end) (fun _ => False).
Proof. intros Hm h HP. specialize (Hm h HP). unfold timeout. by destruct (m h) as [[[a|e|]|] h']. Qed.

(** *** Sockets leave through the interface *)

Section pinned.
Context (os : Os) (answer : list Call -> Call -> Reply) (einprogress : IoError -> bool).
Context (iface : BindInterface) (allowed : SocketAddr -> bool).

(** The socket in use: its family and whether it is pinned. *)
Abbreviation Pin := (bool * bool)%type.

(** What one call does to it, by its answer; a call that would let an unpinned
    socket reach the network, or any socket reach a peer that is not allowed,
    has no successor. *)
Definition track (r : Reply) (st : Pin) (c : Call) : option Pin :=
  let '(v6, pinned) := st in
  match c with
  | NewSocket v6' _ => Some (v6', false)
  | ConnectTo peer | SendTo peer _ | RecvFrom peer | ReadExact peer _ =>
      if pinned && allowed peer && Bool.eqb (sa_is_ipv6 peer) v6 then Some st else None
  | BindTo _ => if pinned then Some st else None
  | _ => Some (v6, pinned || (bool_decide (c = pin_call os v6 iface) &&
                              match r with Done _ => true | _ => false end))
  end.

Fixpoint tracks_rev (r : list Call) : option Pin :=
  match r with
  | [] => Some (false, false)
  | c :: r' => tracks_rev r' ≫= fun st => track (answer (rev r') c) st c
  end.

Definition tracks (h : list Call) : option Pin := tracks_rev (rev h).

Definition pinned_history (h : list Call) : Prop := tracks h <> None.

Lemma tracks_snoc h c : tracks (h ++ [c]) = tracks h ≫= fun st => track (answer h c) st c.
Proof. unfold tracks. rewrite rev_app_distr. simpl. by rewrite rev_involutive. Qed.

Definition at_pin (st : Pin) (h : list Call) : Prop := tracks h = Some st.

Lemma at_pin_history st h : at_pin st h -> pinned_history h.
Proof. unfold at_pin, pinned_history. by intros ->. Qed.

(** A call that completes leads to [st'], and one that does not is no escape. *)
Definition leads (st : Pin) (c : Call) (st' : Pin) : Prop :=
  (forall bs, track (Done bs) st c = Some st') /\ (forall r, track r st c <> None).

Lemma triple_sys st st' c :
  leads st c st' -> triple (at_pin st) (sys answer c) (fun _ => at_pin st') pinned_history.
Proof.
  intros [Hd Hn] h Hh. unfold sys, at_pin, pinned_history in *.
  pose proof (Hn (answer h c)) as Hr.
  destruct (answer h c) eqn:Ea; rewrite tracks_snoc, Hh, Ea; [apply Hd|done|done].
Qed.

Lemma triple_call st st' c {B} (k : Sock B) Q :
  leads st c st' -> triple (at_pin st') k Q pinned_history ->
  triple (at_pin st) (sys answer c;; k) Q pinned_history.
Proof. intros Hc Hk. eapply triple_bind; [by apply triple_sys|by intros ?]. Qed.

Lemma triple_done {A} st (a : A) : triple (at_pin st) (mret a) (fun _ => at_pin st) pinned_history.
Proof. by intros h. Qed.

Lemma triple_err {A} st (e : IoError) (Q : A -> list Call -> Prop) :
  triple (at_pin st) (result (Err e)) Q pinned_history.
Proof. apply triple_result; [done|done|]. intros h. by apply at_pin_history. Qed.

Lemma apply_device_bind_pins peer p :
  triple (at_pin (sa_is_ipv6 peer, p)) (apply_device_bind os answer peer iface)
    (fun _ => at_pin (sa_is_ipv6 peer, true)) pinned_history.
Proof.
  unfold apply_device_bind. split_if E; [apply triple_err|].
  apply (triple_call _ (sa_is_ipv6 peer, true)); [|apply triple_done].
  unfold leads, track, pin_call.
  destruct os; (split; [intros bs; by rewrite bool_decide_eq_true_2, orb_true_r|done]).
Qed.

(** Calls that do not touch the network keep the state of the socket. *)
Lemma leads_plain v6 c :
  match c with Nonblocking | Wrap | Writable | TakeError | Ioctl _ | OnlyV6 | MulticastV4 _ | MulticastV6 _ => True
  | _ => False end ->
  forall p, leads (v6, p) c (v6, p).
Proof.
  intros Hc p. assert (c <> pin_call os v6 iface) as Hne by (destruct c, os; done).
  destruct c; try done; (split; [|done]); intros bs; simpl; by rewrite bool_decide_eq_false_2, orb_false_r.
Qed.

Lemma leads_new st v6 stream : leads st (NewSocket v6 stream) (v6, false).
Proof. by destruct st. Qed.

Lemma leads_bind v6 a : leads (v6, true) (BindTo a) (v6, true).
Proof. done. Qed.

Lemma leads_peer c peer :
  allowed peer = true ->
  match c with ConnectTo p | SendTo p _ | RecvFrom p | ReadExact p _ => p = peer | _ => False end ->
  leads (sa_is_ipv6 peer, true) c (sa_is_ipv6 peer, true).
Proof. intros Ha Hc. destruct c; try done; subst; split; intros; simpl; by rewrite Ha, Bool.eqb_reflx. Qed.

(** A step of a proof over a sequence of calls. *)
Ltac next := eapply triple_call; [first [apply leads_new|apply leads_bind|by apply leads_plain|by apply leads_peer]|].

Lemma multicast_if_pinned peer st :
  st = (sa_is_ipv6 peer, true) ->
  triple (at_pin st) (multicast_if answer peer iface) (fun _ => at_pin st) pinned_history.
Proof.
  intros ->. unfold multicast_if. split_if E; [|apply triple_done]. destruct (sa_ip peer).
  - destruct (ipv4_addr iface); [next; apply triple_done|apply triple_err].
  - split_if E2; [apply triple_err|]. next. apply triple_done.
Qed.

Lemma bind_udp_bound_pinned st peer :
  allowed peer = true ->
  triple (at_pin st) (bind_udp_bound os answer peer iface) (fun _ => at_pin (sa_is_ipv6 peer, true))
    pinned_history.
Proof.
  intros Ha. unfold bind_udp_bound. next.
  eapply triple_bind; [apply apply_device_bind_pins|intros []].
  eapply triple_bind; [by apply multicast_if_pinned|intros []].
  next. next. next. next. apply triple_done.
Qed.

Lemma connect_tcp_bound_pinned st peer :
  allowed peer = true ->
  triple (at_pin st) (connect_tcp_bound os answer einprogress peer iface)
    (fun _ => at_pin (sa_is_ipv6 peer, true)) pinned_history.
Proof.
  intros Ha. unfold connect_tcp_bound. next.
  eapply triple_bind; [apply apply_device_bind_pins|intros []]. next.
  eapply (triple_bind _ (fun _ => at_pin (sa_is_ipv6 peer, true))); [|intros []; next; next; next; apply triple_done].
  assert (leads (sa_is_ipv6 peer, true) (ConnectTo peer) (sa_is_ipv6 peer, true)) as [Hd Hn] by by apply leads_peer.
  intros h Hh. unfold sys, at_pin, pinned_history in *.
  assert (tracks (h ++ [ConnectTo peer]) = Some (sa_is_ipv6 peer, true)) as Ht.
  { rewrite tracks_snoc, Hh. simpl. by rewrite Ha, Bool.eqb_reflx. }
  destruct (answer h (ConnectTo peer)); [done| |by rewrite Ht].
  destruct (connect_in_progress _ _ _); by rewrite Ht.
Qed.

Lemma bind_udp_unconnected_pinned st v6 :
  triple (at_pin st) (bind_udp_unconnected os answer v6 iface) (fun _ => at_pin (v6, true)) pinned_history.
Proof.
  unfold bind_udp_unconnected. next.
  eapply (triple_bind _ (fun _ => at_pin (v6, false))).
  { destruct v6; [next; next; apply triple_done|].
    destruct (ipv4_addr iface); [next|]; apply triple_done. }
  intros []. eapply (triple_bind _ (fun _ => at_pin (v6, true))).
  { destruct v6; [apply (apply_device_bind_pins (unspecified true) false)|
                    apply (apply_device_bind_pins (unspecified false) false)]. }
  intros []. next. next. next. apply triple_done.
Qed.
End pinned.

Lemma triple_nil {A} os answer iface allowed (m : Sock A) Q :
  triple (at_pin os answer iface allowed (false, false)) m Q (pinned_history os answer iface allowed) ->
  match m [] with
  | (Returned (Ok a), h) => Q a h
  | (Returned Panic, _) => False
  | (_, h) => pinned_history os answer iface allowed h
  end.
Proof. intros Hm. by apply Hm. Qed.

(** C30. No direct socket reaches the network before the interface's option has been
    set on it: whatever the system answers, and however far the call comes, the
    calls that bind, connect or transfer follow a successful pinning of the
    same socket for its family, and go to the requested peer only. *)
Theorem direct_sockets_pinned os answer einprogress iface peer v6 :
  let only := fun a => bool_decide (a = peer) in
  let runs {A} (m : Sock A) allowed family :=
    match m [] with
    | (Returned (Ok _), h) => at_pin os answer iface allowed (family, true) h
    | (Returned Panic, _) => False
    | (_, h) => pinned_history os answer iface allowed h
    end in
  runs (connect_tcp_bound os answer einprogress peer iface) only (sa_is_ipv6 peer) /\
  runs (bind_udp_bound os answer peer iface) only (sa_is_ipv6 peer) /\
  runs (bind_udp_unconnected os answer v6 iface) (fun _ => false) v6.
Proof.
  cbv zeta. split_and!; apply triple_nil.
  - apply connect_tcp_bound_pinned. by apply bool_decide_eq_true_2.
  - apply bind_udp_bound_pinned. by apply bool_decide_eq_true_2.
  - apply bind_udp_unconnected_pinned.
Qed.

(** *** The chosen interface *)

Section detected.
Context (TUN_IPV4 : IpAddr) (details : Interface -> res IoError (Z * Z * list IpAddr)) (os : Os).

Lemma preference_le_refl a : preference_le a a = true.
Proof. destruct a as [[a b] c]. simpl. rewrite !Z.eqb_refl, Z.leb_refl. simpl. by rewrite !orb_true_r. Qed.

Lemma preference_le_trans a b c :
  preference_le a b = true -> preference_le b c = true -> preference_le a c = true.
Proof.
  destruct a as [[a1 a2] a3], b as [[b1 b2] b3], c as [[c1 c2] c3]. unfold preference_le.
  rewrite !orb_true_iff, !andb_true_iff, !orb_true_iff, !andb_true_iff, !Z.ltb_lt, !Z.eqb_eq, !Z.leb_le. lia.
Qed.

Lemma preference_le_total a b : preference_le a b = true \/ preference_le b a = true.
Proof.
  destruct a as [[a1 a2] a3], b as [[b1 b2] b3]. unfold preference_le.
  rewrite !orb_true_iff, !andb_true_iff, !orb_true_iff, !andb_true_iff, !Z.ltb_lt, !Z.eqb_eq, !Z.leb_le. lia.
Qed.

(** [max_by_key] finds a maximum of any list that has an element. *)
Lemma max_by_key_spec l :
  match max_by_key os l with
  | None => l = []
  | Some i => i ∈ l /\ forall j, j ∈ l -> preference_le (egress_preference os j) (egress_preference os i) = true
  end.
Proof.
  induction l as [|x l IH] using rev_ind; [done|]. unfold max_by_key in *. rewrite foldl_app. cbn [foldl].
  destruct (foldl _ None l) as [best|]; [|subst; split; [by left|]].
  - destruct IH as [Hin Hmax].
    split_if E; (split; [set_solver|]); intros j Hj; apply elem_of_app in Hj as [Hj|Hj%list_elem_of_singleton].
    + by eapply preference_le_trans; [apply Hmax|].
    + subst. apply preference_le_refl.
    + by apply Hmax.
    + subst. destruct (preference_le_total (egress_preference os best) (egress_preference os x)); [congruence|done].
  - intros j ->%list_elem_of_singleton. apply preference_le_refl.
Qed.

(** Without a manual choice, the interface is never the session's own TUN
    device, a tunnel or a loopback device; it is the system's default when that
    is usable, and otherwise a best one of the usable interfaces that are up
    and have an address; the choice fails only when there is none. *)
Theorem direct_egress_usable tun_name n :
  match chosen TUN_IPV4 os None tun_name n with
  | Ok i =>
      is_unusable_egress TUN_IPV4 i tun_name = false /\
      (detected_default TUN_IPV4 os tun_name n = Some i \/
       detected_default TUN_IPV4 os tun_name n = None /\ i ∈ interfaces_last n /\
       (is_up i = true \/ is_oper_up i = true) /\ (if_ipv4 i <> [] \/ if_ipv6 i <> []) /\
       forall j, j ∈ fallbacks TUN_IPV4 tun_name (interfaces_last n) ->
         preference_le (egress_preference os j) (egress_preference os i) = true)
  | Err _ => detected_default TUN_IPV4 os tun_name n = None /\
      forall j, j ∈ interfaces_last n -> (is_up j = true \/ is_oper_up j = true) ->
        (if_ipv4 j <> [] \/ if_ipv6 j <> []) -> is_unusable_egress TUN_IPV4 j tun_name = true
  | Panic => False
  end.
Proof.
  unfold chosen. destruct (detected_default TUN_IPV4 os tun_name n) as [i|] eqn:Ed.
  - split; [|by left]. unfold detected_default in Ed. case_bool_decide.
    + destruct (physical_default n _ _) as [k|]; [|done]. simpl in Ed.
      destruct (list_find _ _) as [[k' j]|] eqn:Ef; [|done]. injection Ed as <-.
      apply list_find_Some in Ef. tauto.
    + destruct (default_interface n) as [j|]; [|done]. simpl in Ed.
      destruct (is_unusable_egress TUN_IPV4 j tun_name) eqn:E; [done|]. by injection Ed as <-.
  - pose proof (max_by_key_spec (fallbacks TUN_IPV4 tun_name (interfaces_last n))) as Hm.
    destruct (max_by_key os _) as [i|]; simpl.
    + destruct Hm as [Hin Hmax]. pose proof Hin as Hi. unfold fallbacks in Hi.
      rewrite !list_elem_of_filter in Hi. destruct Hi as (Ha & (Hu & He) & Hl).
      split; [done|]. right. split_and!; done.
    + split; [done|]. intros j Hj Hup Hadr. apply not_false_iff_true. intros Hok.
      assert (j ∈ fallbacks TUN_IPV4 tun_name (interfaces_last n)) as Hc; [|by rewrite Hm in Hc; apply not_elem_of_nil in Hc].
      unfold fallbacks. rewrite !list_elem_of_filter. done.
Qed.
End detected.
End Direct.
