(* ===== verification/DirectDns.v ===== *)
(** * The physical resolver (src/src/direct.rs, second part)

    DNS queries through sockets pinned to the physical interface: the list of
    servers, the attempts over UDP and TCP, the chain of aliases.  The messages
    are those of Dns.v; the answers of the network are those of Direct.v. *)

From S2P Require Import Prelude Net ProxyHandler Dns DnsExample Direct.

Module DirectDns.
Import Dns Direct.

Definition NXDomain : Z := 3.
Definition DNS_UDP_ATTEMPTS : nat := 2.

Definition PREFERRED_DNS_SERVERS : list IpAddr :=
  [ipv4 223 5 5 5; ipv4 119 29 29 29; ipv4 223 6 6 6].

Definition is_usable_dns_server (a : IpAddr) : bool :=
  if is_unspecified a || is_loopback a || is_multicast a then false
  else match a with
       | V4 n => negb (n =? 4294967295)
       | V6 n => negb (is_unicast_link_local n)
       end.

(** Usable servers in order, each once. *)
Definition add_server (l : list IpAddr) (a : IpAddr) : list IpAddr :=
  if bool_decide (a ∈ l) then l else l ++ [a].

Definition direct_dns_servers (configured_dns : IpAddr) (iface : BindInterface) : list IpAddr :=
  foldl add_server []
    (List.filter is_usable_dns_server (PREFERRED_DNS_SERVERS ++ dns_servers iface ++ [configured_dns])).

Section resolver.
Context `{DL : DnsLib} (name_from_str : string -> res string Name).
Context (os : Os) (answer : list Call -> Call -> Reply) (einprogress : IoError -> bool).
Context (iface : BindInterface).

Definition parse_dns_response (response : list Z) (request_id : Z) (expected : Query) : res IoError Message :=
  m ← map_err io_other (from_vec response);
  _ ← map_err (mkIo InvalidData) (validate_dns_response m request_id expected);
  Ok m.

Definition query_dns_udp (request : list Z) (request_id : Z) (expected : Query) (server : SocketAddr)
    : Sock Message :=
  bind_udp_bound os answer server iface;;
  sys answer (SendTo server request);;
  bs ← sys answer (RecvFrom server);
  result (parse_dns_response (take 4096 bs) request_id expected).

(** [read_exact] on the stream to the server. *)
Definition read_n (server : SocketAddr) (n : nat) : Sock (list Z) :=
  bs ← sys answer (ReadExact server n);
  result (if (length bs =? n)%nat then Ok bs else Err (io_of_kind UnexpectedEof)).

Definition query_dns_tcp (request : list Z) (request_id : Z) (expected : Query) (server : SocketAddr)
    : Sock Message :=
  if u16_max <? len request then result (Err (mkIo InvalidInput "DNS request is too large"))
  else
    connect_tcp_bound os answer einprogress server iface;;
    sys answer (SendTo server (be16 (len request)));;
    sys answer (SendTo server request);;
    prefix ← read_n server 2;
    let response_len := match prefix with hi :: lo :: _ => Z.to_nat (of_be16 hi lo) | _ => 0%nat end in
    if (response_len =? 0)%nat
    then result (Err (mkIo InvalidData "invalid TCP DNS response length {response_len}"))
    else
      response ← read_n server response_len;
      result (parse_dns_response response request_id expected).

Definition accepted (m : Message) : bool := (response_code m =? NoError) || (response_code m =? NXDomain).

(** The attempts over UDP at one server. *)
Inductive Verdict := Answered (m : Message) | NextServer (e : IoError) | TryTcp.

Fixpoint udp_attempts (n : nat) (request : list Z) (request_id : Z) (expected : Query) (server : SocketAddr)
    : Sock Verdict :=
  match n with
  | O => mret TryTcp
  | S n' =>
      r ← timeout (query_dns_udp request request_id expected server);
      match r with
      | Some (Ok m) =>
          if truncation m then mret TryTcp
          else if accepted m then mret (Answered m)
          else mret (NextServer (io_other "UDP DNS query to {dns_server} failed with {:?}"))
      | Some _ | None => udp_attempts n' request request_id expected server
      end
  end.

Definition exhausted : IoError :=
  mkIo TimedOut "direct DNS query for `{domain}` through physical resolver(s) {} failed: {detail}".

(** [query_dns_servers]; the last error is only part of the final text. *)
Fixpoint query_dns_servers (request : list Z) (request_id : Z) (expected : Query) (servers : list SocketAddr)
    : Sock Message :=
  match servers with
  | [] => result (Err exhausted)
  | server :: rest =>
      v ← udp_attempts DNS_UDP_ATTEMPTS request request_id expected server;
      match v with
      | Answered m => mret m
      | NextServer _ => query_dns_servers request request_id expected rest
      | TryTcp =>
          r ← timeout (query_dns_tcp request request_id expected server);
          match r with
          | Some (Ok m) =>
              if accepted m then mret m else query_dns_servers request request_id expected rest
          | Some _ | None => query_dns_servers request request_id expected rest
          end
      end
  end.

Definition query_dns_bound (request : list Z) (request_id : Z) (expected : Query) (configured_dns : IpAddr)
    : Sock Message :=
  query_dns_servers request request_id expected
    ((fun ip => mkSA ip 53) <$> direct_dns_servers configured_dns iface).

(** [query_bound]. *)
Definition query_bound (request : list Z) (configured_dns : IpAddr) : Sock (list Z) :=
  m ← result (map_err io_other (from_vec request));
  q ← result (map_err io_other (validate_dns_query m));
  response ← query_dns_bound request (id m) q configured_dns;
  result (map_err io_other (to_vec response)).

(** The request [resolve_domain_bound] sends. *)
Definition question (current : Name) (want_ipv6 : bool) : Query :=
  mkQuery current (if want_ipv6 then TypeAAAA else TypeA) ClassIN.

Definition request_message (request_id : Z) (q : Query) : Message :=
  mkMessage request_id Query_ OpCodeQuery false false true false false false NoError [q] [] [] [] None None.

(** The loop over aliases.  [next] is the value of [NEXT_DNS_QUERY_ID]. *)
Fixpoint resolve_loop (depth : nat) (current : string) (port : Z) (dns_server : IpAddr) (want_ipv6 : bool)
    (next : Z) : Sock SocketAddr :=
  match depth with
  | O => result (Err (mkIo InvalidData "direct DNS resolution for `{domain}` exceeded the CNAME limit"))
  | S depth' =>
      name ← result (map_err (mkIo InvalidInput) (name_from_str current));
      let query := question name want_ipv6 in
      request ← result (map_err io_other (to_vec (request_message next query)));
      response ← query_dns_bound request next query dns_server;
      if negb (response_code response =? NoError)
      then result (Err (io_other "direct DNS query for `{current}` failed with {:?}"))
      else
        l ← result (map_err (mkIo NotFound) (extract_address_or_cname response query));
        match l with
        | Address ip => mret (mkSA ip port)
        | Cname n => resolve_loop depth' n port dns_server want_ipv6 (wrap16 (next + 1))
        end
  end.

Definition resolve_domain_bound (domain : string) (port : Z) (dns_server : IpAddr) (want_ipv6 : bool)
    (next : Z) : Sock SocketAddr :=
  resolve_loop MAX_CNAME_DEPTH domain port dns_server want_ipv6 next.
End resolver.

(** ** Properties *)

(** *** The list of servers *)

Lemma add_server_spec l a :
  NoDup l -> NoDup (add_server l a) /\ forall x, x ∈ add_server l a <-> x ∈ l \/ x = a.
Proof.
  intros Hl. unfold add_server. case_bool_decide as Hin.
  - split; [done|]. intros x. split; [by left|]. by intros [?| ->].
  - split.
    + apply NoDup_app. split_and!; [done| |apply NoDup_singleton]. by intros x Hx ->%list_elem_of_singleton.
    + intros x. by rewrite elem_of_app, list_elem_of_singleton.
Qed.

Lemma foldl_add_server l acc :
  NoDup acc ->
  NoDup (foldl add_server acc l) /\ forall x, x ∈ foldl add_server acc l <-> x ∈ acc \/ x ∈ l.
Proof.
  revert acc. induction l as [|a l IH]; intros acc Hacc; cbn [foldl].
  { split; [done|]. intros x. split; [by left|]. by intros [?|?%not_elem_of_nil]. }
  destruct (add_server_spec acc a Hacc) as [Hn Hx]. destruct (IH _ Hn) as [Hn' Hx'].
  split; [done|]. intros x. rewrite Hx', Hx, elem_of_cons. tauto.
Qed.

Lemma direct_dns_servers_spec configured iface :
  NoDup (direct_dns_servers configured iface) /\
  forall a, a ∈ direct_dns_servers configured iface <->
    is_usable_dns_server a = true /\
    (a ∈ PREFERRED_DNS_SERVERS \/ a ∈ dns_servers iface \/ a = configured).
Proof.
  unfold direct_dns_servers.
  destruct (foldl_add_server (List.filter is_usable_dns_server
    (PREFERRED_DNS_SERVERS ++ dns_servers iface ++ [configured])) [] (NoDup_nil_2)) as [Hn Hx].
  split; [done|]. intros a. rewrite Hx, (list_elem_of_In (List.filter _ _)), filter_In, <- list_elem_of_In.
  rewrite !elem_of_app, list_elem_of_singleton. pose proof (not_elem_of_nil a). tauto.
Qed.

(** *** Queries *)

Section queries.
Context `{LW : DnsLibLaws} (name_from_str : string -> res string Name).
Context (os : Os) (answer : list Call -> Call -> Reply) (einprogress : IoError -> bool).
Context (iface : BindInterface) (allowed : SocketAddr -> bool).

Local Abbreviation at_pin := (at_pin os answer iface allowed).
Local Abbreviation pinned := (pinned_history os answer iface allowed).

(** A result that is a function of what was read. *)
Lemma triple_pure {A} st (r : res IoError A) :
  r <> Panic -> triple (at_pin st) (result r) (fun a h => r = Ok a /\ pinned h) pinned.
Proof.
  intros Hr. apply triple_result; [done| |]; [intros a h -> Hh; split; [done|]|intros h Hh];
    by eapply at_pin_history.
Qed.

Lemma triple_any {A} (m : Sock A) Q E :
  (forall st, triple (at_pin st) m Q E) -> triple pinned m Q E.
Proof.
  intros Hm h Hh. unfold pinned_history in Hh. destruct (tracks _ _ _ _ h) as [st|] eqn:E1; [|done].
  by apply (Hm st).
Qed.

(** A decoded answer that belongs to the question. *)
Definition valid_answer (request_id : Z) (expected : Query) (m : Message) : Prop :=
  validate_dns_response m request_id expected = Ok tt /\ exists bs, from_vec bs = Ok m.

Lemma validate_total m i q : validate_dns_response m i q <> Panic.
Proof. unfold validate_dns_response. by repeat case_match. Qed.

Lemma parse_total bs i q : parse_dns_response bs i q <> Panic.
Proof.
  unfold parse_dns_response. pose proof (from_vec_total bs). destruct (from_vec bs) as [m|e|]; simpl; [|done|done].
  pose proof (validate_total m i q). by destruct (validate_dns_response m i q).
Qed.

Lemma parse_valid bs i q m : parse_dns_response bs i q = Ok m -> valid_answer i q m.
Proof.
  unfold parse_dns_response, valid_answer. destruct (from_vec bs) as [m'|e|] eqn:Hm; simpl; [|done|done].
  destruct (validate_dns_response m' i q) as [[]|e|] eqn:E; simpl; [|done|done]. intros [= ->].
  split; [done|]. by exists bs.
Qed.

Local Ltac peer_call := eapply triple_bind; [by apply triple_sys, leads_peer|intros ?].

Lemma query_dns_udp_spec request i q server :
  allowed server = true ->
  triple pinned (query_dns_udp os answer iface request i q server)
    (fun m h => valid_answer i q m /\ pinned h) pinned.
Proof.
  intros Ha. apply triple_any. intros st. unfold query_dns_udp.
  eapply triple_bind; [by apply bind_udp_bound_pinned|intros []]. peer_call. peer_call.
  eapply triple_weaken; [apply triple_pure, parse_total|done| |done].
  intros m h [Hm Hh]. split; [by eapply parse_valid|done].
Qed.

Lemma read_n_spec server n :
  allowed server = true ->
  triple (at_pin (sa_is_ipv6 server, true)) (read_n answer server n)
    (fun _ => at_pin (sa_is_ipv6 server, true)) pinned.
Proof.
  intros Ha. unfold read_n. peer_call. split_if E.
  - by apply triple_result; [|intros ? ? _|intros h; apply at_pin_history].
  - apply triple_err.
Qed.

Lemma query_dns_tcp_spec request i q server :
  allowed server = true ->
  triple pinned (query_dns_tcp os answer einprogress iface request i q server)
    (fun m h => valid_answer i q m /\ pinned h) pinned.
Proof.
  intros Ha. apply triple_any. intros st. unfold query_dns_tcp. split_if E; [apply triple_err|].
  eapply triple_bind; [by apply connect_tcp_bound_pinned|intros []]. peer_call. peer_call.
  eapply triple_bind; [by apply read_n_spec|intros p]. cbv zeta. split_if E2; [apply triple_err|].
  eapply triple_bind; [by apply read_n_spec|intros bs].
  eapply triple_weaken; [apply triple_pure, parse_total|done| |done].
  intros m h [Hm Hh]. split; [by eapply parse_valid|done].
Qed.

Definition good_answer (i : Z) (q : Query) (m : Message) : Prop :=
  valid_answer i q m /\ accepted m = true.

(** A call that ends in a failure only with the sockets still pinned, and never
    waits. *)
Definition settles {A} (m : Sock A) : Prop := forall h, exists r, fst (m h) = Returned r.

Lemma settles_bind {A B} (m : Sock A) (k : A -> Sock B) :
  settles m -> (forall a, settles (k a)) -> settles (m ≫= k).
Proof.
  intros Hm Hk h. unfold mbind, Sock_bind. destruct (Hm h) as [r Hr].
  destruct (m h) as [p h']. simpl in Hr. subst. destruct r as [a|e|]; [apply Hk|by eexists|by eexists].
Qed.

Lemma settles_timeout {A} (m : Sock A) : settles (timeout m).
Proof. intros h. unfold timeout. destruct (m h) as [[[]|] h']; by eexists. Qed.

Lemma settles_result {A} (r : res IoError A) : settles (result r).
Proof. by eexists. Qed.

Lemma settles_ret {A} (a : A) : settles (mret a).
Proof. by eexists. Qed.

Hint Resolve settles_timeout settles_result settles_ret : rs.

Lemma udp_attempts_spec n request i q server :
  allowed server = true ->
  triple pinned (udp_attempts os answer iface n request i q server)
    (fun v h => pinned h /\ match v with Answered m => good_answer i q m | _ => True end) pinned /\
  settles (udp_attempts os answer iface n request i q server).
Proof.
  intros Ha. induction n as [|n [IH1 IH2]]; cbn [udp_attempts]; [split; [by intros h|auto with rs]|]. split.
  - eapply triple_bind.
    + eapply triple_weaken; [apply triple_timeout, query_dns_udp_spec, Ha|done|done|done].
    + intros [[m|e|]|]; cbn beta iota; [|exact IH1..].
      intros h [Hv Hh]. split_if E; [done|]. split_if E2; done.
  - apply settles_bind; [auto with rs|]. intros [[m|e|]|]; [|done..].
    split_if E; [auto with rs|]. split_if E2; auto with rs.
Qed.

Lemma query_dns_servers_spec request i q servers :
  Forall (fun a => allowed a = true) servers ->
  triple pinned (query_dns_servers os answer einprogress iface request i q servers)
    (fun m h => pinned h /\ good_answer i q m) pinned /\
  settles (query_dns_servers os answer einprogress iface request i q servers).
Proof.
  induction 1 as [|server rest Ha _ [IH1 IH2]]; cbn [query_dns_servers].
  { split; [by intros h|auto with rs]. }
  destruct (udp_attempts_spec DNS_UDP_ATTEMPTS request i q server Ha) as [Hu Hs]. split.
  - eapply triple_bind; [apply Hu|]. intros [m|e|]; cbn beta iota.
    + by intros h [Hh Hm].
    + eapply triple_weaken; [apply IH1|by intros h [? ?]|done|done].
    + eapply triple_bind.
      * eapply triple_weaken; [apply triple_timeout, query_dns_tcp_spec, Ha|by intros h [? ?]|done|done].
      * intros [[m|e|]|]; cbn beta iota; [|exact IH1..].
        split_if E; [by intros h [Hv Hh]|]. eapply triple_weaken; [apply IH1|by intros h [? ?]|done|done].
  - apply settles_bind; [done|]. intros [m|e|]; [auto with rs|done|].
    apply settles_bind; [auto with rs|]. intros [[m|e|]|]; [|done..]. split_if E; auto with rs.
Qed.

(** *** Names *)

(** [resolved want k current ip]: at most [k] validated answers, each without
    an error, lead from the name to the address. *)
Inductive resolved (want : bool) : nat -> string -> IpAddr -> Prop :=
  | resolved_address k current name i m ip :
      name_from_str current = Ok name -> good_answer i (question name want) m ->
      response_code m = NoError ->
      lookup_spec (answers m) want name MAX_CNAME_DEPTH false (Address ip) ->
      resolved want (S k) current ip
  | resolved_alias k current name i m alias ip :
      name_from_str current = Ok name -> good_answer i (question name want) m ->
      response_code m = NoError ->
      lookup_spec (answers m) want name MAX_CNAME_DEPTH false (Cname alias) ->
      resolved want k alias ip -> resolved want (S k) current ip.

Lemma follow_total depth want rs cur fl : follow depth want rs cur fl <> Panic.
Proof.
  revert cur fl. induction depth as [|depth IH]; intros cur fl; simpl; [done|].
  destruct (scan_answers _ _ _ _) as [|[n|]]; [done| |by destruct fl].
  destruct (names_equal n cur); [done|apply IH].
Qed.

Lemma extract_total m q : extract_address_or_cname m q <> Panic.
Proof. unfold extract_address_or_cname. split_if E; [done|]. apply follow_total. Qed.

Lemma map_err_total {A B} (f : A -> B) {C} (r : res A C) : r <> Panic -> map_err f r <> Panic.
Proof. by destruct r. Qed.

Lemma map_err_ok {A B} (f : A -> B) {C} (r : res A C) c : map_err f r = Ok c -> r = Ok c.
Proof. by destruct r; intros [= ->]. Qed.

(** A result computed in between. *)
Lemma triple_step {A B} (r : res IoError A) (k : A -> Sock B) Q :
  r <> Panic -> (forall a, r = Ok a -> triple pinned (k a) Q pinned) ->
  triple pinned (result r ≫= k) Q pinned.
Proof.
  intros Hr Hk h Hh. unfold mbind, Sock_bind, result. destruct r as [a|e|]; [by apply (Hk a)|done|done].
Qed.

Lemma question_type name want : (q_type (question name want) =? TypeAAAA) = want.
Proof. by destruct want. Qed.

Lemma resolve_loop_spec dns_server :
  (forall s, name_from_str s <> Panic) ->
  Forall (fun a => allowed a = true) ((fun ip => mkSA ip 53) <$> direct_dns_servers dns_server iface) ->
  forall depth current port want next,
  triple pinned
    (resolve_loop name_from_str os answer einprogress iface depth current port dns_server want next)
    (fun a h => pinned h /\ sa_port a = port /\ resolved want depth current (sa_ip a)) pinned /\
  settles (resolve_loop name_from_str os answer einprogress iface depth current port dns_server want next).
Proof.
  intros Hname Hall. induction depth as [|depth IH]; intros current port want next; cbn [resolve_loop].
  { split; [by intros h|auto with rs]. }
  split.
  - apply triple_step; [by apply map_err_total|]. intros name Hn%map_err_ok. cbv zeta.
    apply triple_step; [apply map_err_total, to_vec_total|]. intros request _.
    eapply triple_bind; [apply query_dns_servers_spec, Hall|]. intros m.
    intros h (Hh & Hg). split_if E; [done|]. b2p. revert h Hh.
    apply triple_step; [apply map_err_total, extract_total|]. intros l Hl%map_err_ok.
    unfold extract_address_or_cname in Hl. rewrite (proj2 (Z.eqb_eq _ _) E), question_type in Hl.
    apply follow_sound in Hl. destruct l as [ip|alias].
    + intros h Hh. split_and!; [done|done|]. by eapply resolved_address.
    + eapply triple_weaken; [apply IH|done| |done]. intros a h (Hp & Hport & Hr).
      split_and!; [done|done|]. by eapply resolved_alias.
  - apply settles_bind; [auto with rs|]. intros name. cbv zeta. apply settles_bind; [auto with rs|]. intros request.
    apply settles_bind; [apply query_dns_servers_spec, Hall|]. intros m. split_if E; [auto with rs|].
    apply settles_bind; [auto with rs|]. intros [ip|alias]; [auto with rs|apply IH].
Qed.

Lemma settled {A} (m : Sock A) (Q : A -> list Call -> Prop) :
  triple pinned m Q pinned -> settles m ->
  match m [] with
  | (Returned (Ok a), h) => Q a h
  | (Returned (Err _), h) => pinned h
  | _ => False
  end.
Proof.
  intros Hm Hs. specialize (Hm [] ltac:(done)). destruct (Hs []) as [r Hr].
  destruct (m []) as [p h]. simpl in Hr. subst. by destruct r.
Qed.
End queries.

(** The servers a query may contact. *)
Definition listed (configured : IpAddr) (iface : BindInterface) (a : SocketAddr) : bool :=
  bool_decide (sa_ip a ∈ direct_dns_servers configured iface) && (sa_port a =? 53).

Lemma listed_all configured iface :
  Forall (fun a => listed configured iface a = true)
    ((fun ip => mkSA ip 53) <$> direct_dns_servers configured iface).
Proof.
  apply Forall_fmap, Forall_forall. intros a Ha. unfold listed. simpl. by rewrite bool_decide_eq_true_2.
Qed.

(** C31. A query through the physical interface always comes to an end; what it
    returns is a response to this identifier and question that is positive or
    says that the name does not exist; and whatever the network does, only
    listed servers (usable addresses) are contacted, on port 53 and through
    sockets pinned to the interface. *)
Theorem physical_dns_authentic `{LW : DnsLibLaws} os answer einprogress iface request i q configured :
  let allowed := listed configured iface in
  (forall a, allowed a = true -> is_usable_dns_server (sa_ip a) = true /\ sa_port a = 53) /\
  match query_dns_bound os answer einprogress iface request i q configured [] with
  | (Returned (Ok m), h) => pinned_history os answer iface allowed h /\
      validate_dns_response m i q = Ok tt /\ (response_code m = NoError \/ response_code m = NXDomain)
  | (Returned (Err _), h) => pinned_history os answer iface allowed h
  | _ => False
  end.
Proof.
  intros allowed. split.
  - intros a Ha. unfold allowed, listed in Ha. b2p. split; [|done]. by eapply direct_dns_servers_spec.
  - destruct (query_dns_servers_spec os answer einprogress iface allowed request i q _
      (listed_all configured iface)) as [Ht Hs].
    pose proof (settled os answer iface allowed _ _ Ht Hs) as Hq. unfold query_dns_bound.
    destruct (query_dns_servers _ _ _ _ _ _ _ _ _) as [[[m|e|]|] h]; [|done..].
    destruct Hq as (Hp & [Hv _] & Hok). split_and!; [done|done|]. unfold accepted in Hok.
    apply orb_true_iff in Hok as [?|?]; b2p; auto.
Qed.

(** Resolving a name through the physical interface always comes to an end, and
    an address it returns has the port and the family asked for and is reached
    from the name by at most eight validated, positive answers. *)
Theorem physical_resolve_sound `{LW : DnsLibLaws} name_from_str os answer einprogress iface domain port
    configured want next :
  (forall s, name_from_str s <> Panic) ->
  match resolve_domain_bound name_from_str os answer einprogress iface domain port configured want next [] with
  | (Returned (Ok a), h) =>
      pinned_history os answer iface (listed configured iface) h /\ sa_port a = port /\
      is_ipv6 (sa_ip a) = want /\ resolved name_from_str want MAX_CNAME_DEPTH domain (sa_ip a)
  | (Returned (Err _), h) => pinned_history os answer iface (listed configured iface) h
  | _ => False
  end.
Proof.
  intros Hname. unfold resolve_domain_bound.
  destruct (resolve_loop_spec name_from_str os answer einprogress iface (listed configured iface) configured
    Hname (listed_all configured iface) MAX_CNAME_DEPTH domain port want next) as [Ht Hs].
  pose proof (settled os answer iface _ _ _ Ht Hs) as Hq.
  destruct (resolve_loop _ _ _ _ _ _ _ _ _ _ _ _) as [[[a|e|]|] h]; [|done..].
  destruct Hq as (Hp & Hport & Hr). split_and!; [done|done| |done].
  clear -Hr. induction Hr as [? ? ? ? ? ? ? ? ? (k' & o & _ & _ & [? _])|]; done.
Qed.

(** ** A concrete resolution *)

Section examples.
Import DnsExample.

(** The codec of DnsExample.v, with one address in every positive answer for
    an A question. *)
Definition with_address (m : Message) : Message :=
  mkMessage (id m) (message_type m) (op_code m) (authoritative m) (truncation m) (recursion_desired m)
    (recursion_available m) (authentic_data m) (checking_disabled m) (response_code m) (queries m)
    (match message_type m, queries m with
     | Response_, [q] => [mkRecord (q_name q) ClassIN 60 (RA 16909060)]
     | _, _ => []
     end) (authorities m) (additionals m) (signature m) (edns m).

Definition answering_dns : DnsLib := {|
  from_vec := fun bs => m ← example_from_vec bs; Ok (with_address m);
  to_vec := example_to_vec;
  into_response := @into_response _ example_dns;
|}.

Lemma answering_dns_laws : @DnsLibLaws _ answering_dns.
Proof.
  pose proof example_dns_laws as L. split; try apply L.
  - intros bs. pose proof (@from_vec_total _ _ L bs) as Ht. cbn in *. by destruct (example_from_vec bs).
  - intros bs m Hm. pose proof (@from_vec_header _ _ L bs) as Hh. cbn in *.
    destruct (example_from_vec bs) as [m'|e|]; [|done..]. injection Hm as <-. by apply (Hh m').
  - intros bs m i Hm Hi. pose proof (@from_vec_set_id _ _ L bs) as Hh. cbn [from_vec answering_dns example_dns] in *.
    destruct (example_from_vec bs) as [m'|e|]; [|done..]. injection Hm as <-.
    by rewrite (Hh m' i).
Qed.

Definition example_iface : BindInterface := mkBind 7 7 None [ipv4 192 168 1 1] "eth0".

(** Every call completes; what is received is a positive answer. *)
Definition example_net (h : list Call) (c : Call) : Reply :=
  match c with
  | RecvFrom _ => Done (be16 1 ++ [128; 0] ++ replicate 8 0 ++ write_question (mkQuery "a.org" TypeA ClassIN))
  | _ => Done []
  end.

Lemma physical_dns_authentic_witness :
  match @query_dns_bound _ answering_dns Linux example_net (fun _ => false) example_iface [] 1
          (mkQuery "a.org" TypeA ClassIN) (ipv4 9 9 9 9) [] with
  | (Returned (Ok m), h) =>
      pinned_history Linux example_net example_iface (listed (ipv4 9 9 9 9) example_iface) h /\
      answers m = [mkRecord ("a.org" : Name) ClassIN 60 (RA 16909060)]
  | _ => False
  end.
Proof.
  pose proof (proj2 (@physical_dns_authentic _ answering_dns answering_dns_laws Linux example_net (fun _ => false)
    example_iface [] 1 (mkQuery "a.org" TypeA ClassIN) (ipv4 9 9 9 9))) as Hp.
  split; [exact (proj1 Hp)|reflexivity].
Defined.

Lemma physical_resolve_sound_witness :
  exists h, @resolve_domain_bound _ answering_dns Ok Linux example_net (fun _ => false) example_iface
      "a.org" 443 (ipv4 9 9 9 9) false 1 [] = (Returned (Ok (mkSA (ipv4 1 2 3 4) 443)), h) /\
    pinned_history Linux example_net example_iface (listed (ipv4 9 9 9 9) example_iface) h /\
    @resolved _ answering_dns Ok false MAX_CNAME_DEPTH "a.org" (ipv4 1 2 3 4).
Proof.
  pose proof (@physical_resolve_sound _ answering_dns answering_dns_laws Ok Linux example_net (fun _ => false)
    example_iface "a.org" 443 (ipv4 9 9 9 9) false 1 ltac:(done)) as Hr.
  assert (fst (@resolve_domain_bound _ answering_dns Ok Linux example_net (fun _ => false) example_iface
    "a.org" 443 (ipv4 9 9 9 9) false 1 []) = Returned (Ok (mkSA (ipv4 1 2 3 4) 443))) as Hf by reflexivity.
  destruct (@resolve_domain_bound _ _ _ _ _ _ _ _ _ _ _ _ _) as [p h]. simpl in Hf. subst p.
  exists h. destruct Hr as (Hp & _ & _ & Hr). split_and!; done.
Defined.
End examples.
End DirectDns.
