(* ===== verification/PhysicalDns.v ===== *)
(** * The DNS portal on the physical interface (src/src/physical_dns.rs)

    One query, the session over TCP and the session over datagrams.  The
    network a query meets and whether the query gets one of the global slots
    are arguments of the query; [Message::max_payload] and [Message::truncate]
    of the DNS crate are arguments of the component. *)

From S2P Require Import Prelude Net ProxyHandler Streams Rfc1928 Dns DnsExample DnsRouting Direct DirectDns.

Module PhysicalDns.
Import Dns Direct DirectDns.

Definition ServFail : Z := 2.

(** The network during a query, and whether [QUERIES] has a permit. *)
Record Circumstances := mkCircumstances { net : list Call -> Call -> Reply; permit : bool }.

Section portal.
Context `{DL : DnsLib} (max_payload : Message -> Z) (truncate : Message -> Message).
Context (os : Os) (einprogress : IoError -> bool) (iface : BindInterface) (configured_dns : IpAddr).
Context (ipv6 : bool).

Definition serv_fail (query : Message) : Message :=
  mkMessage (id query) Response_ (op_code query) (authoritative query) (truncation query)
    (recursion_desired query) (recursion_available query) (authentic_data query)
    (checking_disabled query) ServFail (queries query) [] (authorities query) (additionals query)
    (signature query) (edns query).

Definition encode_response (response : Message) (max_size : option Z) : res IoError (list Z) :=
  bytes ← map_err io_other (to_vec response);
  if match max_size with Some limit => limit <? len bytes | None => false end
  then map_err io_other (to_vec (truncate response))
  else Ok bytes.

(** The outcome of a call whose error is handled. *)
Definition outcome {A} (m : Sock A) : Sock (res IoError A) := fun h =>
  match m h with
  | (Returned Panic, h') => (Returned Panic, h')
  | (Returned r, h') => (Returned (Ok r), h')
  | (Waiting, h') => (Waiting, h')
  end.

Definition answer (c : Circumstances) (request : list Z) (udp : bool) : Sock (list Z) :=
  query ← result (map_err io_other (parse_data_to_dns_message request false));
  _ ← result (map_err io_other (validate_dns_query query));
  let max_size := if udp then Some (max_payload query) else None in
  r ← outcome (if permit c then query_bound os (net c) einprogress iface request configured_dns
               else result (Err (mkIo WouldBlock "physical DNS query capacity exhausted")));
  response ← match r with
             | Ok bytes => result (map_err io_other (parse_data_to_dns_message bytes false))
             | _ => mret (serv_fail query)
             end;
  result (encode_response (if ipv6 then response else remove_ipv6_entries response) max_size).

(** ** The session over TCP: the client and the number of queries asked *)

Section tcp.
Variable circumstances : nat -> Circumstances.

Record Tcp := mkTcp { client : Server; asked : nat }.

Definition on_client {A} (t : Task Server A) : Task Tcp A :=
  on client (fun c s => mkTcp c (asked s)) t.

(** The query of a turn. *)
Definition ask (request : list Z) : Task Tcp (list Z) := fun s =>
  let s' := mkTcp (client s) (S (asked s)) in
  match fst (answer (circumstances (asked s)) request false []) with
  | Returned r => (Returned (map_err Io r), s')
  | Waiting => (Waiting, s')
  end.

Definition tcp_turn : Task Tcp bool :=
  o ← on_client DnsRouting.read_request;
  match o with
  | None => mret false
  | Some request =>
      response ← ask request;
      n ← done_with (map_err (fun e => Io (io_from_error e)) (try_u16 (len response)));
      on_client (send_all (be16 n));; on_client (send_all response);; mret true
  end.

(** [tcp]: every turn but the last takes two bytes or more. *)
Definition tcp : Task Tcp unit := fun s => turns tcp_turn (S (length (received (reads (client s))))) s.
End tcp.

(** ** The session over datagrams *)

Definition MAX_PENDING : nat := 16.

(** The queries in flight, the datagrams sent and the results of the next
    sends. *)
Record Portal := mkPortal {
  pending : list (list Z);
  replies : list (list Z);
  send_results : list (option IoError) }.

(** A turn of the loop: a datagram (or the end, or an error) arrives, or the
    [k]-th query in flight completes under some circumstances. *)
Inductive Event :=
  | Received (r : res IoError (option (list Z)))
  | Joined (k : nat) (c : Circumstances).

Definition send_reply (d : list Z) (rest : list (list Z)) (p : Portal) : res IoError bool * Portal :=
  match send_results p with
  | Some e :: l => (Err e, mkPortal rest (replies p) l)
  | None :: l => (Ok true, mkPortal rest (replies p ++ [d]) l)
  | [] => (Ok true, mkPortal rest (replies p ++ [d]) [])
  end.

(** The result says whether the loop goes on.  An event that cannot happen now
    (the session does not read with sixteen queries in flight, the query is not
    there, or it does not complete) is no turn. *)
Definition udp_turn (ev : Event) (p : Portal) : res IoError bool * Portal :=
  match ev with
  | Received r =>
      if (length (pending p) <? MAX_PENDING)%nat then
        match r with
        | Ok (Some d) => (Ok true, mkPortal (pending p ++ [d]) (replies p) (send_results p))
        | Ok None => (Ok false, p)
        | Err e => (Err e, p)
        | Panic => (Panic, p)
        end
      else (Ok true, p)
  | Joined k c =>
      match pending p !! k with
      | None => (Ok true, p)
      | Some request =>
          let rest := delete k (pending p) in
          match fst (answer c request true []) with
          | Waiting => (Ok true, p)
          | Returned (Ok response) => send_reply response rest p
          | Returned (Err _) => (Ok true, mkPortal rest (replies p) (send_results p))
          | Returned Panic => (Err (io_other "task panicked"), mkPortal rest (replies p) (send_results p))
          end
      end
  end.

Fixpoint udp (events : list Event) (p : Portal) : progress (res IoError unit) * Portal :=
  match events with
  | [] => (Waiting, p)
  | ev :: events' =>
      match udp_turn ev p with
      | (Ok true, p') => udp events' p'
      | (Ok false, p') => (Returned (Ok tt), p')
      | (Err e, p') => (Returned (Err e), p')
      | (Panic, p') => (Returned Panic, p')
      end
  end.
End portal.

(** ** Properties *)

(** Encoding a message that was decoded keeps its header and its questions. *)
Class DnsReencode `{DL : DnsLib} := {
  reencode : forall bs0 m bs, from_vec bs0 = Ok m -> to_vec m = Ok bs ->
    exists m', from_vec bs = Ok m' /\ id m' = id m /\ message_type m' = message_type m /\
      op_code m' = op_code m /\ queries m' = queries m;
}.

Section properties.
Context `{LW : DnsLibLaws} {RE : DnsReencode}.
Context (max_payload : Message -> Z) (truncate : Message -> Message).
Context (os : Os) (einprogress : IoError -> bool) (iface : BindInterface) (configured_dns : IpAddr).
Context (ipv6 : bool).

Local Abbreviation answer := (answer max_payload truncate os einprogress iface configured_dns ipv6).
Local Abbreviation pinned c := (pinned_history os (net c) iface (listed configured_dns iface)).

(** Validity depends on the header and the questions only. *)
Lemma validate_same m m' i q :
  id m' = id m -> message_type m' = message_type m -> op_code m' = op_code m -> queries m' = queries m ->
  validate_dns_response m' i q = validate_dns_response m i q.
Proof. unfold validate_dns_response. by intros -> -> -> ->. Qed.

Lemma serv_fail_valid query q :
  validate_dns_query query = Ok q -> validate_dns_response (serv_fail query) (id query) q = Ok tt.
Proof.
  intros (_ & Ho & Hq)%validate_query_inv. unfold validate_dns_response, serv_fail.
  cbn [message_type op_code id queries]. rewrite Ho, Hq, bool_decide_eq_true_2, !Z.eqb_refl by done.
  unfold names_equal. rewrite names_equal_refl, bool_decide_eq_true_2 by done. done.
Qed.

Lemma filter_valid m i q :
  validate_dns_response (remove_ipv6_entries m) i q = validate_dns_response m i q.
Proof. by apply validate_same. Qed.

(** What the portal's upstream query returns: a valid response, encoded. *)
Lemma query_bound_spec c request m q :
  from_vec request = Ok m -> validate_dns_query m = Ok q ->
  let call := query_bound os (net c) einprogress iface request configured_dns in
  settles call /\
  triple (pinned c) call
    (fun bytes h => pinned c h /\ exists r, from_vec bytes = Ok r /\ validate_dns_response r (id m) q = Ok tt)
    (pinned c).
Proof.
  intros Hm Hq call. unfold call, query_bound. rewrite Hm. cbn [map_err].
  destruct (query_dns_servers_spec os (net c) einprogress iface _ request (id m) q _
    (listed_all configured_dns iface)) as [Ht Hs]. split.
  - apply settles_bind; [apply settles_result|]. intros a. apply settles_bind; [apply settles_result|].
    intros b. apply settles_bind; [|intros r; apply settles_result].
    unfold query_dns_bound. by eapply query_dns_servers_spec, listed_all.
  - apply triple_step; [done|]. intros m0 [= <-]. rewrite Hq. apply triple_step; [done|].
    intros q0 [= <-].
    intros h Hh. unfold query_dns_bound, mbind, Sock_bind. specialize (Ht h Hh).
    destruct (query_dns_servers _ _ _ _ _ _ _ _ h) as [[[r|e|]|] h']; [|done..].
    unfold result. pose proof (to_vec_total r) as Hto.
    destruct (to_vec r) as [bytes|e|] eqn:Et; cbn [map_err]; [|by destruct Ht|done].
    destruct Ht as (Hp & [Hv [bs0 Hbs0]] & _). split; [done|].
    destruct (reencode bs0 r bytes Hbs0 Et) as (m' & Hm' & ? & ? & ? & ?). exists m'.
    split; [done|]. by rewrite (validate_same r).
Qed.

Definition no_aaaa (m : Message) : Prop :=
  forall r, r ∈ answers m ++ authorities m ++ additionals m -> is_aaaa r = false.

Lemma remove_no_aaaa m : no_aaaa (remove_ipv6_entries m).
Proof.
  intros r. cbn [remove_ipv6_entries answers authorities additionals]. rewrite !elem_of_app, !filter_aaaa. tauto.
Qed.

(** The message the portal encodes for a query. *)
Definition portal_message (m : Message) (q : Query) (r : Message) : Prop :=
  validate_dns_response r (id m) q = Ok tt /\ (ipv6 = false -> no_aaaa r).

Lemma portal_filter m q r :
  validate_dns_response r (id m) q = Ok tt ->
  portal_message m q (if ipv6 then r else remove_ipv6_entries r).
Proof.
  unfold portal_message. destruct ipv6; [done|]. rewrite filter_valid. split; [done|].
  intros _. apply remove_no_aaaa.
Qed.

Lemma answer_spec c request udp m q :
  from_vec request = Ok m -> validate_dns_query m = Ok q ->
  exists r h, answer c request udp [] =
      (Returned (encode_response truncate r (if udp then Some (max_payload m) else None)), h) /\
    pinned c h /\ portal_message m q r /\
    (permit c = false -> h = [] /\ response_code r = ServFail).
Proof.
  intros Hm Hq. pose proof (serv_fail_valid m q Hq) as Hsf.
  unfold PhysicalDns.answer, parse_data_to_dns_message, mbind, Sock_bind, result. rewrite Hm. cbn [map_err].
  rewrite Hq. cbn [map_err]. unfold outcome. destruct (permit c) eqn:Ep.
  2:{ eexists _, []. split; [reflexivity|]. split_and!; [done|by apply portal_filter|].
      intros _. split; [done|]. by destruct ipv6. }
  destruct (query_bound_spec c request m q Hm Hq) as [Hs Ht].
  specialize (Ht [] ltac:(done)). destruct (Hs []) as [r0 Hr0].
  destruct (query_bound _ _ _ _ _ _ []) as [p h]. simpl in Hr0. subst p. destruct r0 as [bytes|e|]; [|eauto|done].
  - destruct Ht as (Hp & r & Hr & Hv). rewrite Hr. cbn [map_err].
    eexists _, h. split; [reflexivity|]. split_and!; [done|by apply portal_filter|done].
  - eexists _, h. split; [reflexivity|]. split_and!; [done|by apply portal_filter|done].
Qed.

(** The portal answers every well-formed query, whatever the network does: the
    call ends, and what it encodes is a response to that query, without AAAA
    records when IPv6 is off, a server failure without any network call when no
    slot is free; over datagrams an answer above the client's limit is
    truncated; and anything else is refused without a call. *)
Theorem physical_portal_answers c request udp :
  match from_vec request with
  | Ok m =>
      match validate_dns_query m with
      | Ok q => exists r h out,
          answer c request udp [] = (Returned out, h) /\ pinned c h /\
          portal_message m q r /\ (permit c = false -> h = [] /\ response_code r = ServFail) /\
          match out with
          | Ok bytes => (to_vec r = Ok bytes /\ (udp = true -> len bytes <= max_payload m)) \/
              (udp = true /\ to_vec (truncate r) = Ok bytes)
          | Err _ => exists e, to_vec r = Err e \/ to_vec (truncate r) = Err e
          | Panic => False
          end
      | _ => exists e, answer c request udp [] = (Returned (Err e), [])
      end
  | _ => exists e, answer c request udp [] = (Returned (Err e), [])
  end.
Proof.
  pose proof (from_vec_total request) as Hf. destruct (from_vec request) as [m|e|] eqn:Hm; [|clear Hf|done].
  2:{ eexists. unfold PhysicalDns.answer, parse_data_to_dns_message, mbind, Sock_bind, result. by rewrite Hm. }
  destruct (validate_dns_query m) as [q|e|] eqn:Hq.
  - destruct (answer_spec c request udp m q Hm Hq) as (r & h & Ha & Hp & Hmsg & Hperm).
    exists r, h, (encode_response truncate r (if udp then Some (max_payload m) else None)).
    split_and!; try done. unfold encode_response. pose proof (to_vec_total r) as Ht.
    pose proof (to_vec_total (truncate r)) as Htt.
    destruct (to_vec r) as [bytes|e|]; cbn; [|by exists e; left|done].
    destruct udp; [|by left]. split_if E; b2p.
    + destruct (to_vec (truncate r)) as [b'|e|]; cbn; [by right|by exists e; right|done].
    + by left.
  - eexists. unfold PhysicalDns.answer, parse_data_to_dns_message, mbind, Sock_bind, result. rewrite Hm. cbn. by rewrite Hq.
  - exfalso. revert Hq. unfold validate_dns_query. repeat case_match; done.
Qed.

(** *** Sessions *)

Local Abbreviation udp_turn := (udp_turn max_payload truncate os einprogress iface configured_dns ipv6).
Local Abbreviation udp := (udp max_payload truncate os einprogress iface configured_dns ipv6).

(** The datagrams among the events. *)
Definition arrived (ev : Event) : list (list Z) :=
  match ev with Received (Ok (Some d)) => [d] | _ => [] end.

Definition answered (request reply : list Z) : Prop :=
  exists c, fst (answer c request true []) = Returned (Ok reply).

(** Every reply belongs to one arrived request of its own, and so does every
    query in flight. *)
Definition accounted (rcv : list (list Z)) (p : Portal) : Prop :=
  (length (pending p) <= MAX_PENDING)%nat /\
  exists served, Forall2 answered served (replies p) /\ served ++ pending p ⊆+ rcv.

Lemma accounted_more rcv more p : accounted rcv p -> accounted (rcv ++ more) p.
Proof.
  intros (Hl & served & Hf & Hs). split; [done|]. exists served. split; [done|].
  by apply submseteq_inserts_r.
Qed.

Lemma accounted_drop rcv p k request l :
  pending p !! k = Some request -> accounted rcv p ->
  accounted rcv (mkPortal (delete k (pending p)) (replies p) l).
Proof.
  intros Hk (Hl & served & Hf & Hs). split; cbn.
  - rewrite length_delete by (by eexists). lia.
  - exists served. split; [done|]. etrans; [|exact Hs]. apply submseteq_skips_l, sublist_submseteq, sublist_delete.
Qed.

Lemma accounted_reply rcv p k request reply l :
  pending p !! k = Some request -> answered request reply -> accounted rcv p ->
  accounted rcv (mkPortal (delete k (pending p)) (replies p ++ [reply]) l).
Proof.
  intros Hk Ha (Hl & served & Hf & Hs). split; cbn.
  - rewrite length_delete by (by eexists). lia.
  - exists (served ++ [request]). split; [by apply Forall2_app; [|constructor]|].
    etrans; [|exact Hs]. rewrite <- app_assoc. apply submseteq_skips_l.
    by rewrite <- (delete_Permutation _ _ _ Hk).
Qed.

Lemma udp_turn_accounted rcv ev p :
  accounted rcv p -> accounted (rcv ++ arrived ev) (snd (udp_turn ev p)).
Proof.
  intros Hp. destruct ev as [r|k c]; cbn [PhysicalDns.udp_turn arrived].
  - split_if E; [|by apply accounted_more]. b2p.
    destruct r as [[d|]|e|]; [|by apply accounted_more..].
    destruct Hp as (_ & served & Hf & Hs). split; cbn.
    + rewrite length_app. simpl. lia.
    + exists served. split; [done|]. rewrite app_assoc. by apply submseteq_skips_r.
  - rewrite app_nil_r. destruct (pending p !! k) as [request|] eqn:Hk; [|done].
    destruct (fst (answer c request true [])) as [[reply|e|]|] eqn:Ea; [| | |done].
    + assert (answered request reply) as Ha by by exists c.
      unfold send_reply. destruct (send_results p) as [|[e|] l]; cbn;
        [by eapply accounted_reply|by eapply accounted_drop|by eapply accounted_reply].
    + by eapply accounted_drop.
    + by eapply accounted_drop.
Qed.

(** The datagram session keeps at most sixteen queries in flight and answers
    every datagram at most once: the replies belong, one to one, to datagrams
    that arrived, and each is what the portal answers to its own. *)
Theorem physical_udp_once events results :
  let p' := snd (udp events (mkPortal [] [] results)) in
  (length (pending p') <= MAX_PENDING)%nat /\
  exists served, Forall2 answered served (replies p') /\
    served ++ pending p' ⊆+ concat (arrived <$> events).
Proof.
  intros p'. cut (forall rcv p, accounted rcv p -> accounted (rcv ++ concat (arrived <$> events)) (snd (udp events p))).
  { intros Hc. apply (Hc [] (mkPortal [] [] results)). split; [simpl; lia|]. exists []. split; [constructor|done]. }
  clear p'. induction events as [|ev events IH]; intros rcv p Hp; cbn [PhysicalDns.udp fmap list_fmap concat].
  { by rewrite app_nil_r. }
  pose proof (udp_turn_accounted rcv ev p Hp) as Ht. rewrite app_assoc.
  destruct (udp_turn ev p) as [[[]|e|] p1]; cbn in Ht; [by apply IH|by apply accounted_more..].
Qed.

Section tcp.
Variable circumstances : nat -> Circumstances.
Local Abbreviation tcp_turn := (tcp_turn max_payload truncate os einprogress iface configured_dns ipv6 circumstances).
Local Abbreviation tcp := (tcp max_payload truncate os einprogress iface configured_dns ipv6 circumstances).

(** The answers of the portal to queries asked one after the other, from the
    [n]-th on. *)
Inductive portal_answers : nat -> list (list Z) -> list (list Z) -> Prop :=
  | answers_none n : portal_answers n [] []
  | answers_next n request out requests outs :
      fst (answer (circumstances n) request false []) = Returned (Ok out) ->
      len request <= u16_max -> len out <= u16_max ->
      portal_answers (S n) requests outs -> portal_answers n (request :: requests) (out :: outs).

Lemma tcp_turns requests outs n fuel c :
  portal_answers n requests outs -> received (reads c) = concat (dns_frame <$> requests) ->
  finished (reads c) -> write_results c = [] -> (length requests < fuel)%nat ->
  exists c', turns tcp_turn fuel (mkTcp c n) = (Returned (Ok tt), mkTcp c' (n + length requests)) /\
    written c' = written c ++ concat (dns_frame <$> outs).
Proof.
  intros Ha. revert fuel c. induction Ha as [n|n req out reqs outs Hans Hlr Hlo Ha IH];
    intros [|fuel] c Hr Hf Hw Hfuel; try (simpl in Hfuel; lia); cbn [fmap list_fmap concat length] in *.
  - destruct (recv_one_end _ Hf Hr) as [rs E]. rewrite Nat.add_0_r, app_nil_r.
    exists (next_reads rs c). split; [|done].
    cbn [turns]. unfold PhysicalDns.tcp_turn, on_client, on, DnsRouting.read_request, mbind, Task_bind.
    cbn [client]. by rewrite E.
  - destruct (DnsRouting.read_request_app req _ c Hlr Hr) as (rs & E & Hrest & Hfin).
    destruct (IH fuel (mkServer rs [] (written c ++ dns_frame out) (traffic c)))
      as (c' & Et & Hw'); [done|by apply Hfin|done|lia|].
    exists c'. rewrite Hw'. cbn [written]. rewrite <- app_assoc, <- Nat.add_succ_comm.
    split; [|done]. rewrite <- Et. cbn [turns].
    assert (tcp_turn (mkTcp c n) = (Returned (Ok true),
      mkTcp (mkServer rs [] (written c ++ dns_frame out) (traffic c)) (S n))) as Ht.
    { unfold PhysicalDns.tcp_turn, ask, on_client, on, mbind, Task_bind, done_with. cbn [client asked].
      rewrite E. cbn [client asked]. rewrite Hans. cbn [map_err]. unfold try_u16.
      rewrite (proj2 (Z.leb_le _ _) Hlo). cbn [map_err client asked].
      rewrite send_all_ok by done. cbn [client asked]. rewrite send_all_ok by done.
      unfold dns_frame. cbn [reads written traffic next_reads]. by rewrite <- app_assoc. }
    unfold mbind, Task_bind. by rewrite Ht.
Qed.

(** The TCP session answers every query of a client that then closes, in order
    and framed, and ends well. *)
Theorem physical_tcp_in_order requests outs c :
  portal_answers 0 requests outs -> received (reads c) = concat (dns_frame <$> requests) ->
  finished (reads c) -> write_results c = [] ->
  exists c', tcp (mkTcp c 0) = (Returned (Ok tt), mkTcp c' (length requests)) /\
    written c' = written c ++ concat (dns_frame <$> outs).
Proof.
  intros Ha Hr Hf Hw. unfold PhysicalDns.tcp. cbn [client]. apply (tcp_turns requests outs 0); try done.
  rewrite Hr. pose proof (DnsRouting.frames_length requests). lia.
Qed.
End tcp.
End properties.

(** ** A concrete portal *)

Section examples.
Import DnsExample.

(** The codec of DnsExample.v satisfies the law. *)
Lemma read_question_write bs q :
  Forall is_u8 bs -> read_question bs = Some q -> write_question q = bs.
Proof.
  destruct bs as [|n rest]; [done|]. intros [Hn Hr]%Forall_cons. unfold read_question.
  destruct (drop (Z.to_nat n) rest) as [|t1 [|t2 [|c1 [|c2 [|]]]]] eqn:Ed; try done. intros [= <-].
  pose proof (take_drop (Z.to_nat n) rest) as Htd. rewrite Ed in Htd.
  rewrite <- Htd in Hr. apply Forall_app in Hr as [Hname Htail].
  rewrite !Forall_cons in Htail. destruct Htail as (? & ? & ? & ? & _).
  unfold write_question. cbn [q_name q_type q_class]. rewrite Rfc1928.as_bytes_of_bytes, !be16_of_be16 by done.
  cbn [app]. rewrite Htd. f_equal. unfold len, is_u8 in *.
  apply (f_equal length) in Ed. rewrite length_drop in Ed. simpl in Ed. rewrite length_take. lia.
Qed.

Instance example_reencode : DnsReencode (DL := example_dns).
Proof.
  constructor. intros bs0 m bs Hm [= <-]. cbn [from_vec example_dns] in *.
  unfold example_from_vec in Hm. destruct (_ && _) eqn:E; [|done]. b2p.
  destruct bs0 as [|i1 [|i2 [|f1 [|f2 rest]]]]; try done.
  assert (Forall is_u8 (i1 :: i2 :: f1 :: f2 :: rest)) as Hu by by apply is_u8b_spec.
  destruct (if (_ =? _)%nat then _ else _) as [qs|] eqn:Eq; [|done]. injection Hm as <-.
  rewrite !Forall_cons in Hu. destruct Hu as (Hi1 & Hi2 & Hf1 & Hf2 & Hrest).
  assert (match qs with q :: _ => write_question q | [] => [] end = drop 8 rest) as Hq.
  { destruct (length (drop 8 rest) =? 0)%nat eqn:E0; b2p.
    - injection Eq as <-. symmetry. apply length_zero_iff_nil. done.
    - destruct (read_question (drop 8 rest)) as [q|] eqn:Er; [|done]. injection Eq as <-.
      apply read_question_write; [by apply Forall_drop|done]. }
  set (g1 := (if bool_decide ((if 128 <=? f1 then Response_ else Query_) = Response_) then 128 else 0)
               + f1 / 8 mod 16 mod 16 * 8).
  set (g2 := f2 mod 16 mod 16).
  assert (is_u8 g1 /\ (128 <=? g1) = (128 <=? f1) /\ g1 / 8 mod 16 = f1 / 8 mod 16) as (Hg1 & Hr1 & Ho1).
  { unfold g1, is_u8. rewrite Z.mod_mod by lia. pose proof (Z.mod_pos_bound (f1 / 8) 16 ltac:(lia)) as Hb.
    set (k := f1 / 8 mod 16) in *.
    assert (forall c, (c + k * 8) / 8 = c / 8 + k) as Hd by (intros c; by rewrite Z.div_add by lia).
    destruct (128 <=? f1); case_bool_decide; try done; (split_and!; [lia|lia| |]).
    - apply Z.leb_le. lia.
    - rewrite Hd. change (128 / 8) with (1 * 16). rewrite Z.add_comm, Z.mod_add by lia. by apply Z.mod_small.
    - apply Z.leb_gt. lia.
    - rewrite Hd. by apply Z.mod_small. }
  exists (mkMessage (of_be16 i1 i2) (if 128 <=? g1 then Response_ else Query_) (g1 / 8 mod 16)
            false false false false false false (g2 mod 16) qs [] [] [] None None).
  split_and!; [|done|cbn; by rewrite Hr1|cbn; by rewrite Ho1|done].
  cbn [id message_type op_code response_code queries]. fold g1 g2. rewrite Hq. pose proof (be16_of_be16 i1 i2 Hi1 Hi2) as [= -> ->].
  assert (is_u8 g2) as Hg2 by (unfold g2, is_u8; rewrite Z.mod_mod by lia;
    pose proof (Z.mod_pos_bound f2 16 ltac:(lia)); lia).
  assert (forallb is_u8b (i1 :: i2 :: g1 :: g2 :: replicate 8 0 ++ drop 8 rest) = true) as Hall.
  { apply is_u8b_spec. repeat (constructor; [done|]). by apply Forall_drop. }
  clear -Hall Eq. revert Hall Eq. generalize (drop 8 rest) as t. intros t Hall Eq.
  unfold example_from_vec. cbn [replicate app] in Hall. rewrite Hall.
  rewrite (proj2 (Nat.leb_le 12 _)) by (simpl; lia). cbn [andb drop]. by rewrite !drop_0, Eq.
Qed.

(** A portal whose network answers nothing: the query fails over. *)
Definition silent : Circumstances := mkCircumstances (fun _ _ => Never) true.

Definition with_id (i : Z) : Message :=
  mkMessage i Query_ 0 false false false false false false 0 [mkQuery "a.org" TypeA ClassIN] [] [] [] None None.

Definition failure : list Z :=
  be16 1 ++ [128; 2] ++ replicate 8 0 ++ write_question (mkQuery "a.org" TypeA ClassIN).

Definition example_client : Server :=
  mkServer [Ok (dns_frame (query_bytes 1 "a.org" TypeA)); Ok []] [] [] [].

Lemma physical_tcp_in_order_witness :
  exists c', tcp (fun _ => 512) (fun m => m) Linux (fun _ => false) example_iface (ipv4 9 9 9 9) true
      (fun _ => silent) (mkTcp example_client 0) = (Returned (Ok tt), mkTcp c' 1) /\
    written c' = [] ++ concat (dns_frame <$> [failure]).
Proof.
  apply (physical_tcp_in_order (fun _ => 512) (fun m => m) Linux (fun _ => false) example_iface (ipv4 9 9 9 9)
    true (fun _ => silent) [query_bytes 1 "a.org" TypeA] [failure] example_client);
    [|reflexivity|exact I|reflexivity].
  constructor; [reflexivity|discriminate|discriminate|constructor].
Defined.

Lemma physical_portal_answers_witness :
  exists r h out,
    answer (fun _ => 512) (fun m => m) Linux (fun _ => false) example_iface (ipv4 9 9 9 9) true silent
      (query_bytes 1 "a.org" TypeA) true [] = (Returned out, h) /\
    pinned_history Linux (net silent) example_iface (listed (ipv4 9 9 9 9) example_iface) h /\
    portal_message true (with_id 1) (mkQuery "a.org" TypeA ClassIN) r /\ out = Ok failure.
Proof.
  pose proof (@physical_portal_answers _ example_dns example_dns_laws example_reencode (fun _ => 512) (fun m => m)
    Linux (fun _ => false) example_iface (ipv4 9 9 9 9) true silent (query_bytes 1 "a.org" TypeA) true) as Hp.
  change (from_vec (query_bytes 1 "a.org" TypeA)) with (Ok (E := string) (with_id 1)) in Hp.
  change (validate_dns_query (with_id 1)) with (Ok (E := string) (mkQuery "a.org" TypeA ClassIN)) in Hp.
  destruct Hp as (r & h & out & Ha & Hpin & Hm & _). exists r, h, out. split_and!; [done|done|done|].
  apply (f_equal fst) in Ha. cbn [fst] in Ha. injection Ha as <-. reflexivity.
Defined.
End examples.
End PhysicalDns.
