(* ===== verification/UdpBypass.v ===== *)
(** * The UDP bypass pool (src/src/udp_bypass.rs)

    Physical UDP sockets shared by the flows of one application socket.  The
    shared objects are in a store: endpoints ([Arc<Endpoint>]) and flows by a
    number, the routes of an endpoint hold the number of the flow whose channel
    they feed.  A critical section of the source (the pool's lock, an
    endpoint's lock) is one operation; what happens between two of them is any
    sequence of operations.  Time is in nanoseconds. *)

From S2P Require Import Prelude Net ProxyHandler Direct Process ProcessMatch.

Module UdpBypass.
Import Direct ProcessMatch.

Definition IDLE_TIMEOUT : Z := 120 * 1000000000.
Definition OWNER_FAILURE_GRACE : Z := 6 * 1000000000.
Definition QUEUED_BYTES : Z := 8 * 1024 * 1024.
Definition PEER_QUEUE : nat := 16.
Definition SIO_UDP_CONNRESET : Z := 2550136844.
Definition SIO_UDP_NETRESET : Z := 2550136847.

(** [bind_shared_udp]. *)
Definition bind_shared_udp (os : Os) (answer : list Call -> Call -> Reply) (ipv6 : bool)
    (interface : BindInterface) : Sock unit :=
  bind_udp_unconnected os answer ipv6 interface;;
  sys answer (Ioctl SIO_UDP_CONNRESET);;
  sys answer (Ioctl SIO_UDP_NETRESET);;
  mret tt.

(** ** State *)

Record Endpoint := mkEndpoint {
  owner : SocketOwner;
  interface : BindInterface;
  routes : gmap SocketAddr nat;
  last_activity : Z;
  closed : bool;
  receiving : bool   (* the task [receive] runs *) }.

(** A flow and its relay: the channel's datagrams and, between reading from
    the stack and the end of [send], the payload being sent. *)
Record Flow := mkFlow {
  f_endpoint : nat;
  f_peer : SocketAddr;
  f_queue : list (list Z);
  f_sending : option (list Z) }.

Record Pool := mkPool {
  heap : gmap nat Endpoint;
  flows : gmap nat Flow;
  endpoints : gmap SocketAddr nat;
  owner_failure_since : option Z;
  budget : Z;
  limit : Z;
  next : nat   (* the next number *) }.

Definition new (limit : Z) : Pool := mkPool ∅ ∅ ∅ None QUEUED_BYTES (Z.min limit 1024) 0.

Definition is_empty (w : Pool) : bool := bool_decide (endpoints w = ∅).

Definition set_heap (f : gmap nat Endpoint -> gmap nat Endpoint) (w : Pool) : Pool :=
  mkPool (f (heap w)) (flows w) (endpoints w) (owner_failure_since w) (budget w) (limit w) (next w).

Definition set_endpoints (m : gmap SocketAddr nat) (w : Pool) : Pool :=
  mkPool (heap w) (flows w) m (owner_failure_since w) (budget w) (limit w) (next w).

Definition set_flows (f : gmap nat Flow -> gmap nat Flow) (b : Z) (w : Pool) : Pool :=
  mkPool (heap w) (f (flows w)) (endpoints w) (owner_failure_since w) b (limit w) (next w).

(** ** Endpoints *)

Definition uses_interface (source : SocketAddr) (bound wanted : BindInterface) : bool :=
  if sa_is_ipv6 source then ipv6_index bound =? ipv6_index wanted
  else ipv4_index bound =? ipv4_index wanted.

(** [close]. *)
Definition shut (e : Endpoint) : Endpoint :=
  mkEndpoint (owner e) (interface e) ∅ (last_activity e) true (receiving e).

Definition close (eid : nat) : Pool -> Pool := set_heap (alter shut eid).

Definition expired (now : Z) (e : Endpoint) : bool :=
  closed e || (bool_decide (routes e = ∅) && (IDLE_TIMEOUT <=? now - last_activity e)).

Definition touch (now : Z) (e : Endpoint) : Endpoint :=
  mkEndpoint (owner e) (interface e) (routes e) now (closed e) (receiving e).

Definition with_routes (f : gmap SocketAddr nat -> gmap SocketAddr nat) (e : Endpoint) : Endpoint :=
  mkEndpoint (owner e) (interface e) (f (routes e)) (last_activity e) (closed e) (receiving e).

Definition stop_receiving (e : Endpoint) : Endpoint :=
  mkEndpoint (owner e) (interface e) (routes e) (last_activity e) (closed e) false.

(** [HashMap::retain] over the pool: what is not kept is closed. *)
Definition kept (keep : SocketAddr -> Endpoint -> bool) (w : Pool) (x : SocketAddr * nat) : Prop :=
  match heap w !! x.2 with Some e => keep x.1 e = true | None => False end.

#[export] Instance kept_dec keep w x : Decision (kept keep w x).
Proof. unfold kept. destruct (heap w !! x.2); apply _. Defined.

Definition retain (keep : SocketAddr -> Endpoint -> bool) (w : Pool) : Pool :=
  let dropped := (map_to_list (filter (fun x => ~ kept keep w x) (endpoints w))).*2 in
  set_endpoints (filter (kept keep w) (endpoints w)) (foldr close w dropped).

(** ** The pool *)

(** [maintain_with]. *)
Definition maintain_with (now : Z) (owners : option UdpOwners) (iface : option BindInterface) (w : Pool) : Pool :=
  let since := match owners with
               | Some _ => None
               | None => Some (default now (owner_failure_since w))
               end in
  let ownership_unknown := match owners, since with
                           | None, Some s => now - s <? OWNER_FAILURE_GRACE
                           | _, _ => false
                           end in
  let keep source e :=
    (ownership_unknown ||
     bool_decide (owners ≫= (fun o => owners_get o source) = Some (owner e))) &&
    match iface with Some i => uses_interface source (interface e) i | None => false end &&
    negb (expired now e) in
  let w1 := retain keep w in
  mkPool (heap w1) (flows w1) (endpoints w1) since (budget w1) (limit w1) (next w1).

(** The idle endpoint with the earliest activity. *)
Definition oldest_idle (w : Pool) : option (SocketAddr * Z) :=
  foldl (fun acc x =>
    match heap w !! x.2 with
    | Some e =>
        if bool_decide (routes e = ∅) then
          match acc with
          | Some (_, a) => if a <=? last_activity e then acc else Some (x.1, last_activity e)
          | None => Some (x.1, last_activity e)
          end
        else acc
    | None => acc
    end) None (map_to_list (endpoints w)).

(** Remove an endpoint from the pool and close it. *)
Definition evict (source : SocketAddr) (w : Pool) : Pool :=
  match endpoints w !! source with
  | Some eid => set_endpoints (delete source (endpoints w)) (close eid w)
  | None => w
  end.

(** The endpoint of another owner or interface is retired. *)
Definition retire_stale (source : SocketAddr) (own : SocketOwner) (iface : BindInterface) (w : Pool) : Pool :=
  match endpoints w !! source ≫= (heap w !!.) with
  | Some e => if bool_decide (owner e = own) && uses_interface source (interface e) iface then w
              else evict source w
  | None => w
  end.

(** Space for one more endpoint, if there can be any. *)
Definition make_room (w : Pool) : option Pool :=
  if limit w <=? Z.of_nat (size (endpoints w)) then
    match oldest_idle w with
    | Some (s, _) => Some (evict s w)
    | None => None
    end
  else Some w.

Definition add_endpoint (now : Z) (source : SocketAddr) (own : SocketOwner) (iface : BindInterface) (w : Pool)
    : Pool :=
  mkPool (<[next w := mkEndpoint own iface ∅ now false true]> (heap w)) (flows w)
    (<[source := next w]> (endpoints w)) (owner_failure_since w) (budget w) (limit w) (S (next w)).

(** The last part of [open_with]: a route for the peer. *)
Definition register (now : Z) (eid : nat) (peer : SocketAddr) (w : Pool) : res IoError (option nat) * Pool :=
  match heap w !! eid with
  | None => (Panic, w)
  | Some e =>
      if closed e then (Err (io_of_kind BrokenPipe), w)
      else if bool_decide (is_Some (routes e !! peer)) then (Ok None, w)
      else
        let fid := next w in
        (Ok (Some fid),
         mkPool (<[eid := touch now (with_routes (<[peer := fid]>) e)]> (heap w))
           (<[fid := mkFlow eid peer [] None]> (flows w)) (endpoints w) (owner_failure_since w)
           (budget w) (limit w) (S fid))
  end.

(** [open_with].  [bound] is the result of [bind]; [raced] tells whether the
    endpoint's receiver closes it between the two locks. *)
Definition open_with (now : Z) (source peer : SocketAddr) (own : SocketOwner) (iface : BindInterface)
    (bound : res IoError unit) (raced : bool) (w : Pool) : res IoError (option nat) * Pool :=
  if negb (Bool.eqb (sa_is_ipv4 source) (sa_is_ipv4 peer)) || is_multicast (sa_ip peer)
     || is_unspecified (sa_ip peer)
  then (Err (io_of_kind InvalidInput), w)
  else
    let w1 := retain (fun _ e => negb (expired now e)) w in
    let w2 := retire_stale source own iface w1 in
    let finish w3 :=
      match endpoints w3 !! source with
      | None => (Panic, w3)
      | Some eid => register now eid peer (if raced then close eid w3 else w3)
      end in
    match endpoints w2 !! source with
    | Some _ => finish w2
    | None =>
        match make_room w2 with
        | None => (Ok None, w2)
        | Some w3 =>
            match bound with
            | Ok _ => finish (add_endpoint now source own iface w3)
            | Err e => (Err e, w3)
            | Panic => (Panic, w3)
            end
        end
    end.

(** [open]: [owners] is the table read, [egress] the interface now, [b] the
    process rules now. *)
Definition open (now : Z) (source peer : SocketAddr) (policy : SessionPolicy) (b : Process.ProcessBypass)
    (owners : res IoError UdpOwners) (egress : option BindInterface) (bound : res IoError unit) (raced : bool)
    (w : Pool) : res IoError (option nat) * Pool :=
  let w1 := maintain_with now (match owners with Ok o => Some o | _ => None end) egress w in
  match owners with
  | Err e => (Err e, w1)
  | Panic => (Panic, w1)
  | Ok o =>
      match p_udp_owner policy with
      | None => (Err (io_of_kind PermissionDenied), w1)
      | Some own =>
          if negb (bool_decide (owners_get o source = Some own)) || negb (p_bypass policy)
             || negb (is_current b policy)
          then (Err (mkIo PermissionDenied "UDP bypass owner or policy changed during setup"), w1)
          else match egress with
               | None => (Err (io_other "UDP bypass physical interface unavailable"), w1)
               | Some iface => open_with now source peer own iface bound raced w1
               end
      end
  end.

(** [shutdown]: every endpoint is closed, the receivers are stopped. *)
Definition shutdown (w : Pool) : Pool :=
  set_heap (fmap stop_receiving)
    (set_endpoints ∅ (foldr close w (map_to_list (endpoints w)).*2)).

(** ** The receiver of an endpoint *)

Definition cost (d : list Z) : Z := Z.max (len d) 1.
Definition queued (f : Flow) : Z := foldr (fun d n => cost d + n) 0 (f_queue f).

(** A datagram of [peer] arrives at the endpoint. *)
Definition deliver (now : Z) (eid : nat) (peer : SocketAddr) (d : list Z) (w : Pool) : Pool :=
  match heap w !! eid with
  | Some e =>
      if receiving e then
        match routes e !! peer with
        | None => w
        | Some fid =>
            match flows w !! fid with
            | None => w
            | Some f =>
                if (cost d <=? budget w) && (length (f_queue f) <? PEER_QUEUE)%nat then
                  set_heap (alter (touch now) eid)
                    (set_flows (<[fid := mkFlow (f_endpoint f) (f_peer f) (f_queue f ++ [d]) (f_sending f)]>)
                       (budget w - cost d) w)
                else w
            end
        end
      else w
  | None => w
  end.

(** The receiver ends: the policy changed, the socket failed, or the endpoint
    was closed. *)
Definition stop (eid : nat) (w : Pool) : Pool := set_heap (alter stop_receiving eid) (close eid w).

(** ** Flows *)

(** [Drop for Flow]. *)
Definition drop_flow (fid : nat) (w : Pool) : Pool :=
  match flows w !! fid with
  | None => w
  | Some f =>
      set_flows (delete fid) (budget w + queued f)
        (set_heap (alter (with_routes (delete (f_peer f))) (f_endpoint f)) w)
  end.

(** What leaves the program. *)
Inductive Output := Sent (fid : nat) (d : list Z) | Injected (fid : nat) (d : list Z).

Definition flow_closed (w : Pool) (f : Flow) : bool :=
  match heap w !! f_endpoint f with Some e => closed e | None => true end.

(** A datagram of the application is taken for sending. *)
Definition take_payload (fid : nat) (d : list Z) (w : Pool) : Pool :=
  match flows w !! fid with
  | Some (mkFlow e p q None) => set_flows (<[fid := mkFlow e p q (Some d)]>) (budget w) w
  | _ => w
  end.

(** One attempt of [send]: its result is that of [try_send_to]. *)
Definition try_send (now : Z) (fid : nat) (r : option IoError) (w : Pool) : Pool * list Output :=
  match flows w !! fid with
  | Some (mkFlow e p q (Some d)) =>
      if flow_closed w (mkFlow e p q (Some d)) then (drop_flow fid w, [])
      else match r with
           | None => (set_heap (alter (touch now) e) (set_flows (<[fid := mkFlow e p q None]>) (budget w) w),
                      [Sent fid d])
           | Some err => if bool_decide (io_kind err = WouldBlock) then (w, []) else (drop_flow fid w, [])
           end
  | _ => (w, [])
  end.

(** A queued reply is taken and injected; [ok] is the result of the stack. *)
Definition inject (fid : nat) (ok : bool) (w : Pool) : Pool * list Output :=
  match flows w !! fid with
  | Some (mkFlow e p (d :: q) None) =>
      let w1 := set_flows (<[fid := mkFlow e p q None]>) (budget w + cost d) w in
      if flow_closed w (mkFlow e p (d :: q) None) then (drop_flow fid w1, [])
      else if ok then (w1, [Injected fid d]) else (drop_flow fid w1, [])
  | _ => (w, [])
  end.

(** ** Interleavings *)

Inductive Op :=
  | Open (now : Z) (source peer : SocketAddr) (policy : SessionPolicy) (b : Process.ProcessBypass)
      (owners : res IoError UdpOwners) (egress : option BindInterface) (bound : res IoError unit) (raced : bool)
  | Maintain (now : Z) (owners : option UdpOwners) (egress : option BindInterface)
  | Shutdown
  | Deliver (now : Z) (eid : nat) (peer : SocketAddr) (d : list Z)
  | Stop (eid : nat)
  | TakePayload (fid : nat) (d : list Z)
  | TrySend (now : Z) (fid : nat) (r : option IoError)
  | Inject (fid : nat) (ok : bool)
  | DropFlow (fid : nat).

Definition step (op : Op) (w : Pool) : Pool * list Output :=
  match op with
  | Open now s p pol b o eg bd r => (snd (open now s p pol b o eg bd r w), [])
  | Maintain now o eg => (maintain_with now o eg w, [])
  | Shutdown => (shutdown w, [])
  | Deliver now eid p d => (deliver now eid p d w, [])
  | Stop eid => (stop eid w, [])
  | TakePayload fid d => (take_payload fid d w, [])
  | TrySend now fid r => try_send now fid r w
  | Inject fid ok => inject fid ok w
  | DropFlow fid => (drop_flow fid w, [])
  end.

(** The worlds reached by a sequence of operations from an empty pool. *)
Inductive reach (lim : Z) : list Op -> Pool -> Prop :=
  | reach_new : reach lim [] (new lim)
  | reach_step ops op w : reach lim ops w -> reach lim (ops ++ [op]) (fst (step op w)).
End UdpBypass.
