(* ===== verification/UdpBypassProofs.v ===== *)
(** * Properties of the UDP bypass pool (src/src/udp_bypass.rs)

    The invariant of the pool under every interleaving, and what it gives: a
    route belongs to one flow, a retired endpoint neither sends nor delivers,
    replies come from the flow's own peer, the memory budget is accounted
    exactly. *)

From S2P Require Import Prelude Net ProxyHandler Direct Process ProcessMatch UdpBypass.

Module UdpBypassProofs.
Import Direct ProcessMatch UdpBypass.

(** ** The queued bytes *)

Definition total (m : gmap nat Flow) : Z := map_fold (fun _ f n => queued f + n) 0 m.

Lemma total_insert m i f : m !! i = None -> total (<[i := f]> m) = queued f + total m.
Proof. intros Hi. unfold total. rewrite map_fold_insert_L; [done|intros; lia|done]. Qed.

Lemma total_delete m i f : m !! i = Some f -> total m = queued f + total (delete i m).
Proof. intros Hi. unfold total. rewrite (map_fold_delete_L _ _ i f m); [done|intros; lia|done]. Qed.

Lemma total_update m i f f' : m !! i = Some f -> total (<[i := f']> m) = total m - queued f + queued f'.
Proof.
  intros Hi. rewrite (total_delete m i f Hi), <- insert_delete_eq, total_insert by apply lookup_delete_eq. lia.
Qed.

Lemma cost_pos d : 0 < cost d.
Proof. unfold cost. lia. Qed.

Lemma queued_nonneg f : 0 <= queued f.
Proof.
  unfold queued. induction (f_queue f) as [|d q IH]; simpl; [done|]. pose proof (cost_pos d). lia.
Qed.

Lemma queued_app e p q d s : queued (mkFlow e p (q ++ [d]) s) = queued (mkFlow e p q s) + cost d.
Proof.
  unfold queued. cbn [f_queue]. induction q as [|x q IH]; cbn [app foldr]; [lia|]. rewrite IH. lia.
Qed.

(** ** The invariant *)

Record wf (w : Pool) : Prop := {
  wf_pool : forall s e, endpoints w !! s = Some e -> is_Some (heap w !! e);
  wf_inj : forall s s' e, endpoints w !! s = Some e -> endpoints w !! s' = Some e -> s = s';
  wf_open : forall e ep, heap w !! e = Some ep -> closed ep = false -> exists s, endpoints w !! s = Some e;
  wf_closed : forall e ep, heap w !! e = Some ep -> closed ep = true -> routes ep = ∅;
  wf_route : forall e ep p f, heap w !! e = Some ep -> routes ep !! p = Some f ->
    exists fl, flows w !! f = Some fl /\ f_endpoint fl = e /\ f_peer fl = p;
  wf_flow : forall f fl, flows w !! f = Some fl ->
    exists ep, heap w !! f_endpoint fl = Some ep /\ (closed ep = true \/ routes ep !! f_peer fl = Some f);
  wf_queue : forall f fl, flows w !! f = Some fl -> (length (f_queue fl) <= PEER_QUEUE)%nat;
  wf_budget : budget w + total (flows w) = QUEUED_BYTES /\ 0 <= budget w;
  wf_limit : Z.of_nat (size (endpoints w)) <= limit w;
  wf_next : (forall e, is_Some (heap w !! e) -> (e < next w)%nat) /\
            (forall f, is_Some (flows w !! f) -> (f < next w)%nat) }.

Lemma wf_new lim : 0 <= lim -> wf (new lim).
Proof.
  intros Hl. split; cbn [new heap flows endpoints budget limit next]; try (intros *; by rewrite lookup_empty).
  - unfold total. rewrite map_fold_empty. done.
  - rewrite map_size_empty. lia.
  - split; intros e He; rewrite lookup_empty in He; by destruct He.
Qed.

(** Endpoints that are closed, or stay as they are in what matters. *)
Definition keeps (w w' : Pool) (e : nat) (ep ep' : Endpoint) : Prop :=
  (closed ep' = true /\ routes ep' = ∅) \/
  (closed ep' = closed ep /\ routes ep' = routes ep /\
   (closed ep = false -> forall s, endpoints w !! s = Some e -> endpoints w' !! s = Some e)).

(** Removing endpoints from the pool keeps the invariant when they are closed. *)
Lemma wf_shrink w w' :
  flows w' = flows w -> budget w' = budget w -> limit w' = limit w -> next w' = next w ->
  endpoints w' ⊆ endpoints w ->
  (forall e, option_relation (keeps w w' e) (fun _ => False) (fun _ => False) (heap w !! e) (heap w' !! e)) ->
  wf w -> wf w'.
Proof.
  intros Hfl Hb Hl Hn Hsub Hh Hw.
  assert (forall e ep', heap w' !! e = Some ep' -> exists ep, heap w !! e = Some ep /\ keeps w w' e ep ep') as Hback.
  { intros e ep' He. specialize (Hh e). rewrite He in Hh. destruct (heap w !! e) as [ep|]; [by exists ep|done]. }
  assert (forall e ep, heap w !! e = Some ep -> exists ep', heap w' !! e = Some ep' /\ keeps w w' e ep ep') as Hfwd.
  { intros e ep He. specialize (Hh e). rewrite He in Hh. destruct (heap w' !! e) as [ep'|]; [by exists ep'|done]. }
  split.
  - intros s e Hs. destruct (wf_pool w Hw s e) as [ep Hep]; [by eapply lookup_weaken|].
    destruct (Hfwd e ep Hep) as (ep' & ? & _). by eexists.
  - intros s s' e Hs Hs'. eapply (wf_inj w Hw); by eapply lookup_weaken.
  - intros e ep' He Hc. destruct (Hback e ep' He) as (ep & Hep & [[? _]|(Hcl & _ & Hs)]); [congruence|].
    destruct (wf_open w Hw e ep Hep) as [s Hse]; [congruence|]. exists s. apply Hs; congruence.
  - intros e ep' He Hc. destruct (Hback e ep' He) as (ep & Hep & [[_ ?]|(Hcl & Hr & _)]); [done|].
    rewrite Hr. apply (wf_closed w Hw e ep Hep). congruence.
  - intros e ep' p f He Hp. destruct (Hback e ep' He) as (ep & Hep & [[_ Hr]|(_ & Hr & _)]); rewrite Hr in Hp.
    + by rewrite lookup_empty in Hp.
    + rewrite Hfl. by eapply (wf_route w Hw).
  - intros f fl Hf. rewrite Hfl in Hf. destruct (wf_flow w Hw f fl Hf) as (ep & Hep & Hor).
    destruct (Hfwd _ ep Hep) as (ep' & Hep' & [[? _]|(Hc & Hr & _)]); exists ep'; (split; [done|]); [by left|].
    rewrite Hc, Hr. done.
  - rewrite Hfl. apply (wf_queue w Hw).
  - rewrite Hfl, Hb. apply (wf_budget w Hw).
  - rewrite Hl. etrans; [|apply (wf_limit w Hw)]. apply inj_le, map_subseteq_size, Hsub.
  - rewrite Hfl, Hn. split; [|apply (wf_next w Hw)]. intros e [ep' He].
    destruct (Hback e ep' He) as (ep & Hep & _). apply (proj1 (wf_next w Hw)). by eexists.
Qed.

(** Closing a list of endpoints. *)
Lemma close_all l w :
  flows (foldr close w l) = flows w /\ budget (foldr close w l) = budget w /\
  limit (foldr close w l) = limit w /\ next (foldr close w l) = next w /\
  endpoints (foldr close w l) = endpoints w /\
  owner_failure_since (foldr close w l) = owner_failure_since w /\
  forall e, heap (foldr close w l) !! e = if decide (e ∈ l) then shut <$> heap w !! e else heap w !! e.
Proof.
  induction l as [|x l (IH1 & IH2 & IH3 & IH4 & IH5 & IH6 & IH)]; cbn [foldr].
  { by split_and!. }
  unfold close, set_heap. cbn [flows budget limit next endpoints heap owner_failure_since]. split_and!; try done. intros e.
  destruct (decide (e = x)) as [->|Hne].
  - rewrite lookup_alter_eq, IH. rewrite (decide_True (P := x ∈ x :: l)) by by left.
    destruct (decide (x ∈ l)), (heap w !! x); done.
  - rewrite lookup_alter_ne by done. rewrite IH.
    destruct (decide (e ∈ l)); [by rewrite decide_True by by right|].
    by rewrite decide_False by (rewrite elem_of_cons; tauto).
Qed.

(** A pool that is the same but for closed endpoints taken out. *)
Lemma wf_remove w (m : gmap SocketAddr nat) l :
  m ⊆ endpoints w ->
  (forall s e, endpoints w !! s = Some e -> m !! s = None -> e ∈ l) ->
  wf w -> wf (set_endpoints m (foldr close w l)).
Proof.
  intros Hsub Hl Hw. destruct (close_all l w) as (Hfl & Hb & Hlim & Hn & He & _ & Hh).
  apply (wf_shrink w); unfold set_endpoints; cbn; try done. intros e. rewrite Hh.
  destruct (heap w !! e) as [ep|] eqn:Hep; [|by case_decide].
  case_decide as Hin; cbn; [by left|]. right. split_and!; [done|done|].
  intros _ s Hs. destruct (m !! s) as [e'|] eqn:Hm; [|by destruct Hin; eapply Hl].
  pose proof (lookup_weaken _ _ _ _ Hm Hsub). cbn. congruence.
Qed.

Lemma wf_retain keep w : wf w -> wf (retain keep w).
Proof.
  intros Hw. unfold retain. apply wf_remove; [apply map_filter_subseteq| |done].
  intros s e Hs Hm. apply list_elem_of_fmap. exists (s, e). split; [done|].
  apply elem_of_map_to_list. apply map_lookup_filter_Some. split; [done|].
  intros Hk. by rewrite (map_lookup_filter_Some_2 _ _ _ _ Hs Hk) in Hm.
Qed.

Lemma retain_endpoints keep w s e :
  endpoints (retain keep w) !! s = Some e <->
  endpoints w !! s = Some e /\ exists ep, heap w !! e = Some ep /\ keep s ep = true.
Proof.
  unfold retain, set_endpoints. cbn. rewrite map_lookup_filter_Some. unfold kept. cbn.
  destruct (heap w !! e) as [ep|].
  - split; [intros [? ?]; split; [done|by exists ep]|]. by intros (? & ? & [= <-] & ?).
  - split; [by intros [? ?]|]. by intros (? & ? & ? & ?).
Qed.

Lemma wf_evict s w : wf w -> wf (evict s w).
Proof.
  intros Hw. unfold evict. destruct (endpoints w !! s) as [e|] eqn:Hs; [|done].
  apply (wf_remove w _ [e]); [apply delete_subseteq| |done].
  intros s' e' Hs' Hd. destruct (decide (s = s')) as [<-|Hne].
  - rewrite Hs in Hs'. injection Hs' as ->. by left.
  - by rewrite lookup_delete_ne, Hs' in Hd.
Qed.

Lemma wf_retire s own iface w : wf w -> wf (retire_stale s own iface w).
Proof.
  intros Hw. unfold retire_stale. destruct (_ ≫= _) as [ep|]; [|done]. split_if E; [done|by apply wf_evict].
Qed.

(** A change of one endpoint that matters to no other part. *)
Lemma wf_alter f e w :
  (forall ep, (closed (f ep) = true /\ routes (f ep) = ∅) \/ (closed (f ep) = closed ep /\ routes (f ep) = routes ep)) ->
  wf w -> wf (set_heap (alter f e) w).
Proof.
  intros Hf. apply wf_shrink; try done. intros e'. cbn. destruct (decide (e = e')) as [<-|Hne].
  - rewrite lookup_alter_eq. destruct (heap w !! e) as [ep|]; [|done].
    destruct (Hf ep) as [?|[? ?]]; [by left|by right].
  - rewrite lookup_alter_ne by done. destruct (heap w !! e'); [by right|done].
Qed.

Lemma wf_close e w : wf w -> wf (close e w).
Proof. apply wf_alter. by left. Qed.

Lemma wf_stop e w : wf w -> wf (stop e w).
Proof. intros Hw. apply wf_alter; [by right|]. by apply wf_close. Qed.

Lemma wf_touch now e w : wf w -> wf (set_heap (alter (touch now) e) w).
Proof. apply wf_alter. by right. Qed.

Lemma wf_maintain now owners iface w : wf w -> wf (maintain_with now owners iface w).
Proof.
  intros Hw. unfold maintain_with. set (keep := fun _ => _). pose proof (wf_retain keep w Hw) as [].
  by split.
Qed.

Lemma wf_shutdown w : wf w -> wf (shutdown w).
Proof.
  intros Hw. unfold shutdown. set (l := (map_to_list (endpoints w)).*2).
  assert (wf (set_endpoints ∅ (foldr close w l))) as Hw1.
  { apply wf_remove; [apply map_empty_subseteq| |done]. intros s e Hs _. apply list_elem_of_fmap.
    exists (s, e). split; [done|]. by apply elem_of_map_to_list. }
  revert Hw1. apply wf_shrink; try done. intros e. cbn. rewrite lookup_fmap.
  destruct (heap _ !! e); [by right|done].
Qed.

(** *** Opening *)

Lemma heap_fresh w : wf w -> heap w !! next w = None /\ flows w !! next w = None.
Proof.
  intros Hw. destruct (wf_next w Hw) as [Hh Hf]. split; apply eq_None_not_Some.
  - intros He. apply Hh in He. lia.
  - intros He. apply Hf in He. lia.
Qed.

Lemma wf_add now s own iface w :
  wf w -> endpoints w !! s = None -> Z.of_nat (size (endpoints w)) < limit w ->
  wf (add_endpoint now s own iface w).
Proof.
  intros Hw Hs Hl. destruct (heap_fresh w Hw) as [Hh Hf]. unfold add_endpoint.
  assert (forall s' e, endpoints w !! s' = Some e -> e <> next w) as Hne.
  { intros s' e Hse ->. destruct (wf_pool w Hw _ _ Hse). congruence. }
  split; cbn.
  - intros s' e [[<- <-]|[? He]]%lookup_insert_Some; [rewrite lookup_insert_eq; by eexists|].
    rewrite lookup_insert_ne by (intros <-; by eapply Hne). by eapply (wf_pool w Hw).
  - intros s1 s2 e [[<- <-]|[? H1]]%lookup_insert_Some [[<- Heq]|[? H2]]%lookup_insert_Some; try done.
    + by destruct (Hne _ _ H2).
    + subst. by destruct (Hne _ _ H1).
    + by eapply (wf_inj w Hw).
  - intros e ep [[<- <-]|[? He]]%lookup_insert_Some Hc.
    + exists s. apply lookup_insert_eq.
    + destruct (wf_open w Hw e ep He Hc) as [s' Hs']. exists s'.
      rewrite lookup_insert_ne; [done|]. intros <-. congruence.
  - intros e ep [[<- <-]|[? He]]%lookup_insert_Some Hc; [done|by eapply (wf_closed w Hw)].
  - intros e ep p f [[<- <-]|[? He]]%lookup_insert_Some Hp; [cbn [routes] in Hp; by rewrite lookup_empty in Hp|].
    by eapply (wf_route w Hw).
  - intros f fl Hfl. destruct (wf_flow w Hw f fl Hfl) as (ep & Hep & Hor). exists ep. split; [|done].
    rewrite lookup_insert_ne; [done|]. intros Heq. congruence.
  - apply (wf_queue w Hw).
  - apply (wf_budget w Hw).
  - rewrite map_size_insert_None by done. lia.
  - destruct (wf_next w Hw) as [Hnh Hnf]. split.
    + intros e [ep [[<- _]|[? He]]%lookup_insert_Some]; [lia|]. specialize (Hnh e ltac:(by eexists)). lia.
    + intros f Hff. specialize (Hnf f Hff). lia.
Qed.

Lemma wf_register now e p w : wf w -> wf (snd (register now e p w)).
Proof.
  intros Hw. unfold register. destruct (heap w !! e) as [ep|] eqn:He; [|done].
  destruct (closed ep) eqn:Hc; [done|]. case_bool_decide as Hr; [done|].
  destruct (heap_fresh w Hw) as [Hh Hf]. cbn [snd].
  assert (e <> next w) as Hne by congruence.
  assert (routes ep !! p = None) as Hp by by apply eq_None_not_Some.
  split; cbn.
  - intros s e' Hs. destruct (wf_pool w Hw s e' Hs) as [ep' ?].
    destruct (decide (e = e')) as [<-|]; [rewrite lookup_insert_eq|rewrite lookup_insert_ne by done]; by eexists.
  - apply (wf_inj w Hw).
  - intros e' ep' [[<- <-]|[? He']]%lookup_insert_Some Hc'; by eapply (wf_open w Hw).
  - intros e' ep' [[<- <-]|[? He']]%lookup_insert_Some Hc'; [cbn in Hc'; congruence|by eapply (wf_closed w Hw)].
  - intros e' ep' p' f [[<- <-]|[? He']]%lookup_insert_Some Hp'.
    + cbn in Hp'. apply lookup_insert_Some in Hp' as [[<- <-]|[? Hp']].
      * eexists. split; [apply lookup_insert_eq|done].
      * destruct (wf_route w Hw e ep p' f He Hp') as (fl & Hfl & ?). exists fl.
        rewrite lookup_insert_ne by congruence. done.
    + destruct (wf_route w Hw e' ep' p' f He' Hp') as (fl & Hfl & ?). exists fl.
      rewrite lookup_insert_ne by congruence. done.
  - intros f fl [[<- <-]|[? Hfl]]%lookup_insert_Some.
    + eexists. split; [apply lookup_insert_eq|]. right. cbn. apply lookup_insert_eq.
    + destruct (wf_flow w Hw f fl Hfl) as (ep' & Hep' & Hor). destruct (decide (e = f_endpoint fl)) as [Heq|Hd].
      * eexists. rewrite <- Heq, lookup_insert_eq. split; [done|]. rewrite <- Heq, He in Hep'. injection Hep' as <-.
        destruct Hor as [?|Hor]; [by left|]. right. cbn. rewrite lookup_insert_ne by congruence. done.
      * exists ep'. by rewrite lookup_insert_ne.
  - intros f fl [[<- <-]|[? Hfl]]%lookup_insert_Some; [cbn; unfold PEER_QUEUE; lia|by eapply (wf_queue w Hw)].
  - rewrite total_insert by done. cbn. apply (wf_budget w Hw).
  - apply (wf_limit w Hw).
  - destruct (wf_next w Hw) as [Hnh Hnf]. split.
    + intros e' [ep' [[<- _]|[? He']]%lookup_insert_Some].
      * specialize (Hnh e ltac:(by eexists)). lia.
      * specialize (Hnh e' ltac:(by eexists)). lia.
    + intros f [fl [[<- _]|[? Hfl]]%lookup_insert_Some]; [lia|]. specialize (Hnf f ltac:(by eexists)). lia.
Qed.

(** Evicting makes room, and what it evicts is idle. *)
Lemma oldest_idle_spec w s a :
  oldest_idle w = Some (s, a) ->
  exists e ep, endpoints w !! s = Some e /\ heap w !! e = Some ep /\ routes ep = ∅ /\ last_activity ep = a.
Proof.
  unfold oldest_idle.
  assert (forall l acc, (forall s e, (s, e) ∈ l -> endpoints w !! s = Some e) ->
    (forall s a, acc = Some (s, a) -> exists e ep, endpoints w !! s = Some e /\ heap w !! e = Some ep /\
       routes ep = ∅ /\ last_activity ep = a) ->
    foldl (fun acc x =>
      match heap w !! x.2 with
      | Some e =>
          if bool_decide (routes e = ∅) then
            match acc with
            | Some (_, a) => if a <=? last_activity e then acc else Some (x.1, last_activity e)
            | None => Some (x.1, last_activity e)
            end
          else acc
      | None => acc
      end) acc l = Some (s, a) ->
    exists e ep, endpoints w !! s = Some e /\ heap w !! e = Some ep /\ routes ep = ∅ /\ last_activity ep = a) as Hg.
  { intros l. induction l as [|[s' e'] l IH]; intros acc Hl Hacc; [apply Hacc|]. cbn [foldl fst snd].
    apply IH; [intros s0 e0 H0; apply Hl; by right|].
    intros s0 a0. destruct (heap w !! e') as [ep|] eqn:He; [|apply Hacc].
    case_bool_decide as Hr; [|apply Hacc].
    assert (Some (s', last_activity ep) = Some (s0, a0) -> exists e ep, endpoints w !! s0 = Some e /\
      heap w !! e = Some ep /\ routes ep = ∅ /\ last_activity ep = a0) as Hnew.
    { intros [= <- <-]. exists e', ep. split_and!; try done. apply Hl. by left. }
    destruct acc as [[s1 a1]|]; [|done]. split_if E; [apply Hacc|apply Hnew]. }
  apply Hg; [|done]. intros s0 e0. by rewrite elem_of_map_to_list.
Qed.

Lemma make_room_spec w w' :
  wf w -> make_room w = Some w' -> wf w' /\ limit w' = limit w /\
  endpoints w' ⊆ endpoints w /\ Z.of_nat (size (endpoints w')) < limit w'.
Proof.
  intros Hw. unfold make_room. split_if E; b2p; [|intros [= <-]; split_and!; [done|done|done|lia]].
  destruct (oldest_idle w) as [[s a]|] eqn:Ho; [|done]. intros [= <-].
  destruct (oldest_idle_spec w s a Ho) as (e & ep & Hs & _). split; [by apply wf_evict|].
  unfold evict. rewrite Hs. cbn. split_and!; [done|apply delete_subseteq|].
  rewrite map_size_delete_Some by (by eexists). pose proof (wf_limit w Hw).
  assert (size (endpoints w) <> 0%nat); [|lia]. intros Hz. apply map_size_empty_inv in Hz.
  by rewrite Hz, lookup_empty in Hs.
Qed.

Lemma wf_open_with now s p own iface bound raced w :
  wf w -> wf (snd (open_with now s p own iface bound raced w)).
Proof.
  intros Hw. unfold open_with. split_if E; [done|]. cbv zeta.
  set (w2 := retire_stale s own iface (retain _ w)).
  assert (wf w2) as Hw2 by by apply wf_retire, wf_retain.
  clearbody w2.
  assert (forall w3, wf w3 -> wf (snd
    match endpoints w3 !! s with
    | None => (Panic, w3)
    | Some e => register now e p (if raced then close e w3 else w3)
    end)) as Hfin.
  { intros w3 Hw3. destruct (endpoints w3 !! s) as [e|]; [|done]. apply wf_register.
    destruct raced; [by apply wf_close|done]. }
  pose proof (Hfin w2 Hw2) as Hf2. destruct (endpoints w2 !! s) as [e|] eqn:Hs; [exact Hf2|].
  destruct (make_room w2) as [w3|] eqn:Hm; [|done].
  destruct (make_room_spec w2 w3 Hw2 Hm) as (Hw3 & _ & Hsub & Hl).
  destruct bound as [u|err|]; [|done|done]. apply Hfin. apply wf_add; [done| |done].
  destruct (endpoints w3 !! s) as [e|] eqn:He; [|done]. by rewrite (lookup_weaken _ _ _ _ He Hsub) in Hs.
Qed.

Lemma wf_open_pool now s p pol b owners egress bound raced w :
  wf w -> wf (snd (open now s p pol b owners egress bound raced w)).
Proof.
  intros Hw. unfold open. set (w1 := maintain_with _ _ _ _). assert (wf w1) as Hw1 by by apply wf_maintain.
  clearbody w1. destruct owners as [o|e|]; [|done|done]. destruct (p_udp_owner pol) as [own|]; [|done].
  split_if E; [done|]. destruct egress as [i|]; [|done]. by apply wf_open_with.
Qed.

(** *** Flows *)

(** A change of one flow that keeps its route. *)
Lemma wf_flow_update w fid e p q s q' s' b :
  wf w -> flows w !! fid = Some (mkFlow e p q s) -> (length q' <= PEER_QUEUE)%nat -> 0 <= b ->
  b + queued (mkFlow e p q' s') = budget w + queued (mkFlow e p q s) ->
  wf (set_flows (<[fid := mkFlow e p q' s']>) b w).
Proof.
  intros Hw Hf Hq Hb Hbud. pose proof (wf_budget w Hw) as [Hsum _]. split; cbn.
  - apply (wf_pool w Hw).
  - apply (wf_inj w Hw).
  - apply (wf_open w Hw).
  - apply (wf_closed w Hw).
  - intros e0 ep p0 f He Hp. destruct (wf_route w Hw e0 ep p0 f He Hp) as (fl & Hfl & He' & Hp').
    destruct (decide (fid = f)) as [<-|Hne]; [|exists fl; by rewrite lookup_insert_ne].
    rewrite Hf in Hfl. injection Hfl as <-. eexists. by rewrite lookup_insert_eq.
  - intros f fl [[<- <-]|[? Hfl]]%lookup_insert_Some; [apply (wf_flow w Hw _ _ Hf)|by apply (wf_flow w Hw)].
  - intros f fl [[<- <-]|[? Hfl]]%lookup_insert_Some; [done|by eapply (wf_queue w Hw)].
  - rewrite (total_update _ _ _ _ Hf). lia.
  - apply (wf_limit w Hw).
  - destruct (wf_next w Hw) as [Hnh Hnf]. split; [done|]. intros f [fl [[<- _]|[? Hfl]]%lookup_insert_Some]; apply Hnf; by eexists.
Qed.

Lemma wf_drop fid w : wf w -> wf (drop_flow fid w).
Proof.
  intros Hw. unfold drop_flow. destruct (flows w !! fid) as [f|] eqn:Hf; [|done].
  pose proof (total_delete _ _ _ Hf) as Ht. pose proof (wf_budget w Hw) as [Hsum Hb]. pose proof (queued_nonneg f).
  set (e0 := f_endpoint f) in *. set (drop_route := with_routes _).
  assert (forall e ep', alter drop_route e0 (heap w) !! e = Some ep' -> exists ep, heap w !! e = Some ep /\
    closed ep' = closed ep /\ ((e = e0 /\ routes ep' = delete (f_peer f) (routes ep)) \/ (e <> e0 /\ ep' = ep))) as Hback.
  { intros e ep' He. destruct (decide (e0 = e)) as [<-|Hne].
    - rewrite lookup_alter_eq in He. destruct (heap w !! e0) as [ep|]; [|done]. injection He as <-.
      exists ep. split_and!; [done|done|by left].
    - rewrite lookup_alter_ne in He by done. exists ep'. split_and!; [done|done|]. right. by split. }
  assert (forall e, is_Some (heap w !! e) -> is_Some (alter drop_route e0 (heap w) !! e)) as Hfwd.
  { intros e [ep He]. destruct (decide (e0 = e)) as [<-|Hne].
    - rewrite lookup_alter_eq, He. by eexists.
    - rewrite lookup_alter_ne by done. by eexists. }
  split; cbn.
  - intros s e Hs. by apply Hfwd, (wf_pool w Hw s).
  - apply (wf_inj w Hw).
  - intros e ep' He Hc. destruct (Hback e ep' He) as (ep & Hep & Hcl & _). apply (wf_open w Hw e ep Hep). congruence.
  - intros e ep' He Hc. destruct (Hback e ep' He) as (ep & Hep & Hcl & Hor).
    pose proof (wf_closed w Hw e ep Hep ltac:(congruence)) as Hr.
    destruct Hor as [[_ ->]|[_ ->]]; [rewrite Hr; apply delete_empty|done].
  - intros e ep' p f' He Hp. destruct (Hback e ep' He) as (ep & Hep & _ & Hor).
    assert (routes ep !! p = Some f' /\ (e = e0 -> p <> f_peer f)) as [Hr Hpe].
    { destruct Hor as [[-> Hr]|[? ->]]; [|by split]. rewrite Hr in Hp. apply lookup_delete_Some in Hp as [? ?].
      by split; [|intros _; congruence]. }
    destruct (wf_route w Hw e ep p f' Hep Hr) as (fl & Hfl & He' & Hp'). exists fl. split; [|done].
    rewrite lookup_delete_ne; [done|]. intros <-. rewrite Hf in Hfl. injection Hfl as <-. by destruct (Hpe (eq_sym He')).
  - intros f' fl [Hne Hfl]%lookup_delete_Some. destruct (wf_flow w Hw f' fl Hfl) as (ep & Hep & Hor).
    destruct (decide (e0 = f_endpoint fl)) as [Heq|Hd].
    + exists (drop_route ep). rewrite <- Heq in *. rewrite lookup_alter_eq, Hep. split; [done|].
      destruct Hor as [?|Hor]; [by left|]. destruct (closed ep) eqn:Hc; [by left|]. right. cbn.
      rewrite lookup_delete_ne; [done|]. intros Hpeer.
      destruct (wf_flow w Hw fid f Hf) as (ep1 & Hep1 & Hor1). fold e0 in Hep1. rewrite Hep in Hep1. injection Hep1 as <-.
      destruct Hor1 as [?|Hor1]; congruence.
    + exists ep. by rewrite lookup_alter_ne.
  - intros f' fl [_ Hfl]%lookup_delete_Some. by eapply (wf_queue w Hw).
  - lia.
  - apply (wf_limit w Hw).
  - destruct (wf_next w Hw) as [Hnh Hnf]. split.
    + intros e [ep' He]. destruct (Hback e ep' He) as (ep & Hep & _). apply Hnh. by eexists.
    + intros f' [fl [_ Hfl]%lookup_delete_Some]. apply Hnf. by eexists.
Qed.

Lemma wf_step op w : wf w -> wf (fst (step op w)).
Proof.
  intros Hw. destruct op as [now s p pol b o eg bd r|now o eg| |now e p d|e|f d|now f r|f ok|f]; cbn [step fst].
  - by apply wf_open_pool.
  - by apply wf_maintain.
  - by apply wf_shutdown.
  - unfold deliver. destruct (heap w !! e) as [ep|]; [|done]. destruct (receiving ep); [|done].
    destruct (routes ep !! p) as [fid|]; [|done]. destruct (flows w !! fid) as [[e' p' q s']|] eqn:Hf; [|done].
    split_if E; [|done]. b2p. cbn in *. apply wf_touch. eapply wf_flow_update; [done|done| |lia|].
    + rewrite length_app. simpl. lia.
    + rewrite queued_app. unfold queued. cbn. lia.
  - by apply wf_stop.
  - unfold take_payload. destruct (flows w !! f) as [[e p q [?|]]|] eqn:Hf; [done| |done].
    eapply wf_flow_update; [done|done|by apply (wf_queue w Hw _ _ Hf)|by destruct (wf_budget w Hw)|done].
  - unfold try_send. destruct (flows w !! f) as [[e p q [d|]]|] eqn:Hf; [|done|done].
    split_if E; [by apply wf_drop|]. destruct r as [err|]; [case_bool_decide; [done|by apply wf_drop]|].
    apply wf_touch. eapply wf_flow_update; [done|done|by apply (wf_queue w Hw _ _ Hf)|by destruct (wf_budget w Hw)|done].
  - unfold inject. destruct (flows w !! f) as [[e p [|d q] [?|]]|] eqn:Hf; [done|done|done| |done].
    assert (wf (set_flows (<[f := mkFlow e p q None]>) (budget w + cost d) w)) as Hw1.
    { pose proof (wf_budget w Hw) as [_ ?]. pose proof (cost_pos d). pose proof (wf_queue w Hw _ _ Hf) as Hq.
      eapply wf_flow_update; [done|done|cbn in Hq; lia|lia|]. unfold queued. cbn. lia. }
    split_if E; [by apply wf_drop|]. destruct ok; [done|by apply wf_drop].
  - by apply wf_drop.
Qed.

Lemma reach_wf lim ops w : 0 <= lim -> reach lim ops w -> wf w.
Proof. intros Hl. induction 1; [by apply wf_new|by apply wf_step]. Qed.

(** ** What the operations leave alone *)

(** The limit, and the flows of the operations on endpoints. *)
Lemma retain_frame keep w :
  flows (retain keep w) = flows w /\ limit (retain keep w) = limit w /\ next (retain keep w) = next w.
Proof.
  unfold retain. set (l := (map_to_list _).*2). destruct (close_all l w) as (Hf & _ & Hl & Hn & _). done.
Qed.

Lemma evict_frame s w : flows (evict s w) = flows w /\ limit (evict s w) = limit w /\ next (evict s w) = next w.
Proof. unfold evict. by destruct (endpoints w !! s). Qed.

Lemma retire_frame s own iface w :
  flows (retire_stale s own iface w) = flows w /\ limit (retire_stale s own iface w) = limit w /\
  next (retire_stale s own iface w) = next w.
Proof.
  unfold retire_stale. destruct (_ ≫= _) as [ep|]; [|done]. split_if E; [done|apply evict_frame].
Qed.

Lemma room_frame w w' :
  make_room w = Some w' -> flows w' = flows w /\ limit w' = limit w /\ next w' = next w.
Proof.
  unfold make_room. split_if E; [|by intros [= <-]].
  destruct (oldest_idle w) as [[s a]|]; [|done]. intros [= <-]. apply evict_frame.
Qed.

Lemma maintain_frame now owners iface w :
  flows (maintain_with now owners iface w) = flows w /\ limit (maintain_with now owners iface w) = limit w /\
  next (maintain_with now owners iface w) = next w.
Proof. unfold maintain_with. set (keep := fun _ => _). apply (retain_frame keep w). Qed.

Lemma register_frame now e p w :
  limit (snd (register now e p w)) = limit w /\
  (flows (snd (register now e p w)) = flows w \/
   flows (snd (register now e p w)) = <[next w := mkFlow e p [] None]> (flows w)).
Proof.
  unfold register. destruct (heap w !! e) as [ep|]; [|by split; [|left]].
  destruct (closed ep); [by split; [|left]|]. case_bool_decide; [by split; [|left]|by split; [|right]].
Qed.

Lemma open_with_frame now s p own iface bound raced w :
  let w' := snd (open_with now s p own iface bound raced w) in
  limit w' = limit w /\
  (flows w' = flows w \/ exists f e, flows w' = <[f := mkFlow e p [] None]> (flows w)).
Proof.
  unfold open_with. split_if E; [by split; [|left]|]. cbv zeta.
  set (w2 := retire_stale s own iface (retain _ w)).
  assert (flows w2 = flows w /\ limit w2 = limit w) as [Hf2 Hl2].
  { unfold w2. destruct (retire_frame s own iface (retain (fun _ e => negb (expired now e)) w)) as (-> & -> & _).
    destruct (retain_frame (fun _ e => negb (expired now e)) w) as (-> & -> & _). done. }
  clearbody w2.
  assert (forall w3, flows w3 = flows w -> limit w3 = limit w ->
    let w' := snd match endpoints w3 !! s with
                  | None => (Panic, w3)
                  | Some e => register now e p (if raced then close e w3 else w3)
                  end in
    limit w' = limit w /\ (flows w' = flows w \/ exists f e, flows w' = <[f := mkFlow e p [] None]> (flows w))) as Hfin.
  { intros w3 Hf3 Hl3. cbv zeta. destruct (endpoints w3 !! s) as [e|]; [|by split; [|left]].
    set (w4 := if raced then close e w3 else w3).
    assert (flows w4 = flows w /\ limit w4 = limit w) as [Hf4 Hl4] by by (unfold w4; destruct raced).
    destruct (register_frame now e p w4) as [-> [-> | ->]]; (split; [done|]); [by left|right].
    rewrite Hf4. by eexists _, _. }
  pose proof (Hfin w2 Hf2 Hl2) as H2. destruct (endpoints w2 !! s) as [e|]; [exact H2|].
  destruct (make_room w2) as [w3|] eqn:Hm; [|by split; [|left]].
  destruct (room_frame w2 w3 Hm) as (Hf3 & Hl3 & _).
  destruct bound as [u|err|]; [|cbn; split; [congruence|left; congruence]..].
  apply Hfin; cbn; congruence.
Qed.

Lemma step_limit op w : limit (fst (step op w)) = limit w.
Proof.
  destruct op as [now s p pol b o eg bd r|now o eg| |now e p d|e|f d|now f r|f ok|f]; cbn [step fst].
  - unfold open. set (w1 := maintain_with _ _ _ _).
    assert (limit w1 = limit w) as Hl by apply maintain_frame. clearbody w1. rewrite <- Hl.
    destruct o as [o|e|]; [|done|done]. destruct (p_udp_owner pol) as [own|]; [|done].
    split_if E; [done|]. destruct eg as [i|]; [|done]. apply (open_with_frame now s p own i bd r w1).
  - apply maintain_frame.
  - unfold shutdown. cbn. by destruct (close_all (map_to_list (endpoints w)).*2 w) as (_ & _ & ? & _).
  - unfold deliver. by repeat case_match.
  - done.
  - unfold take_payload. by repeat case_match.
  - unfold try_send, drop_flow. by repeat case_match.
  - unfold inject, drop_flow. by repeat case_match.
  - unfold drop_flow. by repeat case_match.
Qed.

(** A queue only grows by deliveries to the flow's own endpoint and peer. *)
Lemma step_queue op w fid f' d :
  wf w -> flows (fst (step op w)) !! fid = Some f' -> d ∈ f_queue f' ->
  (exists f, flows w !! fid = Some f /\ f_endpoint f = f_endpoint f' /\ f_peer f = f_peer f' /\ d ∈ f_queue f) \/
  exists now, op = Deliver now (f_endpoint f') (f_peer f') d.
Proof.
  intros Hw Hf Hd.
  assert (flows w !! fid = Some f' -> exists f, flows w !! fid = Some f /\ f_endpoint f = f_endpoint f' /\
    f_peer f = f_peer f' /\ d ∈ f_queue f) as Hsame by (intros ?; by exists f').
  assert (forall x, flows (drop_flow x w) !! fid = Some f' -> flows w !! fid = Some f') as Hdrop.
  { intros x. unfold drop_flow. destruct (flows w !! x); [|done]. cbn. by intros [_ ?]%lookup_delete_Some. }
  destruct op as [now s p pol b o eg bd r|now o eg| |now e p x|e|f x|now f r|f ok|f]; cbn [step fst] in Hf.
  - left. apply Hsame. revert Hf. unfold open. set (w1 := maintain_with _ _ _ _).
    assert (flows w1 = flows w) as <- by apply maintain_frame. clearbody w1.
    destruct o as [o|e|]; [|done|done]. destruct (p_udp_owner pol) as [own|]; [|done].
    split_if E; [done|]. destruct eg as [i|]; [|done].
    destruct (open_with_frame now s p own i bd r w1) as [_ [-> |(f0 & e0 & ->)]]; [done|].
    intros [[<- <-]|[_ ?]]%lookup_insert_Some; [by apply not_elem_of_nil in Hd|done].
  - left. apply Hsame. by destruct (maintain_frame now o eg w) as (<- & _).
  - left. apply Hsame. revert Hf. unfold shutdown. cbn.
    by destruct (close_all (map_to_list (endpoints w)).*2 w) as (-> & _).
  - revert Hf. unfold deliver. destruct (heap w !! e) as [ep|] eqn:He; [|by left; auto].
    destruct (receiving ep); [|by left; auto]. destruct (routes ep !! p) as [f0|] eqn:Hr; [|by left; auto].
    destruct (wf_route w Hw e ep p f0 He Hr) as (fl & Hfl & Hfe & Hfp). rewrite Hfl.
    split_if E; [|by left; auto]. cbn. intros [[<- <-]|[_ ?]]%lookup_insert_Some; [|by left; auto].
    cbn in *. apply elem_of_app in Hd as [Hd| ->%list_elem_of_singleton].
    + left. exists fl. done.
    + right. exists now. congruence.
  - left. by apply Hsame.
  - left. revert Hf. unfold take_payload. destruct (flows w !! f) as [[e p q [?|]]|] eqn:Hfl; [by auto| |by auto].
    cbn. intros [[<- <-]|[_ ?]]%lookup_insert_Some; [|auto]. by eexists.
  - left. revert Hf. unfold try_send. destruct (flows w !! f) as [[e p q [x|]]|] eqn:Hfl; [|by auto|by auto].
    split_if E; [by eauto|]. destruct r as [err|]; [case_bool_decide; cbn; by eauto|].
    cbn. intros [[<- <-]|[_ ?]]%lookup_insert_Some; [|auto]. by eexists.
  - left. revert Hf. unfold inject. destruct (flows w !! f) as [[e p [|x q] [?|]]|] eqn:Hfl; [by auto..| |by auto].
    cbv zeta. set (w1 := set_flows _ _ _).
    assert (forall g, flows w1 !! fid = Some g -> d ∈ f_queue g -> exists f1, flows w !! fid = Some f1 /\
      f_endpoint f1 = f_endpoint g /\ f_peer f1 = f_peer g /\ d ∈ f_queue f1) as H1.
    { intros g. unfold w1. cbn. intros [[<- <-]|[_ ?]]%lookup_insert_Some Hg; [|by exists g].
      eexists. split; [done|]. cbn in *. split_and!; [done|done|by right]. }
    assert (flows (drop_flow f w1) !! fid = Some f' -> flows w1 !! fid = Some f') as Hd1.
    { unfold drop_flow. destruct (flows w1 !! f); [|done]. cbn. by intros [_ ?]%lookup_delete_Some. }
    split_if E; [cbn; eauto|]. destruct ok; cbn; eauto.
  - left. eauto.
Qed.

Lemma reach_queue lim ops w fid f d :
  0 <= lim -> reach lim ops w -> flows w !! fid = Some f -> d ∈ f_queue f ->
  exists now, Deliver now (f_endpoint f) (f_peer f) d ∈ ops.
Proof.
  intros Hl Hr. revert fid f. induction Hr as [|ops op w Hr IH]; intros fid f Hf Hd.
  { cbn [new flows] in Hf. by rewrite lookup_empty in Hf. }
  destruct (step_queue op w fid f d (reach_wf lim ops w Hl Hr) Hf Hd) as [(f0 & Hf0 & He & Hp & Hd0)|[now ->]].
  - destruct (IH fid f0 Hf0 Hd0) as [now Hin]. exists now. rewrite He, Hp in Hin. apply elem_of_app. by left.
  - exists now. apply elem_of_app. right. by left.
Qed.

(** ** Ownership *)

Lemma retain_heap keep w s e :
  wf w -> endpoints (retain keep w) !! s = Some e -> heap (retain keep w) !! e = heap w !! e.
Proof.
  intros Hw Hs. apply retain_endpoints in Hs as (Hs & ep & Hep & Hk). unfold retain, set_endpoints. cbn.
  set (l := (map_to_list _).*2). destruct (close_all l w) as (_ & _ & _ & _ & _ & _ & Hh). rewrite Hh.
  rewrite decide_False; [done|]. intros ([s' e'] & -> & Hin)%list_elem_of_fmap. cbn in *.
  apply elem_of_map_to_list, map_lookup_filter_Some in Hin as [Hs' Hnk].
  apply Hnk. unfold kept. cbn. rewrite Hep. by rewrite (wf_inj w Hw s' s e' Hs' Hs).
Qed.

(** The endpoint of a source belongs to [own] on [iface]. *)
Definition owned_by (w : Pool) (s : SocketAddr) (own : SocketOwner) (iface : BindInterface) (e : nat) : Prop :=
  exists ep, heap w !! e = Some ep /\ owner ep = own /\ uses_interface s (interface ep) iface = true.

Lemma retire_owned s own iface w e :
  wf w -> endpoints (retire_stale s own iface w) !! s = Some e ->
  owned_by (retire_stale s own iface w) s own iface e.
Proof.
  intros Hw. unfold retire_stale. destruct (endpoints w !! s) as [e0|] eqn:Hs; cbn; [|by rewrite Hs].
  destruct (heap w !! e0) as [ep|] eqn:He.
  - split_if E; b2p.
    + rewrite Hs. intros [= <-]. by exists ep.
    + unfold evict. rewrite Hs. cbn. by rewrite lookup_delete_eq.
  - rewrite Hs. intros [= <-]. destruct (wf_pool w Hw s e0 Hs). congruence.
Qed.

Lemma uses_interface_refl s i : uses_interface s i i = true.
Proof. unfold uses_interface. split_if E; apply Z.eqb_refl. Qed.

(** A flow opened on an endpoint of the source. *)
Definition opened (w : Pool) (s p : SocketAddr) (own : SocketOwner) (iface : BindInterface) (fid : nat) : Prop :=
  exists e ep, endpoints w !! s = Some e /\ heap w !! e = Some ep /\ closed ep = false /\ owner ep = own /\
    uses_interface s (interface ep) iface = true /\ routes ep !! p = Some fid /\
    flows w !! fid = Some (mkFlow e p [] None).

Lemma register_opened now s p own iface e w fid w' :
  endpoints w !! s = Some e -> owned_by w s own iface e -> register now e p w = (Ok (Some fid), w') ->
  opened w' s p own iface fid /\ fid = next w.
Proof.
  intros Hs (ep & He & Ho & Hu). unfold register. rewrite He. destruct (closed ep) eqn:Hc; [done|].
  case_bool_decide; [done|]. intros [= <- <-]. split; [|done].
  exists e, (touch now (with_routes (<[p := next w]>) ep)). cbn. split_and!; try done; apply lookup_insert_eq.
Qed.

Lemma open_with_opened now s p own iface bound raced w fid w' :
  wf w -> open_with now s p own iface bound raced w = (Ok (Some fid), w') ->
  opened w' s p own iface fid /\ flows w !! fid = None.
Proof.
  intros Hw. unfold open_with. split_if E; [done|]. cbv zeta.
  set (w1 := retain _ w). assert (wf w1) as Hw1 by by apply wf_retain.
  destruct (retain_frame (fun _ e => negb (expired now e)) w) as (Hf1 & _ & Hn1). fold w1 in Hf1, Hn1.
  clearbody w1. pose proof (wf_retire s own iface w1 Hw1) as Hw2.
  pose proof (retire_owned s own iface w1) as Hown. destruct (retire_frame s own iface w1) as (Hf2 & _ & Hn2).
  destruct (heap_fresh w Hw) as [_ Hfresh].
  set (w2 := retire_stale s own iface w1) in *. clearbody w2.
  assert (forall w3 e, endpoints w3 !! s = Some e -> owned_by w3 s own iface e -> (next w <= next w3)%nat ->
    register now e p (if raced then close e w3 else w3) = (Ok (Some fid), w') ->
    opened w' s p own iface fid /\ flows w !! fid = None) as Hfin.
  { intros w3 e He Ho Hle Hr. set (w4 := if raced then close e w3 else w3) in *.
    assert (endpoints w4 !! s = Some e /\ owned_by w4 s own iface e /\ next w4 = next w3) as (He4 & Ho4 & Hn4).
    { unfold w4. destruct raced; [|done]. split_and!; [done| |done]. destruct Ho as (ep & Hep & ? & ?).
      exists (shut ep). cbn. rewrite lookup_alter_eq, Hep. done. }
    destruct (register_opened now s p own iface e w4 fid w' He4 Ho4 Hr) as [? ->]. split; [done|].
    apply eq_None_not_Some. intros Hx. apply (wf_next w Hw) in Hx. lia. }
  destruct (endpoints w2 !! s) as [e|] eqn:Hs.
  - apply (Hfin w2 e Hs); [by apply Hown|lia].
  - destruct (make_room w2) as [w3|] eqn:Hm; [|done]. destruct (room_frame w2 w3 Hm) as (_ & _ & Hn3).
    destruct bound as [u|err|]; [|done|done]. unfold add_endpoint at 1. cbn [endpoints]. rewrite lookup_insert_eq.
    apply Hfin; cbn; [apply lookup_insert_eq| |lia].
    eexists. cbn. rewrite lookup_insert_eq. split_and!; [done|done|apply uses_interface_refl].
Qed.

(** ** Theorems *)

(** C33. Under every interleaving of opening, maintenance, receiving, sending and
    closing, the pool respects its limit, the bytes queued and the budget left
    are the whole budget, an open endpoint is the pool's only endpoint of its
    source, a closed one has no routes, and no two flows share a peer of an
    open endpoint. *)
Theorem udp_bypass_invariant lim ops w :
  0 <= lim -> reach lim ops w ->
  Z.of_nat (size (endpoints w)) <= Z.min lim 1024 /\
  budget w + total (flows w) = QUEUED_BYTES /\ 0 <= budget w /\
  (forall fid f, flows w !! fid = Some f -> (length (f_queue f) <= PEER_QUEUE)%nat) /\
  (forall e ep, heap w !! e = Some ep ->
     if closed ep then routes ep = ∅ else exists! s, endpoints w !! s = Some e) /\
  (forall f1 f2 a b ep, flows w !! f1 = Some a -> flows w !! f2 = Some b ->
     f_endpoint a = f_endpoint b -> f_peer a = f_peer b ->
     heap w !! f_endpoint a = Some ep -> closed ep = false -> f1 = f2).
Proof.
  intros Hl Hr. pose proof (reach_wf lim ops w Hl Hr) as Hw.
  assert (limit w = Z.min lim 1024) as Hlim.
  { clear Hw. induction Hr as [|ops op w Hr IH]; [done|]. by rewrite step_limit. }
  pose proof (wf_limit w Hw). destruct (wf_budget w Hw) as [Hs Hb].
  split_and!; [lia|done|done|apply (wf_queue w Hw)| |].
  - intros e ep He. destruct (closed ep) eqn:Hc; [by apply (wf_closed w Hw e ep)|].
    destruct (wf_open w Hw e ep He Hc) as [s Hs']. exists s. split; [done|].
    intros s2 Hs2. by eapply (wf_inj w Hw).
  - intros f1 f2 a b ep Ha Hfb He Hp Hep Hc.
    destruct (wf_flow w Hw f1 a Ha) as (ep1 & Hep1 & Hor1), (wf_flow w Hw f2 b Hfb) as (ep2 & Hep2 & Hor2).
    rewrite <- He in Hep2. rewrite Hep in Hep1, Hep2. injection Hep1 as <-. injection Hep2 as <-.
    rewrite Hc in Hor1, Hor2. destruct Hor1 as [?|Hr1]; [done|]. destruct Hor2 as [?|Hr2]; [done|].
    rewrite <- Hp in Hr2. congruence.
Qed.

(** C11. Nothing leaves through a retired endpoint: whatever a flow sends or injects
    in a reachable state, its endpoint is open and is the pool's current
    endpoint of its source, the route of its peer is its own, and an injected
    reply is a datagram that arrived at that endpoint from that peer. *)
Theorem udp_bypass_isolated lim ops w op out :
  0 <= lim -> reach lim ops w -> out ∈ snd (step op w) ->
  exists fid d f ep s,
    flows w !! fid = Some f /\ heap w !! f_endpoint f = Some ep /\ closed ep = false /\
    endpoints w !! s = Some (f_endpoint f) /\ routes ep !! f_peer f = Some fid /\
    ((out = Sent fid d /\ f_sending f = Some d) \/
     (out = Injected fid d /\ exists now, Deliver now (f_endpoint f) (f_peer f) d ∈ ops)).
Proof.
  intros Hl Hr Hout. pose proof (reach_wf lim ops w Hl Hr) as Hw.
  assert (forall fid f, flows w !! fid = Some f -> flow_closed w f = false ->
    exists ep s, heap w !! f_endpoint f = Some ep /\ closed ep = false /\
      endpoints w !! s = Some (f_endpoint f) /\ routes ep !! f_peer f = Some fid) as Hopen.
  { intros fid f Hf Hc. destruct (wf_flow w Hw fid f Hf) as (ep & Hep & Hor). unfold flow_closed in Hc.
    rewrite Hep in Hc. destruct (wf_open w Hw _ ep Hep Hc) as [s Hs]. exists ep, s.
    split_and!; try done. destruct Hor; [congruence|done]. }
  destruct op as [now s p pol b o eg bd r|now o eg| |now e p x|e|fid x|now fid r|fid ok|fid]; cbn [step snd] in Hout;
    try (by apply not_elem_of_nil in Hout).
  - unfold try_send in Hout. destruct (flows w !! fid) as [[e p q [d|]]|] eqn:Hf;
      [|by apply not_elem_of_nil in Hout..].
    destruct (flow_closed w _) eqn:Hc; [by apply not_elem_of_nil in Hout|].
    destruct r as [err|]; [destruct (bool_decide _); by apply not_elem_of_nil in Hout|].
    cbn in Hout. apply list_elem_of_singleton in Hout as ->.
    destruct (Hopen fid _ Hf Hc) as (ep & s & ? & ? & ? & ?).
    exists fid, d, (mkFlow e p q (Some d)), ep, s. split_and!; try done. by left.
  - unfold inject in Hout. destruct (flows w !! fid) as [[e p [|d q] [?|]]|] eqn:Hf;
      try (by apply not_elem_of_nil in Hout).
    cbv zeta in Hout. destruct (flow_closed w _) eqn:Hc; [by apply not_elem_of_nil in Hout|].
    destruct ok; [|by apply not_elem_of_nil in Hout].
    cbn in Hout. apply list_elem_of_singleton in Hout as ->.
    destruct (Hopen fid _ Hf Hc) as (ep & s & ? & ? & ? & ?).
    exists fid, d, (mkFlow e p (d :: q) None), ep, s. split_and!; try done. right. split; [done|].
    apply (reach_queue lim ops w fid _ d Hl Hr Hf). by left.
Qed.

(** Endpoints follow their owners.  After maintenance with a table of owners
    only endpoints that the table still gives to their owner, on the current
    interface, are left, and all others are closed; a flow is opened only for
    the process the table names as the owner of its source while the process is
    still bypassed, it is new, and its endpoint belongs to that process and to
    the current interface. *)
Theorem udp_bypass_owned lim ops w :
  0 <= lim -> reach lim ops w ->
  (forall now o egress s e, let w' := maintain_with now (Some o) egress w in
     endpoints w' !! s = Some e ->
     exists ep i, heap w' !! e = Some ep /\ closed ep = false /\ owners_get o s = Some (owner ep) /\
       egress = Some i /\ uses_interface s (interface ep) i = true) /\
  (forall now s p pol b owners egress bound raced fid w',
     open now s p pol b owners egress bound raced w = (Ok (Some fid), w') ->
     exists o own i, owners = Ok o /\ p_udp_owner pol = Some own /\ owners_get o s = Some own /\
       p_bypass pol = true /\ is_current b pol = true /\ egress = Some i /\
       opened w' s p own i fid /\ flows w !! fid = None).
Proof.
  intros Hl Hr. pose proof (reach_wf lim ops w Hl Hr) as Hw. split.
  - intros now o egress s e. unfold maintain_with. cbv zeta.
    match goal with |- context [retain ?k w] => set (keep := k) end. cbn [heap endpoints]. intros Hs.
    rewrite (retain_heap keep w s e Hw Hs). apply retain_endpoints in Hs as (Hs & ep & Hep & Hk).
    unfold keep in Hk. cbn in Hk. apply andb_true_iff in Hk as [Hk He]. apply andb_true_iff in Hk as [Hk Hi].
    apply bool_decide_eq_true_1 in Hk. destruct egress as [i|]; [|done]. exists ep, i. split_and!; try done.
    unfold expired in He. by destruct (closed ep).
  - intros now s p pol b owners egress bound raced fid w'. unfold open. set (w1 := maintain_with _ _ _ _).
    assert (wf w1) as Hw1 by by apply wf_maintain.
    assert (flows w1 = flows w) as Hfl by apply maintain_frame. clearbody w1.
    destruct owners as [o|e|]; [|done|done]. destruct (p_udp_owner pol) as [own|]; [|done].
    destruct (negb _ || _ || _) eqn:E; [done|]. b2p.
    destruct egress as [i|]; [|done]. intros Ho.
    destruct (open_with_opened now s p own i bound raced w1 fid w' Hw1 Ho) as [Hop Hnew].
    exists o, own, i. split_and!; try done. congruence.
Qed.

(** ** A concrete run: a flow is opened and receives a reply *)

Definition run (ops : list Op) (w : Pool) : Pool := foldl (fun w op => fst (step op w)) w ops.

Lemma reach_run lim ops : reach lim ops (run ops (new lim)).
Proof.
  induction ops as [|op ops IH] using rev_ind; [constructor|].
  unfold run. rewrite foldl_app. by apply reach_step.
Qed.

Section examples.
Definition app_socket : SocketAddr := mkSA (ipv4 10 0 0 2) 40000.
Definition game_server : SocketAddr := mkSA (ipv4 93 184 216 34) 27015.
Definition game : SocketOwner := mkOwner 7 5.
Definition table_now : UdpOwners := owners_snapshot [udp_entry app_socket 7 5].
Definition rules : Process.ProcessBypass := Process.set_names [as_bytes "Game.exe"] Process.default_bypass.
Definition game_policy : SessionPolicy := mkPolicy [as_bytes "game"] 1 true (Some game).
Definition ethernet : BindInterface := mkBind 7 7 None [] "eth0".

Definition open_op : Op :=
  Open 10 app_socket game_server game_policy rules (Ok table_now) (Some ethernet) (Ok tt) false.
Definition example_ops : list Op := [open_op; Deliver 11 0 game_server [1; 2]].
Definition example_pool : Pool := run example_ops (new 64).

Lemma udp_bypass_invariant_witness :
  budget example_pool + total (flows example_pool) = QUEUED_BYTES /\ budget example_pool = 8388606.
Proof.
  split; [|by vm_compute].
  exact (proj1 (proj2 (udp_bypass_invariant 64 example_ops example_pool ltac:(done) (reach_run 64 example_ops)))).
Defined.

Lemma udp_bypass_isolated_witness :
  exists fid d f ep s,
    flows example_pool !! fid = Some f /\ heap example_pool !! f_endpoint f = Some ep /\ closed ep = false /\
    endpoints example_pool !! s = Some (f_endpoint f) /\ routes ep !! f_peer f = Some fid /\
    ((Injected 1 [1; 2] = Sent fid d /\ f_sending f = Some d) \/
     (Injected 1 [1; 2] = Injected fid d /\ exists now, Deliver now (f_endpoint f) (f_peer f) d ∈ example_ops)).
Proof.
  apply (udp_bypass_isolated 64 example_ops example_pool (Inject 1 true) (Injected 1 [1; 2]));
    [done|apply reach_run|]. assert (snd (step (Inject 1 true) example_pool) = [Injected 1 [1; 2]]) as -> by by vm_compute.
  by left.
Defined.

Lemma udp_bypass_owned_witness :
  exists o own i, Ok (E := IoError) table_now = Ok o /\ p_udp_owner game_policy = Some own /\
    owners_get o app_socket = Some own /\ p_bypass game_policy = true /\ is_current rules game_policy = true /\
    Some ethernet = Some i /\
    opened (snd (open 10 app_socket game_server game_policy rules (Ok table_now) (Some ethernet) (Ok tt) false (new 64)))
      app_socket game_server own i 1 /\ flows (new 64) !! 1%nat = None.
Proof.
  apply (proj2 (udp_bypass_owned 64 [] (new 64) ltac:(done) (reach_new 64)) 10 app_socket game_server game_policy
    rules (Ok table_now) (Some ethernet) (Ok tt) false 1%nat). by vm_compute.
Defined.
End examples.
End UdpBypassProofs.
