(* ===== verification/Udpgw.v ===== *)
(** * UDP gateway frames (src/src/udpgw.rs, the codec)

    [Packet] and its header, the three decoders of a frame (a slice, a stream,
    an asynchronous stream), the encoder, the builders and
    [parse_udp_response].  The address field is the SOCKS library's
    ([Socks5Impl.v]). *)

From S2P Require Import Prelude Net Socks5Impl Rfc1928 ProxyHandler Streams.

Module Udpgw.

Definition UDPGW_LENGTH_FIELD_SIZE : nat := 2.
Definition UDPGW_MAX_CONNECTIONS : nat := 5.

(** [UdpFlag]: a byte of flags. *)
Definition UdpFlag := Z.
Definition ZERO : UdpFlag := 0x00.
Definition KEEPALIVE : UdpFlag := 0x01.
Definition DATA : UdpFlag := 0x02.
Definition CLOSE : UdpFlag := 0x04.
Definition ERR : UdpFlag := 0x20.

(** [flags & flag == flag]. *)
Definition has_flag (flags flag : UdpFlag) : bool := Z.land flags flag =? flag.

Record UdpgwHeader := mkHeader { flags : UdpFlag; conn_id : Z }.

#[export] Instance UdpgwHeader_eq_dec : EqDecision UdpgwHeader.
Proof. solve_decision. Defined.

(** [UdpgwHeader::static_len], which is also its [len]. *)
Definition static_len : nat := 3.

Record Packet := mkPacket { header : UdpgwHeader; address : option Address; data : list Z }.

#[export] Instance Packet_eq_dec : EqDecision Packet.
Proof. solve_decision. Defined.

(** [impl From<&UdpgwHeader> for Vec<u8>] and [TryFrom<&[u8]> for UdpgwHeader]. *)
Definition header_bytes (h : UdpgwHeader) : list Z := flags h :: be16 (conn_id h).

Definition header_try_from (value : list Z) : res IoError UdpgwHeader :=
  match value with
  | f :: hi :: lo :: _ => Ok (mkHeader f (of_be16 hi lo))
  | _ => Err (io_of_kind InvalidData)
  end.

(** [UdpgwHeader::retrieve_from_stream]. *)
Definition header_retrieve (bs : list Z) : res IoError (UdpgwHeader * list Z) :=
  '(buf, rest) ← read_exact static_len bs;
  h ← header_try_from buf;
  mret (h, rest).

(** The asynchronous reader of an address, [Address::retrieve_from_async_stream]:
    it reads the field that [address_read] reads. *)
Class Socks5Async `{Socks5} :=
  address_read_async :
    list (res IoError (list Z)) -> res IoError Address * list (res IoError (list Z)).

Class Socks5AsyncLaws `{Socks5Async} := {
  address_read_async_ok : forall rs a rest,
    address_read (received rs) = Ok (a, rest) ->
    exists rs', address_read_async rs = (Ok a, rs') /\ received rs' = rest;
  address_read_async_used : forall rs a rs',
    address_read_async rs = (Ok a, rs') ->
    exists used, received rs = used ++ received rs' /\ length used = address_len a;
}.

Section codec.
Context `{Socks5}.

(** [address.as_ref().map_or(0, |addr| addr.len())]. *)
Definition opt_len (a : option Address) : nat :=
  match a with Some a => address_len a | None => 0%nat end.

(** [Packet::len]. *)
Definition packet_len (p : Packet) : nat :=
  (UDPGW_LENGTH_FIELD_SIZE + static_len + opt_len (address p) + length (data p))%nat.

(** [Packet::write_to_buf], which is the conversion into bytes. *)
Definition to_bytes (p : Packet) : list Z :=
  be16 (wrap16 (Z.of_nat (packet_len p - UDPGW_LENGTH_FIELD_SIZE))) ++
  header_bytes (header p) ++
  match address p with Some a => address_write a | None => [] end ++
  data p.

(** The address field follows the header of a packet with the DATA flag. *)
Definition retrieve_address (h : UdpgwHeader) (bs : list Z) : res IoError (option Address * list Z) :=
  if has_flag (flags h) DATA then
    '(a, rest) ← address_read bs; mret (Some a, rest)
  else mret (None, bs).

(** [TryFrom<&[u8]> for Packet]. *)
Definition try_from (value : list Z) : res IoError Packet :=
  match value with
  | hi :: lo :: _ =>
      let length_ := Z.to_nat (of_be16 hi lo) in
      let total := (length_ + UDPGW_LENGTH_FIELD_SIZE)%nat in
      if (length value <? total)%nat then Err (mkIo InvalidData "incomplete frame")
      else
        let iter := take length_ (drop UDPGW_LENGTH_FIELD_SIZE value) in
        '(h, iter1) ← header_retrieve iter;
        '(a, iter2) ← retrieve_address h iter1;
        let read_len := (static_len + opt_len a)%nat in
        if (length_ <? read_len)%nat then
          Err (mkIo InvalidData "length field smaller than header and address length")
        else Ok (mkPacket h a iter2)
  | _ => Err (mkIo InvalidData "frame too short")
  end.

(** [Packet::retrieve_from_stream]. *)
Definition retrieve_from_stream (bs : list Z) : res IoError (Packet * list Z) :=
  '(buf, s1) ← read_exact UDPGW_LENGTH_FIELD_SIZE bs;
  let length_ := match buf with hi :: lo :: _ => Z.to_nat (of_be16 hi lo) | _ => 0%nat end in
  '(h, s2) ← header_retrieve s1;
  '(a, s3) ← retrieve_address h s2;
  let read_len := (static_len + opt_len a)%nat in
  if (length_ <? read_len)%nat then Err (io_of_kind InvalidData)
  else
    '(d, s4) ← read_exact (length_ - read_len) s3;
    mret (mkPacket h a d, s4).

(** [UdpgwHeader::retrieve_from_async_stream]. *)
Definition header_retrieve_async
    : M (list (res IoError (list Z))) IoError UdpgwHeader :=
  buf ← (read_exact_async static_len : M _ _ _);
  lift (header_try_from buf).

Definition retrieve_address_async `{!Socks5Async} (h : UdpgwHeader)
    : M (list (res IoError (list Z))) IoError (option Address) :=
  if has_flag (flags h) DATA then
    a ← (address_read_async : M _ _ _); mret (Some a)
  else mret None.

(** [Packet::retrieve_from_async_stream]. *)
Definition retrieve_from_async_stream `{!Socks5Async}
    : M (list (res IoError (list Z))) IoError Packet :=
  buf ← (read_exact_async UDPGW_LENGTH_FIELD_SIZE : M _ _ _);
  let length_ := match buf with hi :: lo :: _ => Z.to_nat (of_be16 hi lo) | _ => 0%nat end in
  h ← header_retrieve_async;
  a ← retrieve_address_async h;
  let read_len := (static_len + opt_len a)%nat in
  if (length_ <? read_len)%nat then throw (io_of_kind InvalidData)
  else
    d ← (read_exact_async (length_ - read_len) : M _ _ _);
    mret (mkPacket h a d).

(** ** Builders *)

Definition build_keepalive_packet (id : Z) : Packet := mkPacket (mkHeader KEEPALIVE id) None [].
Definition build_close_packet (id : Z) : Packet := mkPacket (mkHeader CLOSE id) None [].
Definition build_error_packet (id : Z) : Packet := mkPacket (mkHeader ERR id) None [].

Definition build_ip_packet (id : Z) (remote_addr : SocketAddr) (d : list Z) : Packet :=
  mkPacket (mkHeader DATA id) (Some (SocketAddress remote_addr)) d.

(** [packet.len().saturating_sub(UDPGW_LENGTH_FIELD_SIZE) > u16::MAX]. *)
Definition oversized (p : Packet) : bool :=
  u16_max <? Z.of_nat (packet_len p - UDPGW_LENGTH_FIELD_SIZE).

Definition build_domain_packet (id port : Z) (domain : string) (d : list Z) : res IoError Packet :=
  if 255 <? len (as_bytes domain) then
    Err (mkIo InvalidInput "domain name exceeds 255 characters")
  else
    let packet := mkPacket (mkHeader DATA id) (Some (DomainAddress domain port)) d in
    if oversized packet then Err (mkIo InvalidInput "udpgw packet exceeds maximum frame length")
    else Ok packet.

Definition build_packet_from_address (id : Z) (remote_addr : Address) (d : list Z)
    : res IoError Packet :=
  packet ← match remote_addr with
           | SocketAddress addr => Ok (build_ip_packet id addr d)
           | DomainAddress domain port => build_domain_packet id port domain d
           end;
  if oversized packet then Err (mkIo InvalidInput "udpgw packet exceeds maximum frame length")
  else Ok packet.

(** ** Responses *)

Inductive UdpGwResponse := KeepAlive | RError | TcpClose | RData (p : Packet).

(** [UdpGwClient::parse_udp_response]. *)
Definition parse_udp_response (udp_mtu : Z) (packet : Packet) : res Error UdpGwResponse :=
  let f := flags (header packet) in
  if has_flag f ERR then Ok RError
  else if has_flag f KEEPALIVE then Ok KeepAlive
  else if has_flag f CLOSE then Ok TcpClose
  else if udp_mtu <? len (data packet) then Err (EString "too much data")
  else Ok (RData packet).

End codec.

(** ** Properties *)

(** The reader of an asynchronous stream can be built from the reader of a
    byte sequence. *)
Definition address_read_chunks `{Socks5} (rs : list (res IoError (list Z)))
    : res IoError Address * list (res IoError (list Z)) :=
  match address_read (received rs) with
  | Ok (a, rest) =>
      let '(r, rs') := read_exact_async (length (received rs) - length rest) rs in
      (_ ← r; mret a, rs')
  | Err e => (Err e, [])
  | Panic => (Panic, [])
  end.

Lemma header_retrieve_inv bs h rest :
  header_retrieve bs = Ok (h, rest) ->
  exists f hi lo, bs = f :: hi :: lo :: rest /\ h = mkHeader f (of_be16 hi lo).
Proof.
  unfold header_retrieve. destruct (read_exact static_len bs) as [[buf r]|?|] eqn:E; try done.
  apply read_exact_inv in E as [-> Hn]. destruct buf as [|f [|hi [|lo [|]]]]; try done.
  cbn. intros [= <- <-]. by exists f, hi, lo.
Qed.

Lemma header_retrieve_cons f hi lo rest :
  header_retrieve (f :: hi :: lo :: rest) = Ok (mkHeader f (of_be16 hi lo), rest).
Proof.
  change (f :: hi :: lo :: rest) with ([f; hi; lo] ++ rest).
  unfold header_retrieve. by rewrite read_exact_app.
Qed.

Lemma header_retrieve_bytes h rest :
  is_u16 (conn_id h) -> header_retrieve (header_bytes h ++ rest) = Ok (h, rest).
Proof.
  intros Hid. destruct h as [f c]. unfold header_bytes, be16. cbn [app flags conn_id] in *.
  by rewrite header_retrieve_cons, of_be16_be16.
Qed.

Lemma header_retrieve_async_ok rs h rest :
  header_retrieve (received rs) = Ok (h, rest) ->
  exists rs', header_retrieve_async rs = (Ok h, rs') /\ received rs' = rest.
Proof.
  intros (f & hi & lo & Hr & ->)%header_retrieve_inv.
  destruct (read_exact_async_app [f; hi; lo] rest rs Hr) as (rs' & Hrs & <-).
  exists rs'. split; [|done]. unfold header_retrieve_async, mbind, M_bind, static_len.
  change (length [f; hi; lo]) with 3%nat in Hrs. by rewrite Hrs.
Qed.

Section properties.
Context `{Socks5Laws}.

(** A packet the frame format can carry. *)
Definition packet_wf (p : Packet) : Prop :=
  is_u8 (flags (header p)) /\ is_u16 (conn_id (header p)) /\
  match address p with
  | Some a => has_flag (flags (header p)) DATA = true /\ address_ok a
  | None => has_flag (flags (header p)) DATA = false
  end /\
  Z.of_nat (packet_len p - UDPGW_LENGTH_FIELD_SIZE) <= u16_max.

Lemma retrieve_address_inv h bs a rest :
  retrieve_address h bs = Ok (a, rest) ->
  exists used, bs = used ++ rest /\ length used = opt_len a.
Proof.
  unfold retrieve_address. case_match.
  - destruct (address_read bs) as [[x r]|?|] eqn:E; try done. intros [= <- <-].
    by apply address_read_consumes.
  - intros [= <- <-]. by exists [].
Qed.

Lemma retrieve_address_extends h bs a rest more :
  retrieve_address h bs = Ok (a, rest) -> retrieve_address h (bs ++ more) = Ok (a, rest ++ more).
Proof.
  unfold retrieve_address. case_match.
  - destruct (address_read bs) as [[x r]|?|] eqn:E; try done. intros [= <- <-].
    by rewrite (address_read_extends _ _ _ more E).
  - by intros [= <- <-].
Qed.

Lemma retrieve_address_write p rest :
  packet_wf p ->
  retrieve_address (header p)
    (match address p with Some a => address_write a | None => [] end ++ rest) = Ok (address p, rest).
Proof.
  intros (_ & _ & Ha & _). unfold retrieve_address. destruct (address p) as [a|].
  - destruct Ha as [-> Ha]. by rewrite address_read_write.
  - by rewrite Ha.
Qed.

Lemma length_to_bytes p : length (to_bytes p) = packet_len p.
Proof.
  unfold to_bytes, packet_len. rewrite !length_app, length_be16. cbn [length header_bytes].
  unfold header_bytes. cbn [length]. rewrite length_be16.
  destruct (address p); simpl; rewrite ?address_write_len; lia.
Qed.

(** What a successful [try_from] has read: the frame [frame] and the bytes
    after it. *)
Lemma try_from_inv v p :
  try_from v = Ok p ->
  exists hi lo f i j used more,
    v = hi :: lo :: (f :: i :: j :: used ++ data p) ++ more /\
    header p = mkHeader f (of_be16 i j) /\ length used = opt_len (address p) /\
    Z.to_nat (of_be16 hi lo) = (static_len + opt_len (address p) + length (data p))%nat /\
    retrieve_address (header p) (used ++ data p) = Ok (address p, data p).
Proof.
  unfold try_from. destruct v as [|hi [|lo v]]; try done.
  set (L := Z.to_nat (of_be16 hi lo)). change (drop UDPGW_LENGTH_FIELD_SIZE (hi :: lo :: v)) with v. cbn [length].
  destruct (_ <? _)%nat eqn:E; [done|]. b2p.
  destruct (header_retrieve (take L v)) as [[h r]|?|] eqn:Eh; try done. cbn [mbind res_bind].
  destruct (header_retrieve_inv _ _ _ Eh) as (f & i & j & Hv & Hh).
  destruct (retrieve_address h r) as [[a d]|?|] eqn:Ea; try done. cbn [mbind res_bind].
  destruct (retrieve_address_inv _ _ _ _ Ea) as (used & -> & Hu).
  destruct (_ <? _)%nat eqn:E'; [done|]. intros [= <-]. cbn [header address data].
  exists hi, lo, f, i, j, used, (drop L v). split_and!; try done.
  - rewrite <- Hv at 1. by rewrite take_drop.
  - apply (f_equal length) in Hv. rewrite length_take in Hv. simpl in Hv.
    rewrite length_app in Hv. unfold static_len, UDPGW_LENGTH_FIELD_SIZE in *. lia.
Qed.

Lemma try_from_stream v p :
  try_from v = Ok p ->
  retrieve_from_stream v = Ok (p, drop (packet_len p) v).
Proof.
  intros (hi & lo & f & i & j & used & more & -> & Hh & Hu & HL & Ha)%try_from_inv.
  unfold retrieve_from_stream. set (body := _ ++ more).
  change (hi :: lo :: body) with ([hi; lo] ++ body). rewrite read_exact_app by done. subst body.
  cbn [mbind res_bind app]. rewrite header_retrieve_cons. cbn [mbind res_bind].
  rewrite <- Hh, (retrieve_address_extends _ _ _ _ more Ha). cbn [mbind res_bind].
  rewrite HL, (proj2 (Nat.ltb_ge _ _)) by lia.
  replace (_ + _ + _ - _)%nat with (length (data p)) by lia. rewrite read_exact_app by done.
  cbn [mbind res_bind]. unfold mret, res_ret. do 2 f_equal; [by destruct p|].
  unfold packet_len, UDPGW_LENGTH_FIELD_SIZE, static_len. simpl drop.
  by rewrite <- Hu, <- length_app, drop_app_length.
Qed.

(** The bytes of a packet after the length field. *)
Definition packet_body (p : Packet) : list Z :=
  header_bytes (header p) ++
  match address p with Some a => address_write a | None => [] end ++
  data p.

Lemma length_packet_body p :
  length (packet_body p) = (packet_len p - UDPGW_LENGTH_FIELD_SIZE)%nat.
Proof.
  pose proof (length_to_bytes p) as Hl. unfold to_bytes in Hl.
  rewrite length_app, length_be16 in Hl. unfold packet_body, UDPGW_LENGTH_FIELD_SIZE. lia.
Qed.

Lemma to_bytes_body p :
  packet_wf p -> to_bytes p = be16 (len (packet_body p)) ++ packet_body p.
Proof.
  intros (_ & _ & _ & Hn). unfold to_bytes, len. rewrite length_packet_body. f_equal.
  f_equal. apply Z.mod_small. unfold u16_max in Hn. lia.
Qed.

Lemma packet_body_u16 p : packet_wf p -> is_u16 (len (packet_body p)).
Proof.
  intros (_ & _ & _ & Hn). unfold is_u16, len. rewrite length_packet_body. unfold u16_max in Hn. lia.
Qed.

Lemma try_from_to_bytes p rest :
  packet_wf p -> try_from (to_bytes p ++ rest) = Ok p.
Proof.
  intros Hwf. pose proof Hwf as (_ & Hid & _ & _).
  rewrite to_bytes_body, <- app_assoc by done. unfold be16. cbn [app]. unfold try_from.
  rewrite of_be16_be16 by (by apply packet_body_u16). unfold len. rewrite Nat2Z.id.
  rewrite (proj2 (Nat.ltb_ge _ _)) by (cbn [length]; rewrite (length_app (packet_body p) rest); unfold UDPGW_LENGTH_FIELD_SIZE; lia).
  cbv zeta. unfold UDPGW_LENGTH_FIELD_SIZE. cbn [drop]. rewrite drop_0.
  rewrite take_app_length.
  assert (header_retrieve (packet_body p) = Ok (header p,
    match address p with Some a => address_write a | None => [] end ++ data p)) as ->
    by (by apply header_retrieve_bytes).
  cbn [mbind res_bind]. rewrite retrieve_address_write by done. cbn [mbind res_bind].
  rewrite (proj2 (Nat.ltb_ge _ _)).
  - by destruct p.
  - rewrite length_packet_body. unfold packet_len, UDPGW_LENGTH_FIELD_SIZE. lia.
Qed.

Lemma try_from_prefix p q s :
  packet_wf p -> to_bytes p = q ++ s -> s <> [] ->
  exists e, try_from q = Err e /\ io_kind e = InvalidData.
Proof.
  intros Hwf Heq Hs. pose proof (length_to_bytes p) as Hl. rewrite Heq, length_app in Hl.
  rewrite to_bytes_body in Heq by done. unfold be16 in Heq. cbn [app] in Heq.
  destruct q as [|hi [|lo q]]; try (by eexists). cbn [app] in Heq. simplify_eq.
  unfold try_from. rewrite of_be16_be16 by (by apply packet_body_u16).
  rewrite (proj2 (Nat.ltb_lt _ _)); [by eexists|].
  unfold len. rewrite Nat2Z.id, length_packet_body. destruct s; [done|]. cbn [length] in *.
  unfold UDPGW_LENGTH_FIELD_SIZE in *. lia.
Qed.

(** *** Asynchronous streams *)

Context `{!Socks5Async} `{!Socks5AsyncLaws}.

Lemma retrieve_address_async_ok h rs a rest :
  retrieve_address h (received rs) = Ok (a, rest) ->
  exists rs', retrieve_address_async h rs = (Ok a, rs') /\ received rs' = rest.
Proof.
  unfold retrieve_address, retrieve_address_async, mbind, M_bind. destruct (has_flag _ DATA).
  - destruct (address_read (received rs)) as [[x r]|?|] eqn:Er; try done. intros [= <- <-].
    destruct (address_read_async_ok _ _ _ Er) as (rs' & E & <-). exists rs'. by rewrite E.
  - intros [= <- <-]. by exists rs.
Qed.

Lemma retrieve_address_async_used h rs a rs' :
  retrieve_address_async h rs = (Ok a, rs') ->
  exists used, received rs = used ++ received rs' /\ length used = opt_len a.
Proof.
  unfold retrieve_address_async, mbind, M_bind. destruct (has_flag _ DATA).
  - destruct (address_read_async rs) as [[x|?|] r] eqn:Ea; try done. intros [= <- <-].
    by apply address_read_async_used.
  - intros [= <- <-]. by exists [].
Qed.

Lemma try_from_async rs p :
  try_from (received rs) = Ok p ->
  exists rs', retrieve_from_async_stream rs = (Ok p, rs') /\
    received rs' = drop (packet_len p) (received rs).
Proof.
  intros (hi & lo & f & i & j & used & more & Hrs & Hh & Hu & HL & Ha)%try_from_inv.
  destruct (read_exact_async_app [hi; lo] _ rs Hrs) as (r1 & E1 & R1).
  destruct (header_retrieve_async_ok r1 (header p) (used ++ data p ++ more)) as (r2 & E2 & R2).
  { rewrite R1. cbn [app]. by rewrite header_retrieve_cons, Hh, <- app_assoc. }
  destruct (retrieve_address_async_ok (header p) r2 (address p) (data p ++ more)) as (r3 & E3 & R3).
  { rewrite R2, app_assoc. by apply retrieve_address_extends. }
  destruct (read_exact_async_app (data p) more r3 R3) as (r4 & E4 & R4).
  exists r4. split.
  - unfold retrieve_from_async_stream. unfold mbind at 1, M_bind at 1.
    change (length [hi; lo]) with UDPGW_LENGTH_FIELD_SIZE in E1. rewrite E1. cbv zeta.
    unfold mbind at 1, M_bind at 1. rewrite E2. unfold mbind at 1, M_bind at 1. rewrite E3.
    rewrite HL, (proj2 (Nat.ltb_ge _ _)) by lia. unfold mbind, M_bind.
    replace (_ + _ + _ - _)%nat with (length (data p)) by lia. rewrite E4. by destruct p.
  - rewrite Hrs, R4. unfold packet_len, UDPGW_LENGTH_FIELD_SIZE, static_len. simpl drop.
    by rewrite <- Hu, <- length_app, drop_app_length.
Qed.

(** What a successful asynchronous read has taken from the stream. *)
Lemma retrieve_async_used rs p rs' :
  retrieve_from_async_stream rs = (Ok p, rs') ->
  exists hi lo used, received rs = hi :: lo :: used ++ received rs' /\
    length used = Z.to_nat (of_be16 hi lo).
Proof.
  unfold retrieve_from_async_stream, mbind, M_bind, lift.
  destruct (read_exact_async UDPGW_LENGTH_FIELD_SIZE rs) as [[buf|?|] r1] eqn:E1; try done.
  apply read_exact_async_inv in E1 as [R1 L1]. destruct buf as [|hi [|lo [|]]]; try done.
  unfold header_retrieve_async, mbind, M_bind, lift.
  destruct (read_exact_async static_len r1) as [[hb|?|] r2] eqn:E2; try done.
  apply read_exact_async_inv in E2 as [R2 L2]. destruct (header_try_from hb) as [h|?|]; try done.
  destruct (retrieve_address_async h r2) as [[a|?|] r3] eqn:E3; try done.
  destruct (retrieve_address_async_used _ _ _ _ E3) as (u & R3 & L3). split_if E4; [done|]. b2p.
  destruct (read_exact_async (_ - _) r3) as [[d|?|] r4] eqn:E5; try done. intros [= <- <-].
  apply read_exact_async_inv in E5 as [R4 L4].
  exists hi, lo, (hb ++ u ++ d). rewrite R1, R2, R3, R4, <- !app_assoc. split; [done|].
  rewrite !length_app. lia.
Qed.

(** Every decoder accepts a frame the slice decoder accepts, with the same
    packet, and leaves exactly the bytes after the frame; on the asynchronous
    stream this does not depend on how the bytes are cut into reads. *)
Theorem udpgw_decoders_agree v p :
  try_from v = Ok p ->
  retrieve_from_stream v = Ok (p, drop (packet_len p) v) /\
  (forall rs, received rs = v ->
     exists rs', retrieve_from_async_stream rs = (Ok p, rs') /\
       received rs' = drop (packet_len p) v).
Proof.
  intros Hv. split; [by apply try_from_stream|]. intros rs <-. by apply try_from_async.
Qed.

(** Encoding then decoding a packet gives it back, whatever follows it, and a
    frame cut short is refused as invalid data. *)
Theorem udpgw_frame_roundtrip p rest :
  packet_wf p ->
  length (to_bytes p) = packet_len p /\
  try_from (to_bytes p ++ rest) = Ok p /\
  retrieve_from_stream (to_bytes p ++ rest) = Ok (p, rest) /\
  (forall rs, received rs = to_bytes p ++ rest ->
     exists rs', retrieve_from_async_stream rs = (Ok p, rs') /\ received rs' = rest) /\
  (forall q s, to_bytes p = q ++ s -> s <> [] ->
     exists e, try_from q = Err e /\ io_kind e = InvalidData).
Proof.
  intros Hwf. pose proof (try_from_to_bytes p rest Hwf) as Ht.
  assert (drop (packet_len p) (to_bytes p ++ rest) = rest) as Hd
    by (by rewrite <- length_to_bytes, drop_app_length).
  split_and!.
  - apply length_to_bytes.
  - done.
  - by rewrite (try_from_stream _ _ Ht), Hd.
  - intros rs Hrs. rewrite <- Hrs in Ht. destruct (try_from_async rs p Ht) as (rs' & ? & Hr).
    exists rs'. by rewrite Hr, Hrs, Hd.
  - intros q s. by apply try_from_prefix.
Qed.

(** The limits of the frame format: the builder accepts an address and a
    datagram exactly when the frame can carry them. *)
Definition fits_frame (a : Address) (d : list Z) : Prop :=
  match a with SocketAddress _ => True | DomainAddress name _ => len (as_bytes name) <= 255 end /\
  Z.of_nat (static_len + address_len a + length d) <= u16_max.

(** An address as Rust represents it, before any length check. *)
Definition address_value (a : Address) : Prop :=
  match a with SocketAddress s => sa_wf s | DomainAddress _ port => is_u16 port end.

Lemma data_packet_len id a d :
  packet_len (mkPacket (mkHeader DATA id) (Some a) d) =
  (UDPGW_LENGTH_FIELD_SIZE + (static_len + address_len a + length d))%nat.
Proof. unfold packet_len. cbn [address data opt_len]. lia. Qed.

Lemma build_packet_cases id a d :
  build_packet_from_address id a d =
    (if match a with SocketAddress _ => false | DomainAddress name _ => 255 <? len (as_bytes name) end
     then Err (mkIo InvalidInput "domain name exceeds 255 characters")
     else if u16_max <? Z.of_nat (static_len + address_len a + length d)
     then Err (mkIo InvalidInput "udpgw packet exceeds maximum frame length")
     else Ok (mkPacket (mkHeader DATA id) (Some a) d)).
Proof.
  unfold build_packet_from_address, build_domain_packet, build_ip_packet, oversized.
  destruct a as [s|name port]; cbn [mbind res_bind]; rewrite ?data_packet_len;
    unfold UDPGW_LENGTH_FIELD_SIZE; rewrite ?(Nat.add_comm 2), ?Nat.add_sub; [done|].
  destruct (255 <? _); [done|]. destruct (u16_max <? _) eqn:E; [done|]. cbn [mbind res_bind].
  by rewrite data_packet_len, Nat.add_comm, Nat.add_sub, E.
Qed.

Lemma build_packet_wf id a d p :
  is_u16 id -> address_value a -> build_packet_from_address id a d = Ok p ->
  packet_wf p /\ p = mkPacket (mkHeader DATA id) (Some a) d.
Proof.
  intros Hid Ha. rewrite build_packet_cases.
  split_if E1; [done|]. split_if E2; [done|]. intros [= <-]. b2p.
  split; [|done]. unfold packet_wf. rewrite data_packet_len. cbn [header address flags conn_id].
  unfold UDPGW_LENGTH_FIELD_SIZE. rewrite Nat.add_comm, Nat.add_sub.
  split_and!; [done|done|done| |done].
  destruct a; b2p; cbn [address_ok address_value] in *; [done|]. by split.
Qed.

Lemma control_packet_wf f id :
  is_u16 id -> f ∈ [KEEPALIVE; CLOSE; ERR] -> packet_wf (mkPacket (mkHeader f id) None []).
Proof.
  intros Hid Hf. unfold packet_wf, packet_len. cbn [header flags conn_id address data opt_len length].
  assert (is_u8 f /\ has_flag f DATA = false) as [H8 Hd].
  { repeat (apply elem_of_cons in Hf as [->|Hf]; [by vm_compute|]). by apply elem_of_nil in Hf. }
  split_and!; try done. all: by destruct Hid || by vm_compute.
Qed.

(** [build_packet_from_address] succeeds exactly on what the format can carry;
    what it builds is a well-formed DATA packet for that connection, address
    and payload, so the length field never wraps. *)
Theorem udpgw_build_packet id a d :
  is_u16 id -> address_value a ->
  (fits_frame a d ->
     build_packet_from_address id a d = Ok (mkPacket (mkHeader DATA id) (Some a) d)) /\
  (forall p, build_packet_from_address id a d = Ok p ->
     packet_wf p /\ p = mkPacket (mkHeader DATA id) (Some a) d) /\
  (~ fits_frame a d ->
     exists msg, build_packet_from_address id a d = Err (mkIo InvalidInput msg)).
Proof.
  intros Hid Ha. rewrite build_packet_cases. unfold fits_frame.
  split_and!.
  - intros [Hd Hl]. rewrite (proj2 (Z.ltb_ge u16_max _)) by done.
    destruct a; [done|]. by rewrite (proj2 (Z.ltb_ge 255 _)).
  - intros p Hp. rewrite <- build_packet_cases in Hp. by apply build_packet_wf.
  - intros Hn. split_if E1; [by eexists|]. split_if E2; [by eexists|]. b2p.
    exfalso. apply Hn. split; [|done]. destruct a; [done|]. by b2p.
Qed.

End properties.

(** The reader built from [address_read] satisfies the law of the
    asynchronous reader. *)
#[export] Instance chunked_address `{Socks5} : Socks5Async := address_read_chunks.

#[export] Instance chunked_address_laws `{Socks5Laws} : Socks5AsyncLaws.
Proof.
  split.
  - intros rs a rest Hr. unfold address_read_async, chunked_address, address_read_chunks. rewrite Hr.
    destruct (address_read_consumes _ _ _ Hr) as (used & Hu & _).
    destruct (read_exact_async_app used rest rs Hu) as (rs' & Hrs & <-).
    exists rs'. split; [|done]. rewrite Hu, length_app, Nat.add_sub, Hrs. done.
  - intros rs a rs'. unfold address_read_async, chunked_address, address_read_chunks.
    destruct (address_read (received rs)) as [[a' rest]|?|] eqn:Hr; try done.
    destruct (address_read_consumes _ _ _ Hr) as (used & Hu & Hl).
    destruct (read_exact_async _ rs) as [[x|?|] rs2] eqn:Er; try done. intros [= <- <-].
    apply read_exact_async_inv in Er as [Hx Hn]. rewrite Hu, length_app, Nat.add_sub in Hn.
    exists x. split; [done|]. by rewrite Hn.
Qed.

(** ** Examples *)

Import Rfc1928.

Definition example_packet : Packet :=
  mkPacket (mkHeader DATA 258) (Some (SocketAddress (mkSA (ipv4 8 8 8 8) 53))) [7; 8; 9].

Example example_packet_bytes :
  to_bytes (H := rfc1928) example_packet = [0; 13; 2; 1; 2; 1; 8; 8; 8; 8; 0; 53; 7; 8; 9].
Proof. by vm_compute. Qed.

Lemma example_packet_wf : packet_wf (H := rfc1928) example_packet.
Proof. vm_compute. repeat split; done. Qed.

Lemma udpgw_decoders_agree_witness :
  retrieve_from_stream (H := rfc1928) [0; 3; 1; 0; 9; 77] =
  Ok (build_keepalive_packet 9, [77]).
Proof.
  exact (proj1 (udpgw_decoders_agree (H := rfc1928) [0; 3; 1; 0; 9; 77] (build_keepalive_packet 9)
    eq_refl)).
Defined.

Lemma udpgw_frame_roundtrip_witness :
  try_from (H := rfc1928) (to_bytes (H := rfc1928) example_packet ++ [1; 2]) = Ok example_packet.
Proof.
  exact (proj1 (proj2 (udpgw_frame_roundtrip (H := rfc1928) example_packet [1; 2] example_packet_wf))).
Defined.

Lemma udpgw_build_packet_witness :
  build_packet_from_address (H := rfc1928) 258 (SocketAddress (mkSA (ipv4 8 8 8 8) 53)) [7; 8; 9] =
  Ok example_packet.
Proof.
  refine (proj1 (udpgw_build_packet (H := rfc1928) 258 (SocketAddress (mkSA (ipv4 8 8 8 8) 53))
    [7; 8; 9] _ _) _).
  - by vm_compute.
  - by vm_compute.
  - by vm_compute.
Defined.
End Udpgw.
