(* ===== verification/UdpgwClient.v ===== *)
(** * UDP gateway client (src/src/udpgw.rs, and the session handler of lib.rs)

    The cancellation-safe frame reader, the connection objects and their pool,
    one turn of the heartbeat task, and [handle_udp_gateway_session].  A socket
    half that is read is the list of the results of its next reads; a half that
    is written is the [Server] of ProxyHandler.v.  The traffic records of a
    session are kept in the order they are made (Traffic.v models the
    counters). *)

From S2P Require Import Prelude Net Socks5Impl ProxyHandler Streams Udpgw.

Module UdpgwClient.
Import Udpgw.

Abbreviation Reader := (list (res IoError (list Z))).

(** The write half: its local address and its stream. *)
Record Writer := mkWriter { w_local : res IoError SocketAddr; w_half : Server }.

(** [write_all] on the write half. *)
Definition writer_write_all (bs : list Z) (w : Writer) : res IoError unit * Writer :=
  let '(r, s) := write_all bs (w_half w) in (r, mkWriter (w_local w) s).

(** ** Connections *)

Record UdpGwClientStream := mkStream {
  local_addr : SocketAddr;
  writer : option Writer;
  reader : option Reader;
  closed : bool;
  last_activity : Z;
  serial_number : Z }.

Definition close (s : UdpGwClientStream) : UdpGwClientStream :=
  mkStream (local_addr s) (writer s) (reader s) true (last_activity s) (serial_number s).

Definition get_reader (s : UdpGwClientStream) : option Reader * UdpGwClientStream :=
  (reader s, mkStream (local_addr s) (writer s) None (closed s) (last_activity s) (serial_number s)).

Definition get_writer (s : UdpGwClientStream) : option Writer * UdpGwClientStream :=
  (writer s, mkStream (local_addr s) None (reader s) (closed s) (last_activity s) (serial_number s)).

Definition set_reader (r : option Reader) (s : UdpGwClientStream) : UdpGwClientStream :=
  mkStream (local_addr s) (writer s) r (closed s) (last_activity s) (serial_number s).

Definition set_writer (w : option Writer) (s : UdpGwClientStream) : UdpGwClientStream :=
  mkStream (local_addr s) w (reader s) (closed s) (last_activity s) (serial_number s).

Definition update_activity (now : Z) (s : UdpGwClientStream) : UdpGwClientStream :=
  mkStream (local_addr s) (writer s) (reader s) (closed s) now (serial_number s).

(** [rotate_serial_number]; the second component is the new value of the
    16-bit counter [SERIAL_NUMBER]. *)
Definition rotate_serial_number (serial : Z) (s : UdpGwClientStream) : UdpGwClientStream * Z :=
  (mkStream (local_addr s) (writer s) (reader s) (closed s) (last_activity s) serial,
   wrap16 (serial + 1)).

(** [UdpGwClientStream::new]. *)
Definition new_stream (serial now : Z) (local : res IoError SocketAddr) (srv : Server)
    : UdpGwClientStream * Z :=
  (mkStream (match local with Ok a => a | _ => mkSA (V4 0) 0 end)
     (Some (mkWriter local srv)) (Some (reads srv)) false now serial,
   wrap16 (serial + 1)).

(** ** The pool *)

Record UdpGwClient := mkClient {
  udp_mtu : Z;
  max_connections : nat;
  udp_timeout : Z;
  keepalive_time : Z;
  udpgw_server : SocketAddr;
  server_connections : list UdpGwClientStream }.

Definition new_client (mtu : Z) (max : nat) (keepalive timeout : Z) (server : SocketAddr)
    : UdpGwClient := mkClient mtu max timeout keepalive server [].

Definition set_connections (l : list UdpGwClientStream) (c : UdpGwClient) : UdpGwClient :=
  mkClient (udp_mtu c) (max_connections c) (udp_timeout c) (keepalive_time c) (udpgw_server c) l.

Definition pop_server_connection_from_queue (c : UdpGwClient)
    : option UdpGwClientStream * UdpGwClient :=
  match server_connections c with
  | [] => (None, c)
  | s :: l => (Some s, set_connections l c)
  end.

Definition store_server_connection (s : UdpGwClientStream) (c : UdpGwClient) : UdpGwClient :=
  if (length (server_connections c) <? max_connections c)%nat
  then set_connections (server_connections c ++ [s]) c else c.

Definition store_server_connection_full (s : UdpGwClientStream) (r : Reader) (w : Writer)
    (c : UdpGwClient) : UdpGwClient :=
  if (length (server_connections c) <? max_connections c)%nat
  then set_connections (server_connections c ++ [set_writer (Some w) (set_reader (Some r) s)]) c
  else c.

(** ** Sending and receiving frames *)

Section frames.
Context `{Socks5} `{!Socks5Async}.

(** [recv_udpgw_packet]: one frame; a read that stalls past the timeout is an
    error entry of the reader. *)
Definition recv_udpgw_packet (mtu : Z) (rs : Reader) : res Error (nat * UdpGwResponse) * Reader :=
  let '(r, rs') := retrieve_from_async_stream rs in
  (p ← map_err Io r; v ← parse_udp_response mtu p; mret (packet_len p, v), rs').

(** The part of [recv_udpgw_packet_csafe] before its read: a result and the
    new buffer when the buffer holds a frame or a bad length, nothing when more
    bytes are needed. *)
Definition csafe_parse (mtu : Z) (acc : list Z)
    : option (res Error (nat * UdpGwResponse) * list Z) :=
  match acc with
  | hi :: lo :: _ =>
      let length_ := Z.to_nat (of_be16 hi lo) in
      let total := (length_ + UDPGW_LENGTH_FIELD_SIZE)%nat in
      if (3 <=? length_)%nat && (total <=? length acc)%nat then
        let cur := drop UDPGW_LENGTH_FIELD_SIZE (take total acc) in
        let parsed : res IoError (UdpgwHeader * option Address * list Z) :=
          '(h, c1) ← header_retrieve cur;
          '(a, c2) ← retrieve_address h c1;
          if (length_ <? static_len + opt_len a)%nat then Err (io_of_kind InvalidData)
          else mret (h, a, c2) in
        match parsed with
        | Ok (h, a, d) =>
            let full := (UDPGW_LENGTH_FIELD_SIZE + (static_len + opt_len a) + length d)%nat in
            Some (v ← parse_udp_response mtu (mkPacket h a d); mret (full, v), drop total acc)
        | Err e => Some (Err (Io e), acc)
        | Panic => Some (Panic, acc)
        end
      else if (length_ <? 3)%nat then Some (Err (Io (io_of_kind InvalidData)), acc)
      else None
  | _ => None
  end.

(** [recv_udpgw_packet_csafe]: [Waiting] is the state in which a [select!] can
    drop the future; the buffer [acc] belongs to the caller. *)
Fixpoint recv_udpgw_packet_csafe (mtu : Z) (rs : Reader) (acc : list Z)
    : progress (res Error (nat * UdpGwResponse)) * list Z * Reader :=
  match csafe_parse mtu acc with
  | Some (r, acc') => (Returned r, acc', rs)
  | None =>
      match rs with
      | [] => (Waiting, acc, [])
      | Ok [] :: rs' => (Returned (Err (Io (io_of_kind UnexpectedEof))), acc, rs')
      | Ok chunk :: rs' => recv_udpgw_packet_csafe mtu rs' (acc ++ chunk)
      | Err e :: rs' => (Returned (Err (Io e)), acc, rs')
      | Panic :: rs' => (Returned Panic, acc, rs')
      end
  end.

Definition address_is_ipv6 (a : Address) : bool :=
  match a with SocketAddress s => sa_is_ipv6 s | DomainAddress _ _ => false end.

Definition send_udpgw_packet (ipv6_enabled : bool) (d : list Z) (remote_addr : Address) (id : Z)
    (w : Writer) : res Error unit * Writer :=
  if negb ipv6_enabled && address_is_ipv6 remote_addr then (Err (EString "ipv6 not support"), w)
  else
    match build_packet_from_address id remote_addr d with
    | Ok p => let '(r, w') := writer_write_all (to_bytes p) w in (map_err Io r, w')
    | Err e => (Err (Io e), w)
    | Panic => (Panic, w)
    end.

Definition send_udpgw_close_packet (id : Z) (w : Writer) : res Error nat * Writer :=
  let out_data := to_bytes (build_close_packet id) in
  let '(r, w') := writer_write_all out_data w in
  (_ ← map_err Io r; mret (length out_data), w').

(** ** The heartbeat task *)

(** How the wait for the keepalive answer of one connection ends. *)
Inductive Pulse := Alive (rest : Reader) | Dead | Crashed.

(** The inner loop of [heartbeat_task]: late data and error frames are
    skipped.  [None]: not enough fuel. *)
Fixpoint keepalive_loop (fuel : nat) (mtu : Z) (rs : Reader) (rx : nat) : option (Pulse * nat) :=
  match fuel with
  | O => None
  | S fuel' =>
      match recv_udpgw_packet mtu rs with
      | (Ok (n, KeepAlive), rs') => Some (Alive rs', (rx + n)%nat)
      | (Ok (n, RData _), rs') => keepalive_loop fuel' mtu rs' (rx + n)
      | (Ok (n, RError), rs') => keepalive_loop fuel' mtu rs' (rx + n)
      | (Ok (n, TcpClose), _) => Some (Dead, (rx + n)%nat)
      | (Err _, _) => Some (Dead, rx)
      | (Panic, _) => Some (Crashed, rx)
      end
  end.

(** Enough turns for every frame the reader can deliver. *)
Definition keepalive_fuel (rs : Reader) : nat := S (length (received rs)).

(** One connection of the heartbeat's list: the bytes sent and received, and
    the pool. *)
Definition heartbeat_one (now now' : Z) (stream : UdpGwClientStream) (c : UdpGwClient)
    : res IoError (nat * nat) * UdpGwClient :=
  (* Instant::elapsed saturates at zero *)
  if Z.max 0 (now - last_activity stream) <? keepalive_time c then
    (Ok (0%nat, 0%nat), store_server_connection stream c)
  else
    let '(or, stream1) := get_reader stream in
    match or with
    | None => (Ok (0%nat, 0%nat), c)
    | Some rs =>
        let '(ow, stream2) := get_writer stream1 in
        match ow with
        | None => (Ok (0%nat, 0%nat), c)
        | Some w =>
            match w_local w with
            | Err e => (Err e, c)
            | Panic => (Panic, c)
            | Ok _ =>
                let packet := to_bytes (build_keepalive_packet (serial_number stream2)) in
                match writer_write_all packet w with
                | (Err _, _) => (Ok (length packet, 0%nat), c)
                | (Panic, _) => (Panic, c)
                | (Ok _, w') =>
                    match keepalive_loop (keepalive_fuel rs) (udp_mtu c) rs 0 with
                    | Some (Alive rs', rx) =>
                        (Ok (length packet, rx),
                         store_server_connection_full (update_activity now' stream2) rs' w' c)
                    | Some (Dead, rx) => (Ok (length packet, rx), c)
                    | Some (Crashed, _) | None => (Panic, c)
                    end
                end
            end
        end
    end.

Fixpoint heartbeat_all (now now' : Z) (streams : list UdpGwClientStream) (tx rx : nat)
    (c : UdpGwClient) : res IoError (nat * nat) * UdpGwClient :=
  match streams with
  | [] => (Ok (tx, rx), c)
  | stream :: streams' =>
      match heartbeat_one now now' stream c with
      | (Ok (t, r), c') => heartbeat_all now now' streams' (tx + t) (rx + r) c'
      | (Err e, c') => (Err e, c')
      | (Panic, c') => (Panic, c')
      end
  end.

(** One turn of the loop of [heartbeat_task] after the sleep: every connection
    leaves the queue, the closed ones are dropped, the others are checked in
    order; the result is the traffic record of the turn. *)
Definition heartbeat_turn (now now' : Z) (c : UdpGwClient) : res IoError (nat * nat) * UdpGwClient :=
  heartbeat_all now now' (filter (fun s => closed s = false) (server_connections c)) 0 0
    (set_connections [] c).


(** ** The session handler of lib.rs *)

(** The local variables of [handle_udp_gateway_session] in its loop; the
    application side is the datagrams written to [udp_stack] and the results of
    its next writes. *)
Record Flow := mkFlow {
  fl_stream : UdpGwClientStream;
  fl_reader : Reader;
  fl_writer : Writer;
  recv_acc : list Z;
  to_app : list (list Z);
  app_results : list (option IoError);
  records : list (Z * Z) }.

Definition set_remote (r : Reader) (acc : list Z) (f : Flow) : Flow :=
  mkFlow (fl_stream f) r (fl_writer f) acc (to_app f) (app_results f) (records f).
Definition set_fl_stream (s : UdpGwClientStream) (f : Flow) : Flow :=
  mkFlow s (fl_reader f) (fl_writer f) (recv_acc f) (to_app f) (app_results f) (records f).
Definition set_fl_writer (w : Writer) (f : Flow) : Flow :=
  mkFlow (fl_stream f) (fl_reader f) w (recv_acc f) (to_app f) (app_results f) (records f).
Definition record_traffic (tx rx : Z) (f : Flow) : Flow :=
  mkFlow (fl_stream f) (fl_reader f) (fl_writer f) (recv_acc f) (to_app f) (app_results f)
    (records f ++ [(tx, rx)]).
Definition touch_flow (now : Z) (f : Flow) : Flow :=
  set_fl_stream (update_activity now (fl_stream f)) f.
Definition close_flow (f : Flow) : Flow := set_fl_stream (close (fl_stream f)) f.

(** [udp_stack.write_all]. *)
Definition write_app (d : list Z) (f : Flow) : res IoError unit * Flow :=
  let next l out := mkFlow (fl_stream f) (fl_reader f) (fl_writer f) (recv_acc f) out l (records f) in
  match app_results f with
  | Some e :: l => (Err e, next l (to_app f))
  | None :: l => (Ok tt, next l (to_app f ++ [d]))
  | [] => (Ok tt, next [] (to_app f ++ [d]))
  end.

(** What one turn of the loop does: go on, leave with [reusable], or stop the
    task on a panic. *)
Inductive Turn := Continue (f : Flow) | Break (reusable : bool) (f : Flow) | TurnPanic.

(** The branch of [udp_stack.read]. *)
Definition local_branch (ipv6_enabled : bool) (udp_dst : Address) (now : Z)
    (r : res IoError (list Z)) (f : Flow) : Turn :=
  match r with
  | Ok [] => Break true f
  | Err _ => Break true f
  | Panic => TurnPanic
  | Ok d =>
      let f1 := record_traffic (len d) 0 f in
      match send_udpgw_packet ipv6_enabled d udp_dst (serial_number (fl_stream f1)) (fl_writer f1) with
      | (Ok _, w) => Continue (touch_flow now (set_fl_writer w f1))
      | (Err _, w) => Break false (set_fl_writer w f1)
      | (Panic, _) => TurnPanic
      end
  end.

(** The branch of [recv_udpgw_packet_csafe]; [sn] is the serial number read
    before the loop. *)
Definition remote_branch (sn now : Z) (ret : res Error (nat * UdpGwResponse)) (f : Flow) : Turn :=
  match ret with
  | Panic => TurnPanic
  | Err _ => Break false (close_flow f)
  | Ok (n, packet) =>
      let f1 := record_traffic 0 (Z.of_nat n) f in
      match packet with
      | KeepAlive => Break false (close_flow f1)
      | RError => Continue (touch_flow now f1)
      | TcpClose => Break false (close_flow f1)
      | RData p =>
          if negb (conn_id (header p) =? sn) then Continue (touch_flow now f1)
          else
            match write_app (data p) f1 with
            | (Ok _, f2) => Continue (touch_flow now f2)
            | (Err _, f2) => Break true f2
            | (Panic, _) => TurnPanic
            end
      end
  end.

(** An outcome of [select!], which polls its branches in random order.
    [Local None r]: the application's read is polled first and is ready with
    [r]; the receive future is dropped without having been polled, whatever the
    buffer holds.  [Local (Some k) r]: the receive future is polled first and
    takes [k] reads from the socket; if that leaves it waiting, the
    application's read ends with [r].  [Remote k]: the receive future takes [k]
    reads, and the application's read is not ready. *)
Inductive Choice := Local (polled : option nat) (now : Z) (r : res IoError (list Z)) | Remote (k : nat) (now : Z).

(** Polling the receive future on the next [k] reads. *)
Definition receive (mtu : Z) (k : nat) (f : Flow) : progress (res Error (nat * UdpGwResponse)) * Flow :=
  let '(p, acc, rest) := recv_udpgw_packet_csafe mtu (take k (fl_reader f)) (recv_acc f) in
  (p, set_remote (rest ++ drop k (fl_reader f)) acc f).

Definition turn (mtu : Z) (ipv6_enabled : bool) (udp_dst : Address) (sn : Z) (ch : Choice) (f : Flow)
    : Turn :=
  match ch with
  | Local None now r => local_branch ipv6_enabled udp_dst now r f
  | Local (Some k) now r =>
      match receive mtu k f with
      | (Returned ret, f1) => remote_branch sn now ret f1
      | (Waiting, f1) => local_branch ipv6_enabled udp_dst now r f1
      end
  | Remote k now =>
      match receive mtu k f with
      | (Returned ret, f1) => remote_branch sn now ret f1
      | (Waiting, f1) => Continue f1
      end
  end.

(** The select loop. *)
Fixpoint flow_loop (mtu : Z) (ipv6_enabled : bool) (udp_dst : Address) (sn : Z)
    (choices : list Choice) (f : Flow) : progress (res Error bool) * Flow :=
  match choices with
  | [] => (Waiting, f)
  | ch :: choices' =>
      match turn mtu ipv6_enabled udp_dst sn ch f with
      | Continue f' => flow_loop mtu ipv6_enabled udp_dst sn choices' f'
      | Break reusable f' => (Returned (Ok reusable), f')
      | TurnPanic => (Returned Panic, f)
      end
  end.

(** The end of the handler: the connection returns to the pool only when the
    flow ended cleanly and no partial frame is buffered. *)
Definition finish (sn now : Z) (reusable : bool) (f : Flow) (c : UdpGwClient)
    : res Error unit * Flow * UdpGwClient :=
  if reusable && (length (recv_acc f) =? 0)%nat then
    match send_udpgw_close_packet sn (fl_writer f) with
    | (Ok n, w) =>
        let f1 := touch_flow now (record_traffic (Z.of_nat n) 0 (set_fl_writer w f)) in
        (Ok tt, f1, store_server_connection_full (fl_stream f1) (fl_reader f1) w c)
    | (Err _, w) => (Ok tt, close_flow (set_fl_writer w f), c)
    | (Panic, _) => (Panic, f, c)
    end
  else (Ok tt, close_flow f, c).

(** The search for a pooled connection that is not closed. *)
Fixpoint pop_open (l : list UdpGwClientStream) : option UdpGwClientStream * list UdpGwClientStream :=
  match l with
  | [] => (None, [])
  | s :: l' => if closed s then pop_open l' else (Some s, l')
  end.

(** The connection of a session: a pooled one with a new serial number, or a
    new one after the proxy handshake. *)
Definition acquire `{ProxyHandler P} (h : P) (opened : res IoError Server)
    (local : res IoError SocketAddr) (serial now : Z) (c : UdpGwClient)
    : progress (res Error UdpGwClientStream) * Z * UdpGwClient :=
  match pop_open (server_connections c) with
  | (Some s, l) =>
      let '(s', serial') := rotate_serial_number serial s in
      (Returned (Ok s'), serial', set_connections l c)
  | (None, l) =>
      let c' := set_connections l c in
      match opened with
      | Err e => (Returned (Err (Io e)), serial, c')
      | Panic => (Returned Panic, serial, c')
      | Ok srv =>
          match handle_proxy_session h srv with
          | (Waiting, _, _) => (Waiting, serial, c')
          | (Returned (Err _), _, _) =>
              (Returned (Err (EString "udpgw connection error")), serial, c')
          | (Returned Panic, _, _) => (Returned Panic, serial, c')
          | (Returned (Ok _), _, srv') =>
              let '(s, serial') := new_stream serial now local srv' in
              (Returned (Ok s), serial', c')
          end
      end
  end.

(** [handle_udp_gateway_session]. *)
Definition handle_udp_gateway_session `{ProxyHandler P} (h : P) (opened : res IoError Server)
    (local : res IoError SocketAddr) (serial now now' : Z) (ipv6_enabled : bool) (udp_dst : Address)
    (choices : list Choice) (app : list (option IoError)) (c : UdpGwClient)
    : progress (res Error unit) * option Flow * Z * UdpGwClient :=
  match acquire h opened local serial now c with
  | (Waiting, serial', c') => (Waiting, None, serial', c')
  | (Returned (Err e), serial', c') => (Returned (Err e), None, serial', c')
  | (Returned Panic, serial', c') => (Returned Panic, None, serial', c')
  | (Returned (Ok stream), serial', c') =>
      let sn := serial_number stream in
      let '(r, stream1) := get_reader stream in
      match r with
      | None => (Returned (Err (EString "get reader failed")), None, serial', c')
      | Some rs =>
          let '(w, stream2) := get_writer stream1 in
          match w with
          | None => (Returned (Err (EString "get writer failed")), None, serial', c')
          | Some wr =>
              match flow_loop (udp_mtu c) ipv6_enabled udp_dst sn choices
                      (mkFlow stream2 rs wr [] [] app []) with
              | (Returned (Ok reusable), f) =>
                  let '(r, f', c'') := finish sn now' reusable f c' in
                  (Returned r, Some f', serial', c'')
              | (Returned (Err e), f) => (Returned (Err e), Some f, serial', c')
              | (Returned Panic, f) => (Returned Panic, Some f, serial', c')
              | (Waiting, f) => (Waiting, Some f, serial', c')
              end
          end
      end
  end.

End frames.
End UdpgwClient.
