(* ===== verification/UdpgwFlow.v ===== *)
(** * UDP gateway flows: what the receiving side guarantees

    The cancellation-safe reader returns the frames the server sent, whatever
    pieces they arrive in and wherever a [select!] drops the future; a flow
    delivers exactly the datagrams of its own connection identifier; the pool
    never exceeds its bound and only holds connections that are at a frame
    boundary. *)

From S2P Require Import Prelude Net Socks5Impl Rfc1928 ProxyHandler Streams Udpgw UdpgwClient.

Module UdpgwFlow.
Import Udpgw UdpgwClient.

Section flow.
Context `{Socks5Laws} `{!Socks5Async} `{!Socks5AsyncLaws}.

(** The wire form of a sequence of packets. *)
Definition frames (ps : list Packet) : list Z := concat (to_bytes <$> ps).

(** A frame that has not arrived completely. *)
Definition partial (q : list Z) : Prop :=
  exists p s, packet_wf p /\ to_bytes p = q ++ s /\ s <> [].

(** What a receive of packet [p] returns. *)
Definition recv_result (mtu : Z) (p : Packet) : res Error (nat * UdpGwResponse) :=
  v ← parse_udp_response mtu p; mret (packet_len p, v).

Lemma packet_len_min p : (5 <= packet_len p)%nat.
Proof. unfold packet_len, UDPGW_LENGTH_FIELD_SIZE, static_len. lia. Qed.

Lemma to_bytes_head p :
  packet_wf p ->
  exists hi lo, to_bytes p = hi :: lo :: packet_body p /\
    Z.to_nat (of_be16 hi lo) = length (packet_body p) /\ (3 <= length (packet_body p))%nat.
Proof.
  intros Hwf. rewrite to_bytes_body by done. eexists _, _. split; [reflexivity|].
  rewrite of_be16_be16 by (by apply packet_body_u16). unfold len. rewrite Nat2Z.id.
  split; [done|]. rewrite length_packet_body. pose proof (packet_len_min p).
  unfold UDPGW_LENGTH_FIELD_SIZE. lia.
Qed.

Lemma csafe_parse_frame mtu p rest :
  packet_wf p -> csafe_parse mtu (to_bytes p ++ rest) = Some (recv_result mtu p, rest).
Proof.
  intros Hwf. destruct (to_bytes_head p Hwf) as (hi & lo & Hb & Hl & H3).
  pose proof Hwf as (_ & Hid & _ & _). rewrite Hb. cbn [app]. unfold csafe_parse. rewrite Hl.
  rewrite (proj2 (Nat.leb_le _ _)) by done.
  rewrite (proj2 (Nat.leb_le _ _)) by
    (cbn [length]; rewrite length_app; unfold UDPGW_LENGTH_FIELD_SIZE; lia).
  cbn [andb]. rewrite Nat.add_comm. cbn [Nat.add UDPGW_LENGTH_FIELD_SIZE take drop].
  rewrite take_app_length, !drop_0.
  assert (header_retrieve (packet_body p) = Ok (header p,
    match address p with Some a => address_write a | None => [] end ++ data p)) as ->
    by (by apply header_retrieve_bytes).
  cbn [mbind res_bind]. rewrite retrieve_address_write by done. cbn [mbind res_bind].
  rewrite (proj2 (Nat.ltb_ge _ _)).
  2: { rewrite length_packet_body. unfold packet_len, UDPGW_LENGTH_FIELD_SIZE. lia. }
  rewrite drop_app_length. unfold mret, res_ret. unfold recv_result, packet_len. by destruct p.
Qed.

Lemma csafe_parse_partial mtu q : partial q -> csafe_parse mtu q = None.
Proof.
  intros (p & s & Hwf & Heq & Hs). destruct (to_bytes_head p Hwf) as (hi & lo & Hb & Hl & H3).
  rewrite Hb in Heq. destruct q as [|a [|b q]]; try done. cbn [app] in Heq.
  injection Heq as <- <- Hq. unfold csafe_parse. rewrite Hl.
  rewrite (proj2 (Nat.leb_le 3 _)) by done. apply (f_equal length) in Hq.
  rewrite length_app in Hq. destruct s; [done|]. cbn [length] in Hq.
  rewrite (proj2 (Nat.leb_gt _ _)) by (cbn [length]; unfold UDPGW_LENGTH_FIELD_SIZE; lia).
  cbn [andb]. by rewrite (proj2 (Nat.ltb_ge _ _)) by done.
Qed.

(** *** The reader and its future *)

Lemma csafe_unfold mtu rs acc :
  recv_udpgw_packet_csafe mtu rs acc =
  match csafe_parse mtu acc with
  | Some (r, acc') => (Returned r, acc', rs)
  | None =>
      match rs with
      | [] => (Waiting, acc, [])
      | Ok [] :: rs' => (Returned (Err (Io (io_of_kind UnexpectedEof))), acc, rs')
      | Ok chunk :: rs' => recv_udpgw_packet_csafe mtu rs' (acc ++ chunk)
      | Err e :: rs' => (Returned (Err (Io e)), acc, rs')
      | Panic :: rs' => (Returned Panic, acc, rs')
      end
  end.
Proof. by destruct rs. Qed.

(** Dropping the future at a wait and calling again is waiting on. *)
Lemma csafe_resume mtu rs more acc :
  match recv_udpgw_packet_csafe mtu rs acc with
  | (Returned r, acc', rest) =>
      recv_udpgw_packet_csafe mtu (rs ++ more) acc = (Returned r, acc', rest ++ more)
  | (Waiting, acc', rest) =>
      rest = [] /\ acc' = acc ++ received rs /\ received (rs ++ more) = received rs ++ received more /\
      recv_udpgw_packet_csafe mtu (rs ++ more) acc = recv_udpgw_packet_csafe mtu more acc'
  end.
Proof.
  revert acc. induction rs as [|r rs IH]; intros acc.
  - rewrite csafe_unfold. destruct (csafe_parse mtu acc) as [[r acc']|] eqn:E.
    + cbn [app]. by rewrite csafe_unfold, E.
    + cbn [app received]. by rewrite app_nil_r.
  - cbn [app]. rewrite (csafe_unfold mtu (r :: rs) acc), (csafe_unfold mtu (r :: rs ++ more) acc).
    destruct (csafe_parse mtu acc) as [[x acc']|] eqn:E; [done|].
    destruct r as [[|b bs]|e|]; try done.
    specialize (IH (acc ++ b :: bs)).
    destruct (recv_udpgw_packet_csafe mtu rs (acc ++ b :: bs)) as [[[x|] acc'] rest]; [done|].
    destruct IH as (-> & -> & IH1 & IH2). rewrite !received_cons, IH1 by done.
    split_and!; [done|by rewrite <- app_assoc|by rewrite <- app_assoc|done].
Qed.

(** A list at least as long as [w] that starts [w ++ e] has [w] as a prefix. *)
Lemma app_longer {A} (a b w e : list A) :
  a ++ b = w ++ e -> (length w <= length a)%nat -> exists k, a = w ++ k /\ e = k ++ b.
Proof.
  intros Heq Hl. destruct (app_eq_inv _ _ _ _ Heq) as [?|(k & -> & ->)]; [done|].
  rewrite length_app in Hl. destruct k; [|simpl in Hl; lia]. exists []. by rewrite !app_nil_r.
Qed.

(** A call that is not dropped returns the next frame and leaves the rest. *)
Lemma csafe_next mtu rs acc p rest :
  packet_wf p -> acc ++ received rs = to_bytes p ++ rest ->
  exists acc' rs', recv_udpgw_packet_csafe mtu rs acc = (Returned (recv_result mtu p), acc', rs') /\
    acc' ++ received rs' = rest.
Proof.
  intros Hwf. revert acc. induction rs as [|r rs IH]; intros acc Heq; rewrite csafe_unfold.
  all: destruct (decide (length acc < length (to_bytes p))%nat) as [Hlt|Hge];
    [destruct (app_shorter _ _ _ _ Heq Hlt) as (s & Hs & Hp & Hrec);
     rewrite csafe_parse_partial by (by exists p, s)
    |destruct (app_longer _ _ _ _ Heq) as (k & -> & ->); [lia|];
     rewrite csafe_parse_frame by done; by eexists _, _].
  - simpl in Hrec. by destruct s.
  - destruct r as [[|b bs]|e|]; try (by destruct s).
    apply IH. rewrite <- app_assoc. done.
Qed.

Lemma partial_prefix a b : partial (a ++ b) -> partial a.
Proof.
  intros (p & s & Hwf & Heq & Hs). exists p, (b ++ s). rewrite app_assoc. split_and!; [done|done|].
  by destruct b, s.
Qed.

Lemma csafe_exhausted mtu rs acc v acc' rest :
  partial (acc ++ received rs) -> recv_udpgw_packet_csafe mtu rs acc <> (Returned (Ok v), acc', rest).
Proof.
  revert acc. induction rs as [|r rs IH]; intros acc Hq; rewrite csafe_unfold,
    csafe_parse_partial by (by eapply partial_prefix); [done|].
  destruct r as [[|b bs]|e|]; try done. apply IH.
  by rewrite received_cons, app_assoc in Hq.
Qed.

(** *** Flows *)

(** The datagrams that a sequence of packets carries for connection [sn]. *)
Definition payload (mtu sn : Z) (p : Packet) : option (list Z) :=
  match parse_udp_response mtu p with
  | Ok (RData p) => if conn_id (header p) =? sn then Some (data p) else None
  | _ => None
  end.

Definition payloads (mtu sn : Z) (ps : list Packet) : list (list Z) := omap (payload mtu sn) ps.

(** The bytes of the connection that the flow has not used yet. *)
Definition unread (f : Flow) : list Z := recv_acc f ++ received (fl_reader f).

Definition flow_inv (mtu sn : Z) (ps : list Packet) (q : list Z) (f : Flow) : Prop :=
  exists ps1 ps2, ps = ps1 ++ ps2 /\ unread f = frames ps2 ++ q /\ to_app f = payloads mtu sn ps1.

(** How a flow may end: an application write that fails loses its datagram. *)
Definition flow_end (mtu sn : Z) (ps : list Packet) (q : list Z) (reusable : bool) (f : Flow) : Prop :=
  exists ps1 ps2, ps = ps1 ++ ps2 /\ to_app f `prefix_of` payloads mtu sn ps1 /\
    (reusable = true -> unread f = frames ps2 ++ q).

Definition turn_ok (mtu sn : Z) (ps : list Packet) (q : list Z) (t : Turn) : Prop :=
  match t with
  | Continue f => flow_inv mtu sn ps q f
  | Break reusable f => flow_end mtu sn ps q reusable f
  | TurnPanic => True
  end.

Lemma inv_end mtu sn ps q b f : flow_inv mtu sn ps q f -> flow_end mtu sn ps q b f.
Proof. intros (ps1 & ps2 & -> & Hu & Ha). exists ps1, ps2. by rewrite Ha. Qed.

Lemma payloads_snoc mtu sn ps p :
  payloads mtu sn (ps ++ [p]) = payloads mtu sn ps ++ option_list (payload mtu sn p).
Proof. unfold payloads. rewrite omap_app. done. Qed.

Lemma local_branch_ok mtu sn ps q ipv6 dst now r f :
  flow_inv mtu sn ps q f -> turn_ok mtu sn ps q (local_branch ipv6 dst now r f).
Proof.
  intros Hf. unfold local_branch. destruct r as [[|b bs]|e|]; try done; try by apply inv_end.
  destruct (send_udpgw_packet _ _ _ _ _) as [[]?]; [done| |done]. by apply inv_end.
Qed.

Lemma remote_branch_ok mtu sn now p ps1 ps2 q f :
  unread f = frames ps2 ++ q -> to_app f = payloads mtu sn ps1 ->
  turn_ok mtu sn (ps1 ++ p :: ps2) q (remote_branch sn now (recv_result mtu p) f).
Proof.
  intros Hu Ha.
  assert (forall f', unread f' = unread f -> to_app f' = to_app f -> payload mtu sn p = None ->
    flow_inv mtu sn (ps1 ++ p :: ps2) q f') as Hskip.
  { intros f' Hu' Hf' Hp. exists (ps1 ++ [p]), ps2.
    rewrite <- app_assoc, payloads_snoc, Hp, app_nil_r. by rewrite Hf', Hu'. }
  unfold recv_result, payload in *. destruct (parse_udp_response mtu p) as [[| | |p']|e|] eqn:Ep;
    cbn [mbind res_bind]; unfold mret, res_ret, remote_branch; try (by apply Hskip);
    try (by apply inv_end, Hskip); [|done].
  destruct (conn_id (header p') =? sn) eqn:Ec; cbn [negb]; [|by apply Hskip].
  assert (payloads mtu sn (ps1 ++ [p]) = payloads mtu sn ps1 ++ [data p']) as Hsnoc.
  { rewrite payloads_snoc. unfold payload. by rewrite Ep, Ec. }
  unfold write_app. cbn [app_results record_traffic].
  destruct (app_results f) as [|[e|] l];
    exists (ps1 ++ [p]), ps2; rewrite Hsnoc, <- app_assoc; cbn; rewrite Ha; (split; [done|]); try done.
  split; [apply prefix_app_r; done|]. done.
Qed.

(** Polling the receive future keeps the unread bytes, or takes the next frame. *)
Lemma receive_waits mtu k f f' :
  receive mtu k f = (Waiting, f') -> unread f' = unread f /\ to_app f' = to_app f.
Proof.
  unfold receive. pose proof (csafe_resume mtu (take k (fl_reader f)) (drop k (fl_reader f)) (recv_acc f)) as Hr.
  rewrite take_drop in Hr.
  destruct (recv_udpgw_packet_csafe mtu (take k (fl_reader f)) (recv_acc f)) as [[[ret|] acc] rest]; [done|].
  intros [= <-]. destruct Hr as (-> & -> & Hrec & _). split; [|done].
  unfold unread. cbn. by rewrite <- app_assoc, <- Hrec.
Qed.

Lemma receive_returns mtu k f ret f' :
  receive mtu k f = (Returned ret, f') ->
  recv_udpgw_packet_csafe mtu (fl_reader f) (recv_acc f) = (Returned ret, recv_acc f', fl_reader f') /\
  to_app f' = to_app f.
Proof.
  unfold receive. pose proof (csafe_resume mtu (take k (fl_reader f)) (drop k (fl_reader f)) (recv_acc f)) as Hr.
  rewrite take_drop in Hr.
  destruct (recv_udpgw_packet_csafe mtu (take k (fl_reader f)) (recv_acc f)) as [[[r|] acc] rest]; [|done].
  by intros [= -> <-].
Qed.

Lemma receive_inv mtu sn ps q k now ret f f' :
  Forall packet_wf ps -> partial q -> flow_inv mtu sn ps q f -> receive mtu k f = (Returned ret, f') ->
  turn_ok mtu sn ps q (remote_branch sn now ret f').
Proof.
  intros Hps Hq (ps1 & ps2 & -> & Hu & Ha) (Hr & Ha')%receive_returns. apply Forall_app in Hps as [_ Hps2].
  destruct ps2 as [|p ps2].
  - destruct ret as [v|e|]; [| |done].
    + exfalso. eapply csafe_exhausted; [|exact Hr]. unfold unread in Hu. by rewrite Hu.
    + exists ps1, []. split_and!; [done| |done]. cbn. by rewrite Ha', Ha.
  - inversion Hps2; subst. unfold unread, frames in Hu. cbn [fmap list_fmap concat] in Hu.
    rewrite <- app_assoc in Hu.
    destruct (csafe_next mtu (fl_reader f) (recv_acc f) p _ ltac:(done) Hu) as (acc' & rs' & Hc & Hl).
    rewrite Hr in Hc. injection Hc as -> <- <-. apply remote_branch_ok; [done|]. by rewrite Ha'.
Qed.

Lemma receive_inv_waits mtu sn ps q k f f' :
  flow_inv mtu sn ps q f -> receive mtu k f = (Waiting, f') -> flow_inv mtu sn ps q f'.
Proof.
  intros (ps1 & ps2 & -> & Hu & Ha) (Hu' & Ha')%receive_waits. exists ps1, ps2. by rewrite Hu', Ha'.
Qed.

Lemma turn_inv mtu sn ps q ipv6 dst ch f :
  Forall packet_wf ps -> partial q -> flow_inv mtu sn ps q f ->
  turn_ok mtu sn ps q (turn mtu ipv6 dst sn ch f).
Proof.
  intros Hps Hq Hf. destruct ch as [[k|] now r|k now]; cbn [turn]; [|by apply local_branch_ok|];
    (destruct (receive mtu k f) as [[ret|] f1] eqn:E; [by eapply receive_inv|]);
    eapply receive_inv_waits in E; [|done| |done]; [by apply local_branch_ok|done].
Qed.

Lemma flow_loop_inv mtu sn ps q ipv6 dst choices f :
  Forall packet_wf ps -> partial q -> flow_inv mtu sn ps q f ->
  match flow_loop mtu ipv6 dst sn choices f with
  | (Waiting, f') => flow_inv mtu sn ps q f'
  | (Returned (Ok b), f') => flow_end mtu sn ps q b f'
  | (Returned (Err _), _) => False
  | (Returned Panic, _) => True
  end.
Proof.
  intros Hps Hq. revert f. induction choices as [|ch choices IH]; intros f Hf; [done|].
  cbn [flow_loop]. pose proof (turn_inv mtu sn ps q ipv6 dst ch f Hps Hq Hf) as Ht.
  destruct (turn mtu ipv6 dst sn ch f); [by apply IH|done|done].
Qed.

(** *** No turn panics *)

Definition choice_safe (ch : Choice) : Prop :=
  match ch with Local _ _ r => r <> Panic | Remote _ _ => True end.

Lemma csafe_reads mtu rs acc p acc' rest :
  recv_udpgw_packet_csafe mtu rs acc = (p, acc', rest) -> reads_safe rs -> reads_safe rest.
Proof.
  revert acc. induction rs as [|r rs IH]; intros acc; rewrite csafe_unfold;
    destruct (csafe_parse mtu acc) as [[x acc1]|]; try (by intros [= <- <- <-]).
  intros Hc Hs. apply Forall_cons in Hs as [Hr Hs].
  destruct r as [[|b bs]|e|]; try (by injection Hc as <- <- <-). by eapply IH.
Qed.

Lemma header_retrieve_safe bs : header_retrieve bs <> Panic.
Proof. unfold header_retrieve, read_exact, header_try_from. by repeat case_match; simplify_eq/=; repeat case_match. Qed.

Lemma retrieve_address_safe h bs : retrieve_address h bs <> Panic.
Proof.
  unfold retrieve_address. case_match; [|done]. pose proof (address_read_total bs).
  by destruct (address_read bs) as [[]|?|].
Qed.

Lemma csafe_parse_safe mtu acc r acc' : csafe_parse mtu acc = Some (r, acc') -> r <> Panic.
Proof.
  unfold csafe_parse. destruct acc as [|hi [|lo acc]]; try done.
  split_if E; [|split_if E2; [by intros [= <- _]|done]].
  assert (Hp : forall cur n,
    ('(h, c1) ← header_retrieve cur; '(a, c2) ← retrieve_address h c1;
     if (n <? static_len + opt_len a)%nat then Err (io_of_kind InvalidData) else mret (h, a, c2)
       : res IoError (UdpgwHeader * option Address * list Z)) <> Panic).
  { intros cur n. pose proof (header_retrieve_safe cur) as Hh. destruct (header_retrieve cur) as [[h c1]|e|]; [|done|done].
    cbn [mbind res_bind]. pose proof (retrieve_address_safe h c1) as Ha.
    destruct (retrieve_address h c1) as [[a c2]|e|]; [|done|done]. cbn [mbind res_bind]. by case_match. }
  specialize (Hp (drop UDPGW_LENGTH_FIELD_SIZE (take (Z.to_nat (of_be16 hi lo) + UDPGW_LENGTH_FIELD_SIZE) (hi :: lo :: acc)))
    (Z.to_nat (of_be16 hi lo))).
  cbv zeta. match type of Hp with ?x <> _ => destruct x as [[[h a] d]|e|] end; [|by intros [= <- _]|done].
  intros [= <- _]. unfold parse_udp_response. by repeat case_match.
Qed.

Lemma csafe_safe mtu rs acc acc' rest :
  reads_safe rs -> recv_udpgw_packet_csafe mtu rs acc <> (Returned Panic, acc', rest).
Proof.
  intros Hs. revert acc. induction Hs as [|r rs Hr _ IH]; intros acc; rewrite csafe_unfold;
    destruct (csafe_parse mtu acc) as [[x acc1]|] eqn:E; try done.
  1,2: intros [= -> _ _]; by eapply csafe_parse_safe in E.
  destruct r as [[|b bs]|e|]; try done.
Qed.

(** What a turn that does not panic keeps for the next one. *)
Definition turn_safe (t : Turn) : Prop :=
  match t with Continue f => reads_safe (fl_reader f) | Break _ _ => True | TurnPanic => False end.

Lemma remote_branch_safe sn now ret f :
  ret <> Panic -> reads_safe (fl_reader f) -> turn_safe (remote_branch sn now ret f).
Proof.
  intros Hr Hs. unfold remote_branch, write_app.
  repeat case_match; simplify_eq/=; repeat case_match; simplify_eq/=; done.
Qed.

Lemma send_udpgw_packet_safe ipv6 d a id w : (send_udpgw_packet ipv6 d a id w).1 <> Panic.
Proof.
  unfold send_udpgw_packet, build_packet_from_address, build_domain_packet, writer_write_all, write_all.
  repeat case_match; simplify_eq/=; repeat case_match; simplify_eq/=; done.
Qed.

Lemma local_branch_safe ipv6 dst now r f :
  r <> Panic -> reads_safe (fl_reader f) -> turn_safe (local_branch ipv6 dst now r f).
Proof.
  intros Hr Hs. unfold local_branch. destruct r as [[|b bs]|e|]; try done.
  pose proof (send_udpgw_packet_safe ipv6 (b :: bs) dst
    (serial_number (fl_stream (record_traffic (len (b :: bs)) 0 f)))
    (fl_writer (record_traffic (len (b :: bs)) 0 f))) as Hw.
  by destruct (send_udpgw_packet _ _ _ _ _) as [[]?].
Qed.

Lemma receive_safe mtu k f :
  reads_safe (fl_reader f) ->
  (receive mtu k f).1 <> Returned Panic /\ reads_safe (fl_reader (receive mtu k f).2).
Proof.
  intros Hs. destruct (receive mtu k f) as [[ret|] f1] eqn:E.
  - apply receive_returns in E as [E _]. split; [|by eapply csafe_reads].
    cbn. intros [= ->]. by eapply csafe_safe.
  - split; [done|]. unfold receive in E.
    pose proof (csafe_resume mtu (take k (fl_reader f)) (drop k (fl_reader f)) (recv_acc f)) as Hr.
    destruct (recv_udpgw_packet_csafe mtu (take k (fl_reader f)) (recv_acc f)) as [[[r|] acc] rest]; [done|].
    injection E as <-. destruct Hr as (-> & _). by apply Forall_drop.
Qed.

Lemma turn_never_panics mtu sn ipv6 dst ch f :
  choice_safe ch -> reads_safe (fl_reader f) -> turn_safe (turn mtu ipv6 dst sn ch f).
Proof.
  intros Hch Hs. destruct ch as [[k|] now r|k now]; cbn [turn]; [|by apply local_branch_safe|];
    destruct (receive_safe mtu k f Hs) as [Hp Hs1]; destruct (receive mtu k f) as [[ret|] f1];
    [apply remote_branch_safe; [by intros ->|done]|by apply local_branch_safe|apply remote_branch_safe; [by intros ->|done]|done].
Qed.

Lemma flow_loop_safe mtu sn ipv6 dst choices f :
  Forall choice_safe choices -> reads_safe (fl_reader f) ->
  (flow_loop mtu ipv6 dst sn choices f).1 <> Returned Panic.
Proof.
  intros Hch. revert f. induction Hch as [|ch choices Hc Hch IH]; intros f Hs; [done|].
  cbn [flow_loop]. pose proof (turn_never_panics mtu sn ipv6 dst ch f Hc Hs) as Hp.
  destruct (turn mtu ipv6 dst sn ch f); [by apply IH|done|done].
Qed.

(** *** Connections that may be reused *)

(** A length field and as many bytes as it says. *)
Definition is_frame (bs : list Z) : Prop :=
  exists hi lo body, bs = hi :: lo :: body /\ length body = Z.to_nat (of_be16 hi lo).

(** [u] is what is left of the bytes [total] of a connection after whole frames. *)
Definition boundary (total u : list Z) : Prop := exists fs, Forall is_frame fs /\ total = concat fs ++ u.

Lemma boundary_next total fr u : boundary total (fr ++ u) -> is_frame fr -> boundary total u.
Proof.
  intros (fs & Hfs & ->) Hf. exists (fs ++ [fr]). rewrite concat_app, <- app_assoc. cbn. rewrite app_nil_r.
  split; [|done]. apply Forall_app. split; [done|]. by constructor.
Qed.

(** A connection between two users: open, with both halves, its unread bytes at
    a frame boundary of one of the connections opened so far. *)
Definition stream_ready (opened : list (list Z)) (s : UdpGwClientStream) : Prop :=
  closed s = false /\
  exists rs w total, reader s = Some rs /\ writer s = Some w /\ total ∈ opened /\ boundary total (received rs).

Definition pool_ok (opened : list (list Z)) (c : UdpGwClient) : Prop :=
  (length (server_connections c) <= max_connections c)%nat /\
  Forall (stream_ready opened) (server_connections c).

Lemma csafe_parse_takes mtu acc v acc' :
  csafe_parse mtu acc = Some (Ok v, acc') -> exists fr, is_frame fr /\ acc = fr ++ acc'.
Proof.
  unfold csafe_parse. destruct acc as [|hi [|lo acc]]; try done.
  split_if E; [|split_if E2; done]. apply andb_true_iff in E as [_ E]. apply Nat.leb_le in E. cbv zeta. match goal with |- context [match ?x with _ => _ end] => destruct x as [[[h a] d]|e|] end;
    try done. intros [= _ <-]. exists (take (Z.to_nat (of_be16 hi lo) + UDPGW_LENGTH_FIELD_SIZE) (hi :: lo :: acc)).
  rewrite take_drop. split; [|done]. rewrite Nat.add_comm in *. unfold UDPGW_LENGTH_FIELD_SIZE in *. cbn [Nat.add take length] in *.
  exists hi, lo, (take (Z.to_nat (of_be16 hi lo)) acc). split; [done|]. rewrite length_take. lia.
Qed.

Lemma csafe_takes mtu rs acc v acc' rest :
  recv_udpgw_packet_csafe mtu rs acc = (Returned (Ok v), acc', rest) ->
  exists fr, is_frame fr /\ acc ++ received rs = fr ++ acc' ++ received rest.
Proof.
  revert acc. induction rs as [|r rs IH]; intros acc; rewrite csafe_unfold;
    destruct (csafe_parse mtu acc) as [[x acc1]|] eqn:E; try done.
  1,2: intros [= -> <- <-]; apply csafe_parse_takes in E as (fr & Hf & ->); exists fr; by rewrite <- app_assoc.
  destruct r as [[|b bs]|e|]; try done. intros (fr & Hf & Hr)%IH. exists fr. split; [done|].
  by rewrite received_cons, app_assoc.
Qed.

(** What a flow keeps of its connection, whatever the gateway sends. *)
Lemma receive_boundary total mtu k f v f' :
  boundary total (unread f) -> receive mtu k f = (Returned (Ok v), f') -> boundary total (unread f').
Proof.
  intros Hb (Hr & _)%receive_returns. apply csafe_takes in Hr as (fr & Hf & Hu). unfold unread in *. rewrite Hu in Hb.
  by eapply boundary_next.
Qed.

Definition turn_boundary (total : list Z) (t : Turn) : Prop :=
  match t with Continue f | Break true f => boundary total (unread f) | _ => True end.

Lemma local_branch_boundary total ipv6 dst now r f :
  boundary total (unread f) -> turn_boundary total (local_branch ipv6 dst now r f).
Proof.
  intros Hb. unfold local_branch. destruct r as [[|b bs]|e|]; try done.
  by destruct (send_udpgw_packet _ _ _ _ _) as [[]?].
Qed.

Lemma remote_branch_boundary total sn now ret f :
  (forall v, ret = Ok v -> boundary total (unread f)) -> turn_boundary total (remote_branch sn now ret f).
Proof.
  unfold remote_branch. intros Hb. destruct ret as [[n [| | |p]]|e|]; try done; try (by eapply Hb).
  split_if E; [by eapply Hb|]. unfold write_app. cbn [app_results record_traffic].
  destruct (app_results f) as [|[e|] l]; by eapply Hb.
Qed.

Lemma flow_loop_boundary total mtu sn ipv6 dst choices f f' :
  boundary total (unread f) -> flow_loop mtu ipv6 dst sn choices f = (Returned (Ok true), f') -> boundary total (unread f').
Proof.
  revert f. induction choices as [|ch choices IH]; intros f Hb; [done|]. cbn [flow_loop].
  assert (Ht : turn_boundary total (turn mtu ipv6 dst sn ch f)).
  { destruct ch as [[k|] now r|k now]; cbn [turn]; [|by apply local_branch_boundary|];
      (destruct (receive mtu k f) as [[ret|] f1] eqn:E;
       [apply remote_branch_boundary; intros v ->; by eapply receive_boundary|apply receive_waits in E as [E _]]);
      [apply local_branch_boundary|cbn]; by rewrite E. }
  destruct (turn mtu ipv6 dst sn ch f) as [f1|[] f1|]; try done; [by apply IH|by intros [= <-]].
Qed.

Lemma local_branch_open ipv6 dst now r f :
  match local_branch ipv6 dst now r f with
  | Continue f' | Break true f' => closed (fl_stream f') = closed (fl_stream f)
  | _ => True
  end.
Proof.
  unfold local_branch. destruct r as [[|b bs]|e|]; try done.
  by destruct (send_udpgw_packet _ _ _ _ _) as [[]?].
Qed.

Lemma remote_branch_open sn now ret f :
  match remote_branch sn now ret f with
  | Continue f' | Break true f' => closed (fl_stream f') = closed (fl_stream f)
  | _ => True
  end.
Proof.
  unfold remote_branch. destruct ret as [[n [| | |p]]|e|]; try done.
  split_if E; [done|]. unfold write_app. cbn [app_results record_traffic].
  by destruct (app_results f) as [|[e|] l].
Qed.

Lemma flow_loop_open mtu sn ipv6 dst choices f f' :
  flow_loop mtu ipv6 dst sn choices f = (Returned (Ok true), f') ->
  closed (fl_stream f') = closed (fl_stream f).
Proof.
  revert f. induction choices as [|ch choices IH]; intros f; [done|]. cbn [flow_loop].
  assert (match turn mtu ipv6 dst sn ch f with
    | Continue f' | Break true f' => closed (fl_stream f') = closed (fl_stream f)
    | _ => True end) as Ht.
  { assert (Hst : forall k, fl_stream (receive mtu k f).2 = fl_stream f).
    { intros k. unfold receive. by destruct (recv_udpgw_packet_csafe _ _ _) as [[? ?] ?]. }
    destruct ch as [[k|] now r|k now]; cbn [turn]; [|apply local_branch_open|]; specialize (Hst k);
      destruct (receive mtu k f) as [[ret|] f1]; cbn in Hst; rewrite <- Hst;
      [apply remote_branch_open|apply local_branch_open|apply remote_branch_open|done]. }
  destruct (turn mtu ipv6 dst sn ch f) as [f1|[] f1|]; try done.
  - intros Hl. by rewrite (IH _ Hl).
  - by intros [= <-].
Qed.

(** The connection while a session uses it: its halves are taken out. *)
Definition stripped (s : UdpGwClientStream) : UdpGwClientStream := (get_writer (get_reader s).2).2.

Lemma store_full_ok opened s rs w total c :
  pool_ok opened c -> closed s = false -> total ∈ opened -> boundary total (received rs) ->
  pool_ok opened (store_server_connection_full s rs w c).
Proof.
  intros [Hl Hf] Hs Ht Hr. unfold store_server_connection_full. split_if E; [|done]. b2p.
  split; cbn; [rewrite length_app; simpl; lia|]. apply Forall_app; split; [done|].
  repeat constructor; cbn; [done|]. by exists rs, w, total.
Qed.

Lemma finish_ok opened sn now b f total c :
  pool_ok opened c -> total ∈ opened -> (b = true -> closed (fl_stream f) = false /\ boundary total (unread f)) ->
  pool_ok opened (finish sn now b f c).2.
Proof.
  intros Hc Ht Hb. unfold finish. destruct b; cbn [andb]; [|done]. destruct (Hb eq_refl) as [Hs Hf].
  split_if E; [|done]. b2p. destruct (send_udpgw_close_packet _ _) as [[] ?]; try done.
  apply (store_full_ok opened _ _ _ total); [done..|]. unfold unread in Hf. by destruct (recv_acc f).
Qed.

(** The heartbeat reads whole frames too. *)
Lemma recv_boundary total mtu rs v rs' :
  boundary total (received rs) -> recv_udpgw_packet mtu rs = (Ok v, rs') -> boundary total (received rs').
Proof.
  unfold recv_udpgw_packet. destruct (retrieve_from_async_stream rs) as [[p|?|] r] eqn:E; try done.
  destruct (retrieve_async_used _ _ _ E) as (hi & lo & used & Hr & Hl). intros Hb [= _ <-].
  rewrite Hr in Hb. apply (boundary_next total (hi :: lo :: used)); [done|]. by exists hi, lo, used.
Qed.

Lemma recv_shrinks mtu rs v rs' :
  recv_udpgw_packet mtu rs = (Ok v, rs') -> (length (received rs') < length (received rs))%nat.
Proof.
  unfold recv_udpgw_packet. destruct (retrieve_from_async_stream rs) as [[p|?|] r] eqn:E; try done.
  destruct (retrieve_async_used _ _ _ E) as (hi & lo & used & -> & _).
  intros [= _ <-]. simpl. rewrite length_app. lia.
Qed.

(** The wait for the answer to a keepalive ends within the fuel it is given. *)
Lemma keepalive_terminates fuel mtu rs rx :
  (length (received rs) < fuel)%nat -> keepalive_loop fuel mtu rs rx <> None.
Proof.
  revert rs rx. induction fuel as [|fuel IH]; intros rs rx Hf; [lia|]. cbn [keepalive_loop].
  destruct (recv_udpgw_packet mtu rs) as [[[n v]|e|] rs'] eqn:E; try done.
  apply recv_shrinks in E. destruct v; try done; apply IH; lia.
Qed.

Lemma keepalive_boundary total fuel mtu rs rx rs' rx' :
  boundary total (received rs) -> keepalive_loop fuel mtu rs rx = Some (Alive rs', rx') ->
  boundary total (received rs').
Proof.
  revert rs rx. induction fuel as [|fuel IH]; intros rs rx Hf; [done|]. cbn [keepalive_loop].
  destruct (recv_udpgw_packet mtu rs) as [[[n v]|e|] r] eqn:E; try done.
  eapply recv_boundary in E; [|done]. destruct v; try done; try (by apply IH). by intros [= <- _].
Qed.

Lemma heartbeat_one_ok opened now now' s c :
  pool_ok opened c -> stream_ready opened s -> pool_ok opened (heartbeat_one now now' s c).2.
Proof.
  intros Hc Hs. pose proof Hs as [Ho (rs & w & total & Hr & Hw & Ht & Hf)]. unfold heartbeat_one.
  split_if E.
  - unfold store_server_connection. cbn [snd]. split_if E2; [|done]. b2p. destruct Hc as [Hl Ha].
    split; cbn; [rewrite length_app; simpl; lia|]. apply Forall_app; split; [done|]. by constructor.
  - unfold get_reader, get_writer. rewrite Hr. cbn [writer serial_number]. rewrite Hw. destruct (w_local w); try done.
    destruct (writer_write_all _ w) as [[] w']; try done.
    destruct (keepalive_loop _ _ _ _) as [[[rs'| |] rx]|] eqn:Ek; try done.
    apply (store_full_ok opened _ _ _ total); [done..|]. by eapply keepalive_boundary.
Qed.

Definition recent (now : Z) (c : UdpGwClient) (s : UdpGwClientStream) : Prop :=
  Z.max 0 (now - last_activity s) < keepalive_time c.

Lemma set_connections_fields l c :
  keepalive_time (set_connections l c) = keepalive_time c /\
  max_connections (set_connections l c) = max_connections c.
Proof. done. Qed.

(** One connection is either dropped or goes to the back of the queue; a
    recently active one always goes back unchanged. *)
Lemma heartbeat_one_result now now' s c r c' :
  (length (server_connections c) < max_connections c)%nat ->
  heartbeat_one now now' s c = (r, c') ->
  exists back, server_connections c' = server_connections c ++ back /\
    c' = set_connections (server_connections c') c /\
    (back = [] \/ exists s', back = [s'] /\ serial_number s' = serial_number s) /\
    (recent now c s -> back = [s]).
Proof.
  intros Hl. apply Nat.ltb_lt in Hl.
  unfold heartbeat_one, recent, store_server_connection, store_server_connection_full.
  rewrite Hl. split_if E; b2p.
  - intros [= <- <-]. exists [s]. split_and!; [done|done| |done]. right. by exists s.
  - assert (Hskip : forall r' : res IoError (nat * nat), (r', c) = (r, c') -> exists back,
      server_connections c' = server_connections c ++ back /\
      c' = set_connections (server_connections c') c /\
      (back = [] \/ exists s', back = [s'] /\ serial_number s' = serial_number s) /\
      (Z.max 0 (now - last_activity s) < keepalive_time c -> back = [s])).
    { intros r' [= <- <-]. exists []. rewrite app_nil_r. split_and!; [done|by destruct c|by left|lia]. }
    unfold get_reader, get_writer. destruct (reader s) as [rs|]; [|apply Hskip].
    cbn [writer serial_number]. destruct (writer s) as [w|]; [|apply Hskip].
    destruct (w_local w); try apply Hskip.
    destruct (writer_write_all _ w) as [[] w']; try apply Hskip.
    destruct (keepalive_loop _ _ _ _) as [[[rs'| |] rx]|]; try apply Hskip.
    intros [= <- <-]. eexists. split_and!; [done|done| |lia]. right. by eexists.
Qed.

Lemma heartbeat_all_result now now' streams tx rx c r c' :
  (length (server_connections c) + length streams <= max_connections c)%nat ->
  heartbeat_all now now' streams tx rx c = (Ok r, c') ->
  exists back, server_connections c' = server_connections c ++ back /\
    (serial_number <$> back) `sublist_of` (serial_number <$> streams) /\
    (forall s, s ∈ streams -> recent now c s -> s ∈ back).
Proof.
  revert tx rx c. induction streams as [|s streams IH]; intros tx rx c Hl; cbn [heartbeat_all].
  - intros [= _ <-]. exists []. rewrite app_nil_r. split_and!; [done|done|]. by intros s Hs%elem_of_nil.
  - simpl in Hl. destruct (heartbeat_one now now' s c) as [[[t x]|?|] c1] eqn:E; try done.
    apply heartbeat_one_result in E as (b1 & Hb & Hc1 & Hser & Hrec); [|lia]. intros Ha.
    apply IH in Ha as (b2 & -> & Hs2 & Hr2).
    + exists (b1 ++ b2). rewrite Hb, <- app_assoc. split_and!; [done| |].
      * rewrite fmap_app, fmap_cons. destruct Hser as [->|(s' & -> & <-)]; cbn.
        -- by apply sublist_cons.
        -- by apply sublist_skip.
      * intros s0 [->|Hs0]%elem_of_cons Hrc.
        -- rewrite (Hrec Hrc). by left.
        -- apply elem_of_app. right. apply Hr2; [done|]. rewrite Hc1. apply Hrc.
    + rewrite Hc1 at 2. cbn. rewrite Hb, length_app.
      destruct Hser as [->|(s' & -> & _)]; simpl; lia.
Qed.

Lemma heartbeat_all_ok opened now now' streams tx rx c :
  pool_ok opened c -> Forall (stream_ready opened) streams ->
  pool_ok opened (heartbeat_all now now' streams tx rx c).2.
Proof.
  revert tx rx c. induction streams as [|s streams IH]; intros tx rx c Hc Hs; [done|].
  inversion Hs; subst. cbn [heartbeat_all].
  pose proof (heartbeat_one_ok opened now now' s c ltac:(done) ltac:(done)) as H1'.
  destruct (heartbeat_one now now' s c) as [[[t r]|?|] c1]; [by apply IH|done|done].
Qed.

Lemma ready_filter opened l :
  Forall (stream_ready opened) l -> filter (fun s => closed s = false) l = l.
Proof.
  induction 1 as [|s l Hs _ IH]; [done|]. rewrite filter_cons_True by apply Hs. by rewrite IH.
Qed.

(** ** The properties *)

(** Dropping the receive future at any wait loses nothing: a new call with the
    same buffer returns the very next frame of the connection, and what it
    leaves is the rest of the stream. *)
Theorem udpgw_reader_cancel_safe mtu rs1 rs2 acc acc' rs' p rest :
  packet_wf p ->
  acc ++ received (rs1 ++ rs2) = to_bytes p ++ rest ->
  recv_udpgw_packet_csafe mtu rs1 acc = (Waiting, acc', rs') ->
  exists acc'' rs'',
    recv_udpgw_packet_csafe mtu rs2 acc' = (Returned (recv_result mtu p), acc'', rs'') /\
    acc'' ++ received rs'' = rest.
Proof.
  intros Hwf Heq Hw. pose proof (csafe_resume mtu rs1 rs2 acc) as Hr. rewrite Hw in Hr.
  destruct Hr as (_ & -> & Hrec & _). apply csafe_next; [done|].
  by rewrite <- app_assoc, <- Hrec.
Qed.

(** C3. Whatever the interleaving of application datagrams and socket reads, and in
    whatever order a [select!] polls its branches, no turn of a flow panics,
    whatever bytes the gateway sends.  When it sends well-formed frames, the flow
    hands to the application exactly the payloads of the frames it has consumed
    that carry its own connection identifier, in order; frames are never split,
    skipped or merged; and when it ends as reusable, the bytes not used yet begin
    at a frame boundary. *)
Theorem udpgw_flow_delivers mtu ipv6 dst sn choices stream rs w app :
  reads_safe rs -> Forall choice_safe choices ->
  (flow_loop mtu ipv6 dst sn choices (mkFlow stream rs w [] [] app [])).1 <> Returned Panic /\
  forall ps q, Forall packet_wf ps -> partial q -> received rs = frames ps ++ q ->
  match flow_loop mtu ipv6 dst sn choices (mkFlow stream rs w [] [] app []) with
  | (Waiting, f) => exists ps1 ps2, ps = ps1 ++ ps2 /\
      unread f = frames ps2 ++ q /\ to_app f = payloads mtu sn ps1
  | (Returned (Ok reusable), f) => exists ps1 ps2, ps = ps1 ++ ps2 /\
      to_app f `prefix_of` payloads mtu sn ps1 /\
      (reusable = true -> unread f = frames ps2 ++ q)
  | (Returned (Err _), _) => False
  | (Returned Panic, _) => False
  end.
Proof.
  intros Hs Hch. pose proof (flow_loop_safe mtu sn ipv6 dst choices (mkFlow stream rs w [] [] app []) Hch Hs) as Hn.
  split; [done|]. intros ps q Hps Hq Hrs.
  assert (flow_inv mtu sn ps q (mkFlow stream rs w [] [] app [])) as Hf by by exists [], ps.
  pose proof (flow_loop_inv mtu sn ps q ipv6 dst choices _ Hps Hq Hf) as Hi.
  by destruct (flow_loop _ _ _ _ _ _) as [[[b|e|]|] f].
Qed.

(** ** The pool and its users *)

(** The pool, the connection each running session has, the connections the
    heartbeat has taken out, and, for every connection ever opened, the bytes
    that arrive on it. *)
Record Shared := mkShared {
  client : UdpGwClient;
  in_use : gmap nat UdpGwClientStream;
  checking : list UdpGwClientStream;
  opened : list (list Z) }.

(** What the tasks do, one critical section of the pool at a time.  A session
    takes a connection from the pool, closed ones being dropped, or opens one;
    its loop runs on the halves of the connection it has, and what the loop left
    goes through the end of the handler; or the session ends without it.  The
    heartbeat takes connections out one by one and checks them. *)
Inductive pool_step (w : Shared) : Shared -> Prop :=
  | pool_take n s c serial :
      in_use w !! n = None -> pop_server_connection_from_queue (client w) = (Some s, c) ->
      pool_step w (mkShared c (if closed s then in_use w else <[n := (rotate_serial_number serial s).1]> (in_use w))
        (checking w) (opened w))
  | pool_new n serial now local srv :
      in_use w !! n = None ->
      pool_step w (mkShared (client w) (<[n := (new_stream serial now local srv).1]> (in_use w)) (checking w)
        (received (reads srv) :: opened w))
  | pool_end n s rs wr ipv6 dst choices app b f now :
      in_use w !! n = Some s -> (get_reader s).1 = Some rs -> (get_writer (get_reader s).2).1 = Some wr ->
      flow_loop (udp_mtu (client w)) ipv6 dst (serial_number s) choices (mkFlow (stripped s) rs wr [] [] app []) =
        (Returned (Ok b), f) ->
      pool_step w (mkShared (finish (serial_number s) now b f (client w)).2 (delete n (in_use w)) (checking w) (opened w))
  | pool_drop n : pool_step w (mkShared (client w) (delete n (in_use w)) (checking w) (opened w))
  | pool_check s c :
      pop_server_connection_from_queue (client w) = (Some s, c) ->
      pool_step w (mkShared c (in_use w) (if closed s then checking w else checking w ++ [s]) (opened w))
  | pool_beat now now' s l :
      checking w = s :: l ->
      pool_step w (mkShared (heartbeat_one now now' s (client w)).2 (in_use w)
        (match (heartbeat_one now now' s (client w)).1 with Ok _ => l | _ => [] end) (opened w)).

Definition shared_ok (w : Shared) : Prop :=
  pool_ok (opened w) (client w) /\ map_Forall (fun _ s => stream_ready (opened w) s) (in_use w) /\
  Forall (stream_ready (opened w)) (checking w).

Lemma ready_mono o total s : stream_ready o s -> stream_ready (total :: o) s.
Proof. intros [Ho (rs & w & t & Hr & Hw & Ht & Hb)]. split; [done|]. exists rs, w, t. split_and!; try done. by right. Qed.

Lemma pop_ok o c s c' :
  pool_ok o c -> pop_server_connection_from_queue c = (Some s, c') -> stream_ready o s /\ pool_ok o c'.
Proof.
  intros [Hl Ha]. unfold pop_server_connection_from_queue.
  destruct (server_connections c) as [|s0 l] eqn:E; [done|]. intros [= <- <-].
  inversion Ha; subst. simpl in Hl. split; [done|]. split; cbn; [lia|done].
Qed.

Lemma session_end_ok w n s rs wr ipv6 dst choices app b f now :
  shared_ok w -> in_use w !! n = Some s -> reader s = Some rs -> writer s = Some wr ->
  flow_loop (udp_mtu (client w)) ipv6 dst (serial_number s) choices (mkFlow (stripped s) rs wr [] [] app []) =
    (Returned (Ok b), f) ->
  pool_ok (opened w) (finish (serial_number s) now b f (client w)).2.
Proof.
  intros (Hp & Hu & _) Hn Hr Hw Hf. destruct (Hu n s Hn) as [Ho (rs' & wr' & total & Hr' & _ & Ht & Hb)].
  rewrite Hr in Hr'. injection Hr' as <-. apply (finish_ok _ _ _ _ _ total); [done..|]. intros ->. split.
  - by rewrite (flow_loop_open _ _ _ _ _ _ _ Hf).
  - by eapply flow_loop_boundary, Hf.
Qed.

Lemma pool_step_ok w w' : shared_ok w -> pool_step w w' -> shared_ok w'.
Proof.
  intros Hok Hs. pose proof Hok as (Hp & Hu & Hc).
  destruct Hs as [n s c serial Hn Hpop|n serial now local srv Hn|n s rs wr ipv6 dst choices app b f now Hn Hr Hw Hf|n|s c Hpop|now now' s l Hck].
  - destruct (pop_ok _ _ _ _ Hp Hpop) as [Hs Hp']. split_and!; [done| |done]. cbn [in_use opened].
    destruct (closed s) eqn:Ec; [done|]. apply map_Forall_insert_2; [|done]. exact Hs.
  - assert (Hr : stream_ready (received (reads srv) :: opened w) (new_stream serial now local srv).1).
    { split; [done|]. eexists _, _, _. split_and!; [done|done|by left|]. by exists []. }
    split_and!; cbn.
    + destruct Hp as [Hl Ha]. split; [done|]. eapply Forall_impl; [exact Ha|]. intros x. apply ready_mono.
    + apply map_Forall_insert_2; [done|]. eapply map_Forall_impl; [exact Hu|]. intros ? x. apply ready_mono.
    + eapply Forall_impl; [exact Hc|]. intros x. apply ready_mono.
  - split_and!; cbn; [by eapply session_end_ok|by apply map_Forall_delete|done].
  - split_and!; [done|by apply map_Forall_delete|done].
  - destruct (pop_ok _ _ _ _ Hp Hpop) as [Hs Hp']. split_and!; [done|done|]. cbn. destruct (closed s); [done|].
    apply Forall_app. split; [done|]. by constructor.
  - rewrite Hck in Hc. apply Forall_cons in Hc as [Hs Hl]. split_and!; cbn; [by apply heartbeat_one_ok|done|].
    by case_match.
Qed.

(** C21. Under any interleaving of sessions and heartbeat, and whatever the gateway
    sends, the pool never holds more than [max_connections] connections, and
    each of them is open, has both halves, and what is left to read of it begins
    at a frame boundary of a connection that was opened before. *)
Theorem udpgw_pool_invariant mtu max keepalive timeout server w :
  rtc pool_step (mkShared (new_client mtu max keepalive timeout server) ∅ [] []) w ->
  (length (server_connections (client w)) <= max_connections (client w))%nat /\
  Forall (stream_ready (opened w)) (server_connections (client w)).
Proof.
  intros Hs. assert (Hi : shared_ok (mkShared (new_client mtu max keepalive timeout server) ∅ [] [])).
  { split_and!; [split; [apply Nat.le_0_l|constructor]|apply map_Forall_empty|constructor]. }
  revert Hi. induction Hs as [w|w1 w2 w3 Hstep _ IH]; [by intros [? _]|]. intros Hw.
  apply IH. by eapply pool_step_ok.
Qed.

(** A turn of the heartbeat keeps the pool valid, never invents or reorders
    connections, and never loses one that was active within the keepalive
    time. *)
Theorem udpgw_heartbeat_keeps o now now' c r c' :
  pool_ok o c -> heartbeat_turn now now' c = (Ok r, c') ->
  pool_ok o c' /\
  (serial_number <$> server_connections c') `sublist_of` (serial_number <$> server_connections c) /\
  (forall s, s ∈ server_connections c -> recent now c s -> s ∈ server_connections c').
Proof.
  intros [Hl Hr] Hb. unfold heartbeat_turn in Hb. rewrite (ready_filter o) in Hb by done.
  assert (pool_ok o (set_connections [] c)) as H0' by (split; [apply Nat.le_0_l|constructor]).
  pose proof (heartbeat_all_ok o now now' _ 0 0 _ H0' Hr) as Hok. rewrite Hb in Hok.
  apply heartbeat_all_result in Hb as (back & Hc' & Hsub & Hrec); [|cbn; lia].
  cbn in Hc'. rewrite Hc'. split_and!; [done|done|]. intros s Hs Hrc. by apply Hrec.
Qed.
End flow.

(** ** Examples *)

Import Rfc1928.

(** A data packet for connection 7, arriving in two pieces. *)
Definition example_data : Packet :=
  mkPacket (mkHeader DATA 7) (Some (SocketAddress (mkSA (ipv4 8 8 8 8) 53))) [1; 2; 3].

Lemma example_data_wf : packet_wf (H := rfc1928) example_data.
Proof. vm_compute. repeat split; done. Qed.

Definition example_reads : Reader :=
  [Ok [0; 13; 2; 0; 7; 1; 8]; Ok [8; 8; 8; 0; 53; 1; 2; 3]].

Lemma partial_nil : partial (H := rfc1928) [].
Proof. by exists example_data, (to_bytes (H := rfc1928) example_data); split; [apply example_data_wf|]. Qed.

Lemma udpgw_reader_cancel_safe_witness :
  exists acc rs, recv_udpgw_packet_csafe (H := rfc1928) 1500 [Ok [8; 8; 8; 0; 53; 1; 2; 3]]
      [0; 13; 2; 0; 7; 1; 8] =
    (Returned (recv_result (H := rfc1928) 1500 example_data), acc, rs) /\ acc ++ received rs = [].
Proof.
  refine (udpgw_reader_cancel_safe (H := rfc1928) 1500 [Ok [0; 13; 2; 0; 7; 1; 8]]
    [Ok [8; 8; 8; 0; 53; 1; 2; 3]] [] _ [] example_data [] example_data_wf _ _); reflexivity.
Defined.

Definition example_stream : UdpGwClientStream :=
  mkStream (mkSA (ipv4 127 0 0 1) 4000)
    (Some (mkWriter (Ok (mkSA (ipv4 127 0 0 1) 4000)) (mkServer [] [] [] []))) (Some example_reads)
    false 100 7.

Lemma example_stream_ready : stream_ready [received example_reads] example_stream.
Proof. split; [done|]. eexists _, _, _. split_and!; [done|done|by left|]. by exists []. Qed.

(** The application's datagram wins although the buffer may hold a frame. *)
Lemma udpgw_flow_delivers_witness :
  match flow_loop (H := rfc1928) 1500 false (SocketAddress (mkSA (ipv4 8 8 8 8) 53)) 7
    [Remote 1 0; Local None 0 (Ok [9]); Remote 1 0] (mkFlow example_stream example_reads
      (mkWriter (Ok (mkSA (ipv4 127 0 0 1) 4000)) (mkServer [] [] [] [])) [] [] [] []) with
  | (Waiting, f) => exists ps1 ps2, [example_data] = ps1 ++ ps2 /\
      unread f = frames (H := rfc1928) ps2 ++ [] /\ to_app f = payloads 1500 7 ps1
  | _ => False
  end.
Proof.
  pose proof (udpgw_flow_delivers (H := rfc1928) 1500 false (SocketAddress (mkSA (ipv4 8 8 8 8) 53)) 7
    [Remote 1 0; Local None 0 (Ok [9]); Remote 1 0] example_stream example_reads
    (mkWriter (Ok (mkSA (ipv4 127 0 0 1) 4000)) (mkServer [] [] [] [])) []
    ltac:(by repeat constructor) ltac:(by repeat constructor)) as [_ Hd].
  exact (Hd [example_data] [] ltac:(repeat constructor; apply example_data_wf) partial_nil eq_refl).
Defined.

(** A session opens a connection, ends without a frame, and gives it back. *)
Lemma udpgw_pool_invariant_witness :
  exists w, server_connections (client w) <> [] /\ Forall (stream_ready (opened w)) (server_connections (client w)).
Proof.
  pose (srv := mkServer [] [] [] []).
  pose (s := (new_stream 7 0 (Ok (mkSA (ipv4 127 0 0 1) 4000)) srv).1).
  pose (w0 := mkShared (new_client 1500 5 30 10 (mkSA (ipv4 10 0 0 1) 7300)) ∅ [] []).
  pose (w1 := mkShared (client w0) (<[0%nat := s]> ∅) [] [[]]).
  pose (f := mkFlow (stripped s) [] (mkWriter (Ok (mkSA (ipv4 127 0 0 1) 4000)) srv) [] [] [] []).
  pose (w2 := mkShared (finish (H := rfc1928) 7 1 true f (client w1)).2 (delete 0%nat (in_use w1)) [] [[]]).
  exists w2. split; [vm_compute; discriminate|].
  refine (proj2 (udpgw_pool_invariant (H := rfc1928) 1500 5 30 10 (mkSA (ipv4 10 0 0 1) 7300) w2 _)).
  eapply rtc_l; [exact (pool_new (H := rfc1928) w0 0 7 0 (Ok (mkSA (ipv4 127 0 0 1) 4000)) srv eq_refl)|].
  apply rtc_once.
  refine (pool_end (H := rfc1928) w1 0 s [] (mkWriter (Ok (mkSA (ipv4 127 0 0 1) 4000)) srv) false
    (SocketAddress (mkSA (ipv4 8 8 8 8) 53)) [Local None 0 (Ok [])] [] true f 1 _ _ _ _); reflexivity.
Defined.

Lemma udpgw_heartbeat_keeps_witness :
  exists s, s ∈ server_connections (heartbeat_turn (H := rfc1928) 110 110
    (mkClient 1500 5 10 30 (mkSA (ipv4 10 0 0 1) 7300) [example_stream])).2.
Proof.
  exists example_stream.
  refine (proj2 (proj2 (udpgw_heartbeat_keeps (H := rfc1928) [received example_reads] 110 110
    (mkClient 1500 5 10 30 (mkSA (ipv4 10 0 0 1) 7300) [example_stream]) _ _ _ eq_refl)) _ _ _).
  - split; [simpl; lia|]. constructor; [apply example_stream_ready|constructor].
  - by left.
  - done.
Defined.
End UdpgwFlow.
