(* ===== verification/UdpgwServer.v ===== *)
(** * The UDP gateway server (src/src/bin/udpgw_server.rs)

    One client connection of the server: the task that reads its frames
    ([process_client_udp_req], [process_udp]), the relay tasks it spawns, one
    per session, and the task that writes frames back ([write_to_client]).  The
    tasks run concurrently; a step of the model is what a task does between two
    points where it waits, and the state is what they share: the two maps, the
    cancellation tokens, the channel and the sockets.  A relay socket, its task
    and its stop token are identified by the generation of their session.
    Clocks are in milliseconds. *)

From S2P Require Import Prelude Net Socks5Impl Rfc1928 ProxyHandler Streams Udpgw.

Module UdpgwServer.
Import Udpgw.

(** [Session]; its token is its generation. *)
Record Session := mkSession {
  dst : SocketAddr; req_addr : Address; generation : Z; sent : Z; last_act : Z }.

Record OutboundItem := mkItem { packet : Packet; item_generation : option Z }.

(** A relay task: its locals, whether it runs, and the item it waits to send. *)
Record Relay := mkRelay {
  r_conn : Z; r_dst : SocketAddr; r_mtu : nat; r_running : bool; r_pending : option OutboundItem }.

(** What the reading task is waiting for: the next frame, the send of a datagram
    on an existing session, a name resolution, the send of the first datagram of
    a session that is in the map but has no relay yet, or room in the channel. *)
Inductive ReaderTask :=
  | Idle
  | Forwarding (id gen : Z) (d : SocketAddr) (payload : list Z)
  | Resolving (id gen : Z) (addr : Address) (payload : list Z)
  | Opening (id gen : Z) (d : SocketAddr) (payload : list Z)
  | Sending (item : OutboundItem).

Record State := mkState {
  sessions : gmap Z Session;
  generations : gmap Z Z;
  next_generation : Z;              (* NEXT_GENERATION *)
  stopped : gset Z;                 (* cancelled tokens *)
  relays : gmap Z Relay;
  queue : list OutboundItem;        (* the channel to the writer *)
  to_client : list Packet;          (* frames written, oldest first *)
  udp_sent : list (Z * SocketAddr * list Z);  (* datagrams by generation *)
  client_activity : Z;
  reader : ReaderTask;
  connected : bool }.

Definition initial (next now : Z) : State := mkState ∅ ∅ next ∅ ∅ [] [] [] now Idle true.

Definition channel_capacity : nat := 1024.
Definition CLIENT_DISCONNECT_TIMEOUT : Z := 60000.

(** Field updates. *)
Definition set_sessions m s := mkState m (generations s) (next_generation s) (stopped s) (relays s)
  (queue s) (to_client s) (udp_sent s) (client_activity s) (reader s) (connected s).
Definition set_reader t s := mkState (sessions s) (generations s) (next_generation s) (stopped s)
  (relays s) (queue s) (to_client s) (udp_sent s) (client_activity s) t (connected s).
Definition set_relay g r s := mkState (sessions s) (generations s) (next_generation s) (stopped s)
  (<[g := r]> (relays s)) (queue s) (to_client s) (udp_sent s) (client_activity s) (reader s)
  (connected s).
Definition set_queue q s := mkState (sessions s) (generations s) (next_generation s) (stopped s)
  (relays s) q (to_client s) (udp_sent s) (client_activity s) (reader s) (connected s).
Definition set_activity now s := mkState (sessions s) (generations s) (next_generation s) (stopped s)
  (relays s) (queue s) (to_client s) (udp_sent s) now (reader s) (connected s).
Definition add_sent x s := mkState (sessions s) (generations s) (next_generation s) (stopped s)
  (relays s) (queue s) (to_client s) (udp_sent s ++ [x]) (client_activity s) (reader s) (connected s).
Definition add_written p s := mkState (sessions s) (generations s) (next_generation s) (stopped s)
  (relays s) (queue s) (to_client s ++ [p]) (udp_sent s) (client_activity s) (reader s) (connected s).

(** [CancellationToken::cancel] of the session of a connection, which is taken
    out of the map. *)
Definition take_session (id : Z) (s : State) : State :=
  match sessions s !! id with
  | None => s
  | Some old =>
      mkState (delete id (sessions s)) (generations s) (next_generation s)
        ({[generation old]} ∪ stopped s) (relays s) (queue s) (to_client s) (udp_sent s)
        (client_activity s) (reader s) (connected s)
  end.

(** [ClientSessions::replace_generation]; the counter wraps at 64 bits. *)
Definition replace_generation (id : Z) (s : State) : Z * State :=
  let g := next_generation s in
  (g, take_session id
        (mkState (sessions s) (<[id := g]> (generations s)) (wrap64 (g + 1)) (stopped s) (relays s)
           (queue s) (to_client s) (udp_sent s) (client_activity s) (reader s) (connected s))).

(** [ClientSessions::close_session]. *)
Definition close_session (id : Z) (s : State) : bool * State :=
  (bool_decide (is_Some (sessions s !! id)),
   take_session id
     (mkState (sessions s) (delete id (generations s)) (next_generation s) (stopped s) (relays s)
        (queue s) (to_client s) (udp_sent s) (client_activity s) (reader s) (connected s))).

(** [send_error_response] and [send_keepalive_response]: the task waits for
    room in the channel. *)
Definition send_error_response (id gen : Z) : State -> State :=
  set_reader (Sending (mkItem (build_error_packet id) (Some gen))).
Definition send_keepalive_response (id : Z) : State -> State :=
  set_reader (Sending (mkItem (build_keepalive_packet id) None)).

Section server.
Context `{Socks5}.

(** [process_udp] up to its first wait: the send on an existing session, or the
    resolution of a new one. *)
Definition process_udp (udp_mtu now : Z) (p : Packet) (s : State) : State :=
  let id := conn_id (header p) in
  match address p with
  | None => let '(g, s') := replace_generation id s in send_error_response id g s'
  | Some addr =>
      if udp_mtu <? len (data p) then
        let '(g, s') := replace_generation id s in send_error_response id g s'
      else
        let resolve :=
          let '(g, s') := replace_generation id s in set_reader (Resolving id g addr (data p)) s' in
        match sessions s !! id with
        | Some old =>
            if bool_decide (req_addr old = addr) then
              let old' := mkSession (dst old) (req_addr old) (generation old) (wrap64 (sent old + 1)) now in
              set_reader (Forwarding id (generation old) (dst old) (data p))
                (set_sessions (<[id := old']> (sessions s)) s)
            else resolve
        | None => resolve
        end
  end.

(** [process_client_udp_req], one frame. *)
Definition on_packet (udp_mtu now : Z) (p : Packet) (s : State) : State :=
  let s := set_activity now s in
  let f := flags (header p) in
  let id := conn_id (header p) in
  if f =? KEEPALIVE then send_keepalive_response id s
  else if f =? CLOSE then (close_session id s).2
  else if negb (f =? DATA) then
    let '(g, s') := replace_generation id s in send_error_response id g s'
  else process_udp udp_mtu now p s.

(** The end of the connection: the session map is drained. *)
Definition disconnect (s : State) : State :=
  mkState ∅ (generations s) (next_generation s)
    (list_to_set ((fun x => generation x.2) <$> map_to_list (sessions s)) ∪ stopped s)
    (relays s) [] (to_client s) (udp_sent s) (client_activity s) Idle false.

(** [effective_mtu]. *)
Definition effective_mtu (udp_mtu : Z) (d : SocketAddr) : nat :=
  Nat.min (Z.to_nat udp_mtu) (Z.to_nat u16_max - (static_len + address_len (SocketAddress d))).

(** [process_udp] once the name is resolved, up to the first datagram:
    [resolved] is the resolver's answer, [bind] the outcome of creating the
    socket.  The session is in the map before its datagram is sent, and the
    delivery lock is held from here until that is done. *)
Definition on_resolved (now : Z) (resolved : res IoError (list SocketAddr)) (bind : res IoError unit) (s : State) : State :=
  match reader s with
  | Resolving id g addr payload =>
      match resolved with
      | Ok (d :: _) =>
          match bind with
          | Ok _ => set_reader (Opening id g d payload) (set_sessions (<[id := mkSession d addr g 1 now]> (sessions s)) s)
          | _ => send_error_response id g s
          end
      | _ => send_error_response id g s
      end
  | _ => s
  end.

(** [process_udp] after the datagram: the relay of a new session is spawned, or
    the session is removed again; [send] is the outcome. *)
Definition on_sent (udp_mtu : Z) (send : res IoError unit) (s : State) : State :=
  match reader s with
  | Forwarding id g d payload =>
      match send with
      | Ok _ => set_reader Idle (add_sent (g, d, payload) s)
      | _ => send_error_response id g s
      end
  | Opening id g d payload =>
      match send with
      | Ok _ =>
          set_reader Idle
            (set_relay g (mkRelay id d (effective_mtu udp_mtu d) true None) (add_sent (g, d, payload) s))
      | _ =>
          let m := match sessions s !! id with
                   | Some x => if generation x =? g then delete id (sessions s) else sessions s
                   | None => sessions s
                   end in
          send_error_response id g (set_sessions m s)
      end
  | _ => s
  end.

(** The delivery lock is held by the reading task. *)
Definition locked (s : State) : bool := match reader s with Opening _ _ _ _ => true | _ => false end.

(** The reading task gets room in the channel. *)
Definition on_room (s : State) : State :=
  match reader s with
  | Sending item =>
      if (length (queue s) <? channel_capacity)%nat then set_reader Idle (set_queue (queue s ++ [item]) s)
      else s
  | _ => s
  end.

(** The end of a relay task: its own session is cancelled and removed. *)
Definition relay_exit (g : Z) (r : Relay) (s : State) : State :=
  let s1 := set_relay g (mkRelay (r_conn r) (r_dst r) (r_mtu r) false None) s in
  match sessions s1 !! r_conn r with
  | Some x => if generation x =? g then take_session (r_conn r) s1 else s1
  | None => s1
  end.

(** The idle test of a relay: the idle time of its session, if it is still the
    current one. *)
Definition idle_for (now g : Z) (r : Relay) (s : State) : option Z :=
  match sessions s !! r_conn r with
  | Some x => if generation x =? g then Some (Z.max 0 (now - last_act x)) else None
  | None => None
  end.

(** [idle_ms], saturating at 64 bits. *)
Definition idle_ms (udp_timeout : Z) : Z := Z.min u64_max (Z.max udp_timeout 1 * 1000).

(** What a relay task waits for: its stop token, a datagram, a socket error, the
    one-second timeout, or room in the channel. *)
Inductive RelayEvent :=
  | Stop
  | Datagram (source : SocketAddr) (payload : list Z)
  | RecvError
  | Timeout
  | Room.

(** Both activity clocks. *)
Definition touch (now g : Z) (r : Relay) (s : State) : State :=
  let m := match sessions s !! r_conn r with
           | Some x => if generation x =? g
                       then <[r_conn r := mkSession (dst x) (req_addr x) (generation x) (sent x) now]> (sessions s)
                       else sessions s
           | None => sessions s
           end in
  set_activity now (set_sessions m s).

(** The frame a relay sends for a datagram of its destination. *)
Definition reply_packet (r : Relay) (payload : list Z) : option Packet :=
  if (r_mtu r <? length payload)%nat then Some (build_error_packet (r_conn r))
  else match build_packet_from_address (r_conn r) (SocketAddress (r_dst r)) payload with
       | Ok p => Some p
       | _ => None
       end.

(** One step of the relay task of generation [g]. *)
Definition on_relay (udp_timeout now g : Z) (ev : RelayEvent) (s : State) : State :=
  match relays s !! g with
  | None => s
  | Some r =>
      if negb (r_running r) then s
      else
        match ev, r_pending r with
        | Stop, _ => if bool_decide (g ∈ stopped s) then relay_exit g r s else s
        | Datagram source payload, None =>
            if negb (bool_decide (source = r_dst r)) then
              match idle_for now g r s with
              | Some idle =>
                  if idle_ms udp_timeout <=? idle then
                    relay_exit g r (set_sessions (delete (r_conn r) (sessions s)) s)
                  else s
              | None => s
              end
            else if bool_decide (g ∈ stopped s) then relay_exit g r s
            else
              let s1 := touch now g r s in
              match reply_packet r payload with
              | Some p =>
                  set_relay g (mkRelay (r_conn r) (r_dst r) (r_mtu r) true (Some (mkItem p (Some g)))) s1
              | None => s1
              end
        | RecvError, None => relay_exit g r s
        | Timeout, None =>
            match idle_for now g r s with
            | Some idle =>
                if idle_ms udp_timeout <=? idle then relay_exit g r (take_session (r_conn r) s) else s
            | None => relay_exit g r s
            end
        | Room, Some item =>
            if bool_decide (g ∈ stopped s) then relay_exit g r s
            else if negb (connected s) then relay_exit g r s
            else if (length (queue s) <? channel_capacity)%nat then
              set_relay g (mkRelay (r_conn r) (r_dst r) (r_mtu r) true None)
                (set_queue (queue s ++ [item]) s)
            else s
        | _, _ => s
        end
  end.

(** [item.generation] is still the current one of its connection. *)
Definition is_current (item : OutboundItem) (s : State) : bool :=
  match item_generation item with
  | None => true
  | Some g => bool_decide (generations s !! conn_id (header (packet item)) = Some g)
  end.

(** [write_to_client], one item, under the delivery lock; [io] is the outcome
    of [write_all]. *)
Definition on_write (now : Z) (io : res IoError unit) (s : State) : State :=
  match queue s with
  | [] => s
  | item :: q =>
      let s1 := set_queue q s in
      if is_current item s then
        match io with
        | Ok _ => set_activity now (add_written (packet item) s1)
        | _ => disconnect s1
        end
      else s1
  end.

(** ** Steps of the connection *)

(** A frame from the client, as the decoder returns it. *)
Definition from_wire (p : Packet) : Prop :=
  is_u8 (flags (header p)) /\ is_u16 (conn_id (header p)).

Inductive step (udp_mtu udp_timeout : Z) (s : State) : State -> Prop :=
  | step_packet now p :
      connected s = true -> reader s = Idle -> from_wire p ->
      step udp_mtu udp_timeout s (on_packet udp_mtu now p s)
  | step_resolved now resolved bind :
      connected s = true ->
      (forall ds, resolved = Ok ds -> Forall sa_wf ds) ->
      step udp_mtu udp_timeout s (on_resolved now resolved bind s)
  | step_sent send : connected s = true -> step udp_mtu udp_timeout s (on_sent udp_mtu send s)
  | step_room : connected s = true -> step udp_mtu udp_timeout s (on_room s)
  | step_relay now g ev : step udp_mtu udp_timeout s (on_relay udp_timeout now g ev s)
  | step_write now io : connected s = true -> locked s = false -> step udp_mtu udp_timeout s (on_write now io s)
  | step_disconnect : step udp_mtu udp_timeout s (disconnect s).

End server.
End UdpgwServer.
