(* ===== verification/UdpgwServerProofs.v ===== *)
(** * UDP gateway server: invariants of one client connection

    The invariant ties the two maps, the cancellation tokens, the relay tasks
    and the channel together; it is preserved by every step of every task, and
    the properties of the server follow from it. *)

From S2P Require Import Prelude Net Socks5Impl Rfc1928 ProxyHandler Streams Udpgw UdpgwServer.

Module UdpgwServerProofs.
Import Udpgw UdpgwServer.

Section server.
Context `{Socks5Laws}.

(** ** The invariant *)

(** An item of the channel: a keepalive answer, or a frame of generation [g]
    that is an error report or a datagram of the destination of relay [g]. *)
Definition item_ok (rl : gmap Z Relay) (next : Z) (item : OutboundItem) : Prop :=
  packet_wf (packet item) /\
  match item_generation item with
  | None => exists id, packet item = build_keepalive_packet id
  | Some g => g < next /\
      ((exists id, packet item = build_error_packet id) \/
       exists r payload, rl !! g = Some r /\
         packet item = mkPacket (mkHeader DATA (r_conn r)) (Some (SocketAddress (r_dst r))) payload)
  end.

(** The session whose first datagram is being sent: it has no relay yet. *)
Definition opening (t : ReaderTask) (id : Z) (x : Session) : Prop :=
  exists payload, t = Opening id (generation x) (dst x) payload.

(** A session is current, its relay runs unless it is being opened, and nobody
    has stopped it. *)
Definition session_ok (gens : gmap Z Z) (st : gset Z) (rl : gmap Z Relay) (t : ReaderTask) (id : Z) (x : Session)
    : Prop :=
  gens !! id = Some (generation x) /\ (generation x ∉ st) /\
  (opening t id x \/
   exists r, rl !! generation x = Some r /\ r_running r = true /\ r_conn r = id /\ r_dst r = dst x).

(** A running relay owns its session or has been told to stop. *)
Definition relay_ok (ses : gmap Z Session) (next : Z) (st : gset Z) (rl : gmap Z Relay)
    (g : Z) (r : Relay) : Prop :=
  0 <= g < next /\ is_u16 (r_conn r) /\ sa_wf (r_dst r) /\
  (r_running r = true -> (exists x, ses !! r_conn r = Some x /\ generation x = g) \/ g ∈ st) /\
  (forall item, r_pending r = Some item -> item_ok rl next item).

(** A generation that has neither relay nor stop yet. *)
Definition fresh_generation (gens : gmap Z Z) (next : Z) (st : gset Z) (rl : gmap Z Relay) (id g : Z) : Prop :=
  is_u16 id /\ 0 <= g < next /\ gens !! id = Some g /\ rl !! g = None /\ (g ∉ st).

Definition reader_ok (ses : gmap Z Session) (gens : gmap Z Z) (next : Z) (st : gset Z) (rl : gmap Z Relay)
    (t : ReaderTask) : Prop :=
  match t with
  | Idle => True
  | Forwarding id g _ _ => is_u16 id /\ g < next
  | Resolving id g _ _ => fresh_generation gens next st rl id g /\ ses !! id = None
  | Opening id g d _ =>
      fresh_generation gens next st rl id g /\ sa_wf d /\ exists x, ses !! id = Some x /\ generation x = g /\ dst x = d
  | Sending item => item_ok rl next item
  end.

Record core (ses : gmap Z Session) (gens : gmap Z Z) (next : Z) (st : gset Z) (rl : gmap Z Relay)
    (q : list OutboundItem) (out : list Packet) (t : ReaderTask) : Prop := mkCore {
  c_next : 0 <= next;
  c_sessions : forall id x, ses !! id = Some x -> session_ok gens st rl t id x;
  c_relays : forall g r, rl !! g = Some r -> relay_ok ses next st rl g r;
  c_gens : forall id g, gens !! id = Some g -> g < next;
  c_stopped : forall g, g ∈ st -> g < next;
  c_queue : Forall (item_ok rl next) q;
  c_reader : reader_ok ses gens next st rl t;
  c_out : Forall packet_wf out }.

Definition inv (s : State) : Prop :=
  core (sessions s) (generations s) (next_generation s) (stopped s) (relays s) (queue s)
    (to_client s) (reader s).

(** ** Monotonicity *)

(** Later states know the same relays, with the same connection and
    destination. *)
Definition extends (rl rl' : gmap Z Relay) : Prop :=
  forall g r, rl !! g = Some r ->
  exists r', rl' !! g = Some r' /\ r_conn r' = r_conn r /\ r_dst r' = r_dst r.

Lemma extends_refl rl : extends rl rl.
Proof. intros g r Hr. by exists r. Qed.

Lemma extends_insert rl g r' :
  (forall r, rl !! g = Some r -> r_conn r' = r_conn r /\ r_dst r' = r_dst r) ->
  extends rl (<[g := r']> rl).
Proof.
  intros Hg g0 r Hr. destruct (decide (g0 = g)) as [->|Hne].
  - exists r'. rewrite lookup_insert_eq. split; [done|]. by apply Hg.
  - exists r. by rewrite lookup_insert_ne.
Qed.

Lemma item_ok_extends rl rl' next next' item :
  extends rl rl' -> next <= next' -> item_ok rl next item -> item_ok rl' next' item.
Proof.
  intros He Hn [Hwf Hi]. split; [done|]. destruct (item_generation item) as [g|]; [|done].
  destruct Hi as [Hg [Hi|(r & pl & Hr & Hp)]]; (split; [lia|]); [by left|right].
  destruct (He g r Hr) as (r' & Hr' & Hc & Hd). exists r', pl. by rewrite Hc, Hd.
Qed.

Lemma queue_extends rl rl' next next' q :
  extends rl rl' -> next <= next' -> Forall (item_ok rl next) q -> Forall (item_ok rl' next') q.
Proof. intros He Hn Hq. eapply Forall_impl; [exact Hq|]. intros item. by apply item_ok_extends. Qed.

Lemma error_item_ok rl next id g : is_u16 id -> g < next ->
  item_ok rl next (mkItem (build_error_packet id) (Some g)).
Proof.
  intros Hid Hg. split; [apply control_packet_wf; [done|by right; right; left]|].
  split; [done|]. left. by exists id.
Qed.

Lemma keepalive_item_ok rl next id : is_u16 id ->
  item_ok rl next (mkItem (build_keepalive_packet id) None).
Proof. intros Hid. split; [by apply control_packet_wf; [|left]|]. by exists id. Qed.

(** ** Steps of the reading task *)

(** The session of a connection is taken out and its token cancelled. *)
Lemma take_session_eq id s :
  take_session id s =
  mkState (delete id (sessions s)) (generations s) (next_generation s)
    (match sessions s !! id with Some old => {[generation old]} ∪ stopped s | None => stopped s end)
    (relays s) (queue s) (to_client s) (udp_sent s) (client_activity s) (reader s) (connected s).
Proof.
  unfold take_session. destruct (sessions s !! id) eqn:E; [done|].
  rewrite delete_id by done. by destruct s.
Qed.

Definition stop_session (ses : gmap Z Session) (id : Z) (st : gset Z) : gset Z :=
  match ses !! id with Some old => {[generation old]} ∪ st | None => st end.

(** Taking the session of [id] and giving [id] a new generation, or none. *)
Lemma core_retire ses gens gens' next next' st rl q out id :
  core ses gens next st rl q out Idle ->
  next <= next' ->
  (forall id', id' <> id -> gens' !! id' = gens !! id') ->
  (forall g, gens' !! id = Some g -> g < next') ->
  core (delete id ses) gens' next' (stop_session ses id st) rl q out Idle.
Proof.
  intros [Hn Hs Hr Hg Hst Hq Ht Ho] Hle Hne Hid.
  assert (forall g, g ∈ st -> g ∈ stop_session ses id st) as Hsub
    by (unfold stop_session; case_match; set_solver).
  split; try done.
  - lia.
  - intros id' x [Hne' Hx]%lookup_delete_Some. destruct (Hs _ _ Hx) as (Hgen & Hnst & [[? [=]]|(r & Hrl & Hrun & Hc & Hd)]).
    split_and!; [by rewrite Hne| |right; by exists r].
    unfold stop_session. destruct (ses !! id) as [old|] eqn:Eo; [|done].
    intros [Heq%elem_of_singleton|Hin]%elem_of_union; [|done].
    destruct (Hs _ _ Eo) as (_ & _ & [[? [=]]|(r' & Hrl' & _ & Hc' & _)]).
    rewrite <- Heq, Hrl in Hrl'. injection Hrl' as ->. congruence.
  - intros g r Hrl. destruct (Hr _ _ Hrl) as (Hb & Hu & Hw & Hrun & Hp).
    split; [lia|]. do 2 (split; [done|]). split.
    + intros Hrn. destruct (Hrun Hrn) as [(x & Hx & Hgx)|Hin]; [|right; by apply Hsub].
      destruct (decide (r_conn r = id)) as [Heq|Hne'].
      * right. unfold stop_session. rewrite <- Heq, Hx, Hgx. by apply elem_of_union_l, elem_of_singleton_2.
      * left. exists x. by rewrite lookup_delete_ne.
    + intros item Hi. eapply item_ok_extends; [apply extends_refl|exact Hle|by apply Hp].
  - intros id' g Hg'. destruct (decide (id' = id)) as [->|Hne']; [by apply Hid|].
    rewrite Hne in Hg' by done. apply Hg in Hg'. lia.
  - intros g. unfold stop_session. destruct (ses !! id) as [old|] eqn:Eo; [|intros Hin; by apply Z.lt_le_trans with next; [apply Hst|]].
    intros [->%elem_of_singleton|Hin]%elem_of_union; [|by apply Z.lt_le_trans with next; [apply Hst|]].
    destruct (Hs _ _ Eo) as (Hgo & _). apply Z.lt_le_trans with next; [by eapply Hg|done].
  - eapply queue_extends; [apply extends_refl|exact Hle|done].
Qed.

Lemma core_reader ses gens next st rl q out t t' :
  core ses gens next st rl q out t -> (forall id g d pl, t <> Opening id g d pl) -> reader_ok ses gens next st rl t' ->
  core ses gens next st rl q out t'.
Proof.
  intros [Hn Hs Hr Hg Hst Hq Ht Ho] Hno Ht'. split; try done. intros id x Hx.
  destruct (Hs _ _ Hx) as (H1 & H2 & [[pl Hpl]|H3]); [by apply Hno in Hpl|]. split_and!; [done|done|by right].
Qed.

Lemma inv_replace_generation id s g s' :
  inv s -> reader s = Idle -> next_generation s < u64_max -> replace_generation id s = (g, s') ->
  inv s' /\ reader s' = Idle /\ 0 <= g < next_generation s' /\ relays s' !! g = None /\ (g ∉ stopped s') /\
  generations s' !! id = Some g /\ sessions s' !! id = None.
Proof.
  intros Hi Hidle Hb [= <- <-]. rewrite take_session_eq. unfold inv in *. cbn.
  rewrite Hidle in *. assert (wrap64 (next_generation s + 1) = next_generation s + 1) as Hw.
  { apply Z.mod_small. destruct Hi. unfold u64_max in *. lia. }
  rewrite Hw. split_and!; try done.
  - apply (core_retire _ (generations s) _ (next_generation s)); [done|lia|..].
    + intros id' Hne. by rewrite lookup_insert_ne.
    + intros g. rewrite lookup_insert_eq. intros [= <-]. lia.
  - destruct Hi. lia.
  - lia.
  - destruct (relays s !! next_generation s) as [r|] eqn:E; [|done].
    destruct Hi as [_ _ Hr _ _ _ _ _]. destruct (Hr _ _ E) as [Hx _]. lia.
  - destruct Hi as [_ Hs _ Hg Hst _ _ _]. destruct (sessions s !! id) as [old|] eqn:Eo; [|intros Hin; apply Hst in Hin; lia].
    intros [Heq%elem_of_singleton|Hin%Hst]%elem_of_union; [|lia]. destruct (Hs _ _ Eo) as (Hgo%Hg & _). lia.
  - by rewrite lookup_insert_eq.
  - by rewrite lookup_delete_eq.
Qed.

(** A request that is refused: a new generation and an error report. *)
Lemma inv_reject id s :
  inv s -> reader s = Idle -> next_generation s < u64_max -> is_u16 id ->
  inv (let '(g, s') := replace_generation id s in send_error_response id g s').
Proof.
  intros Hi Hidle Hb Hid. destruct (replace_generation id s) as [g s'] eqn:E.
  destruct (inv_replace_generation _ _ _ _ Hi Hidle Hb E) as (Hi' & Hr' & Hg & _).
  eapply core_reader; [exact Hi'|by rewrite Hr'|]. apply error_item_ok; [done|apply Hg].
Qed.

Lemma inv_close_session id s :
  inv s -> reader s = Idle -> inv (close_session id s).2.
Proof.
  intros Hi Hidle. unfold close_session. rewrite take_session_eq. unfold inv in *. cbn.
  rewrite Hidle in *. apply (core_retire _ (generations s) _ (next_generation s)); [done|apply Z.le_refl|..].
  - intros id' Hne. by rewrite lookup_delete_ne.
  - intros g. by rewrite lookup_delete_eq.
Qed.

(** Replacing a session by one of the same generation and destination. *)
Lemma core_touch ses gens next st rl q out t id x x' :
  core ses gens next st rl q out t -> ses !! id = Some x ->
  generation x' = generation x -> dst x' = dst x ->
  core (<[id := x']> ses) gens next st rl q out t.
Proof.
  intros [Hn Hs Hr Hg Hst Hq Ht Ho] Hx Hgen Hd. split; try done.
  - intros id' y. destruct (decide (id' = id)) as [->|Hne].
    + rewrite lookup_insert_eq. intros [= <-]. unfold session_ok, opening. rewrite Hgen, Hd. by apply Hs.
    + rewrite lookup_insert_ne by done. by apply Hs.
  - intros g r Hrl. destruct (Hr _ _ Hrl) as (Hb & Hu & Hw & Hrun & Hp).
    split; [done|]. do 2 (split; [done|]). split; [|done].
    intros Hrn. destruct (Hrun Hrn) as [(y & Hy & Hgy)|Hin]; [left|by right].
    destruct (decide (r_conn r = id)) as [Heq|Hne].
    + exists x'. rewrite Heq, lookup_insert_eq. split; [done|]. rewrite Heq in Hy. congruence.
    + exists y. by rewrite lookup_insert_ne.
  - destruct t as [| |id' g a pl|id' g d pl|item]; try done.
    + destruct Ht as [Hf Hss]. split; [done|]. rewrite lookup_insert_ne; [done|]. intros ->. congruence.
    + destruct Ht as (Hf & Hw & y & Hy & Hgy & Hdy). split_and!; [done|done|].
      destruct (decide (id = id')) as [<-|Hne]; [|exists y; by rewrite lookup_insert_ne].
      exists x'. rewrite lookup_insert_eq. rewrite Hx in Hy. injection Hy as ->. split_and!; [done|congruence|congruence].
Qed.

Lemma inv_process_udp mtu now p s :
  inv s -> reader s = Idle -> next_generation s < u64_max -> is_u16 (conn_id (header p)) ->
  inv (process_udp mtu now p s).
Proof.
  intros Hi Hidle Hb Hid. unfold process_udp.
  pose proof (inv_reject (conn_id (header p)) s Hi Hidle Hb Hid) as Hrej.
  destruct (address p) as [addr|]; [|exact Hrej]. split_if E1; [exact Hrej|].
  assert (inv (let '(g, s') := replace_generation (conn_id (header p)) s in
    set_reader (Resolving (conn_id (header p)) g addr (data p)) s')) as Hres.
  { destruct (replace_generation (conn_id (header p)) s) as [g s'] eqn:E.
    destruct (inv_replace_generation _ _ _ _ Hi Hidle Hb E) as (Hi' & Hr' & Hg & Hrl & Hst & Hgg & Hss).
    eapply core_reader; [exact Hi'|by rewrite Hr'|]. by split. }
  destruct (sessions s !! conn_id (header p)) as [old|] eqn:Eo; [|exact Hres].
  split_if E2; [|exact Hres].
  assert (generation old < next_generation s) as Hlt.
  { destruct Hi as [_ Hs _ Hg _ _ _ _]. destruct (Hs _ _ Eo) as (Hgo & _). by eapply Hg. }
  assert (inv (set_sessions (<[conn_id (header p) := mkSession (dst old) (req_addr old)
    (generation old) (wrap64 (sent old + 1)) now]> (sessions s)) s)) as Ht
    by (by eapply core_touch).
  eapply core_reader; [exact Ht|cbn; by rewrite Hidle|done].
Qed.

Lemma inv_on_packet mtu now p s :
  inv s -> reader s = Idle -> next_generation s < u64_max -> from_wire p ->
  inv (on_packet mtu now p s).
Proof.
  intros Hi Hidle Hb [_ Hid]. unfold on_packet. set (s1 := set_activity now s).
  assert (inv s1) as Hi1 by done. assert (reader s1 = Idle) as Hidle1 by done.
  assert (next_generation s1 < u64_max) as Hb1 by done. clearbody s1.
  split_if E1; [eapply core_reader; [exact Hi1|by rewrite Hidle1|by apply keepalive_item_ok]|].
  split_if E2; [by apply inv_close_session|].
  split_if E3; [by apply inv_reject|by apply inv_process_udp].
Qed.

(** A new session, without its relay. *)
Lemma core_open ses gens next st rl q out id g addr pl d now :
  core ses gens next st rl q out (Resolving id g addr pl) -> sa_wf d ->
  core (<[id := mkSession d addr g 1 now]> ses) gens next st rl q out (Opening id g d pl).
Proof.
  intros [Hn Hs Hr Hg Hst Hq (Hf & Hss) Ho] Hd. pose proof Hf as (Hu & Hb & Hgg & Hrr & Hgs).
  split; try done.
  - intros id' x. destruct (decide (id' = id)) as [->|Hid].
    + rewrite lookup_insert_eq. intros [= <-]. split_and!; [done|done|]. left. by exists pl.
    + rewrite lookup_insert_ne by done. intros Hx.
      destruct (Hs _ _ Hx) as (Hgx & Hnx & [[? [=]]|Hr']). split_and!; [done|done|by right].
  - intros g' r' Hr'. destruct (Hr _ _ Hr') as (Hb' & Hu' & Hw & Hrun & Hp).
    split; [done|]. do 2 (split; [done|]). split; [|done].
    intros Hrn. destruct (Hrun Hrn) as [(x & Hx & Hgx)|Hin]; [left|by right].
    exists x. rewrite lookup_insert_ne; [done|]. intros ->. congruence.
  - split_and!; [done|done|]. eexists. by rewrite lookup_insert_eq.
Qed.

(** Its relay is spawned. *)
Lemma core_spawn ses gens next st rl q out id g d pl m :
  core ses gens next st rl q out (Opening id g d pl) ->
  core ses gens next st (<[g := mkRelay id d m true None]> rl) q out Idle.
Proof.
  intros [Hn Hs Hr Hg Hst Hq (Hf & Hd & y & Hy & Hgy & Hdy) Ho]. destruct Hf as (Hu & Hb & Hgg & Hrr & Hgs).
  assert (extends rl (<[g := mkRelay id d m true None]> rl)) as He
    by (apply extends_insert; intros r; by rewrite Hrr).
  assert (forall g' r', rl !! g' = Some r' -> g' <> g) as Hne by (intros g' r' Hr' ->; congruence).
  split; try done.
  - intros id' x Hx. destruct (Hs _ _ Hx) as (Hgx & Hnx & [[? [= -> -> ->]]|(r & Hrx & Hrest)]); split_and!; try done; right.
    + eexists. by rewrite lookup_insert_eq.
    + exists r. rewrite lookup_insert_ne by (symmetry; by eapply Hne). done.
  - intros g' r'. destruct (decide (g' = g)) as [->|Hg'].
    + rewrite lookup_insert_eq. intros [= <-]. split; [done|]. do 2 (split; [done|]). split; [|done].
      left. by exists y.
    + rewrite lookup_insert_ne by done. intros Hr'. destruct (Hr _ _ Hr') as (Hb' & Hu' & Hw & Hrun & Hp).
      split; [done|]. do 2 (split; [done|]). split; [done|].
      intros item Hi. eapply item_ok_extends; [exact He|apply Z.le_refl|by apply Hp].
  - by eapply queue_extends; [exact He|apply Z.le_refl|].
Qed.

(** The session is removed again when its datagram could not be sent. *)
Lemma core_unopen ses gens next st rl q out id g d pl :
  core ses gens next st rl q out (Opening id g d pl) ->
  core (delete id ses) gens next st rl q out Idle.
Proof.
  intros [Hn Hs Hr Hg Hst Hq (Hf & Hd & y & Hy & Hgy & Hdy) Ho]. destruct Hf as (Hu & Hb & Hgg & Hrr & Hgs).
  split; try done.
  - intros id' x [Hne Hx]%lookup_delete_Some. destruct (Hs _ _ Hx) as (Hgx & Hnx & [[? [= ? _ _]]|Hr']); [done|].
    split_and!; [done|done|by right].
  - intros g' r' Hr'. destruct (Hr _ _ Hr') as (Hb' & Hu' & Hw & Hrun & Hp).
    split; [done|]. do 2 (split; [done|]). split; [|done].
    intros Hrn. destruct (Hrun Hrn) as [(x & Hx & Hgx)|Hin]; [left|by right].
    exists x. rewrite lookup_delete_ne; [done|]. intros ->. congruence.
Qed.

Lemma inv_on_resolved now resolved bind s :
  inv s -> (forall ds, resolved = Ok ds -> Forall sa_wf ds) -> inv (on_resolved now resolved bind s).
Proof.
  intros Hi Hres. unfold on_resolved. destruct (reader s) as [| |id g addr pl| |] eqn:Er; try done.
  unfold inv in Hi. rewrite Er in Hi.
  assert (inv (send_error_response id g s)) as Hrej.
  { eapply core_reader; [exact Hi|done|]. destruct Hi as [_ _ _ _ _ _ ((? & ? & _) & _) _]. apply error_item_ok; [done|cbn; lia]. }
  destruct resolved as [[|d ds]|?|]; try done. specialize (Hres _ eq_refl). inversion Hres; subst.
  destruct bind as [?|?|]; try done. by apply (core_open _ _ _ _ _ _ _ _ _ addr).
Qed.

Lemma inv_on_sent mtu send s : inv s -> inv (on_sent mtu send s).
Proof.
  intros Hi. unfold on_sent. destruct (reader s) as [|id g d pl| |id g d pl|] eqn:Er; try done; unfold inv in Hi; rewrite Er in Hi.
  - destruct Hi as [? ? ? ? ? ? [Hu Hg] ?] eqn:E. clear E.
    destruct send; (eapply core_reader; [exact Hi|done|]); [done|by apply error_item_ok|by apply error_item_ok].
  - pose proof Hi as [_ _ _ _ _ _ ((Hu & Hb & _) & _ & y & Hy & Hgy & _) _].
    destruct send; [by eapply core_spawn| |]; rewrite Hy, Hgy, Z.eqb_refl;
      (eapply core_reader; [by eapply core_unopen|done|]; apply error_item_ok; [done|cbn; lia]).
Qed.

Lemma inv_on_room s : inv s -> inv (on_room s).
Proof.
  intros Hi. unfold on_room. destruct (reader s) as [| | | |item] eqn:Er; try done. split_if E; [|done].
  unfold inv in *. rewrite Er in Hi. pose proof Hi as [_ _ _ _ _ Hq Ht _].
  assert (core (sessions s) (generations s) (next_generation s) (stopped s) (relays s) (queue s ++ [item]) (to_client s) Idle) as Hc; [|exact Hc].
  apply (core_reader _ _ _ _ _ _ _ (Sending item)); [|done|done]. destruct Hi. split; try done.
  apply Forall_app; split; [done|]. by constructor.
Qed.

(** ** Steps of a relay task *)

(** A session that carries generation [g] belongs to the connection of relay
    [g]. *)
Lemma core_owner ses gens next st rl q out t g r id x :
  core ses gens next st rl q out t -> rl !! g = Some r -> ses !! id = Some x -> generation x = g ->
  id = r_conn r.
Proof.
  intros [_ Hs _ _ _ _ Ht _] Hr Hx Hg. destruct (Hs _ _ Hx) as (_ & _ & [[pl Hpl]|(r' & Hr' & _ & Hc & _)]).
  - subst t. destruct Ht as ((_ & _ & _ & Hno & _) & _). congruence.
  - rewrite Hg, Hr in Hr'. injection Hr' as <-. done.
Qed.

Lemma core_exit ses ses' gens next st st' rl q out t g r :
  core ses gens next st rl q out t -> rl !! g = Some r ->
  (forall id x, ses' !! id = Some x -> ses !! id = Some x /\ generation x <> g) ->
  (forall id x, ses !! id = Some x -> generation x <> g -> ses' !! id = Some x) ->
  (forall g', g' ∈ st -> g' ∈ st') -> (forall g', g' ∈ st' -> g' = g \/ g' ∈ st) ->
  core ses' gens next st' (<[g := mkRelay (r_conn r) (r_dst r) (r_mtu r) false None]> rl) q out t.
Proof.
  intros [Hn Hs Hr Hg Hst Hq Ht Ho] Hrl Hsub Hsup Hst1 Hst2.
  set (r' := mkRelay _ _ _ _ _).
  assert (extends rl (<[g := r']> rl)) as He
    by (apply extends_insert; intros r0; rewrite Hrl; by intros [= <-]).
  split; try done.
  - intros id x Hx. destruct (Hsub _ _ Hx) as [Hx' Hne].
    destruct (Hs _ _ Hx') as (Hgx & Hnx & Hrest). split_and!; [done|by intros [Heq|Hin]%Hst2|].
    destruct Hrest as [?|(r0 & Hr0 & Hrest)]; [by left|right]. exists r0. by rewrite lookup_insert_ne.
  - intros g' r0. destruct (decide (g' = g)) as [->|Hne].
    + rewrite lookup_insert_eq. intros [= <-]. destruct (Hr _ _ Hrl) as (Hb & Hu & Hw & _ & _).
      split; [done|]. do 2 (split; [done|]). done.
    + rewrite lookup_insert_ne by done. intros Hr0. destruct (Hr _ _ Hr0) as (Hb & Hu & Hw & Hrun & Hp).
      split; [done|]. do 2 (split; [done|]). split.
      * intros Hrn. destruct (Hrun Hrn) as [(x & Hx & Hgx)|Hin]; [left|right; by apply Hst1].
        exists x. split; [|done]. apply Hsup; [done|]. congruence.
      * intros item Hi. eapply item_ok_extends; [exact He|apply Z.le_refl|by apply Hp].
  - intros g' [->|Hin]%Hst2; [by destruct (Hr _ _ Hrl) as [[_ ?] _]|by apply Hst].
  - by eapply queue_extends; [exact He|apply Z.le_refl|].
  - assert (forall id g', fresh_generation gens next st rl id g' -> fresh_generation gens next st' (<[g := r']> rl) id g') as Hfresh.
    { intros id g' (Hu & Hb & Hgg & Hrr & Hgs). assert (g <> g') by (intros ->; congruence).
      split_and!; try done; [lia|lia|by rewrite lookup_insert_ne|]. by intros [->|Hin]%Hst2. }
    destruct t as [| |id g' a pl|id g' d pl|item]; try done.
    + destruct Ht as [Hf Hss]. split; [by apply Hfresh|].
      destruct (ses' !! id) as [x|] eqn:Ex; [|done]. destruct (Hsub _ _ Ex). congruence.
    + destruct Ht as (Hf & Hw & y & Hy & Hgy & Hdy). split_and!; [by apply Hfresh|done|]. exists y. split; [|done].
      apply Hsup; [done|]. destruct Hf as (_ & _ & _ & Hrr & _). intros Heq. congruence.
    + cbn. by eapply item_ok_extends; [exact He|apply Z.le_refl|].
Qed.

(** A relay task ends in a state that differs from an invariant one at most in
    its own session and its own token. *)
Lemma inv_relay_exit s g r ses1 st1 :
  inv s -> relays s !! g = Some r ->
  (forall id x, ses1 !! id = Some x -> sessions s !! id = Some x) ->
  (forall id x, sessions s !! id = Some x -> generation x <> g -> ses1 !! id = Some x) ->
  (forall g', g' ∈ stopped s -> g' ∈ st1) -> (forall g', g' ∈ st1 -> g' = g \/ g' ∈ stopped s) ->
  inv (relay_exit g r (mkState ses1 (generations s) (next_generation s) st1 (relays s) (queue s)
    (to_client s) (udp_sent s) (client_activity s) (reader s) (connected s))).
Proof.
  intros Hi Hr Hsub Hsup Hst1 Hst2. unfold relay_exit. cbn [sessions set_relay].
  assert (forall id x, ses1 !! id = Some x -> generation x = g -> id = r_conn r) as Hown
    by (intros id x Hx; eapply core_owner; [exact Hi|done|by apply Hsub]).
  assert (forall ses2 st2,
    (forall id x, ses2 !! id = Some x -> ses1 !! id = Some x /\ generation x <> g) ->
    (forall id x, ses1 !! id = Some x -> generation x <> g -> ses2 !! id = Some x) ->
    (forall g', g' ∈ st1 -> g' ∈ st2) -> (forall g', g' ∈ st2 -> g' = g \/ g' ∈ st1) ->
    core ses2 (generations s) (next_generation s) st2
      (<[g := mkRelay (r_conn r) (r_dst r) (r_mtu r) false None]> (relays s)) (queue s) (to_client s)
      (reader s)) as Hcore.
  { intros ses2 st2 H2 H3 H4 H5. eapply core_exit; [exact Hi|done|..].
    - intros id x Hx. destruct (H2 _ _ Hx). split; [by apply Hsub|done].
    - intros id x Hx Hne. apply H3; [|done]. by apply Hsup.
    - intros g' Hin. by apply H4, Hst1.
    - intros g' [->|Hin]%H5; [by left|by apply Hst2]. }
  destruct (ses1 !! r_conn r) as [x|] eqn:Ex.
  - destruct (generation x =? g) eqn:Eg; b2p.
    + rewrite take_session_eq. unfold inv. cbn. rewrite Ex. apply Hcore.
      * intros id y [Hne Hy]%lookup_delete_Some. split; [done|]. intros Hgy.
        apply Hne. symmetry. by eapply Hown.
      * intros id y Hy Hgy. rewrite lookup_delete_ne; [done|]. intros Hid. rewrite Hid in Ex. congruence.
      * intros g' Hin. by apply elem_of_union_r.
      * intros g' [->%elem_of_singleton|Hin]%elem_of_union; [by left|by right].
    + unfold inv; cbn. apply Hcore; [|done|done|by right]. intros id y Hy. split; [done|]. intros Hgy.
      rewrite (Hown _ _ Hy Hgy), Ex in Hy. injection Hy as <-. done.
  - unfold inv; cbn. apply Hcore; [|done|done|by right]. intros id y Hy. split; [done|]. intros Hgy.
    rewrite (Hown _ _ Hy Hgy), Ex in Hy. done.
Qed.

(** The three ways a relay ends. *)
Lemma inv_exit_plain s g r : inv s -> relays s !! g = Some r -> inv (relay_exit g r s).
Proof.
  intros Hi Hr. replace s with (mkState (sessions s) (generations s) (next_generation s) (stopped s)
    (relays s) (queue s) (to_client s) (udp_sent s) (client_activity s) (reader s) (connected s))
    by (by destruct s).
  apply inv_relay_exit; try done. by right.
Qed.

Lemma idle_for_own now g r s idle :
  idle_for now g r s = Some idle -> exists x, sessions s !! r_conn r = Some x /\ generation x = g.
Proof.
  unfold idle_for. destruct (sessions s !! r_conn r) as [x|]; [|done]. split_if E; [|done]. b2p.
  intros _. by exists x.
Qed.

Lemma inv_exit_removed now s g r idle :
  inv s -> relays s !! g = Some r -> idle_for now g r s = Some idle ->
  inv (relay_exit g r (set_sessions (delete (r_conn r) (sessions s)) s)).
Proof.
  intros Hi Hr (x & Hx & Hg)%idle_for_own. apply inv_relay_exit; try done; [| |by right].
  - by intros id y [_ Hy]%lookup_delete_Some.
  - intros id y Hy Hne. rewrite lookup_delete_ne; [done|]. intros Hid. rewrite Hid in Hx. congruence.
Qed.

Lemma inv_exit_expired now s g r idle :
  inv s -> relays s !! g = Some r -> idle_for now g r s = Some idle ->
  inv (relay_exit g r (take_session (r_conn r) s)).
Proof.
  intros Hi Hr (x & Hx & Hg)%idle_for_own. rewrite take_session_eq, Hx.
  apply inv_relay_exit; try done.
  - by intros id y [_ Hy]%lookup_delete_Some.
  - intros id y Hy Hne. rewrite lookup_delete_ne; [done|]. intros Hid. rewrite Hid in Hx. congruence.
  - intros g' Hin. by apply elem_of_union_r.
  - intros g' [->%elem_of_singleton|Hin]%elem_of_union; [by left|by right].
Qed.

Lemma core_relay ses gens next st rl q q' out t g r r' :
  core ses gens next st rl q out t -> rl !! g = Some r ->
  r_conn r' = r_conn r -> r_dst r' = r_dst r -> r_running r' = r_running r ->
  (forall item, r_pending r' = Some item -> item_ok rl next item) ->
  Forall (item_ok rl next) q' ->
  core ses gens next st (<[g := r']> rl) q' out t.
Proof.
  intros [Hn Hs Hr Hg Hst Hq Ht Ho] Hrl Hc Hd Hrun Hp Hq'.
  assert (extends rl (<[g := r']> rl)) as He
    by (apply extends_insert; intros r0; rewrite Hrl; by intros [= <-]).
  split; try done.
  - intros id x Hx. destruct (Hs _ _ Hx) as (Hgx & Hnx & Hrest). split_and!; [done|done|].
    destruct Hrest as [?|(r0 & Hr0 & Hrest)]; [by left|right]. destruct (decide (generation x = g)) as [Heq|Hne].
    + exists r'. rewrite Heq, lookup_insert_eq. rewrite Heq, Hrl in Hr0. injection Hr0 as <-.
      rewrite Hc, Hd, Hrun. done.
    + exists r0. by rewrite lookup_insert_ne.
  - intros g' r0. destruct (decide (g' = g)) as [->|Hne].
    + rewrite lookup_insert_eq. intros [= <-]. unfold relay_ok. rewrite Hc, Hd, Hrun.
      destruct (Hr _ _ Hrl) as (Hb & Hu & Hw & Hrn & _).
      split; [done|]. do 2 (split; [done|]). split; [done|].
      intros item Hi. eapply item_ok_extends; [exact He|apply Z.le_refl|by apply Hp].
    + rewrite lookup_insert_ne by done. intros Hr0. destruct (Hr _ _ Hr0) as (Hb & Hu & Hw & Hrn & Hp0).
      split; [done|]. do 2 (split; [done|]). split; [done|].
      intros item Hi. eapply item_ok_extends; [exact He|apply Z.le_refl|by apply Hp0].
  - by eapply queue_extends; [exact He|apply Z.le_refl|].
  - assert (forall id g', fresh_generation gens next st rl id g' -> fresh_generation gens next st (<[g := r']> rl) id g') as Hfresh.
    { intros id g' (Hu & Hb & Hgg & Hrr & Hgs). split_and!; try done; [lia|lia|].
      rewrite lookup_insert_ne; [done|]. intros ->. congruence. }
    destruct t as [| |id g' a pl|id g' d pl|item]; try done.
    + destruct Ht as [Hf Hss]. split; [by apply Hfresh|done].
    + destruct Ht as (Hf & Hw & Hy). split_and!; [by apply Hfresh|done|done].
    + cbn. by eapply item_ok_extends; [exact He|apply Z.le_refl|].
Qed.

(** The datagram of a destination always fits its frame, so a relay always has
    an answer for it: the datagram itself, or an error report when it exceeds
    the MTU. *)
Lemma reply_packet_ok g r payload next rl p :
  rl !! g = Some r -> g < next -> is_u16 (r_conn r) -> sa_wf (r_dst r) ->
  reply_packet r payload = Some p -> item_ok rl next (mkItem p (Some g)).
Proof.
  intros Hr Hg Hu Hw. unfold reply_packet. split_if E.
  - intros [= <-]. by apply error_item_ok.
  - destruct (build_packet_from_address _ _ _) as [p'|?|] eqn:Ep; try done. intros [= <-].
    destruct (build_packet_wf _ (SocketAddress (r_dst r)) _ _ Hu Hw Ep) as [Hwf Heq]. split; [done|]. split; [done|].
    right. by exists r, payload.
Qed.

Lemma inv_touch now g r s : inv s -> inv (touch now g r s).
Proof.
  intros Hi. unfold touch. destruct (sessions s !! r_conn r) as [x|] eqn:Ex; [|done].
  split_if E; [|done]. by eapply core_touch.
Qed.

Lemma inv_on_relay timeout now g ev s : inv s -> inv (on_relay timeout now g ev s).
Proof.
  intros Hi. unfold on_relay. destruct (relays s !! g) as [r|] eqn:Er; [|done].
  split_if E; [done|]. destruct ev as [|source payload| | |].
  - split_if E1; [by apply inv_exit_plain|done].
  - destruct (r_pending r) as [item|] eqn:Ep; [done|]. split_if E1.
    + destruct (idle_for now g r s) as [idle|] eqn:Ei; [|done].
      destruct (_ <=? _) eqn:E2; [by eapply inv_exit_removed|done].
    + split_if E2; [by apply inv_exit_plain|].
      pose proof (inv_touch now g r s Hi) as Ht.
      destruct (reply_packet r payload) as [p|] eqn:Erp; [|done].
      destruct Hi as [_ _ Hr _ _ Hq _ _]. destruct (Hr _ _ Er) as (Hb & Hu & Hw & _ & _).
      eapply core_relay; [exact Ht|exact Er|done|done|by b2p| |exact Hq].
      intros item [= <-]. eapply reply_packet_ok; [exact Er|apply Hb|exact Hu|exact Hw|exact Erp].
  - destruct (r_pending r); [done|by apply inv_exit_plain].
  - destruct (r_pending r); [done|]. destruct (idle_for now g r s) as [idle|] eqn:Ei.
    + destruct (_ <=? _) eqn:E1; [by eapply inv_exit_expired|done].
    + by apply inv_exit_plain.
  - destruct (r_pending r) as [item|] eqn:Ep; [|done]. split_if E1; [by apply inv_exit_plain|].
    split_if E2; [by apply inv_exit_plain|]. split_if E3; [|done].
    eapply core_relay; [exact Hi|exact Er|done|done|by b2p|done|].
    destruct Hi as [_ _ Hr _ _ Hq _ _]. destruct (Hr _ _ Er) as (_ & _ & _ & _ & Hp).
    apply Forall_app; split; [done|]. constructor; [by apply Hp|done].
Qed.

(** ** The writing task and the end of the connection *)

Lemma inv_disconnect s : inv s -> inv (disconnect s).
Proof.
  intros [Hn Hs Hr Hg Hst Hq Ht Ho].
  set (gone := (list_to_set ((fun x => generation x.2) <$> map_to_list (sessions s)) : gset Z)).
  assert (forall g, g ∈ gone <-> exists id x, sessions s !! id = Some x /\ generation x = g) as Hgone.
  { intros g. unfold gone. rewrite elem_of_list_to_set, list_elem_of_fmap. split.
    - intros ([id x] & -> & Hin%elem_of_map_to_list). by exists id, x.
    - intros (id & x & Hx & <-). exists (id, x). split; [done|]. by apply elem_of_map_to_list. }
  split; cbn; try done.
  - intros g r Hrl. destruct (Hr _ _ Hrl) as (Hb & Hu & Hw & Hrun & Hp).
    split; [done|]. do 2 (split; [done|]). split; [|done]. intros Hrn. right.
    destruct (Hrun Hrn) as [(x & Hx & Hgx)|Hin]; [apply elem_of_union_l, Hgone; by exists (r_conn r), x|].
    by apply elem_of_union_r.
  - intros g [(id & x & Hx & <-)%Hgone|Hin]%elem_of_union; [|by apply Hst].
    destruct (Hs _ _ Hx) as (Hgx & _). by eapply Hg.
Qed.

Lemma inv_set_queue q s : inv s -> Forall (item_ok (relays s) (next_generation s)) q -> inv (set_queue q s).
Proof. by intros [] ?. Qed.

Lemma inv_on_write now io s : inv s -> inv (on_write now io s).
Proof.
  intros Hi. unfold on_write. destruct (queue s) as [|item q] eqn:Eq; [done|].
  pose proof Hi as [_ _ _ _ _ Hq _ Ho]. rewrite Eq in Hq. inversion Hq as [|? ? [Hwf _] Hq']; subst.
  pose proof (inv_set_queue q s Hi Hq') as Hi1. split_if E; [|done].
  destruct io; try (by apply inv_disconnect). destruct Hi1. split; try done. cbn.
  apply Forall_app; split; [done|]. by constructor.
Qed.

(** ** Reachable states *)

Lemma take_session_next id s : next_generation (take_session id s) = next_generation s.
Proof. by rewrite take_session_eq. Qed.

Lemma relay_exit_next g r s : next_generation (relay_exit g r s) = next_generation s.
Proof. unfold relay_exit. cbn. crush_cases; by rewrite ?take_session_next. Qed.

Lemma replace_generation_next id s g s' :
  0 <= next_generation s < u64_max -> replace_generation id s = (g, s') ->
  next_generation s' = next_generation s + 1.
Proof.
  intros Hb [= <- <-]. rewrite take_session_next. cbn. unfold wrap64, u64_max in *.
  apply Z.mod_small. lia.
Qed.

Lemma step_next mtu timeout s s' :
  0 <= next_generation s < u64_max -> step mtu timeout s s' ->
  next_generation s <= next_generation s' <= next_generation s + 1.
Proof.
  intros Hb Hstep.
  assert (forall s1 s2, next_generation s1 = next_generation s -> next_generation s2 = next_generation s1 \/
    next_generation s2 = next_generation s1 + 1 ->
    next_generation s <= next_generation s2 <= next_generation s + 1) as Hone by (intros; lia).
  destruct Hstep as [now p _ _ _|now resolved bind _ _|send _|_|now g ev|now io _ _|].
  - apply (Hone (set_activity now s)); [done|]. unfold on_packet.
    assert (0 <= next_generation (set_activity now s) < u64_max) as Hb1 by done.
    generalize dependent (set_activity now s). intros s1 Hb1. clear Hone.
    split_if E1; [by left|]. split_if E2; [left; cbn [snd close_session]; by rewrite take_session_next|].
    unfold process_udp. destruct (replace_generation (conn_id (header p)) s1) as [g s2] eqn:E.
    apply replace_generation_next in E; [|done].
    split_if E3; [by right|]. destruct (address p); [|by right]. split_if E4; [by right|].
    destruct (sessions s1 !! _); [|by right]. split_if E5; [|by right]. by left.
  - apply (Hone s); [done|]. left. unfold on_resolved. crush_cases; done.
  - apply (Hone s); [done|]. left. unfold on_sent. crush_cases; done.
  - apply (Hone s); [done|]. left. unfold on_room. crush_cases; done.
  - apply (Hone s); [done|]. left. unfold on_relay, touch.
    crush_cases; rewrite ?relay_exit_next, ?take_session_next; done.
  - apply (Hone s); [done|]. left. unfold on_write. crush_cases; done.
  - cbn. lia.
Qed.

Lemma inv_initial next now : 0 <= next -> inv (initial next now).
Proof.
  intros Hn. split; cbn; try done; intros ?; try (intros ?; by rewrite lookup_empty).
Qed.

Lemma step_inv mtu timeout s s' :
  next_generation s < u64_max -> inv s -> step mtu timeout s s' -> inv s'.
Proof.
  intros Hb Hi [now p _ Hidle Hw|now resolved bind _ Hres|send _|_|now g ev|now io _ _|].
  - by apply inv_on_packet.
  - by apply inv_on_resolved.
  - by apply inv_on_sent.
  - by apply inv_on_room.
  - by apply inv_on_relay.
  - by apply inv_on_write.
  - by apply inv_disconnect.
Qed.

Lemma reachable_inv mtu timeout n s s' :
  inv s -> next_generation s + Z.of_nat n <= u64_max ->
  nsteps (step mtu timeout) n s s' -> inv s'.
Proof.
  intros Hi Hb Hs. revert Hi Hb. induction Hs as [|n s1 s2 s3 Hstep Hs IH]; intros Hi Hb; [done|].
  pose proof (c_next _ _ _ _ _ _ _ _ Hi) as Hn.
  destruct (step_next mtu timeout s1 s2) as [Hle Hge]; [lia|done|].
  apply IH; [eapply step_inv; [|done|done]; lia|lia].
Qed.

(** ** The properties *)

(** C1. No stale delivery.  Whatever the tasks did before, in whatever order, a
    frame is written to the client only if it is a keepalive answer or belongs
    to the generation that is current for its connection identifier; a data
    frame carries the destination of that generation's relay (the one of the
    live session, if there is one), never that of an earlier request, and none
    is written while the identifier's new destination is being resolved. *)
Theorem udpgw_server_no_stale_reply mtu timeout n next now now' io s item q :
  0 <= next -> next + Z.of_nat n <= u64_max ->
  nsteps (step mtu timeout) n (initial next now) s ->
  queue s = item :: q ->
  let id := conn_id (header (packet item)) in
  to_client (on_write now' io s) = to_client s \/
  to_client (on_write now' io s) = to_client s ++ [packet item] /\
  (packet item = build_keepalive_packet id \/
   exists g, generations s !! id = Some g /\ item_generation item = Some g /\
     (packet item = build_error_packet id \/
      exists r payload, relays s !! g = Some r /\ r_conn r = id /\
        packet item = mkPacket (mkHeader DATA id) (Some (SocketAddress (r_dst r))) payload /\
        (forall x, sessions s !! id = Some x -> generation x = g /\ dst x = r_dst r) /\
        (forall g' a d, reader s <> Resolving id g' a d))).
Proof.
  intros Hn Hb Hs Hq id. pose proof (reachable_inv _ _ _ _ _ (inv_initial next now Hn) Hb Hs) as Hi.
  destruct Hi as [_ Hses _ _ _ Hqok Ht _]. rewrite Hq in Hqok. inversion Hqok as [|? ? [Hwf Hitem] _]; subst.
  unfold on_write. rewrite Hq. unfold is_current.
  destruct (item_generation item) as [g|] eqn:Eg.
  - split_if Ec; [|by left]. b2p. destruct io; [right; split; [done|]|by left|by left].
    right. exists g. split; [done|]. split; [done|].
    destruct Hitem as [_ [[id' Hp]|(r & payload & Hr & Hp)]]; [left; subst id; by rewrite Hp|right].
    exists r, payload. subst id. rewrite Hp in *. cbn in *. split_and!; try done.
    + intros x Hx. destruct (Hses _ _ Hx) as (Hgx & _ & Hrest). rewrite Ec in Hgx. injection Hgx as ->.
      destruct Hrest as [[pl Hpl]|(r' & Hr' & _ & _ & Hd)].
      * rewrite Hpl in Ht. destruct Ht as ((_ & _ & _ & Hno & _) & _). congruence.
      * rewrite Hr in Hr'. injection Hr' as <-. done.
    + intros g' a' d Hrd. rewrite Hrd in Ht. destruct Ht as ((_ & _ & Hg' & Hno & _) & _). congruence.
  - destruct io; [right; split; [done|]|by left|by left]. left. destruct Hitem as [id' Hp].
    subst id. by rewrite Hp.
Qed.

(** Sessions and relays stay in step: every session is the current generation
    of its connection, has not been cancelled, and has a running relay for its
    own destination, unless its first datagram is still being sent; every running relay owns such a session or has been told
    to stop, so none is left behind. *)
Theorem udpgw_server_sessions mtu timeout n next now s :
  0 <= next -> next + Z.of_nat n <= u64_max ->
  nsteps (step mtu timeout) n (initial next now) s ->
  (forall id x, sessions s !! id = Some x ->
     generations s !! id = Some (generation x) /\ (generation x ∉ stopped s) /\
     (opening (reader s) id x \/
      exists r, relays s !! generation x = Some r /\ r_running r = true /\ r_conn r = id /\ r_dst r = dst x)) /\
  (forall g r, relays s !! g = Some r -> r_running r = true ->
     (exists x, sessions s !! r_conn r = Some x /\ generation x = g) \/ g ∈ stopped s).
Proof.
  intros Hn Hb Hs. destruct (reachable_inv _ _ _ _ _ (inv_initial next now Hn) Hb Hs)
    as [_ Hses Hr _ _ _ _ _].
  split; [exact Hses|]. intros g r Hg. by destruct (Hr _ _ Hg) as (_ & _ & _ & Hrun & _).
Qed.

(** Everything written to the client is a sequence of frames its decoder reads
    back one by one. *)
Theorem udpgw_server_frames mtu timeout n next now s ps p ps' :
  0 <= next -> next + Z.of_nat n <= u64_max ->
  nsteps (step mtu timeout) n (initial next now) s ->
  to_client s = ps ++ p :: ps' ->
  retrieve_from_stream (concat (to_bytes <$> (p :: ps'))) = Ok (p, concat (to_bytes <$> ps')).
Proof.
  intros Hn Hb Hs Hps. destruct (reachable_inv _ _ _ _ _ (inv_initial next now Hn) Hb Hs)
    as [_ _ _ _ _ _ _ Ho].
  rewrite Hps in Ho. apply Forall_app in Ho as [_ Ho]. inversion Ho; subst.
  rewrite fmap_cons. cbn [concat].
  rewrite (try_from_stream _ p) by (by apply try_from_to_bytes).
  by rewrite <- length_to_bytes, drop_app_length.
Qed.

(** A datagram within the effective MTU of a relay always fits a frame: the
    builder cannot fail on it. *)
Theorem udpgw_server_reply_fits udp_mtu id d payload :
  is_u16 id -> sa_wf d ->
  (static_len + address_len (SocketAddress d) <= Z.to_nat u16_max)%nat ->
  (length payload <= effective_mtu udp_mtu d)%nat ->
  build_packet_from_address id (SocketAddress d) payload =
    Ok (mkPacket (mkHeader DATA id) (Some (SocketAddress d)) payload).
Proof.
  intros Hid Hd Hl Hp. rewrite build_packet_cases. unfold effective_mtu in Hp.
  rewrite (proj2 (Z.ltb_ge u16_max _)); [done|].
  assert (Z.of_nat (Z.to_nat u16_max) = u16_max) as Hu by done. lia.
Qed.
End server.

(** ** Example run: a request is resolved, answered, and the answer written *)

Section examples.
Import Rfc1928.

Let server_addr : SocketAddr := mkSA (ipv4 8 8 8 8) 53.
Let request : Packet := mkPacket (mkHeader DATA 7) (Some (SocketAddress server_addr)) [1].

Definition run_request : State :=
  on_sent (H := rfc1928) 1500 (Ok tt)
    (on_resolved 0 (Ok [server_addr]) (Ok tt) (on_packet 1500 0 request (initial 1 0))).

Definition run_answer : State :=
  on_relay (H := rfc1928) 3 5 1 Room
    (on_relay (H := rfc1928) 3 5 1 (Datagram server_addr [9; 9]) run_request).

Definition run_written : State := on_write 6 (Ok tt) run_answer.

Lemma run_answer_steps : nsteps (step (H := rfc1928) 1500 3) 5 (initial 1 0) run_answer.
Proof.
  eapply nsteps_l.
  { exact (step_packet (H := rfc1928) 1500 3 (initial 1 0) 0 request eq_refl eq_refl
      ltac:(by vm_compute)). }
  eapply nsteps_l.
  { refine (step_resolved (H := rfc1928) 1500 3 (on_packet 1500 0 request (initial 1 0)) 0
      (Ok [server_addr]) (Ok tt) eq_refl _).
    intros ds [= <-]. by repeat constructor. }
  eapply nsteps_l; [exact (step_sent (H := rfc1928) 1500 3
    (on_resolved 0 (Ok [server_addr]) (Ok tt) (on_packet 1500 0 request (initial 1 0))) (Ok tt) eq_refl)|].
  eapply nsteps_l; [exact (step_relay (H := rfc1928) 1500 3 run_request 5 1 (Datagram server_addr [9; 9]))|].
  eapply nsteps_l; [exact (step_relay (H := rfc1928) 1500 3 _ 5 1 Room)|]. apply nsteps_O.
Qed.

Definition answer_packet : Packet :=
  mkPacket (mkHeader DATA 7) (Some (SocketAddress server_addr)) [9; 9].

Lemma run_written_frames : to_client run_written = [answer_packet].
Proof. by vm_compute. Qed.

Lemma run_written_steps : nsteps (step (H := rfc1928) 1500 3) 6 (initial 1 0) run_written.
Proof.
  eapply (nsteps_trans 5 1); [apply run_answer_steps|]. apply nsteps_once.
  by apply (step_write (H := rfc1928) 1500 3 run_answer 6 (Ok tt)).
Qed.

Lemma udpgw_server_no_stale_reply_witness :
  to_client (on_write 6 (Ok tt) run_answer) <> to_client run_answer /\
  exists g, generations run_answer !! 7 = Some g.
Proof.
  pose proof (udpgw_server_no_stale_reply (H := rfc1928) 1500 3 5 1 0 6 (Ok tt) run_answer
    (mkItem answer_packet (Some 1)) [] ltac:(lia) ltac:(by vm_compute) run_answer_steps eq_refl) as Hw.
  split; [by vm_compute|]. destruct Hw as [Hw|[_ [Hw|(g & Hg & _)]]].
  - by vm_compute in Hw.
  - by vm_compute in Hw.
  - by exists g.
Defined.

Lemma udpgw_server_sessions_witness :
  exists r, relays run_answer !! 1 = Some r /\ r_running r = true /\ r_dst r = server_addr.
Proof.
  destruct (udpgw_server_sessions (H := rfc1928) 1500 3 5 1 0 run_answer ltac:(lia)
    ltac:(by vm_compute) run_answer_steps) as [Hs _].
  destruct (Hs 7 (mkSession server_addr (SocketAddress server_addr) 1 1 5) eq_refl)
    as (_ & _ & [[pl [=]]|(r & Hr & Hrun & _ & Hd)]).
  by exists r.
Defined.

Lemma udpgw_server_frames_witness :
  retrieve_from_stream (H := rfc1928) (to_bytes (H := rfc1928) answer_packet) = Ok (answer_packet, []).
Proof.
  exact (udpgw_server_frames (H := rfc1928) 1500 3 6 1 0 run_written [] answer_packet []
    ltac:(lia) ltac:(by vm_compute) run_written_steps run_written_frames).
Defined.

Lemma udpgw_server_reply_fits_witness :
  build_packet_from_address (H := rfc1928) 7 (SocketAddress server_addr) [9; 9] = Ok answer_packet.
Proof.
  refine (udpgw_server_reply_fits (H := rfc1928) 1500 7 server_addr [9; 9] _ _ _ _).
  - by vm_compute.
  - by vm_compute.
  - apply Nat.leb_le. by vm_compute.
  - apply Nat.leb_le. by vm_compute.
Defined.
End examples.
End UdpgwServerProofs.
