(* ===== verification/WindowsConfig.v ===== *)
(** * Windows network configuration (src/src/windows_network_config.rs)

    The transaction that installs the routes, the forwarding settings and the
    DNS server of a TUN session, its roll-back, the live updates of the bypass
    routes and the monitor that runs them.  The trait [NetworkOperations] is a
    class over the state of the machine, and every one of its calls may fail;
    [IpCidr] and [is_private_ip] of the crate tproxy_config are arguments. *)

From S2P Require Import Prelude Net.

Module WindowsConfig.

(** ** Data *)

Definition CAPTURE_ROUTE_METRIC : Z := 6.
Definition BYPASS_ROUTE_METRIC : Z := 1.

Record RouteAddress := mkRA { ra_ip : IpAddr; scope_id : Z }.

#[export] Instance RouteAddress_eq_dec : EqDecision RouteAddress.
Proof. solve_decision. Defined.

Record RouteSpec := mkRoute {
  destination : IpAddr;
  prefix_len : Z;
  next_hop : RouteAddress;
  interface_luid : Z;
  metric : Z }.

#[export] Instance RouteSpec_eq_dec : EqDecision RouteSpec.
Proof. solve_decision. Defined.

Inductive AddOutcome := Created | Preexisting.
Inductive InterfaceRole := Tun | WslHns.

#[export] Instance InterfaceRole_eq_dec : EqDecision InterfaceRole.
Proof. solve_decision. Defined.

Record InterfaceTarget := mkTarget { luid : Z; alias : string; role : InterfaceRole }.

Record InterfaceSettings := mkSettings { forwarding : bool; weak_host_send : bool; weak_host_receive : bool }.

Record InterfacePatch := mkPatch {
  p_forwarding : option bool;
  p_weak_host_send : option bool;
  p_weak_host_receive : option bool }.

Definition default_patch : InterfacePatch := mkPatch None None None.

Definition patch_is_empty (p : InterfacePatch) : bool :=
  match p with mkPatch None None None => true | _ => false end.

(** [merge_owned]: a field that is patched for the first time remembers the
    value before. *)
Definition merge_field (own patch : option bool) (before : bool) : option bool :=
  match patch, own with
  | Some _, None => Some before
  | _, _ => own
  end.

Definition merge_owned (own patch : InterfacePatch) (before : InterfaceSettings) : InterfacePatch :=
  mkPatch (merge_field (p_forwarding own) (p_forwarding patch) (forwarding before))
    (merge_field (p_weak_host_send own) (p_weak_host_send patch) (weak_host_send before))
    (merge_field (p_weak_host_receive own) (p_weak_host_receive patch) (weak_host_receive before)).

Record InterfaceSnapshot := mkSnapshot {
  target : InterfaceTarget;
  before : InterfaceSettings;
  restore : InterfacePatch }.

(** Errors: an operating system code, another error, a wrapped one
    ([contextual_error]), the collected failures of a clean-up, and a set-up
    error whose roll-back failed twice. *)
Inductive NetError :=
  | RawOs (code : Z)
  | Plain (message : string)
  | Context (what : string) (e : NetError)
  | Failures (l : list Failure)
  | Incomplete (setup first second : NetError)
with Failure :=
  | DeleteFailed (r : RouteSpec) (e : NetError)
  | DnsFailed (e : NetError)
  | SettingsFailed (t : InterfaceTarget) (e : NetError).

Definition ERROR_FILE_NOT_FOUND : Z := 2.
Definition ERROR_NOT_FOUND : Z := 1168.

Definition is_missing_interface_error (e : NetError) : bool :=
  match e with RawOs c => (c =? ERROR_FILE_NOT_FOUND) || (c =? ERROR_NOT_FOUND) | _ => false end.

(** The trait. *)
Class NetworkOperations (S : Type) := {
  get_luid : string -> M S NetError Z;
  best_route : IpAddr -> M S NetError (Z * RouteAddress);
  physical_routes : M S NetError (list (RouteSpec * Z));
  create_route : RouteSpec -> M S NetError AddOutcome;
  delete_route : RouteSpec -> M S NetError unit;
  wsl_hns_interfaces : M S NetError (list InterfaceTarget);
  interface_settings : Z -> M S NetError InterfaceSettings;
  apply_interface_patch : Z -> InterfacePatch -> M S NetError unit;
  snapshot_dns : Z -> M S NetError (option string);
  set_dns : Z -> option string -> M S NetError unit;
}.

Record InstallRecord := mkRecord {
  tun_luid : Z;
  dns_before : option string;
  dns_changed : bool;
  owned_routes : list RouteSpec;
  desired_bypasses : list RouteSpec;
  interface_snapshots : list InterfaceSnapshot;
  removed : bool }.

Definition set_owned (l : list RouteSpec) (r : InstallRecord) : InstallRecord :=
  mkRecord (tun_luid r) (dns_before r) (dns_changed r) l (desired_bypasses r) (interface_snapshots r) (removed r).
Definition set_desired (l : list RouteSpec) (r : InstallRecord) : InstallRecord :=
  mkRecord (tun_luid r) (dns_before r) (dns_changed r) (owned_routes r) l (interface_snapshots r) (removed r).
Definition set_snapshots (l : list InterfaceSnapshot) (r : InstallRecord) : InstallRecord :=
  mkRecord (tun_luid r) (dns_before r) (dns_changed r) (owned_routes r) (desired_bypasses r) l (removed r).
Definition set_dns_changed (b : bool) (r : InstallRecord) : InstallRecord :=
  mkRecord (tun_luid r) (dns_before r) b (owned_routes r) (desired_bypasses r) (interface_snapshots r) (removed r).
Definition set_removed (b : bool) (r : InstallRecord) : InstallRecord :=
  mkRecord (tun_luid r) (dns_before r) (dns_changed r) (owned_routes r) (desired_bypasses r)
    (interface_snapshots r) b.

(** ** Choosing a physical route *)

(** [MAX.checked_shl(width - prefix).unwrap_or(0)]. *)
Definition prefix_mask (width prefix : Z) : Z :=
  if width <=? width - prefix then 0 else Z.shiftl (2 ^ width - 1) (width - prefix) mod 2 ^ width.

Definition contains_destination (route : RouteSpec) (dst : IpAddr) : bool :=
  match destination route, dst with
  | V4 network, V4 ip =>
      (prefix_len route <=? 32) &&
      let mask := prefix_mask 32 (prefix_len route) in Z.land network mask =? Z.land ip mask
  | V6 network, V6 ip =>
      (prefix_len route <=? 128) &&
      let mask := prefix_mask 128 (prefix_len route) in Z.land network mask =? Z.land ip mask
  | _, _ => false
  end.

(** The key of [min_by_key]: longer prefixes first, then the total metric. *)
Definition better (a b : RouteSpec * Z) : bool :=
  (prefix_len b.1 <? prefix_len a.1) ||
  ((prefix_len a.1 =? prefix_len b.1) && (metric a.1 + a.2 <? metric b.1 + b.2)).

Definition usable (dst : IpAddr) (tun : Z) (owned : list RouteSpec) (x : RouteSpec * Z) : Prop :=
  interface_luid x.1 <> tun /\ (x.1 ∉ owned) /\ contains_destination x.1 dst = true.

Definition select_physical_route (routes : list (RouteSpec * Z)) (dst : IpAddr) (tun : Z)
    (owned : list RouteSpec) : option RouteSpec :=
  fst <$> foldl (fun acc x =>
    match acc with
    | Some best => if better x best then Some x else acc
    | None => Some x
    end) None (filter (usable dst tun owned) routes).

Section transaction.
Context {S : Type} `{NO : NetworkOperations S}.

(** ** Forwarding settings *)

Definition required_interface_patch (r : InterfaceRole) (current : InterfaceSettings) : InterfacePatch :=
  let on (b : bool) := if b then None else Some true in
  match r with
  | Tun => mkPatch (on (forwarding current)) (on (weak_host_send current)) (on (weak_host_receive current))
  | WslHns => mkPatch (on (forwarding current)) None None
  end.

(** The snapshot of an interface, taken when it is first seen. *)
Definition ensure_snapshot (t : InterfaceTarget) (current : InterfaceSettings) (l : list InterfaceSnapshot)
    : list InterfaceSnapshot :=
  if bool_decide (luid t ∈ (luid ∘ target) <$> l) then l
  else l ++ [mkSnapshot t current default_patch].

(** The restoring patch of the first snapshot of an interface. *)
Fixpoint own_patch (l : Z) (required : InterfacePatch) (snaps : list InterfaceSnapshot)
    : list InterfaceSnapshot :=
  match snaps with
  | [] => []
  | s :: snaps' =>
      if luid (target s) =? l
      then mkSnapshot (target s) (before s) (merge_owned (restore s) required (before s)) :: snaps'
      else s :: own_patch l required snaps'
  end.

Fixpoint reconcile_targets (targets : list InterfaceTarget) (unique : list Z)
    (snaps : list InterfaceSnapshot) (s : S) : res NetError unit * list InterfaceSnapshot * S :=
  match targets with
  | [] => (Ok tt, snaps, s)
  | t :: targets' =>
      if bool_decide (luid t ∈ unique) then reconcile_targets targets' unique snaps s
      else
        match interface_settings (luid t) s with
        | (Ok current, s1) =>
            let required := required_interface_patch (role t) current in
            let snaps1 := ensure_snapshot t current snaps in
            if patch_is_empty required then reconcile_targets targets' (luid t :: unique) snaps1 s1
            else
              let snaps2 := own_patch (luid t) required snaps1 in
              match apply_interface_patch (luid t) required s1 with
              | (Ok _, s2) => reconcile_targets targets' (luid t :: unique) snaps2 s2
              | (Err e, s2) => (Err (Context "enable IPv4 forwarding settings on {target}" e), snaps2, s2)
              | (Panic, s2) => (Panic, snaps2, s2)
              end
        | (Err e, s1) =>
            if is_missing_interface_error e && bool_decide (role t = WslHns)
            then reconcile_targets targets' (luid t :: unique) snaps s1
            else (Err (Context "read IPv4 settings for {target}" e), snaps, s1)
        | (Panic, s1) => (Panic, snaps, s1)
        end
  end.

Definition reconcile_interface_settings (tun_target : InterfaceTarget) (snaps : list InterfaceSnapshot) (s : S)
    : res NetError unit * list InterfaceSnapshot * S :=
  match wsl_hns_interfaces s with
  | (Ok l, s1) => reconcile_targets (tun_target :: l) [] snaps s1
  | (Err e, s1) => (Err e, snaps, s1)
  | (Panic, s1) => (Panic, snaps, s1)
  end.

(** ** Clean-up *)

(** The loop over the owned routes, last one first: the failures and the routes
    that failed, in the order they were tried. *)
Fixpoint delete_routes (routes : list RouteSpec) (s : S) : list Failure * list RouteSpec * S :=
  match routes with
  | [] => ([], [], s)
  | r :: routes' =>
      match delete_route r s with
      | (Err e, s1) =>
          let '(fs, failed, s2) := delete_routes routes' s1 in (DeleteFailed r e :: fs, r :: failed, s2)
      | (_, s1) => delete_routes routes' s1
      end
  end.

(** The loop over the snapshots, last one first. *)
Fixpoint restore_snapshots (snaps : list InterfaceSnapshot) (s : S) : list Failure * list InterfaceSnapshot * S :=
  match snaps with
  | [] => ([], [], s)
  | x :: snaps' =>
      if patch_is_empty (restore x) then restore_snapshots snaps' s
      else
        match apply_interface_patch (luid (target x)) (restore x) s with
        | (Err e, s1) =>
            if is_missing_interface_error e && bool_decide (role (target x) = WslHns)
            then restore_snapshots snaps' s1
            else
              let '(fs, failed, s2) := restore_snapshots snaps' s1 in
              (SettingsFailed (target x) e :: fs, x :: failed, s2)
        | (_, s1) => restore_snapshots snaps' s1
        end
  end.

(** The DNS part: the failures so far decide whether the change is forgotten. *)
Definition restore_dns (failures : list Failure) (r : InstallRecord) (s : S) : list Failure * InstallRecord * S :=
  if dns_changed r then
    let '(res, s1) := set_dns (tun_luid r) (dns_before r) s in
    let failures1 := match res with Err e => failures ++ [DnsFailed e] | _ => failures end in
    let failed := match last failures1 with Some (DnsFailed _) => true | _ => false end in
    (failures1, if failed then r else set_dns_changed false r, s1)
  else (failures, r, s).

Definition cleanup_transaction (r : InstallRecord) (s : S) : res NetError unit * InstallRecord * S :=
  if removed r then (Ok tt, r, s)
  else
    let '(fs1, failed_routes, s1) := delete_routes (rev (owned_routes r)) s in
    let r1 := set_owned (rev failed_routes) r in
    let '(fs2, r2, s2) := restore_dns fs1 r1 s1 in
    let '(fs3, failed_snaps, s3) := restore_snapshots (rev (interface_snapshots r2)) s2 in
    let r3 := set_snapshots (rev failed_snaps) r2 in
    match fs2 ++ fs3 with
    | [] => (Ok tt, set_removed true r3, s3)
    | fs => (Err (Failures fs), set_removed false r3, s3)
    end.

Definition rollback_after_setup_failure (r : InstallRecord) (setup_error : NetError) (s : S)
    : NetError * InstallRecord * S :=
  match cleanup_transaction r s with
  | (Err first, r1, s1) =>
      match cleanup_transaction r1 s1 with
      | (Err second, r2, s2) => (Incomplete setup_error first second, r2, s2)
      | (_, r2, s2) => (setup_error, r2, s2)
      end
  | (_, r1, s1) => (setup_error, r1, s1)
  end.

(** ** Live bypass routes *)

(** Create a route and claim it when this session made it. *)
Definition claim_route (route : RouteSpec) (owned : list RouteSpec) (s : S)
    : res NetError bool * list RouteSpec * S :=
  match create_route route s with
  | (Ok Created, s1) =>
      if bool_decide (route ∈ owned) then (Ok false, owned, s1) else (Ok true, owned ++ [route], s1)
  | (Ok Preexisting, s1) => (Ok false, owned, s1)
  | (Err e, s1) => (Err e, owned, s1)
  | (Panic, s1) => (Panic, owned, s1)
  end.

(** A row of this session that the new bypass replaces. *)
Definition superseded (tun : Z) (desired old : RouteSpec) : bool :=
  negb (interface_luid old =? tun) && bool_decide (destination old = destination desired) &&
  (prefix_len old =? prefix_len desired) && negb (bool_decide (old = desired)).

(** The loop that retires the superseded rows; it stops at the first failure. *)
Fixpoint retire_routes (tun : Z) (desired : RouteSpec) (owned : list RouteSpec) (s : S)
    : res NetError unit * list RouteSpec * S :=
  match owned with
  | [] => (Ok tt, [], s)
  | old :: rest =>
      if superseded tun desired old then
        match delete_route old s with
        | (Ok _, s1) => retire_routes tun desired rest s1
        | (Err e, s1) => (Err e, owned, s1)
        | (Panic, s1) => (Panic, owned, s1)
        end
      else
        let '(r, rest1, s1) := retire_routes tun desired rest s in (r, old :: rest1, s1)
  end.

Definition refreshed (desired physical : RouteSpec) : RouteSpec :=
  mkRoute (destination desired) (prefix_len desired) (next_hop physical) (interface_luid physical) (metric desired).

(** The new row of one bypass: created unless the table has it already. *)
Definition install_refreshed (routes : list (RouteSpec * Z)) (new : RouteSpec) (owned : list RouteSpec) (s : S)
    : res NetError bool * list RouteSpec * S :=
  if bool_decide (new ∈ routes.*1) then (Ok false, owned, s) else claim_route new owned s.

Fixpoint reconcile_desired (routes : list (RouteSpec * Z)) (tun : Z) (bypasses owned : list RouteSpec) (s : S)
    : res NetError unit * list RouteSpec * list RouteSpec * S :=
  match bypasses with
  | [] => (Ok tt, [], owned, s)
  | desired :: rest =>
      match select_physical_route routes (destination desired) tun owned with
      | None =>
          let '(r, rest1, owned1, s1) := reconcile_desired routes tun rest owned s in
          (r, desired :: rest1, owned1, s1)
      | Some physical =>
          let new := refreshed desired physical in
          match install_refreshed routes new owned s with
          | (Ok _, owned1, s1) =>
              match retire_routes tun new owned1 s1 with
              | (Ok _, owned2, s2) =>
                  let '(r, rest1, owned3, s3) := reconcile_desired routes tun rest owned2 s2 in
                  (r, new :: rest1, owned3, s3)
              | (Err e, owned2, s2) => (Err e, new :: rest, owned2, s2)
              | (Panic, owned2, s2) => (Panic, new :: rest, owned2, s2)
              end
          | (Err e, owned1, s1) => (Err e, bypasses, owned1, s1)
          | (Panic, owned1, s1) => (Panic, bypasses, owned1, s1)
          end
      end
  end.

Definition reconcile_bypass_routes (r : InstallRecord) (s : S) : res NetError unit * InstallRecord * S :=
  match physical_routes s with
  | (Ok routes, s1) =>
      let '(res, desired, owned, s2) :=
        reconcile_desired routes (tun_luid r) (desired_bypasses r) (owned_routes r) s1 in
      (res, set_owned owned (set_desired desired r), s2)
  | (Err e, s1) => (Err e, r, s1)
  | (Panic, s1) => (Panic, r, s1)
  end.

(** A live update that is not decided yet. *)
Record PreparedBypasses := mkPrepared { added : list RouteSpec; desired : list RouteSpec }.

Definition default_prepared : PreparedBypasses := mkPrepared [] [].

Definition host_prefix (ip : IpAddr) : Z := if is_ipv4 ip then 32 else 128.

(** The host routes of an update, through the physical route of each address. *)
Fixpoint plan_hosts (routes : list (RouteSpec * Z)) (tun : Z) (owned : list RouteSpec)
    (addresses : list IpAddr) (planned : list RouteSpec) : res NetError (list RouteSpec) :=
  match addresses with
  | [] => Ok planned
  | dst :: rest =>
      if is_loopback dst || is_unspecified dst then plan_hosts routes tun owned rest planned
      else
        match select_physical_route routes dst tun owned with
        | None => Err (Plain "no physical route for upstream {destination}")
        | Some physical =>
            let route := mkRoute dst (host_prefix dst) (next_hop physical) (interface_luid physical)
              BYPASS_ROUTE_METRIC in
            plan_hosts routes tun owned rest (if bool_decide (route ∈ planned) then planned else planned ++ [route])
        end
  end.

Fixpoint add_planned (planned owned : list RouteSpec) (update : PreparedBypasses) (s : S)
    : res NetError unit * list RouteSpec * PreparedBypasses * S :=
  match planned with
  | [] => (Ok tt, owned, update, s)
  | route :: rest =>
      match claim_route route owned s with
      | (Ok mine, owned1, s1) =>
          add_planned rest owned1
            (mkPrepared (if mine : bool then added update ++ [route] else added update) (desired update ++ [route])) s1
      | (Err e, owned1, s1) => (Err (Context "install live upstream bypass {route}" e), owned1, update, s1)
      | (Panic, owned1, s1) => (Panic, owned1, update, s1)
      end
  end.

Definition add_upstream_bypasses (r : InstallRecord) (addresses : list IpAddr) (update : PreparedBypasses) (s : S)
    : res NetError unit * InstallRecord * PreparedBypasses * S :=
  if removed r then (Err (Plain "TUN network configuration has been removed"), r, update, s)
  else
    match physical_routes s with
    | (Ok routes, s1) =>
        match plan_hosts routes (tun_luid r) (owned_routes r) addresses [] with
        | Ok planned =>
            let '(res, owned, update1, s2) := add_planned planned (owned_routes r) update s1 in
            (res, set_owned owned r, update1, s2)
        | Err e => (Err e, r, update, s1)
        | Panic => (Panic, r, update, s1)
        end
    | (Err e, s1) => (Err e, r, update, s1)
    | (Panic, s1) => (Panic, r, update, s1)
    end.

Fixpoint replace_desired (route : RouteSpec) (l : list RouteSpec) : list RouteSpec :=
  match l with
  | [] => [route]
  | old :: rest =>
      if bool_decide (destination old = destination route) && (prefix_len old =? prefix_len route)
      then route :: rest else old :: replace_desired route rest
  end.

Definition commit_upstream_bypasses (r : InstallRecord) (update : PreparedBypasses) : InstallRecord :=
  set_desired (foldl (fun l route => replace_desired route l) (desired_bypasses r) (desired update)) r.

(** [retain]: the rows whose deletion failed stay to be tried again. *)
Fixpoint rollback_rows (routes owned : list RouteSpec) (s : S) : list RouteSpec * list RouteSpec * S :=
  match routes with
  | [] => ([], owned, s)
  | route :: rest =>
      match delete_route route s with
      | (Ok _, s1) => rollback_rows rest (filter (fun o => o <> route) owned) s1
      | (_, s1) => let '(kept, owned1, s2) := rollback_rows rest owned s1 in (route :: kept, owned1, s2)
      end
  end.

Definition rollback_upstream_bypasses (r : InstallRecord) (routes : list RouteSpec) (s : S)
    : InstallRecord * list RouteSpec * S :=
  let '(kept, owned, s1) := rollback_rows routes (owned_routes r) s in (set_owned owned r, kept, s1).

(** ** The monitor *)

(** A message, or the time-out of the reconciliation interval.  [closed] says
    that the sender of a preparation does not wait any more. *)
Inductive NetworkCommand :=
  | Stop
  | PrepareBypasses (addresses : list IpAddr) (closed : bool)
  | CommitBypasses
  | RollbackBypasses
  | Timeout.

Record Monitor := mkMonitor {
  record : InstallRecord;
  pending : option PreparedBypasses;
  rollback_routes : list RouteSpec }.

(** One turn of the loop: the reply to a preparation, whether the loop goes on,
    and the new state. *)
Definition monitor_turn (tun_target : InterfaceTarget) (c : NetworkCommand) (m : Monitor) (s : S)
    : option (res NetError unit) * bool * Monitor * S :=
  match c with
  | Stop => (None, false, m, s)
  | PrepareBypasses _ true => (None, true, m, s)
  | PrepareBypasses addresses false =>
      let '(r1, kept, s1) := rollback_upstream_bypasses (record m) (rollback_routes m) s in
      match kept with
      | [] =>
          let '(res, r2, update, s2) := add_upstream_bypasses r1 addresses default_prepared s1 in
          (Some res, true, mkMonitor r2 (Some update) [], s2)
      | _ =>
          (Some (Err (Plain "previous upstream bypass rollback is still pending; retry after cleanup")), true,
            mkMonitor r1 (pending m) kept, s1)
      end
  | CommitBypasses =>
      match pending m with
      | Some update => (None, true, mkMonitor (commit_upstream_bypasses (record m) update) None (rollback_routes m), s)
      | None => (None, true, m, s)
      end
  | RollbackBypasses =>
      let routes := match pending m with
                    | Some update => rollback_routes m ++ added update
                    | None => rollback_routes m
                    end in
      let '(r1, kept, s1) := rollback_upstream_bypasses (record m) routes s in
      (None, true, mkMonitor r1 None kept, s1)
  | Timeout =>
      let '(_, snaps, s1) := reconcile_interface_settings tun_target (interface_snapshots (record m)) s in
      let '(r2, kept, s2) := rollback_upstream_bypasses (set_snapshots snaps (record m)) (rollback_routes m) s1 in
      match pending m with
      | None =>
          let '(_, r3, s3) := reconcile_bypass_routes r2 s2 in (None, true, mkMonitor r3 None kept, s3)
      | Some update => (None, true, mkMonitor r2 (Some update) kept, s2)
      end
  end.

(** The loop over the messages, until one stops it. *)
Fixpoint monitor_run (tun_target : InterfaceTarget) (cs : list NetworkCommand) (m : Monitor) (s : S) : Monitor * S :=
  match cs with
  | [] => (m, s)
  | c :: cs' =>
      match monitor_turn tun_target c m s with
      | (_, true, m1, s1) => monitor_run tun_target cs' m1 s1
      | (_, false, m1, s1) => (m1, s1)
      end
  end.
End transaction.

(** ** Installing *)

(** [IpCidr] and [is_private_ip] of tproxy_config. *)
Class TproxyConfig := {
  IpCidr : Type;
  IpCidr_eq_dec :: EqDecision IpCidr;
  contains : IpCidr -> IpAddr -> bool;
  new_host : IpAddr -> IpCidr;
  cidr_is_ipv4 : IpCidr -> bool;
  network_length : IpCidr -> Z;
  first_address : IpCidr -> IpAddr;
  is_private_ip : IpAddr -> bool;
}.

Section install.
Context {S : Type} `{NO : NetworkOperations S} `{TC : TproxyConfig}.

Record TproxyArgs := mkArgs {
  tun_name : string;
  bypass_ips : list IpCidr;
  proxy_addr : SocketAddr;
  ipv4_default_route : bool;
  ipv6_default_route : bool;
  tun_gateway : IpAddr }.

(** The user's bypasses, and the proxy when it is remote and not among them. *)
Definition bypass_cidrs (args : TproxyArgs) : list IpCidr :=
  let proxy_ip := sa_ip (proxy_addr args) in
  if negb (is_private_ip proxy_ip) && negb (existsb (fun cidr => contains cidr proxy_ip) (bypass_ips args))
  then bypass_ips args ++ [new_host proxy_ip]
  else bypass_ips args.

Definition probe_of (destination : IpAddr) : IpAddr :=
  if is_unspecified destination then
    match destination with
    | V4 _ => ipv4 1 1 1 1
    | V6 _ => V6 0x26064700470000000000000000001111
    end
  else destination.

(** The physical path of every bypass, looked up before anything is captured. *)
Fixpoint plan_bypasses (tun : Z) (cidrs unique : list IpCidr) (planned : list RouteSpec)
    : M S NetError (list RouteSpec) :=
  match cidrs with
  | [] => mret planned
  | cidr :: rest =>
      if bool_decide (cidr ∈ unique) then plan_bypasses tun rest unique planned
      else if cidr_is_ipv4 cidr && (network_length cidr <=? 1) then
        throw (Plain "Windows bypass {cidr} is too broad for the two /1 TUN capture routes; use prefixes longer than /1")
      else
        let destination := first_address cidr in
        '(physical_luid, next_hop) ← map_errM
          (Context "resolve the physical route for bypass {cidr} before enabling TUN capture")
          (best_route (probe_of destination));
        if physical_luid =? tun then
          throw (Plain "Bypass {cidr} resolves back to TUN adapter; remove stale TUN routes or choose a non-conflicting destination before retrying")
        else
          plan_bypasses tun rest (cidr :: unique)
            (planned ++ [mkRoute destination (network_length cidr) next_hop physical_luid BYPASS_ROUTE_METRIC])
  end.

(** The default row for forwarding consumers and the two halves that capture. *)
Definition capture_routes (tun : Z) (gateway : IpAddr) : list RouteSpec :=
  let hop := mkRA gateway 0 in
  [mkRoute (V4 0) 0 hop tun CAPTURE_ROUTE_METRIC;
   mkRoute (V4 0) 1 hop tun CAPTURE_ROUTE_METRIC;
   mkRoute (ipv4 128 0 0 0) 1 hop tun CAPTURE_ROUTE_METRIC].

(** Everything before the first change: the new record and the planned rows. *)
Definition prepare_install (args : TproxyArgs) : M S NetError (InstallRecord * list RouteSpec) :=
  tun ← map_errM (Context "resolve the TUN adapter through ConvertInterfaceAliasToLuid; the adapter may not be ready or its name may conflict")
    (get_luid (tun_name args));
  dns_before ← map_errM (Context "snapshot the TUN adapter DNS configuration before changing it") (snapshot_dns tun);
  bypasses ← plan_bypasses tun (bypass_cidrs args) [] [];
  if ipv4_default_route args && negb (is_ipv4 (tun_gateway args)) then
    throw (Plain "Windows IPv4 capture requires an IPv4 TUN gateway")
  else
    let planned := bypasses ++ (if ipv4_default_route args then capture_routes tun (tun_gateway args) else []) in
    mret (mkRecord tun dns_before false [] (filter (fun r => interface_luid r <> tun) planned) [] false, planned).

(** A failed change is undone: the error of the set-up, and the record. *)
Definition fail_install (r : InstallRecord) (e : NetError) (s : S) : res NetError InstallRecord * S :=
  let '(e1, _, s1) := rollback_after_setup_failure r e s in (Err e1, s1).

Fixpoint install_routes (planned : list RouteSpec) (r : InstallRecord) (s : S)
    : res NetError unit * InstallRecord * S :=
  match planned with
  | [] => (Ok tt, r, s)
  | route :: rest =>
      match create_route route s with
      | (Ok Created, s1) => install_routes rest (set_owned (owned_routes r ++ [route]) r) s1
      | (Ok Preexisting, s1) => install_routes rest r s1
      | (Err e, s1) => (Err (Context "create Windows route {route}" e), r, s1)
      | (Panic, s1) => (Panic, r, s1)
      end
  end.

Definition install_dns (args : TproxyArgs) (r : InstallRecord) (s : S) : res NetError unit * InstallRecord * S :=
  let r1 := set_dns_changed true r in
  match set_dns (tun_luid r1) (Some (show_ip (tun_gateway args))) s with
  | (Err e, s1) => (Err (Context "set DNS server on TUN adapter" e), r1, s1)
  | (res, s1) => (res, r1, s1)
  end.

Definition tun_target (args : TproxyArgs) (tun : Z) : InterfaceTarget := mkTarget tun (tun_name args) Tun.

Definition install_forwarding (args : TproxyArgs) (r : InstallRecord) (s : S)
    : res NetError unit * InstallRecord * S :=
  if ipv4_default_route args then
    match reconcile_interface_settings (tun_target args (tun_luid r)) (interface_snapshots r) s with
    | (Err e, snaps, s1) =>
        (Err (Context "enable transactional IPv4 forwarding for Windows TUN and WSL HNS interfaces" e),
          set_snapshots snaps r, s1)
    | (res, snaps, s1) => (res, set_snapshots snaps r, s1)
    end
  else (Ok tt, r, s).

(** The changes in their order; each may fail and leaves the record of what was
    done. *)
Definition apply_install (args : TproxyArgs) (r : InstallRecord) (planned : list RouteSpec) (s : S)
    : res NetError unit * InstallRecord * S :=
  match install_forwarding args r s with
  | (Ok _, r1, s1) =>
      match install_routes planned r1 s1 with
      | (Ok _, r2, s2) => install_dns args r2 s2
      | failed => failed
      end
  | failed => failed
  end.

Definition install_transaction (args : TproxyArgs) (s : S) : res NetError InstallRecord * S :=
  match prepare_install args s with
  | (Ok (r, planned), s1) =>
      match apply_install args r planned s1 with
      | (Ok _, r1, s2) => (Ok r1, s2)
      | (Err e, r1, s2) => fail_install r1 e s2
      | (Panic, _, s2) => (Panic, s2)
      end
  | (Err e, s1) => (Err e, s1)
  | (Panic, s1) => (Panic, s1)
  end.

(** [install]: the monitor runs only with an IPv4 capture; [spawned] says
    whether its thread could be started. *)
Definition install (args : TproxyArgs) (spawned : bool) (s : S) : res NetError (InstallRecord * bool) * S :=
  match install_transaction args s with
  | (Ok r, s1) =>
      if ipv4_default_route args then
        if spawned then (Ok (r, true), s1)
        else
          let '(e, _, s2) := rollback_after_setup_failure r
            (Context "start the Windows TUN/WSL forwarding monitor" (Plain "spawn")) s1 in (Err e, s2)
      else (Ok (r, false), s1)
  | (Err e, s1) => (Err e, s1)
  | (Panic, s1) => (Panic, s1)
  end.

(** [remove], and the guard dropped at its end, which tries once more what
    failed. *)
Definition remove (r : InstallRecord) (s : S) : res NetError unit * InstallRecord * S :=
  match cleanup_transaction r s with
  | (res, r1, s1) =>
      if removed r1 then (res, r1, s1) else let '(_, r2, s2) := cleanup_transaction r1 s1 in (res, r2, s2)
  end.
End install.
End WindowsConfig.
