(* ===== verification/WindowsConfigProofs.v ===== *)
(** * Windows network configuration: what belongs to the session

    The class [NetworkLaws] states what the calls of [NetworkOperations] do to
    the routes, the interface settings and the DNS servers of the machine; each
    of them may fail, and then changes nothing.  Against these laws the file
    shows that a session owns exactly what it changed, under every sequence of
    commands, faults and changes by others, and gives everything back. *)

From S2P Require Import Prelude Net WindowsConfig.

Module WindowsConfigProofs.
Import WindowsConfig.

(** ** The machine as the session sees it *)

(** A row of the routing table is known by everything but its metric. *)
Definition RouteKey : Type := IpAddr * Z * (IpAddr * Z) * Z.

Definition key (r : RouteSpec) : RouteKey :=
  (destination r, prefix_len r,
   (ra_ip (next_hop r), if is_ipv4 (ra_ip (next_hop r)) then 0 else scope_id (next_hop r)),
   interface_luid r).

(** Only IPv6 next hops have a scope. *)
Definition hop_wf (h : RouteAddress) : Prop := is_ipv4 (ra_ip h) = true -> scope_id h = 0.

Record View := mkView {
  rows : gmap RouteKey Z;
  ifs : gmap Z InterfaceSettings;
  servers : gmap Z string }.

Definition upd_rows (f : gmap RouteKey Z -> gmap RouteKey Z) (v : View) : View :=
  mkView (f (rows v)) (ifs v) (servers v).
Definition upd_ifs (f : gmap Z InterfaceSettings -> gmap Z InterfaceSettings) (v : View) : View :=
  mkView (rows v) (f (ifs v)) (servers v).
Definition upd_servers (f : gmap Z string -> gmap Z string) (v : View) : View :=
  mkView (rows v) (ifs v) (f (servers v)).

Definition patched (p : InterfacePatch) (c : InterfaceSettings) : InterfaceSettings :=
  mkSettings (default (forwarding c) (p_forwarding p)) (default (weak_host_send c) (p_weak_host_send p))
    (default (weak_host_receive c) (p_weak_host_receive p)).

Definition reads {S A} (view : S -> View) (m : M S NetError A) : Prop :=
  forall s r s', m s = (r, s') -> view s' = view s /\ r <> Panic.

(** What the operations do to the machine. *)
Class NetworkLaws (S : Type) `{NO : NetworkOperations S} := {
  view : S -> View;
  get_luid_reads : forall a, reads view (get_luid a);
  best_route_reads : forall d, reads view (best_route d);
  physical_routes_reads : reads view physical_routes;
  wsl_reads : reads view wsl_hns_interfaces;
  settings_reads : forall l, reads view (interface_settings l);
  snapshot_reads : forall l, reads view (snapshot_dns l);
  best_route_hop : forall d s l h s', best_route d s = (Ok (l, h), s') -> hop_wf h;
  physical_hops : forall s l s', physical_routes s = (Ok l, s') -> Forall (fun x => hop_wf (next_hop x.1)) l;
  create_law : forall r s res s', create_route r s = (res, s') ->
    match res with
    | Ok Created => rows (view s) !! key r = None /\ view s' = upd_rows <[key r := metric r]> (view s)
    | Ok Preexisting => is_Some (rows (view s) !! key r) /\ view s' = view s
    | Err _ => view s' = view s
    | Panic => False
    end;
  delete_law : forall r s res s', delete_route r s = (res, s') ->
    match res with
    | Ok _ => view s' = upd_rows (delete (key r)) (view s)
    | Err _ => view s' = view s
    | Panic => False
    end;
  settings_law : forall l s c s', interface_settings l s = (Ok c, s') -> ifs (view s) !! l = Some c;
  patch_law : forall l p s res s', apply_interface_patch l p s = (res, s') ->
    match res with
    | Ok _ => view s' = upd_ifs (alter (patched p) l) (view s)
    | Err e => view s' = view s /\ (is_missing_interface_error e = true -> ifs (view s) !! l = None)
    | Panic => False
    end;
  snapshot_law : forall l s v s', snapshot_dns l s = (Ok v, s') -> servers (view s) !! l = v;
  set_dns_law : forall l v s res s', set_dns l v s = (res, s') ->
    match res with
    | Ok _ => view s' = upd_servers (partial_alter (fun _ => v) l) (view s)
    | Err _ => view s' = view s
    | Panic => False
    end;
}.

(** ** The invariant *)

(** A row this session may make: a capture row on the TUN, a bypass elsewhere. *)
Definition canonical (tun : Z) (r : RouteSpec) : Prop :=
  metric r = (if interface_luid r =? tun then CAPTURE_ROUTE_METRIC else BYPASS_ROUTE_METRIC) /\
  hop_wf (next_hop r).

(** Only routes, only settings changed. *)
Definition rows_only (v v' : View) : Prop := ifs v' = ifs v /\ servers v' = servers v.
Definition ifs_only (v v' : View) : Prop := rows v' = rows v /\ servers v' = servers v.

#[export] Instance rows_only_preorder : PreOrder rows_only.
Proof. split; [by split | intros a b c [? ?] [? ?]; split; congruence]. Qed.
#[export] Instance ifs_only_preorder : PreOrder ifs_only.
Proof. split; [by split | intros a b c [? ?] [? ?]; split; congruence]. Qed.

Lemma rows_only_eq v v' : v' = v -> rows_only v v'.
Proof. by intros ->. Qed.
Lemma ifs_only_eq v v' : v' = v -> ifs_only v v'.
Proof. by intros ->. Qed.
Lemma rows_only_upd f v : rows_only v (upd_rows f v).
Proof. by split. Qed.
Lemma ifs_only_upd f v : ifs_only v (upd_ifs f v).
Proof. by split. Qed.

#[export] Hint Resolve rows_only_eq ifs_only_eq : rs.

Section lost.

(** Rows of the session that somebody else may have deleted. *)
Variable lost : gset RouteKey.

(** [base] is the table without this session's rows; a row of the session is in
    the table unless it was lost. *)
Record rows_inv (tun : Z) (base : gmap RouteKey Z) (owned : list RouteSpec) (t : gmap RouteKey Z) : Prop := {
  ri_nodup : NoDup owned;
  ri_canonical : Forall (canonical tun) owned;
  ri_owned : forall r, r ∈ owned -> base !! key r = None /\ (t !! key r = Some (metric r) \/ key r ∈ lost /\ t !! key r = None);
  ri_rest : forall k, (forall r, r ∈ owned -> key r <> k) -> t !! k = base !! k }.

Lemma key_inj tun r r' : canonical tun r -> canonical tun r' -> key r = key r' -> r = r'.
Proof.
  destruct r as [d p [h sc] l m], r' as [d' p' [h' sc'] l' m']. unfold canonical, key, hop_wf. simpl.
  intros [-> H] [-> H'] E. simplify_eq/=. f_equal.
  destruct (is_ipv4 h') eqn:E'; [by rewrite H, H' | congruence].
Qed.

#[export] Instance rows_inv_perm tun base : Proper ((≡ₚ) ==> (=) ==> iff) (rows_inv tun base).
Proof.
  assert (G : forall l l' t, l ≡ₚ l' -> rows_inv tun base l t -> rows_inv tun base l' t).
  { intros l l' t P [H1 H2 H3 H4]. split.
    - by rewrite <- P.
    - by rewrite <- P.
    - intros r Hr. apply H3. by rewrite P.
    - intros k Hk. apply H4. intros r Hr. apply Hk. by rewrite <- P. }
  intros l l' P t ? <-. split; apply G; [done | by symmetry].
Qed.

Lemma rows_inv_nil tun base t : rows_inv tun base [] t -> t = base.
Proof. intros [_ _ _ H]. apply map_eq. intros k. apply H. intros r Hr. by apply not_elem_of_nil in Hr. Qed.

Lemma rows_inv_start tun base : rows_inv tun base [] base.
Proof. split; [constructor | constructor | intros r Hr; by apply not_elem_of_nil in Hr | done]. Qed.

(** Creating a row that was not there: a new one, or one that was lost. *)
Lemma rows_inv_create tun base owned t r :
  rows_inv tun base owned t -> canonical tun r -> t !! key r = None -> r ∉ owned ->
  base !! key r = None /\ rows_inv tun base (owned ++ [r]) (<[key r := metric r]> t).
Proof.
  intros [H1 H2 H3 H4] Hc Hn Hr.
  assert (Hk : forall r', r' ∈ owned -> key r' <> key r).
  { intros r' Hr' E. apply Hr. rewrite Forall_forall in H2. by rewrite <- (key_inj tun r' r (H2 r' Hr') Hc E). }
  assert (Hb : base !! key r = None) by (rewrite <- H4; done).
  split; [done |]. split.
  - apply NoDup_app. split; [done | split; [| apply NoDup_singleton]].
    intros x Hx Hx'. apply list_elem_of_singleton in Hx' as ->. done.
  - apply Forall_app. split; [done | by constructor].
  - intros r' [Hr' | Hr']%elem_of_app.
    + rewrite lookup_insert_ne by (intros E; by apply (Hk r' Hr')). by apply H3.
    + apply list_elem_of_singleton in Hr' as ->. rewrite lookup_insert_eq. auto.
  - intros k Hkk. rewrite lookup_insert_ne; [apply H4; intros; apply Hkk; apply elem_of_app; by left |].
    apply Hkk, elem_of_app. right. by apply list_elem_of_singleton.
Qed.

Lemma rows_inv_recreate tun base owned t r :
  rows_inv tun base owned t -> r ∈ owned -> rows_inv tun base owned (<[key r := metric r]> t).
Proof.
  intros [H1 H2 H3 H4] Hr. split; [done | done | |].
  - intros r' Hr'. destruct (decide (key r' = key r)) as [E | Hne]; [| rewrite lookup_insert_ne by done; by apply H3].
    rewrite Forall_forall in H2. rewrite (key_inj tun r' r (H2 r' Hr') (H2 r Hr) E), lookup_insert_eq.
    split; [by apply H3 | by left].
  - intros k Hk. rewrite lookup_insert_ne by (by apply Hk). by apply H4.
Qed.

(** Deleting a row that is not of the base table, owned or not any more. *)
Lemma rows_inv_delete tun base owned t r :
  rows_inv tun base owned t -> canonical tun r -> base !! key r = None ->
  rows_inv tun base (filter (fun o => o <> r) owned) (delete (key r) t).
Proof.
  intros [H1 H2 H3 H4] Hc Hb. split.
  - by apply NoDup_filter.
  - rewrite Forall_forall in *. intros x [_ Hx]%list_elem_of_filter. auto.
  - intros r' [Hne Hr']%list_elem_of_filter. rewrite lookup_delete_ne; [by apply H3 |].
    intros E. apply Hne. rewrite Forall_forall in H2. symmetry. eapply key_inj; eauto.
  - intros k Hk. destruct (decide (k = key r)) as [-> | Hne].
    + by rewrite lookup_delete_eq.
    + rewrite lookup_delete_ne by done. apply H4. intros r' Hr' <-.
      apply (Hk r'); [| done]. apply list_elem_of_filter. split; [congruence | done].
Qed.

Lemma filter_ne_absent (l : list RouteSpec) r : r ∉ l -> filter (fun o => o <> r) l = l.
Proof.
  induction l as [| x l IH]; [done |]. intros [Hx Hl]%not_elem_of_cons.
  rewrite filter_cons_True by congruence. by rewrite IH.
Qed.

Lemma filter_ne_middle (pre rest : list RouteSpec) r :
  NoDup (pre ++ r :: rest) -> filter (fun o => o <> r) (pre ++ r :: rest) = pre ++ rest.
Proof.
  intros (H1 & H2 & H3)%NoDup_app. apply NoDup_cons in H3 as [H3 H4].
  rewrite filter_app, filter_cons_False by (intros H; by apply H). f_equal.
  - apply filter_ne_absent. intros Hx. apply (H2 r Hx). apply elem_of_cons. by left.
  - by apply filter_ne_absent.
Qed.

(** Deleting an owned row. *)
Lemma rows_inv_drop tun base pre rest t r :
  rows_inv tun base (pre ++ r :: rest) t -> rows_inv tun base (pre ++ rest) (delete (key r) t).
Proof.
  intros H. assert (Hr : r ∈ pre ++ r :: rest) by (apply elem_of_app; right; by apply elem_of_cons; left).
  pose proof (ri_owned _ _ _ _ H _ Hr) as [Hb _].
  pose proof (ri_canonical _ _ _ _ H) as Hc. rewrite Forall_forall in Hc.
  rewrite <- (filter_ne_middle pre rest r) by apply (ri_nodup _ _ _ _ H). by apply rows_inv_delete; [| apply Hc |].
Qed.

(** A field: restored to its first value, or never changed. *)
Definition field_ok (p : option bool) (current original : bool) : Prop :=
  match p with Some v => v = original | None => current = original end.

Definition restores (p : InterfacePatch) (c o : InterfaceSettings) : Prop :=
  field_ok (p_forwarding p) (forwarding c) (forwarding o) /\
  field_ok (p_weak_host_send p) (weak_host_send c) (weak_host_send o) /\
  field_ok (p_weak_host_receive p) (weak_host_receive c) (weak_host_receive o).

Definition snap_luid (x : InterfaceSnapshot) : Z := luid (target x).

Record settings_inv (base : gmap Z InterfaceSettings) (snaps : list InterfaceSnapshot)
    (t : gmap Z InterfaceSettings) : Prop := {
  si_nodup : NoDup (snap_luid <$> snaps);
  si_snap : forall x c, x ∈ snaps -> t !! snap_luid x = Some c ->
    base !! snap_luid x = Some (before x) /\ restores (restore x) c (before x);
  si_rest : forall l, (l ∉ snap_luid <$> snaps) -> t !! l = base !! l;
  si_dom : forall l, t !! l = None <-> base !! l = None }.

Lemma restores_patched p c o : restores p c o -> patched p c = o.
Proof.
  destruct c, o, p as [[] [] []]; unfold restores, field_ok; simpl; intros (-> & -> & ->); reflexivity.
Qed.

Lemma restores_default c : restores default_patch c c.
Proof. repeat split. Qed.

Lemma restores_empty p c o : patch_is_empty p = true -> restores p c o -> c = o.
Proof.
  destruct p as [[] [] []]; try done. intros _ (H1 & H2 & H3). destruct c, o. simpl in *. congruence.
Qed.

(** Patching keeps the promise of the merged patch; a failed patch too. *)
Lemma restores_merge p q c o : restores p c o -> restores (merge_owned p q o) (patched q c) o.
Proof. destruct p as [[] [] []], q as [[] [] []]; unfold restores, field_ok; simpl; intuition. Qed.

Lemma restores_merge_failed p q c o : restores p c o -> restores (merge_owned p q o) c o.
Proof. destruct p as [[] [] []], q as [[] [] []]; unfold restores, field_ok; simpl; intuition. Qed.

Lemma settings_inv_nil base t : settings_inv base [] t -> t = base.
Proof. intros [_ _ H _]. apply map_eq. intros l. apply H. apply not_elem_of_nil. Qed.

Lemma settings_inv_start base : settings_inv base [] base.
Proof. split; [constructor | intros ? ? Hx; by apply not_elem_of_nil in Hx | done | done]. Qed.

#[export] Instance settings_inv_perm base : Proper ((≡ₚ) ==> (=) ==> iff) (settings_inv base).
Proof.
  assert (G : forall l l' t, l ≡ₚ l' -> settings_inv base l t -> settings_inv base l' t).
  { intros l l' t P [H1 H2 H3 H4]. split; [| | | done].
    - by rewrite <- P.
    - intros x c Hx. apply H2. by rewrite P.
    - intros k Hk. apply H3. by rewrite P. }
  intros l l' P t ? <-. split; apply G; [done | by symmetry].
Qed.

(** Taking the snapshot of an interface that is there. *)
Lemma settings_inv_ensure base snaps t tg c :
  settings_inv base snaps t -> t !! luid tg = Some c -> settings_inv base (ensure_snapshot tg c snaps) t.
Proof.
  intros H Hc. unfold ensure_snapshot. case_bool_decide as E; [done |]. destruct H as [H1 H2 H3 H4].
  assert (E' : luid tg ∉ snap_luid <$> snaps) by done. split; [| | | done].
  - rewrite fmap_app. apply NoDup_app. split; [done | split; [| apply NoDup_singleton]].
    intros x Hx Hx'. apply list_elem_of_singleton in Hx' as ->. done.
  - intros x c' [Hx | Hx]%elem_of_app; [by apply H2 |].
    apply list_elem_of_singleton in Hx as ->. unfold snap_luid. simpl. intros Hc'.
    rewrite Hc in Hc'. simplify_eq. split; [by rewrite <- H3 | apply restores_default].
  - intros l Hl. apply H3. intros Hl'. apply Hl. rewrite fmap_app. apply elem_of_app. by left.
Qed.

Lemma own_patch_luids l q snaps : snap_luid <$> own_patch l q snaps = snap_luid <$> snaps.
Proof.
  induction snaps as [| x snaps IH]; [done |]. cbn [own_patch].
  case_match; rewrite !fmap_cons; [done | by rewrite IH].
Qed.

Lemma own_patch_spec l q snaps x :
  NoDup (snap_luid <$> snaps) -> x ∈ own_patch l q snaps ->
  (x ∈ snaps /\ snap_luid x <> l) \/
  exists y, y ∈ snaps /\ snap_luid y = l /\
    x = mkSnapshot (target y) (before y) (merge_owned (restore y) q (before y)).
Proof.
  induction snaps as [| y snaps IH]; simpl; [intros _ Hx; by apply not_elem_of_nil in Hx |].
  intros [Hy Hn]%NoDup_cons. destruct (Z.eqb_spec (luid (target y)) l) as [E | E].
  - intros [-> | Hx]%elem_of_cons; [right; exists y; by rewrite elem_of_cons; auto |].
    left. split; [apply elem_of_cons; by right |]. intros Hx'. apply Hy. unfold snap_luid at 1. rewrite E, <- Hx'.
    apply list_elem_of_fmap. eauto.
  - intros [-> | Hx]%elem_of_cons; [left; split; [apply elem_of_cons; by left | done] |].
    destruct (IH Hn Hx) as [[Hx1 Hx2] | (z & Hz & Hz1 & Hz2)]; [left | right; exists z];
      rewrite elem_of_cons; auto.
Qed.

(** Patching a tracked interface, or failing to. *)
Lemma settings_inv_patch base snaps t l q (ok : bool) :
  settings_inv base snaps t -> l ∈ snap_luid <$> snaps ->
  settings_inv base (own_patch l q snaps) (if ok then alter (patched q) l t else t).
Proof.
  intros [H1 H2 H3 H4] Hl.
  assert (L : forall k c, (if ok then alter (patched q) l t else t) !! k = Some c ->
    exists c0, t !! k = Some c0 /\ (c = c0 \/ k = l /\ c = patched q c0) /\ (k <> l -> c = c0)).
  { intros k c. destruct ok; [| eauto]. destruct (decide (k = l)) as [-> | Hne].
    - rewrite lookup_alter_eq. intros (c0 & Hc & ->)%fmap_Some. exists c0. split; [done | split; [auto | done]].
    - rewrite lookup_alter_ne by done. eauto. }
  split.
  - by rewrite own_patch_luids.
  - intros x c Hx (c0 & Hc & Hor & Hne)%L.
    destruct (own_patch_spec l q snaps x H1 Hx) as [[Hx1 Hx2] | (y & Hy & Hy1 & ->)].
    + rewrite Hne by done. by apply H2.
    + destruct (H2 y c0 Hy) as [Hb Hr]; [exact Hc |]. split; [done |]. cbn [restore before].
      destruct Hor as [-> | [_ ->]]; [by apply restores_merge_failed | by apply restores_merge].
  - intros k Hk. rewrite own_patch_luids in Hk. rewrite <- H3 by done.
    destruct ok; [| done]. apply lookup_alter_ne. congruence.
  - intros k. rewrite <- H4. destruct ok; [| done]. destruct (decide (k = l)) as [-> | Hne].
    + rewrite lookup_alter_eq. destruct (t !! l); simpl; split; congruence.
    + by rewrite lookup_alter_ne.
Qed.

(** Restoring an interface, or finding it gone. *)
Lemma settings_inv_restore base pre x rest t :
  settings_inv base (pre ++ x :: rest) t ->
  settings_inv base (pre ++ rest) (alter (patched (restore x)) (snap_luid x) t).
Proof.
  intros [H1 H2 H3 H4].
  assert (Hx : x ∈ pre ++ x :: rest) by (apply elem_of_app; right; apply elem_of_cons; by left).
  rewrite fmap_app, fmap_cons in H1. apply NoDup_app in H1 as (N1 & N2 & N3). apply NoDup_cons in N3 as [N3 N4].
  assert (Hnot : snap_luid x ∉ snap_luid <$> (pre ++ rest)).
  { rewrite fmap_app. intros [Hp | Hr]%elem_of_app; [| done]. apply (N2 _ Hp). apply elem_of_cons. by left. }
  split.
  - rewrite fmap_app. apply NoDup_app. split; [done | split; [| done]].
    intros k Hk Hk'. apply (N2 k Hk). apply elem_of_cons. by right.
  - intros y c Hy. rewrite lookup_alter_ne.
    + apply H2. apply elem_of_app. rewrite elem_of_cons. apply elem_of_app in Hy. tauto.
    + intros E. apply Hnot. rewrite E. apply list_elem_of_fmap. eauto.
  - intros k Hk. destruct (decide (k = snap_luid x)) as [-> | Hne].
    + rewrite lookup_alter_eq. destruct (t !! snap_luid x) as [c |] eqn:Ec.
      * destruct (H2 x c Hx Ec) as [-> Hr]. simpl. by rewrite (restores_patched _ _ _ Hr).
      * symmetry. by apply H4.
    + rewrite lookup_alter_ne by done. apply H3. rewrite fmap_app, fmap_cons, elem_of_app, elem_of_cons.
      rewrite fmap_app, elem_of_app in Hk. tauto.
  - intros k. rewrite <- H4. destruct (decide (k = snap_luid x)) as [-> | Hne].
    + rewrite lookup_alter_eq. destruct (t !! snap_luid x); simpl; split; congruence.
    + by rewrite lookup_alter_ne.
Qed.

Lemma settings_inv_skip base pre x rest t :
  settings_inv base (pre ++ x :: rest) t ->
  t !! snap_luid x = None \/ patch_is_empty (restore x) = true -> settings_inv base (pre ++ rest) t.
Proof.
  intros H Hor. pose proof (settings_inv_restore _ _ _ _ _ H) as G.
  assert (E : alter (patched (restore x)) (snap_luid x) t = t); [| by rewrite E in G].
  apply map_eq. intros k. destruct (decide (k = snap_luid x)) as [-> | Hne]; [| by rewrite lookup_alter_ne].
  rewrite lookup_alter_eq. destruct (t !! snap_luid x) as [c |] eqn:Ec; [| done]. simpl. f_equal.
  destruct Hor as [? | Hp]; [done |]. destruct (restore x) as [[] [] []]; try done. by destruct c.
Qed.

Definition dns_inv (tun : Z) (base : gmap Z string) (b : option string) (changed : bool) (t : gmap Z string) : Prop :=
  base !! tun = b /\ (changed = false -> t = base) /\ forall l, l <> tun -> t !! l = base !! l.

(** Everything that differs from [base] is in the record. *)
Record owns (base : View) (r : InstallRecord) (v : View) : Prop := {
  o_rows : rows_inv (tun_luid r) (rows base) (owned_routes r) (rows v);
  o_settings : settings_inv (ifs base) (interface_snapshots r) (ifs v);
  o_servers : dns_inv (tun_luid r) (servers base) (dns_before r) (dns_changed r) (servers v) }.

(** The part of the record that only an installation writes. *)
Definition same_session (r r' : InstallRecord) : Prop :=
  tun_luid r' = tun_luid r /\ dns_before r' = dns_before r /\ dns_changed r' = dns_changed r /\
  removed r' = removed r.

Lemma owns_routes base r r' v v' :
  owns base r v -> rows_only v v' -> same_session r r' -> interface_snapshots r' = interface_snapshots r ->
  rows_inv (tun_luid r) (rows base) (owned_routes r') (rows v') -> owns base r' v'.
Proof.
  intros [H1 H2 H3] [E1 E2] (S1 & S2 & S3 & S4) S5 H. split; rewrite ?S1, ?S2, ?S3, ?S5, ?E1, ?E2; done.
Qed.

Lemma owns_settings base r snaps v v' :
  owns base r v -> ifs_only v v' -> settings_inv (ifs base) snaps (ifs v') ->
  owns base (set_snapshots snaps r) v'.
Proof. intros [H1 H2 H3] [E1 E2] H. split; simpl; rewrite ?E1, ?E2; done. Qed.

(** ** The physical route *)

Lemma better_irrefl x : better x x = false.
Proof. unfold better. rewrite !Z.ltb_irrefl, andb_false_r. reflexivity. Qed.

Definition pick (acc : option (RouteSpec * Z)) (x : RouteSpec * Z) : option (RouteSpec * Z) :=
  match acc with
  | Some best => if better x best then Some x else acc
  | None => Some x
  end.

Lemma pick_best l : forall acc,
  match foldl pick acc l with
  | Some b => (acc = Some b \/ b ∈ l) /\ (forall x, x ∈ l -> better x b = false) /\
      (forall a, acc = Some a -> better a b = false)
  | None => acc = None /\ l = []
  end.
Proof.
  induction l as [| x l IH]; intros acc; cbn [foldl].
  { destruct acc as [a |]; [| done]. split; [by left | split; [intros ? Hx; by apply not_elem_of_nil in Hx |]].
    intros ? [= <-]. apply better_irrefl. }
  specialize (IH (pick acc x)). destruct (foldl pick (pick acc x) l) as [b |].
  2:{ destruct IH as [IH _]. unfold pick in IH. repeat case_match; done. }
  destruct IH as (I1 & I2 & I3).
  assert (Hx : better x b = false).
  { unfold pick in I3. destruct acc as [a |]; [| by apply I3]. destruct (better x a) eqn:E; [by apply I3 |].
    specialize (I3 a eq_refl). unfold better in *. lia. }
  split; [| split].
  - rewrite elem_of_cons. unfold pick in I1. destruct acc as [a |]; [destruct (better x a) |];
      destruct I1 as [I1 | I1]; simplify_eq; auto.
  - intros y [-> | Hy]%elem_of_cons; [done | by apply I2].
  - intros a ->. unfold pick in I3. destruct (better x a) eqn:E; [| by apply I3].
    specialize (I3 x eq_refl). unfold better in *. lia.
Qed.

Lemma select_physical_route_spec routes dst tun owned p :
  select_physical_route routes dst tun owned = Some p ->
  exists m, (p, m) ∈ routes /\ usable dst tun owned (p, m) /\
    forall x, x ∈ routes -> usable dst tun owned x -> better x (p, m) = false.
Proof.
  unfold select_physical_route. change (foldl _ None ?l) with (foldl pick None l).
  pose proof (pick_best (filter (usable dst tun owned) routes) None) as P.
  destruct (foldl pick None _) as [[q m] |]; [| done]. intros [= ->].
  destruct P as ([P | P] & Q & _); [done |]. apply list_elem_of_filter in P as [P1 P2].
  exists m. split; [done | split; [done |]]. intros x Hx Hu. apply Q. by apply list_elem_of_filter.
Qed.

Lemma select_physical_route_none routes dst tun owned x :
  select_physical_route routes dst tun owned = None -> x ∈ routes -> ~ usable dst tun owned x.
Proof.
  unfold select_physical_route. change (foldl _ None ?l) with (foldl pick None l).
  pose proof (pick_best (filter (usable dst tun owned) routes) None) as P.
  destruct (foldl pick None _); [done |]. destruct P as [_ P]. intros _ Hx Hu.
  apply (not_elem_of_nil x). rewrite <- P. by apply list_elem_of_filter.
Qed.

(** A bypass never leads into the TUN. *)
Definition is_bypass (tun : Z) (r : RouteSpec) : Prop :=
  interface_luid r <> tun /\ metric r = BYPASS_ROUTE_METRIC /\ hop_wf (next_hop r).

Lemma is_bypass_canonical tun r : is_bypass tun r -> canonical tun r.
Proof. intros (H1 & H2 & H3). split; [| done]. rewrite H2. by destruct (Z.eqb_spec (interface_luid r) tun). Qed.

#[local] Hint Resolve is_bypass_canonical : rs.

Lemma selected_is_bypass routes dst tun owned p d :
  Forall (fun x => hop_wf (next_hop x.1)) routes -> select_physical_route routes dst tun owned = Some p ->
  metric d = BYPASS_ROUTE_METRIC -> is_bypass tun (refreshed d p).
Proof.
  intros Hf (m & Hm & (Hu & _) & _)%select_physical_route_spec Hd. rewrite Forall_forall in Hf.
  split; [done | split; [done | by apply (Hf _ Hm)]].
Qed.

Section operations.
Context {S : Type} `{NL : NetworkLaws S}.
Variables (base : View) (tun : Z).

(** ** Forwarding settings *)

Lemma reconcile_targets_owns ts : forall unique snaps s res snaps' s',
  reconcile_targets ts unique snaps s = (res, snaps', s') ->
  settings_inv (ifs base) snaps (ifs (view s)) ->
  res <> Panic /\ ifs_only (view s) (view s') /\ settings_inv (ifs base) snaps' (ifs (view s')).
Proof.
  induction ts as [| t ts IH]; intros unique snaps s res snaps' s'; cbn [reconcile_targets].
  { intros [= <- <- <-] H. done. }
  case_bool_decide as Hu; [apply IH |].
  destruct (interface_settings (luid t) s) as [res1 s1] eqn:E1.
  destruct (settings_reads _ _ _ _ E1) as [V1 N1]. destruct res1 as [c | e |]; [| | done].
  - pose proof (settings_law _ _ _ _ E1) as L. intros H0 Hs.
    assert (Hs1 : settings_inv (ifs base) (ensure_snapshot t c snaps) (ifs (view s1))).
    { rewrite V1. by apply settings_inv_ensure. }
    destruct (patch_is_empty _).
    { apply IH in H0 as (A & B & C); [| done]. rewrite <- V1. done. }
    assert (Hin : luid t ∈ snap_luid <$> ensure_snapshot t c snaps).
    { unfold ensure_snapshot. case_bool_decide; [done |]. rewrite fmap_app. apply elem_of_app. right.
      by apply list_elem_of_singleton. }
    destruct (apply_interface_patch _ _ s1) as [res2 s2] eqn:E2. pose proof (patch_law _ _ _ _ _ E2) as L2.
    pose proof (fun b => settings_inv_patch _ _ _ (luid t) (required_interface_patch (role t) c) b Hs1 Hin) as P.
    destruct res2 as [[] | e |]; [| | done].
    + apply IH in H0 as (A & B & C); [split; [done | split; [| done]] | rewrite L2; apply (P true)].
      etrans; [| exact B]. rewrite L2, <- V1. apply ifs_only_upd.
    + destruct L2 as [L2 _]. simplify_eq. split; [done | split; [apply ifs_only_eq; congruence |]].
      rewrite L2. apply (P false).
  - destruct (_ && _).
    + rewrite <- V1. apply IH.
    + intros [= <- <- <-] H. rewrite V1. done.
Qed.

Lemma reconcile_interface_settings_owns tg snaps s res snaps' s' :
  reconcile_interface_settings tg snaps s = (res, snaps', s') ->
  settings_inv (ifs base) snaps (ifs (view s)) ->
  res <> Panic /\ ifs_only (view s) (view s') /\ settings_inv (ifs base) snaps' (ifs (view s')).
Proof.
  unfold reconcile_interface_settings. destruct (wsl_hns_interfaces s) as [res1 s1] eqn:E1.
  destruct (wsl_reads _ _ _ E1) as [V1 N1]. destruct res1 as [l | e |]; [| | done].
  - rewrite <- V1. apply reconcile_targets_owns.
  - intros [= <- <- <-] H. rewrite V1. done.
Qed.

(** ** Routes *)

Lemma claim_route_owns r owned s res owned' s' :
  claim_route r owned s = (res, owned', s') ->
  rows_inv tun (rows base) owned (rows (view s)) -> canonical tun r ->
  res <> Panic /\ rows_only (view s) (view s') /\ rows_inv tun (rows base) owned' (rows (view s')) /\
  owned' = owned ++ match res with Ok true => [r] | _ => [] end /\
  (forall b, res = Ok b -> is_Some (rows (view s') !! key r)).
Proof.
  unfold claim_route. destruct (create_route r s) as [res1 s1] eqn:E1.
  pose proof (create_law _ _ _ _ E1) as L. destruct res1 as [[] | e |]; [| | | done].
  - destruct L as [Ln Lv]. intros Hc Hi Hr.
    assert (Hk : is_Some (rows (view s1) !! key r)) by (rewrite Lv; simpl; rewrite lookup_insert_eq; eauto).
    case_bool_decide as Hx; simplify_eq; (split; [done | split; [rewrite Lv; apply rows_only_upd | split; [| split; [| done]]]]).
    + rewrite Lv. by apply rows_inv_recreate.
    + by rewrite app_nil_r.
    + rewrite Lv. by apply rows_inv_create.
    + done.
  - destruct L as [Lk Lv]. intros [= <- <- <-] H Hc. rewrite Lv, app_nil_r. done.
  - intros [= <- <- <-] H Hc. rewrite L, app_nil_r. done.
Qed.

Lemma retire_routes_owns d : forall owned pre s res owned' s',
  retire_routes tun d owned s = (res, owned', s') ->
  rows_inv tun (rows base) (pre ++ owned) (rows (view s)) ->
  res <> Panic /\ rows_only (view s) (view s') /\ rows_inv tun (rows base) (pre ++ owned') (rows (view s')) /\
  owned' ⊆ owned.
Proof.
  induction owned as [| o owned IH]; intros pre s res owned' s'; cbn [retire_routes].
  { intros [= <- <- <-] H. done. }
  destruct (superseded tun d o).
  - destruct (delete_route o s) as [res1 s1] eqn:E1. pose proof (delete_law _ _ _ _ E1) as L.
    destruct res1 as [[] | e |]; [| | done].
    + intros H Hi. apply (IH pre) in H as (A & B & C & D);
        [| rewrite L; by apply rows_inv_drop].
      split; [done | split; [etrans; [| exact B]; rewrite L; apply rows_only_upd | split; [done |]]].
      intros x Hx. apply elem_of_cons. right. by apply D.
    + intros [= <- <- <-] H. rewrite L. done.
  - destruct (retire_routes tun d owned s) as [[res1 owned1] s1] eqn:E1. intros [= <- <- <-] Hi.
    rewrite cons_middle, (assoc_L app) in Hi. apply (IH (pre ++ [o])) in E1 as (A & B & C & D); [| done].
    rewrite <- (assoc_L app) in C. split; [done | split; [done | split; [done |]]].
    intros x [-> | Hx]%elem_of_cons; apply elem_of_cons; auto.
Qed.

Lemma install_refreshed_owns routes r owned s res owned' s' :
  install_refreshed routes r owned s = (res, owned', s') ->
  rows_inv tun (rows base) owned (rows (view s)) -> canonical tun r ->
  res <> Panic /\ rows_only (view s) (view s') /\ rows_inv tun (rows base) owned' (rows (view s')) /\
  (forall x, x ∈ owned' -> x ∈ owned \/ x = r).
Proof.
  unfold install_refreshed. case_bool_decide as Eb; [intros [= <- <- <-] Hi Hc; split_and!; auto; done |].
  intros E Hi Hc. destruct (claim_route_owns _ _ _ _ _ _ E Hi Hc) as (A & B & C & D & _).
  split; [done | split; [done | split; [done |]]]. rewrite D. intros x [Hx | Hx]%elem_of_app; [by left |].
  right. destruct res as [[] | |]; try (by apply not_elem_of_nil in Hx). by apply list_elem_of_singleton in Hx.
Qed.

Lemma reconcile_desired_owns routes : Forall (fun x => hop_wf (next_hop x.1)) routes ->
  forall ds owned s res ds' owned' s',
  reconcile_desired routes tun ds owned s = (res, ds', owned', s') ->
  rows_inv tun (rows base) owned (rows (view s)) -> Forall (is_bypass tun) ds ->
  res <> Panic /\ rows_only (view s) (view s') /\ rows_inv tun (rows base) owned' (rows (view s')) /\
  Forall (is_bypass tun) ds' /\ (forall x, x ∈ owned' -> x ∈ owned \/ x ∈ ds').
Proof.
  intros Hf. induction ds as [| d ds IH]; intros owned s res ds' owned' s'; cbn [reconcile_desired].
  { intros [= <- <- <- <-] H _. split_and!; auto; done. }
  intros E Hi [Hd Hds]%Forall_cons.
  destruct (select_physical_route routes (destination d) tun owned) as [p |] eqn:Ep.
  2:{ destruct (reconcile_desired routes tun ds owned s) as [[[res1 ds1] owned1] s1] eqn:E1. simplify_eq.
      destruct (IH _ _ _ _ _ _ E1 Hi Hds) as (A & B & C & D & G).
      split_and!; try done; [by constructor |]. intros x Hx. rewrite elem_of_cons. destruct (G x Hx); auto. }
  assert (Hn : is_bypass tun (refreshed d p)) by (eapply selected_is_bypass; [done | done | apply Hd]).
  destruct (install_refreshed routes (refreshed d p) owned s) as [[res1 owned1] s1] eqn:E1.
  destruct (install_refreshed_owns _ _ _ _ _ _ _ E1 Hi (is_bypass_canonical _ _ Hn)) as (A1 & B1 & C1 & D1).
  assert (Hnew : forall x, x ∈ owned1 -> x ∈ owned \/ x ∈ refreshed d p :: ds).
  { intros x Hx. rewrite elem_of_cons. destruct (D1 x Hx); auto. }
  destruct res1 as [b | e |]; [| | done].
  2:{ simplify_eq. split_and!; try done; [by constructor |].
      unfold install_refreshed in E1. case_bool_decide as Eb; [done |].
      destruct (claim_route_owns _ _ _ _ _ _ E1 Hi (is_bypass_canonical _ _ Hn)) as (_ & _ & _ & -> & _).
      rewrite app_nil_r. auto. }
  destruct (retire_routes tun (refreshed d p) owned1 s1) as [[res2 owned2] s2] eqn:E2.
  destruct (retire_routes_owns _ _ [] _ _ _ _ E2 C1) as (A2 & B2 & C2 & D2).
  destruct res2 as [[] | e |]; [| | done].
  - destruct (reconcile_desired routes tun ds owned2 s2) as [[[res3 ds3] owned3] s3] eqn:E3. simplify_eq.
    destruct (IH _ _ _ _ _ _ E3 C2 Hds) as (A3 & B3 & C3 & D3 & G3).
    split_and!; try done; [etrans; [exact B1 | etrans; [exact B2 | exact B3]] | by constructor |].
    intros x Hx. rewrite elem_of_cons. destruct (G3 x Hx) as [Hx2 | Hx2]; [| by auto].
    destruct (D1 x (D2 x Hx2)); auto.
  - simplify_eq. split_and!; try done; [etrans; [exact B1 | exact B2] | by constructor |].
    intros x Hx. apply Hnew. by apply D2.
Qed.

Lemma rollback_rows_owns : forall routes owned s kept owned' s',
  rollback_rows routes owned s = (kept, owned', s') ->
  rows_inv tun (rows base) owned (rows (view s)) ->
  Forall (fun r => canonical tun r /\ rows base !! key r = None) routes ->
  rows_only (view s) (view s') /\ rows_inv tun (rows base) owned' (rows (view s')) /\
  kept ⊆ routes /\ owned' ⊆ owned.
Proof.
  induction routes as [| r routes IH]; intros owned s kept owned' s'; cbn [rollback_rows].
  { intros [= <- <- <-] H _. done. }
  intros E Hi [[Hc Hb] Hf]%Forall_cons. destruct (delete_route r s) as [res1 s1] eqn:E1.
  pose proof (delete_law _ _ _ _ E1) as L. destruct res1 as [[] | e |]; [| | done].
  - apply IH in E as (A & B & C & D); [| rewrite L; by apply rows_inv_delete | done].
    split_and!; [etrans; [| exact A]; rewrite L; apply rows_only_upd | done | |].
    + intros x Hx. apply elem_of_cons. right. by apply C.
    + intros x Hx. apply D in Hx. by apply list_elem_of_filter in Hx as [_ Hx].
  - destruct (rollback_rows routes owned s1) as [[kept1 owned1] s2] eqn:E2. simplify_eq.
    apply IH in E2 as (A & B & C & D); [| by rewrite L | done].
    split_and!; [etrans; [| exact A]; by apply rows_only_eq | done | | done].
    intros x [-> | Hx]%elem_of_cons; apply elem_of_cons; auto.
Qed.

Lemma plan_hosts_bypasses routes owned addresses : Forall (fun x => hop_wf (next_hop x.1)) routes ->
  forall planned planned', plan_hosts routes tun owned addresses planned = Ok planned' ->
  Forall (is_bypass tun) planned -> NoDup planned -> Forall (is_bypass tun) planned' /\ NoDup planned'.
Proof.
  intros Hf. induction addresses as [| a addresses IH]; intros planned planned'; cbn [plan_hosts].
  { intros [= <-]. done. }
  destruct (_ || _); [apply IH |]. destruct (select_physical_route routes a tun owned) as [p |] eqn:Ep; [| done].
  intros E Hp Hn. apply IH in E; [done | |]; case_bool_decide as Eb; try done.
  - apply Forall_app. split; [done |]. constructor; [| done].
    apply (selected_is_bypass _ _ _ _ _ (mkRoute a (host_prefix a) (next_hop p) 0 BYPASS_ROUTE_METRIC) Hf Ep eq_refl).
  - apply NoDup_app. split; [done | split; [| apply NoDup_singleton]].
    intros x Hx Hx'. apply list_elem_of_singleton in Hx' as ->. done.
Qed.

Lemma add_planned_owns : forall planned owned update s res owned' update' s',
  add_planned planned owned update s = (res, owned', update', s') ->
  rows_inv tun (rows base) owned (rows (view s)) -> Forall (is_bypass tun) planned ->
  exists new more, res <> Panic /\ rows_only (view s) (view s') /\
    rows_inv tun (rows base) owned' (rows (view s')) /\
    owned' = owned ++ new /\ added update' = added update ++ new /\
    desired update' = desired update ++ more /\ more ⊆ planned /\ new ⊆ planned.
Proof.
  induction planned as [| r planned IH]; intros owned update s res owned' update' s'; cbn [add_planned].
  { intros [= <- <- <- <-] H _. exists [], []. rewrite !app_nil_r. done. }
  intros E Hi [Hr Hf]%Forall_cons. destruct (claim_route r owned s) as [[res1 owned1] s1] eqn:E1.
  destruct (claim_route_owns _ _ _ _ _ _ E1 Hi (is_bypass_canonical _ _ Hr)) as (A & B & C & D & _).
  destruct res1 as [mine | e |]; [| | done].
  - destruct (IH _ _ _ _ _ _ _ E C Hf) as (new & more & A' & B' & C' & D' & G1 & G2 & G3 & G4).
    cbn [added desired] in *. exists ((if mine then [r] else []) ++ new), (r :: more).
    split_and!; [done | etrans; [exact B | exact B'] | done | | | | |].
    + rewrite D', D, <- (assoc_L app). by destruct mine.
    + rewrite G1. destruct mine; [by rewrite <- (assoc_L app) | done].
    + by rewrite G2, <- (assoc_L app).
    + intros x [-> | Hx]%elem_of_cons; apply elem_of_cons; auto.
    + intros x [Hx | Hx]%elem_of_app; apply elem_of_cons; [| auto].
      destruct mine; [left; by apply list_elem_of_singleton in Hx | by apply not_elem_of_nil in Hx].
  - simplify_eq. exists [], []. rewrite !app_nil_r in *. split_and!; try done; by intros x ?%not_elem_of_nil.
Qed.

(** ** Clean-up *)

Lemma delete_routes_owns : forall routes pre s fs failed s',
  delete_routes routes s = (fs, failed, s') ->
  rows_inv tun (rows base) (pre ++ routes) (rows (view s)) ->
  rows_only (view s) (view s') /\ rows_inv tun (rows base) (pre ++ failed) (rows (view s')) /\
  (fs = [] -> failed = []) /\ Forall (fun f => match f with DeleteFailed _ _ => True | _ => False end) fs.
Proof.
  induction routes as [| r routes IH]; intros pre s fs failed s'; cbn [delete_routes].
  { intros [= <- <- <-] H. done. }
  intros E Hi. destruct (delete_route r s) as [res1 s1] eqn:E1. pose proof (delete_law _ _ _ _ E1) as L.
  destruct res1 as [[] | e |]; [| | done].
  - apply (IH pre) in E as (A & B & C); [| rewrite L; by apply rows_inv_drop].
    split; [| done]. etrans; [| exact A]. rewrite L. apply rows_only_upd.
  - destruct (delete_routes routes s1) as [[fs1 failed1] s2] eqn:E2. simplify_eq.
    rewrite cons_middle, (assoc_L app) in Hi. rewrite <- L in Hi.
    apply (IH (pre ++ [r])) in E2 as (A & B & C & D); [| done]. rewrite <- (assoc_L app) in B.
    split_and!; [by rewrite <- L | done | done | by constructor].
Qed.

Lemma restore_snapshots_owns : forall snaps pre s fs failed s',
  restore_snapshots snaps s = (fs, failed, s') ->
  settings_inv (ifs base) (pre ++ snaps) (ifs (view s)) ->
  ifs_only (view s) (view s') /\ settings_inv (ifs base) (pre ++ failed) (ifs (view s')) /\
  (fs = [] -> failed = []).
Proof.
  induction snaps as [| x snaps IH]; intros pre s fs failed s'; cbn [restore_snapshots].
  { intros [= <- <- <-] H. done. }
  intros E Hi. destruct (patch_is_empty (restore x)) eqn:Ep.
  { apply (IH pre) in E; [done |]. eapply settings_inv_skip; eauto. }
  destruct (apply_interface_patch (luid (target x)) (restore x) s) as [res1 s1] eqn:E1.
  pose proof (patch_law _ _ _ _ _ E1) as L. destruct res1 as [[] | e |]; [| | done].
  - apply (IH pre) in E as (A & B & C); [| rewrite L; by apply settings_inv_restore].
    split; [| done]. etrans; [| exact A]. rewrite L. apply ifs_only_upd.
  - destruct L as [L Lm]. destruct (is_missing_interface_error e) eqn:Em; simpl in E.
    1: case_bool_decide as Er; [apply (IH pre) in E;
      [rewrite <- L; done | rewrite L; eapply settings_inv_skip; eauto] |].
    all: destruct (restore_snapshots snaps s1) as [[fs1 failed1] s2] eqn:E2; simplify_eq;
      rewrite cons_middle, (assoc_L app) in Hi; rewrite <- L in Hi;
      apply (IH (pre ++ [x])) in E2 as (A & B & C); [| done]; rewrite <- (assoc_L app) in B;
      split_and!; [by rewrite <- L | done | done].
Qed.

Lemma restore_dns_owns fs r s fs' r' s' :
  restore_dns fs r s = (fs', r', s') -> owns base r (view s) ->
  Forall (fun f => match f with DeleteFailed _ _ => True | _ => False end) fs ->
  owns base r' (view s') /\ owned_routes r' = owned_routes r /\ interface_snapshots r' = interface_snapshots r /\
  tun_luid r' = tun_luid r /\ removed r' = removed r /\
  (fs' = [] -> fs = [] /\ dns_changed r' = false).
Proof.
  unfold restore_dns. destruct (dns_changed r) eqn:Ec; [| by intros [= <- <- <-] H].
  intros E Ho Hf. destruct (set_dns (tun_luid r) (dns_before r) s) as [res1 s1] eqn:E1.
  pose proof (set_dns_law _ _ _ _ _ E1) as L. destruct Ho as [H1 H2 (H3 & H4 & H5)].
  destruct res1 as [[] | e |]; [| | done]; simplify_eq.
  - assert (Hl : match last fs' with Some (DnsFailed _) => true | _ => false end = false).
    { destruct (last fs') as [f |] eqn:El; [| done]. apply last_Some_elem_of in El.
      rewrite Forall_forall in Hf. specialize (Hf f El). by destruct f. }
    rewrite Hl. split; [| done]. split; simpl; rewrite L; [done | done |]. simpl. split; [done |].
    assert (Eq : partial_alter (fun _ => dns_before r) (tun_luid r) (servers (view s)) = servers base).
    { apply map_eq. intros l. destruct (decide (l = tun_luid r)) as [-> | Hne].
      - by rewrite lookup_partial_alter_eq.
      - rewrite lookup_partial_alter_ne by done. by apply H5. }
    rewrite Eq. done.
  - rewrite last_snoc. split_and!; try done; [| by intros [_ ?]%app_nil]. by split; rewrite L.
Qed.

Lemma owns_nothing r v :
  owns base r v -> owned_routes r = [] -> interface_snapshots r = [] -> dns_changed r = false -> v = base.
Proof.
  intros [H1 H2 (_ & H3 & _)] E1 E2 E3. rewrite E1 in H1. rewrite E2 in H2.
  apply rows_inv_nil in H1. apply settings_inv_nil in H2. specialize (H3 E3).
  destruct v, base. simpl in *. congruence.
Qed.

Lemma cleanup_transaction_owns r s res r' s' :
  cleanup_transaction r s = (res, r', s') -> owns base r (view s) -> removed r = false -> tun_luid r = tun ->
  match res with
  | Ok _ => view s' = base /\ removed r' = true /\ owned_routes r' = []
  | Err _ => owns base r' (view s') /\ removed r' = false /\ tun_luid r' = tun_luid r
  | Panic => False
  end.
Proof.
  unfold cleanup_transaction. intros E Ho Hr Ht. rewrite Hr in E.
  destruct (delete_routes (rev (owned_routes r)) s) as [[fs1 failed1] s1] eqn:E1.
  destruct (delete_routes_owns _ [] _ _ _ _ E1) as (A1 & B1 & C1 & D1).
  { simpl. rewrite <- Permutation_rev, <- Ht. apply Ho. }
  destruct (restore_dns fs1 _ s1) as [[fs2 r2] s2] eqn:E2.
  destruct (restore_dns_owns _ _ _ _ _ _ E2) as (A2 & B2 & C2 & D2 & F2 & G2); [| done |].
  { eapply owns_routes; [exact Ho | exact A1 | done | done |]. simpl. by rewrite <- Permutation_rev, Ht. }
  destruct (restore_snapshots (rev (interface_snapshots r2)) s2) as [[fs3 failed3] s3] eqn:E3.
  destruct (restore_snapshots_owns _ [] _ _ _ _ E3) as (A3 & B3 & C3).
  { simpl. rewrite <- Permutation_rev. apply A2. }
  assert (Ho3 : owns base (set_snapshots (rev failed3) r2) (view s3)).
  { eapply owns_settings; [exact A2 | exact A3 |]. by rewrite <- Permutation_rev. }
  destruct (fs2 ++ fs3) as [| f fs] eqn:Ef; simplify_eq.
  - apply app_nil in Ef as [-> ->]. destruct (G2 eq_refl) as [-> Hd]. rewrite C1 in B2 by done.
    split; [| done]. eapply owns_nothing; [exact Ho3 | done | by rewrite C3 | done].
  - split; [| done]. destruct Ho3. by split.
Qed.
End operations.
End lost.

Arguments ri_nodup {lost}.
Arguments ri_canonical {lost}.
Arguments ri_owned {lost}.
Arguments ri_rest {lost}.
Arguments rows_inv_create {lost}.
Arguments o_rows {lost}.
Arguments o_settings {lost}.
Arguments o_servers {lost}.
Arguments owns_routes {lost}.
Arguments owns_settings {lost}.
Arguments claim_route_owns {lost S _ _}.
Arguments reconcile_desired_owns {lost S _ _}.
Arguments rollback_rows_owns {lost S _ _}.
Arguments add_planned_owns {lost S _ _}.
Arguments cleanup_transaction_owns {lost S _ _}.

#[export] Hint Resolve is_bypass_canonical : rs.

#[local] Hint Resolve is_bypass_canonical : rs.

(** A row that is not in the table is not one of the session, if none was lost. *)
Lemma rows_inv_fresh tun base owned t r : rows_inv ∅ tun base owned t -> t !! key r = None -> r ∉ owned.
Proof. intros H Hn Hr. apply (ri_owned _ _ _ _ H) in Hr as [_ [Hr | [[]%not_elem_of_empty _]]]. congruence. Qed.
End WindowsConfigProofs.
