(* ===== verification/WindowsSession.v ===== *)
(** * Windows network configuration: a whole session

    The installation, the monitor with its live updates, changes made by others
    in the meantime, and the removal, against the laws of [NetworkLaws].  A
    machine with scripted faults is the instance of the witnesses. *)

From S2P Require Import Prelude Net WindowsConfig WindowsConfigProofs.

Module WindowsSession.
Import WindowsConfig WindowsConfigProofs.

(** ** Steps of a session *)

(** Routes the session may still delete. *)
Definition claimed (m : Monitor) : list RouteSpec := owned_routes (record m) ++ rollback_routes m.

(** A change by someone else, to the machine and to what it would be without
    this session.  Others may add routes, except where one of the session's own
    rows was or is, and delete any, also the session's; change the settings of
    interfaces the session has no snapshot of, and overwrite those fields of the
    others that the session has taken over; let interfaces come and go; and set
    every DNS server, also the adapter's once the session has set it. *)
Inductive foreign_change (m : Monitor) (base v : View) : View -> View -> Prop :=
  | route_added k n : rows v !! k = None -> (k ∉ key <$> claimed m) ->
      foreign_change m base v (upd_rows <[k := n]> base) (upd_rows <[k := n]> v)
  | route_removed k :
      foreign_change m base v (upd_rows (delete k) base) (upd_rows (delete k) v)
  | interface_set l c : (l ∉ snap_luid <$> interface_snapshots (record m)) ->
      foreign_change m base v (upd_ifs <[l := c]> base) (upd_ifs <[l := c]> v)
  | setting_overwritten x c p : x ∈ interface_snapshots (record m) -> ifs v !! snap_luid x = Some c ->
      (is_Some (p_forwarding p) -> is_Some (p_forwarding (restore x))) ->
      (is_Some (p_weak_host_send p) -> is_Some (p_weak_host_send (restore x))) ->
      (is_Some (p_weak_host_receive p) -> is_Some (p_weak_host_receive (restore x))) ->
      foreign_change m base v base (upd_ifs <[snap_luid x := patched p c]> v)
  | interface_gone l :
      foreign_change m base v (upd_ifs (delete l) base) (upd_ifs (delete l) v)
  | server_set l n : l <> tun_luid (record m) ->
      foreign_change m base v (upd_servers (partial_alter (fun _ => n) l) base)
        (upd_servers (partial_alter (fun _ => n) l) v)
  | adapter_server_set n : dns_changed (record m) = true ->
      foreign_change m base v base (upd_servers (partial_alter (fun _ => n) (tun_luid (record m))) v).

Section session.
Context {S : Type} `{NL : NetworkLaws S}.

Record World := mkWorld { w_base : View; w_mon : Monitor; w_state : S }.

Inductive step (tgt : InterfaceTarget) : World -> World -> Prop :=
  | step_turn c b m s o go m' s' :
      monitor_turn tgt c m s = (o, go, m', s') -> step tgt (mkWorld b m s) (mkWorld b m' s')
  | step_foreign b m s b' s' :
      foreign_change m b (view s) b' (view s') -> step tgt (mkWorld b m s) (mkWorld b' m s').

(** ** The invariant of the monitor *)

Record live (lost : gset RouteKey) (base : View) (m : Monitor) (v : View) : Prop := {
  l_owns : owns lost base (record m) v;
  l_removed : removed (record m) = false;
  l_desired : Forall (is_bypass (tun_luid (record m))) (desired_bypasses (record m));
  l_rollback : Forall (fun r => canonical (tun_luid (record m)) r /\ rows base !! key r = None) (rollback_routes m);
  l_pending : forall u, pending m = Some u -> rollback_routes m = [] /\ added u ⊆ owned_routes (record m) /\
    Forall (is_bypass (tun_luid (record m))) (desired u) }.

Arguments l_owns {lost}.
Arguments l_removed {lost}.

Lemma owned_claim {lost} base r v x :
  owns lost base r v -> x ∈ owned_routes r -> canonical (tun_luid r) x /\ rows base !! key x = None.
Proof.
  intros [H _ _] Hx. split; [| by apply (ri_owned _ _ _ _ H)].
  pose proof (ri_canonical _ _ _ _ H) as Hc. rewrite Forall_forall in Hc. auto.
Qed.

Lemma rollback_upstream_owns {lost} base r routes s r' kept s' :
  rollback_upstream_bypasses r routes s = (r', kept, s') -> owns lost base r (view s) ->
  Forall (fun x => canonical (tun_luid r) x /\ rows base !! key x = None) routes ->
  owns lost base r' (view s') /\ rows_only (view s) (view s') /\ kept ⊆ routes /\ owned_routes r' ⊆ owned_routes r /\
  same_session r r' /\ desired_bypasses r' = desired_bypasses r /\ interface_snapshots r' = interface_snapshots r.
Proof.
  unfold rollback_upstream_bypasses. intros E Ho Hf.
  destruct (rollback_rows routes (owned_routes r) s) as [[kept1 owned1] s1] eqn:E1. simplify_eq.
  destruct (rollback_rows_owns base _ _ _ _ _ _ _ E1 (o_rows _ _ _ Ho) Hf) as (A & B & C & D).
  split_and!; try done. by eapply owns_routes.
Qed.

Lemma add_upstream_owns {lost} base r addresses u s res r' u' s' :
  add_upstream_bypasses r addresses u s = (res, r', u', s') -> owns lost base r (view s) -> removed r = false ->
  exists new more, res <> Panic /\ owns lost base r' (view s') /\ rows_only (view s) (view s') /\
    r' = set_owned (owned_routes r ++ new) r /\ added u' = added u ++ new /\ desired u' = desired u ++ more /\
    Forall (is_bypass (tun_luid r)) new /\ Forall (is_bypass (tun_luid r)) more.
Proof.
  unfold add_upstream_bypasses. intros E Ho Hr. rewrite Hr in E.
  assert (Hnil : set_owned (owned_routes r ++ []) r = r) by (rewrite app_nil_r; by destruct r).
  destruct (physical_routes s) as [res1 s1] eqn:E1. destruct (physical_routes_reads _ _ _ E1) as [V N].
  destruct res1 as [routes | e |]; [| | done].
  2:{ simplify_eq. exists [], []. rewrite !Hnil, !app_nil_r, V. done. }
  pose proof (physical_hops _ _ _ E1) as Hh.
  destruct (plan_hosts routes (tun_luid r) (owned_routes r) addresses []) as [planned | e |] eqn:E2.
  - destruct (plan_hosts_bypasses (tun_luid r) _ _ _ Hh _ _ E2) as [Hp _]; [constructor | constructor |].
    destruct (add_planned planned (owned_routes r) u s1) as [[[res2 owned2] u2] s2] eqn:E3. simplify_eq.
    destruct (add_planned_owns (lost := lost) base (tun_luid r) _ _ _ _ _ _ _ _ E3) as (new & more & A & B & C & D & F & G & I & J);
      [rewrite V; apply Ho | done |].
    rewrite Forall_forall in Hp. exists new, more. rewrite V in B. split_and!; try done.
    + by eapply owns_routes.
    + by rewrite D.
    + apply Forall_forall. auto.
    + apply Forall_forall. auto.
  - simplify_eq. exists [], []. rewrite !Hnil, !app_nil_r, V. done.
  - exfalso. clear -E2. revert E2. generalize (@nil RouteSpec).
    induction addresses as [| a l IH]; intros p; simpl; [done |]. destruct (_ || _); [apply IH |].
    destruct (select_physical_route _ _ _ _); [apply IH | done].
Qed.

Lemma reconcile_bypass_owns {lost} base r s res r' s' :
  reconcile_bypass_routes r s = (res, r', s') -> owns lost base r (view s) ->
  Forall (is_bypass (tun_luid r)) (desired_bypasses r) ->
  owns lost base r' (view s') /\ same_session r r' /\ Forall (is_bypass (tun_luid r)) (desired_bypasses r').
Proof.
  unfold reconcile_bypass_routes. intros E Ho Hd. destruct (physical_routes s) as [res1 s1] eqn:E1.
  destruct (physical_routes_reads _ _ _ E1) as [V N]. destruct res1 as [routes | e |]; [| | done].
  2:{ simplify_eq. by rewrite V. }
  destruct (reconcile_desired _ _ _ _ s1) as [[[res2 ds] owned] s2] eqn:E2. simplify_eq.
  destruct (reconcile_desired_owns (lost := lost) base (tun_luid r) _ (physical_hops _ _ _ E1) _ _ _ _ _ _ _ E2)
    as (A & B & C & D & _); [rewrite V; apply Ho | done |]. rewrite V in B.
  split; [| done]. by eapply owns_routes.
Qed.

Lemma replace_desired_elem x route l : x ∈ replace_desired route l -> x = route \/ x ∈ l.
Proof.
  induction l as [| o l IH]; simpl.
  - intros Hx. left. by apply list_elem_of_singleton in Hx.
  - destruct (_ && _); rewrite !elem_of_cons; tauto.
Qed.

Lemma replace_all_bypasses tun u l :
  Forall (is_bypass tun) u -> Forall (is_bypass tun) l ->
  Forall (is_bypass tun) (foldl (fun l route => replace_desired route l) l u).
Proof.
  intros Hu. revert l. induction Hu as [| x u Hx _ IH]; intros l Hl; [done |]. cbn [foldl]. apply IH.
  rewrite Forall_forall in *. intros y Hy. apply replace_desired_elem in Hy as [-> | Hy]; auto.
Qed.

Lemma same_session_tun r r' : same_session r r' -> tun_luid r' = tun_luid r.
Proof. by intros [? _]. Qed.

Lemma rollback_subset base tun (l l' : list RouteSpec) :
  l' ⊆ l -> Forall (fun r => canonical tun r /\ rows base !! key r = None) l ->
  Forall (fun r => canonical tun r /\ rows base !! key r = None) l'.
Proof. intros Hs Hf. rewrite Forall_forall in *. auto. Qed.

(** Retrying the roll-backs keeps the session live; while an update is pending
    there are none. *)
Lemma live_rollback {lost} base m s r' kept s' :
  live lost base m (view s) -> rollback_upstream_bypasses (record m) (rollback_routes m) s = (r', kept, s') ->
  live lost base (mkMonitor r' (pending m) kept) (view s') /\ tun_luid r' = tun_luid (record m) /\
  interface_snapshots r' = interface_snapshots (record m).
Proof.
  intros [H1 H2 H3 H4 H5] E.
  destruct (rollback_upstream_owns base _ _ _ _ _ _ E H1 H4) as (A & _ & C & D & (F1 & F2 & F3 & F4) & G & I).
  split; [| done]. split; cbn [record pending rollback_routes].
  - done.
  - congruence.
  - by rewrite F1, G.
  - rewrite F1. by eapply rollback_subset.
  - intros u Hu. destruct (H5 u Hu) as (E1 & E2 & E3). rewrite E1 in E.
    injection E as <- <- <-. split; [done |]. by destruct (record m).
Qed.

Lemma live_monitor_turn {lost} base tgt c m s o go m' s' :
  monitor_turn tgt c m s = (o, go, m', s') -> live lost base m (view s) ->
  live lost base m' (view s') /\ tun_luid (record m') = tun_luid (record m).
Proof.
  intros E H. destruct c as [| addresses [] | | |]; cbn [monitor_turn] in E.
  - simplify_eq. done.
  - simplify_eq. done.
  - destruct (rollback_upstream_bypasses _ _ s) as [[r1 kept] s1] eqn:E1.
    destruct (live_rollback _ _ _ _ _ _ H E1) as (H1 & Ht & _). destruct kept as [| k kept]; [| by simplify_eq].
    destruct (add_upstream_bypasses r1 addresses default_prepared s1) as [[[res r2] u] s2] eqn:E2. simplify_eq.
    destruct (add_upstream_owns base _ _ _ _ _ _ _ _ E2 (l_owns _ _ _ H1) (l_removed _ _ _ H1))
      as (new & more & _ & A & _ & -> & B & C & D & F).
    split; [| done]. split; cbn [record pending rollback_routes]; [done | apply H1 | apply H1 | constructor |].
    intros ? [= <-]. split; [done |]. rewrite B, C. split; [| done].
    intros x Hx. apply elem_of_app. by right.
  - destruct (pending m) as [u |] eqn:Eu; simplify_eq; [| done].
    destruct H as [H1 H2 H3 H4 H5]. destruct (H5 u Eu) as (G1 & G2 & G3). split; [| done]. split; simpl; try done.
    + by destruct H1.
    + by apply replace_all_bypasses.
  - assert (H' : live lost base (mkMonitor (record m) None (match pending m with
        | Some u => rollback_routes m ++ added u | None => rollback_routes m end)) (view s)).
    { destruct H as [H1 H2 H3 H4 H5]. split; try done. simpl. destruct (pending m) as [u |] eqn:Eu; [| done].
      destruct (H5 u eq_refl) as (-> & G2 & G3). apply Forall_forall. intros x Hx. eapply owned_claim; [done |]. by apply G2. }
    destruct (rollback_upstream_bypasses _ _ s) as [[r1 kept] s1] eqn:E1. simplify_eq.
    by destruct (live_rollback _ _ _ _ _ _ H' E1) as (H1 & Ht & _).
  - destruct (reconcile_interface_settings tgt _ s) as [[res snaps] s1] eqn:E1.
    destruct (reconcile_interface_settings_owns base _ _ _ _ _ _ E1 (o_settings _ _ _ (l_owns _ _ _ H))) as (_ & A & B).
    assert (H' : live lost base (mkMonitor (set_snapshots snaps (record m)) (pending m) (rollback_routes m)) (view s1)).
    { destruct H as [H1 H2 H3 H4 H5]. split; try done. by eapply owns_settings. }
    destruct (rollback_upstream_bypasses _ _ s1) as [[r2 kept] s2] eqn:E2.
    destruct (live_rollback _ _ _ _ _ _ H' E2) as (H2 & Ht & _). cbn [record pending rollback_routes] in *.
    destruct (pending m) as [u |]; [by simplify_eq |].
    destruct (reconcile_bypass_routes r2 s2) as [[res3 r3] s3] eqn:E3. simplify_eq.
    destruct H2 as [H2 H3 H4 H5 _].
    destruct (reconcile_bypass_owns base _ _ _ _ _ E3 H2 H4) as (C & (D1 & D2 & D3 & D4) & F).
    split; [| etrans; [exact D1 | exact Ht]]. split; cbn [record pending rollback_routes] in *; rewrite ?D1; try done. congruence.
Qed.

(** A route of somebody else. *)
Lemma live_route_added lost base m v k n :
  (k ∉ key <$> claimed m) -> live lost base m v -> live lost (upd_rows <[k := n]> base) m (upd_rows <[k := n]> v).
Proof.
  intros Hc [[[A B C D] H2 H3] Hr Hd Hb Hp].
  assert (K : forall r, r ∈ claimed m -> k <> key r) by (intros r Hr' ->; apply Hc, list_elem_of_fmap; eauto).
  split; [split; [split | |] | | | |]; try done; simpl.
  - intros r Hr'. rewrite !lookup_insert_ne by (apply K, elem_of_app; by left). by apply C.
  - intros k' Hk'. destruct (decide (k = k')) as [-> | Hne]; [by rewrite !lookup_insert_eq |].
    rewrite !lookup_insert_ne by done. by apply D.
  - rewrite Forall_forall in *. intros r Hr'. rewrite lookup_insert_ne by (apply K, elem_of_app; by right). by apply Hb.
Qed.

(** A row is deleted; one of the session's counts as lost. *)
Lemma live_route_removed lost base m v k :
  live lost base m v -> live (lost ∪ {[k]}) (upd_rows (delete k) base) m (upd_rows (delete k) v).
Proof.
  intros [[[A B C D] H2 H3] Hr Hd Hb Hp].
  assert (N : forall k', rows base !! k' = None -> delete k (rows base) !! k' = None).
  { intros k' Hk'. destruct (decide (k = k')) as [-> | Hne]; [apply lookup_delete_eq | by rewrite lookup_delete_ne]. }
  split; [split; [split | |] | | | |]; try done; simpl.
  - intros r Hr'. destruct (C r Hr') as [C1 C2]. split; [by apply N |]. destruct (decide (k = key r)) as [-> | Hne].
    + right. split; [set_solver | apply lookup_delete_eq].
    + rewrite lookup_delete_ne by done. destruct C2 as [C2 | [C2 C3]]; [by left | right; split; [set_solver | done]].
  - intros k' Hk'. destruct (decide (k = k')) as [-> | Hne]; [by rewrite !lookup_delete_eq |].
    rewrite !lookup_delete_ne by done. by apply D.
  - rewrite Forall_forall in *. intros r Hr'. split; [by apply Hb | by apply N, Hb].
Qed.

(** Overwriting what will be restored changes nothing of that. *)
Lemma restores_overwritten p q c o :
  restores q c o -> (is_Some (p_forwarding p) -> is_Some (p_forwarding q)) ->
  (is_Some (p_weak_host_send p) -> is_Some (p_weak_host_send q)) ->
  (is_Some (p_weak_host_receive p) -> is_Some (p_weak_host_receive q)) -> restores q (patched p c) o.
Proof.
  destruct p as [x y z], q as [x' y' z'], c. unfold restores, field_ok. simpl. intros (H1 & H2 & H3) P1 P2 P3. split_and!.
  - destruct x' as [|], x as [|]; try done. by destruct P1.
  - destruct y' as [|], y as [|]; try done. by destruct P2.
  - destruct z' as [|], z as [|]; try done. by destruct P3.
Qed.

Lemma live_settings lost base m v i i' :
  settings_inv i (interface_snapshots (record m)) i' -> live lost base m v ->
  live lost (mkView (rows base) i (servers base)) m (mkView (rows v) i' (servers v)).
Proof. intros Hi [[H1 H2 H3] Hr Hd Hb Hp]. by split; [split | ..]. Qed.

Lemma snap_luid_inj l x y : NoDup (snap_luid <$> l) -> x ∈ l -> y ∈ l -> snap_luid x = snap_luid y -> x = y.
Proof.
  induction l as [| z l IH]; [by intros _ ?%not_elem_of_nil |]. cbn. intros [Hz Hn]%NoDup_cons Hx Hy E.
  apply elem_of_cons in Hx as [-> | Hx], Hy as [-> | Hy]; [done | | | auto]; destruct Hz; apply list_elem_of_fmap; eauto.
Qed.

Lemma settings_inv_foreign m base v base' v' :
  foreign_change m base v base' v' -> settings_inv (ifs base) (interface_snapshots (record m)) (ifs v) ->
  settings_inv (ifs base') (interface_snapshots (record m)) (ifs v').
Proof.
  intros F [A B C D]. destruct F as [k n Hk Hc | k | l c Hl | x c p Hx Hv P1 P2 P3 | l | l n Hl | n Hn]; split; try done; simpl.
  - intros x c' Hx. assert (Hne : l <> snap_luid x) by (intros ->; apply Hl, list_elem_of_fmap; eauto).
    rewrite !lookup_insert_ne by done. by apply B.
  - intros k Hk. destruct (decide (l = k)) as [-> | Hne]; [by rewrite !lookup_insert_eq |].
    rewrite !lookup_insert_ne by done. by apply C.
  - intros k. destruct (decide (l = k)) as [-> | Hne]; [by rewrite !lookup_insert_eq |].
    rewrite !lookup_insert_ne by done. apply D.
  - intros y c' Hy. destruct (decide (snap_luid x = snap_luid y)) as [E | Hne]; [| rewrite !lookup_insert_ne by done; by apply B].
    assert (y = x) as -> by (by apply (snap_luid_inj (interface_snapshots (record m)))).
    rewrite lookup_insert_eq. intros [= <-]. destruct (B x c Hx Hv) as [B1 B2]. split; [done | by apply restores_overwritten].
  - intros k Hk. rewrite lookup_insert_ne by (intros <-; apply Hk, list_elem_of_fmap; eauto). by apply C.
  - intros k. destruct (decide (snap_luid x = k)) as [<- | Hne]; [| by rewrite lookup_insert_ne by done; apply D].
    rewrite lookup_insert_eq. destruct (B x c Hx Hv) as [-> _]. done.
  - intros x c' Hx. destruct (decide (l = snap_luid x)) as [-> | Hne]; [by rewrite lookup_delete_eq |].
    rewrite !lookup_delete_ne by done. by apply B.
  - intros k Hk. destruct (decide (l = k)) as [-> | Hne]; [by rewrite !lookup_delete_eq |].
    rewrite !lookup_delete_ne by done. by apply C.
  - intros k. destruct (decide (l = k)) as [-> | Hne]; [by rewrite !lookup_delete_eq |].
    rewrite !lookup_delete_ne by done. apply D.
Qed.

Lemma live_foreign lost base m v base' v' :
  foreign_change m base v base' v' -> live lost base m v -> exists lost', live lost' base' m v'.
Proof.
  intros F H. pose proof (settings_inv_foreign _ _ _ _ _ F (o_settings _ _ _ (l_owns _ _ _ H))) as Hi.
  destruct F as [k n Hk Hc | k | l c Hl | x c p Hx Hv P1 P2 P3 | l | l n Hl | n Hn].
  - exists lost. by apply live_route_added.
  - exists (lost ∪ {[k]}). by apply live_route_removed.
  - exists lost. by apply live_settings.
  - exists lost. apply (live_settings lost base m v _ _ Hi) in H. by destruct base.
  - exists lost. by apply live_settings.
  - exists lost. destruct H as [[H1 H2 (A & B & C)] Hr Hd Hb Hp]. split; [split | ..]; try done. simpl. split_and!.
    + by rewrite lookup_partial_alter_ne.
    + intros E. by rewrite (B E).
    + intros k Hk. destruct (decide (l = k)) as [-> | Hne]; [| by rewrite !lookup_partial_alter_ne by done; apply C].
      by rewrite !lookup_partial_alter_eq.
  - exists lost. destruct H as [[H1 H2 (A & B & C)] Hr Hd Hb Hp]. split; [split | ..]; try done. simpl. split_and!.
    + done.
    + congruence.
    + intros k Hk. rewrite lookup_partial_alter_ne by done. by apply C.
Qed.

(** What owning means for the routes: nobody else's is lost, every other one is
    recorded. *)
Lemma owns_rows_facts {lost} base r v :
  owns lost base r v ->
  (forall k n, rows base !! k = Some n -> rows v !! k = Some n) /\
  (forall k, rows v !! k = rows base !! k \/ exists x, x ∈ owned_routes r /\ key x = k).
Proof.
  intros [[_ _ H1 H2] _ _].
  assert (D : forall k, (exists x, x ∈ owned_routes r /\ key x = k) \/ forall x, x ∈ owned_routes r -> key x <> k).
  { intros k. destruct (decide (k ∈ key <$> owned_routes r)) as [(x & -> & Hx)%list_elem_of_fmap | Hn]; [eauto |].
    right. intros x Hx <-. apply Hn, list_elem_of_fmap. eauto. }
  split.
  - intros k n Hk. destruct (D k) as [(x & Hx & <-) | Hn]; [| by rewrite H2].
    destruct (H1 x Hx) as [Hb _]. congruence.
  - intros k. destruct (D k) as [? | Hn]; [by right | left; by apply H2].
Qed.

Definition live_world (w : World) : Prop := exists lost, live lost (w_base w) (w_mon w) (view (w_state w)).

Lemma live_steps tgt w w' :
  rtc (step tgt) w w' -> live_world w ->
  live_world w' /\ tun_luid (record (w_mon w')) = tun_luid (record (w_mon w)).
Proof.
  induction 1 as [| w w1 w2 Hs _ IH]; [done |]. intros Hl.
  assert (H1 : live_world w1 /\ tun_luid (record (w_mon w1)) = tun_luid (record (w_mon w))).
  { destruct Hl as [lost Hl], Hs as [c b m s o go m' s' Hm | b m s b' s' Hf];
      [destruct (live_monitor_turn _ _ _ _ _ _ _ _ _ Hm Hl); split; [by exists lost | done] |].
    split; [by eapply live_foreign | done]. }
  destruct H1 as [H1 E1]. destruct (IH H1) as [H2 E2]. split; [done | congruence].
Qed.

(** ** Installing *)

Context `{TC : TproxyConfig}.

(** A record that owns its changes and is not removed yet. *)
Definition opened (base : View) (tun : Z) (r : InstallRecord) (v : View) : Prop :=
  owns ∅ base r v /\ removed r = false /\ tun_luid r = tun /\ Forall (is_bypass tun) (desired_bypasses r).

Lemma plan_bypasses_reads tun cidrs : forall unique planned s res s',
  plan_bypasses tun cidrs unique planned s = (res, s') -> Forall (is_bypass tun) planned ->
  view s' = view s /\ res <> Panic /\ forall l, res = Ok l -> Forall (is_bypass tun) l.
Proof.
  induction cidrs as [| cidr cidrs IH]; intros unique planned s res s' E Hp; cbn [plan_bypasses] in E.
  { unfold mret, M_ret in E. simplify_eq. split_and!; [done | done | by intros ? [= <-]]. }
  case_bool_decide as Eu; [by eapply IH |]. destruct (_ && _); [unfold throw in E; by simplify_eq |].
  unfold mbind, M_bind, map_errM in E. destruct (best_route _ s) as [res1 s1] eqn:E1.
  destruct (best_route_reads _ _ _ _ E1) as [V N]. destruct res1 as [[l h] | e |]; simpl in E; [| by simplify_eq | done]. destruct (Z.eqb_spec l tun); [unfold throw in E; by simplify_eq |].
  rewrite <- V. eapply IH; [exact E |]. apply Forall_app. split; [done |]. constructor; [| done].
  split; [done | split; [done |]]. by eapply best_route_hop.
Qed.

Lemma capture_routes_canonical tun g : Forall (canonical tun) (capture_routes tun g).
Proof. repeat constructor; simpl; by rewrite ?Z.eqb_refl. Qed.

Lemma prepare_install_opened args s res s' :
  prepare_install args s = (res, s') ->
  view s' = view s /\ res <> Panic /\
  forall r planned, res = Ok (r, planned) ->
    opened (view s) (tun_luid r) r (view s') /\ Forall (canonical (tun_luid r)) planned /\
    dns_changed r = false /\ owned_routes r = [] /\ interface_snapshots r = [].
Proof.
  unfold prepare_install, mbind, M_bind, map_errM. intros E.
  destruct (get_luid _ s) as [res1 s1] eqn:E1. destruct (get_luid_reads _ _ _ _ E1) as [V1 N1].
  destruct res1 as [tun | |]; simpl in E; [| by simplify_eq | done].
  destruct (snapshot_dns tun s1) as [res2 s2] eqn:E2. destruct (snapshot_reads _ _ _ _ E2) as [V2 N2].
  destruct res2 as [b | |]; simpl in E; [| simplify_eq; split; [congruence | done] | done].
  pose proof (snapshot_law _ _ _ _ E2) as Lb.
  destruct (plan_bypasses tun _ [] [] s2) as [res3 s3] eqn:E3.
  destruct (plan_bypasses_reads _ _ _ _ _ _ _ E3) as (V3 & N3 & Hb); [constructor |].
  assert (V : view s3 = view s) by congruence.
  destruct res3 as [bypasses | |]; [| simplify_eq; done | done].
  destruct (_ && _); [unfold throw in E; by simplify_eq |]. unfold mret, M_ret in E. simplify_eq.
  split; [done | split; [done |]]. intros r planned [= <- <-]. specialize (Hb _ eq_refl). split_and!; try done.
  - split; [| split; [done | split; [done |]]]; simpl.
    + rewrite V. split; simpl; [apply rows_inv_start | apply settings_inv_start |]. by rewrite V1.
    + apply Forall_forall. intros x [Hx Hin]%list_elem_of_filter. rewrite Forall_forall in Hb.
      apply elem_of_app in Hin as [Hin | Hin]; [by apply Hb |]. exfalso. apply Hx.
      destruct (ipv4_default_route args); [| by apply not_elem_of_nil in Hin].
      unfold capture_routes in Hin. rewrite !elem_of_cons in Hin.
      destruct Hin as [-> | [-> | [-> | Hin]]]; try done. by apply not_elem_of_nil in Hin.
  - apply Forall_app. split; [eapply Forall_impl; [exact Hb | apply is_bypass_canonical] |].
    destruct (ipv4_default_route args); [apply capture_routes_canonical | constructor].
Qed.

Lemma install_forwarding_opened base tun args r s res r' s' :
  install_forwarding args r s = (res, r', s') -> opened base tun r (view s) ->
  res <> Panic /\ opened base tun r' (view s').
Proof.
  unfold install_forwarding. intros E (Ho & Hr & Ht & Hd). destruct (ipv4_default_route args); [| by simplify_eq].
  destruct (reconcile_interface_settings _ _ s) as [[res1 snaps] s1] eqn:E1.
  destruct (reconcile_interface_settings_owns base _ _ _ _ _ _ E1 (o_settings _ _ _ Ho)) as (A & B & C).
  pose proof (owns_settings _ _ _ _ _ Ho B C) as G. destruct res1 as [[] | e |]; [| | done]; simplify_eq; done.
Qed.

Lemma install_routes_opened base tun : forall planned r s res r' s',
  install_routes planned r s = (res, r', s') -> Forall (canonical tun) planned -> opened base tun r (view s) ->
  res <> Panic /\ opened base tun r' (view s').
Proof.
  induction planned as [| x planned IH]; intros r s res r' s'; cbn [install_routes]; [by intros [= <- <- <-] |].
  intros E [Hx Hp]%Forall_cons (Ho & Hr & Ht & Hd). destruct (create_route x s) as [res1 s1] eqn:E1.
  pose proof (create_law _ _ _ _ E1) as L. destruct res1 as [[] | e |]; [| | | done].
  - destruct L as [Ln Lv]. eapply IH; [exact E | done |]. split; [| done].
    destruct (rows_inv_create (lost := ∅) tun (rows base) (owned_routes r) (rows (view s)) x) as (_ & G);
      [rewrite <- Ht; apply Ho | done | done | |].
    { eapply rows_inv_fresh; [rewrite <- Ht; apply Ho | done]. }
    eapply owns_routes; [exact Ho | rewrite Lv; apply rows_only_upd | done | done |]. rewrite Lv, Ht. exact G.
  - destruct L as [_ Lv]. eapply IH; [exact E | done |]. by rewrite Lv.
  - simplify_eq. by rewrite L.
Qed.

Lemma install_dns_opened base tun args r s res r' s' :
  install_dns args r s = (res, r', s') -> opened base tun r (view s) ->
  res <> Panic /\ opened base tun r' (view s').
Proof.
  unfold install_dns. intros E (Ho & Hr & Ht & Hd).
  destruct (set_dns _ _ s) as [res1 s1] eqn:E1. pose proof (set_dns_law _ _ _ _ _ E1) as L.
  destruct Ho as [H1 H2 (H3 & H4 & H5)].
  assert (G : owns ∅ base (set_dns_changed true r) (view s1)).
  { destruct res1 as [[] | e |]; [| | done]; rewrite L; split; simpl; try done. split_and!; [done | done |].
    intros l Hl. rewrite lookup_partial_alter_ne by (by apply not_eq_sym). by apply H5. }
  destruct res1 as [[] | e |]; [| | done]; by simplify_eq.
Qed.

Lemma apply_install_opened base tun args r planned s res r' s' :
  apply_install args r planned s = (res, r', s') -> Forall (canonical tun) planned -> opened base tun r (view s) ->
  res <> Panic /\ opened base tun r' (view s').
Proof.
  unfold apply_install. intros E Hp Ho. destruct (install_forwarding args r s) as [[res1 r1] s1] eqn:E1.
  destruct (install_forwarding_opened _ _ _ _ _ _ _ _ E1 Ho) as [A B].
  destruct res1 as [[] | e |]; [| by simplify_eq | done].
  destruct (install_routes planned r1 s1) as [[res2 r2] s2] eqn:E2.
  destruct (install_routes_opened _ _ _ _ _ _ _ _ E2 Hp B) as [C D].
  destruct res2 as [[] | e |]; [| by simplify_eq | done]. by eapply install_dns_opened.
Qed.

(** The roll-back of a failed set-up restores the machine or says that it could not. *)
Lemma rollback_after_setup_failure_restores base tun r e s e' r' s' :
  rollback_after_setup_failure r e s = (e', r', s') -> opened base tun r (view s) ->
  view s' = base /\ e' = e \/ exists first second, e' = Incomplete e first second /\ owns ∅ base r' (view s').
Proof.
  unfold rollback_after_setup_failure. intros E (Ho & Hr & Ht & Hd).
  destruct (cleanup_transaction r s) as [[res1 r1] s1] eqn:E1.
  pose proof (cleanup_transaction_owns base tun _ _ _ _ _ E1 Ho Hr Ht) as L.
  destruct res1 as [[] | e1 |]; [| | done]; [simplify_eq; left; by destruct L |]. destruct L as (Ho1 & Hr1 & Ht1).
  destruct (cleanup_transaction r1 s1) as [[res2 r2] s2] eqn:E2.
  pose proof (cleanup_transaction_owns base tun _ _ _ _ _ E2 Ho1 Hr1 (eq_trans Ht1 Ht)) as L2.
  destruct res2 as [[] | e2 |]; [| | done]; simplify_eq; [left; by destruct L2 | right; destruct L2; eauto].
Qed.

Lemma install_opened args spawned s res s' :
  install args spawned s = (res, s') ->
  match res with
  | Ok (r, _) => opened (view s) (tun_luid r) r (view s')
  | Err e => view s' = view s \/
      exists setup first second r, e = Incomplete setup first second /\ owns ∅ (view s) r (view s')
  | Panic => False
  end.
Proof.
  assert (Hfail : forall tun r e s1, opened (view s) tun r (view s1) ->
    forall e' r' s2, rollback_after_setup_failure r e s1 = (e', r', s2) ->
    view s2 = view s \/ exists setup first second r, e' = Incomplete setup first second /\ owns ∅ (view s) r (view s2)).
  { intros tun r e s1 Ho e' r' s2 E2.
    destruct (rollback_after_setup_failure_restores _ _ _ _ _ _ _ _ E2 Ho) as [[? _] | (a & b & -> & ?)];
      [by left | right; eauto 8]. }
  unfold install, install_transaction. intros E. destruct (prepare_install args s) as [res1 s1] eqn:E1.
  destruct (prepare_install_opened _ _ _ _ E1) as (V & N & H).
  destruct res1 as [[r planned] | e |]; [| simplify_eq; by left | done].
  destruct (H _ _ eq_refl) as (Ho & Hp & _).
  destruct (apply_install args r planned s1) as [[res2 r2] s2] eqn:E2.
  destruct (apply_install_opened _ _ _ _ _ _ _ _ _ E2 Hp Ho) as [A B].
  destruct res2 as [[] | e |]; [| | done].
  - assert (B' : opened (view s) (tun_luid r2) r2 (view s2)) by (destruct B as (? & ? & Ht & ?); split_and!; by rewrite ?Ht).
    destruct (ipv4_default_route args); [destruct spawned; [by simplify_eq |] | by simplify_eq].
    destruct (rollback_after_setup_failure r2 _ s2) as [[e3 r3] s3] eqn:E3. simplify_eq. by eapply Hfail.
  - unfold fail_install in E. destruct (rollback_after_setup_failure r2 _ s2) as [[e3 r3] s3] eqn:E3.
    simplify_eq. by eapply Hfail.
Qed.

(** Every planned row is in the table afterwards, created or found. *)
Lemma install_routes_present : forall planned r s r' s',
  install_routes planned r s = (Ok tt, r', s') ->
  rows (view s) ⊆ rows (view s') /\ forall x, x ∈ planned -> is_Some (rows (view s') !! key x).
Proof.
  induction planned as [| x planned IH]; intros r s r' s'; cbn [install_routes].
  { intros [= <- <-]. split; [done | intros ? Hx; by apply not_elem_of_nil in Hx]. }
  destruct (create_route x s) as [res1 s1] eqn:E1. pose proof (create_law _ _ _ _ E1) as L.
  destruct res1 as [[] | e |]; [| | done | done]; intros E; destruct (IH _ _ _ _ E) as [A B]; destruct L as [Lx Lv].
  - split.
    + etrans; [| exact A]. rewrite Lv. by apply insert_subseteq.
    + intros y [-> | Hy]%elem_of_cons; [| by apply B]. exists (metric x). eapply lookup_weaken; [| exact A].
      rewrite Lv. apply lookup_insert_eq.
  - rewrite Lv in A. split; [done |]. intros y [-> | Hy]%elem_of_cons; [| by apply B].
    destruct Lx as [n Hn]. exists n. by eapply lookup_weaken.
Qed.

Lemma install_committed args spawned s r running s' :
  install args spawned s = (Ok (r, running), s') ->
  exists r0 planned s0, prepare_install args s = (Ok (r0, planned), s0) /\ tun_luid r = tun_luid r0 /\
    (forall x, x ∈ planned -> is_Some (rows (view s') !! key x)) /\
    servers (view s') !! tun_luid r = Some (show_ip (tun_gateway args)).
Proof.
  unfold install, install_transaction. intros E. destruct (prepare_install args s) as [res1 s1] eqn:E1.
  destruct res1 as [[r0 planned] | e |]; [| done | done]. exists r0, planned, s1.
  destruct (prepare_install_opened _ _ _ _ E1) as (_ & _ & Hop). destruct (Hop _ _ eq_refl) as (Hop0 & Hcan & _).
  destruct (apply_install args r0 planned s1) as [[res2 r2] s2] eqn:E2.
  destruct res2 as [[] | e |]; [| unfold fail_install in E; destruct (rollback_after_setup_failure _ _ _) as [[? ?] ?]; done | done].
  assert (Er : r2 = r /\ s2 = s').
  { destruct (ipv4_default_route args); [destruct spawned; [by simplify_eq |] | by simplify_eq].
    by destruct (rollback_after_setup_failure _ _ _) as [[? ?] ?]. }
  destruct Er as [-> ->].
  destruct (apply_install_opened _ _ _ _ _ _ _ _ _ E2 Hcan Hop0) as [_ (_ & _ & Ht & _)].
  unfold apply_install in E2. destruct (install_forwarding args r0 s1) as [[res3 r3] s3] eqn:E3.
  destruct res3 as [[] | |]; [| done | done].
  destruct (install_routes planned r3 s3) as [[res4 r4] s4] eqn:E4. destruct res4 as [[] | |]; [| done | done].
  destruct (install_routes_present _ _ _ _ _ E4) as [_ Hp]. unfold install_dns in E2.
  destruct (set_dns _ _ s4) as [res5 s5] eqn:E5. pose proof (set_dns_law _ _ _ _ _ E5) as L.
  destruct res5 as [[] | |]; [| done | done]. simplify_eq. split_and!; [done | done | by rewrite L |].
  rewrite L. simpl. apply lookup_partial_alter_eq.
Qed.

Lemma prepare_install_capture args s r planned s' :
  prepare_install args s = (Ok (r, planned), s') -> ipv4_default_route args = true ->
  forall x, x ∈ capture_routes (tun_luid r) (tun_gateway args) -> x ∈ planned.
Proof.
  unfold prepare_install, mbind, M_bind, map_errM. intros E Hv x Hx.
  destruct (get_luid _ s) as [[tun | |] s1]; simpl in E; [| done | done].
  destruct (snapshot_dns tun s1) as [[b | |] s2]; simpl in E; [| done | done].
  destruct (plan_bypasses tun _ [] [] s2) as [[l | |] s3]; [| done | done].
  rewrite Hv in E. destruct (_ && _); [done |]. unfold mret, M_ret in E. simplify_eq. apply elem_of_app. by right.
Qed.

(** ** Live updates *)

Lemma rollback_rows_all : forall routes owned s owned' s',
  rollback_rows routes owned s = ([], owned', s') -> owned' = foldl (fun l r => filter (fun o => o <> r) l) owned routes.
Proof.
  induction routes as [| r routes IH]; intros owned s owned' s'; cbn [rollback_rows foldl]; [by intros [= <- <-] |].
  destruct (delete_route r s) as [[] s1].
  - apply IH.
  - destruct (rollback_rows routes owned s1) as [[? ?] ?]. done.
  - destruct (rollback_rows routes owned s1) as [[? ?] ?]. done.
Qed.

Lemma filter_suffix (owned new : list RouteSpec) :
  NoDup (owned ++ new) -> foldl (fun l r => filter (fun o => o <> r) l) (owned ++ new) new = owned.
Proof.
  induction new as [| x new IH]; intros Hn; cbn [foldl]; [apply app_nil_r |].
  rewrite filter_ne_middle by done. apply IH. apply NoDup_app in Hn as (H1 & H2 & [_ H3]%NoDup_cons).
  apply NoDup_app. split_and!; try done. intros y Hy Hy'. apply (H2 y Hy). apply elem_of_cons. by right.
Qed.

Lemma rows_inv_unique tun b owned t t' : rows_inv ∅ tun b owned t -> rows_inv ∅ tun b owned t' -> t = t'.
Proof.
  intros [_ _ H1 H2] [_ _ H3 H4]. apply map_eq. intros k.
  destruct (decide (k ∈ key <$> owned)) as [(x & -> & Hx)%list_elem_of_fmap | Hn].
  - destruct (H1 x Hx) as [_ [-> | [[]%not_elem_of_empty _]]], (H3 x Hx) as [_ [-> | [[]%not_elem_of_empty _]]]. done.
  - assert (K : forall x, x ∈ owned -> key x <> k) by (intros x Hx <-; apply Hn, list_elem_of_fmap; eauto).
    by rewrite H2, H4.
Qed.

(** Rolling a prepared update back undoes exactly it. *)
Lemma rollback_undoes base r new s s1 r2 s2 :
  owns ∅ base r (view s) -> owns ∅ base (set_owned (owned_routes r ++ new) r) (view s1) ->
  rows_only (view s) (view s1) ->
  rollback_upstream_bypasses (set_owned (owned_routes r ++ new) r) new s1 = (r2, [], s2) ->
  r2 = r /\ view s2 = view s.
Proof.
  intros Ho Ho1 Hv E.
  assert (Hf : Forall (fun x => canonical (tun_luid r) x /\ rows base !! key x = None) new).
  { apply Forall_forall. intros x Hx. apply (owned_claim _ _ _ x Ho1). apply elem_of_app. by right. }
  destruct (rollback_upstream_owns base _ _ _ _ _ _ E Ho1 Hf) as (A & B & _ & _).
  unfold rollback_upstream_bypasses in E.
  destruct (rollback_rows new _ s1) as [[kept owned] s3] eqn:E1. simplify_eq.
  apply rollback_rows_all in E1. cbn [set_owned owned_routes] in E1.
  rewrite filter_suffix in E1 by apply (ri_nodup _ _ _ _ (o_rows _ _ _ Ho1)). subst owned.
  split; [by destruct r |]. destruct B as [B1 B2], Hv as [V1 V2].
  pose proof (rows_inv_unique _ _ _ _ _ (o_rows _ _ _ A) (o_rows _ _ _ Ho)) as B3.
  destruct (view s2), (view s). simpl in *. congruence.
Qed.

Lemma plan_hosts_covers routes tun owned addresses : forall planned planned' ,
  plan_hosts routes tun owned addresses planned = Ok planned' ->
  planned ⊆ planned' /\ forall a, a ∈ addresses -> is_loopback a || is_unspecified a = false ->
    exists x, x ∈ planned' /\ destination x = a /\ prefix_len x = host_prefix a.
Proof.
  induction addresses as [| a addresses IH]; intros planned planned'; cbn [plan_hosts].
  { intros [= <-]. split; [done | intros ? Ha; by apply not_elem_of_nil in Ha]. }
  destruct (is_loopback a || is_unspecified a) eqn:Ea.
  { intros E. destruct (IH _ _ E) as [A B]. split; [done |]. intros b [-> | Hb]%elem_of_cons Hn; [congruence | auto]. }
  destruct (select_physical_route routes a tun owned) as [p |]; [| done]. intros E.
  destruct (IH _ _ E) as [A B]. set (x := mkRoute a (host_prefix a) (next_hop p) (interface_luid p) BYPASS_ROUTE_METRIC) in *.
  assert (G : planned ⊆ planned' /\ x ∈ planned').
  { case_bool_decide as Ex; split; auto; intros y Hy || idtac; apply A, elem_of_app; auto.
    right. by apply list_elem_of_singleton. }
  split; [apply G |]. intros b [-> | Hb]%elem_of_cons Hn; [| auto]. exists x. split; [apply G | done].
Qed.

Lemma claim_route_grows r owned s res owned' s' k :
  claim_route r owned s = (res, owned', s') -> is_Some (rows (view s) !! k) -> is_Some (rows (view s') !! k).
Proof.
  unfold claim_route. destruct (create_route r s) as [res1 s1] eqn:E1. pose proof (create_law _ _ _ _ E1) as L.
  destruct res1 as [[] | e |]; [| | | done].
  - destruct L as [_ L]. intros E Hk. assert (s' = s1) as -> by (case_bool_decide; congruence). rewrite L. simpl.
    destruct (decide (key r = k)) as [-> | Hne]; [rewrite lookup_insert_eq; eauto | by rewrite lookup_insert_ne].
  - destruct L as [_ L]. intros [= <- <- <-]. by rewrite L.
  - intros [= <- <- <-]. by rewrite L.
Qed.

Lemma add_planned_present {lost} base tun : forall planned owned u s owned' u' s',
  add_planned planned owned u s = (Ok tt, owned', u', s') ->
  rows_inv lost tun (rows base) owned (rows (view s)) -> Forall (is_bypass tun) planned ->
  desired u' = desired u ++ planned /\
  (forall k, is_Some (rows (view s) !! k) -> is_Some (rows (view s') !! k)) /\
  forall x, x ∈ planned -> is_Some (rows (view s') !! key x).
Proof.
  induction planned as [| r planned IH]; intros owned u s owned' u' s'; cbn [add_planned].
  { intros [= <- <- <-] _ _. rewrite app_nil_r. split_and!; [done | done | intros ? Hx; by apply not_elem_of_nil in Hx]. }
  intros E Hi [Hr Hf]%Forall_cons. destruct (claim_route r owned s) as [[res1 owned1] s1] eqn:E1.
  destruct (claim_route_owns base tun _ _ _ _ _ _ E1 Hi (is_bypass_canonical _ _ Hr)) as (A & B & C & D & F).
  destruct res1 as [mine | e |]; [| done | done]. destruct (IH _ _ _ _ _ _ E C Hf) as (G1 & G2 & G3).
  split_and!.
  - rewrite G1. simpl. by rewrite <- (assoc_L app).
  - intros k Hk. apply G2. eapply claim_route_grows; eauto.
  - intros x [-> | Hx]%elem_of_cons; [apply G2; by eapply F | auto].
Qed.

Lemma replace_desired_in route l : route ∈ replace_desired route l.
Proof.
  induction l as [| o l IH]; simpl; [by apply list_elem_of_singleton |].
  destruct (_ && _); apply elem_of_cons; auto.
Qed.

Lemma replace_desired_keeps route l d :
  d ∈ l -> d ∈ replace_desired route l \/ (destination d = destination route /\ prefix_len d = prefix_len route).
Proof.
  induction l as [| o l IH]; simpl; [by intros ?%not_elem_of_nil |].
  destruct (_ && _) eqn:Eb; rewrite !elem_of_cons.
  - apply andb_true_iff in Eb as [Eb1%bool_decide_eq_true Eb2%Z.eqb_eq].
    intros [-> | Hd]; auto.
  - intros [-> | Hd]; [auto | destruct (IH Hd); auto].
Qed.

(** After a commit every confirmed destination is desired through a confirmed row. *)
Lemma commit_covers u : forall l x,
  (x ∈ u \/ exists d, d ∈ l /\ d ∈ x :: u /\ destination d = destination x /\ prefix_len d = prefix_len x) ->
  exists d, d ∈ foldl (fun l route => replace_desired route l) l u /\ (d ∈ x :: u) /\
    destination d = destination x /\ prefix_len d = prefix_len x.
Proof.
  induction u as [| y u IH]; intros l x H; cbn [foldl].
  { destruct H as [Hx | H]; [by apply not_elem_of_nil in Hx | done]. }
  assert (W : (exists d, d ∈ foldl (fun l route => replace_desired route l) (replace_desired y l) u /\
      (d ∈ y :: u) /\ destination d = destination y /\ prefix_len d = prefix_len y)).
  { apply IH. right. exists y. split_and!; [apply replace_desired_in | apply elem_of_cons; by left | done | done]. }
  destruct (decide (destination x = destination y /\ prefix_len x = prefix_len y)) as [[E1 E2] | Hne].
  { destruct W as (d & W1 & W2 & W3 & W4). exists d. split_and!; [done | apply elem_of_cons; by right | congruence | congruence]. }
  assert (G : exists d, d ∈ foldl (fun l route => replace_desired route l) (replace_desired y l) u /\ (d ∈ x :: u) /\
    destination d = destination x /\ prefix_len d = prefix_len x).
  { apply IH. destruct H as [[-> | Hx]%elem_of_cons | (d & D1 & D2 & D3 & D4)]; [by destruct Hne | by left |].
    right. exists d. destruct (replace_desired_keeps y l d D1) as [D5 | [D5 D6]]; [| destruct Hne; split; congruence].
    split_and!; try done. rewrite !elem_of_cons in *. destruct D2 as [-> | [-> | D2]]; auto.
    destruct Hne. split; congruence. }
  destruct G as (d & G1 & G2 & G3). exists d. split; [done | split; [| done]]. rewrite !elem_of_cons in *. tauto.
Qed.

(** ** Theorems *)

(** C12. The installation is atomic: it never panics; it either fails and leaves
    the routes, the forwarding settings and the DNS servers as they were
    (unless the roll-back and its one repetition failed, which the error says,
    and then everything that is left is still recorded), or succeeds, and then
    the capture rows are in the table, the DNS server of the adapter is the one
    inside the TUN, every route that existed is still there with its metric, and
    every other row is owned by the session. *)
Theorem windows_install_atomic args spawned s res s' :
  install args spawned s = (res, s') ->
  match res with
  | Ok (r, _) =>
      (ipv4_default_route args = true ->
        forall x, x ∈ capture_routes (tun_luid r) (tun_gateway args) -> is_Some (rows (view s') !! key x)) /\
      servers (view s') !! tun_luid r = Some (show_ip (tun_gateway args)) /\
      (forall k n, rows (view s) !! k = Some n -> rows (view s') !! k = Some n) /\
      (forall k, rows (view s') !! k = rows (view s) !! k \/ exists x, x ∈ owned_routes r /\ key x = k)
  | Err e => view s' = view s \/
      exists setup first second r, e = Incomplete setup first second /\ owns ∅ (view s) r (view s')
  | Panic => False
  end.
Proof.
  intros E. pose proof (install_opened _ _ _ _ _ E) as H. destruct res as [[r running] | e |]; [| done | done].
  destruct (install_committed _ _ _ _ _ _ E) as (r0 & planned & s0 & E0 & Ht & Hp & Hs). destruct H as (Ho & _).
  split; [| split; [done | apply (owns_rows_facts (lost := ∅)), Ho]].
  intros Hv x Hx. apply Hp. rewrite Ht in Hx. by eapply prepare_install_capture.
Qed.

Lemma install_live args spawned s r running s' :
  install args spawned s = (Ok (r, running), s') -> live_world (mkWorld (view s) (mkMonitor r None []) s').
Proof.
  intros E. destruct (install_opened _ _ _ _ _ E) as (Ho & Hr & _ & Hd). exists ∅. by split; [| | | constructor |].
Qed.



(** A live update of the bypasses is a transaction: on a monitor with no update
    and no roll-back outstanding, and none of whose rows was deleted by others, a prepared update that is rolled back with
    every deletion succeeding leaves the record and the machine as before; one
    that was confirmed and is then committed gives every remote address a host
    bypass, present in the table and not leading into the TUN, among those the
    monitor maintains. *)
Theorem windows_update_atomic args spawned s r running s0 w tgt addresses reply go m1 s1 :
  install args spawned s = (Ok (r, running), s0) ->
  rtc (step (tun_target args (tun_luid r))) (mkWorld (view s) (mkMonitor r None []) s0) w ->
  pending (w_mon w) = None -> rollback_routes (w_mon w) = [] ->
  owns ∅ (w_base w) (record (w_mon w)) (view (w_state w)) ->
  monitor_turn tgt (PrepareBypasses addresses false) (w_mon w) (w_state w) = (Some reply, go, m1, s1) ->
  (forall o go2 m2 s2, monitor_turn tgt RollbackBypasses m1 s1 = (o, go2, m2, s2) -> rollback_routes m2 = [] ->
    m2 = w_mon w /\ view s2 = view (w_state w)) /\
  (reply = Ok tt -> forall o go2 m2 s2, monitor_turn tgt CommitBypasses m1 s1 = (o, go2, m2, s2) ->
    forall a, a ∈ addresses -> is_loopback a || is_unspecified a = false ->
    exists d, d ∈ desired_bypasses (record m2) /\ destination d = a /\ prefix_len d = host_prefix a /\
      interface_luid d <> tun_luid r /\ is_Some (rows (view s2) !! key d)).
Proof.
  intros E Hs Hp Hb H1. destruct (live_steps _ _ _ Hs (install_live _ _ _ _ _ _ E)) as [[lost [_ H2 _ _ _]] Ht]. simpl in Ht.
  destruct w as [b [rec p rb] st]. cbn in Hp, Hb, H1, H2, Ht |- *. subst p rb. simpl.
  assert (Eset : set_owned (owned_routes rec) rec = rec) by by destruct rec. rewrite Eset.
  destruct (add_upstream_bypasses rec addresses default_prepared st) as [[[res r2] u] s2] eqn:E2.
  intros [= <- <- <- <-].
  destruct (add_upstream_owns b _ _ _ _ _ _ _ _ E2 H1 H2) as (new & more & _ & A & B & -> & C & D & _ & _).
  cbn [added desired default_prepared app] in C, D. split.
  - intros o go2 m2 s3. cbn [monitor_turn pending record rollback_routes app]. rewrite C.
    destruct (rollback_upstream_bypasses _ new s2) as [[r3 kept] s4] eqn:E3. intros [= <- <- <- <-] Hk. simpl in Hk. subst kept.
    destruct (rollback_undoes _ _ _ _ _ _ _ H1 A B E3) as [-> G]. done.
  - intros -> o go2 m2 s3. cbn [monitor_turn pending]. intros [= <- <- <- <-] a Ha Hn.
    unfold add_upstream_bypasses in E2. rewrite H2 in E2. destruct (physical_routes st) as [res1 s4] eqn:E4.
    destruct (physical_routes_reads _ _ _ E4) as [V N]. destruct res1 as [routes | |]; [| done | done].
    destruct (plan_hosts _ _ _ addresses []) as [planned | |] eqn:E5; [| done | done].
    destruct (plan_hosts_covers _ _ _ _ _ _ E5) as [_ Hcov]. destruct (Hcov a Ha Hn) as (x & Hx & Hxa & Hxp).
    destruct (plan_hosts_bypasses _ _ _ _ (physical_hops _ _ _ E4) _ _ E5) as [Hby _]; [constructor | constructor |].
    destruct (add_planned planned _ _ s4) as [[[res6 o6] u6] s6] eqn:E6. injection E2 as -> _ -> ->.
    destruct (add_planned_present (lost := ∅) b (tun_luid rec) _ _ _ _ _ _ _ E6) as (G1 & _ & G3); [rewrite V; apply H1 | done |].
    cbn [desired default_prepared app] in G1.
    destruct (commit_covers planned (desired_bypasses rec) x (or_introl Hx)) as (d & K1 & K2 & K3 & K4).
    assert (Hdp : d ∈ planned) by (apply elem_of_cons in K2 as [-> | K2]; done).
    exists d. cbn [record commit_upstream_bypasses set_desired set_owned desired_bypasses]. rewrite G1, <- Ht.
    rewrite Forall_forall in Hby. split_and!; [done | congruence | congruence | by apply Hby | by apply G3].
Qed.
End session.
End WindowsSession.
