(* ===== verification/WindowsIpHelper.v ===== *)
(** * Windows network configuration: the IP Helper operations

    [IpHelperOperations] of src/src/windows_network_config.rs: the calls of the
    operating system are the class [WinApi], each with the status it returns;
    the instance of [NetworkOperations] is built from them as in the source, and
    satisfies [NetworkLaws] whenever the calls do what they are documented to.
    A call returns its rows and its text here; the pointers, wide strings and
    tables of the foreign interface are in WindowsForeign.v. *)

From S2P Require Import Prelude Net WindowsConfig WindowsConfigProofs.

Module WindowsIpHelper.
Import WindowsConfig WindowsConfigProofs.

(** ** Rows and addresses *)

Definition NO_ERROR : Z := 0.
Definition ERROR_OBJECT_ALREADY_EXISTS : Z := 5010.
Definition AF_INET : Z := 2.
Definition AF_INET6 : Z := 23.

(** [SOCKADDR_INET], by its family; an address is its octets in memory order. *)
Inductive SockaddrInet :=
  | Ipv4 (addr : Z)
  | Ipv6 (addr sin6_scope_id : Z)
  | OtherFamily (family : Z).

Definition si_family (a : SockaddrInet) : Z :=
  match a with Ipv4 _ => AF_INET | Ipv6 _ _ => AF_INET6 | OtherFamily f => f end.

Definition sockaddr (ip : IpAddr) (scope_id : Z) : SockaddrInet :=
  match ip with V4 n => Ipv4 n | V6 n => Ipv6 n scope_id end.

Definition route_address (a : SockaddrInet) : res NetError RouteAddress :=
  match a with
  | Ipv4 n => Ok (mkRA (V4 n) 0)
  | Ipv6 n scope => Ok (mkRA (V6 n) scope)
  | OtherFamily _ => Err (Plain "IP Helper returned unsupported address family")
  end.

Record ForwardRow := mkForward {
  f_luid : Z;
  f_prefix : SockaddrInet;
  f_prefix_len : Z;
  f_next_hop : SockaddrInet;
  f_metric : Z;
  f_protocol : Z;
  f_origin : Z;
  f_valid_lifetime : Z;
  f_loopback : bool }.

Record InterfaceRow := mkInterface {
  i_family : Z;
  i_luid : Z;
  i_settings : InterfaceSettings;
  i_connected : bool;
  i_disable_default_routes : bool;
  i_metric : Z }.

(** The calls; [S] is the operating system. *)
Class WinApi (S : Type) := {
  Guid : Type;
  initial_forward_entry : ForwardRow;
  initial_interface_entry : InterfaceRow;
  ConvertInterfaceAliasToLuid : string -> S -> (Z * Z) * S;
  ConvertInterfaceLuidToAlias : Z -> S -> (Z * string) * S;
  ConvertInterfaceLuidToGuid : Z -> S -> (Z * Guid) * S;
  ConvertInterfaceLuidToIndex : Z -> S -> (Z * Z) * S;
  GetBestRoute2 : SockaddrInet -> S -> (Z * ForwardRow) * S;
  GetIpForwardTable2 : S -> (Z * option (list ForwardRow)) * S;
  GetIpInterfaceTable : Z -> S -> (Z * option (list InterfaceRow)) * S;
  GetIpInterfaceEntry : InterfaceRow -> S -> (Z * InterfaceRow) * S;
  SetIpInterfaceEntry : InterfaceRow -> S -> Z * S;
  CreateIpForwardEntry2 : ForwardRow -> S -> Z * S;
  DeleteIpForwardEntry2 : ForwardRow -> S -> Z * S;
  LoadLibraryW : S -> bool * S;
  last_os_error : S -> Z;
  GetProcAddress : string -> S -> bool * S;
  FreeLibrary : S -> unit * S;
  GetInterfaceDnsSettings : Guid -> S -> (Z * option string) * S;
  SetInterfaceDnsSettings : Guid -> option string -> S -> Z * S;
}.

(** [status as i32]. *)
Definition as_i32 (status : Z) : Z := if status <? 2 ^ 31 then status else status - 2 ^ 32.

Definition MIB_IPPROTO_NETMGMT : Z := 3.
Definition NlroManual : Z := 0.

Definition physical_route_metric (route : ForwardRow) (iface : InterfaceRow) : option Z :=
  if i_connected iface && negb (i_disable_default_routes iface && (f_prefix_len route =? 0)) &&
     negb (f_valid_lifetime route =? 0) && negb (f_loopback route)
  then Some (i_metric iface) else None.

(** [alias.to_ascii_lowercase().starts_with(..) && contains("wsl")]. *)
Definition lower_ascii (s : string) : string :=
  String.string_of_list_ascii ((fun c => Ascii.ascii_of_N (Z.to_N (lower8 (Z.of_N (Ascii.N_of_ascii c))))) <$>
    String.list_ascii_of_string s).

Definition is_wsl_hns_alias (alias : string) : bool :=
  let normalized := lower_ascii alias in
  String.prefix "vethernet (" normalized &&
  match String.index 0 "wsl" normalized with Some _ => true | None => false end.

Section operations.
Context {S : Type} `{API : WinApi S}.

Definition sys {A} (f : S -> A * S) : M S NetError A := fun s => let '(a, s1) := f s in (Ok a, s1).

Definition win32_result (status : Z) : M S NetError unit :=
  if status =? NO_ERROR then mret tt else throw (RawOs (as_i32 status)).

Definition route_row (r : RouteSpec) : ForwardRow :=
  mkForward (interface_luid r) (sockaddr (destination r) 0) (prefix_len r)
    (sockaddr (ra_ip (next_hop r)) (scope_id (next_hop r))) (metric r) MIB_IPPROTO_NETMGMT NlroManual
    (f_valid_lifetime initial_forward_entry) (f_loopback initial_forward_entry).

Definition luid_to_guid (luid : Z) : M S NetError Guid :=
  '(status, guid) ← sys (ConvertInterfaceLuidToGuid luid); win32_result status;; mret guid.

Definition interface_alias (luid : Z) : M S NetError string :=
  '(status, alias) ← sys (ConvertInterfaceLuidToAlias luid); win32_result status;; mret alias.

(** The row asked for: an initialised entry with its family and interface. *)
Definition entry_of (family luid : Z) : InterfaceRow :=
  let e := initial_interface_entry in
  mkInterface family luid (i_settings e) (i_connected e) (i_disable_default_routes e) (i_metric e).

Definition ip_interface_row (luid : Z) : M S NetError InterfaceRow :=
  '(status, row) ← sys (GetIpInterfaceEntry (entry_of AF_INET luid)); win32_result status;; mret row.

(** [InterfaceDnsApi::load]: the library, and its three functions or none. *)
Definition dns_api_load : M S NetError unit :=
  loaded ← sys LoadLibraryW;
  if loaded : bool then
    get ← sys (GetProcAddress "GetInterfaceDnsSettings");
    set ← sys (GetProcAddress "SetInterfaceDnsSettings");
    free ← sys (GetProcAddress "FreeInterfaceDnsSettings");
    if get && set && free : bool then mret tt
    else
      sys FreeLibrary;;
      throw (Plain "transactional Windows TUN DNS setup requires Windows 10 version 2004 (build 19041) or newer")
  else
    e ← gets last_os_error; throw (RawOs e).

(** The library is freed when the handle goes out of scope. *)
Definition then_free {A} (m : M S NetError A) : M S NetError A := fun s =>
  let '(r, s1) := m s in (r, snd (FreeLibrary s1)).

Definition with_dns_api {A} (m : M S NetError A) : M S NetError A := dns_api_load;; then_free m.

Definition helper_interface_luid (alias : string) : M S NetError Z :=
  '(status, luid) ← sys (ConvertInterfaceAliasToLuid alias); win32_result status;; mret luid.

Definition helper_best_route (destination : IpAddr) : M S NetError (Z * RouteAddress) :=
  '(status, route) ← sys (GetBestRoute2 (sockaddr destination 0));
  win32_result status;;
  next_hop ← lift (route_address (f_next_hop route));
  mret (f_luid route, next_hop).

(** The interface of a row, asked for once per interface and family. *)
Definition interface_of (row : ForwardRow) (cache : gmap (Z * Z) (option InterfaceRow))
    : M S NetError (option InterfaceRow * gmap (Z * Z) (option InterfaceRow)) :=
  let k := (f_luid row, si_family (f_prefix row)) in
  match cache !! k with
  | Some iface => mret (iface, cache)
  | None =>
      '(status, iface) ← sys (GetIpInterfaceEntry (entry_of k.2 k.1));
      let found := if status =? NO_ERROR then Some iface else None in
      mret (found, <[k := found]> cache)
  end.

Fixpoint scan_rows (table : list ForwardRow) (cache : gmap (Z * Z) (option InterfaceRow))
    (routes : list (RouteSpec * Z)) : M S NetError (list (RouteSpec * Z)) :=
  match table with
  | [] => mret routes
  | row :: rest =>
      '(iface, cache1) ← interface_of row cache;
      match i ← iface; physical_route_metric row i with
      | None => scan_rows rest cache1 routes
      | Some iface_metric =>
          destination ← lift (route_address (f_prefix row));
          hop ← lift (route_address (f_next_hop row));
          scan_rows rest cache1
            (routes ++ [(mkRoute (ra_ip destination) (f_prefix_len row) hop (f_luid row) (f_metric row), iface_metric)])
      end
  end.

Definition helper_physical_routes : M S NetError (list (RouteSpec * Z)) :=
  '(status, table) ← sys GetIpForwardTable2;
  win32_result status;;
  match table with
  | None => throw (Plain "GetIpForwardTable2 returned a null table")
  | Some rows => scan_rows rows ∅ []
  end.

Definition helper_create_route (route : RouteSpec) : M S NetError AddOutcome :=
  status ← sys (CreateIpForwardEntry2 (route_row route));
  if status =? ERROR_OBJECT_ALREADY_EXISTS then mret Preexisting
  else win32_result status;; mret Created.

Definition helper_delete_route (route : RouteSpec) : M S NetError unit :=
  status ← sys (DeleteIpForwardEntry2 (route_row route));
  if status =? ERROR_NOT_FOUND then mret tt else win32_result status.

Fixpoint scan_interfaces (table : list InterfaceRow) (targets : list InterfaceTarget)
    : M S NetError (list InterfaceTarget) :=
  match table with
  | [] => mret targets
  | row :: rest => fun s =>
      match interface_alias (i_luid row) s with
      | (Ok alias, s1) =>
          scan_interfaces rest
            (if is_wsl_hns_alias alias then targets ++ [mkTarget (i_luid row) alias WslHns] else targets) s1
      | (_, s1) => scan_interfaces rest targets s1
      end
  end.

Definition helper_wsl_hns_interfaces : M S NetError (list InterfaceTarget) :=
  '(status, table) ← sys (GetIpInterfaceTable AF_INET);
  win32_result status;;
  match table with
  | None => throw (Plain "GetIpInterfaceTable returned a null IPv4 interface table")
  | Some rows => scan_interfaces rows []
  end.

Definition helper_interface_settings (luid : Z) : M S NetError InterfaceSettings :=
  row ← ip_interface_row luid; mret (i_settings row).

Definition helper_apply_interface_patch (luid : Z) (patch : InterfacePatch) : M S NetError unit :=
  if patch_is_empty patch then mret tt
  else
    row ← ip_interface_row luid;
    let c := i_settings row in
    let c1 := mkSettings (default (forwarding c) (p_forwarding patch))
      (default (weak_host_send c) (p_weak_host_send patch))
      (default (weak_host_receive c) (p_weak_host_receive patch)) in
    status ← sys (SetIpInterfaceEntry (mkInterface (i_family row) (i_luid row) c1 (i_connected row)
      (i_disable_default_routes row) (i_metric row)));
    win32_result status.

Definition helper_snapshot_dns (luid : Z) : M S NetError (option string) :=
  with_dns_api (
    guid ← luid_to_guid luid;
    '(status, name_server) ← sys (GetInterfaceDnsSettings guid);
    win32_result status;;
    mret name_server).

Definition helper_set_dns (luid : Z) (name_servers : option string) : M S NetError unit :=
  with_dns_api (
    guid ← luid_to_guid luid;
    status ← sys (SetInterfaceDnsSettings guid name_servers);
    win32_result status).

#[export] Instance IpHelperOperations : NetworkOperations S := {|
  get_luid := helper_interface_luid;
  best_route := helper_best_route;
  physical_routes := helper_physical_routes;
  create_route := helper_create_route;
  delete_route := helper_delete_route;
  wsl_hns_interfaces := helper_wsl_hns_interfaces;
  interface_settings := helper_interface_settings;
  apply_interface_patch := helper_apply_interface_patch;
  snapshot_dns := helper_snapshot_dns;
  set_dns := helper_set_dns;
|}.

(** [physical_default_interface]: the interface index of the best route that is
    not the TUN's, among the candidates. *)
Definition index_of (luid : Z) : M S NetError Z :=
  '(status, index) ← sys (ConvertInterfaceLuidToIndex luid); win32_result status;; mret index.

Fixpoint retain_candidates (candidates : list Z) (routes : list (RouteSpec * Z))
    : M S NetError (list (RouteSpec * Z)) :=
  match routes with
  | [] => mret []
  | x :: rest =>
      '(status, index) ← sys (ConvertInterfaceLuidToIndex (interface_luid x.1));
      kept ← retain_candidates candidates rest;
      mret (if (status =? NO_ERROR) && bool_decide (index ∈ candidates) then x :: kept else kept)
  end.

Definition physical_default_interface (tun_name : option string) (candidates : list Z) (s : S) : option Z * S :=
  let '(tun, s1) :=
    match tun_name with
    | None => (0, s)
    | Some name => let '(r, s1) := get_luid name s in (match r with Ok l => l | _ => 0 end, s1)
    end in
  let '(r, s2) := (routes ← physical_routes; retain_candidates candidates routes) s1 in
  match r with
  | Ok routes =>
      match select_physical_route routes (V4 0) tun [] with
      | None => (None, s2)
      | Some route => let '(r2, s3) := index_of (interface_luid route) s2 in
          (match r2 with Ok index => Some index | _ => None end, s3)
      end
  | _ => (None, s2)
  end.
End operations.
End WindowsIpHelper.
