(* ===== verification/WindowsMachine.v ===== *)
(** * Windows network configuration: the operating system

    The documented behaviour of the IP Helper calls ([WinApiLaws]), the proof
    that [IpHelperOperations] keeps the laws the session relies on, and a machine
    whose calls can be made to fail, with a session on it. *)

From S2P Require Import Prelude Net WindowsConfig WindowsConfigProofs WindowsSession WindowsIpHelper.

Module WindowsMachine.
Import WindowsConfig WindowsConfigProofs WindowsSession WindowsIpHelper.

Create HintDb reads.

(** ** What the calls do *)

Definition sock_ip (a : SockaddrInet) : IpAddr :=
  match a with Ipv4 n => V4 n | Ipv6 n _ => V6 n | OtherFamily _ => V4 0 end.
Definition sock_scope (a : SockaddrInet) : Z := match a with Ipv6 _ scope => scope | _ => 0 end.

Definition row_key (row : ForwardRow) : RouteKey :=
  (sock_ip (f_prefix row), f_prefix_len row, (sock_ip (f_next_hop row), sock_scope (f_next_hop row)), f_luid row).

Definition quiet {S A} (v : S -> View) (f : S -> A * S) : Prop := forall s, v (snd (f s)) = v s.

(** A status that says that the interface does not exist. *)
Definition missing (status : Z) : Prop := is_missing_interface_error (RawOs (as_i32 status)) = true.

Class WinApiLaws (S : Type) `{API : WinApi S} := {
  os_view : S -> View;
  guid_owner : Guid -> Z;
  alias_quiet : forall a, quiet os_view (ConvertInterfaceAliasToLuid a);
  name_quiet : forall l, quiet os_view (ConvertInterfaceLuidToAlias l);
  guid_quiet : forall l, quiet os_view (ConvertInterfaceLuidToGuid l);
  best_quiet : forall a, quiet os_view (GetBestRoute2 a);
  forward_table_quiet : quiet os_view GetIpForwardTable2;
  interface_table_quiet : forall f, quiet os_view (GetIpInterfaceTable f);
  entry_quiet : forall e, quiet os_view (GetIpInterfaceEntry e);
  load_quiet : quiet os_view LoadLibraryW;
  proc_quiet : forall n, quiet os_view (GetProcAddress n);
  free_quiet : quiet os_view FreeLibrary;
  get_dns_quiet : forall g, quiet os_view (GetInterfaceDnsSettings g);
  guid_law : forall l s g s', ConvertInterfaceLuidToGuid l s = ((NO_ERROR, g), s') -> guid_owner g = l;
  entry_law : forall l s status row s', GetIpInterfaceEntry (entry_of AF_INET l) s = ((status, row), s') ->
    (status = NO_ERROR -> ifs (os_view s) !! l = Some (i_settings row) /\ i_luid row = l) /\
    (missing status -> ifs (os_view s) !! l = None);
  set_entry_law : forall row s status s', SetIpInterfaceEntry row s = (status, s') ->
    if status =? NO_ERROR
    then is_Some (ifs (os_view s) !! i_luid row) /\ os_view s' = upd_ifs <[i_luid row := i_settings row]> (os_view s)
    else os_view s' = os_view s /\ (missing status -> ifs (os_view s) !! i_luid row = None);
  create_entry_law : forall row s status s', CreateIpForwardEntry2 row s = (status, s') ->
    if status =? NO_ERROR
    then rows (os_view s) !! row_key row = None /\ os_view s' = upd_rows <[row_key row := f_metric row]> (os_view s)
    else os_view s' = os_view s /\
      (status = ERROR_OBJECT_ALREADY_EXISTS -> is_Some (rows (os_view s) !! row_key row));
  delete_entry_law : forall row s status s', DeleteIpForwardEntry2 row s = (status, s') ->
    if status =? NO_ERROR then os_view s' = upd_rows (delete (row_key row)) (os_view s)
    else os_view s' = os_view s /\ (status = ERROR_NOT_FOUND -> rows (os_view s) !! row_key row = None);
  get_dns_law : forall g s n s', GetInterfaceDnsSettings g s = ((NO_ERROR, n), s') ->
    servers (os_view s) !! guid_owner g = n;
  set_dns_entry_law : forall g n s status s', SetInterfaceDnsSettings g n s = (status, s') ->
    if status =? NO_ERROR
    then os_view s' = upd_servers (partial_alter (fun _ => n) (guid_owner g)) (os_view s)
    else os_view s' = os_view s;
}.

Section laws.
Context {S : Type} `{WL : WinApiLaws S}.

Lemma row_key_route r : row_key (route_row r) = key r.
Proof. destruct r as [[] p [[] sc] l m]; reflexivity. Qed.

(** ** Reading *)

Lemma sys_reads {A} (f : S -> A * S) : quiet os_view f -> reads os_view (sys f).
Proof.
  intros Q s r s' E. unfold sys in E. specialize (Q s). destruct (f s) as [a s1]. by simplify_eq/=.
Qed.

Lemma bind_reads {A B} (m : M S NetError A) (k : A -> M S NetError B) :
  reads os_view m -> (forall a, reads os_view (k a)) -> reads os_view (m ≫= k).
Proof.
  intros Hm Hk s r s' E. unfold mbind, M_bind in E. destruct (m s) as [[a | e |] s1] eqn:E1;
    destruct (Hm _ _ _ E1) as [V N]; [| by simplify_eq | done].
  destruct (Hk a _ _ _ E) as [V' N']. split; [congruence | done].
Qed.

Lemma ret_reads {A} (a : A) : reads os_view (mret a : M S NetError A).
Proof. intros s r s' E. unfold mret, M_ret in E. by simplify_eq. Qed.
Lemma throw_reads {A} e : reads os_view (throw e : M S NetError A).
Proof. intros s r s' E. unfold throw in E. by simplify_eq. Qed.
Lemma win32_reads st : reads os_view (win32_result st).
Proof. unfold win32_result. destruct (st =? NO_ERROR); [apply ret_reads | apply throw_reads]. Qed.
Lemma address_reads a : reads os_view (lift (route_address a)).
Proof. intros s r s' E. unfold lift in E. destruct a; by simplify_eq/=. Qed.
Lemma gets_reads {A} (f : S -> A) : reads os_view (gets f : M S NetError A).
Proof. intros s r s' E. unfold gets in E. by simplify_eq. Qed.

Hint Resolve sys_reads bind_reads ret_reads throw_reads win32_reads address_reads gets_reads : reads.
Hint Resolve alias_quiet name_quiet guid_quiet best_quiet forward_table_quiet interface_table_quiet entry_quiet
  load_quiet proc_quiet free_quiet get_dns_quiet : reads.

(** Read-only code, by its shape. *)
Ltac reads_only :=
  repeat match goal with
  | |- forall _, _ => intro
  | |- reads _ (match ?x with _ => _ end) => destruct x
  | |- reads _ (_ ≫= _) => apply bind_reads
  | |- _ => solve [auto with reads]
  end.

Lemma luid_to_guid_reads l : reads os_view (luid_to_guid l).
Proof. unfold luid_to_guid. reads_only. Qed.
Lemma interface_row_reads l : reads os_view (ip_interface_row l).
Proof. unfold ip_interface_row. reads_only. Qed.
Lemma load_reads : reads os_view dns_api_load.
Proof. unfold dns_api_load. reads_only. Qed.

Hint Resolve luid_to_guid_reads interface_row_reads load_reads : reads.

Lemma scan_rows_reads table : forall cache routes, reads os_view (scan_rows table cache routes).
Proof.
  induction table as [| row table IH]; intros cache routes; cbn [scan_rows]; [auto with reads |].
  unfold interface_of. reads_only; apply IH.
Qed.

Lemma scan_interfaces_reads table : forall targets, reads os_view (scan_interfaces table targets).
Proof.
  induction table as [| row table IH]; intros targets; cbn [scan_interfaces]; [auto with reads |].
  intros s r s' E. assert (R : reads os_view (interface_alias (i_luid row))) by (unfold interface_alias; reads_only).
  destruct (interface_alias (i_luid row) s) as [[a | e |] s1] eqn:E1; destruct (R _ _ _ E1) as [V N];
    apply IH in E as [V' N']; (split; [congruence | done]).
Qed.

Lemma then_free_reads {A} (m : M S NetError A) : reads os_view m -> reads os_view (then_free m).
Proof.
  intros R s r s' E. unfold then_free in E. destruct (m s) as [r1 s1] eqn:E1. destruct (R _ _ _ E1) as [V N].
  simplify_eq. split; [| done]. by rewrite free_quiet.
Qed.

(** ** The laws of the session *)

Lemma win32_ok st (s : S) r s' : win32_result st s = (r, s') ->
  s' = s /\ r = (if st =? NO_ERROR then Ok tt else Err (RawOs (as_i32 st))).
Proof. unfold win32_result. destruct (st =? NO_ERROR); run_M; by intros [= <- <-]. Qed.

Lemma route_address_hop a h : route_address a = Ok h -> hop_wf h.
Proof. unfold route_address, hop_wf. destruct a; intros; simplify_eq/=; done. Qed.

Lemma scan_rows_hops table : forall cache routes s l s',
  scan_rows table cache routes s = (Ok l, s') ->
  Forall (fun x => hop_wf (next_hop x.1)) routes -> Forall (fun x => hop_wf (next_hop x.1)) l.
Proof.
  induction table as [| row table IH]; intros cache routes s l s' E Hr; cbn [scan_rows] in E; [by run_M; simplify_eq |].
  unfold mbind, M_bind at 1 in E. destruct (interface_of row cache s) as [[[i c] | |] s1]; [| done | done].
  destruct (option_bind _ _ _ _); [| by eapply IH]. run_M.
  destruct (route_address (f_prefix row)) as [d | |]; [| done | done].
  destruct (route_address (f_next_hop row)) as [h | |] eqn:Eh; [| done | done].
  eapply IH; [exact E |]. apply Forall_app. split; [done |]. constructor; [| done]. by eapply route_address_hop.
Qed.

Lemma helper_best_hop d s l h s' : helper_best_route d s = (Ok (l, h), s') -> hop_wf h.
Proof.
  unfold helper_best_route, sys. run_M. destruct (GetBestRoute2 _ s) as [[st row] s1]. simpl.
  destruct (win32_result st s1) as [[[] | |] s2]; simpl; [| done | done].
  destruct (route_address (f_next_hop row)) as [h' | |] eqn:Eh; [| done | done]. intros [= _ <- _].
  by eapply route_address_hop.
Qed.

Lemma helper_physical_hops s l s' :
  helper_physical_routes s = (Ok l, s') -> Forall (fun x => hop_wf (next_hop x.1)) l.
Proof.
  unfold helper_physical_routes, sys. run_M. destruct (GetIpForwardTable2 s) as [[st [table |]] s1]; simpl;
    (destruct (win32_result st s1) as [[[] | |] s2]; simpl; [| done | done]); [| done].
  intros E. eapply scan_rows_hops; [exact E | constructor].
Qed.

Lemma helper_create_law r s res s' : helper_create_route r s = (res, s') ->
  match res with
  | Ok Created => rows (os_view s) !! key r = None /\ os_view s' = upd_rows <[key r := metric r]> (os_view s)
  | Ok Preexisting => is_Some (rows (os_view s) !! key r) /\ os_view s' = os_view s
  | Err _ => os_view s' = os_view s
  | Panic => False
  end.
Proof.
  unfold helper_create_route, sys. run_M. destruct (CreateIpForwardEntry2 _ s) as [st s1] eqn:E1. simpl.
  pose proof (create_entry_law _ _ _ _ E1) as L. rewrite row_key_route in L.
  destruct (Z.eqb_spec st ERROR_OBJECT_ALREADY_EXISTS) as [-> | Hne].
  - intros [= <- <-]. simpl in L. destruct L as [L1 L2]. auto.
  - destruct (win32_result st s1) as [r1 s2] eqn:E2. apply win32_ok in E2 as [-> ->].
    destruct (st =? NO_ERROR); simpl; intros [= <- <-]; [done | apply L].
Qed.

Lemma helper_delete_law r s res s' : helper_delete_route r s = (res, s') ->
  match res with
  | Ok _ => os_view s' = upd_rows (delete (key r)) (os_view s)
  | Err _ => os_view s' = os_view s
  | Panic => False
  end.
Proof.
  unfold helper_delete_route, sys. run_M. destruct (DeleteIpForwardEntry2 _ s) as [st s1] eqn:E1. simpl.
  pose proof (delete_entry_law _ _ _ _ E1) as L. rewrite row_key_route in L.
  destruct (Z.eqb_spec st ERROR_NOT_FOUND) as [-> | Hne].
  - intros [= <- <-]. simpl in L. destruct L as [-> L2]. unfold upd_rows. rewrite delete_id by auto.
    by destruct (os_view s).
  - intros E2. apply win32_ok in E2 as [-> ->]. destruct (st =? NO_ERROR); [done | apply L].
Qed.

Lemma ip_interface_row_law l s r s' : ip_interface_row l s = (r, s') ->
  match r with
  | Ok row => ifs (os_view s) !! l = Some (i_settings row) /\ i_luid row = l
  | Err e => is_missing_interface_error e = true -> ifs (os_view s) !! l = None
  | Panic => True
  end.
Proof.
  unfold ip_interface_row, sys. run_M. destruct (GetIpInterfaceEntry _ s) as [[st row] s1] eqn:E1. simpl.
  destruct (entry_law _ _ _ _ _ E1) as [L1 L2].
  destruct (win32_result st s1) as [r1 s2] eqn:E2. apply win32_ok in E2 as [-> ->].
  destruct (Z.eqb_spec st NO_ERROR); simpl; intros [= <- <-]; auto.
Qed.

Lemma helper_settings_law l s c s' :
  helper_interface_settings l s = (Ok c, s') -> ifs (os_view s) !! l = Some c.
Proof.
  unfold helper_interface_settings. run_M. destruct (ip_interface_row l s) as [[row | |] s1] eqn:E1; [| done | done].
  intros [= <- _]. by apply ip_interface_row_law in E1 as [E1 _].
Qed.

Lemma helper_patch_law l p s res s' : helper_apply_interface_patch l p s = (res, s') ->
  match res with
  | Ok _ => os_view s' = upd_ifs (alter (patched p) l) (os_view s)
  | Err e => os_view s' = os_view s /\ (is_missing_interface_error e = true -> ifs (os_view s) !! l = None)
  | Panic => False
  end.
Proof.
  unfold helper_apply_interface_patch. destruct (patch_is_empty p) eqn:Ep.
  { run_M. intros [= <- <-]. destruct p as [[] [] []]; try done. destruct (os_view s) as [a b c].
    unfold upd_ifs. simpl. f_equal. symmetry. apply map_eq. intros k. destruct (decide (k = l)) as [-> | Hne].
    - rewrite lookup_alter_eq. by destruct (b !! l) as [[] |].
    - by rewrite lookup_alter_ne. }
  run_M. destruct (ip_interface_row l s) as [r1 s1] eqn:E1.
  destruct (interface_row_reads _ _ _ _ E1) as [V N]. pose proof (ip_interface_row_law _ _ _ _ E1) as L.
  destruct r1 as [row | e |]; [| by intros [= <- <-] | done]. destruct L as [L1 L2]. unfold sys.
  destruct (SetIpInterfaceEntry _ s1) as [st s2] eqn:E2. pose proof (set_entry_law _ _ _ _ E2) as L. simpl in L.
  rewrite V, L2 in L. intros E3. apply win32_ok in E3 as [-> ->].
  destruct (st =? NO_ERROR); destruct L as [L3 L4]; [| done]. rewrite L4. unfold upd_ifs. f_equal.
  apply map_eq. intros k. destruct (decide (k = l)) as [-> | Hne].
  - by rewrite lookup_insert_eq, lookup_alter_eq, L1.
  - by rewrite lookup_insert_ne, lookup_alter_ne by done.
Qed.

Lemma with_dns_api_run {A} (m : M S NetError A) s r s' :
  with_dns_api m s = (r, s') ->
  (exists e, r = Err e /\ os_view s' = os_view s) \/
  exists s1 s2, os_view s1 = os_view s /\ m s1 = (r, s2) /\ os_view s' = os_view s2.
Proof.
  unfold with_dns_api, then_free, mbind, M_bind. destruct (dns_api_load s) as [r1 s1] eqn:E1.
  destruct (load_reads _ _ _ E1) as [V N]. destruct r1 as [[] | e |]; [| intros [= <- <-]; eauto | done].
  destruct (m s1) as [r2 s2] eqn:E2. intros [= <- <-]. right. exists s1, s2. split; [done | split; [done |]].
  apply free_quiet.
Qed.

Lemma luid_to_guid_owner l s g s' : luid_to_guid l s = (Ok g, s') -> guid_owner g = l.
Proof.
  unfold luid_to_guid, sys. run_M. destruct (ConvertInterfaceLuidToGuid l s) as [[st g'] s1] eqn:E1. simpl.
  destruct (win32_result st s1) as [r1 s2] eqn:E2. apply win32_ok in E2 as [-> ->].
  destruct (Z.eqb_spec st NO_ERROR) as [-> |]; simpl; [| done]. intros [= <- _]. by eapply guid_law.
Qed.

Lemma helper_snapshot_law l s v s' : helper_snapshot_dns l s = (Ok v, s') -> servers (os_view s) !! l = v.
Proof.
  unfold helper_snapshot_dns. intros [(e & [=] & _) | (s1 & s2 & V & E & _)]%with_dns_api_run. rewrite <- V. revert E.
  run_M. destruct (luid_to_guid l s1) as [[g | |] s3] eqn:E1; [| done | done].
  destruct (luid_to_guid_reads _ _ _ _ E1) as [V1 _]. apply luid_to_guid_owner in E1. unfold sys.
  destruct (GetInterfaceDnsSettings g s3) as [[st n] s4] eqn:E2.
  destruct (win32_result st s4) as [r5 s5] eqn:E3. apply win32_ok in E3 as [-> ->].
  destruct (Z.eqb_spec st NO_ERROR) as [-> |]; simpl; [| done]. intros [= <- _].
  rewrite <- V1, <- E1. by eapply get_dns_law.
Qed.

Lemma helper_set_dns_law l v s res s' : helper_set_dns l v s = (res, s') ->
  match res with
  | Ok _ => os_view s' = upd_servers (partial_alter (fun _ => v) l) (os_view s)
  | Err _ => os_view s' = os_view s
  | Panic => False
  end.
Proof.
  unfold helper_set_dns. intros [(e & -> & V) | (s1 & s2 & V & E & V2)]%with_dns_api_run; [done |].
  rewrite V2, <- V. revert E. run_M. destruct (luid_to_guid l s1) as [r1 s3] eqn:E1.
  destruct (luid_to_guid_reads _ _ _ _ E1) as [V1 N1].
  destruct r1 as [g | e |]; [| by intros [= <- <-] | done]. apply luid_to_guid_owner in E1. unfold sys.
  destruct (SetInterfaceDnsSettings g v s3) as [st s4] eqn:E2. pose proof (set_dns_entry_law _ _ _ _ _ E2) as L.
  intros E3. apply win32_ok in E3 as [-> ->]. rewrite V1, E1 in L. by destruct (st =? NO_ERROR).
Qed.

#[export] Instance ip_helper_laws : NetworkLaws S.
Proof.
  refine {| view := os_view; create_law := helper_create_law; delete_law := helper_delete_law;
    settings_law := helper_settings_law; patch_law := helper_patch_law; snapshot_law := helper_snapshot_law;
    set_dns_law := helper_set_dns_law; best_route_hop := helper_best_hop; physical_hops := helper_physical_hops |};
    simpl.
  - unfold helper_interface_luid. reads_only.
  - unfold helper_best_route. reads_only.
  - unfold helper_physical_routes. reads_only. apply scan_rows_reads.
  - unfold helper_wsl_hns_interfaces. reads_only. apply scan_interfaces_reads.
  - unfold helper_interface_settings. reads_only.
  - unfold helper_snapshot_dns, with_dns_api. reads_only. apply then_free_reads. reads_only.
Defined.
End laws.

(** ** A machine with faults *)

(** The view, the names of the interfaces, and which of the next changes fail. *)
Record Machine := mkMachine { m_view : View; m_names : list (Z * string); m_faults : list bool }.

Definition ERROR_ACCESS_DENIED : Z := 5.

(** A change: refused when a fault is due. *)
Definition guarded (f : View -> Z * View) (m : Machine) : Z * Machine :=
  match m_faults m with
  | true :: rest => (ERROR_ACCESS_DENIED, mkMachine (m_view m) (m_names m) rest)
  | faults => let '(st, v) := f (m_view m) in (st, mkMachine v (m_names m) (tail faults))
  end.

Definition sock_of (ip : IpAddr) (scope : Z) : SockaddrInet := match ip with V4 n => Ipv4 n | V6 n => Ipv6 n scope end.

Definition row_of (x : RouteKey * Z) : ForwardRow :=
  let '((d, p, (h, sc), l), n) := x in mkForward l (sock_of d 0) p (sock_of h sc) n 3 0 1 false.

#[export] Instance machine_api : WinApi Machine := {|
  Guid := Z;
  initial_forward_entry := mkForward 0 (Ipv4 0) 0 (Ipv4 0) 0 0 0 1 false;
  initial_interface_entry := mkInterface 0 0 (mkSettings false false false) false false 0;
  ConvertInterfaceAliasToLuid a m :=
    (match list_find (fun x => x.2 = a) (m_names m) with Some (_, x) => (NO_ERROR, x.1) | None => (87, 0) end, m);
  ConvertInterfaceLuidToAlias l m :=
    (match list_find (fun x => x.1 = l) (m_names m) with Some (_, x) => (NO_ERROR, x.2) | None => (87, EmptyString) end, m);
  ConvertInterfaceLuidToGuid l m := ((NO_ERROR, l), m);
  ConvertInterfaceLuidToIndex l m := ((NO_ERROR, l), m);
  GetBestRoute2 _ m :=
    (match list_find (fun x => f_prefix_len x = 0) (row_of <$> map_to_list (rows (m_view m))) with
     | Some (_, row) => (NO_ERROR, row)
     | None => (1231, mkForward 0 (Ipv4 0) 0 (Ipv4 0) 0 0 0 1 false)
     end, m);
  GetIpForwardTable2 m := ((NO_ERROR, Some (row_of <$> map_to_list (rows (m_view m)))), m);
  GetIpInterfaceTable _ m :=
    ((NO_ERROR, Some ((fun x => mkInterface AF_INET x.1 x.2 true false 25) <$> map_to_list (ifs (m_view m)))), m);
  GetIpInterfaceEntry e m :=
    (match ifs (m_view m) !! i_luid e with
     | Some c => (NO_ERROR, mkInterface (i_family e) (i_luid e) c true false 25)
     | None => (ERROR_NOT_FOUND, e)
     end, m);
  SetIpInterfaceEntry row := guarded (fun v =>
    match ifs v !! i_luid row with
    | Some _ => (NO_ERROR, upd_ifs <[i_luid row := i_settings row]> v)
    | None => (ERROR_NOT_FOUND, v)
    end);
  CreateIpForwardEntry2 row := guarded (fun v =>
    match rows v !! row_key row with
    | Some _ => (ERROR_OBJECT_ALREADY_EXISTS, v)
    | None => (NO_ERROR, upd_rows <[row_key row := f_metric row]> v)
    end);
  DeleteIpForwardEntry2 row := guarded (fun v =>
    match rows v !! row_key row with
    | Some _ => (NO_ERROR, upd_rows (delete (row_key row)) v)
    | None => (ERROR_NOT_FOUND, v)
    end);
  LoadLibraryW m := (true, m);
  last_os_error _ := 0;
  GetProcAddress _ m := (true, m);
  FreeLibrary m := (tt, m);
  GetInterfaceDnsSettings g m := ((NO_ERROR, servers (m_view m) !! g), m);
  SetInterfaceDnsSettings g n := guarded (fun v => (NO_ERROR, upd_servers (partial_alter (fun _ => n) g) v));
|}.

Lemma guarded_spec f m st m' :
  guarded f m = (st, m') ->
  (st = ERROR_ACCESS_DENIED /\ m_view m' = m_view m) \/ f (m_view m) = (st, m_view m').
Proof.
  unfold guarded. destruct (m_faults m) as [| [] l]; [| by intros [= <- <-]; left |];
    destruct (f (m_view m)) as [st1 v1]; intros [= <- <-]; by right.
Qed.

#[export] Instance machine_laws : WinApiLaws Machine.
Proof.
  refine {| os_view := m_view; guid_owner := (fun g : @Guid Machine machine_api => g) |}; try (by intros ? ?); try done.
  - by intros l s g s' [= <- _].
  - intros l s status row s'. simpl. destruct (ifs (m_view s) !! l) as [c |]; intros [= <- <- _]; split; done.
  - intros row s status s' [[-> V] | E]%guarded_spec; simpl; [done |].
    destruct (ifs (m_view s) !! i_luid row) as [c |] eqn:Ec; injection E as <- <-; simpl; [eauto | done].
  - intros row s status s' [[-> V] | E]%guarded_spec; simpl; [done |].
    destruct (rows (m_view s) !! row_key row) as [n |] eqn:Ec; injection E as <- <-; simpl; eauto.
  - intros row s status s' [[-> V] | E]%guarded_spec; simpl; [done |].
    destruct (rows (m_view s) !! row_key row) as [n |] eqn:Ec; injection E as <- <-; simpl; eauto.
  - by intros g s n s' [= <- _].
  - intros g n s status s' [[-> V] | E]%guarded_spec; simpl; [done |]. by injection E as <- <-.
Defined.

(** ** A session on the machine *)

#[export] Instance example_cidr : TproxyConfig := {|
  IpCidr := IpAddr * Z;
  contains c ip := contains_destination (mkRoute c.1 c.2 (mkRA c.1 0) 0 0) ip;
  new_host ip := (ip, host_prefix ip);
  cidr_is_ipv4 c := is_ipv4 c.1;
  network_length c := c.2;
  first_address c := c.1;
  is_private_ip ip := contains_destination (mkRoute (ipv4 192 168 0 0) 16 (mkRA ip 0) 0 0) ip;
|}.

Definition hop_a : IpAddr := ipv4 192 168 1 1.
Definition hop_b : IpAddr := ipv4 192 168 2 1.
Definition default_via (hop : IpAddr) (luid : Z) : RouteKey := (V4 0, 0, (hop, 0), luid).

(** Two physical interfaces, the adapter, and a virtual switch of WSL. *)
Definition view0 : View :=
  mkView {[default_via hop_a 7 := 10; default_via hop_b 8 := 50]}
    {[7 := mkSettings false false false; 8 := mkSettings false false false;
      9 := mkSettings false false true; 11 := mkSettings false false false]}
    {[7 := "192.168.1.1"]}.

Definition machine (faults : list bool) : Machine :=
  mkMachine view0 [(7, "Ethernet"); (8, "Wi-Fi"); (9, "tun0"); (11, "vEthernet (WSL)")] faults.

Definition upstream : IpAddr := ipv4 203 0 113 5.
Definition upstream2 : IpAddr := ipv4 203 0 113 9.

Definition args0 : TproxyArgs :=
  mkArgs "tun0" [(ipv4 10 0 0 0, 8)] (mkSA upstream 1080) true false (ipv4 10 9 0 1).

(** The machine and the record after an installation without faults. *)
Definition installed (faults : list bool) : option (InstallRecord * Machine) :=
  match install args0 true (machine (repeat false 8 ++ faults)) with
  | (Ok (r, _), m) => Some (r, m)
  | _ => None
  end.

Definition tgt0 : InterfaceTarget := mkTarget 9 "tun0" Tun.

(** Monitor turns, one after another. *)
Fixpoint serve (cs : list NetworkCommand) (w : World) : World :=
  match cs with
  | [] => w
  | c :: cs' =>
      let '(_, _, m, s) := monitor_turn tgt0 c (w_mon w) (w_state w) in serve cs' (mkWorld (w_base w) m s)
  end.

Lemma serve_steps cs : forall w : World (S := Machine), rtc (step tgt0) w (serve cs w).
Proof.
  induction cs as [| c cs IH]; intros [b m s]; cbn [serve]; [done |].
  destruct (monitor_turn tgt0 c _ _) as [[[o go] m1] s1] eqn:E. eapply rtc_l; [| apply IH].
  by eapply step_turn.
Qed.

Example installed_example : match installed [] with
  | Some (r, m) => length (owned_routes r) = 5%nat /\ length (interface_snapshots r) = 2%nat /\ m_faults m = []
  | None => False
  end.
Proof. by vm_compute. Qed.

(** The installation whose third route is refused. *)
Definition faulty : Machine := machine (repeat false 4 ++ [true]).

Definition failed_cleanly (r : res NetError (InstallRecord * bool)) : bool :=
  match r with Err (Incomplete _ _ _) => false | Err _ => true | _ => false end.

Lemma windows_install_atomic_witness :
  failed_cleanly (fst (install args0 true faulty)) = true /\ m_view (snd (install args0 true faulty)) = m_view faulty.
Proof.
  assert (F : failed_cleanly (fst (install args0 true faulty)) = true) by (vm_compute; reflexivity).
  split; [exact F |]. destruct (install args0 true faulty) as [res s'] eqn:E.
  pose proof (windows_install_atomic args0 true faulty res s' E) as H. simpl in F.
  destruct res as [[r b] | e |]; [discriminate F | | discriminate F].
  destruct H as [H | (a & b & c & r & -> & _)]; [exact H | discriminate F].
Defined.

(** The state of a new session, and a test of the state it reaches. *)
Definition start (r : InstallRecord) (m : Machine) : World := mkWorld view0 (mkMonitor r None []) m.

Definition session_check (faults : list bool) (cs : list NetworkCommand) (test : World -> bool) : bool :=
  match installed faults with
  | Some (r, m) => (tun_luid r =? 9) && test (serve cs (start r m))
  | None => false
  end.

Lemma serve_base cs : forall w, w_base (serve cs w) = w_base w.
Proof.
  induction cs as [| c cs IH]; intros w; cbn [serve]; [done |].
  destruct (monitor_turn _ _ _ _) as [[[? ?] ?] ?]. by rewrite IH.
Qed.

Lemma session_check_spec faults cs test :
  session_check faults cs test = true ->
  exists r b m, install args0 true (machine (repeat false 8 ++ faults)) = (Ok (r, b), m) /\
    rtc (step (tun_target args0 (tun_luid r))) (start r m) (serve cs (start r m)) /\
    test (serve cs (start r m)) = true.
Proof.
  unfold session_check, installed. destruct (install _ _ _) as [[[r b] | e |] m]; [| intros [=] | intros [=]].
  intros [Ht Hc]%andb_true_iff. exists r, b, m. split; [done | split; [| done]].
  apply Z.eqb_eq in Ht. unfold tun_target. rewrite Ht. apply serve_steps.
Qed.

(** A session: an update is committed, another one rolled back, the settings and
    the routes are reconciled; one deletion of the roll-back and one of the
    removal fail. *)
Definition commands : list NetworkCommand :=
  [PrepareBypasses [upstream2] false; CommitBypasses; Timeout; PrepareBypasses [hop_b] false; RollbackBypasses; Timeout].

Definition session_faults : list bool := [false; false; true; false; true].


(** The removal of that session, with a fault: it reports an error, and the
    second attempt of the guard succeeds. *)
Definition removal_check (w : World (S := Machine)) : bool :=
  match cleanup_transaction (record (w_mon w)) (w_state w) with
  | (Err _, r1, s2) => match cleanup_transaction r1 s2 with (Ok _, _, _) => true | _ => false end
  | _ => false
  end.


(** A committed update on a fresh session. *)
Lemma windows_update_atomic_witness :
  exists (m : Monitor) (s : Machine) d, d ∈ desired_bypasses (record m) /\ destination d = upstream2 /\
    is_Some (rows (m_view s) !! key d).
Proof.
  destruct (session_check_spec [] [] (fun w =>
    match monitor_turn tgt0 (PrepareBypasses [upstream2] false) (w_mon w) (w_state w) with
    | (Some (Ok _), _, _, _) => true | _ => false end)) as (r & b & m & Ei & Hs & Hc); [vm_compute; reflexivity |].
  destruct (monitor_turn tgt0 (PrepareBypasses [upstream2] false) _ _) as [[[o go] m1] s1] eqn:E.
  destruct o as [reply |]; [| discriminate Hc].
  pose proof (windows_update_atomic args0 true _ r b m (start r m) tgt0 [upstream2] reply go m1 s1 Ei Hs
    eq_refl eq_refl (proj1 (install_opened _ _ _ _ _ Ei)) E) as [_ H].
  destruct reply as [[] | |]; [| discriminate Hc | discriminate Hc].
  destruct (monitor_turn tgt0 CommitBypasses m1 s1) as [[[o2 go2] m2] s2] eqn:E2.
  destruct (H eq_refl _ _ _ _ eq_refl upstream2) as (d & H1 & H2 & _ & _ & H3);
    [apply list_elem_of_singleton; reflexivity | reflexivity |]. exists m2, s2, d. auto.
Defined.

(** ** A row that is not the session's any more *)

Definition with_rows (f : gmap RouteKey Z -> gmap RouteKey Z) (m : Machine) : Machine :=
  mkMachine (upd_rows f (m_view m)) (m_names m) (m_faults m).

(** Somebody else changes a route. *)
Definition foreign_rows (f : gmap RouteKey Z -> gmap RouteKey Z) (w : World) : World :=
  mkWorld (upd_rows f (w_base w)) (w_mon w) (with_rows f (w_state w)).

#[local] Instance InterfaceSettings_eq_dec : EqDecision InterfaceSettings.
Proof. solve_decision. Defined.

(** What the time-out is there for: a bypass of the session that somebody deleted
    and a forwarding flag that somebody reset are set again, and the removal then
    leaves the machine as it would be without the session. *)
Definition disturb (w : World) : World :=
  let w1 := foreign_rows (delete (upstream, 32, (hop_a, 0), 7)) w in
  mkWorld (w_base w1) (w_mon w1)
    (mkMachine (upd_ifs <[11 := mkSettings false false false]> (m_view (w_state w1))) (m_names (w_state w1)) (m_faults (w_state w1))).

Example disturbed_session_recovers :
  session_check [] [] (fun w =>
    let w1 := disturb w in let w2 := serve [Timeout] w1 in
    bool_decide (rows (m_view (w_state w)) !! (upstream, 32, (hop_a, 0), 7) = Some BYPASS_ROUTE_METRIC) &&
    bool_decide (rows (m_view (w_state w1)) !! (upstream, 32, (hop_a, 0), 7) = None) &&
    bool_decide (rows (m_view (w_state w2)) !! (upstream, 32, (hop_a, 0), 7) = Some BYPASS_ROUTE_METRIC) &&
    bool_decide (ifs (m_view (w_state w1)) !! 11 <> ifs (m_view (w_state w)) !! 11) &&
    bool_decide (ifs (m_view (w_state w2)) !! 11 = ifs (m_view (w_state w)) !! 11) &&
    (let m := m_view (snd (remove (record (w_mon w2)) (w_state w2))) in
     bool_decide (rows m = rows (w_base w2)) && bool_decide (ifs m = ifs (w_base w2)) && bool_decide (servers m = servers (w_base w2)))) = true.
Proof. vm_compute. reflexivity. Qed.

Definition unclaimed (k : RouteKey) (w : World (S := Machine)) : bool := bool_decide (k ∉ key <$> claimed (w_mon w)).

Definition away (w : World) : World :=
  serve [PrepareBypasses [upstream] false; RollbackBypasses] (foreign_rows (delete (default_via hop_a 7)) w).

(** The physical interface goes away while an upstream is prepared, the roll-back
    fails twice, and the interface comes back in between. *)
Definition race (w : World) : World := serve [Timeout] (foreign_rows <[default_via hop_a 7 := 10]> (away w)).

Definition provisional : RouteKey := (upstream, 32, (hop_b, 0), 8).

Definition race_check (w : World) : bool :=
  unclaimed (default_via hop_a 7) w && unclaimed (default_via hop_a 7) (away w) &&
  bool_decide (rows (m_view (w_state (away w))) !! default_via hop_a 7 = None) &&
  bool_decide (provisional ∉ key <$> owned_routes (record (w_mon (race w)))) &&
  bool_decide (rows (m_view (w_state (race w))) !! provisional = None) &&
  bool_decide (rows (m_view (w_state (serve [Timeout] (foreign_rows <[provisional := 1]> (race w))))) !! provisional = None).

Lemma foreign_removes k w : step tgt0 w (foreign_rows (delete k) w).
Proof.
  destruct w as [b m s]. apply (step_foreign tgt0 b m s _ (with_rows (delete k) s)).
  exact (route_removed m b (m_view s) k).
Qed.

Lemma foreign_adds k n w :
  rows (m_view (w_state w)) !! k = None -> k ∉ key <$> claimed (w_mon w) -> step tgt0 w (foreign_rows <[k := n]> w).
Proof.
  destruct w as [b m s]. intros Hn H. apply (step_foreign tgt0 b m s _ (with_rows <[k := n]> s)).
  exact (route_added m b (m_view s) k n Hn H).
Qed.

Lemma race_steps w : race_check w = true -> rtc (step tgt0) w (race w).
Proof.
  unfold race_check, unclaimed. rewrite !andb_true_iff, !bool_decide_eq_true.
  intros (((((H1 & H2) & H3) & _) & _) & _). etrans; [| apply serve_steps].
  etrans; [| apply rtc_once, foreign_adds; done]. etrans; [| apply serve_steps].
  by apply rtc_once, foreign_removes.
Qed.

(** A provisional row whose roll-back failed stays on the list of rows to delete
    even after the reconciliation has retired it: in a reachable state a row
    that the session does not own is on that list, and when somebody else
    creates the same row, the next time-out deletes it. *)
Theorem windows_rollback_deletes_foreign :
  exists r b m (w : World (S := Machine)), install args0 true (machine (repeat false 8 ++ [false; true; true])) = (Ok (r, b), m) /\
    rtc (step (tun_target args0 (tun_luid r))) (start r m) w /\
    (provisional ∉ key <$> owned_routes (record (w_mon w))) /\
    rows (m_view (w_state w)) !! provisional = None /\
    rows (m_view (w_state (serve [Timeout] (foreign_rows <[provisional := 1]> w)))) !! provisional = None.
Proof.
  destruct (session_check_spec [false; true; true] [] race_check) as (r & b & m & Ei & Hs & Hc);
    [vm_compute; reflexivity |].
  assert (Et : tun_target args0 (tun_luid r) = tgt0).
  { assert (Hb : session_check [false; true; true] [] (fun w => tun_luid (record (w_mon w)) =? 9) = true)
      by (vm_compute; reflexivity).
    unfold session_check, installed in Hb. rewrite Ei in Hb. apply andb_true_iff in Hb as [Hb _].
    apply Z.eqb_eq in Hb. unfold tun_target. by rewrite Hb. }
  exists r, b, m, (race (start r m)). split; [done |]. rewrite Et. cbn [serve] in Hc. split; [by apply race_steps |].
  unfold race_check in Hc. rewrite !andb_true_iff, !bool_decide_eq_true in Hc. tauto.
Qed.
End WindowsMachine.
