(* ===== verification/WindowsBypass.v ===== *)
(** * Live bypass updates: the client side (src/src/windows_network_config.rs)

    [WindowsRouteBypass] and [WindowsPreparedBypass]: the calls that prepare an
    update, wait for its confirmation and commit it, the roll-back sent by a
    dropped guard, and their interleaving with the monitor through the channel.
    Awaiting the operation mutex, the reply or its time-out are separate steps,
    and a future can be dropped at each of them. *)

From S2P Require Import Prelude Net WindowsConfig.

Module WindowsBypass.
Import WindowsConfig.

(** The controller: whether a session attached its channel, who holds the
    operation mutex, and the commands on their way. *)
Inductive Guard := Free | Waiting | Held.

Record WindowsRouteBypass := mkBypass {
  attached : bool;
  operation : Guard;
  channel : list NetworkCommand;
  alive : bool }.

Definition set_operation (g : Guard) (c : WindowsRouteBypass) : WindowsRouteBypass :=
  mkBypass (attached c) g (channel c) (alive c).

(** [Sender::send]: it fails when the monitor has ended. *)
Definition send (cmd : NetworkCommand) (c : WindowsRouteBypass) : bool * WindowsRouteBypass :=
  if alive c then (true, mkBypass (attached c) (operation c) (channel c ++ [cmd]) true) else (false, c).

Definition attach (c : WindowsRouteBypass) : WindowsRouteBypass :=
  mkBypass true (operation c) (channel c) (alive c).

(** [Drop]: the roll-back is sent before the mutex is released. *)
Definition drop_prepared (committed : bool) (c : WindowsRouteBypass) : WindowsRouteBypass :=
  set_operation Free (if committed then c else snd (send RollbackBypasses c)).

Definition commit (c : WindowsRouteBypass) : res string unit * WindowsRouteBypass :=
  match send CommitBypasses c with
  | (true, c1) => (Ok tt, drop_prepared true c1)
  | (false, c1) => (Err "TUN route controller has stopped", drop_prepared false c1)
  end.

(** [prepare_addresses] up to the reply, with the mutex just acquired. *)
Definition prepare_begin (addresses : list IpAddr) (c : WindowsRouteBypass)
    : res string unit * WindowsRouteBypass :=
  if attached c then
    match send (PrepareBypasses addresses false) c with
    | (true, c1) => (Ok tt, set_operation Waiting c1)
    | (false, c1) => (Err "TUN route controller has stopped", drop_prepared false c1)
    end
  else (Err "TUN route controller is not ready", c).

(** How waiting for the reply ends. *)
Inductive Answer := Replied (r : res string unit) | TimedOut | WorkerEnded.

Definition prepare_end (a : Answer) (c : WindowsRouteBypass) : res string unit * WindowsRouteBypass :=
  match a with
  | Replied (Ok _) => (Ok tt, set_operation Held c)
  | Replied (Err e) => (Err e, drop_prepared false c)
  | Replied Panic => (Panic, drop_prepared false c)
  | TimedOut =>
      (Err "TUN upstream bypass update exceeded 5 seconds; previous upstream retained", drop_prepared false c)
  | WorkerEnded => (Err "TUN route worker ended before confirming the upstream bypass", drop_prepared false c)
  end.

(** ** Clients and the monitor together *)

Section system.
Context {S : Type} `{NO : NetworkOperations S}.

Record System := mkSystem { ctl : WindowsRouteBypass; mon : Monitor; os : S }.

(** [reply.is_closed()], decided when the message is served. *)
Definition with_closed (closed : bool) (c : NetworkCommand) : NetworkCommand :=
  match c with PrepareBypasses a _ => PrepareBypasses a closed | _ => c end.

Inductive step (tgt : InterfaceTarget) : System -> System -> Prop :=
  | client_prepares c m s addresses : operation c = Free ->
      step tgt (mkSystem c m s) (mkSystem (snd (prepare_begin addresses c)) m s)
  | client_answered c m s a : operation c = Waiting ->
      step tgt (mkSystem c m s) (mkSystem (snd (prepare_end a c)) m s)
  | client_drops c m s : operation c <> Free ->
      step tgt (mkSystem c m s) (mkSystem (drop_prepared false c) m s)
  | client_commits c m s : operation c = Held ->
      step tgt (mkSystem c m s) (mkSystem (snd (commit c)) m s)
  | guard_stops c m s :
      step tgt (mkSystem c m s) (mkSystem (snd (send Stop c)) m s)
  | monitor_serves c m s cmd rest closed o go m' s' :
      alive c = true -> channel c = cmd :: rest ->
      monitor_turn tgt (with_closed closed cmd) m s = (o, go, m', s') ->
      step tgt (mkSystem c m s) (mkSystem (mkBypass (attached c) (operation c) (if go : bool then rest else []) go) m' s')
  | monitor_wakes c m s o go m' s' :
      alive c = true -> channel c = [] -> monitor_turn tgt Timeout m s = (o, go, m', s') ->
      step tgt (mkSystem c m s) (mkSystem c m' s').

(** Whether a preparation is undecided after the commands, given whether one was
    before; [None] when they are out of order. *)
Fixpoint undecided (open : bool) (q : list NetworkCommand) : option bool :=
  match q with
  | [] => Some open
  | PrepareBypasses _ _ :: q' => if open then None else undecided true q'
  | CommitBypasses :: q' | RollbackBypasses :: q' => if open then undecided false q' else None
  | Stop :: q' => undecided open q'
  | Timeout :: _ => None
  end.

Lemma undecided_app q : forall open q', undecided open (q ++ q') = b ← undecided open q; undecided b q'.
Proof. induction q as [| c q IH]; intros open q'; [done |]. destruct c; simpl; try case_match; auto. Qed.

Definition held (g : Guard) : bool := match g with Free => false | _ => true end.

Definition in_order (y : System) : Prop :=
  alive (ctl y) = true -> exists open,
    undecided open (channel (ctl y)) = Some (held (operation (ctl y))) /\ (pending (mon y) <> None -> open = true).

(** Sending the command that starts or decides an update. *)
Lemma send_in_order c m s cmd g :
  in_order (mkSystem c m s) ->
  (forall b, b = held (operation c) -> undecided b [cmd] = Some (held g)) ->
  in_order (mkSystem (set_operation g (snd (send cmd c))) m s).
Proof.
  unfold in_order, send. simpl. intros H Hc. destruct (alive c) eqn:Ea; [| simpl; congruence]. intros _.
  destruct (H eq_refl) as (b & Hb & Hp). exists b. simpl. split; [| done].
  rewrite undecided_app, Hb. simpl. by apply Hc.
Qed.

Lemma dead_in_order c m s : alive c = false -> in_order (mkSystem c m s).
Proof. intros H. unfold in_order. simpl. congruence. Qed.

Lemma send_dead cmd c : alive c = false -> send cmd c = (false, c).
Proof. intros H. unfold send. by rewrite H. Qed.

Lemma drop_in_order c m s :
  in_order (mkSystem c m s) -> operation c <> Free -> in_order (mkSystem (drop_prepared false c) m s).
Proof.
  intros H Hg. apply send_in_order; [done |]. intros b ->. by destruct (operation c).
Qed.

(** A turn of the monitor keeps the update that is pending, starts one, or
    decides it. *)
Lemma monitor_turn_pending tgt cmd m s o go m' s' :
  monitor_turn tgt cmd m s = (o, go, m', s') ->
  match cmd with
  | PrepareBypasses _ _ | Stop => True
  | CommitBypasses | RollbackBypasses => pending m' = None
  | Timeout => pending m' = pending m
  end.
Proof.
  destruct cmd as [| a [] | | |]; cbn [monitor_turn]; intros E; try done.
  - destruct (pending m) eqn:Ep; by simplify_eq/=.
  - destruct (rollback_upstream_bypasses _ _ s) as [[r1 k] s1]. by simplify_eq/=.
  - destruct (reconcile_interface_settings tgt _ s) as [[x snaps] s1].
    destruct (rollback_upstream_bypasses _ _ s1) as [[r1 k] s2]. destruct (pending m) eqn:Ep; [by simplify_eq/= |].
    destruct (reconcile_bypass_routes r1 s2) as [[y r3] s3]. by simplify_eq/=.
Qed.

Lemma step_in_order tgt y y' : step tgt y y' -> in_order y -> in_order y'.
Proof.
  intros Hs H. destruct Hs as [c m s addresses Ho | c m s a Ho | c m s Ho | c m s Ho | c m s
    | c m s cmd rest closed o go m' s' Ha Hq E | c m s o go m' s' Ha Hq E].
  - unfold prepare_begin. destruct (attached c); [| done]. destruct (alive c) eqn:Ea.
    + pose proof (send_in_order c m s (PrepareBypasses addresses false) Waiting H) as G. revert G.
      unfold send. rewrite Ea, Ho. simpl. intros G. apply G. by intros b ->.
    + rewrite send_dead by done. apply dead_in_order. simpl. unfold drop_prepared. by rewrite send_dead.
  - assert (Hd : in_order (mkSystem (drop_prepared false c) m s)) by (apply drop_in_order; [done | congruence]).
    destruct a as [[[] | e |] | |]; simpl; try done. intros Ha. destruct (H Ha) as (b & Hb & Hp).
    exists b. split; [| done]. simpl in *. by rewrite Hb, Ho.
  - by apply drop_in_order.
  - unfold commit. destruct (alive c) eqn:Ea.
    + pose proof (send_in_order c m s CommitBypasses Free H) as G. revert G. unfold send. rewrite Ea, Ho. simpl.
      intros G. apply G. by intros b ->.
    + rewrite send_dead by done. apply dead_in_order. simpl. unfold drop_prepared. by rewrite send_dead.
  - destruct c as [at_ g q al]. apply (send_in_order _ m s Stop g) in H; [| by intros b ->].
    unfold send in *. by destruct al.
  - intros Hg. simpl in Hg |- *. subst go. destruct (H Ha) as (b & Hb & Hp). simpl in Hb, Hp. rewrite Hq in Hb.
    pose proof (monitor_turn_pending _ _ _ _ _ _ _ _ E) as P.
    destruct cmd as [| a x | | |]; simpl in Hb, P; [discriminate E | | | | done].
    + destruct b; [done |]. exists true. auto.
    + destruct b; [| done]. exists false. split; [done | congruence].
    + destruct b; [| done]. exists false. split; [done | congruence].
  - intros _. destruct (H Ha) as (b & Hb & Hp). exists b. split; [done |]. simpl.
    by rewrite (monitor_turn_pending _ _ _ _ _ _ _ _ E).
Qed.

Lemma steps_in_order tgt y y' : rtc (step tgt) y y' -> in_order y -> in_order y'.
Proof. induction 1; eauto using step_in_order. Qed.

(** ** Theorem *)

(** Live updates never overlap: under every interleaving of clients, which may
    give up or be dropped at any point, and of the monitor, whenever the monitor
    serves a preparation no earlier update is undecided, so that it never forgets
    provisional routes; and once nobody holds the operation and the channel is
    empty, every update has been committed or rolled back. *)
Theorem windows_update_protocol tgt r routes s y :
  rtc (step tgt) (mkSystem (mkBypass true Free [] true) (mkMonitor r None routes) s) y ->
  alive (ctl y) = true ->
  (forall addresses closed rest, channel (ctl y) = PrepareBypasses addresses closed :: rest -> pending (mon y) = None) /\
  (operation (ctl y) = Free -> channel (ctl y) = [] -> pending (mon y) = None).
Proof.
  intros Hs Ha. assert (Hi : in_order y).
  { eapply steps_in_order; [exact Hs |]. intros _. by exists false. }
  destruct (Hi Ha) as (b & Hb & Hp). destruct (pending (mon y)) as [u |] eqn:Ep; [| done].
  rewrite Hp in Hb by done. split.
  - intros a c rest Hq. rewrite Hq in Hb. discriminate Hb.
  - intros Ho Hq. rewrite Hq, Ho in Hb. discriminate Hb.
Qed.
End system.

(** A network without routes or interfaces. *)
#[local] Instance idle_network : NetworkOperations unit := {|
  get_luid _ s := (Ok 9, s);
  best_route _ s := (Err (Plain "unreachable"), s);
  physical_routes s := (Ok [], s);
  create_route _ s := (Ok Created, s);
  delete_route _ s := (Ok tt, s);
  wsl_hns_interfaces s := (Ok [], s);
  interface_settings _ s := (Ok (mkSettings true true true), s);
  apply_interface_patch _ _ s := (Ok tt, s);
  snapshot_dns _ s := (Ok None, s);
  set_dns _ _ s := (Ok tt, s);
|}.

Definition idle_record : InstallRecord := mkRecord 9 None false [] [] [] false.
Definition idle_target : InterfaceTarget := mkTarget 9 "tun0" Tun.

(** A client is served, gives up, and a second one prepares before the roll-back
    of the first is served. *)
Lemma windows_update_protocol_witness :
  exists y : System (S := unit), channel (ctl y) = [PrepareBypasses [] false] /\ pending (mon y) = None.
Proof.
  assert (H : exists y : System (S := unit),
    rtc (step idle_target) (mkSystem (mkBypass true Free [] true) (mkMonitor idle_record None []) tt) y /\
    channel (ctl y) = [PrepareBypasses [] false] /\ alive (ctl y) = true).
  { eexists. split.
    - eapply rtc_l; [apply (client_prepares idle_target _ _ _ []); reflexivity |]. cbn.
      eapply rtc_l; [eapply (monitor_serves idle_target _ _ _ _ _ false); [reflexivity | reflexivity | vm_compute; reflexivity] |]. cbn.
      eapply rtc_l; [apply client_drops; discriminate |]. cbn.
      eapply rtc_l; [apply (client_prepares idle_target _ _ _ []); reflexivity |]. cbn.
      eapply rtc_l; [eapply (monitor_serves idle_target _ _ _ _ _ false); [reflexivity | reflexivity | vm_compute; reflexivity] |]. cbn.
      apply rtc_refl.
    - split; reflexivity. }
  destruct H as (y & Hs & Hq & Ha). exists y. split; [exact Hq |].
  destruct (windows_update_protocol idle_target idle_record [] tt y Hs Ha) as [P _]. exact (P _ _ _ Hq).
Defined.
End WindowsBypass.
