(* ===== verification/Lifecycle.v ===== *)
(** * The life of a TUN session (src/src/general_api.rs)

    [general_run_async_with_process_bypass_setup] and its callers on the desktop
    systems: the checks before anything is changed, the choice of the physical
    interface, the device, the network configuration, the forwarding task, and
    the restoration of the network on every way out.  What the system answers
    is a function of what happened before, so every sequence of answers is
    covered.  The future can be dropped at each of its waiting points: the
    resolution of the proxy, the wait for settled routes, the configuration and
    its removal (which do not wait on Windows), and the forwarding task.
    [tproxy_config] and [tun] are arguments. *)

From S2P Require Import Prelude Net ProxyHandler Rfc1928 IpText Icmp Direct.

Module Lifecycle.
Import Direct.

(** ** What happens *)

(** What the forwarding task returns to the one that joins it. *)
Inductive Joined := Finished (r : res Error Z) | TaskFailed.

(** The network configuration: where the proxy is, and the name of the device. *)
Record NetworkArgs := mkNetwork { n_proxy_addr : SocketAddr; n_tun_name : option string; n_ipv6 : bool }.

Inductive Event (St : Type) :=
  | ProxyResolved (r : res IoError (list SocketAddr))
  | AdaptersListed (l : list Interface)
  | RouteShown (destination : string) (r : res IoError (bool * string))
  | RoutesSettled
  | EgressDetected (r : res Error BindInterface)
  | DeviceCreated (fd : option Z) (name : option string) (r : res IoError unit)
  | DeviceNamed (name : option string)
  | DeviceSplit (r : res IoError unit)
  | NetworkSetup (args : NetworkArgs) (r : res IoError St)
  | SetupDropped (args : NetworkArgs)
  | BypassAttached
  | ReadySent (r : res string unit)
  | Forwarded (egress : BindInterface) (tun : option string)
  | NetworkRemoved (state : option St) (r : res IoError unit)
  | GuardDropped (state : St)
  | FdClosed (fd : Z).

Arguments ProxyResolved {St}.
Arguments AdaptersListed {St}.
Arguments RouteShown {St}.
Arguments RoutesSettled {St}.
Arguments EgressDetected {St}.
Arguments DeviceCreated {St}.
Arguments DeviceNamed {St}.
Arguments DeviceSplit {St}.
Arguments NetworkSetup {St}.
Arguments SetupDropped {St}.
Arguments BypassAttached {St}.
Arguments ReadySent {St}.
Arguments Forwarded {St}.
Arguments NetworkRemoved {St}.
Arguments GuardDropped {St}.
Arguments FdClosed {St}.

(** The answers of the system; [h_dropped] says whether the future is dropped at
    the waiting point it has come to. *)
Record Host (St : Type) := mkHost {
  h_dropped : list (Event St) -> bool;
  h_resolve : list (Event St) -> res IoError (list SocketAddr);
  h_adapters : list (Event St) -> list Interface;
  h_route : string -> list (Event St) -> res IoError (bool * string);
  h_detect : list (Event St) -> res Error BindInterface;
  h_create : list (Event St) -> res IoError unit;
  h_name : list (Event St) -> option string;
  h_split : list (Event St) -> res IoError unit;
  h_setup : NetworkArgs -> list (Event St) -> res IoError St;
  h_forward : BindInterface -> option string -> list (Event St) -> option Joined;
  h_remove : option St -> list (Event St) -> res IoError unit }.

Arguments h_dropped {St}.
Arguments h_resolve {St}.
Arguments h_adapters {St}.
Arguments h_route {St}.
Arguments h_detect {St}.
Arguments h_create {St}.
Arguments h_name {St}.
Arguments h_split {St}.
Arguments h_setup {St}.
Arguments h_forward {St}.
Arguments h_remove {St}.

(** The arguments the life of a session depends on. *)
Record Args := mkArgs {
  a_echo : res IoError unit;          (* icmp::validate_options *)
  a_proxy : option string;            (* args.proxy.addr *)
  a_setup : bool;
  a_tun : option string;
  a_tun_fd : option Z;
  a_close_fd : option bool;
  a_bind : option string;
  a_ipv6 : bool;
  a_bypass_controller : bool;
  a_max_sessions : Z;
  a_exit_on_fatal : bool }.

(** ** Routes of macOS *)

(** [str::lines], [trim], [split_once(':')] on text. *)
Definition is_blank (c : Ascii.ascii) : bool :=
  let n := Ascii.N_of_ascii c in ((9 <=? n)%N && (n <=? 13)%N) || (n =? 32)%N.

Fixpoint trim_start (s : string) : string :=
  match s with
  | String c s' => if is_blank c then trim_start s' else s
  | EmptyString => EmptyString
  end.

Fixpoint trim_end (s : string) : string :=
  match s with
  | EmptyString => EmptyString
  | String c s' =>
      match trim_end s' with
      | EmptyString => if is_blank c then EmptyString else String c EmptyString
      | t => String c t
      end
  end.

Definition trim (s : string) : string := trim_end (trim_start s).

Fixpoint split_at (sep : Ascii.ascii) (s : string) : option (string * string) :=
  match s with
  | EmptyString => None
  | String c s' =>
      if Ascii.eqb c sep then Some (EmptyString, s')
      else '(a, b) ← split_at sep s'; Some (String c a, b)
  end.

Fixpoint lines_of (fuel : nat) (s : string) : list string :=
  match fuel with
  | O => []
  | S fuel' =>
      match split_at (Ascii.ascii_of_N 10) s with
      | Some (a, b) => a :: match b with EmptyString => [] | _ => lines_of fuel' b end
      | None => match s with EmptyString => [] | _ => [s] end
      end
  end.

Definition route_line (line : string) : option string :=
  '(k, v) ← split_at (Ascii.ascii_of_N 58) (trim line);
  let v := trim v in
  if bool_decide (k = "interface") && negb (bool_decide (v = EmptyString)) then Some v else None.

Definition macos_route_interface (output : string) : res IoError string :=
  match head (omap route_line (lines_of (S (String.length output)) output)) with
  | Some i => Ok i
  | None => Err (io_other "macOS route lookup did not report an interface")
  end.

(** ** Tunnels of Windows *)

Definition TUNNEL_MARKERS : list string :=
  ["tun"; "tap"; "vpn"; "wireguard"; "wintun"; "tailscale"; "zerotier"; "openvpn"].

Definition lower_text (s : string) : string :=
  Rfc1928.of_bytes (lower8 <$> as_bytes s).

Definition contains_text (marker s : string) : bool :=
  match String.index 0 marker s with Some _ => true | None => false end.

(** The name shown for an adapter that looks like a tunnel. *)
Definition tunnel_name (i : Interface) : option string :=
  let friendly := default (if_name i) (friendly_name i) in
  let description := default EmptyString (description i) in
  let searchable := lower_text (friendly +:+ " " +:+ description) in
  if existsb (fun marker => contains_text marker searchable) TUNNEL_MARKERS then
    Some (if bool_decide (description = EmptyString) ||
             eq_ignore_ascii_case (as_bytes description) (as_bytes friendly)
          then friendly else friendly +:+ " (" +:+ description +:+ ")")
  else None.

(** [sort] and [dedup]. *)
Fixpoint insert_text (x : string) (l : list string) : list string :=
  match l with
  | [] => [x]
  | y :: l' => if String.leb x y then x :: l else y :: insert_text x l'
  end.

Fixpoint dedup_text (l : list string) : list string :=
  match l with
  | x :: ((y :: _) as l') => if bool_decide (x = y) then dedup_text l' else x :: dedup_text l'
  | _ => l
  end.

Definition active_windows_tunnel_adapters (l : list Interface) : list string :=
  dedup_text (foldr insert_text [] (omap tunnel_name (filter (fun i => is_up i = true \/ is_oper_up i = true) l))).

Fixpoint join_text (l : list string) : string :=
  match l with
  | [] => EmptyString
  | [x] => x
  | x :: l' => x +:+ ", " +:+ join_text l'
  end.

Definition windows_tun_setup_error (operation : string) (e : IoError) (tunnels : list string) : IoError :=
  let conflict :=
    match tunnels with
    | [] => "No pre-existing tunnel adapter was detected; inspect the Windows detail below."
    | _ => "Active tunnel/VPN adapters were already present: " +:+ join_text tunnels +:+
        ". Stop the other VPN/TUN application (or another proxy-everything instance) and retry."
    end in
  mkIo (io_kind e) ("Failed to " +:+ operation +:+ ". " +:+ conflict +:+ " Windows detail: " +:+ io_msg e).

Definition preexisting_windows_tunnel_error (adapters : list string) : IoError :=
  mkIo AddrInUse ("TUN startup was stopped before changing routes because another active tunnel/VPN adapter was detected: " +:+
    join_text adapters +:+
    ". Stop the owning VPN/TUN application (or another proxy-everything instance), then retry.").

(** ** The session *)

Section session.
Context {St : Type} (os : Os) (host : Host St).

(** What happened, and whether the readiness sender is still there. *)
Record World := mkWorld { events : list (Event St); ready : bool }.

Definition Life (A : Type) : Type := World -> progress (res IoError A) * World.

#[export] Instance Life_ret : MRet Life := fun _ a w => (Returned (Ok a), w).

#[export] Instance Life_bind : MBind Life := fun _ _ k m w =>
  match m w with
  | (Returned (Ok a), w') => k a w'
  | (Returned (Err e), w') => (Returned (Err e), w')
  | (Returned Panic, w') => (Returned Panic, w')
  | (Waiting, w') => (Waiting, w')
  end.

Definition result {A} (r : res IoError A) : Life A := fun w => (Returned r, w).

Definition log (e : Event St) : Life unit := fun w => (Returned (Ok tt), mkWorld (events w ++ [e]) (ready w)).

(** A call of the system and its answer. *)
Definition ask {A} (f : list (Event St) -> A) (e : A -> Event St) : Life A := fun w =>
  let a := f (events w) in (Returned (Ok a), mkWorld (events w ++ [e a]) (ready w)).

Definition ask_res {A} (f : list (Event St) -> res IoError A) (e : res IoError A -> Event St) : Life A :=
  r ← ask f e; result r.

(** Values dropped at the end of a scope, however it is left. *)
Definition finally {A} (es : list (Event St)) (m : Life A) : Life A := fun w =>
  let '(r, w1) := m w in (r, mkWorld (events w1 ++ es) (ready w1)).

(** A waiting point; [es] is what is dropped with the future there. *)
Definition pause (es : list (Event St)) : Life unit := fun w =>
  if h_dropped host (events w) then (Waiting, mkWorld (events w ++ es) (ready w)) else (Returned (Ok tt), w).

(** One that Windows does not have. *)
Definition pause_unix (es : list (Event St)) : Life unit := if bool_decide (os = Windows) then mret tt else pause es.

(** A guard that is dropped when the future is dropped at a waiting point. *)
Definition guarding {A} (es : list (Event St)) (m : Life A) : Life A := fun w =>
  match m w with
  | (Waiting, w1) => (Waiting, mkWorld (events w1 ++ es) (ready w1))
  | done => done
  end.

Definition check_route (destination : string) : Life unit :=
  '(success, stdout) ← ask_res (h_route host destination) (RouteShown destination);
  if success : bool then
    interface ← result (macos_route_interface stdout);
    if String.prefix "utun" interface
    then result (Err (io_other "macOS traffic is already routed through tunnel"))
    else mret tt
  else result (Err (io_other "could not inspect the macOS route")).

Definition validate_macos_capture_routes : Life unit := check_route "1.1.1.1";; check_route "198.18.0.1".

(** [ready.take()] and [send]. *)
Definition announce (r : res string unit) : Life unit := fun w =>
  if ready w then (Returned (Ok tt), mkWorld (events w ++ [ReadySent r]) false) else (Returned (Ok tt), w).

(** [network_config::remove].  On Windows the configuration is dropped at the end
    of [WindowsNetworkConfig::remove]; its [Drop] restores again what a failed
    removal has left. *)
Definition network_remove (restore : option St) : Life (res IoError unit) :=
  match os, restore with
  | Windows, None => mret (Ok tt)
  | Windows, Some s =>
      r ← ask (h_remove host restore) (NetworkRemoved restore);
      match r with Err _ => log (GuardDropped s);; mret r | _ => mret r end
  | _, _ =>
      pause (match restore with Some s => [GuardDropped s] | None => [] end);;
      ask (h_remove host restore) (NetworkRemoved restore)
  end.

(** Joining the forwarding task; the future can be dropped instead. *)
Definition forward (egress : BindInterface) (tun : option string) : Life Joined := fun w =>
  let w1 := mkWorld (events w ++ [Forwarded egress tun]) (ready w) in
  match h_forward host egress tun (events w) with
  | Some j => (Returned (Ok j), w1)
  | None => (Waiting, w1)
  end.

(** [NetworkTeardownError] and the errors of the forwarding task. *)
Definition teardown_error (cleanup : IoError) (forwarding : option Error) : IoError :=
  io_other ("TUN network teardown failed: " +:+ io_msg cleanup +:+ "; forwarding error: " +:+
    match forwarding with Some e => "Some(" +:+ error_text e +:+ ")" | None => "None" end).

Definition forwarding_result (j : Joined) : res Error Z :=
  match j with Finished r => r | TaskFailed => Err (Io (io_other "TUN forwarding task failed")) end.

Definition error_of {A} (r : res Error A) : option Error := match r with Err e => Some e | _ => None end.

Definition outcome (a : Args) (cleanup : res IoError unit) (forwarding : res Error Z) : res IoError Z :=
  match cleanup with
  | Err e => Err (teardown_error e (error_of forwarding))
  | Panic => Panic
  | Ok _ =>
      match forwarding with
      | Ok sessions =>
          if a_exit_on_fatal a && (a_max_sessions a <=? sessions)
          then Err (io_other "Forced exit due to max sessions reached") else Ok sessions
      | Err e => Err (io_from_error e)
      | Panic => Panic
      end
  end.

(** Forwarding and restoring, with the network configuration in place. *)
Definition run_configured (a : Args) (egress : BindInterface) (tun : option string) (restore : option St) : Life Z :=
  (if bool_decide (os = Windows) && a_bypass_controller a && bool_decide (is_Some restore)
   then log BypassAttached else mret tt);;
  announce (Ok tt);;
  joined ← guarding (match restore with Some s => [GuardDropped s] | None => [] end) (forward egress tun);
  cleanup ← network_remove restore;
  result (outcome a cleanup (forwarding_result joined)).

(** The error of a step as Windows reports it. *)
Definition explained {A} (operation : string) (tunnels : list string) (m : Life A) : Life A := fun w =>
  match m w with
  | (Returned (Err e), w1) =>
      (Returned (Err (if bool_decide (os = Windows) then windows_tun_setup_error operation e tunnels else e)), w1)
  | done => done
  end.

(** The descriptor, or else the name, the device is made from. *)
Definition device_config (a : Args) : option Z * option string :=
  if bool_decide (os = Windows) then (None, a_tun a)
  else match a_tun_fd a with Some fd => (Some fd, None) | None => (None, a_tun a) end.

(** A name the device reports replaces the one asked for. *)
Definition configure_tun_name (a : Args) (actual : option string) : option string :=
  match actual with Some n => Some n | None => a_tun a end.

(** The device and the network configuration. *)
Definition run_device (a : Args) (proxy_addr : option SocketAddr) (tunnels : list string) (egress : BindInterface)
    : Life Z :=
  explained "create or open the Wintun adapter" tunnels
    (ask_res (h_create host) (DeviceCreated (fst (device_config a)) (snd (device_config a))));;
  name ← ask (h_name host) DeviceNamed;
  let tun := configure_tun_name a name in
  (if bool_decide (os = Windows) then ask_res (h_split host) DeviceSplit else mret tt);;
  let args := mkNetwork (default (mkSA (V4 0) 0) proxy_addr) name (a_ipv6 a) in
  if a_setup a then
    pause_unix [SetupDropped args];;
    s ← explained "install the transactional Windows routes and DNS settings" tunnels
      (ask_res (h_setup host args) (NetworkSetup args));
    run_configured a egress tun (Some s)
  else run_configured a egress tun None.

(** The descriptor that this session closes. *)
Definition owned_fd (a : Args) : list (Event St) :=
  if bool_decide (os = Windows) then []
  else match a_tun_fd a with
       | Some fd => if default true (a_close_fd a) then [FdClosed fd] else []
       | None => []
       end.

Definition general_run_setup (a : Args) : Life Z :=
  result (a_echo a);;
  addrs ← match a_proxy a with Some _ => pause [];; ask_res (h_resolve host) ProxyResolved | None => mret [] end;
  tunnels ← (if bool_decide (os = Windows) then
     l ← ask (h_adapters host) AdaptersListed;
     let names := active_windows_tunnel_adapters l in
     if a_setup a && negb (bool_decide (names = []))
     then result (Err (preexisting_windows_tunnel_error names))
     else mret names
   else mret []);
  (if bool_decide (os = MacOs) && a_setup a then validate_macos_capture_routes else mret tt);;
  pause_unix [];;
  log RoutesSettled;;
  detected ← ask (h_detect host) EgressDetected;
  egress ← result (map_err io_from_error detected);
  finally (owned_fd a) (run_device a (head addrs) tunnels egress).

(** [general_run_async_with_process_bypass_inner]: a failure is reported to the
    one who waits for readiness, unless it was told already. *)
Definition general_run (a : Args) (w : World) : progress (res IoError Z) * World :=
  match general_run_setup a w with
  | (Returned (Err e), w1) => (Returned (Err e), snd (announce (Err (io_msg e)) w1))
  | done => done
  end.
End session.

(** ** Specification *)

(** The milestones of a session.  [Removed]: the configuration was removed, with
    this result.  [Guarded]: its guard was dropped and restores what is left. *)
Inductive Milestone (St : Type) :=
  | Egress (i : BindInterface)
  | SetupFailed (e : IoError)
  | SetupAbandoned
  | Installed (s : St)
  | Told (r : res string unit)
  | Forwarding (i : BindInterface)
  | Removed (s : St) (r : res IoError unit)
  | Guarded (s : St)
  | Closed (fd : Z).

Arguments Egress {St}.
Arguments SetupFailed {St}.
Arguments SetupAbandoned {St}.
Arguments Installed {St}.
Arguments Told {St}.
Arguments Forwarding {St}.
Arguments Removed {St}.
Arguments Guarded {St}.
Arguments Closed {St}.

Definition milestone {St} (e : Event St) : option (Milestone St) :=
  match e with
  | EgressDetected (Ok i) => Some (Egress i)
  | NetworkSetup _ (Ok s) => Some (Installed s)
  | NetworkSetup _ (Err e) => Some (SetupFailed e)
  | SetupDropped _ => Some SetupAbandoned
  | ReadySent r => Some (Told r)
  | Forwarded i _ => Some (Forwarding i)
  | NetworkRemoved (Some s) r => Some (Removed s r)
  | GuardDropped s => Some (Guarded s)
  | FdClosed fd => Some (Closed fd)
  | _ => None
  end.

Definition milestones {St} (h : list (Event St)) : list (Milestone St) := omap milestone h.

Definition when {A} (b : bool) (l : list A) : list A := if b then l else [].

Definition installed_of {St} (so : option St) : list (Milestone St) := match so with Some s => [Installed s] | None => [] end.
Definition guarded_of {St} (so : option St) : list (Milestone St) := match so with Some s => [Guarded s] | None => [] end.

(** How what was installed is removed: by one call, and on Windows once more by
    its guard when that call failed. *)
Definition removed_of {St} (os : Os) (so : option St) (c : res IoError unit) : list (Milestone St) :=
  match so with
  | Some s => Removed s c :: (if bool_decide (os = Windows) && match c with Err _ => true | _ => false end then [Guarded s] else [])
  | None => []
  end.

(** What became of the forwarding task and of what was installed: the future was
    dropped while it forwarded, or (not on Windows) while it removed the
    configuration, and the guard is dropped with it; or both were done, and the
    session returns what they left. *)
Definition ran {St} (os : Os) (host : Host St) (a : Args) (i : BindInterface) (so : option St)
    (p : progress (res IoError Z)) (ms : list (Milestone St)) : Prop :=
  (p = Waiting /\ ms = guarded_of so /\ exists tun h, h_forward host i tun h = None) \/
  (exists tun h j, h_forward host i tun h = Some j /\
    ((p = Waiting /\ os <> Windows /\ ms = guarded_of so) \/
     (exists c, c <> Panic /\ p = Returned (outcome a c (forwarding_result j)) /\ ms = removed_of os so c))).

(** The abstract life of a session.  It fails, or is dropped, before it has
    chosen an interface; it fails with the device or the configuration, and says
    so, or is dropped while it configures the network; or it has picked an
    interface, installs the network if it is asked to, says that it is ready,
    forwards through that interface, and gives back what it installed. *)
Definition life {St} (os : Os) (host : Host St) (a : Args) (rdy : bool) (p : progress (res IoError Z)) (ms : list (Milestone St)) : Prop :=
  (exists e, p = Returned (Err e) /\ ms = when rdy [Told (Err (io_msg e))]) \/
  (p = Waiting /\ ms = []) \/
  (exists e i failed, p = Returned (Err e) /\ (failed = [] \/ a_setup a = true /\ exists e', failed = [SetupFailed e']) /\
    ms = [Egress i] ++ failed ++ milestones (owned_fd os a) ++ when rdy [Told (Err (io_msg e))]) \/
  (exists i, p = Waiting /\ os <> Windows /\ a_setup a = true /\ ms = [Egress i; SetupAbandoned] ++ milestones (owned_fd os a)) \/
  (exists i so given, bool_decide (is_Some so) = a_setup a /\ ran os host a i so p given /\
    ms = [Egress i] ++ installed_of so ++ when rdy [Told (Ok tt)] ++ [Forwarding i] ++ given ++ milestones (owned_fd os a)).

(** The system answers, it does not unwind. *)
Definition safe_host {St} (host : Host St) : Prop :=
  (forall h, h_resolve host h <> Panic) /\ (forall d h, h_route host d h <> Panic) /\
  (forall h, h_detect host h <> Panic) /\ (forall h, h_create host h <> Panic) /\
  (forall h, h_split host h <> Panic) /\ (forall n h, h_setup host n h <> Panic) /\
  (forall i t h, h_forward host i t h <> Some (Finished Panic)) /\ (forall s h, h_remove host s h <> Panic).

Section proofs.
Context {St : Type} (os : Os) (host : Host St) (Hsafe : safe_host host).

(** [m] adds events with these milestones. *)
Definition adds {A} (m : Life (St := St) A) (w : World (St := St)) (P : progress (res IoError A) -> list (Milestone St) -> bool -> Prop) : Prop :=
  exists es, events (m w).2 = events w ++ es /\ P (m w).1 (milestones es) (ready (m w).2).

Lemma adds_bind {A B} (m : Life (St := St) A) (k : A -> Life (St := St) B) w P Q :
  adds m w Q ->
  (forall a ms rdy, Q (Returned (Ok a)) ms rdy -> forall w1, ready w1 = rdy ->
    adds (k a) w1 (fun p ms' rdy' => P p (ms ++ ms') rdy')) ->
  (forall e ms rdy, Q (Returned (Err e)) ms rdy -> P (Returned (Err e)) ms rdy) ->
  (forall ms rdy, Q Waiting ms rdy -> P Waiting ms rdy) ->
  (forall ms rdy, ~ Q (Returned Panic) ms rdy) ->
  adds (m ≫= k) w P.
Proof.
  intros (es & E & HQ) Hk He Hw Hp. unfold adds, mbind, Life_bind.
  destruct (m w) as [[[a | e |] |] w1]; simpl in *.
  - destruct (Hk a _ _ HQ w1 eq_refl) as (es' & E' & HP). exists (es ++ es'). rewrite E', E, (assoc_L app).
    split; [done |]. unfold milestones in *. by rewrite omap_app.
  - exists es. auto.
  - by apply Hp in HQ.
  - exists es. auto.
Qed.

Lemma adds_weaken {A} (m : Life (St := St) A) w (P Q : progress (res IoError A) -> list (Milestone St) -> bool -> Prop) :
  adds m w P -> (forall p ms rdy, P p ms rdy -> Q p ms rdy) -> adds m w Q.
Proof. intros (es & E & H) HPQ. exists es. auto. Qed.

Lemma adds_ret {A} (a : A) w (P : progress (res IoError A) -> list (Milestone St) -> bool -> Prop) :
  P (Returned (Ok a)) [] (ready w) -> adds (mret a : Life A) w P.
Proof. intros H. exists []. split; [by rewrite app_nil_r | done]. Qed.

Lemma adds_result {A} (r : res IoError A) w (P : progress (res IoError A) -> list (Milestone St) -> bool -> Prop) :
  P (Returned r) [] (ready w) -> adds (result r) w P.
Proof. intros H. exists []. split; [by rewrite app_nil_r | done]. Qed.

(** Quiet code: no milestone, and the readiness sender stays. *)
Definition quiet {A} (m : Life (St := St) A) : Prop :=
  forall w, adds m w (fun p ms rdy => ms = [] /\ rdy = ready w /\ p <> Waiting /\ p <> Returned Panic).

Lemma quiet_result {A} (r : res IoError A) : r <> Panic -> quiet (result r).
Proof. intros Hr w. apply adds_result. split_and!; congruence. Qed.

Lemma quiet_ret {A} (a : A) : quiet (mret a : Life A).
Proof. intros w. apply adds_ret. done. Qed.

Lemma quiet_ask {A} (f : list (Event St) -> A) e : (forall a, milestone (e a) = None) -> quiet (ask f e).
Proof.
  intros He w. exists [e (f (events w))]. split; [done |]. unfold milestones. simpl. by rewrite He.
Qed.

Lemma life_quiet_bind {A B} (m : Life (St := St) A) (k : A -> Life (St := St) B) :
  quiet m -> (forall a, quiet (k a)) -> quiet (m ≫= k).
Proof.
  intros Hm Hk w. eapply adds_bind; [apply Hm | | | |].
  - intros a ms rdy (-> & -> & _) w1 E. eapply adds_weaken; [apply Hk |]. rewrite E. auto.
  - intros e ms rdy (-> & -> & _). done.
  - intros ms rdy (_ & _ & ? & _). done.
  - intros ms rdy (_ & _ & _ & ?). done.
Qed.

Lemma quiet_ask_res {A} (f : list (Event St) -> res IoError A) e :
  (forall r, milestone (e r) = None) -> (forall h, f h <> Panic) -> quiet (ask_res f e).
Proof.
  intros He Hf w. unfold ask_res, mbind, Life_bind, ask, result.
  exists [e (f (events w))]. split; [done |]. unfold milestones. simpl. rewrite He. split_and!; try done.
  specialize (Hf (events w)). congruence.
Qed.

Lemma quiet_explained {A} op l (m : Life (St := St) A) : quiet m -> quiet (explained os op l m).
Proof.
  intros Hm w. destruct (Hm w) as (es & E & H). exists es. unfold explained.
  destruct (m w) as [[[a | e |] |] w1]; simpl in *; (split; [done |]); destruct H as (? & ? & ? & ?); done.
Qed.

Lemma outcome_safe a c f : c <> Panic -> f <> Panic -> outcome a c f <> Panic.
Proof. unfold outcome. intros Hc Hf. destruct c; [| done | done]. destruct f; [| done | done]. by destruct (_ && _). Qed.

(** A waiting point in front of something. *)
Lemma pause_adds {A} es (m : Life (St := St) A) w (P : progress (res IoError A) -> list (Milestone St) -> bool -> Prop) :
  adds m w P -> P Waiting (milestones es) (ready w) -> adds (pause host es;; m) w P.
Proof.
  intros Hm Hp. unfold adds, pause, mbind, Life_bind. destruct (h_dropped host (events w)); [by exists es | exact Hm].
Qed.

Lemma pause_unix_adds {A} es (m : Life (St := St) A) w (P : progress (res IoError A) -> list (Milestone St) -> bool -> Prop) :
  adds m w P -> (os <> Windows -> P Waiting (milestones es) (ready w)) -> adds (pause_unix os host es;; m) w P.
Proof. intros Hm Hp. unfold pause_unix. destruct (decide (os = Windows)); [by rewrite bool_decide_eq_true_2 | rewrite bool_decide_eq_false_2 by done]. by apply pause_adds; auto. Qed.

(** Forwarding with its guard. *)
Lemma forward_adds i tun so w :
  adds (guarding (match so with Some s => [GuardDropped s] | None => [] end) (forward host i tun)) w
    (fun p ms rdy => rdy = ready w /\
      match p with
      | Returned (Ok j) => ms = [Forwarding i] /\ j <> Finished Panic /\ exists h, h_forward host i tun h = Some j
      | Waiting => ms = [Forwarding i] ++ guarded_of so /\ exists h, h_forward host i tun h = None
      | _ => False
      end).
Proof.
  destruct Hsafe as (_ & _ & _ & _ & _ & _ & Hf & _). specialize (Hf i tun (events w)).
  unfold adds, guarding, forward. destruct (h_forward host i tun (events w)) as [j |] eqn:Ef.
  - exists [Forwarded i tun]. split; [done |]. simpl. split_and!; [done | done | congruence | eauto].
  - eexists (Forwarded i tun :: match so with Some s => [GuardDropped s] | None => [] end). simpl.
    split; [by rewrite <- (assoc_L app) |]. split; [done |]. split; [by destruct so | eauto].
Qed.

Lemma network_remove_adds so w :
  adds (network_remove os host so) w (fun p ms rdy => rdy = ready w /\
    match p with
    | Returned (Ok r) => r <> Panic /\ ms = removed_of os so r
    | Waiting => os <> Windows /\ ms = guarded_of so
    | _ => False
    end).
Proof.
  destruct Hsafe as (_ & _ & _ & _ & _ & _ & _ & Hr). specialize (Hr so (events w)). unfold network_remove.
  destruct (decide (os = Windows)) as [Ho | Ho].
  - rewrite Ho. destruct so as [s |]; [| by apply adds_ret]. unfold adds, ask, mbind, Life_bind, log, mret, Life_ret.
    destruct (h_remove host (Some s) (events w)) as [u | e |] eqn:E; [| | done]; cbn.
    + exists [NetworkRemoved (Some s) (Ok u)]. done.
    + exists [NetworkRemoved (Some s) (Err e); GuardDropped s]. rewrite <- (assoc_L app). done.
  - assert (G : adds (pause host (match so with Some s => [GuardDropped s] | None => [] end);;
      ask (h_remove host so) (NetworkRemoved so)) w (fun p ms rdy => rdy = ready w /\
      match p with
      | Returned (Ok r) => r <> Panic /\ ms = removed_of os so r
      | Waiting => os <> Windows /\ ms = guarded_of so
      | _ => False
      end)).
    { apply pause_adds; [| by split; [| split; [| destruct so]]].
      exists [NetworkRemoved so (h_remove host so (events w))]. split; [done |]. split; [done |]. split; [done |].
      unfold removed_of. rewrite bool_decide_eq_false_2 by done. by destruct so. }
    destruct os; [done | exact G | exact G].
Qed.

Lemma announce_adds r w :
  adds (announce (St := St) r) w (fun p ms rdy => rdy = false /\ ms = when (ready w) [Told r] /\ p = Returned (Ok tt)).
Proof.
  unfold adds, announce. destruct (ready w) eqn:E; [exists [ReadySent r] | exists []]; simpl; rewrite ?app_nil_r; auto.
Qed.

Lemma run_configured_adds a i tun so w :
  adds (run_configured os host a i tun so) w (fun p ms rdy => p <> Returned Panic /\ rdy = false /\
    exists given, ran os host a i so p given /\ ms = when (ready w) [Told (Ok tt)] ++ [Forwarding i] ++ given).
Proof.
  unfold run_configured. eapply (adds_bind _ _ _ _ (fun p ms rdy => ms = [] /\ rdy = ready w /\ p = Returned (Ok tt))).
  { destruct (_ && _); [exists [BypassAttached]; done | by apply adds_ret]. }
  2, 3, 4: intros * (? & ? & ?); done.
  intros [] ms rdy (-> & -> & _) w1 E1. rewrite <- E1.
  eapply adds_bind; [apply announce_adds | | intros * (? & ? & ?); done | intros * (? & ? & ?); done | intros * (? & ? & ?); done].
  intros [] ms rdy' (-> & -> & _) w2 E2.
  eapply adds_bind; [apply forward_adds | | intros * (? & []) | | intros * (? & [])].
  2:{ intros ms rdy (-> & -> & h & Hh). split_and!; [done | done |]. exists (guarded_of so). split; [left; eauto | by rewrite app_nil_l]. }
  intros j ms rdy' (-> & -> & Hj & h & Hh) w3 E3.
  eapply adds_bind; [apply network_remove_adds | | intros * (? & []) | | intros * (? & [])].
  2:{ intros ms rdy (-> & Ho & ->). split_and!; [done | congruence |]. exists (guarded_of so).
      split; [right; exists tun, h, j; eauto | by rewrite app_nil_l]. }
  intros c ms rdy' (-> & Hc & ->) w4 E4. apply adds_result. split_and!.
  - intros [= Ho]. revert Ho. apply outcome_safe; [done |]. destruct j as [[] |]; done.
  - congruence.
  - exists (removed_of os so c). split; [right; exists tun, h, j; split; [done | right; by exists c] |]. cbn [app]. by rewrite app_nil_r.
Qed.

(** Quiet code in front of something. *)
Lemma adds_quiet {A B} (m : Life (St := St) A) (k : A -> Life (St := St) B) w P :
  quiet m -> (forall a w1, ready w1 = ready w -> adds (k a) w1 P) ->
  (forall e, P (Returned (Err e)) [] (ready w)) -> adds (m ≫= k) w P.
Proof.
  intros Hm Hk He. eapply adds_bind; [apply Hm | | | |].
  - intros a ms rdy (-> & -> & _) w1 E. exact (Hk a w1 E).
  - intros e ms rdy (-> & -> & _). apply He.
  - intros ms rdy (_ & _ & ? & _). done.
  - intros ms rdy (_ & _ & _ & ?). done.
Qed.

(** The device: it fails with nothing installed, is dropped while the network is
    configured, or runs. *)
Definition device_life (a : Args) (i : BindInterface) (rdy0 : bool) (p : progress (res IoError Z)) (ms : list (Milestone St)) (rdy : bool) : Prop :=
  p <> Returned Panic /\
  ((exists e, p = Returned (Err e) /\ (ms = [] \/ a_setup a = true /\ exists e', ms = [SetupFailed e']) /\ rdy = rdy0) \/
   (p = Waiting /\ os <> Windows /\ a_setup a = true /\ ms = [SetupAbandoned] /\ rdy = rdy0) \/
   (exists so given, bool_decide (is_Some so) = a_setup a /\ rdy = false /\ ran os host a i so p given /\
      ms = installed_of so ++ when rdy0 [Told (Ok tt)] ++ [Forwarding i] ++ given)).

Lemma run_device_adds a addr l i w : adds (run_device os host a addr l i) w (device_life a i (ready w)).
Proof.
  destruct Hsafe as (_ & _ & _ & Hc & Hs & Hn & _ & _). unfold run_device.
  assert (Fail : forall e, device_life a i (ready w) (Returned (Err e)) [] (ready w)).
  { intros e. split; [done | left; eauto]. }
  apply adds_quiet; [apply quiet_explained, quiet_ask_res; done | | exact Fail]. intros [] w1 E1. rewrite <- E1 in *.
  apply adds_quiet; [by apply quiet_ask | | exact Fail]. intros name w2 E2. rewrite <- E2 in *.
  apply adds_quiet; [destruct (bool_decide _); [by apply quiet_ask_res | apply quiet_ret] | | exact Fail].
  intros [] w3 E3. rewrite <- E3 in *. destruct (a_setup a) eqn:Ea.
  - set (args := mkNetwork _ _ _). apply pause_unix_adds; [| intros Ho; split; [done | right; left; done]].
    eapply (adds_bind _ _ _ _ (fun p ms rdy => rdy = ready w3 /\
      match p with Returned (Ok s) => ms = [Installed s] | Returned (Err _) => exists e, ms = [SetupFailed e] | _ => False end)).
    + unfold adds, explained, ask_res, mbind, Life_bind, ask, result. specialize (Hn args (events w3)).
      exists [NetworkSetup args (h_setup host args (events w3))].
      destruct (h_setup host args (events w3)) as [s | e |] eqn:Eh; simpl; try done. split; [done |]. split; [done |]. by exists e.
    + intros s ms rdy (-> & ->) w4 E4. eapply adds_weaken; [apply run_configured_adds |].
      intros p ms rdy (? & ? & given & Hran & ->). split; [done |]. right. right. exists (Some s), given. rewrite E4. done.
    + intros e ms rdy (-> & Hms). split; [done |]. left. exists e. eauto.
    + by intros ms rdy (_ & []).
    + by intros ms rdy (_ & []).
  - eapply adds_weaken; [apply run_configured_adds |]. intros p ms rdy (? & ? & given & Hran & ->). split; [done |].
    right. right. by exists None, given.
Qed.

Lemma finally_adds {A} es (m : Life (St := St) A) w P :
  adds m w (fun p ms rdy => P p (ms ++ milestones es) rdy) -> adds (finally es m) w P.
Proof.
  intros (es1 & E & H). exists (es1 ++ es). unfold finally. destruct (m w) as [p w1]. simpl in *.
  rewrite E, <- (assoc_L app). split; [done |]. unfold milestones in *. by rewrite omap_app.
Qed.

Lemma check_route_quiet d : quiet (check_route host d).
Proof.
  destruct Hsafe as (_ & Hr & _). unfold check_route. apply life_quiet_bind; [by apply quiet_ask_res |].
  intros [[] out]; [| by apply quiet_result]. apply life_quiet_bind.
  - apply quiet_result. unfold macos_route_interface. by destruct (head _).
  - intros i. destruct (String.prefix _ _); [by apply quiet_result | apply quiet_ret].
Qed.

(** What the session has told no one yet. *)
Definition setup_life (a : Args) (rdy0 : bool) (p : progress (res IoError Z)) (ms : list (Milestone St)) (rdy : bool) : Prop :=
  p <> Returned Panic /\
  ((exists e, p = Returned (Err e) /\ ms = [] /\ rdy = rdy0) \/
   (p = Waiting /\ ms = []) \/
   (exists e i failed, p = Returned (Err e) /\ (failed = [] \/ a_setup a = true /\ exists e', failed = [SetupFailed e']) /\
      ms = [Egress i] ++ failed ++ milestones (owned_fd os a) /\ rdy = rdy0) \/
   (exists i, p = Waiting /\ os <> Windows /\ a_setup a = true /\ ms = [Egress i; SetupAbandoned] ++ milestones (owned_fd os a)) \/
   (exists i so given, bool_decide (is_Some so) = a_setup a /\ rdy = false /\ ran os host a i so p given /\
      ms = [Egress i] ++ installed_of so ++ when rdy0 [Told (Ok tt)] ++ [Forwarding i] ++ given ++ milestones (owned_fd os a))).

Lemma device_setup_life a i rdy0 p ms rdy :
  device_life a i rdy0 p ms rdy -> setup_life a rdy0 p ([Egress i] ++ ms ++ milestones (owned_fd os a)) rdy.
Proof.
  intros (Hn & [(e & -> & Hf & ->) | [(-> & Ho & Hs & -> & ->) | (so & given & Hs & -> & Hran & ->)]]); (split; [done |]).
  - right. right. left. exists e, i, ms. done.
  - right. right. right. left. exists i. done.
  - right. right. right. right. exists i, so, given. split_and!; [done | done | done |]. by rewrite <- !(assoc_L app).
Qed.

Lemma general_run_setup_adds a w : a_echo a <> Panic -> adds (general_run_setup os host a) w (setup_life a (ready w)).
Proof.
  intros He. destruct Hsafe as (Hr & _ & Hd & _). unfold general_run_setup.
  assert (Fail : forall e, setup_life a (ready w) (Returned (Err e)) [] (ready w)) by (intros e; split; [done | left; eauto]).
  assert (Gone : forall rdy, setup_life a (ready w) Waiting [] rdy) by (intros rdy; split; [done | right; left; done]).
  apply adds_quiet; [by apply quiet_result | | exact Fail]. intros [] w1 E1.
  eapply (adds_bind _ _ _ _ (fun p ms rdy => ms = [] /\ rdy = ready w /\ p <> Returned Panic)).
  { rewrite <- E1. destruct (a_proxy a); [| by apply adds_ret]. apply pause_adds; [| done].
    eapply adds_weaken; [apply quiet_ask_res; [done | exact Hr] |]. intros p ms rdy (? & ? & _ & ?). done. }
  2: intros e ms rdy (-> & -> & _); apply Fail.
  2: intros ms rdy (-> & -> & _); apply Gone.
  2: intros ms rdy (_ & _ & ?); done.
  intros addrs ms0 rdy0 (-> & -> & _) w2 E2. change (fun p ms' rdy' => setup_life a (ready w) p ([] ++ ms') rdy') with (setup_life a (ready w)).
  apply adds_quiet; [| | by rewrite E2].
  { destruct (bool_decide _); [| apply quiet_ret]. apply life_quiet_bind; [by apply quiet_ask |]. intros l.
    destruct (_ && _); [by apply quiet_result | apply quiet_ret]. }
  intros l w3 E3. apply adds_quiet; [| | by rewrite E3, E2].
  { destruct (_ && _); [| apply quiet_ret]. apply life_quiet_bind; [apply check_route_quiet |]. intros []. apply check_route_quiet. }
  intros [] w4 E4. apply pause_unix_adds; [| intros _; apply Gone].
  apply adds_quiet; [apply (quiet_ask (fun _ => tt) (fun _ => RoutesSettled)); done | | by rewrite E4, E3, E2].
  intros [] w5 E5. assert (E : ready w5 = ready w) by congruence.
  eapply (adds_bind _ _ _ _ (fun p ms rdy => rdy = ready w /\ exists r, p = Returned (Ok r) /\ r <> Panic /\
    ms = match r with Ok i => [Egress i] | _ => [] end)).
  { exists [EgressDetected (h_detect host (events w5))]. split; [done |]. split; [done |].
    eexists. split; [done |]. split; [apply Hd |]. unfold milestones. simpl. by destruct (h_detect host (events w5)). }
  2, 3, 4: intros * (_ & ? & ? & _); done.
  intros r ms rdy (-> & r' & [= <-] & Hp & ->) w6 E6. destruct r as [i | e |]; [| | done].
  - change (adds (finally (owned_fd os a) (run_device os host a (head addrs) l i)) w6
      (fun p ms rdy => setup_life a (ready w) p ([Egress i] ++ ms) rdy)).
    apply finally_adds. eapply adds_weaken; [apply run_device_adds |]. rewrite E6. intros p ms rdy. apply device_setup_life.
  - change (adds (result (Err (io_from_error e) : res IoError Z)) w6 (setup_life a (ready w))). apply adds_result. rewrite E6. apply Fail.
Qed.

(** ** Theorem *)

(** The life of a session, from the milestones of its parts. *)
Lemma general_run_lives a rdy p w' :
  a_echo a <> Panic -> general_run os host a (mkWorld [] rdy) = (p, w') ->
  p <> Returned Panic /\ life os host a rdy p (milestones (events w')).
Proof.
  intros He. unfold general_run. destruct (general_run_setup_adds a (mkWorld [] rdy) He) as (es & E & Hn & H).
  destruct (general_run_setup os host a _) as [p1 w1]. simpl in *.
  assert (Ann : forall e, milestones (events (announce (Err (io_msg e)) w1).2) =
    milestones es ++ when (ready w1) [Told (Err (io_msg e))]).
  { intros e. unfold announce. destruct (ready w1); simpl; rewrite E; unfold milestones; [by rewrite omap_app | by rewrite app_nil_r]. }
  destruct H as [(e & -> & Hm & Hr) | [(-> & Hm) | [(e & i & failed & -> & Hf & Hm & Hr) | [(i & -> & Ho & Hs & Hm) | (i & so & given & Hs & Hr & Hran & Hm)]]]].
  - intros [= <- <-]. split; [done |]. left. exists e. by rewrite Ann, Hm, Hr.
  - intros [= <- <-]. split; [done |]. right. left. by rewrite E.
  - intros [= <- <-]. split; [done |]. right. right. left. exists e, i, failed. split_and!; [done | done |]. rewrite Ann, Hm, Hr. cbn [app]. by rewrite <- (assoc_L app).
  - intros [= <- <-]. split; [done |]. right. right. right. left. exists i. by rewrite E.
  - intros Hp. split; [by destruct p1 as [[] |]; simplify_eq |]. right. right. right. right. exists i, so, given. split; [done |].
    split; [by destruct p1 as [[] |]; simplify_eq |]. etrans; [| exact Hm]. destruct p1 as [[z | e |] |]; simplify_eq; try done; try (by rewrite E).
    by rewrite Ann, Hr, app_nil_r.
Qed.

(** C15. The life of a session, whatever the system answers, wherever it fails and at
    whichever waiting point the future is dropped.  It ends before it has chosen
    an interface, with nothing changed; or with its device or with a network
    configuration that failed or was dropped while it was made; or it has chosen
    its interface before the network was configured, told readiness once and only
    then, and forwarded through that interface.  What was installed is then
    given back: by one removal whose failure is the error of the session and
    which on Windows is followed by one more attempt of the guard, or by the
    guard alone when the future was dropped.  Every error is told to the one who
    waits, unless readiness was; an owned descriptor is closed once whenever an
    interface had been chosen. *)
Theorem lifecycle_refines a rdy p w' :
  a_echo a <> Panic -> general_run os host a (mkWorld [] rdy) = (p, w') ->
  p <> Returned Panic /\ life os host a rdy p (milestones (events w')).
Proof. apply general_run_lives. Qed.
End proofs.

(** ** The exported interface *)

(** [TUN_QUIT], the tokens that were cancelled, and the runs that have not
    returned; a token has the number of its run. *)
Record Quit := mkQuit { quit : option nat; cancelled : list nat; running : list nat; fresh : nat }.

Definition no_run : Quit := mkQuit None [] [] 0.

(** [general_run_for_api] up to the start of the session: [runtime] says whether
    the runtime could be built.  The result is the code it returns at once. *)
Definition api_begin (runtime : bool) (q : Quit) : option Z * Quit :=
  match quit q with
  | Some _ => (Some (-1), q)
  | None =>
      let q1 := mkQuit (Some (fresh q)) (cancelled q) (running q) (S (fresh q)) in
      if runtime then (None, mkQuit (quit q1) (cancelled q1) (fresh q :: running q1) (fresh q1)) else (Some (-3), q1)
  end.

(** Its end: the code of the session, with the token slot cleared. *)
Definition api_end (n : nat) (r : res IoError Z) (q : Quit) : Z * Quit :=
  (match r with Ok _ => 0 | _ => -4 end, mkQuit None (cancelled q) (filter (fun m => m <> n) (running q)) (fresh q)).

(** [tun2proxy_stop_internal]. *)
Definition api_stop (q : Quit) : Z * Quit :=
  match quit q with
  | Some n => (0, mkQuit None (n :: cancelled q) (running q) (fresh q))
  | None => (-1, q)
  end.

Inductive api_step : Quit -> Quit -> Prop :=
  | begins q runtime : api_step q (snd (api_begin runtime q))
  | ends q n r : n ∈ running q -> api_step q (snd (api_end n r q))
  | stops q : api_step q (snd (api_stop q)).

(** Sequential use: no run is started before the earlier ones have returned. *)
Inductive api_orderly : Quit -> Quit -> Prop :=
  | o_begins q runtime : running q = [] -> api_orderly q (snd (api_begin runtime q))
  | o_ends q n r : n ∈ running q -> api_orderly q (snd (api_end n r q))
  | o_stops q : api_orderly q (snd (api_stop q)).

Record api_inv (q : Quit) : Prop := {
  ai_one : (length (running q) <= 1)%nat;
  ai_slot : forall n, n ∈ running q -> n ∈ cancelled q \/ quit q = Some n;
  ai_fresh : forall n, n ∈ cancelled q \/ quit q = Some n -> (n < fresh q)%nat }.

Lemma api_orderly_inv q q' : api_orderly q q' -> api_inv q -> api_inv q'.
Proof.
  intros Hs H. destruct Hs as [q runtime Hr | q n r Hn | q]; pose proof H as [H1 H2 H3].
  - unfold api_begin. destruct (quit q) as [m |] eqn:Eq; [exact H |]. rewrite Hr in *.
    destruct runtime; simpl; (split; simpl; [lia | |]).
    + intros n Hn. apply list_elem_of_singleton in Hn as ->. by right.
    + intros n [Hn | [= <-]]; [| lia]. specialize (H3 n (or_introl Hn)). lia.
    + intros n Hn. by apply not_elem_of_nil in Hn.
    + intros n [Hn | [= <-]]; [| lia]. specialize (H3 n (or_introl Hn)). lia.
  - destruct (running q) as [| m [| ? ?]] eqn:Er; simpl in *; [by apply not_elem_of_nil in Hn | | lia].
    apply list_elem_of_singleton in Hn as ->. unfold api_end. simpl. rewrite Er.
    rewrite filter_cons_False by (intros Hx; by apply Hx). split; simpl; [lia | |].
    + intros n Hn. by apply not_elem_of_nil in Hn.
    + intros n [Hn | ?]; [auto | done].
  - unfold api_stop. destruct (quit q) as [m |] eqn:Eq; [| exact H]. split; simpl; [done | |].
    + intros n Hn. left. rewrite elem_of_cons. destruct (H2 n Hn) as [? | [= ->]]; auto.
    + intros n [Hn | ?]; [| done]. apply elem_of_cons in Hn as [-> | Hn]; auto.
Qed.

(** In sequential use at most one session runs, and a stop reaches it: while a
    session runs that was not cancelled, [tun2proxy_stop] returns zero and
    cancels it. *)
Theorem api_stop_reaches q n :
  rtc api_orderly no_run q -> n ∈ running q -> (n ∉ cancelled q) ->
  running q = [n] /\ fst (api_stop q) = 0 /\ n ∈ cancelled (snd (api_stop q)).
Proof.
  intros Hs Hn Hc. assert (H : api_inv q).
  { revert Hs. assert (api_inv no_run) as H0 by (split; simpl; [lia | by intros ? ?%not_elem_of_nil | by intros ? [?%not_elem_of_nil | ?]]).
    revert H0. generalize no_run. intros q0 H0 Hs. induction Hs; eauto using api_orderly_inv. }
  destruct H as [H1 H2 H3]. destruct (H2 n Hn) as [? | Eq]; [done |]. unfold api_stop. rewrite Eq. simpl.
  split_and!; [| done | apply elem_of_cons; by left].
  destruct (running q) as [| m [| ? ?]]; simpl in *; [by apply not_elem_of_nil in Hn | | lia].
  by apply list_elem_of_singleton in Hn as ->.
Qed.

Lemma api_stop_reaches_witness :
  fst (api_stop (snd (api_begin true no_run))) = 0.
Proof.
  refine (proj1 (proj2 (api_stop_reaches (snd (api_begin true no_run)) 0 _ _ _))).
  - apply rtc_once. apply o_begins. reflexivity.
  - apply list_elem_of_singleton. reflexivity.
  - apply not_elem_of_nil.
Defined.

(** A stop followed at once by a new start is not safe: the first run clears the
    slot of the second when it returns, so that a third session starts while the
    second still runs uncancelled, and later stops never reach the second. *)
Theorem api_two_sessions :
  exists q n m, rtc api_step no_run q /\ n <> m /\ n ∈ running q /\ m ∈ running q /\
    (n ∉ cancelled q) /\ (m ∉ cancelled q) /\
    (n ∉ cancelled (snd (api_stop q))) /\ fst (api_stop (snd (api_stop q))) = -1.
Proof.
  set (q1 := snd (api_begin true no_run)). set (q2 := snd (api_stop q1)). set (q3 := snd (api_begin true q2)).
  set (q4 := snd (api_end 0 (Ok 0) q3)). set (q5 := snd (api_begin true q4)).
  exists q5, 1%nat, 2%nat. split.
  - eapply rtc_l; [apply (begins no_run true) |]. fold q1.
    eapply rtc_l; [apply (stops q1) |]. fold q2.
    eapply rtc_l; [apply (begins q2 true) |]. fold q3.
    eapply rtc_l; [apply (ends q3 0 (Ok 0)), (bool_decide_unpack _); vm_compute; exact I |]. fold q4.
    apply rtc_once. apply (begins q4 true).
  - split_and!; try done; apply (bool_decide_unpack _); vm_compute; exact I.
Qed.

(** ** A session on Linux *)

Definition example_host : Host nat := mkHost nat (fun _ => false)
  (fun _ => Ok [mkSA (ipv4 203 0 113 5) 1080]) (fun _ => []) (fun _ _ => Ok (true, EmptyString))
  (fun _ => Ok (mkBind 2 2 None [] "eth0")) (fun _ => Ok tt) (fun _ => Some "tun0") (fun _ => Ok tt)
  (fun _ _ => Ok 1%nat) (fun _ _ _ => Some TaskFailed) (fun _ _ => Ok tt).

Definition example_args : Args :=
  mkArgs (Ok tt) (Some "proxy.example:1080") true None (Some 7) None None false false 200 false.

Lemma lifecycle_refines_witness :
  life Linux example_host example_args true (fst (general_run Linux example_host example_args (mkWorld [] true)))
    (milestones (events (snd (general_run Linux example_host example_args (mkWorld [] true))))).
Proof.
  assert (H : safe_host example_host) by (repeat split; discriminate).
  destruct (general_run Linux example_host example_args (mkWorld [] true)) as [p w] eqn:E.
  assert (Hp : a_echo example_args <> Panic) by discriminate.
  destruct (lifecycle_refines Linux example_host H example_args true p w Hp E) as [_ G]. exact G.
Defined.

(** The milestones of that session: the forwarding task failed. *)
Example example_milestones :
  milestones (events (snd (general_run Linux example_host example_args (mkWorld [] true)))) =
  [Egress (mkBind 2 2 None [] "eth0"); Installed 1%nat; Told (Ok tt); Forwarding (mkBind 2 2 None [] "eth0");
   Removed 1%nat (Ok tt); Closed 7].
Proof. reflexivity. Qed.

(** A proxy name that does not resolve: the descriptor is not closed. *)
Example descriptor_left_open :
  let host := mkHost nat (fun _ => false) (fun _ => Err (io_other "lookup")) (fun _ => []) (fun _ _ => Ok (true, EmptyString))
    (h_detect example_host) (fun _ => Ok tt) (fun _ => None) (fun _ => Ok tt) (fun _ _ => Ok 1%nat)
    (fun _ _ _ => Some TaskFailed) (fun _ _ => Ok tt) in
  milestones (events (snd (general_run Linux host example_args (mkWorld [] true)))) = [Told (Err "lookup")].
Proof. reflexivity. Qed.

(** A removal that fails on Windows: the guard tries once more. *)
Example failed_removal_retried :
  let host := mkHost nat (fun _ => false) (h_resolve example_host) (fun _ => []) (fun _ _ => Ok (true, EmptyString))
    (h_detect example_host) (fun _ => Ok tt) (fun _ => None) (fun _ => Ok tt) (fun _ _ => Ok 1%nat)
    (fun _ _ _ => Some (Finished (Ok 0))) (fun _ _ => Err (io_other "busy")) in
  milestones (events (snd (general_run Windows host example_args (mkWorld [] false)))) =
  [Egress (mkBind 2 2 None [] "eth0"); Installed 1%nat; Forwarding (mkBind 2 2 None [] "eth0");
   Removed 1%nat (Err (io_other "busy")); Guarded 1%nat].
Proof. reflexivity. Qed.

(** A start that cannot build its runtime leaves its token behind: the next
    start is refused as if a session ran, until a stop. *)
Example failed_start_blocks :
  let q := snd (api_begin false no_run) in
  fst (api_begin false no_run) = Some (-3) /\ running q = [] /\ fst (api_begin true q) = Some (-1) /\ fst (api_stop q) = 0.
Proof. done. Qed.
End Lifecycle.
