(* ===== verification/QueryOrigins.v ===== *)
(** * Callers of DNS questions (src/src/dns_routing/windows.rs)

    The questions that the resolver service of Windows asks for other processes
    are attributed to their callers from the event stream of the system: the
    layout of the two event payloads, the table of the most recent caller of
    each question, and the callback that fills it.  Text is the list of its
    code points, an instant is a number of nanoseconds.  The iteration order of
    the hash table is an argument. *)

From S2P Require Import Prelude Process.

Module QueryOrigins.
Import Process.

(** ** Questions and their callers *)

Record Question := mkQuestion { name : Name; kind : Z }.

#[export] Instance Question_eq_dec : EqDecision Question.
Proof. solve_decision. Defined.

#[export] Instance Question_countable : Countable Question.
Proof.
  apply (inj_countable' (fun q => (name q, kind q)) (fun p => mkQuestion p.1 p.2)). by intros [].
Defined.

(** [str::trim_end_matches] with a character. *)
Fixpoint trim_start_matches (c : Z) (s : Name) : Name :=
  match s with x :: s' => if x =? c then trim_start_matches c s' else s | [] => [] end.

Definition trim_end_matches (c : Z) (s : Name) : Name := rev (trim_start_matches c (rev s)).

(** [Question::new]. *)
Definition question (text : Name) (k : Z) : Question :=
  mkQuestion (to_ascii_lowercase (trim_end_matches 46 text)) k.

Record Origin := mkOrigin { pid : Z; at_ : Z }.

Definition ORIGIN_TTL : Z := 30 * 1000000000.
Definition MAX_ORIGINS : Z := 4096.

(** [now.saturating_duration_since(origin.at) < ORIGIN_TTL]. *)
Definition live (now : Z) (o : Origin) : bool := Z.max 0 (now - at_ o) <? ORIGIN_TTL.

(** [State]; the waiters of [changed] belong to the tasks that wait. *)
Record State := mkState { marker_id : Z; queries : gmap Question Origin; delivered : Z }.

Definition set_queries (m : gmap Question Origin) (s : State) : State := mkState (marker_id s) m (delivered s).

(** [min_by_key] on the recording times: the first of the least. *)
Fixpoint oldest (l : list (Question * Origin)) : option (Question * Origin) :=
  match l with
  | [] => None
  | x :: l' =>
      match oldest l' with
      | Some y => if at_ (snd y) <? at_ (snd x) then Some y else Some x
      | None => Some x
      end
  end.

Section table.
(** The order in which the hash table is iterated. *)
Variable iter : gmap Question Origin -> list (Question * Origin).

Definition make_room (now : Z) (entries : gmap Question Origin) : gmap Question Origin :=
  if MAX_ORIGINS <=? Z.of_nat (size entries) then
    let kept := filter (fun kv => live now (snd kv) = true) entries in
    if MAX_ORIGINS <=? Z.of_nat (size kept) then
      match oldest (iter kept) with Some (k, _) => delete k kept | None => kept end
    else kept
  else entries.

Definition record (q : Question) (p now : Z) (s : State) : State :=
  if p =? 0 then s else set_queries (<[q := mkOrigin p now]> (make_room now (queries s))) s.

Definition state_pid (q : Question) (now : Z) (s : State) : option Z :=
  match queries s !! q with Some o => if live now o then Some (pid o) else None | None => None end.

(** ** Event payloads *)

(** [from_le_bytes]. *)
Definition of_le (bs : list Z) : Z := foldr (fun b acc => b + 256 * acc) 0 bs.

(** The units of a zero-terminated wide text, and what follows it. *)
Fixpoint wide_units (data : list Z) : option (list Z * list Z) :=
  match data with
  | a :: b :: rest =>
      if (a =? 0) && (b =? 0) then Some ([], rest)
      else match wide_units rest with Some (us, r) => Some (of_le [a; b] :: us, r) | None => None end
  | _ => None
  end.

(** [String::from_utf16]. *)
Fixpoint from_utf16 (units : list Z) : option Name :=
  match units with
  | [] => Some []
  | u :: rest =>
      if (0xD800 <=? u) && (u <=? 0xDFFF) then
        match rest with
        | v :: rest' =>
            if (u <=? 0xDBFF) && (0xDC00 <=? v) && (v <=? 0xDFFF)
            then cons (0x10000 + (u - 0xD800) * 0x400 + (v - 0xDC00)) <$> from_utf16 rest' else None
        | [] => None
        end
      else cons u <$> from_utf16 rest
  end.

Definition wide (data : list Z) : option (Name * list Z) :=
  match wide_units data with
  | Some (units, rest) => (fun t => (t, rest)) <$> from_utf16 units
  | None => None
  end.

Definition number (data : list Z) : option (Z * list Z) :=
  if (4 <=? length data)%nat then Some (of_le (take 4 data), drop 4 data) else None.

Definition origin (id version header_pid : Z) (data : list Z) : option (Question * Z) :=
  if ((id =? 3006) && (version =? 0)) || ((id =? 3010) && (version =? 1)) then
    '(text, data) ← wide data;
    '(k, data) ← number data;
    if k <=? u16_max then
      p ← (if id =? 3010 then '(_, data) ← wide data; '(p, _) ← number data; Some p else Some header_pid);
      Some (question text k, p)
    else None
  else None.

(** ** The callback *)

Inductive Provider := DNS_PROVIDER | CHECKPOINT_PROVIDER | OtherProvider.

#[export] Instance Provider_eq_dec : EqDecision Provider.
Proof. solve_decision. Defined.

(** [EVENT_RECORD]; null user data is [None]. *)
Record EventRecord := mkEvent {
  provider : Provider; process_id : Z; event_id : Z; version : Z; user_data : option (list Z) }.

(** The sequence number of a checkpoint of this trace. *)
Definition marker_of (self_pid : Z) (marker : Z) (r : EventRecord) : option Z :=
  match user_data r with
  | Some bytes =>
      if bool_decide (provider r = CHECKPOINT_PROVIDER) && (process_id r =? self_pid) && (event_id r =? 1) &&
         (length bytes =? 16)%nat && (of_le (take 8 bytes) =? marker)
      then Some (of_le (drop 8 bytes)) else None
  | None => None
  end.

(** The callback: the new state, and whether the waiters are notified. *)
Definition event (self_pid now : Z) (r : EventRecord) (s : State) : State * bool :=
  match user_data r with
  | None => (s, false)
  | Some bytes =>
      if bool_decide (provider r = CHECKPOINT_PROVIDER) && (process_id r =? self_pid) then
        match marker_of self_pid (marker_id s) r with
        | Some value => (mkState (marker_id s) (queries s) (Z.max (delivered s) value), true)
        | None => (s, false)
        end
      else if bool_decide (provider r = DNS_PROVIDER) then
        match origin (event_id r) (version r) (process_id r) bytes with
        | Some (q, p) => (record q p now s, false)
        | None => (s, false)
        end
      else (s, false)
  end.
End table.

(** ** Specification *)

(** What a recorded event says. *)
Definition Observation : Type := Question * Origin.

(** The most recent caller of every question, without a bound. *)
Definition observe (m : gmap Question Origin) (x : Observation) : gmap Question Origin :=
  if pid (snd x) =? 0 then m else <[fst x := snd x]> m.

Definition callers (log : list Observation) : gmap Question Origin := foldl observe ∅ log.

(** Observations in the order of their times, not behind [now]. *)
Definition in_order (log : list Observation) (now : Z) : Prop :=
  forall l1 x l2, log = l1 ++ x :: l2 ->
    at_ (snd x) <= now /\ (forall y, y ∈ l2 -> at_ (snd x) <= at_ (snd y)).

(** No observation met a full table of live questions. *)
Definition calm (log : list Observation) : Prop :=
  forall l1 x l2, log = l1 ++ x :: l2 ->
    Z.of_nat (size (filter (fun kv => live (at_ (snd x)) (snd kv) = true) (callers l1))) < MAX_ORIGINS.

Section table_proofs.
Variable iter : gmap Question Origin -> list (Question * Origin).
Hypothesis iter_all : forall m, iter m ≡ₚ map_to_list m.

Definition recorded (log : list Observation) (s : State) : State :=
  foldl (fun s x => record iter (fst x) (pid (snd x)) (at_ (snd x)) s) s log.

Lemma oldest_in l x : oldest l = Some x -> x ∈ l.
Proof.
  revert x. induction l as [| y l IH]; simpl; [done |]. intros x Hx.
  destruct (oldest l) as [z |]; [destruct (_ <? _) |]; injection Hx as <-; rewrite elem_of_cons; auto.
Qed.

Lemma oldest_some l : l <> [] -> exists x, oldest l = Some x.
Proof. destruct l as [| y l]; [done |]. intros _. simpl. destruct (oldest l); [destruct (_ <? _) |]; eauto. Qed.

Lemma make_room_sub now m : make_room iter now m ⊆ m.
Proof.
  unfold make_room. destruct (_ <=? _); [| done]. set (k := filter _ m). assert (k ⊆ m) by apply map_filter_subseteq.
  destruct (_ <=? _); [| done]. destruct (oldest (iter k)) as [[q o] |]; [| done].
  etrans; [apply delete_subseteq | done].
Qed.

Lemma make_room_size now m : Z.of_nat (size m) <= MAX_ORIGINS -> Z.of_nat (size (make_room iter now m)) < MAX_ORIGINS.
Proof.
  intros H. unfold make_room. destruct (_ <=? _) eqn:E1; b2p; [| done].
  set (k := filter _ m). assert (Hk : k ⊆ m) by apply map_filter_subseteq. apply map_subseteq_size in Hk.
  destruct (_ <=? Z.of_nat (size k)) eqn:E2; b2p; [| done].
  destruct (oldest_some (iter k)) as [[q o] Ho].
  { intros Hn. pose proof (iter_all k) as Hp. rewrite Hn in Hp.
    apply Permutation_nil_l in Hp. apply (f_equal length) in Hp. rewrite length_map_to_list in Hp. unfold MAX_ORIGINS in E2. simpl in Hp. lia. }
  rewrite Ho. apply oldest_in in Ho. rewrite iter_all in Ho. apply elem_of_map_to_list in Ho.
  rewrite map_size_delete_Some by eauto. unfold MAX_ORIGINS in *. lia.
Qed.

Lemma record_size q p now s :
  Z.of_nat (size (queries s)) <= MAX_ORIGINS -> Z.of_nat (size (queries (record iter q p now s))) <= MAX_ORIGINS.
Proof.
  intros H. unfold record. destruct (p =? 0); [done |]. simpl.
  pose proof (make_room_size now (queries s) H). rewrite map_size_insert. destruct (_ !! q); simpl; lia.
Qed.

Lemma record_sub q p now s m :
  queries s ⊆ m -> queries (record iter q p now s) ⊆ observe m (q, mkOrigin p now).
Proof.
  intros H. unfold record, observe. simpl. destruct (p =? 0); [done |]. simpl.
  apply insert_mono. etrans; [apply make_room_sub | done].
Qed.

(** With room for the live questions nothing live is lost. *)
Lemma record_keeps q p now s m k o :
  queries s ⊆ m -> Z.of_nat (size (filter (fun kv => live now (snd kv) = true) m)) < MAX_ORIGINS ->
  k <> q -> queries s !! k = Some o -> live now o = true -> queries (record iter q p now s) !! k = Some o.
Proof.
  intros Hs Hr Hk Ho Hl. unfold record. destruct (p =? 0); [done |]. simpl. rewrite lookup_insert_ne by done.
  unfold make_room. destruct (_ <=? _); [| done].
  assert (Hf : filter (fun kv => live now (snd kv) = true) (queries s) ⊆ filter (fun kv => live now (snd kv) = true) m)
    by (by apply map_filter_subseteq_mono).
  apply map_subseteq_size in Hf. destruct (_ <=? _) eqn:E; b2p; [lia |].
  by apply map_lookup_filter_Some.
Qed.

Lemma live_earlier now t o : t <= now -> live now o = true -> live t o = true.
Proof. unfold live. intros. b2p. apply Z.ltb_lt. lia. Qed.

Lemma recorded_app l x s :
  recorded (l ++ [x]) s = record iter (fst x) (pid (snd x)) (at_ (snd x)) (recorded l s).
Proof. unfold recorded. by rewrite foldl_app. Qed.

Lemma callers_app l x : callers (l ++ [x]) = observe (callers l) x.
Proof. unfold callers. by rewrite foldl_app. Qed.

Lemma in_order_app l x now : in_order (l ++ [x]) now -> in_order l (at_ (snd x)) /\ at_ (snd x) <= now.
Proof.
  intros H. split; [| by apply (H l x [])]. intros l1 y l2 ->.
  destruct (H l1 y (l2 ++ [x])) as [_ Hy]; [by rewrite <- (assoc_L app) |]. split.
  - apply Hy, elem_of_app. right. by apply list_elem_of_singleton.
  - intros z Hz. apply Hy, elem_of_app. by left.
Qed.

Lemma calm_app l x : calm (l ++ [x]) ->
  calm l /\ Z.of_nat (size (filter (fun kv => live (at_ (snd x)) (snd kv) = true) (callers l))) < MAX_ORIGINS.
Proof.
  intros H. split; [| by apply (H l x [])]. intros l1 y l2 ->. apply (H l1 y (l2 ++ [x])). by rewrite <- (assoc_L app).
Qed.

Lemma recorded_sub log s : queries s = ∅ -> queries (recorded log s) ⊆ callers log.
Proof.
  intros H. induction log as [| x l IH] using rev_ind; [unfold recorded; simpl; by rewrite H |].
  rewrite recorded_app, callers_app. destruct x as [q [p t]]. by apply record_sub.
Qed.

Lemma recorded_size log s : queries s = ∅ -> Z.of_nat (size (queries (recorded log s))) <= MAX_ORIGINS.
Proof.
  intros H. induction log as [| x l IH] using rev_ind; [unfold recorded; simpl; by rewrite H, map_size_empty |].
  rewrite recorded_app. by apply record_size.
Qed.

Lemma recorded_live log s q o now :
  queries s = ∅ -> in_order log now -> calm log -> callers log !! q = Some o -> live now o = true ->
  queries (recorded log s) !! q = Some o.
Proof.
  intros H. revert now. induction log as [| x l IH] using rev_ind; [unfold recorded; simpl; by rewrite H |].
  intros now Ho Hc. apply in_order_app in Ho as [Ho Hn]. apply calm_app in Hc as [Hc Hr].
  rewrite callers_app, recorded_app. destruct x as [k [p t]]. unfold observe. simpl in *. intros Hq Hl.
  destruct (p =? 0) eqn:E; [unfold record; rewrite E; by apply (IH t); [| | | eapply live_earlier] |].
  destruct (decide (q = k)) as [-> | Hne].
  - rewrite lookup_insert_eq in Hq. injection Hq as <-. unfold record. rewrite E. simpl. by rewrite lookup_insert_eq.
  - rewrite lookup_insert_ne in Hq by done. pose proof (live_earlier now t o Hn Hl) as Ht.
    apply (record_keeps _ _ _ _ (callers l)); [by apply recorded_sub | done | done | by apply (IH t) | done].
Qed.

(** C27. The table of callers is a bounded view of the unbounded record: it never
    holds more than 4096 questions; a caller it reports is the one of the most
    recent event for that question, not older than thirty seconds; and while
    fewer than 4096 questions are live at a time, every such caller is
    reported. *)
Theorem query_origins_refine log s now q :
  queries s = ∅ -> in_order log now ->
  Z.of_nat (size (queries (recorded log s))) <= MAX_ORIGINS /\
  (forall p, state_pid q now (recorded log s) = Some p ->
    exists t, callers log !! q = Some (mkOrigin p t) /\ Z.max 0 (now - t) < ORIGIN_TTL) /\
  (calm log -> forall o, callers log !! q = Some o -> live now o = true ->
    state_pid q now (recorded log s) = Some (pid o)).
Proof.
  intros Hs Ho. split; [by apply recorded_size |]. unfold state_pid. split.
  - intros p. destruct (queries _ !! q) as [[p' t] |] eqn:E; [| done]. destruct (live now _) eqn:El; [| done].
    intros [= ->]. exists t. unfold live in El. b2p. split; [| done].
    eapply lookup_weaken; [exact E | by apply recorded_sub].
  - intros Hc o Hq Hl. rewrite (recorded_live log s q o now) by done. by rewrite Hl.
Qed.
End table_proofs.

Lemma query_origins_refine_witness :
  state_pid (question (as_bytes "example.com") 1) 20 (recorded map_to_list
    [(question (as_bytes "EXAMPLE.com.") 1, mkOrigin 42 10)] (mkState 0 ∅ 0)) = Some 42.
Proof.
  refine (proj2 (proj2 (query_origins_refine map_to_list (fun m => Permutation_refl _)
    [(question (as_bytes "EXAMPLE.com.") 1, mkOrigin 42 10)] (mkState 0 ∅ 0) 20
    (question (as_bytes "example.com") 1) eq_refl _)) _ (mkOrigin 42 10) _ _).
  - intros l1 x l2 E. destruct l1 as [| y [| ? ?]]; [| discriminate E | discriminate E].
    injection E as <- <-. split; [cbn; lia | intros y Hy; by apply not_elem_of_nil in Hy].
  - intros l1 x l2 E. destruct l1 as [| y [| ? ?]]; [| discriminate E | discriminate E].
    injection E as <- <-. vm_compute. reflexivity.
  - vm_compute. reflexivity.
  - vm_compute. reflexivity.
Defined.

(** ** Payloads as the providers write them *)

Definition le16 (n : Z) : list Z := [n mod 256; n / 256].
Definition le32 (n : Z) : list Z := [n mod 256; n / 256 mod 256; n / 65536 mod 256; n / 16777216].

Definition encode_char (c : Z) : list Z :=
  if c <=? 0xFFFF then [c] else [0xD800 + (c - 0x10000) / 0x400; 0xDC00 + (c - 0x10000) mod 0x400].

Definition units_bytes (us : list Z) : list Z := flat_map le16 us.

Definition wide_text (s : Name) : list Z := units_bytes (flat_map encode_char s) ++ [0; 0].

(** A code point other than zero and the surrogates. *)
Definition scalar (c : Z) : Prop := 0 < c <= 0x10FFFF /\ ~ (0xD800 <= c <= 0xDFFF).

Definition unit16 (u : Z) : Prop := 0 < u < 65536.

(** The payload of event 3010: the name, the record type, the servers, the
    caller. *)
Definition service_payload (text : Name) (k : Z) (servers : Name) (p : Z) : list Z :=
  wide_text text ++ le32 k ++ wide_text servers ++ le32 p.

Lemma length_units_bytes us : length (units_bytes us) = (2 * length us)%nat.
Proof. unfold units_bytes. induction us as [| u us IH]; simpl; lia. Qed.

Lemma of_le16 u : of_le (le16 u) = u.
Proof. unfold of_le, le16. simpl. pose proof (Z.div_mod u 256). lia. Qed.

Lemma wide_units_bytes us rest :
  Forall unit16 us -> wide_units (units_bytes us ++ [0; 0] ++ rest) = Some (us, rest).
Proof.
  induction 1 as [| u us Hu _ IH]; [done |]. unfold units_bytes in *. simpl in *. unfold unit16 in Hu.
  destruct ((u mod 256 =? 0) && (u / 256 =? 0)) eqn:E; b2p; [pose proof (Z.div_mod u 256); lia |].
  rewrite IH. do 2 f_equal. f_equal. apply of_le16.
Qed.

(** A text that is cut off is not decoded. *)
Lemma wide_units_cut us rest k :
  Forall unit16 us -> (k < 2 * length us + 2)%nat -> wide_units (take k (units_bytes us ++ [0; 0] ++ rest)) = None.
Proof.
  intros Hu. revert k. induction Hu as [| u us Hu _ IH]; intros k Hk; simpl in *.
  - destruct k as [| [| k]]; [done | done | lia].
  - destruct k as [| [| k]]; [done | done |]. unfold units_bytes in *. simpl in *. unfold unit16 in Hu.
    destruct ((u mod 256 =? 0) && (u / 256 =? 0)) eqn:E; b2p; [pose proof (Z.div_mod u 256); lia |].
    by rewrite IH by lia.
Qed.

Lemma encode_char_units c : scalar c -> Forall unit16 (encode_char c).
Proof.
  intros [H _]. unfold encode_char, unit16. destruct (_ <=? _) eqn:E; b2p; [repeat constructor; lia |].
  assert (0 <= (c - 0x10000) / 0x400 < 0x400) by (split; [apply Z.div_pos; lia | apply Z.div_lt_upper_bound; lia]).
  pose proof (Z.mod_pos_bound (c - 0x10000) 0x400). repeat constructor; lia.
Qed.

Lemma encode_units s : Forall scalar s -> Forall unit16 (flat_map encode_char s).
Proof. induction 1; [constructor |]. simpl. apply Forall_app. split; [by apply encode_char_units | done]. Qed.

Lemma from_utf16_encode s : Forall scalar s -> from_utf16 (flat_map encode_char s) = Some s.
Proof.
  induction 1 as [| c s [Hr Hs] _ IH]; [done |]. simpl. unfold encode_char at 1. destruct (c <=? 0xFFFF) eqn:E; b2p.
  - simpl. destruct ((0xD800 <=? c) && (c <=? 0xDFFF)) eqn:E1; b2p; [lia |]. by rewrite IH.
  - assert (0 <= (c - 0x10000) / 0x400 < 0x400) by (split; [apply Z.div_pos; lia | apply Z.div_lt_upper_bound; lia]).
    pose proof (Z.mod_pos_bound (c - 0x10000) 0x400). pose proof (Z.div_mod (c - 0x10000) 0x400).
    set (h := (c - 0x10000) / 0x400) in *. set (l := (c - 0x10000) mod 0x400) in *. simpl.
    rewrite !(proj2 (Z.leb_le _ _)) by lia. simpl. rewrite IH. simpl. do 2 f_equal. lia.
Qed.

Lemma wide_text_decodes s rest : Forall scalar s -> wide (wide_text s ++ rest) = Some (s, rest).
Proof.
  intros H. unfold wide, wide_text. rewrite <- (assoc_L app), wide_units_bytes by by apply encode_units.
  by rewrite from_utf16_encode.
Qed.

Lemma wide_text_cut s rest k : Forall scalar s -> (k < length (wide_text s))%nat -> wide (take k (wide_text s ++ rest)) = None.
Proof.
  intros H Hk. unfold wide, wide_text in *. rewrite length_app, length_units_bytes in Hk. simpl in Hk.
  rewrite <- (assoc_L app), wide_units_cut; [done | by apply encode_units | lia].
Qed.

Lemma number_decodes n rest : number (le32 n ++ rest) = Some (n, rest).
Proof.
  unfold number, le32, of_le. simpl. do 2 f_equal.
  replace (n / 65536) with (n / 256 / 256) by (rewrite Z.div_div by lia; f_equal; lia).
  replace (n / 16777216) with (n / 256 / 256 / 256) by (rewrite !Z.div_div by lia; f_equal; lia).
  pose proof (Z.div_mod n 256). pose proof (Z.div_mod (n / 256) 256). pose proof (Z.div_mod (n / 256 / 256) 256). lia.
Qed.

Lemma number_cut n rest k : (k < 4)%nat -> number (take k (le32 n ++ rest)) = None.
Proof. intros H. unfold number. rewrite length_take. destruct (4 <=? _)%nat eqn:E; b2p; [simpl in E; lia | done]. Qed.

(** What a prefix of two concatenated lists is. *)
Lemma take_past {A} (a b : list A) k : (length a <= k)%nat -> take k (a ++ b) = a ++ take (k - length a) b.
Proof. intros H. rewrite take_app. by rewrite take_ge. Qed.

(** The payload of the resolver service is decoded to its question and to the
    caller it names, whatever follows it, with the name in lower case and
    without its final dots; a payload that is cut anywhere is not attributed to
    anyone. *)
Theorem dns_event_decodes text k servers p header_pid rest :
  Forall scalar text -> Forall scalar servers -> is_u16 k ->
  origin 3010 1 header_pid (service_payload text k servers p ++ rest) = Some (question text k, p) /\
  (forall n, (n < length (service_payload text k servers p))%nat ->
    origin 3010 1 header_pid (take n (service_payload text k servers p)) = None).
Proof.
  intros Ht Hs Hk. unfold is_u16 in Hk. unfold origin, service_payload. cbn [Z.eqb Pos.eqb andb orb]. split.
  - rewrite <- !(assoc_L app), wide_text_decodes by done. cbn [mbind option_bind]. rewrite number_decodes. cbn [mbind option_bind].
    rewrite (proj2 (Z.leb_le k u16_max)) by (unfold u16_max; lia).
    rewrite wide_text_decodes by done. cbn [mbind option_bind]. by rewrite number_decodes.
  - intros n Hn. rewrite !length_app in Hn. destruct (decide (n < length (wide_text text))%nat) as [H1 | H1].
    { by rewrite wide_text_cut. }
    rewrite take_past by lia. set (n1 := (n - length (wide_text text))%nat).
    rewrite wide_text_decodes by done. cbn [mbind option_bind].
    destruct (decide (n1 < 4)%nat) as [H2 | H2]; [by rewrite number_cut |].
    rewrite (take_past (le32 k)) by (simpl; lia). rewrite number_decodes. cbn [mbind option_bind].
    rewrite (proj2 (Z.leb_le k u16_max)) by (unfold u16_max; lia).
    set (n2 := (n1 - length (le32 k))%nat). destruct (decide (n2 < length (wide_text servers))%nat) as [H3 | H3].
    { by rewrite wide_text_cut. }
    rewrite (take_past (wide_text servers)) by lia. rewrite wide_text_decodes by done. cbn [mbind option_bind].
    rewrite <- (app_nil_r (le32 p)). rewrite number_cut; [done |]. simpl in *. lia.
Qed.

Lemma dns_event_decodes_witness :
  origin 3010 1 999 (service_payload (as_bytes "EXAMPLE.com.") 28 (as_bytes "10.0.0.1") 42 ++ [7]) =
  Some (mkQuestion (as_bytes "example.com") 28, 42).
Proof.
  refine (proj1 (dns_event_decodes (as_bytes "EXAMPLE.com.") 28 (as_bytes "10.0.0.1") 42 999 [7] _ _ _)).
  - repeat constructor; cbn; lia.
  - repeat constructor; cbn; lia.
  - split; lia.
Defined.
End QueryOrigins.
