(* ===== verification/TraceSession.v ===== *)
(** * The event trace and its resources (src/src/dns_routing/windows.rs)

    [Trace::start] with its clean-up on every failure, [Drop] for [Trace],
    [reclaim_orphaned_traces] for the sessions of processes that died, and the
    start with its background retries.  What the system answers is a function of
    the calls made before, so every sequence of answers is covered. *)

From S2P Require Import Prelude Net Process.

Module TraceSession.
Import Process.

(** ** The system *)

(** A session as the enumeration reports it. *)
Record Session := mkSession { s_name : Name; s_handle : Z }.

(** What is known of a process: it cannot be opened because it does not exist
    or for another reason, it has exited, or it runs. *)
Inductive ProcessAnswer := NoSuchProcess | NotOpened | Exited | Running.

Inductive TraceCall :=
  | QueryAllTraces (count : Z)
  | OpenProcess (pid : Z) (a : ProcessAnswer)
  | StopOrphan (s : Session) (status : Z)
  | StartTrace (name : Name) (status : Z) (control : Z)
  | EnableDns (control status : Z)
  | Register (status handle : Z)
  | EnableCheckpoint (control status : Z)
  | OpenTrace (name : Name) (handle : option Z)
  | SpawnConsumer (reader : Z) (r : res IoError unit)
  | Stop (control : Z)
  | CloseReader (reader : Z)
  | Unregister (handle : Z)
  | JoinConsumer.

Definition Calls : Type := list TraceCall.

(** The answers: a status, the number of sessions and the rows written; a
    process; the statuses of the controls; the handles. *)
Record Etw := mkEtw {
  e_query : Z -> Calls -> Z * Z * list Session;
  e_process : Z -> Calls -> ProcessAnswer;
  e_stop : Session -> Calls -> Z;
  e_start : Name -> Calls -> Z * Z;
  e_enable : Calls -> Z;
  e_register : Calls -> Z * Z;
  e_open : Name -> Calls -> option Z;
  e_spawn : Calls -> res IoError unit;
  e_sync : Calls -> res IoError unit }.

Definition ERROR_MORE_DATA : Z := 234.
Definition ERROR_TIMEOUT : Z := 1460.

Definition check (status : Z) : res IoError unit :=
  if status =? 0 then Ok tt else Err (io_other "os error").

Definition check_start (status : Z) (operation : string) : res IoError unit :=
  map_err (fun e => io_other (operation +:+ " for Windows DNS attribution: " +:+ io_msg e)) (check status).

(** A callback that is still pending is not a failure. *)
Definition check_enable (status : Z) (operation : string) : res IoError unit :=
  if status =? ERROR_TIMEOUT then Ok tt else check_start status operation.

(** ** Names of sessions *)

(** [str::parse] for an unsigned type with this largest value. *)
Fixpoint digits (bound acc : Z) (s : Name) : option Z :=
  match s with
  | [] => Some acc
  | c :: s' =>
      if (48 <=? c) && (c <=? 57) then
        let acc' := acc * 10 + (c - 48) in if bound <? acc' then None else digits bound acc' s'
      else None
  end.

Definition parse_unsigned (bound : Z) (s : Name) : option Z :=
  match s with
  | [] => None
  | [43] => None
  | 43 :: s' => digits bound 0 s'
  | _ => digits bound 0 s
  end.

Definition strip_prefix (p s : Name) : option Name :=
  if bool_decide (take (length p) s = p) then Some (drop (length p) s) else None.

Fixpoint split_once (c : Z) (s : Name) : option (Name * Name) :=
  match s with
  | [] => None
  | x :: s' => if x =? c then Some ([], s') else match split_once c s' with Some (a, b) => Some (x :: a, b) | None => None end
  end.

Definition u32_max : Z := 4294967295.

Definition session_prefix : Name := as_bytes "CipherRelay-DNS-".

Definition trace_owner (name : Name) : option Z :=
  suffix ← strip_prefix session_prefix name;
  '(p, sequence) ← split_once 45 suffix;
  p ← parse_unsigned u32_max p;
  if p =? 0 then None else _ ← parse_unsigned u64_max sequence; Some p.

(** The name [Trace::start] gives its session. *)
Definition trace_name (self_pid marker : Z) : Name :=
  session_prefix ++ as_bytes (show_dec self_pid) ++ [45] ++ as_bytes (show_dec marker).

Section trace.
Variable etw : Etw.

(** ** Sessions of dead processes *)

(** The enumeration: the buffers grow until they hold every session. *)
Fixpoint query_loop (fuel : nat) (count : Z) (h : Calls) : option (res IoError (list Session)) * Calls :=
  match fuel with
  | O => (None, h)
  | S fuel' =>
      let '(status, needed, rows) := e_query etw count h in
      let h1 := h ++ [QueryAllTraces count] in
      if (status =? ERROR_MORE_DATA) && (count <? needed) && (needed <=? 1024) then query_loop fuel' needed h1
      else
        match check status with
        | Ok _ =>
            let boxes := take (Z.to_nat count) (rows ++ replicate (Z.to_nat count) (mkSession [] 0)) in
            (Some (Ok (take (Z.to_nat needed) boxes)), h1)
        | Err e => (Some (Err e), h1)
        | Panic => (Some Panic, h1)
        end
  end.

Definition absent (a : ProcessAnswer) : bool := match a with NoSuchProcess | Exited => true | _ => false end.

Fixpoint reclaim_loop (entries : list Session) (reclaimed : Z) (h : Calls) : res IoError Z * Calls :=
  match entries with
  | [] => (Ok reclaimed, h)
  | s :: rest =>
      match trace_owner (s_name s) with
      | None => reclaim_loop rest reclaimed h
      | Some p =>
          let a := e_process etw p h in
          let h1 := h ++ [OpenProcess p a] in
          if absent a then
            let status := e_stop etw s h1 in
            let h2 := h1 ++ [StopOrphan s status] in
            match check status with
            | Ok _ => reclaim_loop rest (reclaimed + 1) h2
            | Err e => (Err e, h2)
            | Panic => (Panic, h2)
            end
          else reclaim_loop rest reclaimed h1
      end
  end.

Definition query_fuel : nat := 1024.

Definition reclaim_orphaned_traces (h : Calls) : res IoError Z * Calls :=
  match query_loop query_fuel 64 h with
  | (Some (Ok entries), h1) => reclaim_loop entries 0 h1
  | (Some (Err e), h1) => (Err e, h1)
  | (_, h1) => (Panic, h1)
  end.

(** ** One trace *)

(** The handles of [Trace]; the invalid reader is [None]. *)
Record Trace := mkTrace { control : Z; reader : option Z; marker : Z; consumer : bool }.

(** [Drop]. *)
Definition drop_trace (t : Trace) (h : Calls) : Calls :=
  h ++ [Stop (control t)] ++ match reader t with Some r => [CloseReader r] | None => [] end ++
  (if marker t =? 0 then [] else [Unregister (marker t)]) ++ (if consumer t then [JoinConsumer] else []).

(** A step that fails drops the trace. *)
Definition or_drop {A} (r : res IoError unit) (t : Trace) (h : Calls) (k : Calls -> res IoError A * Calls) : res IoError A * Calls :=
  match r with Ok _ => k h | Err e => (Err e, drop_trace t h) | Panic => (Panic, drop_trace t h) end.

Definition start (self_pid marker_id : Z) (h0 : Calls) : res IoError Trace * Calls :=
  let h := snd (reclaim_orphaned_traces h0) in
  let name := trace_name self_pid marker_id in
  let '(status, ctl) := e_start etw name h in
  let h := h ++ [StartTrace name status ctl] in
  match check_start status "StartTraceW" with
  | Err e => (Err e, h)
  | Panic => (Panic, h)
  | Ok _ =>
      let t := mkTrace ctl None 0 false in
      let status := e_enable etw h in
      or_drop (check_enable status "EnableTraceEx2(DNS)") t (h ++ [EnableDns ctl status]) (fun h =>
      let '(status, handle) := e_register etw h in
      let t := mkTrace ctl None handle false in
      or_drop (check_start status "EventRegister(checkpoint)") t (h ++ [Register status handle]) (fun h =>
      let status := e_enable etw h in
      or_drop (check_enable status "EnableTraceEx2(checkpoint)") t (h ++ [EnableCheckpoint ctl status]) (fun h =>
      let rd := e_open etw name h in
      let h := h ++ [OpenTrace name rd] in
      match rd with
      | None => (Err (io_other "os error"), drop_trace t h)
      | Some r =>
          let t := mkTrace ctl (Some r) handle false in
          let spawned := e_spawn etw h in
          or_drop spawned t (h ++ [SpawnConsumer r spawned]) (fun h => (Ok (mkTrace ctl (Some r) handle true), h))
      end)))
  end.

(** [start_trace]: the first wait of the new trace, with its time-out. *)
Definition start_trace (self_pid marker_id : Z) (h : Calls) : res IoError Trace * Calls :=
  match start self_pid marker_id h with
  | (Ok t, h1) => or_drop (e_sync etw h1) t h1 (fun h2 => (Ok t, h2))
  | failed => failed
  end.

(** [start_recovering] with this many retries so far; each attempt has its own
    marker. *)
Fixpoint start_recovering (self_pid marker_id : Z) (retries : nat) (h : Calls) : option Trace * Calls :=
  match start_trace self_pid marker_id h with
  | (Ok t, h1) => (Some t, h1)
  | (_, h1) => match retries with O => (None, h1) | S n => start_recovering self_pid (wrap64 (marker_id + 1)) n h1 end
  end.
End trace.

(** ** Names are recognized *)

Lemma digits_go bound x s :
  Z.of_N x <= bound -> digits bound 0 (as_bytes (pretty_N_go x s)) = digits bound (Z.of_N x) (as_bytes s).
Proof.
  revert s. induction (N.lt_wf_0 x) as [x _ IH]. intros s Hb.
  destruct (decide (0 < x)%N) as [Hx | Hx]; [| replace x with 0%N by lia; by rewrite pretty_N_go_0].
  rewrite pretty_N_go_step by done.
  assert (Hd : (x `div` 10 < x)%N) by (apply N.div_lt; lia).
  pose proof (N.div_mod x 10 ltac:(lia)) as Hm. pose proof (N.mod_lt x 10 ltac:(lia)) as Hl.
  rewrite IH by (try done; lia). cbn [as_bytes].
  assert (Hc : Z.of_N (Ascii.N_of_ascii (pretty_N_char (x `mod` 10))) = 48 + Z.of_N (x `mod` 10)).
  { revert Hl. generalize (x `mod` 10)%N. intros d Hd'.
    assert (d = 0 \/ d = 1 \/ d = 2 \/ d = 3 \/ d = 4 \/ d = 5 \/ d = 6 \/ d = 7 \/ d = 8 \/ d = 9)%N as Hd9 by lia.
    destruct_or! Hd9; subst d; reflexivity. }
  assert (Hz : Z.of_N x = 10 * Z.of_N (x `div` 10) + Z.of_N (x `mod` 10)) by (rewrite Hm at 1; rewrite N2Z.inj_add, N2Z.inj_mul; reflexivity).
  rewrite Hc. assert (Hr : 0 <= Z.of_N (x `mod` 10) < 10) by (split; [apply N2Z.is_nonneg | apply (N2Z.inj_lt _ 10), Hl]).
  revert Hz Hr. generalize (Z.of_N (x `mod` 10)) (Z.of_N (x `div` 10)). intros d q Hz Hr. cbn [digits].
  rewrite (proj2 (Z.leb_le 48 (48 + d))), (proj2 (Z.leb_le (48 + d) 57)) by lia. cbn [andb].
  replace (q * 10 + (48 + d - 48)) with (Z.of_N x) by lia.
  by rewrite (proj2 (Z.ltb_ge bound _)).
Qed.

Lemma digits_shown bound n : 0 <= n <= bound -> digits bound 0 (as_bytes (show_dec n)) = Some n.
Proof.
  intros Hn. unfold show_dec, pretty, pretty_N. destruct (decide (Z.to_N n = 0%N)) as [E | E].
  - assert (n = 0) as -> by lia. change (digits bound 0 _) with (if bound <? 0 then None else Some 0).
    by rewrite (proj2 (Z.ltb_ge bound 0)) by lia.
  - rewrite digits_go by lia. cbn. f_equal. lia.
Qed.

Lemma digits_forall bound acc s v : digits bound acc s = Some v -> Forall (fun c => 48 <= c <= 57) s.
Proof.
  revert acc. induction s as [| c s IH]; intros acc; [constructor |]. simpl. destruct (_ && _) eqn:E; [| done].
  destruct (_ <? _); [done |]. intros H. b2p. constructor; [lia | eauto].
Qed.

Lemma shown_nonempty n : as_bytes (show_dec n) <> [].
Proof.
  unfold show_dec, pretty, pretty_N. destruct (decide (Z.to_N n = 0%N)) as [| E]; [done |]. intros H.
  pose proof (digits_go (Z.of_N (Z.to_N n)) (Z.to_N n) "" ltac:(lia)) as Hd. rewrite H in Hd. cbn in Hd. injection Hd. lia.
Qed.

Lemma parse_shown bound n : 0 <= n <= bound -> parse_unsigned bound (as_bytes (show_dec n)) = Some n.
Proof.
  intros Hn. pose proof (digits_shown bound n Hn) as Hd. pose proof (digits_forall _ _ _ _ Hd) as Hf.
  pose proof (shown_nonempty n) as He. unfold parse_unsigned. destruct (as_bytes (show_dec n)) as [| c s]; [done |].
  inversion Hf as [| ? ? Hc _]; subst. destruct (decide (c = 43)) as [-> | Hne]; [lia |].
  repeat (case_match; try done; try lia).
Qed.

Lemma split_once_app c a b : Forall (fun x => x <> c) a -> split_once c (a ++ c :: b) = Some (a, b).
Proof.
  induction 1 as [| x a Hx _ IH]; simpl; [by rewrite Z.eqb_refl |].
  rewrite (proj2 (Z.eqb_neq x c)) by done. by rewrite IH.
Qed.

(** The session a process starts is recognized as its own when it has died. *)
Lemma trace_owner_name p m : 0 < p <= u32_max -> 0 <= m <= u64_max -> trace_owner (trace_name p m) = Some p.
Proof.
  intros Hp Hm. unfold trace_owner, trace_name, strip_prefix. rewrite take_app_length, drop_app_length.
  rewrite bool_decide_eq_true_2 by done. cbn [mbind option_bind app].
  rewrite split_once_app.
  - cbn [mbind option_bind]. rewrite !parse_shown by (unfold u32_max in *; lia). cbn [mbind option_bind].
    rewrite (proj2 (Z.eqb_neq p 0)) by lia. done.
  - eapply Forall_impl; [eapply digits_forall, (digits_shown p p); lia |]. simpl. lia.
Qed.

(** ** What a trace holds *)

Inductive Resource := RSession (h : Z) | RReader (h : Z) | RRegistration (h : Z) | RConsumer.

#[export] Instance Resource_eq_dec : EqDecision Resource.
Proof. solve_decision. Defined.

Fixpoint release (x : Resource) (l : list Resource) : list Resource :=
  match l with [] => [] | y :: l' => if decide (x = y) then l' else y :: release x l' end.

Definition hold (l : list Resource) (c : TraceCall) : list Resource :=
  match c with
  | StartTrace _ status h => if status =? 0 then RSession h :: l else l
  | Register status h => if status =? 0 then RRegistration h :: l else l
  | OpenTrace _ (Some r) => RReader r :: l
  | SpawnConsumer _ (Ok _) => RConsumer :: l
  | Stop h => release (RSession h) l
  | CloseReader h => release (RReader h) l
  | Unregister h => release (RRegistration h) l
  | JoinConsumer => release RConsumer l
  | _ => l
  end.

(** The resources open after these calls. *)
Definition held (h : Calls) : list Resource := foldl hold [] h.

Definition resources (t : Trace) : list Resource :=
  (if consumer t then [RConsumer] else []) ++ match reader t with Some r => [RReader r] | None => [] end ++
  (if marker t =? 0 then [] else [RRegistration (marker t)]) ++ [RSession (control t)].

Section proofs.
Variable etw : Etw.

(** [EventRegister] gives a handle exactly when it succeeds. *)
Hypothesis register_law : forall h, fst (e_register etw h) = 0 <-> snd (e_register etw h) <> 0.
Hypothesis spawn_law : forall h, e_spawn etw h <> Panic.
Hypothesis sync_law : forall h, e_sync etw h <> Panic.

Lemma trace_held_app h1 h2 : held (h1 ++ h2) = foldl hold (held h1) h2.
Proof. unfold held. by rewrite foldl_app. Qed.

(** Enough fuel: the count grows and stays below its limit. *)
Lemma query_loop_total fuel count h :
  (Z.to_nat (1024 - count) < fuel)%nat -> exists r h', query_loop etw fuel count h = (Some r, h') /\ r <> Panic.
Proof.
  revert count h. induction fuel as [| fuel IH]; intros count h Hf; [lia |]. simpl.
  destruct (e_query etw count h) as [[status needed] rows]. destruct (_ && _) eqn:E.
  - b2p. apply IH. lia.
  - unfold check. destruct (status =? 0); eauto.
Qed.

Lemma query_loop_held fuel count h : held (snd (query_loop etw fuel count h)) = held h.
Proof.
  revert count h. induction fuel as [| fuel IH]; intros count h; simpl; [done |].
  destruct (e_query etw count h) as [[status needed] rows]. destruct (_ && _).
  - rewrite IH, trace_held_app. done.
  - destruct (check status); simpl; by rewrite trace_held_app.
Qed.

Lemma reclaim_loop_held l n h : held (snd (reclaim_loop etw l n h)) = held h.
Proof.
  revert n h. induction l as [| s l IH]; intros n h; simpl; [done |]. destruct (trace_owner _); [| by rewrite IH].
  destruct (absent _); [| by rewrite IH, trace_held_app]. destruct (check _); simpl; rewrite ?IH, !trace_held_app; done.
Qed.

Lemma reclaim_held h : held (snd (reclaim_orphaned_traces etw h)) = held h.
Proof.
  unfold reclaim_orphaned_traces. pose proof (query_loop_held query_fuel 64 h) as Hq.
  destruct (query_loop etw query_fuel 64 h) as [[[] |] h1]; simpl in *; try done. by rewrite reclaim_loop_held.
Qed.

(** Dropping releases what the trace holds. *)
Lemma drop_trace_held t h l : held h = resources t ++ l -> held (drop_trace t h) = l.
Proof.
  intros H. unfold drop_trace. rewrite trace_held_app, H. destruct t as [c r m k]. unfold resources. simpl.
  destruct k, r as [r |], (m =? 0); simpl; repeat (rewrite ?decide_True by done; simpl); done.
Qed.

Lemma or_drop_cases {A} r t h (k : Calls -> res IoError A * Calls) (P : res IoError A * Calls -> Prop) :
  r <> Panic -> (forall e, P (Err e, drop_trace t h)) -> (r = Ok tt -> P (k h)) -> P (or_drop r t h k).
Proof. intros Hr He Hk. unfold or_drop. destruct r as [[] | |]; [by apply Hk | apply He | done]. Qed.

Lemma check_safe status op : check_start status op <> Panic /\ check_enable status op <> Panic.
Proof. unfold check_enable, check_start, check. destruct (status =? 0), (status =? ERROR_TIMEOUT); done. Qed.

(** What an attempt leaves: nothing if it failed, exactly the trace's resources
    if it succeeded. *)
Definition leaves (l : list Resource) (r : res IoError Trace * Calls) : Prop :=
  match fst r with
  | Ok t => reader t <> None /\ consumer t = true /\ marker t <> 0 /\ held (snd r) = resources t ++ l
  | Err _ => held (snd r) = l
  | Panic => False
  end.

Lemma leaves_drop t h l e : held h = resources t ++ l -> leaves l (Err e, drop_trace t h).
Proof. intros H. by apply drop_trace_held. Qed.

Lemma start_leaves p m h : leaves (held h) (start etw p m h).
Proof.
  unfold start. pose proof (reclaim_held h) as Hr. set (h1 := snd (reclaim_orphaned_traces etw h)) in *.
  set (name := trace_name p m). destruct (e_start etw name h1) as [status ctl].
  unfold check_start at 1, check. destruct (status =? 0) eqn:E0; simpl.
  2:{ unfold leaves. simpl. rewrite trace_held_app, Hr. simpl. by rewrite E0. }
  set (h2 := h1 ++ _). assert (H2 : held h2 = RSession ctl :: held h).
  { unfold h2. rewrite trace_held_app, Hr. simpl. by rewrite E0. }
  apply or_drop_cases; [apply check_safe | intros e; apply leaves_drop; by rewrite trace_held_app | intros _].
  set (h3 := h2 ++ _). assert (H3 : held h3 = RSession ctl :: held h) by (unfold h3; by rewrite trace_held_app).
  pose proof (register_law h3) as Hl. destruct (e_register etw h3) as [st hd]. simpl in Hl.
  set (t := mkTrace ctl None hd false). assert (H4 : held (h3 ++ [Register st hd]) = resources t ++ held h).
  { rewrite trace_held_app, H3. unfold resources. simpl. destruct (st =? 0) eqn:Es, (hd =? 0) eqn:Eh; b2p; try done;
      exfalso; subst; tauto. }
  apply or_drop_cases; [apply check_safe | intros e; by apply leaves_drop | intros Hst].
  assert (Hd : hd <> 0). { apply Hl. unfold check_start, check in Hst. destruct (st =? 0) eqn:Es; [by b2p | done]. }
  set (h4 := h3 ++ _) in *. apply or_drop_cases; [apply check_safe | intros e; apply leaves_drop; by rewrite trace_held_app | intros _].
  set (h5 := h4 ++ _). assert (H5 : held h5 = resources t ++ held h) by (unfold h5; by rewrite trace_held_app).
  destruct (e_open etw name h5) as [r |]; [| apply leaves_drop; by rewrite trace_held_app].
  set (h6 := h5 ++ _). assert (H6 : held h6 = RReader r :: resources t ++ held h) by (unfold h6; by rewrite trace_held_app, H5).
  destruct (e_spawn etw h6) as [[] | e |] eqn:Ep; [| | by apply spawn_law in Ep]; unfold or_drop.
  - unfold leaves. cbn [fst snd]. split_and!; [done | done | done |]. rewrite trace_held_app, H6. unfold resources, t. simpl.
    by destruct (hd =? 0).
  - apply leaves_drop. rewrite trace_held_app, H6. done.
Qed.

Lemma start_trace_leaves p m h : leaves (held h) (start_trace etw p m h).
Proof.
  unfold start_trace. pose proof (start_leaves p m h) as H. destruct (start etw p m h) as [[t | e |] h1]; [| done | done].
  apply or_drop_cases; [done | intros e; apply leaves_drop; apply H | intros _; exact H].
Qed.

(** Nothing of the event trace leaks: whatever the system answers, every failed
    start, also one whose first wait fails, has closed what it had opened, after
    any number of retries; a trace that started holds its session, reader,
    registration and consumer, and dropping it releases them. *)
Theorem dns_trace_released p m retries h :
  match start_recovering etw p m retries h with
  | (Some t, h1) =>
      reader t <> None /\ consumer t = true /\ marker t <> 0 /\
      held h1 = resources t ++ held h /\ held (drop_trace t h1) = held h
  | (None, h1) => held h1 = held h
  end.
Proof.
  revert m h. induction retries as [| n IH]; intros m h; simpl; pose proof (start_trace_leaves p m h) as H;
    destruct (start_trace etw p m h) as [[t | e |] h1]; unfold leaves in H; simpl in H; try done.
  - destruct H as (? & ? & ? & ?). split_and!; try done. by apply drop_trace_held.
  - destruct H as (? & ? & ? & ?). split_and!; try done. by apply drop_trace_held.
  - rewrite <- H. apply IH.
Qed.
End proofs.

(** ** Reclaiming *)

Section reclaim.
Variable etw : Etw.

(** Every stop is preceded by the proof that the owner is gone. *)
Definition justified (entries : list Session) (es : Calls) : Prop :=
  forall l1 s status l2, es = l1 ++ StopOrphan s status :: l2 ->
    s ∈ entries /\ exists p a l0, l1 = l0 ++ [OpenProcess p a] /\ trace_owner (s_name s) = Some p /\ absent a = true.

Definition stops (es : Calls) : list Session := omap (fun c => match c with StopOrphan s _ => Some s | _ => None end) es.

Lemma justified_cons entries s es : justified entries es -> justified (s :: entries) es.
Proof. intros H l1 x st l2 E. destruct (H l1 x st l2 E) as [? ?]. split; [by apply elem_of_cons; right | done]. Qed.

(** Putting calls without stops, or one justified stop, in front. *)
Lemma justified_open entries p a es : justified entries es -> justified entries (OpenProcess p a :: es).
Proof.
  intros H l1 x st l2 E. destruct l1 as [| y l1]; [done |]. injection E as <- E.
  destruct (H l1 x st l2 E) as [? (p' & a' & l0 & -> & ?)]. split; [done |]. by exists p', a', (OpenProcess p a :: l0).
Qed.

Lemma justified_stop entries s p a st es :
  trace_owner (s_name s) = Some p -> absent a = true -> justified entries es ->
  justified (s :: entries) (OpenProcess p a :: StopOrphan s st :: es).
Proof.
  intros Ho Ha H l1 x st' l2 E. destruct l1 as [| y [| z l1]]; [done | |].
  - injection E as <- <- <- <-. split; [apply elem_of_cons; by left |]. by exists p, a, [].
  - injection E as <- <- E. destruct (H l1 x st' l2 E) as [? (p' & a' & l0 & -> & ?)].
    split; [by apply elem_of_cons; right |]. by exists p', a', (OpenProcess p a :: StopOrphan s st :: l0).
Qed.

Lemma reclaim_loop_spec entries n h :
  exists es, snd (reclaim_loop etw entries n h) = h ++ es /\ justified entries es /\
    match fst (reclaim_loop etw entries n h) with
    | Ok k => k = n + len (stops es)
    | Err _ => True
    | Panic => False
    end.
Proof.
  revert n h. induction entries as [| s entries IH]; intros n h; simpl.
  - exists []. rewrite app_nil_r. split; [done |]. split; [by intros [] ? ? ? ? | unfold len; simpl; lia].
  - destruct (trace_owner (s_name s)) as [p |] eqn:Eo.
    2:{ destruct (IH n h) as (es & E & Hj & Hr). exists es. eauto using justified_cons. }
    set (a := e_process etw p h). destruct (absent a) eqn:Ea.
    + unfold check. set (st := e_stop etw s (h ++ [OpenProcess p a])).
      destruct (st =? 0) eqn:Es.
      * destruct (IH (n + 1) ((h ++ [OpenProcess p a]) ++ [StopOrphan s st])) as (es & E & Hj & Hr).
        exists (OpenProcess p a :: StopOrphan s st :: es). split; [by rewrite E, <- !(assoc_L app) |].
        split; [by apply justified_stop |]. destruct (fst _); try done.
        change (stops (_ :: _ :: es)) with (s :: stops es). rewrite len_cons. lia.
      * exists [OpenProcess p a; StopOrphan s st]. rewrite <- (assoc_L app). split; [done |]. split; [| done].
        apply justified_stop; [done | done |]. by intros [] ? ? ? ?.
    + destruct (IH n (h ++ [OpenProcess p a])) as (es & E & Hj & Hr).
      exists (OpenProcess p a :: es). split; [by rewrite E, <- (assoc_L app) |].
      split; [by apply justified_cons, justified_open | done].
Qed.

(** The sessions an enumeration reported. *)
Lemma query_loop_adds fuel count h :
  exists n, snd (query_loop etw fuel count h) = h ++ n /\ stops n = [] /\ (forall c, c ∈ n -> exists k, c = QueryAllTraces k).
Proof.
  revert count h. induction fuel as [| fuel IH]; intros count h; simpl.
  - exists []. rewrite app_nil_r. split_and!; try done. by intros c ?%not_elem_of_nil.
  - destruct (e_query etw count h) as [[status needed] rows]. destruct (_ && _).
    + destruct (IH needed (h ++ [QueryAllTraces count])) as (n & -> & Hs & Hq). exists (QueryAllTraces count :: n).
      rewrite <- (assoc_L app). split_and!; try done. intros c Hc. apply elem_of_cons in Hc as [-> | Hc]; eauto.
    + exists [QueryAllTraces count]. destruct (check status); simpl; split_and!; try done;
        intros c Hc%list_elem_of_singleton; eauto.
Qed.

(** Cleaning up after crashes ends and is safe: the enumeration terminates with
    buffers of at most 1024 sessions, a session is stopped only if its name is
    one this program gives and its owner has just been seen not to exist or to
    have exited, and the number returned is the number of sessions stopped. *)
Theorem dns_trace_reclaim h :
  exists q es, snd (reclaim_orphaned_traces etw h) = h ++ q ++ es /\ stops q = [] /\
    (forall l1 s status l2, es = l1 ++ StopOrphan s status :: l2 ->
      exists p a l0, l1 = l0 ++ [OpenProcess p a] /\ trace_owner (s_name s) = Some p /\ absent a = true) /\
    match fst (reclaim_orphaned_traces etw h) with
    | Ok n => n = len (stops es)
    | Err _ => True
    | Panic => False
    end.
Proof.
  unfold reclaim_orphaned_traces. destruct (query_loop_adds query_fuel 64 h) as (q & Eq & Hq & _).
  destruct (query_loop_total etw query_fuel 64 h) as (r & h' & E & Hr); [unfold query_fuel; lia |].
  rewrite E in *. simpl in Eq. subst h'. exists q. destruct r as [entries | e |]; [| | done].
  - destruct (reclaim_loop_spec entries 0 (h ++ q)) as (es & Es & Hj & Hn). exists es.
    rewrite Es, <- (assoc_L app). split_and!; try done. intros l1 s st l2 He. by destruct (Hj l1 s st l2 He).
  - exists []. rewrite app_nil_r. split_and!; try done. by intros [] ? ? ? ?.
Qed.
End reclaim.

(** A system that refuses the first trace and allows the second. *)
Definition example_etw : Etw := mkEtw
  (fun _ _ => (0, 1, [mkSession (trace_name 77 0) 5])) (fun _ _ => Exited) (fun _ _ => 0) (fun _ h => (0, 9))
  (fun h => if existsb (fun c => match c with EnableDns _ _ => true | _ => false end) h then ERROR_TIMEOUT else 5) (fun _ => (0, 11)) (fun _ _ => Some 12)
  (fun _ => Ok tt) (fun _ => Ok tt).

Lemma example_register h : fst (e_register example_etw h) = 0 <-> snd (e_register example_etw h) <> 0.
Proof. cbn. split; [intros _; lia | done]. Qed.

Lemma dns_trace_released_witness :
  held (snd (start_recovering example_etw 42 0 3 [])) = [RConsumer; RReader 12; RRegistration 11; RSession 9].
Proof.
  assert (Hs : forall h, e_spawn example_etw h <> Panic) by (intros h; discriminate).
  assert (Hy : forall h, e_sync example_etw h <> Panic) by (intros h; discriminate).
  pose proof (dns_trace_released example_etw example_register Hs Hy 42 0 3 []) as H. vm_compute in H.
  destruct H as (_ & _ & _ & H & _). vm_compute. exact H.
Defined.
End TraceSession.
