(* ===== verification/TraceSync.v ===== *)
(** * Waiting for the event stream (src/src/dns_routing/windows.rs)

    [Trace::synchronize] and [Trace::checkpoint] as tasks over the shared
    [State]: a question is attributed only after a checkpoint that was written
    behind it in the same stream has come back through the callback.  A step is
    what a task does between two waiting points, one system call of the blocking
    thread, or one callback; a call can be dropped wherever it waits, and its
    blocking thread then goes on by itself.  The stream hands records to the
    callback in the order in which they were written and may lose some, which
    the flush reports. *)

From S2P Require Import Prelude Net Process ProcessMatch QueryOrigins TraceSession Dns DnsExample.

Module TraceSync.
Import Process QueryOrigins.

(** ** Tasks *)

(** A call of [synchronize] at one of its waiting points.  In [Armed] the
    notification is enabled and [delivered] is not read yet; [woken] says that
    it was notified since.  [own] says that the call wrote a checkpoint. *)
Inductive Call :=
  | Queued (observed : Z)
  | Writing (sequence : Z)
  | Looping (sequence : Z)
  | Armed (sequence : Z) (woken : bool)
  | Sleeping (sequence : Z) (woken : bool)
  | Done (r : res IoError unit) (own : bool).

(** [checkpoint] on its blocking thread: before [EventWrite], before the flush. *)
Inductive Job := WriteJob (sequence : Z) | FlushJob (sequence : Z).

#[export] Instance Job_eq_dec : EqDecision Job.
Proof. solve_decision. Defined.

(** Calls carry the number of records written when they started; [history] has
    every record with whether it was lost, [handled] those of the callback. *)
Record World := mkWorld {
  state : State;
  sequence : Z;
  flush_slot : option nat;
  calls : gmap nat (Call * nat);
  jobs : list Job;
  stream : list EventRecord;
  history : list (EventRecord * bool);
  handled : list (EventRecord * Z) }.

Definition set_calls (c : gmap nat (Call * nat)) (w : World) : World :=
  mkWorld (state w) (sequence w) (flush_slot w) c (jobs w) (stream w) (history w) (handled w).

Definition set_slot (o : option nat) (w : World) : World :=
  mkWorld (state w) (sequence w) o (calls w) (jobs w) (stream w) (history w) (handled w).

Definition set_jobs (l : list Job) (w : World) : World :=
  mkWorld (state w) (sequence w) (flush_slot w) (calls w) l (stream w) (history w) (handled w).

Definition set_sequence (n : Z) (w : World) : World :=
  mkWorld (state w) n (flush_slot w) (calls w) (jobs w) (stream w) (history w) (handled w).

(** A record reaches the stream, or is lost. *)
Definition written (r : EventRecord) (lost : bool) (w : World) : World :=
  mkWorld (state w) (sequence w) (flush_slot w) (calls w) (jobs w) (stream w ++ if lost then [] else [r])
    (history w ++ [(r, lost)]) (handled w).

Definition start (marker : Z) : World := mkWorld (mkState marker ∅ 0) 0 None ∅ [] [] [] [].

(** [to_le_bytes]. *)
Fixpoint le_bytes (n : nat) (v : Z) : list Z :=
  match n with O => [] | S n' => v mod 256 :: le_bytes n' (v / 256) end.

Section sync.
Variable iter : gmap Question Origin -> list (Question * Origin).
Variable self_pid : Z.

(** The record of a checkpoint. *)
Definition checkpoint_record (marker seq : Z) : EventRecord :=
  mkEvent CHECKPOINT_PROVIDER self_pid 1 0 (Some (le_bytes 8 marker ++ le_bytes 8 seq)).

(** [notify_waiters] reaches the futures that are enabled. *)
Definition notify (c : Call * nat) : Call * nat :=
  match fst c with
  | Armed s _ => (Armed s true, snd c)
  | Sleeping s _ => (Sleeping s true, snd c)
  | _ => c
  end.

(** The callback takes the next record. *)
Definition deliver (now : Z) (w : World) : option World :=
  match stream w with
  | [] => None
  | r :: rest =>
      let '(st, notified) := event iter self_pid now r (state w) in
      Some (mkWorld st (sequence w) (flush_slot w) (if notified then notify <$> calls w else calls w) (jobs w) rest
        (history w) (handled w ++ [(r, now)]))
  end.

(** [synchronize] up to the lock. *)
Definition begin_sync (n : nat) (w : World) : option World :=
  match calls w !! n with
  | None => Some (set_calls (<[n := (Queued (sequence w), length (history w))]> (calls w)) w)
  | Some _ => None
  end.

(** The lock is taken: a later checkpoint was delivered, or a new one is
    started. *)
Definition take_slot (n : nat) (w : World) : option World :=
  match flush_slot w, calls w !! n with
  | None, Some (Queued observed, from) =>
      if observed <? delivered (state w) then Some (set_calls (<[n := (Done (Ok tt) false, from)]> (calls w)) w)
      else
        let seq := wrap64 (sequence w + 1) in
        Some (set_jobs (WriteJob seq :: jobs w) (set_slot (Some n)
          (set_sequence seq (set_calls (<[n := (Writing seq, from)]> (calls w)) w))))
  | _, _ => None
  end.

(** The blocking thread ends; its result goes to the call if it still waits. *)
Definition finish (seq : Z) (r : res IoError unit) (w : World) : World :=
  match flush_slot w with
  | Some n =>
      match calls w !! n with
      | Some (Writing s, from) =>
          if s =? seq then
            match r with
            | Ok _ => set_calls (<[n := (Looping seq, from)]> (calls w)) w
            | _ => set_slot None (set_calls (<[n := (Done r true, from)]> (calls w)) w)
            end
          else w
      | _ => w
      end
  | None => w
  end.

Definition remove_job (j : Job) (w : World) : World := set_jobs (List.filter (fun k => negb (bool_decide (k = j))) (jobs w)) w.

(** The first call of [checkpoint]. *)
Definition write_checkpoint (seq status : Z) (lost : bool) (w : World) : option World :=
  if bool_decide (WriteJob seq ∈ jobs w) then
    let w1 := remove_job (WriteJob seq) w in
    match TraceSession.check status with
    | Ok _ =>
        let w2 := written (checkpoint_record (marker_id (state w)) seq) lost w1 in
        Some (set_jobs (FlushJob seq :: jobs w2) w2)
    | e => Some (finish seq e w1)
    end
  else None.

(** The second one, with its counters of lost events. *)
Definition flush_checkpoint (seq status : Z) (w : World) : option World :=
  if bool_decide (FlushJob seq ∈ jobs w) then
    let w1 := remove_job (FlushJob seq) w in
    match TraceSession.check status with
    | Ok _ =>
        if existsb snd (history w) then Some (finish seq (Err (io_other "DNS event stream lost events")) w1)
        else Some (finish seq (Ok tt) w1)
    | e => Some (finish seq e w1)
    end
  else None.

(** The blocking thread is never run. *)
Definition abandon (seq : Z) (w : World) : option World :=
  if bool_decide (WriteJob seq ∈ jobs w)
  then Some (finish seq (Err (io_other "task was cancelled")) (remove_job (WriteJob seq) w)) else None.

(** The loop: enable the notification, read [delivered], wait. *)
Definition arm (n : nat) (w : World) : option World :=
  match calls w !! n with
  | Some (Looping s, from) => Some (set_calls (<[n := (Armed s false, from)]> (calls w)) w)
  | _ => None
  end.

Definition look (n : nat) (w : World) : option World :=
  match calls w !! n with
  | Some (Armed s woken, from) =>
      if s <=? delivered (state w) then Some (set_slot None (set_calls (<[n := (Done (Ok tt) true, from)]> (calls w)) w))
      else Some (set_calls (<[n := (Sleeping s woken, from)]> (calls w)) w)
  | _ => None
  end.

Definition wake (n : nat) (w : World) : option World :=
  match calls w !! n with
  | Some (Sleeping s true, from) => Some (set_calls (<[n := (Looping s, from)]> (calls w)) w)
  | _ => None
  end.

(** The future is dropped at a waiting point, with its guard. *)
Definition cancel (n : nat) (w : World) : option World :=
  match calls w !! n with
  | Some (Queued _, _) => Some (set_calls (delete n (calls w)) w)
  | Some (Writing _, _) | Some (Sleeping _ _, _) => Some (set_slot None (set_calls (delete n (calls w)) w))
  | _ => None
  end.

(** Records that others write: not the checkpoints of this trace. *)
Definition emit (r : EventRecord) (lost : bool) (w : World) : option World :=
  match marker_of self_pid (marker_id (state w)) r with None => Some (written r lost w) | Some _ => None end.

Inductive Label :=
  | Emit (r : EventRecord) (lost : bool) | Deliver (now : Z) | Begin (n : nat) | Take (n : nat)
  | Write_ (seq status : Z) (lost : bool) | Flush (seq status : Z) | Abandon (seq : Z)
  | Arm (n : nat) | Look (n : nat) | Wake (n : nat) | Cancel (n : nat).

Definition step (l : Label) (w : World) : option World :=
  match l with
  | Emit r lost => emit r lost w
  | Deliver now => deliver now w
  | Begin n => begin_sync n w
  | Take n => take_slot n w
  | Write_ seq status lost => write_checkpoint seq status lost w
  | Flush seq status => flush_checkpoint seq status w
  | Abandon seq => abandon seq w
  | Arm n => arm n w
  | Look n => look n w
  | Wake n => wake n w
  | Cancel n => cancel n w
  end.

Fixpoint run (ls : list Label) (w : World) : option World :=
  match ls with [] => Some w | l :: ls' => w1 ← step l w; run ls' w1 end.
End sync.

(** ** Attribution of one question *)

Section bypass.
Context `{Dns.DnsLib}.

(** [QueryOrigins::bypass].  [trace] is the trace, if it has started, with its
    table after the wait and its [healthy] flag; [before] is the list of
    bypassed processes when the question comes, [after] when it is decided;
    [synced] is the wait with its time-out; [identities] are the normalized
    names the system gives a process. *)
Definition bypass (trace : option (State * bool)) (before after : ProcessBypass) (request : list Z)
    (synced : res IoError unit) (now : Z) (identities : Z -> res IoError (list Name)) : res Error bool * option bool :=
  if negb (is_configured before) then (Ok false, snd <$> trace) else
  match trace with
  | None => (Ok false, None)
  | Some (st, healthy) =>
      match (m ← Dns.parse_data_to_dns_message request false; Dns.validate_dns_query m) with
      | Err e => (Err (EString e), Some healthy)
      | Panic => (Panic, Some healthy)
      | Ok query =>
          let q := question (as_bytes (Dns.to_ascii (Dns.q_name query))) (Dns.q_type query) in
          match synced with
          | Err _ => (Ok false, Some false)
          | Panic => (Panic, Some healthy)
          | Ok _ =>
              match state_pid q now st with
              | None => (Ok false, Some true)
              | Some p =>
                  (names ← map_err Io (identities p); Ok (ProcessMatch.matches_policy after names), Some true)
              end
          end
      end
  end.

(** [process::dns_process_names]. *)
Definition dns_process_names (process_names : Z -> list Name) (p : Z) : list Name :=
  normalize_process_name <$> process_names p.
End bypass.
End TraceSync.
