(* ===== verification/TraceSyncProofs.v ===== *)
(** * The checkpoint protocol of the event stream

    The invariant of the tasks of TraceSync under every interleaving, and the
    theorems about waiting and about the attribution of a question. *)

From S2P Require Import Prelude Net Process ProcessMatch QueryOrigins TraceSession Dns DnsExample TraceSync.

Module TraceSyncProofs.
Import Process QueryOrigins TraceSync.

(** ** Bytes of a checkpoint *)

Lemma length_le_bytes n v : length (le_bytes n v) = n.
Proof. revert v. induction n as [| n IH]; intros v; simpl; [done |]. by rewrite IH. Qed.

Lemma of_le_bytes n v : 0 <= v < 256 ^ Z.of_nat n -> of_le (le_bytes n v) = v.
Proof.
  revert v. induction n as [| n IH]; intros v; [simpl; lia |]. intros H.
  rewrite Nat2Z.inj_succ, Z.pow_succ_r in H by lia. cbn [le_bytes of_le foldr]. fold (of_le (le_bytes n (v / 256))).
  rewrite IH; [pose proof (Z.div_mod v 256); lia |]. split; [apply Z.div_pos; lia | apply Z.div_lt_upper_bound; lia].
Qed.

Lemma marker_of_checkpoint self m seq :
  0 <= m <= u64_max -> 0 <= seq <= u64_max -> marker_of self m (checkpoint_record self m seq) = Some seq.
Proof.
  unfold u64_max. intros Hm Hs. unfold marker_of, checkpoint_record. cbn [user_data provider process_id event_id].
  rewrite bool_decide_eq_true_2, Z.eqb_refl by done.
  rewrite length_app, !length_le_bytes.
  pose proof (take_app_length (le_bytes 8 m) (le_bytes 8 seq)) as T. rewrite length_le_bytes in T. rewrite T.
  pose proof (drop_app_length (le_bytes 8 m) (le_bytes 8 seq)) as D. rewrite length_le_bytes in D. rewrite D.
  rewrite !of_le_bytes by lia. by rewrite !Z.eqb_refl.
Qed.

(** ** Records of the stream *)

(** The records that were not lost. *)
Definition kept (h : list (EventRecord * bool)) : list EventRecord :=
  fst <$> List.filter (fun x => negb (snd x)) h.

Definition complete (h : list (EventRecord * bool)) : Prop := existsb snd h = false.

Lemma kept_app h1 h2 : kept (h1 ++ h2) = kept h1 ++ kept h2.
Proof. unfold kept. by rewrite List.filter_app, fmap_app. Qed.

Lemma kept_complete h : complete h -> kept h = fst <$> h.
Proof.
  unfold complete, kept. induction h as [| [r b] h IH]; simpl; [done |]. intros H. b2p. subst b. simpl. f_equal. by apply IH.
Qed.

Lemma kept_in h r : r ∈ kept h -> exists b, (r, b) ∈ h.
Proof.
  unfold kept. intros H. apply list_elem_of_fmap in H as ([r' b] & -> & H). exists b.
  apply list_elem_of_In in H. apply filter_In in H as [H _]. by apply list_elem_of_In.
Qed.

Lemma complete_prefix h n : complete h -> complete (take n h).
Proof.
  unfold complete. rewrite <- (take_drop n h) at 1. rewrite existsb_app. intros H. by b2p.
Qed.

(** What a handled record says of a caller. *)
Definition observation (x : EventRecord * Z) : option Observation :=
  let '(r, now) := x in
  match user_data r with
  | Some bytes =>
      if bool_decide (provider r = DNS_PROVIDER) then
        match origin (event_id r) (version r) (process_id r) bytes with
        | Some (q, p) => Some (q, mkOrigin p now)
        | None => None
        end
      else None
  | None => None
  end.

Definition observations (l : list (EventRecord * Z)) : list Observation := omap observation l.

Section proofs.
Variable iter : gmap Question Origin -> list (Question * Origin).
Variables self marker : Z.
Hypothesis marker_range : 0 <= marker <= u64_max.

(** ** Invariant *)

(** The checkpoints among these records have at most this number. *)
Definition marks_below (h : list (EventRecord * bool)) (top : Z) : Prop :=
  forall r b s, (r, b) ∈ h -> marker_of self marker r = Some s -> s <= top.

Definition call_ok (w : World) (n : nat) (c : Call) (from : nat) : Prop :=
  let before := take from (history w) in
  match c with
  | Queued observed => 0 <= observed /\ marks_below before observed
  | Writing s => flush_slot w = Some n /\ 0 < s /\ marks_below before (s - 1)
  | Looping s | Armed s _ => flush_slot w = Some n /\ 0 < s /\ marks_below before (s - 1) /\ complete before
  | Sleeping s woken =>
      flush_slot w = Some n /\ 0 < s /\ marks_below before (s - 1) /\ complete before /\
      (woken = false -> delivered (state w) < s)
  | Done (Ok _) own => kept before `prefix_of` (fst <$> handled w) /\ (own = true -> complete before)
  | Done _ _ => True
  end.

Definition job_seq (j : Job) : Z := match j with WriteJob s => s | FlushJob s => s end.

Record inv (k : Z) (w : World) : Prop := {
  i_marker : marker_id (state w) = marker;
  i_stream : kept (history w) = (fst <$> handled w) ++ stream w;
  i_delivered : 0 <= delivered (state w);
  i_sequence : 0 <= sequence w <= k;
  i_jobs : forall j, j ∈ jobs w -> 0 < job_seq j <= sequence w;
  i_marks : marks_below (history w) (sequence w);
  i_source : delivered (state w) = 0 \/
    exists r now, (r, now) ∈ handled w /\ marker_of self marker r = Some (delivered (state w));
  i_calls : forall n c from, calls w !! n = Some (c, from) -> (from <= length (history w))%nat /\ call_ok w n c from;
  i_top : forall r now s, (r, now) ∈ handled w -> marker_of self marker r = Some s -> s <= delivered (state w);
  i_table : queries (state w) = queries (recorded iter (observations (handled w)) (mkState marker ∅ 0)) }.

Lemma inv_start : inv 0 (start marker).
Proof.
  split; simpl; try done.
  - by intros j ?%not_elem_of_nil.
  - by intros r b s ?%not_elem_of_nil.
  - by left.
  - by intros r now s ?%not_elem_of_nil.
Qed.

(** What was written before a call is in the callback's hands once a checkpoint
    above all of it has been delivered. *)
Lemma fence k w from top :
  inv k w -> marks_below (take from (history w)) top -> 0 <= top < delivered (state w) ->
  kept (take from (history w)) `prefix_of` (fst <$> handled w).
Proof.
  intros H Hm Ht. destruct (i_source k w H) as [? | (r & now & Hr & Hs)]; [lia |].
  pose proof (i_stream k w H) as E. rewrite <- (take_drop from (history w)) in E at 1. rewrite kept_app in E.
  destruct (prefix_weak_total (kept (take from (history w))) (fst <$> handled w) (kept (history w))) as [? | [l Hl]].
  - rewrite <- (take_drop from (history w)) at 2. rewrite kept_app. by eexists.
  - rewrite (i_stream k w H). by eexists.
  - done.
  - exfalso. assert (Hin : r ∈ kept (take from (history w))).
    { rewrite Hl. apply elem_of_app. left. apply list_elem_of_fmap. by exists (r, now). }
    apply kept_in in Hin as [b Hin]. specialize (Hm r b _ Hin Hs). lia.
Qed.

(** The conditions of the other calls survive. *)
Lemma call_ok_same w w' n c from :
  flush_slot w' = flush_slot w -> delivered (state w') = delivered (state w) ->
  (exists x, history w' = history w ++ x) -> (exists y, handled w' = handled w ++ y) ->
  (from <= length (history w))%nat -> call_ok w n c from -> call_ok w' n c from.
Proof.
  intros Hs Hd [x Hh] [y Hy] Hf. unfold call_ok. rewrite Hs, Hd, Hh, Hy, take_app_le by done.
  destruct c as [| | | | | [[] | |] own]; try done. intros [Hp Ho]. split; [| done].
  rewrite fmap_app. by apply prefix_app_r.
Qed.

(** Changing the slot concerns only its holder. *)
Lemma call_ok_slot w o n c from :
  (flush_slot w = None \/ exists m, flush_slot w = Some m /\ m <> n) ->
  call_ok w n c from -> call_ok (set_slot o w) n c from.
Proof.
  intros Hs. unfold call_ok. simpl. destruct c as [| | | | | [] own]; try done;
    intros [Hn _]; exfalso; destruct Hs as [Hs | (m & Hs & ?)]; congruence.
Qed.

Lemma inv_later k k' w : k <= k' -> inv k w -> inv k' w.
Proof. intros Hk []. split; try done; lia. Qed.

Lemma inv_set_call k w n c from :
  inv k w -> (from <= length (history w))%nat -> call_ok w n c from ->
  inv k (set_calls (<[n := (c, from)]> (calls w)) w).
Proof.
  intros [] Hf Hc. split; try done. intros n' c' from' Hn. simpl in *.
  destruct (decide (n' = n)) as [-> | Hne].
  - rewrite lookup_insert_eq in Hn. by injection Hn as <- <-.
  - rewrite lookup_insert_ne in Hn by done. by apply i_calls0.
Qed.

Lemma inv_drop_call k w n : inv k w -> inv k (set_calls (delete n (calls w)) w).
Proof.
  intros []. split; try done. intros n' c' from' Hn. simpl in *.
  apply lookup_delete_Some in Hn as [_ Hn]. by apply i_calls0.
Qed.

(** The holder gives the slot back when it no longer needs it. *)
Lemma inv_release k w n :
  inv k w -> flush_slot w = Some n ->
  (forall c from, calls w !! n = Some (c, from) -> exists r own, c = Done r own) -> inv k (set_slot None w).
Proof.
  intros [] Hs Hn. split; try done. intros n' c' from' Hc. simpl in Hc. destruct (i_calls0 n' c' from' Hc) as [Hf Ho].
  split; [done |]. destruct (decide (n' = n)) as [-> | Hne].
  - destruct (Hn _ _ Hc) as (r & own & ->). exact Ho.
  - apply call_ok_slot; [right; by exists n | done].
Qed.

Lemma inv_set_jobs k w l :
  inv k w -> (forall j, j ∈ l -> 0 < job_seq j <= sequence w) -> inv k (set_jobs l w).
Proof. intros [] Hj. by split. Qed.

Lemma inv_remove_job k w j : inv k w -> inv k (remove_job j w).
Proof.
  intros H. apply inv_set_jobs; [done |]. intros j' Hj. apply list_elem_of_In, filter_In in Hj as [Hj _].
  apply (i_jobs k w H). by apply list_elem_of_In.
Qed.

Lemma marks_below_app h x top :
  marks_below h top -> (forall r b s, (r, b) ∈ x -> marker_of self marker r = Some s -> s <= top) -> marks_below (h ++ x) top.
Proof. intros H Hx r b s Hr. apply elem_of_app in Hr as [Hr | Hr]; eauto. Qed.

Lemma inv_written k w r lost :
  inv k w -> (forall s, marker_of self marker r = Some s -> s <= sequence w) -> inv k (written r lost w).
Proof.
  intros [] Hr. split; try done; simpl.
  - rewrite kept_app, i_stream0, <- (assoc_L app). f_equal. by destruct lost.
  - apply marks_below_app; [done |]. intros r' b s Hx. apply list_elem_of_singleton in Hx. injection Hx as -> ->. apply Hr.
  - intros n c from Hn. destruct (i_calls0 n c from Hn) as [Hf Ho]. rewrite length_app. split; [lia |].
    eapply call_ok_same; [.. | exact Ho]; simpl; eauto. exists []. by rewrite app_nil_r.
Qed.

(** The result of a blocking thread. *)
Lemma inv_finish k w seq r :
  inv k w -> 0 < seq -> (is_ok r = true -> complete (history w)) -> inv k (finish seq r w).
Proof.
  intros H Hq Hr. unfold finish. destruct (flush_slot w) as [n |] eqn:Es; [| done].
  destruct (calls w !! n) as [[[] from] |] eqn:Ec; try done. destruct (_ =? seq) eqn:E; [b2p; subst | done].
  destruct (i_calls k w H n _ _ Ec) as [Hf (_ & Hp & Hm)].
  assert (Hdone : forall r', is_ok r' = false ->
    inv k (set_slot None (set_calls (<[n := (Done r' true, from)]> (calls w)) w))).
  { intros r' Hn. apply (inv_release _ _ n); [apply inv_set_call; [done | done | by destruct r'] | done |].
    intros c f. simpl. rewrite lookup_insert_eq. intros [= <- <-]. eauto. }
  destruct r; [| by apply Hdone | by apply Hdone].
  apply inv_set_call; [done | done |]. split; [done |]. split; [done |]. split; [done |]. by apply complete_prefix, Hr.
Qed.

Lemma record_queries q p t s s' :
  queries s = queries s' -> queries (record iter q p t s) = queries (record iter q p t s').
Proof. intros E. unfold record. destruct (p =? 0); [done |]. simpl. by rewrite E. Qed.

(** One callback. *)
Lemma event_spec now r s s' b :
  event iter self now r s = (s', b) ->
  marker_id s' = marker_id s /\
  match marker_of self (marker_id s) r with
  | Some v => b = true /\ delivered s' = Z.max (delivered s) v /\ queries s' = queries s /\ observation (r, now) = None
  | None => b = false /\ delivered s' = delivered s /\
      queries s' = match observation (r, now) with
                   | Some x => queries (record iter (fst x) (pid (snd x)) (at_ (snd x)) s)
                   | None => queries s
                   end
  end.
Proof.
  unfold event, observation, marker_of. destruct (user_data r) as [bytes |]; [| intros [= <- <-]; done].
  destruct (bool_decide (provider r = CHECKPOINT_PROVIDER)) eqn:Ep; simpl.
  - apply bool_decide_eq_true_1 in Ep. rewrite Ep. rewrite (bool_decide_eq_false_2 (CHECKPOINT_PROVIDER = DNS_PROVIDER)) by done.
    destruct (process_id r =? self); simpl; [| intros [= <- <-]; done].
    destruct (_ && _); intros [= <- <-]; done.
  - destruct (bool_decide (provider r = DNS_PROVIDER)); [| intros [= <- <-]; done].
    destruct (origin _ _ _ _) as [[q p] |]; intros [= <- <-]; [| done]. simpl.
    unfold record. destruct (p =? 0); done.
Qed.

Lemma call_ok_notify w n c from :
  call_ok w n c from -> forall st y rest,
  call_ok (mkWorld st (sequence w) (flush_slot w) (notify <$> calls w) (jobs w) rest (history w) (handled w ++ y)) n
    (fst (notify (c, from))) from.
Proof.
  intros H st y rest. destruct c as [| | | | | [[] | |] own]; simpl in *; try done.
  - destruct H as (? & ? & ? & ? & _). done.
  - destruct H as [Hp Ho]. split; [| done]. rewrite fmap_app. by apply prefix_app_r.
Qed.

Lemma inv_deliver k w w' now : inv k w -> deliver iter self now w = Some w' -> inv k w'.
Proof.
  intros H. unfold deliver. destruct (stream w) as [| r rest] eqn:Es; [done |].
  destruct (event iter self now r (state w)) as [st b] eqn:Ev. intros [= <-].
  apply event_spec in Ev as [Hid Hs]. destruct H. rewrite i_marker0 in *.
  assert (Hkept : kept (history w) = (fst <$> handled w ++ [(r, now)]) ++ rest).
  { rewrite i_stream0, Es, fmap_app, <- (assoc_L app). done. }
  assert (Htable : forall x, queries st = match observation (r, now) with
      | Some x => queries (record iter (fst x) (pid (snd x)) (at_ (snd x)) (state w)) | None => queries (state w) end ->
    x = mkState marker ∅ 0 -> queries st = queries (recorded iter (observations (handled w ++ [(r, now)])) x)).
  { intros x Hq ->. rewrite Hq. unfold observations. rewrite omap_app. cbn [omap list_omap].
    destruct (observation (r, now)) as [[q o] |]; [| by rewrite app_nil_r].
    rewrite recorded_app. by apply record_queries. }
  destruct (marker_of self marker r) as [v |] eqn:Em; destruct Hs as (-> & Hd & Hq).
  - destruct Hq as [Hq Ho]. split; simpl; try done.
    + rewrite Hd. lia.
    + rewrite Hd. destruct (Z.max_spec (delivered (state w)) v) as [[Hlt ->] | [Hle ->]].
      * right. exists r, now. split; [apply elem_of_app; right; by apply list_elem_of_singleton | done].
      * destruct i_source0 as [? | (r' & t & Hr & ?)]; [by left |]. right. exists r', t.
        split; [apply elem_of_app; by left | done].
    + intros n c from Hn. apply lookup_fmap_Some in Hn as ([c0 f0] & Hc & Hn). destruct (i_calls0 n c0 f0 Hn) as [Hf Hok].
      pose proof (call_ok_notify w n c0 f0 Hok st [(r, now)] rest) as Hok'.
      assert (f0 = from) as -> by (unfold notify in Hc; destruct c0; simpl in Hc; congruence). split; [done |].
      by rewrite Hc in Hok'.
    + intros r' t s Hr Hs. rewrite Hd. apply elem_of_app in Hr as [Hr | Hr]; [specialize (i_top0 r' t s Hr Hs); lia |].
      apply list_elem_of_singleton in Hr. injection Hr as -> ->. rewrite Em in Hs. injection Hs as ->. lia.
    + apply Htable; [by rewrite Ho | done].
  - split; simpl; try done.
    + lia.
    + rewrite Hd. destruct i_source0 as [? | (r' & t & Hr & ?)]; [by left |]. right. exists r', t.
      split; [apply elem_of_app; by left | done].
    + intros n c from Hn. destruct (i_calls0 n c from Hn) as [Hf Hok]. split; [done |].
      eapply call_ok_same; [.. | exact Hok]; simpl; eauto. exists []. by rewrite app_nil_r.
    + intros r' t s Hr Hs. rewrite Hd. apply elem_of_app in Hr as [Hr | Hr]; [by apply (i_top0 r' t) |].
      apply list_elem_of_singleton in Hr. injection Hr as -> ->. congruence.
    + by apply Htable.
Qed.

Lemma marks_below_take h n top : marks_below h top -> marks_below (take n h) top.
Proof. intros H r b s Hr. apply (H r b s). rewrite <- (take_drop n h). apply elem_of_app. by left. Qed.

Lemma inv_begin k w w' n : inv k w -> begin_sync n w = Some w' -> inv k w'.
Proof.
  intros H. unfold begin_sync. destruct (calls w !! n); [done |]. intros [= <-].
  apply inv_set_call; [done | done |]. split; [apply (i_sequence k w H) |]. by apply marks_below_take, i_marks with k.
Qed.

Lemma inv_take k w w' n : inv k w -> k < u64_max -> take_slot n w = Some w' -> inv (k + 1) w'.
Proof.
  intros H Hk. unfold take_slot. destruct (flush_slot w) eqn:Es; [done |].
  destruct (calls w !! n) as [[[observed | | | | |] from] |] eqn:Ec; try done.
  destruct (i_calls k w H n _ _ Ec) as [Hf [Ho Hm]]. destruct (_ <? _) eqn:E; intros [= <-]; b2p.
  - apply (inv_later k); [lia |]. apply inv_set_call; [done | done |].
    split; [| done]. by apply (fence k w from observed).
  - destruct H. assert (Hw : wrap64 (sequence w + 1) = sequence w + 1).
    { unfold wrap64. apply Z.mod_small. unfold u64_max in Hk. lia. }
    rewrite Hw. split; simpl; try done.
    + lia.
    + intros j Hj. apply elem_of_cons in Hj as [-> | Hj]; [simpl; lia |]. specialize (i_jobs0 j Hj). lia.
    + intros r b s Hr Hs. specialize (i_marks0 r b s Hr Hs). lia.
    + intros n' c' from' Hn. destruct (decide (n' = n)) as [-> | Hne].
      * rewrite lookup_insert_eq in Hn. injection Hn as <- <-. split; [done |]. simpl. split; [done |]. split; [lia |].
        apply marks_below_take. intros r b s Hr Hs. specialize (i_marks0 r b s Hr Hs). lia.
      * rewrite lookup_insert_ne in Hn by done. destruct (i_calls0 n' c' from' Hn) as [Hf' Hok]. split; [done |].
        exact (call_ok_slot w (Some n) n' c' from' (or_introl Es) Hok).
Qed.

Lemma inv_write k w w' seq status lost :
  inv k w -> k <= u64_max -> write_checkpoint self seq status lost w = Some w' -> inv k w'.
Proof.
  intros H Hk. unfold write_checkpoint. destruct (bool_decide _) eqn:Ej; [b2p | done].
  pose proof (i_jobs k w H _ Ej) as Hseq. simpl in Hseq. pose proof (i_sequence k w H). unfold TraceSession.check.
  destruct (status =? 0); intros [= <-].
  - apply inv_set_jobs.
    + apply inv_written; [by apply inv_remove_job |]. rewrite (i_marker k w H).
      intros s. rewrite marker_of_checkpoint; [| done | lia]. intros [= <-]. simpl. lia.
    + intros j Hj. simpl in *. apply elem_of_cons in Hj as [-> | Hj]; [done |].
      by apply (i_jobs k _ (inv_remove_job k w (WriteJob seq) H)).
  - apply inv_finish; [by apply inv_remove_job | lia | done].
Qed.

Lemma inv_flush k w w' seq status : inv k w -> flush_checkpoint seq status w = Some w' -> inv k w'.
Proof.
  intros H. unfold flush_checkpoint. destruct (bool_decide _) eqn:Ej; [b2p | done].
  pose proof (i_jobs k w H _ Ej) as Hseq. simpl in Hseq. unfold TraceSession.check.
  destruct (status =? 0); [destruct (existsb snd (history w)) eqn:El |]; intros [= <-];
    (apply inv_finish; [by apply inv_remove_job | lia | done]).
Qed.

Lemma inv_abandon k w w' seq : inv k w -> abandon seq w = Some w' -> inv k w'.
Proof.
  intros H. unfold abandon. destruct (bool_decide _) eqn:Ej; [b2p | done].
  pose proof (i_jobs k w H _ Ej) as Hseq. simpl in Hseq. intros [= <-].
  apply inv_finish; [by apply inv_remove_job | lia | done].
Qed.

Lemma inv_look k w w' n : inv k w -> look n w = Some w' -> inv k w'.
Proof.
  intros H. unfold look. destruct (calls w !! n) as [[[| | | s woken | |] from] |] eqn:Ec; try done.
  destruct (i_calls k w H n _ _ Ec) as [Hf (Hs & Hp & Hm & Hl)]. destruct (_ <=? _) eqn:E; intros [= <-]; b2p.
  - apply (inv_release _ _ n); [apply inv_set_call; [done | done |] | done |].
    + split; [| done]. apply (fence k w from (s - 1)); [done | done | lia].
    + intros c f. simpl. rewrite lookup_insert_eq. intros [= <- <-]. eauto.
  - apply inv_set_call; [done | done |]. split_and!; done.
Qed.

Lemma inv_cancel k w w' n : inv k w -> cancel n w = Some w' -> inv k w'.
Proof.
  intros H. unfold cancel. destruct (calls w !! n) as [[[] from] |] eqn:Ec; try done; intros [= <-];
    [by apply inv_drop_call | |];
    (apply (inv_release _ _ n);
      [by apply inv_drop_call | apply (i_calls k w H n _ _ Ec) | intros c f; simpl; by rewrite lookup_delete_eq]).
Qed.

Lemma inv_step k w w' l : inv k w -> k < u64_max -> step iter self l w = Some w' -> inv (k + 1) w'.
Proof.
  intros H Hk Hs. destruct l; simpl in Hs; [| | | by apply (inv_take k w w' n) | ..]; apply (inv_later k); try lia.
  - unfold emit in Hs. destruct (marker_of _ _ _) eqn:Em; [done |]. injection Hs as <-.
    apply inv_written; [done |]. intros s. by rewrite <- (i_marker k w H), Em.
  - by apply (inv_deliver k w w' now).
  - by apply (inv_begin k w w' n).
  - apply (inv_write k w w' seq status lost); [done | lia | done].
  - by apply (inv_flush k w w' seq status).
  - by apply (inv_abandon k w w' seq).
  - unfold arm in Hs. destruct (calls w !! n) as [[[] from] |] eqn:Ec; try done. injection Hs as <-.
    apply inv_set_call; [done | | ]; apply (i_calls k w H n _ _ Ec).
  - by apply (inv_look k w w' n).
  - unfold wake in Hs. destruct (calls w !! n) as [[[| | | | s [] |] from] |] eqn:Ec; try done. injection Hs as <-.
    destruct (i_calls k w H n _ _ Ec) as [Hf (? & ? & ? & ? & _)]. by apply inv_set_call.
  - by apply (inv_cancel k w w' n).
Qed.

Lemma inv_run ls k w w' : inv k w -> k + len ls <= u64_max -> run iter self ls w = Some w' -> inv (k + len ls) w'.
Proof.
  revert k w. induction ls as [| l ls IH]; intros k w H Hk Hr; simpl in Hr.
  - injection Hr as <-. eapply inv_later; [| exact H]. unfold len. simpl. lia.
  - rewrite len_cons in *. pose proof (len_nonneg ls). destruct (step iter self l w) as [w1 |] eqn:E; [| done].
    replace (k + (1 + len ls)) with ((k + 1) + len ls) by lia. apply (IH _ w1); [| lia | done].
    apply (inv_step k w w1 l); [done | lia | done].
Qed.

(** ** Theorems *)

(** Calls that hold the slot. *)
Definition active (c : Call) : bool := match c with Queued _ | Done _ _ => false | _ => true end.

Lemma active_holder k w n c from : inv k w -> calls w !! n = Some (c, from) -> active c = true -> flush_slot w = Some n.
Proof. intros H Hc Ha. destruct (i_calls k w H n c from Hc) as [_ Hok]. destruct c; try done; apply Hok. Qed.

(** C20. Under every interleaving of questions, callbacks, blocking threads and
    dropped futures: when a wait returns, every event that was written before it
    began and was not lost has gone through the callback, and none of them was
    lost if the wait used its own checkpoint; a task is never left asleep once
    its checkpoint was delivered; at most one task is in the protocol. *)
Theorem dns_checkpoint_fences ls w :
  len ls <= u64_max -> run iter self ls (start marker) = Some w ->
  (forall n from own, calls w !! n = Some (Done (Ok tt) own, from) ->
    kept (take from (history w)) `prefix_of` (fst <$> handled w) /\
    (own = true -> (fst <$> take from (history w)) `prefix_of` (fst <$> handled w))) /\
  (forall n s from, calls w !! n = Some (Sleeping s false, from) ->
    forall r now, (r, now) ∈ handled w -> marker_of self marker r <> Some s) /\
  (forall n m c d fn fm, calls w !! n = Some (c, fn) -> calls w !! m = Some (d, fm) ->
    active c = true -> active d = true -> n = m).
Proof.
  intros Hl Hr. pose proof (inv_run ls 0 (start marker) w inv_start Hl Hr) as H. split_and!.
  - intros n from own Hc. destruct (i_calls _ _ H n _ _ Hc) as [_ [Hp Ho]]. split; [done |].
    intros Hown. rewrite <- kept_complete by auto. done.
  - intros n s from Hc r now Hin Hm. destruct (i_calls _ _ H n _ _ Hc) as [_ (_ & _ & _ & _ & Hd)].
    specialize (Hd eq_refl). pose proof (i_top _ _ H r now s Hin Hm). lia.
  - intros n m c d fn fm Hn Hm Hc Hd. pose proof (active_holder _ _ _ _ _ H Hn Hc).
    pose proof (active_holder _ _ _ _ _ H Hm Hd). congruence.
Qed.

(** A question is bypassed only for its caller: behind a wait that returned, the
    decision is positive only if the most recent event for this question that
    went through the callback, not older than thirty seconds, names a process
    whose names match the list in effect; the events considered include all that
    were written before the wait began and were not lost. *)
Theorem dns_bypass_attributed `{Dns.DnsLib} ls w n own from healthy before after request now identities :
  len ls <= u64_max -> run iter self ls (start marker) = Some w ->
  calls w !! n = Some (Done (Ok tt) own, from) ->
  fst (bypass (Some (state w, healthy)) before after request (Ok tt) now identities) = Ok true ->
  is_configured before = true /\
  exists message query p t found,
    Dns.parse_data_to_dns_message request false = Ok message /\ Dns.validate_dns_query message = Ok query /\
    callers (observations (handled w)) !! question (as_bytes (Dns.to_ascii (Dns.q_name query))) (Dns.q_type query) =
      Some (mkOrigin p t) /\
    Z.max 0 (now - t) < ORIGIN_TTL /\
    identities p = Ok found /\ ProcessMatch.matches_policy after found = true /\
    kept (take from (history w)) `prefix_of` (fst <$> handled w).
Proof.
  intros Hl Hr Hc. pose proof (inv_run ls 0 (start marker) w inv_start Hl Hr) as Hi.
  unfold bypass. destruct (is_configured before); [| done]. cbn [negb].
  destruct (Dns.parse_data_to_dns_message request false) as [m | e |]; [| done | done]. cbn [mbind res_bind].
  destruct (Dns.validate_dns_query m) as [query | e |] eqn:Ev; [| done | done].
  set (q := question _ _). unfold state_pid. destruct (queries (state w) !! q) as [[p t] |] eqn:Eq; [| done].
  destruct (live now _) eqn:El; [| done]. cbn [pid].
  destruct (identities p) as [found | e |] eqn:Ei; [| done | done]. cbn. intros [= Hm]. split; [done |].
  exists m, query, p, t, found. unfold live in El. b2p. split_and!; try done.
  - eapply lookup_weaken; [exact Eq |]. rewrite (i_table _ _ Hi). by apply recorded_sub.
  - by destruct (i_calls _ _ Hi n _ _ Hc) as [_ [Hp _]].
Qed.
End proofs.

(** ** An attributed question *)

Definition example_event : EventRecord :=
  mkEvent DNS_PROVIDER 4 3010 1 (Some (service_payload (as_bytes "Example.org.") 1 (as_bytes "10.0.0.1") 42)).

(** The event, a wait with its own checkpoint, and the callbacks. *)
Definition example_labels : list Label :=
  [Emit example_event false; Begin 0; Take 0; Write_ 1 0 false; Flush 1 0; Arm 0; Look 0; Deliver 5; Deliver 6;
   Wake 0; Arm 0; Look 0].

Definition example_world : World := default (start 3) (run map_to_list 7 example_labels (start 3)).

Lemma attributed_run : run map_to_list 7 example_labels (start 3) = Some example_world.
Proof. vm_compute. reflexivity. Qed.

Lemma dns_checkpoint_fences_witness :
  [example_event] `prefix_of` (fst <$> handled example_world).
Proof.
  refine (proj2 (proj1 (dns_checkpoint_fences map_to_list 7 3 _ example_labels example_world _ attributed_run) 0%nat 1%nat true _) eq_refl).
  - split; discriminate.
  - discriminate.
  - vm_compute. reflexivity.
Defined.

Section example.
Import DnsExample.

Definition example_rules : ProcessBypass := Process.new [as_bytes "Game.exe"].

Definition example_names (p : Z) : res IoError (list Name) := Ok (dns_process_names (fun _ => [as_bytes "GAME.EXE"]) p).

Lemma dns_bypass_attributed_witness :
  is_configured example_rules = true.
Proof.
  refine (proj1 (dns_bypass_attributed map_to_list 7 3 _ example_labels example_world 0 true 1 true example_rules example_rules
    (query_bytes 9 "example.org." 1) 10 example_names _ attributed_run _ _)).
  - split; discriminate.
  - discriminate.
  - vm_compute. reflexivity.
  - vm_compute. reflexivity.
Defined.
End example.

(** A loss that a shared checkpoint hides: the first wait is told that events
    were lost, the second one, which shares its checkpoint, succeeds although
    the event written before it never arrives. *)
Example shared_checkpoint_hides_loss :
  match run map_to_list 7
    [Begin 0; Emit example_event true; Begin 1; Take 0; Write_ 1 0 false; Flush 1 0; Deliver 5; Take 1] (start 3) with
  | Some w =>
      calls w !! 0%nat = Some (Done (Err (io_other "DNS event stream lost events")) true, 0%nat) /\
      calls w !! 1%nat = Some (Done (Ok tt) false, 1%nat) /\
      take 1 (history w) = [(example_event, true)] /\ observations (handled w) = []
  | None => False
  end.
Proof. vm_compute. split_and!; reflexivity. Qed.
End TraceSyncProofs.
