(* ===== verification/SocketTransfer.v ===== *)
(** * Sockets from another process (src/src/socket_transfer.rs)

    A process without network access asks a broker for sockets over a datagram
    socket; the broker answers with descriptors in a control message.  Both
    sides are modelled with what they do to each descriptor; the answers of the
    system about a descriptor are its fields, the codec [bincode] is a class. *)

From S2P Require Import Prelude Net ProxyHandler Streams.

Module SocketTransfer.

(** ** Data *)

Inductive SocketProtocol := TcpSockets | UdpSockets.
Inductive SocketDomain := IpV4 | IpV6.

#[export] Instance SocketProtocol_eq_dec : EqDecision SocketProtocol.
Proof. solve_decision. Defined.

#[export] Instance SocketDomain_eq_dec : EqDecision SocketDomain.
Proof. solve_decision. Defined.

(** [From<IpAddr> for SocketDomain]. *)
Definition domain_of (a : IpAddr) : SocketDomain := match a with V4 _ => IpV4 | V6 _ => IpV6 end.

Record Request := mkRequest { protocol : SocketProtocol; domain : SocketDomain; number : Z }.

(** [Response] has one value. *)
Class Bincode := {
  encode_request : Request -> res string (list Z);
  decode_request : list Z -> res string Request;
  encode_response : res string (list Z);
  decode_response : list Z -> res string unit;
}.

Definition REQUEST_BUFFER_SIZE : nat := 64.

(** What the system knows of a socket. *)
Inductive SockType := Stream | Datagram | OtherType.

#[export] Instance SockType_eq_dec : EqDecision SockType.
Proof. solve_decision. Defined.

(** A descriptor with the answers about it: its flags, setting them, its type,
    switching it to non-blocking; and its address family. *)
Record Descriptor := mkDescriptor {
  fd : Z;
  getfd : res IoError Z;
  setfd : res IoError unit;
  sock_type : res IoError SockType;
  set_nonblocking : res IoError unit;
  family : SocketDomain }.

(** What is done to a descriptor. *)
Inductive FdEvent := Cloexec (n : Z) | Inherit (n : Z) | NonBlocking (n : Z) | Close (n : Z).

#[export] Instance FdEvent_eq_dec : EqDecision FdEvent.
Proof. solve_decision. Defined.

Definition FD_CLOEXEC : Z := 1.

(** [FdFlag::from_bits] knows one flag. *)
Definition from_bits (flags : Z) : res IoError bool :=
  if flags =? 0 then Ok false else if flags =? FD_CLOEXEC then Ok true else Err (io_of_kind Unsupported).

(** ** Descriptors *)

(** [reconstruct_socket]; the owner closes the descriptor when it fails. *)
Definition reconstruct_socket (d : Descriptor) : res IoError unit * list FdEvent :=
  match (bits ← getfd d; from_bits bits) with
  | Ok true => (Ok tt, [])
  | Ok false =>
      match setfd d with
      | Ok _ => (Ok tt, [Cloexec (fd d)])
      | Err e => (Err e, [Close (fd d)])
      | Panic => (Panic, [Close (fd d)])
      end
  | Err e => (Err e, [Close (fd d)])
  | Panic => (Panic, [Close (fd d)])
  end.

(** [reconstruct_transfer_socket] and [TransferableSocket::from_fd], which check
    the type and switch to non-blocking. *)
Definition from_fd (want : SockType) (d : Descriptor) : res IoError unit * list FdEvent :=
  match sock_type d with
  | Ok t =>
      if bool_decide (t = want) then
        match set_nonblocking d with
        | Ok _ => (Ok tt, [NonBlocking (fd d)])
        | Err e => (Err e, [Close (fd d)])
        | Panic => (Panic, [Close (fd d)])
        end
      else (Err (io_of_kind InvalidInput), [Close (fd d)])
  | Err e => (Err e, [Close (fd d)])
  | Panic => (Panic, [Close (fd d)])
  end.

Definition reconstruct_transfer_socket (d : Descriptor) : res IoError unit * list FdEvent := from_fd Datagram d.

(** The type of a protocol's sockets. *)
Definition type_of (p : SocketProtocol) : SockType := match p with TcpSockets => Stream | UdpSockets => Datagram end.

(** [create_transfer_socket_pair] on the remote end: it stays open across
    [execve]. *)
Definition create_transfer_socket_pair (remote : Descriptor) : res IoError unit * list FdEvent :=
  match (bits ← getfd remote; from_bits bits) with
  | Ok _ =>
      match setfd remote with
      | Ok _ => (Ok tt, [Inherit (fd remote)])
      | Err e => (Err e, [Close (fd remote)])
      | Panic => (Panic, [Close (fd remote)])
      end
  | Err e => (Err e, [Close (fd remote)])
  | Panic => (Panic, [Close (fd remote)])
  end.

(** ** The client *)

Definition close_all (l : list Descriptor) : list FdEvent := (fun d => Close (fd d)) <$> l.

(** The loop over the descriptors of a message; an error drops the sockets taken
    so far. *)
Fixpoint adopt (p : SocketProtocol) (fds : list Descriptor) (sockets : list Descriptor)
    : res Error (list Descriptor) * list FdEvent :=
  match fds with
  | [] => (Ok sockets, [])
  | d :: rest =>
      if fd d <? 0 then (Err (EString "Received socket is invalid"), close_all sockets)
      else
        match reconstruct_socket d with
        | (Ok _, ev1) =>
            match from_fd (type_of p) d with
            | (Ok _, ev2) => let '(r, ev) := adopt p rest (sockets ++ [d]) in (r, ev1 ++ ev2 ++ ev)
            | (Err e, ev2) => (Err (Io e), ev1 ++ ev2 ++ close_all sockets)
            | (Panic, ev2) => (Panic, ev1 ++ ev2 ++ close_all sockets)
            end
        | (Err e, ev1) => (Err (Io e), ev1 ++ close_all sockets)
        | (Panic, ev1) => (Panic, ev1 ++ close_all sockets)
        end
  end.

(** An answer of [recvmsg]: nothing yet, an error, or bytes with the control
    messages, where [None] is one without descriptors. *)
Inductive Received :=
  | Again
  | Failed (e : IoError)
  | Message (bytes : list Z) (control : res IoError (list (option (list Descriptor)))).

Section transfer.
Context `{Bincode}.

Definition invalid {A} (r : res string A) : res Error A := map_err (fun e => Io (mkIo InvalidInput e)) r.

(** The descriptors of all control messages, in order. *)
Definition descriptors (control : list (option (list Descriptor))) : list Descriptor :=
  concat (default [] <$> control).

Definition on_message (p : SocketProtocol) (bytes : list Z) (control : res IoError (list (option (list Descriptor))))
    : res Error (list Descriptor) * list FdEvent :=
  match invalid (decode_response (take REQUEST_BUFFER_SIZE bytes)) with
  | Ok _ =>
      match control with
      | Ok c => adopt p (descriptors c) []
      | Err e => (Err (Io e), [])
      | Panic => (Panic, [])
      end
  | Err e => (Err e, [])
  | Panic => (Panic, [])
  end.

(** The loop that waits for the answer. *)
Fixpoint receive_sockets (p : SocketProtocol) (answers : list Received)
    : progress (res Error (list Descriptor)) * list FdEvent :=
  match answers with
  | [] => (Waiting, [])
  | Again :: rest => receive_sockets p rest
  | Failed e :: _ => (Returned (Err (Io e)), [])
  | Message bytes control :: _ => let '(r, ev) := on_message p bytes control in (Returned r, ev)
  end.

(** [request_sockets]: the request sent, the sockets, and what was done to the
    descriptors. *)
Definition request_sockets (p : SocketProtocol) (d : SocketDomain) (n : Z) (sent : res IoError unit) (answers : list Received)
    : option (list Z) * progress (res Error (list Descriptor)) * list FdEvent :=
  match invalid (encode_request (mkRequest p d n)) with
  | Ok bytes =>
      match sent with
      | Ok _ => (Some bytes, fst (receive_sockets p answers), snd (receive_sockets p answers))
      | Err e => (None, Returned (Err (Io e)), [])
      | Panic => (None, Returned Panic, [])
      end
  | Err e => (None, Returned (Err e), [])
  | Panic => (None, Returned Panic, [])
  end.

(** ** The broker *)

(** One request of [process_socket_requests]: the answer sent, with the broker's
    descriptors, which are closed behind it.  [allocate] is the system's answer
    to the calls for new sockets. *)
Definition broker_turn (allocate : SocketProtocol -> SocketDomain -> nat -> res IoError Descriptor) (ready sent : res IoError unit)
    (buf : list Z) : res Error unit * option (list Z * list Descriptor) * list FdEvent :=
  match invalid (decode_request (take REQUEST_BUFFER_SIZE buf)) with
  | Ok request =>
      match invalid encode_response with
      | Ok response =>
          let owned := omap (fun i => match allocate (protocol request) (domain request) i with Ok d => Some d | _ => None end)
                         (seq 0 (Z.to_nat (number request))) in
          match ready with
          | Ok _ =>
              match sent with
              | Ok _ => (Ok tt, Some (response, owned), close_all owned)
              | Err e => (Err (Io e), None, close_all owned)
              | Panic => (Panic, None, close_all owned)
              end
          | Err e => (Err (Io e), None, close_all owned)
          | Panic => (Panic, None, close_all owned)
          end
      | Err e => (Err e, None, [])
      | Panic => (Panic, None, [])
      end
  | Err e => (Err e, None, [])
  | Panic => (Panic, None, [])
  end.

(** [process_socket_requests]: requests until the shutdown ([None]) or an
    error. *)
Fixpoint process_socket_requests (allocate : nat -> SocketProtocol -> SocketDomain -> nat -> res IoError Descriptor)
    (turn : nat) (requests : list (option (res IoError (list Z)))) (ready sent : nat -> res IoError unit)
    : progress (res Error unit) * list (list Z * list Descriptor) :=
  match requests with
  | [] => (Waiting, [])
  | None :: _ => (Returned (Ok tt), [])
  | Some (Err e) :: _ => (Returned (Err (Io e)), [])
  | Some Panic :: _ => (Returned Panic, [])
  | Some (Ok buf) :: rest =>
      match broker_turn (allocate turn) (ready turn) (sent turn) buf with
      | (Ok _, answer, _) =>
          let '(p, l) := process_socket_requests allocate (S turn) rest ready sent in
          (p, match answer with Some m => m :: l | None => l end)
      | (Err e, _, _) => (Returned (Err e), [])
      | (Panic, _, _) => (Returned Panic, [])
      end
  end.
End transfer.

(** ** Properties *)

Definition closed (ev : list FdEvent) (d : Descriptor) : Prop := Close (fd d) ∈ ev.

(** A descriptor that is handed out: of the right type, never closed, not
    inherited, not blocking. *)
Definition adopted (p : SocketProtocol) (ev : list FdEvent) (d : Descriptor) : Prop :=
  sock_type d = Ok (type_of p) /\ NonBlocking (fd d) ∈ ev /\ (getfd d = Ok FD_CLOEXEC \/ Cloexec (fd d) ∈ ev).

Lemma reconstruct_spec d r ev :
  reconstruct_socket d = (r, ev) ->
  match r with
  | Ok _ => (getfd d = Ok FD_CLOEXEC /\ ev = []) \/ ev = [Cloexec (fd d)]
  | _ => ev = [Close (fd d)]
  end.
Proof.
  unfold reconstruct_socket, from_bits, mbind, res_bind. destruct (getfd d) as [bits | e |]; [| by intros [= <- <-] ..].
  destruct (bits =? 0); [destruct (setfd d); intros [= <- <-]; auto |].
  destruct (bits =? FD_CLOEXEC) eqn:E; intros [= <- <-]; [b2p; subst; auto | done].
Qed.

Lemma from_fd_spec want d r ev :
  from_fd want d = (r, ev) ->
  match r with Ok _ => sock_type d = Ok want /\ ev = [NonBlocking (fd d)] | _ => ev = [Close (fd d)] end.
Proof.
  unfold from_fd. destruct (sock_type d) as [t | e |]; [| by intros [= <- <-] ..].
  destruct (bool_decide (t = want)) eqn:E; [| by intros [= <- <-]]. b2p. subst.
  destruct (set_nonblocking d); by intros [= <- <-].
Qed.

Lemma closed_all l d : d ∈ l -> closed (close_all l) d.
Proof. intros H. unfold closed, close_all. apply list_elem_of_fmap. by exists d. Qed.

Definition no_close (ev : list FdEvent) : Prop := forall n, Close n ∉ ev.

Lemma no_close_app a b : no_close a -> no_close b -> no_close (a ++ b).
Proof. intros Ha Hb n Hn. apply elem_of_app in Hn as [Hn | Hn]; [by apply Ha in Hn | by apply Hb in Hn]. Qed.

(** The first bad descriptor is closed with those before it. *)
Definition refused (fds sockets : list Descriptor) (ev : list FdEvent) : Prop :=
  exists good bad rest, fds = good ++ bad :: rest /\
    Forall (closed ev) (sockets ++ good) /\ (0 <= fd bad -> closed ev bad).

Lemma refused_here d fds sockets pre :
  (0 <= fd d -> closed pre d) -> refused (d :: fds) sockets (pre ++ close_all sockets).
Proof.
  intros Hp. exists [], d, fds. split; [done |]. rewrite app_nil_r. split.
  - apply Forall_forall. intros x Hx. apply elem_of_app. right. by apply closed_all.
  - intros Hd. apply elem_of_app. left. by apply Hp.
Qed.

Lemma refused_later d fds sockets pre ev : refused fds (sockets ++ [d]) ev -> refused (d :: fds) sockets (pre ++ ev).
Proof.
  intros (good & bad & rest & -> & Hg & Hb). exists (d :: good), bad, rest. split; [done |].
  rewrite <- (assoc_L app) in Hg. split.
  - eapply Forall_impl; [exact Hg |]. intros x Hx. apply elem_of_app. by right.
  - intros Hx. apply elem_of_app. right. by apply Hb.
Qed.

(** The descriptors of one message: all are adopted and none is closed, or it is
    refused. *)
Definition adoption (p : SocketProtocol) (fds sockets : list Descriptor) (r : res Error (list Descriptor)) (ev : list FdEvent) : Prop :=
  match r with
  | Ok l => l = sockets ++ fds /\ Forall (adopted p ev) fds /\ no_close ev
  | _ => refused fds sockets ev
  end.

Lemma adopt_spec p fds sockets r ev : adopt p fds sockets = (r, ev) -> adoption p fds sockets r ev.
Proof.
  revert sockets r ev. induction fds as [| d fds IH]; intros sockets r ev; simpl.
  { intros [= <- <-]. simpl. rewrite app_nil_r. split_and!; [done | constructor | by intros n ?%not_elem_of_nil]. }
  destruct (fd d <? 0) eqn:Eneg; b2p; [intros [= <- <-]; apply (refused_here d fds sockets []); lia |].
  destruct (reconstruct_socket d) as [[[] | e |] ev1] eqn:E1; apply reconstruct_spec in E1.
  2, 3: intros [= <- <-]; apply refused_here; intros _; subst; by apply elem_of_cons; left.
  destruct (from_fd (type_of p) d) as [[[] | e |] ev2] eqn:E2; apply from_fd_spec in E2.
  2, 3: intros [= <- <-]; rewrite (assoc_L app); apply refused_here; intros _; subst ev2;
    apply elem_of_app; right; by apply elem_of_cons; left.
  destruct E2 as [Ht ->]. destruct (adopt p fds (sockets ++ [d])) as [r3 ev3] eqn:E3. intros [= <- <-].
  apply IH in E3. change (ev1 ++ _) with (ev1 ++ [NonBlocking (fd d)] ++ ev3).
  destruct r3 as [l | e |]; [| rewrite (assoc_L app); by apply refused_later ..].
  destruct E3 as (-> & Hall & Hn). rewrite <- (assoc_L app). split; [done |].
  assert (Hin : forall x, x ∈ ev3 -> x ∈ ev1 ++ NonBlocking (fd d) :: ev3).
  { intros x Hx. apply elem_of_app. right. apply elem_of_cons. by right. }
  split; [constructor |].
  - split; [done |]. split; [apply elem_of_app; right; apply elem_of_cons; by left |].
    destruct E1 as [[? _] | ->]; [by left | right]. apply elem_of_cons. by left.
  - eapply Forall_impl; [exact Hall |]. intros x (? & ? & [? | ?]); split_and!; auto.
  - apply no_close_app; [| intros n [? | ?]%elem_of_cons; [done | by apply (Hn n)]].
    destruct E1 as [[_ ->] | ->]; [by intros n ?%not_elem_of_nil | by intros n ?%list_elem_of_singleton].
Qed.

(** Descriptors the system answers well for are all adopted. *)
Definition sound (p : SocketProtocol) (d : Descriptor) : Prop :=
  0 <= fd d /\ (getfd d = Ok 0 \/ getfd d = Ok FD_CLOEXEC) /\ setfd d = Ok tt /\
  sock_type d = Ok (type_of p) /\ set_nonblocking d = Ok tt.

Lemma adopt_sound p fds sockets : Forall (sound p) fds -> fst (adopt p fds sockets) = Ok (sockets ++ fds).
Proof.
  intros H. revert sockets. induction H as [| d fds (Hf & Hg & Hs & Ht & Hn) _ IH]; intros sockets; simpl.
  { by rewrite app_nil_r. }
  rewrite (proj2 (Z.ltb_ge (fd d) 0)) by done. unfold reconstruct_socket, from_fd. rewrite Ht, Hn, bool_decide_eq_true_2 by done.
  specialize (IH (sockets ++ [d])). rewrite <- (assoc_L app) in IH.
  destruct Hg as [-> | ->]; cbn; rewrite ?Hs; destruct (adopt p fds (sockets ++ [d])); done.
Qed.

(** What the two sides rely on: requests and the response fit the buffers and
    are read back. *)
Class BincodeLaws `{Bincode} := {
  request_encodes : forall r, 0 <= number r < 2 ^ 32 -> exists bs, encode_request r = Ok bs;
  request_decodes : forall r bs, 0 <= number r < 2 ^ 32 -> encode_request r = Ok bs ->
    (length bs <= REQUEST_BUFFER_SIZE)%nat /\ decode_request bs = Ok r;
  response_encodes : exists bs, encode_response = Ok bs /\ (length bs <= REQUEST_BUFFER_SIZE)%nat /\ decode_response bs = Ok tt;
}.

Lemma omap_bound {A B} (f : A -> option B) l : (length (omap f l) <= length l)%nat.
Proof.
  induction l as [| x l IH]; [done |].
  change (omap f (x :: l)) with (match f x with Some y => y :: omap f l | None => omap f l end).
  destruct (f x); cbn [length]; lia.
Qed.

Lemma receive_again `{Bincode} p k rest : receive_sockets p (replicate k Again ++ rest) = receive_sockets p rest.
Proof. by induction k. Qed.

(** A request over the transfer socket: the broker answers it with the sockets
    it could allocate and closes its own descriptors; the client, however often
    it has to wait, gets exactly these sockets in order, each of the protocol and
    family it asked for, closed on exec and not blocking, and closes none.
    [pass] is what the system makes of a descriptor that is sent. *)
Theorem sockets_transferred `{BincodeLaws} allocate pass p d n waits :
  0 <= n < 2 ^ 32 ->
  (forall i x, allocate p d i = Ok x -> sound p (pass x) /\ family (pass x) = d) ->
  exists bytes response owned,
    broker_turn allocate (Ok tt) (Ok tt) bytes = (Ok tt, Some (response, owned), close_all owned) /\
    (length owned <= Z.to_nat n)%nat /\
    (forall i x, (i < Z.to_nat n)%nat -> allocate p d i = Ok x -> x ∈ owned) /\
    let '(sent, r, ev) :=
      request_sockets p d n (Ok tt) (replicate waits Again ++ [Message response (Ok [Some (pass <$> owned)])]) in
    sent = Some bytes /\ r = Returned (Ok (pass <$> owned)) /\ no_close ev /\
    Forall (fun x => adopted p ev x /\ family x = d) (pass <$> owned).
Proof.
  intros Hn Ha. destruct (request_encodes (mkRequest p d n) Hn) as [bytes Hb].
  destruct (request_decodes (mkRequest p d n) bytes Hn Hb) as [Hl Hd].
  destruct response_encodes as (response & Hr & Hrl & Hrd).
  set (owned := omap (fun i => match allocate p d i with Ok x => Some x | _ => None end) (seq 0 (Z.to_nat n))).
  assert (Hown : forall x, x ∈ owned <-> exists i, (i < Z.to_nat n)%nat /\ allocate p d i = Ok x).
  { intros x. unfold owned. rewrite list_elem_of_omap. split.
    - intros (i & Hi & E). apply elem_of_seq in Hi. exists i. split; [lia |]. destruct (allocate p d i); by simplify_eq.
    - intros (i & Hi & E). exists i. rewrite elem_of_seq, E. split; [lia | done]. }
  assert (Hs : Forall (fun x => sound p x /\ family x = d) (pass <$> owned)).
  { apply Forall_fmap, Forall_forall. intros x Hx. apply Hown in Hx as (i & _ & E). by apply (Ha i). }
  exists bytes, response, owned. split_and!.
  - unfold broker_turn. rewrite take_ge by done. rewrite Hd, Hr. done.
  - etrans; [apply omap_bound |]. by rewrite length_seq.
  - intros i x Hi E. apply Hown. eauto.
  - unfold request_sockets. rewrite Hb. cbn [invalid map_err]. rewrite receive_again. simpl.
    unfold on_message. rewrite take_ge, Hrd by done. cbn [invalid map_err]. unfold descriptors. simpl. rewrite app_nil_r.
    destruct (adopt p (pass <$> owned) []) as [r ev] eqn:E. simpl.
    assert (r = Ok (pass <$> owned)) as ->.
    { assert (G : Forall (sound p) (pass <$> owned)) by (eapply Forall_impl; [exact Hs |]; by intros x [? _]).
      apply (adopt_sound p _ []) in G. rewrite E in G. exact G. }
    apply adopt_spec in E as (_ & Had & Hnc). split_and!; try done.
    apply Forall_and. split; [done |]. eapply Forall_impl; [exact Hs |]. by intros x [_ ?].
Qed.

(** ** A concrete codec *)

(** Variable-length integers below 2^32, as the standard configuration writes
    them. *)
Definition varint (n : Z) : list Z :=
  if n <? 251 then [n]
  else if n <? 65536 then [251; n mod 256; n / 256]
  else [252; n mod 256; n / 256 mod 256; n / 65536 mod 256; n / 16777216].

Definition read_varint (bs : list Z) : option (Z * list Z) :=
  match bs with
  | 251 :: a :: b :: rest => Some (a + 256 * b, rest)
  | 252 :: a :: b :: c :: d :: rest => Some (a + 256 * (b + 256 * (c + 256 * d)), rest)
  | n :: rest => if n <? 251 then Some (n, rest) else None
  | [] => None
  end.

Lemma read_varint_varint n rest : 0 <= n < 2 ^ 32 -> read_varint (varint n ++ rest) = Some (n, rest).
Proof.
  intros Hn. unfold varint. destruct (n <? 251) eqn:E1; b2p.
  - assert (n <> 251 /\ n <> 252) as [H1 H2] by lia. assert (E : (n <? 251) = true) by by apply Z.ltb_lt.
    cbn [app]. unfold read_varint. rewrite E. repeat (case_match; try done; try lia).
  - destruct (n <? 65536); cbn [app read_varint]; do 2 f_equal.
    + pose proof (Z.div_mod n 256). lia.
    + replace (n / 65536) with (n / 256 / 256) by (rewrite Z.div_div by lia; f_equal; lia).
      replace (n / 16777216) with (n / 256 / 256 / 256) by (rewrite !Z.div_div by lia; f_equal; lia).
      pose proof (Z.div_mod n 256). pose proof (Z.div_mod (n / 256) 256). pose proof (Z.div_mod (n / 256 / 256) 256). lia.
Qed.

#[export] Instance standard_bincode : Bincode := {
  encode_request := fun r =>
    Ok ((if bool_decide (protocol r = TcpSockets) then 0 else 1) :: (if bool_decide (domain r = IpV4) then 0 else 1) ::
        varint (number r));
  decode_request := fun bs =>
    match bs with
    | p :: d :: rest =>
        match read_varint rest with
        | Some (n, _) => Ok (mkRequest (if p =? 0 then TcpSockets else UdpSockets) (if d =? 0 then IpV4 else IpV6) n)
        | None => Err "unexpected end"
        end
    | _ => Err "unexpected end"
    end;
  encode_response := Ok [0];
  decode_response := fun bs => match bs with 0 :: _ => Ok tt | _ => Err "unexpected variant" end;
}.

#[export] Instance standard_bincode_laws : BincodeLaws.
Proof.
  split.
  - intros r _. by eexists.
  - intros [p d n] bs Hn [= <-]. cbn [number protocol domain] in *. split.
    + unfold varint. destruct (n <? 251), (n <? 65536); simpl; unfold REQUEST_BUFFER_SIZE; lia.
    + cbn [decode_request standard_bincode]. rewrite <- (app_nil_r (varint n)), read_varint_varint by done.
      by destruct p, d.
  - exists [0]. split_and!; [done | unfold REQUEST_BUFFER_SIZE; simpl; lia | done].
Qed.

Definition example_socket (i : nat) : Descriptor :=
  mkDescriptor (Z.of_nat i) (Ok 0) (Ok tt) (Ok Stream) (Ok tt) IpV6.

Lemma sockets_transferred_witness :
  exists owned, (length owned <= 64)%nat /\ Forall (fun x => family x = IpV6) owned.
Proof.
  destruct (sockets_transferred (fun _ _ i => if (i =? 3)%nat then Err (io_other "EMFILE") else Ok (example_socket i)) (fun x => x)
    TcpSockets IpV6 64 2) as (bytes & response & owned & _ & Hl & _ & H).
  - lia.
  - intros i x E. destruct (i =? 3)%nat; [discriminate E |]. injection E as <-. repeat split; [cbn; lia | by left].
  - exists owned. split; [exact Hl |].
    destruct (request_sockets _ _ _ _ _) as [[sent r] ev]. destruct H as (_ & _ & _ & H).
    rewrite list_fmap_id in H. eapply Forall_impl; [exact H |]. intros x Hx. exact (proj2 Hx).
Defined.

(** Descriptors behind a bad one are left open: the third of this message is
    neither closed nor returned. *)
Example descriptors_left_open :
  let bad := mkDescriptor 8 (Ok 0) (Ok tt) (Ok Datagram) (Ok tt) IpV6 in
  adopt TcpSockets [example_socket 7; bad; example_socket 9] [] =
  (Err (Io (io_of_kind InvalidInput)), [Cloexec 7; NonBlocking 7; Cloexec 8; Close 8; Close 7]).
Proof. reflexivity. Qed.
End SocketTransfer.
