(* ===== verification/Outbound.v ===== *)
(** * Outgoing connections (src/src/lib.rs)

    [create_tcp_stream] and [create_udp_stream] with the three ways to the
    network: a socket pinned to the physical interface, a local socket, or one
    that another process made ([SocketQueue] and the tasks that fill it).  The
    system calls are those of Direct.v. *)

From S2P Require Import Prelude Net ProxyHandler Direct SocketTransfer.

Module Outbound.
Import Direct SocketTransfer.

(** ** The queue of transferred sockets *)

(** A channel: the sockets in it, and whether its sender is gone. *)
Record Channel := mkChannel { items : list Descriptor; hung_up : bool }.

Record SocketQueue := mkQueue {
  tcp_v4 : Channel;
  tcp_v6 : option Channel;
  udp_v4 : Channel;
  udp_v6 : option Channel }.

Definition SOCKETS_PER_REQUEST : Z := 64.

(** One turn of the task behind a channel: an answer to its request. *)
Definition fill (answer : res Error (list Descriptor)) (c : Channel) : Channel :=
  match answer with Ok l => mkChannel (items c ++ l) (hung_up c) | _ => c end.

(** [Receiver::recv]. *)
Definition recv (c : Channel) : progress (res IoError Descriptor) * Channel :=
  match items c with
  | d :: rest => (Returned (Ok d), mkChannel rest (hung_up c))
  | [] => (if hung_up c then Returned (Err (io_of_kind OtherKind)) else Waiting, c)
  end.

Definition recv_tcp (d : SocketDomain) (q : SocketQueue) : progress (res IoError Descriptor) * SocketQueue :=
  match d with
  | IpV4 => let '(r, c) := recv (tcp_v4 q) in (r, mkQueue c (tcp_v6 q) (udp_v4 q) (udp_v6 q))
  | IpV6 =>
      match tcp_v6 q with
      | None => (Returned (Err (io_of_kind Unsupported)), q)
      | Some c6 => let '(r, c) := recv c6 in (r, mkQueue (tcp_v4 q) (Some c) (udp_v4 q) (udp_v6 q))
      end
  end.

Definition recv_udp (d : SocketDomain) (q : SocketQueue) : progress (res IoError Descriptor) * SocketQueue :=
  match d with
  | IpV4 => let '(r, c) := recv (udp_v4 q) in (r, mkQueue (tcp_v4 q) (tcp_v6 q) c (udp_v6 q))
  | IpV6 =>
      match udp_v6 q with
      | None => (Returned (Err (io_of_kind Unsupported)), q)
      | Some c6 => let '(r, c) := recv c6 in (r, mkQueue (tcp_v4 q) (tcp_v6 q) (udp_v4 q) (Some c))
      end
  end.

(** ** Streams *)

Section outbound.
Context (os : Os) (answer : list Call -> Call -> Reply) (einprogress : IoError -> bool).

(** The state: the queue, if there is one, the sockets taken from it, and the
    calls made. *)
Record Net := mkNet { queue : option SocketQueue; taken : list Descriptor; calls : list Call }.

Definition Out (A : Type) : Type := Net -> progress (res IoError A) * Net.

#[export] Instance Out_ret : MRet Out := fun _ a s => (Returned (Ok a), s).

#[export] Instance Out_bind : MBind Out := fun _ _ k m s =>
  match m s with
  | (Returned (Ok a), s') => k a s'
  | (Returned (Err e), s') => (Returned (Err e), s')
  | (Returned Panic, s') => (Returned Panic, s')
  | (Waiting, s') => (Waiting, s')
  end.

(** System calls and the queue. *)
Definition sockets {A} (m : Sock A) : Out A := fun s =>
  let '(r, h) := m (calls s) in (r, mkNet (queue s) (taken s) h).

Definition take_socket (f : SocketQueue -> progress (res IoError Descriptor) * SocketQueue) (q : SocketQueue) : Out Descriptor := fun s =>
  match f q with
  | (Returned (Ok d), q') => (Returned (Ok d), mkNet (Some q') (taken s ++ [d]) (calls s))
  | (r, q') => (r, mkNet (Some q') (taken s) (calls s))
  end.

(** [TcpStream::connect] and [connect] on a transferred socket. *)
Definition connect_plain (peer : SocketAddr) : Sock unit :=
  sys answer (NewSocket (sa_is_ipv6 peer) true);; sys answer (ConnectTo peer);; mret tt.

Definition connect_transferred (peer : SocketAddr) : Sock unit := sys answer (ConnectTo peer);; mret tt.

Definition create_tcp_stream (peer : SocketAddr) (bind : option BindInterface) : Out unit := fun s =>
  match queue s, bind with
  | None, Some iface => sockets (connect_tcp_bound os answer einprogress peer iface) s
  | None, None => sockets (connect_plain peer) s
  | Some q, _ => (take_socket (recv_tcp (domain_of (sa_ip peer))) q ≫= fun _ => sockets (connect_transferred peer)) s
  end.

(** The local address of a datagram socket. *)
Definition bind_addr (peer : SocketAddr) : SocketAddr :=
  match sa_ip peer with
  | V4 a => if is_loopback (V4 a) then mkSA (ipv4 127 0 0 1) 0 else mkSA (V4 0) 0
  | V6 a => if is_loopback (V6 a) then mkSA (V6 1) 0 else mkSA (V6 0) 0
  end.

Definition udp_plain (peer : SocketAddr) : Sock unit :=
  sys answer (NewSocket (sa_is_ipv6 peer) false);; sys answer (BindTo (bind_addr peer));; sys answer (ConnectTo peer);; mret tt.

Definition create_udp_stream (peer : SocketAddr) (bind : option BindInterface) : Out unit := fun s =>
  match queue s, bind with
  | None, Some iface => sockets (bind_udp_bound os answer peer iface) s
  | None, None => sockets (udp_plain peer) s
  | Some q, _ => (take_socket (recv_udp (domain_of (sa_ip peer))) q ≫= fun _ => sockets (connect_transferred peer)) s
  end.
End outbound.

(** ** Properties *)

Definition serves (p : SocketProtocol) (d : SocketDomain) (x : Descriptor) : Prop :=
  sock_type x = Ok (type_of p) /\ family x = d.

Definition channel_ok (p : SocketProtocol) (d : SocketDomain) (c : Channel) : Prop := Forall (serves p d) (items c).

(** Each channel holds sockets of its protocol and family. *)
Record queue_ok (q : SocketQueue) : Prop := {
  q_tcp_v4 : channel_ok TcpSockets IpV4 (tcp_v4 q);
  q_tcp_v6 : forall c, tcp_v6 q = Some c -> channel_ok TcpSockets IpV6 c;
  q_udp_v4 : channel_ok UdpSockets IpV4 (udp_v4 q);
  q_udp_v6 : forall c, udp_v6 q = Some c -> channel_ok UdpSockets IpV6 c }.

(** What a request answers keeps the channel. *)
Lemma fill_ok p d answer c :
  channel_ok p d c -> (forall l, answer = Ok l -> Forall (serves p d) l) -> channel_ok p d (fill answer c).
Proof. intros Hc Ha. unfold fill. destruct answer; [| done | done]. apply Forall_app. split; [done | by apply Ha]. Qed.

Lemma recv_ok p d c r c' :
  channel_ok p d c -> recv c = (r, c') ->
  channel_ok p d c' /\ r <> Returned Panic /\
  (forall x, r = Returned (Ok x) -> serves p d x /\ items c = x :: items c').
Proof.
  unfold channel_ok, recv. intros H. destruct (items c) as [| x rest] eqn:E.
  - intros [= <- <-]. rewrite E. split; [constructor |]. destruct (hung_up c); done.
  - inversion H as [| ? ? Hx Hr]; subst. intros [= <- <-]. split; [done |]. split; [done |]. by intros y [= <-].
Qed.

(** A socket from the queue is one for the protocol and the family. *)
Definition recv_of (stream : bool) : SocketDomain -> SocketQueue -> progress (res IoError Descriptor) * SocketQueue :=
  if stream then recv_tcp else recv_udp.

Definition protocol_of (stream : bool) : SocketProtocol := if stream then TcpSockets else UdpSockets.

Lemma recv_of_ok stream d q r q' :
  queue_ok q -> recv_of stream d q = (r, q') ->
  queue_ok q' /\ r <> Returned Panic /\ (forall x, r = Returned (Ok x) -> serves (protocol_of stream) d x).
Proof.
  intros Hq. pose proof Hq as [H1 H2 H3 H4]. unfold recv_of, recv_tcp, recv_udp. destruct stream, d; cbn [protocol_of].
  - destruct (recv (tcp_v4 q)) as [r1 c] eqn:E. intros [= <- <-]. apply (recv_ok _ _ _ _ _ H1) in E as (Hc & Hp & Hx).
    split; [by split |]. split; [done |]. intros x Hr. by apply Hx.
  - destruct (tcp_v6 q) as [c6 |] eqn:E6; [| by intros [= <- <-]]. destruct (recv c6) as [r1 c] eqn:E. intros [= <- <-].
    apply (recv_ok _ _ _ _ _ (H2 _ eq_refl)) in E as (Hc & Hp & Hx). split; [split; try done; by intros ? [= <-] |].
    split; [done |]. intros x Hr. by apply Hx.
  - destruct (recv (udp_v4 q)) as [r1 c] eqn:E. intros [= <- <-]. apply (recv_ok _ _ _ _ _ H3) in E as (Hc & Hp & Hx).
    split; [by split |]. split; [done |]. intros x Hr. by apply Hx.
  - destruct (udp_v6 q) as [c6 |] eqn:E6; [| by intros [= <- <-]]. destruct (recv c6) as [r1 c] eqn:E. intros [= <- <-].
    apply (recv_ok _ _ _ _ _ (H4 _ eq_refl)) in E as (Hc & Hp & Hx). split; [split; try done; by intros ? [= <-] |].
    split; [done |]. intros x Hr. by apply Hx.
Qed.

Section proofs.
Context (os : Os) (answer : list Call -> Call -> Reply) (einprogress : IoError -> bool).

Definition create (stream : bool) (peer : SocketAddr) (bind : option BindInterface) : Out unit :=
  if stream then create_tcp_stream os answer einprogress peer bind else create_udp_stream os answer peer bind.

(** A call on a transferred socket: nothing happens before the socket is there. *)
Lemma transferred_calls stream peer q s r s' :
  queue_ok q -> (take_socket (recv_of stream (domain_of (sa_ip peer))) q ≫= fun _ => sockets (connect_transferred answer peer)) s = (r, s') ->
  (exists q', queue s' = Some q' /\ queue_ok q') /\ r <> Returned Panic /\
  ((taken s' = taken s /\ calls s' = calls s /\ r <> Returned (Ok tt)) \/
   (exists x, serves (protocol_of stream) (domain_of (sa_ip peer)) x /\
      taken s' = taken s ++ [x] /\ calls s' = calls s ++ [ConnectTo peer])).
Proof.
  intros Hq. unfold mbind at 1, Out_bind, take_socket.
  destruct (recv_of stream (domain_of (sa_ip peer)) q) as [r1 q'] eqn:E.
  apply (recv_of_ok _ _ _ _ _ Hq) in E as (Hq' & Hp & Hx).
  destruct r1 as [[x | e |] |]; [| intros [= <- <-]; split; [by eexists |]; split; [done |]; by left | done
    | intros [= <- <-]; split; [by eexists |]; split; [done |]; by left].
  unfold sockets, connect_transferred, mbind, Sock_bind, sys. cbn [calls queue taken].
  destruct (answer (calls s) (ConnectTo peer)); intros [= <- <-]; (split; [by eexists |]); (split; [done |]); right;
    exists x; (split; [by apply Hx | done]).
Qed.

(** The calls of a socket that is not pinned. *)
Definition plain_calls (stream : bool) (peer : SocketAddr) : list Call :=
  NewSocket (sa_is_ipv6 peer) stream :: (if stream then [] else [BindTo (bind_addr peer)]) ++ [ConnectTo peer].

Lemma plain_spec (stream : bool) peer h :
  exists es, snd ((if stream then connect_plain answer peer else udp_plain answer peer) h) = h ++ es /\
    es `prefix_of` plain_calls stream peer /\
    (fst ((if stream then connect_plain answer peer else udp_plain answer peer) h) = Returned (Ok tt) -> es = plain_calls stream peer).
Proof.
  unfold connect_plain, udp_plain, plain_calls. destruct stream; unfold mbind, Sock_bind, sys; simpl.
  - destruct (answer h _); simpl; [| exists [NewSocket (sa_is_ipv6 peer) true]; split_and!; try done; by eexists ..].
    exists [NewSocket (sa_is_ipv6 peer) true; ConnectTo peer].
    destruct (answer (h ++ _) _); simpl; rewrite <- (assoc_L app); split_and!; try done; by exists [].
  - destruct (answer h _); simpl; [| exists [NewSocket (sa_is_ipv6 peer) false]; split_and!; try done; by eexists ..].
    destruct (answer (h ++ _) _); simpl;
      [| exists [NewSocket (sa_is_ipv6 peer) false; BindTo (bind_addr peer)]; rewrite <- (assoc_L app); split_and!; try done; by eexists ..].
    exists (plain_calls false peer).
    destruct (answer ((h ++ _) ++ _) _); simpl; rewrite <- !(assoc_L app); split_and!; try done; by exists [].
Qed.

(** A local datagram socket is of the peer's family, and on the loopback
    interface exactly when the peer is. *)
Lemma bind_addr_spec peer :
  is_ipv6 (sa_ip (bind_addr peer)) = is_ipv6 (sa_ip peer) /\ sa_port (bind_addr peer) = 0 /\
  is_loopback (sa_ip (bind_addr peer)) = is_loopback (sa_ip peer).
Proof. unfold bind_addr. destruct (sa_ip peer) as [a | a]; destruct (is_loopback _) eqn:E; done. Qed.

(** Where a connection goes: with transferred sockets no socket is made in this
    process and nothing is called before a socket of the peer's family and
    protocol was taken from the queue, which loses exactly that one; with an
    interface and no queue every call is on a socket pinned to the interface;
    otherwise the calls are those of one local socket of the peer's family,
    bound to the loopback address exactly for a loopback peer. *)
Theorem outbound_paths stream peer bind s r s' :
  (forall q, queue s = Some q -> queue_ok q) -> calls s = [] ->
  create stream peer bind s = (r, s') ->
  r <> Returned Panic /\
  match queue s, bind with
  | Some _, _ =>
      (exists q', queue s' = Some q' /\ queue_ok q') /\
      ((taken s' = taken s /\ calls s' = [] /\ r <> Returned (Ok tt)) \/
       (exists x, serves (protocol_of stream) (domain_of (sa_ip peer)) x /\
          taken s' = taken s ++ [x] /\ calls s' = [ConnectTo peer]))
  | None, Some iface =>
      taken s' = taken s /\ pinned_history os answer iface (fun a => bool_decide (a = peer)) (calls s')
  | None, None =>
      taken s' = taken s /\ calls s' `prefix_of` plain_calls stream peer /\
      (r = Returned (Ok tt) -> calls s' = plain_calls stream peer) /\
      is_ipv6 (sa_ip (bind_addr peer)) = is_ipv6 (sa_ip peer) /\
      is_loopback (sa_ip (bind_addr peer)) = is_loopback (sa_ip peer)
  end.
Proof.
  intros Hq Hc Hr. destruct (queue s) as [q |] eqn:Eq.
  - assert (Ht : (take_socket (recv_of stream (domain_of (sa_ip peer))) q ≫=
      fun _ => sockets (connect_transferred answer peer)) s = (r, s')).
    { rewrite <- Hr. unfold create, create_tcp_stream, create_udp_stream, recv_of. destruct stream; by rewrite Eq. }
    apply transferred_calls in Ht as (Hk & Hp & Hx); [| by apply Hq]. rewrite Hc in Hx. by destruct bind.
  - destruct bind as [iface |].
    + assert (Hs : exists m, (m = connect_tcp_bound os answer einprogress peer iface \/ m = bind_udp_bound os answer peer iface) /\
        sockets m s = (r, s')).
      { unfold create, create_tcp_stream, create_udp_stream in Hr. destruct stream; rewrite Eq in Hr; eexists; eauto. }
      destruct Hs as (m & Hm & Hs). unfold sockets in Hs. rewrite Hc in Hs.
      assert (Ht : triple (at_pin os answer iface (fun a => bool_decide (a = peer)) (false, false)) m
        (fun _ => at_pin os answer iface (fun a => bool_decide (a = peer)) (sa_is_ipv6 peer, true))
        (pinned_history os answer iface (fun a => bool_decide (a = peer)))).
      { assert (bool_decide (peer = peer) = true) by by apply bool_decide_eq_true_2.
        destruct Hm as [-> | ->]; [by apply connect_tcp_bound_pinned | by apply bind_udp_bound_pinned]. }
      apply triple_nil in Ht. destruct (m []) as [p h]. injection Hs as <- <-. simpl.
      destruct p as [[[] | e |] |]; [| done | done | done]. split; [done |]. split; [done |]. by eapply at_pin_history.
    + destruct (plain_spec stream peer (calls s)) as (es & He & Hp & Ho). rewrite Hc in *.
      destruct (bind_addr_spec peer) as (? & _ & ?).
      assert (Hs : r = fst ((if stream then connect_plain answer peer else udp_plain answer peer) []) /\ calls s' = es /\ taken s' = taken s).
      { unfold create, create_tcp_stream, create_udp_stream, sockets in Hr.
        destruct stream; rewrite Eq, Hc in Hr; cbn [app] in He;
          [destruct (connect_plain answer peer []) | destruct (udp_plain answer peer [])]; injection Hr as <- <-; done. }
      destruct Hs as (Hr' & -> & ->). split; [| split_and!; try done; intros Hok; apply Ho; congruence].
      rewrite Hr'. unfold connect_plain, udp_plain, mbind, Sock_bind, sys.
      destruct stream; repeat (destruct (answer _ _); try done).
Qed.
End proofs.

Lemma outbound_paths_witness :
  let q := mkQueue (mkChannel [mkDescriptor 5 (Ok 1) (Ok tt) (Ok Stream) (Ok tt) IpV4] false) None (mkChannel [] false) None in
  let s' := snd (create Linux (fun _ _ => Direct.Done []) (fun _ => false) true (mkSA (ipv4 203 0 113 5) 1080) None (mkNet (Some q) [] [])) in
  calls s' = [ConnectTo (mkSA (ipv4 203 0 113 5) 1080)].
Proof.
  intros q s'.
  assert (Hq : forall q', Some q = Some q' -> queue_ok q').
  { intros q' E. injection E as <-. split; [| discriminate | constructor | discriminate].
    constructor; [split; reflexivity | constructor]. }
  destruct (outbound_paths Linux (fun _ _ => Direct.Done []) (fun _ => false) true (mkSA (ipv4 203 0 113 5) 1080) None
    (mkNet (Some q) [] []) (Returned (Ok tt)) s' Hq eq_refl eq_refl) as (_ & _ & [(_ & _ & H) | (x & _ & _ & H)]).
  - exfalso. apply H. reflexivity.
  - exact H.
Defined.
End Outbound.
