(* ===== verification/ProxyDns.v ===== *)
(** * Names resolved over the proxy (src/src/lib.rs)

    [resolve_domain_over_proxy]: DNS over TCP through a connection to the proxy
    for each question, so that a fake address can be replaced by a real one
    without asking the local resolver.  The results of opening a connection are
    a list: each attempt takes the next one.  The manager is an argument. *)

From S2P Require Import Prelude Net ProxyHandler Streams Dns DnsExample Direct DirectDns NoProxy.

Module ProxyDns.
Import Dns.

Section resolver.
Context `{PH : ProxyHandler H} `{DL : DnsLib} (name_from_str : string -> res string Name).
(** [mgr.new_proxy_handler(info, None, false)]. *)
Context (new_handler : SessionInfo -> res IoError H).
Context (dns_server : IpAddr).

(** The counters for sessions and queries, the outcomes of the next connection
    attempts, the addresses dialed, and the connections that were used. *)
Record World := mkWorld {
  session_id : Z;
  next_query_id : Z;
  dials : list (res IoError Server);
  dialed : list SocketAddr;
  used : list Server }.

Definition resolver : SocketAddr := mkSA dns_server 53.

Definition resolver_source : SocketAddr := mkSA (match dns_server with V4 _ => V4 0 | V6 _ => V6 0 end) 0.

(** The request and its answer on an established connection. *)
Definition exchange (request : list Z) : Task Server (list Z) :=
  n ← done_with (if len request <=? u16_max then Ok (len request)
                 else Err (Io (io_other "out of range integral type conversion attempted")));
  send_all (be16 n);;
  send_all request;;
  size ← recv_exact 2;
  recv_exact (match size with hi :: lo :: _ => Z.to_nat (of_be16 hi lo) | _ => 0%nat end).

(** The block under the time-out. *)
Definition attempt (request : list Z) (w : World) : progress (res IoError (list Z)) * World :=
  let '(info, sid) := session_info_new (session_id w) resolver_source resolver Tcp in
  match new_handler info with
  | Err e => (Returned (Err e), mkWorld sid (next_query_id w) (dials w) (dialed w) (used w))
  | Panic => (Returned Panic, mkWorld sid (next_query_id w) (dials w) (dialed w) (used w))
  | Ok h =>
      let ds := tail (dials w) in
      let w1 srv := mkWorld sid (next_query_id w) ds (dialed w ++ [get_server_addr h]) (used w ++ srv) in
      match head (dials w) with
      | None => (Waiting, w1 [])
      | Some (Err e) => (Returned (Err e), w1 [])
      | Some Panic => (Returned Panic, w1 [])
      | Some (Ok srv) =>
          let '(p, _, srv1) := handle_proxy_session h srv in
          match p with
          | Waiting => (Waiting, w1 [srv1])
          | Returned (Err e) => (Returned (Err (io_other (error_text e))), w1 [srv1])
          | Returned Panic => (Returned Panic, w1 [srv1])
          | Returned (Ok _) =>
              let '(q, srv2) := exchange request srv1 in
              (match q with Returned r => Returned (map_err io_from_error r) | Waiting => Waiting end, w1 [srv2])
          end
      end
  end.

(** [NEXT_QUERY_ID.fetch_add]. *)
Definition next_id (w : World) : Z * World :=
  (next_query_id w, mkWorld (session_id w) (wrap16 (next_query_id w + 1)) (dials w) (dialed w) (used w)).

(** What the response says. *)
Definition read_response (request_id : Z) (query : Query) (response : list Z) : res IoError AddressLookup :=
  m ← map_err io_other (from_vec response);
  _ ← map_err (mkIo InvalidData) (validate_dns_response m request_id query);
  if negb (response_code m =? NoError) then Err (io_other "proxied DNS query for `{current}` failed with {:?}")
  else map_err (mkIo NotFound) (extract_address_or_cname m query).

(** One turn of the loop over aliases. *)
Definition ask (current : string) (want_ipv6 : bool) (w : World) : res IoError AddressLookup * World :=
  match map_err (mkIo InvalidInput) (name_from_str current) with
  | Ok name =>
      let query := DirectDns.question name want_ipv6 in
      let '(request_id, w1) := next_id w in
      match map_err io_other (to_vec (DirectDns.request_message request_id query)) with
      | Ok request =>
          match attempt request w1 with
          | (Waiting, w2) => (Err (mkIo TimedOut "proxied DNS query for `{current}` timed out"), w2)
          | (Returned r, w2) => (response ← r; read_response request_id query response, w2)
          end
      | Err e => (Err e, w1)
      | Panic => (Panic, w1)
      end
  | Err e => (Err e, w)
  | Panic => (Panic, w)
  end.

Fixpoint resolve_loop (depth : nat) (current : string) (port : Z) (want_ipv6 : bool) (w : World)
    : res IoError SocketAddr * World :=
  match depth with
  | O => (Err (mkIo InvalidData "proxied DNS resolution for `{domain}` exceeded the CNAME limit"), w)
  | S depth' =>
      match ask current want_ipv6 w with
      | (Ok (Address ip), w1) => (Ok (mkSA ip port), w1)
      | (Ok (Cname name), w1) => resolve_loop depth' name port want_ipv6 w1
      | (Err e, w1) => (Err e, w1)
      | (Panic, w1) => (Panic, w1)
      end
  end.

Definition resolve_domain_over_proxy (domain : string) (port : Z) (want_ipv6 : bool) (w : World) : res IoError SocketAddr * World :=
  resolve_loop MAX_CNAME_DEPTH domain port want_ipv6 w.
End resolver.

(** ** Properties *)

Section proofs.
Context `{PT : ProxyHandlerTotal H} `{LW : DnsLibLaws} (name_from_str : string -> res string Name).
Context (new_handler : SessionInfo -> res IoError H) (dns_server : IpAddr).
Hypothesis name_total : forall s, name_from_str s <> Panic.
Hypothesis handler_total : forall i, new_handler i <> Panic.
Hypothesis handler_starts : forall i h, new_handler i = Ok h -> handler_ok h.

(** No outcome of a connection attempt is a panic of the system, and what is
    read are bytes. *)
Definition byte_reads (srv : Server) : Prop :=
  Forall (fun x => match x with Ok bs => Forall is_u8 bs | _ => True end) (reads srv).

Definition safe_dial (d : res IoError Server) : Prop :=
  match d with Ok srv => reads_safe (reads srv) /\ byte_reads srv | Err _ => True | Panic => False end.

Definition safe_dials (w : World) : Prop := Forall safe_dial (dials w).

(** A positive answer to the question [q] that was asked with identifier [i]. *)
Definition answers_question (i : Z) (q : Query) (m : Message) : Prop :=
  id m = i /\ message_type m = Response_ /\ op_code m = OpCodeQuery /\ response_code m = NoError /\
  exists a, queries m = [a] /\ names_equal (q_name a) (q_name q) = true /\ q_type a = q_type q /\ q_class a = q_class q.

(** The connection [srv], as it was opened, has become [srv2] by a handshake with
    the proxy for the resolver and an exchange: the request for [q] with
    identifier [i] was written after the handshake, the next frame that came is
    [response]. *)
Definition exchanged (i : Z) (q : Query) (srv srv2 : Server) (response : list Z) : Prop :=
  exists sid h u h' srv1 request,
    new_handler (mkInfo (resolver_source dns_server) (resolver dns_server) Tcp sid) = Ok h /\
    handle_proxy_session h srv = (Returned (Ok u), h', srv1) /\
    to_vec (DirectDns.request_message i q) = Ok request /\ written srv2 = written srv1 ++ dns_frame request /\
    received (reads srv1) = dns_frame response ++ received (reads srv2).

(** [ip] is found for [current]: by the connections [ds] in their order, which
    became [us], with consecutive identifiers from [i] on. *)
Inductive found (want : bool) : nat -> Z -> list (res IoError Server) -> list Server -> string -> IpAddr -> Prop :=
  | found_address depth i srv srv2 ds current name response m ip :
      name_from_str current = Ok name ->
      exchanged i (DirectDns.question name want) srv srv2 response -> from_vec response = Ok m ->
      answers_question i (DirectDns.question name want) m ->
      lookup_spec (answers m) want name MAX_CNAME_DEPTH false (Address ip) ->
      found want (S depth) i (Ok srv :: ds) [srv2] current ip
  | found_alias depth i srv srv2 ds us current name response m alias ip :
      name_from_str current = Ok name ->
      exchanged i (DirectDns.question name want) srv srv2 response -> from_vec response = Ok m ->
      answers_question i (DirectDns.question name want) m ->
      lookup_spec (answers m) want name MAX_CNAME_DEPTH false (Cname alias) ->
      found want depth (wrap16 (i + 1)) ds us alias ip ->
      found want (S depth) i (Ok srv :: ds) (srv2 :: us) current ip.

(** The connections a call makes go to the server of handlers for the resolver. *)
Definition to_proxy (a : SocketAddr) : Prop :=
  exists sid h, new_handler (mkInfo (resolver_source dns_server) (resolver dns_server) Tcp sid) = Ok h /\ a = get_server_addr h.

Definition dialled (k : nat) (w w' : World) : Prop :=
  exists l, dialed w' = dialed w ++ l /\ (length l <= k)%nat /\ Forall to_proxy l.

Lemma dialled_trans a b w1 w2 w3 : dialled a w1 w2 -> dialled b w2 w3 -> dialled (a + b) w1 w3.
Proof.
  intros (l1 & E1 & L1 & F1) (l2 & E2 & L2 & F2). exists (l1 ++ l2). rewrite E2, E1, <- (assoc_L app), length_app.
  split_and!; [done | lia | by apply Forall_app].
Qed.

Lemma dialled_none k w w' : dialed w' = dialed w -> dialled k w w'.
Proof. intros E. exists []. rewrite E, app_nil_r. split_and!; [done | simpl; lia | constructor]. Qed.

Lemma read_full_total n rs : reads_safe rs -> fst (read_full n rs) <> Returned Panic.
Proof.
  intros Hrs. revert n. induction Hrs as [| r rs Hr _ IH]; intros [| n]; simpl; try done.
  destruct r as [[| b bs] | e |]; try done. destruct (_ <? _)%nat; [done |].
  specialize (IH (S n - length (b :: bs))%nat). destruct (read_full _ rs) as [[[t | e |] |] rs']; done.
Qed.

Lemma read_full_keeps n rs r rs' : reads_safe rs -> read_full n rs = (r, rs') -> reads_safe rs'.
Proof.
  intros Hall. revert n r rs'. induction Hall as [| x rs Hx Hrs IH]; intros [| n] r rs'; simpl; try (by intros [= <- <-]; constructor).
  destruct x as [[| b bs] | e |]; try (by intros [= <- <-]).
  destruct (_ <? _)%nat; [intros [= <- <-]; by constructor |].
  destruct (read_full _ rs) as [p rs2] eqn:E. intros [= <- <-]. by eapply IH.
Qed.

Lemma recv_exact_safe n s p s' :
  reads_safe (reads s) -> recv_exact n s = (p, s') -> p <> Returned Panic /\ reads_safe (reads s').
Proof.
  intros Hs. unfold recv_exact, mbind, Task_bind, reading, done_with.
  pose proof (read_full_total n (reads s) Hs) as Ht. destruct (read_full n (reads s)) as [q rs] eqn:E.
  apply read_full_keeps in E; [| done]. destruct q as [[a | e |] |]; simpl in Ht; intros [= <- <-]; done.
Qed.

Lemma exchange_safe request s : reads_safe (reads s) -> fst (exchange request s) <> Returned Panic.
Proof.
  intros Hs. unfold exchange. destruct (len request <=? u16_max); [| done].
  unfold mbind, Task_bind at 1, done_with. unfold Task_bind at 1, send_all at 1, now, map_errM.
  destruct (write_all (be16 (len request)) s) as [[[] | e |] s1] eqn:E1; apply write_all_frame in E1 as (Hp1 & Hr1 & _); simpl; try done.
  unfold Task_bind at 1, send_all, now, map_errM.
  destruct (write_all request s1) as [[[] | e |] s2] eqn:E2; apply write_all_frame in E2 as (Hp2 & Hr2 & _); simpl; try done.
  unfold Task_bind. assert (Hs2 : reads_safe (reads s2)) by (by rewrite Hr2, Hr1).
  destruct (recv_exact 2 s2) as [p s3] eqn:E3. apply recv_exact_safe in E3 as [Hp3 Hs3]; [| done].
  destruct p as [[size | e |] |]; try done.
  destruct (recv_exact _ s3) as [q s4] eqn:E4. apply recv_exact_safe in E4 as [Hp4 _]; done.
Qed.

Lemma received_bytes srv : byte_reads srv -> Forall is_u8 (received (reads srv)).
Proof.
  unfold byte_reads. induction 1 as [|x rs Hx _ IH]; cbn; [constructor|].
  destruct x as [[|b bs]|e|]; try constructor; [by inversion Hx|]. apply Forall_app. split; [by inversion Hx|done].
Qed.

(** An exchange that gives a response. *)
Lemma exchange_inv request s bs s' :
  byte_reads s -> exchange request s = (Returned (Ok bs), s') ->
  written s' = written s ++ dns_frame request /\ received (reads s) = dns_frame bs ++ received (reads s').
Proof.
  intros Hb. unfold exchange. intros (n & s0 & Hn & Hk)%task_bind_ok.
  apply task_bind_ok in Hk as ([] & s1 & K1 & Hk). apply task_bind_ok in Hk as ([] & s2 & K2 & Hk).
  apply task_bind_ok in Hk as (size & s3 & K3 & K4).
  unfold done_with in Hn. injection Hn as Hn <-. destruct (len request <=? u16_max); [|done]. injection Hn as <-.
  apply send_all_inv in K1 as [R1 [[_ W1]|[? _]]]; [|done]. apply send_all_inv in K2 as [R2 [[_ W2]|[? _]]]; [|done].
  assert (Hu : Forall is_u8 (received (reads s2))) by (rewrite R2, R1; by apply received_bytes).
  destruct (reading_only_reads _ _ _ _ K3) as [W3 _]. destruct (reading_only_reads _ _ _ _ K4) as [W4 _].
  apply recv_exact_inv in K3 as [R3 L3]. apply recv_exact_inv in K4 as [R4 L4].
  destruct size as [|hi [|lo [|]]]; try done. rewrite R3, R4 in Hu. cbn [app] in Hu.
  apply Forall_cons in Hu as [? Hu]. apply Forall_cons in Hu as [? _].
  split; [by rewrite W4, W3, W2, W1, <- app_assoc|].
  rewrite <- R1, <- R2, R3, R4. unfold dns_frame. by rewrite (frame_bytes hi lo) by done.
Qed.

Lemma attempt_spec request w :
  safe_dials w ->
  fst (attempt new_handler dns_server request w) <> Returned Panic /\
  safe_dials (snd (attempt new_handler dns_server request w)) /\ dialled 1 w (snd (attempt new_handler dns_server request w)) /\
  (forall bs, fst (attempt new_handler dns_server request w) = Returned (Ok bs) ->
   let w' := snd (attempt new_handler dns_server request w) in
   exists sid h srv u h' srv1 srv2, new_handler (mkInfo (resolver_source dns_server) (resolver dns_server) Tcp sid) = Ok h /\
     dials w = Ok srv :: dials w' /\ handle_proxy_session h srv = (Returned (Ok u), h', srv1) /\
     used w' = used w ++ [srv2] /\ next_query_id w' = next_query_id w /\
     written srv2 = written srv1 ++ dns_frame request /\
     received (reads srv1) = dns_frame bs ++ received (reads srv2)).
Proof.
  intros Hs. unfold attempt, session_info_new. set (i := mkInfo _ _ _ _).
  destruct (new_handler i) as [h | e |] eqn:Eh; [| split_and!; [done | done | by apply dialled_none | done] | by destruct (handler_total i)].
  assert (Hd : forall sid q ds l, dialled 1 w (mkWorld sid q ds (dialed w ++ [get_server_addr h]) l)).
  { intros. exists [get_server_addr h]. split_and!; [done | done |]. constructor; [| constructor]. by exists (session_id w), h. }
  assert (Ht : Forall safe_dial (tail (dials w))) by (destruct Hs; [constructor | done]).
  destruct (dials w) as [| [srv | e |] ds] eqn:Ed; simpl in *; try (split_and!; [done | done | apply Hd | done]).
  - unfold safe_dials in Hs. rewrite Ed in Hs. apply Forall_cons in Hs as [[Hr Hb] Hrest].
    pose proof (handle_proxy_session_total h srv (handler_starts i h Eh) Hr) as Hn.
    pose proof (handle_proxy_session_spec h srv) as Hspec.
    destruct (handle_proxy_session h srv) as [[p h'] srv1] eqn:Ep. simpl in Hn.
    destruct (Hspec p h' srv1 (handler_starts i h Eh) eq_refl) as [_ Hp].
    destruct p as [[u | e |] |]; try (split_and!; [done | done | apply Hd | done]).
    destruct Hp as (_ & _ & _ & taken & Hreads & _).
    assert (Hr1 : reads_safe (reads srv1)) by (rewrite Hreads in Hr; by apply Forall_app in Hr as [_ ?]).
    assert (Hb1 : byte_reads srv1) by (unfold byte_reads in *; rewrite Hreads in Hb; by apply Forall_app in Hb as [_ ?]).
    pose proof (exchange_safe request srv1 Hr1) as He. destruct (exchange request srv1) as [q srv2] eqn:Ex. simpl in *.
    split_and!; [by destruct q as [[l | e |] |] | done | apply Hd |].
    intros bs Hq. destruct q as [[l | e |] |]; try done. injection Hq as ->.
    destruct (exchange_inv _ _ _ _ Hb1 Ex). by exists (session_id w), h, srv, u, h', srv1, srv2.
  - unfold safe_dials in Hs. rewrite Ed in Hs. by inversion Hs.
Qed.

Lemma validate_sound m i q :
  validate_dns_response m i q = Ok tt -> response_code m = NoError -> answers_question i q m.
Proof.
  unfold validate_dns_response, answers_question. intros Hv Hc.
  destruct (bool_decide (message_type m = Response_)) eqn:E1; [|done]. apply bool_decide_eq_true in E1.
  destruct (op_code m =? OpCodeQuery) eqn:E2; [|done]. destruct (id m =? i) eqn:E3; [|done]. cbn [negb] in Hv.
  destruct (queries m) as [|a rest]; [done|].
  destruct (bool_decide (rest = [])) eqn:E4; [|done]. apply bool_decide_eq_true in E4 as ->.
  destruct (names_equal _ _) eqn:E5; [|done]. destruct (q_type a =? _) eqn:E6; [|done]. destruct (q_class a =? _) eqn:E7; [|done].
  b2p. split_and!; try done. by exists a.
Qed.

Lemma read_response_sound i name want bs l :
  read_response i (DirectDns.question name want) bs = Ok l ->
  exists m, from_vec bs = Ok m /\ answers_question i (DirectDns.question name want) m /\
    lookup_spec (answers m) want name MAX_CNAME_DEPTH false l.
Proof.
  unfold read_response. destruct (from_vec bs) as [m | e |] eqn:Em; [| done | done]. cbn [map_err mbind res_bind].
  destruct (validate_dns_response m i _) as [[] | e |] eqn:Ev; [| done | done]. cbn [map_err mbind res_bind].
  destruct (response_code m =? NoError) eqn:Ec; [| done]. cbn [negb]. intros Hx%DirectDns.map_err_ok.
  unfold extract_address_or_cname in Hx. rewrite Ec, DirectDns.question_type in Hx. apply follow_sound in Hx.
  exists m. b2p. split_and!; [done | by apply validate_sound | done].
Qed.

Lemma answer_read_total i q bs : read_response i q bs <> Panic.
Proof.
  unfold read_response. pose proof (from_vec_total bs). destruct (from_vec bs) as [m | e |]; [| done | done].
  cbn [map_err mbind res_bind]. pose proof (DirectDns.validate_total m i q).
  destruct (validate_dns_response m i q); [| done | done]. cbn [map_err mbind res_bind].
  destruct (negb _); [done |]. apply DirectDns.map_err_total, DirectDns.extract_total.
Qed.

(** What an answered question used. *)
Definition step (current : string) (want : bool) (w w1 : World) (l : AddressLookup) : Prop :=
  exists name srv srv2 response m, name_from_str current = Ok name /\ dials w = Ok srv :: dials w1 /\
    used w1 = used w ++ [srv2] /\ next_query_id w1 = wrap16 (next_query_id w + 1) /\
    exchanged (next_query_id w) (DirectDns.question name want) srv srv2 response /\ from_vec response = Ok m /\
    answers_question (next_query_id w) (DirectDns.question name want) m /\
    lookup_spec (answers m) want name MAX_CNAME_DEPTH false l.

Lemma ask_spec current want w r w1 :
  safe_dials w -> ask name_from_str new_handler dns_server current want w = (r, w1) ->
  r <> Panic /\ safe_dials w1 /\ dialled 1 w w1 /\ (forall l, r = Ok l -> step current want w w1 l).
Proof.
  intros Hs. unfold ask. pose proof (name_total current) as Hn.
  destruct (name_from_str current) as [name | e |] eqn:En; [| intros [= <- <-] | done]; cbn [map_err].
  2:{ split_and!; [done | done | by apply dialled_none | done]. }
  set (w0 := snd (next_id w)). change (next_id w) with (next_query_id w, w0). cbn iota beta.
  pose proof (to_vec_total (DirectDns.request_message (next_query_id w) (DirectDns.question name want))) as Ht.
  destruct (to_vec _) as [request | e |] eqn:Ev; [| intros [= <- <-] | done]; cbn [map_err].
  2:{ split_and!; [done | done | by apply dialled_none | done]. }
  destruct (attempt_spec request w0 Hs) as (Hp & Hs1 & Hd & Ho).
  destruct (attempt new_handler dns_server request w0) as [[p |] w2]; cbn [fst snd] in *; intros [= <- <-];
    [| split_and!; [done | done | exact Hd | done]].
  split_and!; [| done | exact Hd |].
  - destruct p as [bs | e |]; [| done | done]. apply answer_read_total.
  - intros l Hl. destruct p as [bs | e |]; [| done | done]. apply read_response_sound in Hl as (m & Hg & Hc & Hx).
    destruct (Ho bs eq_refl) as (sid & h & srv & u & h' & srv1 & srv2 & Hh & Hdl & Hps & Hus & Hid & Hw & Hr).
    exists name, srv, srv2, bs, m. split_and!; try done. exists sid, h, u, h', srv1, request. by split_and!.
Qed.

(** C37. Resolving a name over the proxy always comes to an end, with at most eight
    connections, all of them to the server of a handler that connects to port 53
    of the resolver; it never panics.  An address it returns has the port and
    the family asked for and was found on these connections in their order: on
    each, after the handshake, one framed request was written with the next
    identifier of the counter, and the frame that came back is a positive answer
    with this identifier and exactly this question; its records lead from the
    name asked for to the address or to the alias that the next connection was
    asked for. *)
Theorem proxied_dns_sound domain port want w r w' :
  safe_dials w -> resolve_domain_over_proxy name_from_str new_handler dns_server domain port want w = (r, w') ->
  r <> Panic /\ dialled MAX_CNAME_DEPTH w w' /\
  (forall a, r = Ok a -> sa_port a = port /\ is_ipv6 (sa_ip a) = want /\
    exists us, used w' = used w ++ us /\ found want MAX_CNAME_DEPTH (next_query_id w) (dials w) us domain (sa_ip a)).
Proof.
  unfold resolve_domain_over_proxy. generalize MAX_CNAME_DEPTH at 1 2 3. intros depth. revert domain w.
  induction depth as [| depth IH]; intros current w Hs; cbn [resolve_loop].
  { intros [= <- <-]. split_and!; [done | by apply dialled_none | done]. }
  destruct (ask _ _ _ current want w) as [q w1] eqn:Ea. apply ask_spec in Ea as (Hp & Hs1 & Hd & Ho); [| done].
  assert (Hd' : forall k w2, dialled k w1 w2 -> dialled (S k) w w2) by (intros k w2 Hk; exact (dialled_trans 1 k _ _ _ Hd Hk)).
  destruct q as [[ip | alias] | e |]; [| | intros [= <- <-]; split_and!; [done | by apply Hd', dialled_none | done] | done];
    destruct (Ho _ eq_refl) as (name & srv & srv2 & response & m & Hn & Hdl & Hu & Hi & He & Hv & Hq & Hl).
  - intros [= <- <-]. split_and!; [done | by apply Hd', dialled_none |]. intros a [= <-]. cbn [sa_port sa_ip].
    split_and!; [done | by destruct Hl as (k & o & _ & _ & [? _]) |].
    exists [srv2]. split; [done|]. rewrite Hdl. by eapply found_address.
  - intros Hr. destruct (IH alias w1 Hs1 Hr) as (Hnp & Hdd & Hok). split_and!; [done | by apply Hd' |].
    intros a Ha. destruct (Hok a Ha) as (? & ? & us & Hus & Hf). split_and!; [done | done |].
    exists (srv2 :: us). split; [by rewrite Hus, Hu, <- app_assoc|]. rewrite Hdl. rewrite Hi in Hf. by eapply found_alias.
Qed.

(** An exchange on a connection that takes the request. *)
Lemma dns_exchange_ok request response rest s :
  write_results s = [] -> len request <= u16_max -> len response <= u16_max ->
  received (reads s) = dns_frame response ++ rest ->
  exists s', exchange request s = (Returned (Ok response), s') /\ written s' = written s ++ dns_frame request.
Proof.
  intros Hw Hq Hl Hr. unfold exchange. rewrite (proj2 (Z.leb_le _ _) Hq).
  unfold mbind, Task_bind at 1, done_with. unfold Task_bind at 1, send_all at 1, now, map_errM, write_all. rewrite Hw. simpl.
  unfold Task_bind at 1, send_all, now, map_errM, write_all. simpl.
  set (s2 := mkServer _ _ _ _). unfold dns_frame in Hr. rewrite <- (assoc_L app) in Hr.
  destruct (recv_exact_app (be16 (len response)) (response ++ rest) s2 Hr) as (rs3 & E3 & R3 & _). simpl length in E3.
  unfold Task_bind. rewrite E3.
  assert (Hn : Z.to_nat (of_be16 ((len response / 256) mod 256) (len response mod 256)) = length response).
  { rewrite of_be16_be16; [unfold len; lia |]. pose proof (len_nonneg response). unfold is_u16, u16_max in *. lia. }
  unfold be16. rewrite Hn. destruct (recv_exact_app response rest (next_reads rs3 s2) R3) as (rs4 & E4 & _). rewrite E4.
  eexists. split; [done |]. unfold s2, dns_frame, next_reads. simpl. by rewrite <- (assoc_L app).
Qed.

(** A name is resolved: when the handshake with the proxy succeeds and a response
    with an address for the question comes back, in whatever pieces, the address
    is returned, with one connection, on which exactly the framed question
    followed the handshake. *)
Theorem proxied_dns_resolves domain name want port w h srv ds u h' srv1 request response rest ip :
  name_from_str domain = Ok name ->
  new_handler (mkInfo (resolver_source dns_server) (resolver dns_server) Tcp (session_id w)) = Ok h ->
  dials w = Ok srv :: ds ->
  handle_proxy_session h srv = (Returned (Ok u), h', srv1) -> write_results srv1 = [] ->
  to_vec (DirectDns.request_message (next_query_id w) (DirectDns.question name want)) = Ok request ->
  len request <= u16_max -> len response <= u16_max ->
  received (reads srv1) = dns_frame response ++ rest ->
  read_response (next_query_id w) (DirectDns.question name want) response = Ok (Address ip) ->
  exists w' srv2,
    resolve_domain_over_proxy name_from_str new_handler dns_server domain port want w = (Ok (mkSA ip port), w') /\
    dialed w' = dialed w ++ [get_server_addr h] /\ used w' = used w ++ [srv2] /\
    written srv2 = written srv1 ++ dns_frame request.
Proof.
  intros Hn Hh Hd Hp Hw Hv Hq Hl Hr Ha. destruct (dns_exchange_ok request response rest srv1 Hw Hq Hl Hr) as (srv2 & Ex & Wx).
  unfold resolve_domain_over_proxy. cbn [MAX_CNAME_DEPTH resolve_loop]. unfold ask. rewrite Hn. cbn [map_err next_id].
  rewrite Hv. cbn [map_err]. unfold attempt, session_info_new. cbn [session_id dials next_query_id dialed used].
  rewrite Hh, Hd. cbn [head tail]. rewrite Hp, Ex. cbn [map_err mbind res_bind]. rewrite Ha.
  eexists _, srv2. split; [done |]. done.
Qed.
End proofs.

(** ** A concrete resolution *)

Section examples.
Import DnsExample NoProxy.

Definition example_response : list Z :=
  be16 7 ++ [128; 0] ++ replicate 8 0 ++ write_question (mkQuery "a.org" TypeA ClassIN).

(** The answer comes in two pieces. *)
Definition example_dial : Server :=
  mkServer [Ok (take 5 (dns_frame example_response)); Ok (drop 5 (dns_frame example_response))] [] [] [].

Definition example_world : World := mkWorld 1 7 [Ok example_dial] [] [].

Definition example_handler (i : SessionInfo) : res IoError NoProxyHandler := new_proxy_handler i None false.

Lemma proxied_dns_sound_witness :
  let '(r, w') := @resolve_domain_over_proxy NoProxyHandler _ _ DirectDns.answering_dns Ok example_handler (ipv4 9 9 9 9)
                    "a.org" 443 false example_world in
  r = Ok (mkSA (ipv4 1 2 3 4) 443) /\
  exists us, @found NoProxyHandler _ _ DirectDns.answering_dns Ok example_handler (ipv4 9 9 9 9) false MAX_CNAME_DEPTH 7
    [Ok example_dial] us "a.org" (ipv4 1 2 3 4).
Proof.
  destruct (@resolve_domain_over_proxy NoProxyHandler _ _ DirectDns.answering_dns Ok example_handler (ipv4 9 9 9 9)
    "a.org" 443 false example_world) as [r w'] eqn:E.
  assert (Hs : safe_dials example_world).
  { constructor; [|constructor]. split; [repeat constructor; discriminate|].
    constructor; [by apply is_u8b_spec|]. constructor; [by apply is_u8b_spec|constructor]. }
  assert (Hr : r = Ok (mkSA (ipv4 1 2 3 4) 443)) by (change r with (fst (r, w')); rewrite <- E; vm_compute; reflexivity).
  destruct (@proxied_dns_sound NoProxyHandler _ _ _ _ DirectDns.answering_dns DirectDns.answering_dns_laws Ok example_handler
    (ipv4 9 9 9 9) ltac:(discriminate) ltac:(discriminate) (fun _ _ _ => I) "a.org" 443 false example_world r w' Hs E)
    as (_ & _ & H). destruct (H _ Hr) as (_ & _ & us & _ & Hd). split; [exact Hr | exists us; exact Hd].
Defined.
End examples.
End ProxyDns.
