(* ===== verification/Forwarding.v ===== *)
(** * The forwarding loop (src/src/lib.rs, [run_with_preselected_egress])

    The tasks the loop owns: accepting sessions under the limit, the interface
    that new sessions are bound to and its refresh, reaping, the end of the loop
    by shutdown, by an error of the stack or by the session limit, and the drain
    that aborts and joins every task before the call returns.  A task ends by
    itself only if its code does: the refresh of the interface and the producers
    of transferred sockets never do, and the maintenance tasks wait for the
    shutdown token, which an error or the limit does not cancel.  Taking and dropping a permit
    is one step here; their atomics are interleaved in Sessions.v, and what a
    session does is in Routing.v and the handlers. *)

From S2P Require Import Prelude Net ProxyHandler Rfc1928 IpText Icmp Direct Process Sessions Lifecycle.

Module Forwarding.
Import Direct.

(** ** Start *)

Inductive NetworkEnvironment := Physical (egress : option BindInterface) | Provider.

(** The interface of direct sessions: the one selected before the routes were
    changed, or else one that is looked up. *)
Definition direct_bind (env : NetworkEnvironment) (detected : res Error BindInterface) : res Error (option BindInterface) :=
  match env with
  | Provider => Ok None
  | Physical (Some i) => Ok (Some i)
  | Physical None => i ← detected; Ok (Some i)
  end.

(** Whether sessions are matched to processes. *)
Definition matches_processes (env : NetworkEnvironment) (b : Process.ProcessBypass) : bool :=
  match env with Provider => false | Physical _ => Process.is_configured b end.

(** ** The loop *)

(** When a task without a permit ends by itself: at any time, only once the
    shutdown token is cancelled, or never. *)
Inductive Lifetime := MayEnd | UntilShutdown | Endless.

(** A task of the JoinSet: a session with its permit and interface, or one
    without a permit. *)
Inductive Task := SessionTask (p : IpProtocol) (bind : option BindInterface) | OtherTask (t : Lifetime).

Inductive Phase :=
  | Accepting
  | Broken (r : res Error unit)
  | Draining (active : Z) (r : res Error unit)
  | Closing (r : res Error Z)
  | Ended (r : res Error Z).

(** [current] is the value of the egress channel; [aborted] are the connections
    the loop has reset; [cancelled] is the shutdown token and [doomed] the tasks
    that [abort_all] has marked, which the runtime drops at their next await. *)
Record Loop := mkLoop {
  counts : Sessions.SessionCounts;
  managed_tasks : gmap nat Task;
  next_task : nat;
  current : option BindInterface;
  aborted : nat;
  cancelled : bool;
  doomed : gset nat;
  phase : Phase }.

Record Options := mkOptions { max_sessions : Z; exit_on_fatal_error : bool; windows : bool }.

(** What the stack accepts: a TCP or UDP session, an Echo request for a new
    worker or an existing one, another packet, or an error. *)
Inductive Accepted := TcpStream | UdpStream | EchoPacket (new_worker : bool) | OtherPacket | AcceptFailed (e : Error).

Definition set_phase (p : Phase) (l : Loop) : Loop :=
  mkLoop (counts l) (managed_tasks l) (next_task l) (current l) (aborted l) (cancelled l) (doomed l) p.

Definition spawn (t : Task) (c : Sessions.SessionCounts) (l : Loop) : Loop :=
  mkLoop c (<[next_task l := t]> (managed_tasks l)) (S (next_task l)) (current l) (aborted l) (cancelled l) (doomed l) (phase l).

Section loop.
Variable opt : Options.

Definition abort_stream (tcp : bool) (l : Loop) : Loop :=
  mkLoop (counts l) (managed_tasks l) (next_task l) (current l) (if tcp then S (aborted l) else aborted l) (cancelled l) (doomed l) (phase l).

(** A TCP or UDP session. *)
Definition on_session (p : IpProtocol) (l : Loop) : option Loop :=
  match Sessions.try_acquire p (max_sessions opt) (counts l) with
  | None =>
      let l1 := abort_stream (bool_decide (p = Tcp)) l in
      if exit_on_fatal_error opt then Some (set_phase (Broken (Ok tt)) l1) else Some l1
  | Some (Ok c) => Some (spawn (SessionTask p (current l)) c l)
  | Some _ => None
  end.

(** A packet of another protocol: an Echo request may start a worker. *)
Definition on_packet (new_worker : bool) (l : Loop) : Loop := if new_worker then spawn (OtherTask MayEnd) (counts l) l else l.

Definition on_accept (a : Accepted) (l : Loop) : option Loop :=
  match a with
  | TcpStream => on_session Tcp l
  | UdpStream => on_session Udp l
  | EchoPacket new_worker => Some (on_packet new_worker l)
  | OtherPacket => Some (on_packet false l)
  | AcceptFailed e => Some (set_phase (Broken (Err e)) l)
  end.

(** A task is over, by itself or because it was cancelled: it is dropped with
    its permit. *)
Definition end_task (n : nat) (l : Loop) : option Loop :=
  match managed_tasks l !! n with
  | Some (SessionTask p _) =>
      match Sessions.drop_permit p (counts l) with
      | Ok c => Some (mkLoop c (delete n (managed_tasks l)) (next_task l) (current l) (aborted l) (cancelled l) (doomed l) (phase l))
      | _ => None
      end
  | Some (OtherTask _) => Some (mkLoop (counts l) (delete n (managed_tasks l)) (next_task l) (current l) (aborted l) (cancelled l) (doomed l) (phase l))
  | None => None
  end.

(** A task whose own code can be over now. *)
Definition ends_itself (t : Task) (l : Loop) : bool :=
  match t with
  | SessionTask _ _ | OtherTask MayEnd => true
  | OtherTask UntilShutdown => cancelled l
  | OtherTask Endless => false
  end.

Definition finish_task (n : nat) (l : Loop) : option Loop :=
  match managed_tasks l !! n with
  | Some t => if ends_itself t l then end_task n l else None
  | None => None
  end.

(** An aborted task is dropped. *)
Definition drop_task (n : nat) (l : Loop) : option Loop :=
  if bool_decide (n ∈ doomed l) then end_task n l else None.

(** The token is cancelled, by whoever holds a clone. *)
Definition cancel_token (l : Loop) : Loop :=
  mkLoop (counts l) (managed_tasks l) (next_task l) (current l) (aborted l) true (doomed l) (phase l).

(** [managed_tasks.abort_all()]. *)
Definition abort_all (l : Loop) : Loop :=
  mkLoop (counts l) (managed_tasks l) (next_task l) (current l) (aborted l) (cancelled l)
    (doomed l ∪ dom (managed_tasks l)) (phase l).

(** After the loop: the sessions are counted, then every task is aborted. *)
Definition begin_drain (r : res Error unit) (l : Loop) : Loop :=
  set_phase (Draining (Sessions.total (counts l)) r)
    (if bool_decide (managed_tasks l = ∅) then l else abort_all l).

(** The refresh of the interface on Windows; a failed lookup keeps the last one. *)
Definition refresh (next : res Error BindInterface) (l : Loop) : Loop :=
  match windows opt, current l, next with
  | true, Some i, Ok j =>
      if bool_decide (i = j) then l
      else mkLoop (counts l) (managed_tasks l) (next_task l) (Some j) (aborted l) (cancelled l) (doomed l) (phase l)
  | _, _, _ => l
  end.

(** What the call returns: the error of the loop, or the sessions there were. *)
Definition result (active : Z) (r : res Error unit) : res Error Z :=
  match r with Ok _ => Ok active | Err e => Err e | Panic => Panic end.

(** The end of the drain: every task has been joined; on Windows the pool of
    bypassed flows is shut down before the call returns. *)
Definition join_all (active : Z) (r : res Error unit) (l : Loop) : option Loop :=
  if bool_decide (managed_tasks l = ∅)
  then Some (set_phase (if windows opt then Closing (result active r) else Ended (result active r)) l)
  else None.

(** [TaskEnds] is a task that is over by itself, [TaskDropped] one that was
    aborted; [CancelToken] is the shutdown request and [Shutdown] the loop that
    sees it. *)
Inductive Label :=
  | Accept (a : Accepted) | CancelToken | Shutdown | TaskEnds (n : nat) | TaskDropped (n : nat)
  | Refresh (r : res Error BindInterface) | Drain | Join | ClosePool.

(** One step; [None] when it is not possible in this phase. *)
Definition step (x : Label) (l : Loop) : option Loop :=
  match x, phase l with
  | Accept a, Accepting => on_accept a l
  | CancelToken, _ => Some (cancel_token l)
  | Shutdown, Accepting => if cancelled l then Some (set_phase (Broken (Ok tt)) l) else None
  | TaskEnds n, _ => finish_task n l
  | TaskDropped n, _ => drop_task n l
  | Refresh _, Ended _ => None
  | Refresh r, _ => Some (refresh r l)
  | Drain, Broken r => Some (begin_drain r l)
  | Join, Draining active r => join_all active r l
  | ClosePool, Closing r => Some (set_phase (Ended r) l)
  | _, _ => None
  end.

Fixpoint run (xs : list Label) (l : Loop) : option Loop :=
  match xs with [] => Some l | x :: xs' => l1 ← step x l; run xs' l1 end.
End loop.

(** The loop with these background tasks. *)
Definition start (background : list Lifetime) (bind : option BindInterface) : Loop :=
  mkLoop Sessions.default_counts (list_to_map (imap (fun n t => (n, OtherTask t)) background)) (length background) bind 0
    false ∅ Accepting.

(** ** Properties *)

(** The session tasks of a protocol. *)
Definition holds (p : IpProtocol) (t : Task) : bool :=
  match t with SessionTask q _ => bool_decide (q = p) | OtherTask _ => false end.

Definition sessions (p : IpProtocol) (m : gmap nat Task) : Z :=
  Z.of_nat (size (filter (fun kv => holds p (snd kv) = true) m)).

Lemma sessions_insert p m n t :
  m !! n = None -> sessions p (<[n := t]> m) = sessions p m + (if holds p t then 1 else 0).
Proof.
  intros Hn. unfold sessions. destruct (holds p t) eqn:E.
  - rewrite map_filter_insert_True by done. rewrite map_size_insert_None; [lia |].
    apply map_lookup_filter_None. by left.
  - rewrite map_filter_insert_False by (simpl; congruence). rewrite delete_id by done. lia.
Qed.

Lemma sessions_delete p m n t :
  m !! n = Some t -> sessions p (delete n m) = sessions p m - (if holds p t then 1 else 0).
Proof.
  intros Hn. unfold sessions. destruct (holds p t) eqn:E.
  - rewrite map_filter_delete. assert (Hf : filter (fun kv => holds p (snd kv) = true) m !! n = Some t) by (by apply map_lookup_filter_Some).
    rewrite map_size_delete_Some by eauto.
    assert (size (filter (fun kv => holds p (snd kv) = true) m) <> 0%nat); [| lia].
    intros H0. apply map_size_empty_inv in H0. by rewrite H0, lookup_empty in Hf.
  - rewrite map_filter_delete_not; [lia |]. intros y Hy. simpl. congruence.
Qed.

Lemma sessions_nonneg p m : 0 <= sessions p m.
Proof. unfold sessions. lia. Qed.

Lemma sessions_empty p : sessions p ∅ = 0.
Proof. unfold sessions. by rewrite map_filter_empty, map_size_empty. Qed.

Section proofs.
Variable opt : Options.
Hypothesis limit : 0 <= max_sessions opt <= u64_max.
Variable initial : option BindInterface.

(** Sessions are TCP or UDP and go through the interface of their time. *)
Definition task_ok (t : Task) : Prop :=
  match t with
  | SessionTask p b => Sessions.admitted p /\ (windows opt = false -> b = initial) /\ (initial = None -> b = None)
  | OtherTask _ => True
  end.

Record inv (l : Loop) : Prop := {
  i_tcp : Sessions.tcp (counts l) = sessions Tcp (managed_tasks l);
  i_udp : Sessions.udp (counts l) = sessions Udp (managed_tasks l);
  i_total : Sessions.total (counts l) = sessions Tcp (managed_tasks l) + sessions Udp (managed_tasks l);
  i_max : Sessions.total (counts l) <= max_sessions opt;
  i_tasks : forall n t, managed_tasks l !! n = Some t -> (n < next_task l)%nat /\ task_ok t;
  i_current : (windows opt = false -> current l = initial) /\ (initial = None -> current l = None);
  i_phase : match phase l with
            | Draining active _ => 0 <= active <= max_sessions opt /\ dom (managed_tasks l) ⊆ doomed l
            | Closing r | Ended r => managed_tasks l = ∅ /\ (forall n, r = Ok n -> 0 <= n <= max_sessions opt)
            | _ => True
            end }.

Lemma loop_inv_start k : inv (start k initial).
Proof.
  assert (Hl : forall n t, (list_to_map (imap (fun n t => (n, OtherTask t)) k) : gmap nat Task) !! n = Some t ->
    (n < length k)%nat /\ exists u, t = OtherTask u).
  { intros n t Hn. apply elem_of_list_to_map_2, elem_of_lookup_imap_1 in Hn as (m & u & [= -> ->] & Hm).
    split; [by apply lookup_lt_Some in Hm | by eexists]. }
  assert (Hz : forall p, sessions p (managed_tasks (start k initial)) = 0).
  { intros p. unfold sessions. simpl. rewrite map_empty_filter_2; [by rewrite map_size_empty |].
    intros n t Hn. by destruct (Hl n t Hn) as [_ [u ->]]. }
  split; simpl; rewrite ?Hz; try done; [lia |]. intros n t Hn. destruct (Hl n t Hn) as [? [u ->]]. done.
Qed.

Lemma inv_set_phase l p :
  inv l -> match p with
           | Draining active _ => 0 <= active <= max_sessions opt /\ dom (managed_tasks l) ⊆ doomed l
           | Closing r | Ended r => managed_tasks l = ∅ /\ (forall n, r = Ok n -> 0 <= n <= max_sessions opt)
           | _ => True
           end -> inv (set_phase p l).
Proof. intros [] Hp. by split. Qed.

Lemma inv_spawn_other l t : inv l -> phase l = Accepting -> inv (spawn (OtherTask t) (counts l) l).
Proof.
  intros [] Hp. assert (Hf : managed_tasks l !! next_task l = None).
  { destruct (managed_tasks l !! next_task l) eqn:E; [| done]. apply i_tasks0 in E as [? _]. lia. }
  split; simpl; rewrite ?sessions_insert by done; simpl; rewrite ?Z.add_0_r; try done; [| by rewrite Hp].
  intros n u Hn. apply lookup_insert_Some in Hn as [[<- <-] | [_ Hn]]; [split; [lia | done] |].
  destruct (i_tasks0 n u Hn). split; [lia | done].
Qed.

Lemma inv_session l p l' : Sessions.admitted p -> inv l -> phase l = Accepting -> on_session opt p l = Some l' -> inv l'.
Proof.
  intros Ha H Hp. pose proof H as []. unfold on_session, Sessions.try_acquire, Sessions.reserve_total.
  destruct (_ <? _) eqn:E.
  - b2p. assert (Hf : managed_tasks l !! next_task l = None).
    { destruct (managed_tasks l !! next_task l) eqn:E'; [| done]. apply i_tasks0 in E' as [? _]. lia. }
    pose proof (sessions_nonneg Tcp (managed_tasks l)). pose proof (sessions_nonneg Udp (managed_tasks l)).
    assert (Hw : forall z, 0 <= z < u64_max -> wrap64 (z + 1) = z + 1) by (intros; apply Sessions.wrap64_small; lia).
    destruct Ha as [-> | ->]; simpl; intros [= <-]; (split; simpl; rewrite ?sessions_insert by done; simpl;
      rewrite ?Z.add_0_r, ?Hw by lia; try lia; [| done | by rewrite Hp]);
      (intros n t Hn; apply lookup_insert_Some in Hn as [[<- <-] | [_ Hn]];
        [split; [lia |]; split; [| done]; (by left) || (by right) | destruct (i_tasks0 n t Hn); split; [lia | done]]).
  - destruct (exit_on_fatal_error opt); intros [= <-]; [apply inv_set_phase; [| done] |]; split; done.
Qed.

Lemma loop_inv_end l n l' : inv l -> end_task n l = Some l' -> inv l'.
Proof.
  intros [] He. unfold end_task in He. destruct (managed_tasks l !! n) as [t |] eqn:En; [| done].
  assert (Hk : forall m t', delete n (managed_tasks l) !! m = Some t' -> (m < next_task l)%nat /\ task_ok t').
  { intros m t' Hm. apply lookup_delete_Some in Hm as [_ Hm]. by apply i_tasks0. }
  assert (Hph : match phase l with
    | Draining active _ => 0 <= active <= max_sessions opt /\ dom (delete n (managed_tasks l)) ⊆ doomed l
    | Closing r | Ended r => delete n (managed_tasks l) = ∅ /\ (forall k, r = Ok k -> 0 <= k <= max_sessions opt)
    | _ => True end).
  { destruct (phase l); try done; destruct i_phase0 as [E E2]; [| by rewrite E, lookup_empty in En ..].
    split; [done |]. rewrite dom_delete_L. set_solver. }
  pose proof (sessions_nonneg Tcp (delete n (managed_tasks l))) as Ht.
  pose proof (sessions_nonneg Udp (delete n (managed_tasks l))) as Hu.
  rewrite (sessions_delete Tcp _ _ _ En) in Ht. rewrite (sessions_delete Udp _ _ _ En) in Hu.
  destruct (i_tasks0 n t En) as [_ Hok]. destruct t as [p b | u].
  - destruct Hok as [[-> | ->] _]; unfold Sessions.drop_permit in He; simpl in *; injection He as <-;
      (split; simpl; rewrite ?(sessions_delete _ _ _ _ En); simpl; rewrite ?Sessions.wrap64_small by lia; try done; lia).
  - injection He as <-. split; simpl; rewrite ?(sessions_delete _ _ _ _ En); simpl; rewrite ?Z.sub_0_r; done.
Qed.

Lemma inv_refresh l r : inv l -> inv (refresh opt r l).
Proof.
  intros H. unfold refresh. destruct (windows opt) eqn:Ew; [| done]. destruct (current l) as [i |] eqn:Ec; [| done].
  destruct r as [j | |]; [| done | done]. destruct (bool_decide _); [done |]. pose proof H as []. split; try done.
  simpl. split; [intros Hx; congruence |]. intros Hn. destruct i_current0 as [_ Hc]. specialize (Hc Hn). congruence.
Qed.

Lemma inv_drain l r : inv l -> inv (begin_drain r l).
Proof.
  intros H. pose proof H as []. pose proof (sessions_nonneg Tcp (managed_tasks l)). pose proof (sessions_nonneg Udp (managed_tasks l)).
  unfold begin_drain. destruct (bool_decide _) eqn:E; b2p.
  - apply inv_set_phase; [done |]. rewrite E, dom_empty_L. split; [lia | apply empty_subseteq].
  - split; try done. simpl. split; [lia | apply union_subseteq_r].
Qed.

Lemma inv_join l active r l' : inv l -> phase l = Draining active r -> join_all opt active r l = Some l' -> inv l'.
Proof.
  intros H Hp Hs. unfold join_all in Hs. destruct (bool_decide _) eqn:E; [b2p | done]. injection Hs as <-.
  pose proof H as []. rewrite Hp in i_phase0. destruct i_phase0 as [Ha _].
  assert (Hn : forall n, result active r = Ok n -> 0 <= n <= max_sessions opt).
  { intros n Hn. by destruct r; [injection Hn as <- | ..]. }
  apply inv_set_phase; [done |]. by destruct (windows opt).
Qed.

Lemma loop_inv_step l x l' : inv l -> step opt x l = Some l' -> inv l'.
Proof.
  intros H Hs. unfold step in Hs. destruct x as [a | | | n | n | r | | |].
  - destruct (phase l) eqn:Hp; try done. destruct a as [| | [] | | e]; simpl in Hs.
    + by apply (inv_session l Tcp l'); [left | ..].
    + by apply (inv_session l Udp l'); [right | ..].
    + injection Hs as <-. by apply inv_spawn_other.
    + by injection Hs as <-.
    + by injection Hs as <-.
    + injection Hs as <-. by apply inv_set_phase.
  - injection Hs as <-. by destruct H.
  - destruct (phase l); try done. destruct (cancelled l); [| done]. injection Hs as <-. by apply inv_set_phase.
  - unfold finish_task in Hs. destruct (managed_tasks l !! n) as [t |]; [| done]. destruct (ends_itself t l); [| done].
    by apply (loop_inv_end l n l').
  - unfold drop_task in Hs. destruct (bool_decide _); [| done]. by apply (loop_inv_end l n l').
  - destruct (phase l); try done; injection Hs as <-; by apply inv_refresh.
  - destruct (phase l); try done. injection Hs as <-. by apply inv_drain.
  - destruct (phase l) as [| | active r | |] eqn:Hp; try done. by apply (inv_join l active r).
  - destruct (phase l) as [| | | r |] eqn:Hp; try done. injection Hs as <-. apply inv_set_phase; [done |].
    destruct H as [_ _ _ _ _ _ Hi]. by rewrite Hp in Hi.
Qed.

Lemma loop_inv_run xs l l' : inv l -> run opt xs l = Some l' -> inv l'.
Proof.
  revert l. induction xs as [| x xs IH]; intros l H; simpl; [by intros [= <-] |].
  destruct (step opt x l) as [l1 |] eqn:E; [| done]. cbn. apply IH. by apply (loop_inv_step l x l1).
Qed.

(** The interfaces of the sessions: whatever holds of the first interface and of
    every refresh to another holds of all of them. *)
Definition bound (Q : option BindInterface -> Prop) (l : Loop) : Prop :=
  Q (current l) /\ forall n p b, managed_tasks l !! n = Some (SessionTask p b) -> Q b.

Lemma bound_end Q l n l' : bound Q l -> end_task n l = Some l' -> bound Q l'.
Proof.
  intros [Hc Ht] He. assert (H : current l' = current l /\ managed_tasks l' = delete n (managed_tasks l)).
  { unfold end_task in He. destruct (managed_tasks l !! n) as [[p b |] |]; [| by injection He as <- | done].
    destruct (Sessions.drop_permit _ _); [by injection He as <- | done | done]. }
  destruct H as [E1 E2]. split; [by rewrite E1 |]. intros m p b. rewrite E2, lookup_delete_Some. intros [_ Hm]. by apply (Ht m p).
Qed.

Lemma bound_step Q x l l' :
  (forall j, x = Refresh (Ok j) -> windows opt = true -> Q (current l) -> current l <> None -> Q (Some j)) ->
  bound Q l -> step opt x l = Some l' -> bound Q l'.
Proof.
  intros HQ H Hs. pose proof H as [Hc Ht]. unfold step in Hs. destruct x as [a | | | n | n | r | | |].
  - destruct (phase l); try done.
    assert (Hn : forall t c, (forall p b, t = SessionTask p b -> Q b) -> bound Q (spawn t c l)).
    { intros t c Hb. split; [done |]. intros m p b Hm. cbn in Hm.
      apply lookup_insert_Some in Hm as [[_ ->] | [_ Hm]]; [by apply (Hb p) | by apply (Ht m p)]. }
    assert (Hses : forall p, on_session opt p l = Some l' -> bound Q l').
    { intros p. unfold on_session. destruct (Sessions.try_acquire _ _ _) as [[c | |] |]; try done.
      - intros [= <-]. apply Hn. by intros ? ? [= _ <-].
      - destruct (exit_on_fatal_error opt); by intros [= <-]. }
    destruct a as [| | [] | | e]; simpl in Hs; [by apply (Hses Tcp) | by apply (Hses Udp) | | by injection Hs as <- ..].
    injection Hs as <-. by apply Hn.
  - by injection Hs as <-.
  - destruct (phase l); try done. destruct (cancelled l); by simplify_eq.
  - unfold finish_task in Hs. destruct (managed_tasks l !! n) as [t |]; [| done]. destruct (ends_itself t l); [| done].
    by apply (bound_end Q l n l').
  - unfold drop_task in Hs. destruct (bool_decide _); [| done]. by apply (bound_end Q l n l').
  - assert (Hr : bound Q (refresh opt r l)); [| destruct (phase l); try done; by injection Hs as <-].
    unfold refresh. destruct (windows opt) eqn:Ew; [| done]. destruct (current l) as [i |] eqn:Ec; [| done].
    destruct r as [j | |]; [| done | done]. destruct (bool_decide _); [done |]. split; [| done]. cbn. by apply HQ.
  - destruct (phase l); try done. injection Hs as <-. unfold begin_drain. by destruct (bool_decide _).
  - destruct (phase l); try done. unfold join_all in Hs. destruct (bool_decide _); [| done]. by injection Hs as <-.
  - destruct (phase l); try done. by injection Hs as <-.
Qed.

Lemma bound_run Q xs l l' :
  (forall j, Refresh (Ok j) ∈ xs -> windows opt = true -> Q (Some j)) -> bound Q l -> run opt xs l = Some l' -> bound Q l'.
Proof.
  revert l. induction xs as [| x xs IH]; intros l HQ H; simpl; [by intros [= <-] |].
  destruct (step opt x l) as [l1 |] eqn:E; [| done]. cbn. apply IH.
  - intros j Hj. apply HQ. by right.
  - apply (bound_step Q x l l1); [| done | done]. intros j -> Hw _ _. apply HQ; [left | done].
Qed.

Lemma run_bound background xs l n p b :
  run opt xs (start background initial) = Some l -> managed_tasks l !! n = Some (SessionTask p b) ->
  b = initial \/ windows opt = true /\ exists j, b = Some j /\ Refresh (Ok j) ∈ xs.
Proof.
  intros Hr Hn. apply (bound_run (fun b => b = initial \/ windows opt = true /\ exists j, b = Some j /\ Refresh (Ok j) ∈ xs) xs) in Hr as [_ Ht].
  - by apply (Ht n p).
  - intros j Hj Hw. right. split; [done | by exists j].
  - split; [by left |]. intros m q c Hm. cbn in Hm.
    apply elem_of_list_to_map_2, elem_of_lookup_imap_1 in Hm as (? & u & [=] & _).
Qed.

(** Every aborted task can be dropped, in any order, and then the call returns. *)
Lemma end_task_total l n : inv l -> is_Some (managed_tasks l !! n) ->
  exists l', end_task n l = Some l' /\ managed_tasks l' = delete n (managed_tasks l) /\ phase l' = phase l.
Proof.
  intros [] [t Hn]. unfold end_task. rewrite Hn. destruct t as [p b |]; [| by eexists].
  destruct (i_tasks0 n _ Hn) as [_ [[-> | ->] _]]; by eexists.
Qed.

(** The steps that are left to a draining loop when its tasks are dropped in
    this order. *)
Definition drained (ns : list nat) : list Label :=
  (TaskDropped <$> ns) ++ Join :: (if windows opt then [ClosePool] else []).

Lemma drain_ends ns l active r :
  inv l -> ns ≡ₚ elements (dom (managed_tasks l)) -> phase l = Draining active r ->
  exists l', run opt (drained ns) l = Some l' /\ phase l' = Ended (result active r).
Proof.
  revert l. induction ns as [| n ns IH]; intros l H Hk Hp.
  - symmetry in Hk. apply Permutation_nil_r, elements_empty_inv, dom_empty_inv in Hk.
    unfold drained. cbn [fmap list_fmap app run]. unfold step at 1, join_all. rewrite Hp, Hk, bool_decide_eq_true_2 by done.
    destruct (windows opt); by eexists.
  - assert (Hn : n ∈ dom (managed_tasks l)) by (apply elem_of_elements; rewrite <- Hk; left).
    assert (Hs : is_Some (managed_tasks l !! n)) by (by apply elem_of_dom).
    destruct (end_task_total l n H Hs) as (l1 & E1 & Hd & Hp1).
    assert (Hi : inv l1) by (by apply (loop_inv_end l n l1)).
    assert (Hx : n ∈ doomed l) by (destruct H as [_ _ _ _ _ _ Hi']; rewrite Hp in Hi'; set_solver).
    destruct (IH l1 Hi) as (l' & Hr & He); [| congruence |].
    { rewrite Hd, dom_delete_L. apply (Permutation_cons_inv (a := n)). rewrite Hk. 
      rewrite <- (elements_union_singleton (dom (managed_tasks l) ∖ {[n]}) n) by set_solver.
      f_equiv. rewrite <- union_difference_L; set_solver. }
    exists l'. split; [| done]. unfold drained. cbn [fmap list_fmap app run]. unfold step at 1, drop_task.
    rewrite bool_decide_eq_true_2 by done. rewrite E1. exact Hr.
Qed.

(** C18. The forwarding loop under every interleaving of accepted sessions, tasks that
    end, interface changes and the shutdown, where a task ends by itself only if
    its code does (the refresh of the interface and the socket producers never,
    the maintenance tasks only after the shutdown) or once it was aborted: the
    counters are exactly the session tasks that live and never exceed the limit;
    a provider's sessions are never bound to an interface, and all others are
    bound to the interface selected at the start or, on Windows only, to one that
    a refresh found; when the call
    returns no task is left and every permit is given back; and once the loop is
    left, by the shutdown, an error or the limit, every task that lives has been
    marked by the drain's abort, so in whatever order the runtime drops them the
    call returns, the loop's error or the number of sessions at that time. *)
Theorem forwarding_stops_clean background xs l :
  run opt xs (start background initial) = Some l ->
  Sessions.total (counts l) = sessions Tcp (managed_tasks l) + sessions Udp (managed_tasks l) /\
  Sessions.total (counts l) <= max_sessions opt /\
  Sessions.tcp (counts l) = sessions Tcp (managed_tasks l) /\ Sessions.udp (counts l) = sessions Udp (managed_tasks l) /\
  (forall n p b, managed_tasks l !! n = Some (SessionTask p b) ->
    (initial = None -> b = None) /\ (b = initial \/ windows opt = true /\ exists j, b = Some j /\ Refresh (Ok j) ∈ xs)) /\
  match phase l with
  | Accepting => True
  | Broken r =>
      forall ns, ns ≡ₚ elements (dom (managed_tasks l)) ->
      exists l', run opt (Drain :: drained ns) l = Some l' /\ phase l' = Ended (result (Sessions.total (counts l)) r)
  | Draining active r =>
      forall ns, ns ≡ₚ elements (dom (managed_tasks l)) ->
      exists l', run opt (drained ns) l = Some l' /\ phase l' = Ended (result active r)
  | Closing r => managed_tasks l = ∅ /\ exists l', run opt [ClosePool] l = Some l' /\ phase l' = Ended r
  | Ended r =>
      managed_tasks l = ∅ /\ counts l = Sessions.default_counts /\ (forall n, r = Ok n -> 0 <= n <= max_sessions opt)
  end.
Proof.
  intros Hr. pose proof (loop_inv_run xs _ l (loop_inv_start background) Hr) as H. pose proof H as [].
  split_and!; try done.
  - intros n p b Hn. split; [by destruct (i_tasks0 n _ Hn) as [_ (_ & _ & ?)] | by apply (run_bound background xs l n p)].
  - destruct (phase l) as [| r | active r | r | r] eqn:Hp; [done | | | |].
    + intros ns Hns. assert (Hs : step opt Drain l = Some (begin_drain r l)) by (unfold step; by rewrite Hp).
      destruct (drain_ends ns (begin_drain r l) (Sessions.total (counts l)) r) as (l' & Hrun & He);
        [by apply inv_drain | | done |].
      { rewrite Hns. unfold begin_drain. by destruct (bool_decide _). }
      exists l'. split; [| done]. cbn [run]. by rewrite Hs.
    + intros ns Hns. by apply drain_ends.
    + split; [apply i_phase0 |]. cbn [run]. unfold step. rewrite Hp. by eexists.
    + destruct i_phase0 as [E Hn]. split_and!; [done | | done]. rewrite E, !sessions_empty in *.
      destruct (counts l) as [a b c]. simpl in *. by subst.
Qed.
End proofs.

(** Windows, with the refresh of the interface among the tasks: the loop is left
    by an error of the stack, so no token is cancelled, and only the abort ends
    the refresh and the report. *)
Lemma forwarding_stops_clean_witness :
  let opt := mkOptions 2 false true in
  let i := mkBind 2 2 None [] "eth0" in
  let j := mkBind 3 3 None [] "wlan0" in
  match run opt [Accept TcpStream; Refresh (Ok j); Accept UdpStream; Accept TcpStream; Accept (AcceptFailed (EString "closed"))]
          (start [Endless; UntilShutdown] (Some i)) with
  | Some l =>
      aborted l = 1%nat /\
      exists l', run opt (Drain :: drained opt [0; 3; 1; 2]%nat) l = Some l' /\ phase l' = Ended (Err (EString "closed"))
  | None => False
  end.
Proof.
  cbv zeta. set (opt := mkOptions 2 false true). set (xs := [Accept TcpStream; _; _; _; _]).
  assert (Hl : 0 <= max_sessions opt <= u64_max) by (cbn; unfold u64_max; lia).
  destruct (run opt xs (start [Endless; UntilShutdown] (Some (mkBind 2 2 None [] "eth0")))) as [l |] eqn:E; [| vm_compute in E; discriminate E].
  pose proof (forwarding_stops_clean opt Hl (Some (mkBind 2 2 None [] "eth0")) [Endless; UntilShutdown] xs l E) as (_ & _ & _ & _ & _ & H).
  vm_compute in E. injection E as <-. split; [reflexivity |]. apply (H [0; 3; 1; 2]%nat).
  match goal with |- _ ≡ₚ ?m => let m' := eval vm_compute in m in change m with m' end. solve_Permutation.
Defined.

(** Without the abort the call would not return: neither the refresh nor, after
    an error, the report ends by itself. *)
Example drain_needs_abort :
  let opt := mkOptions 2 false true in
  match run opt [Accept (AcceptFailed (EString "closed"))] (start [Endless; UntilShutdown] None) with
  | Some l => step opt (TaskEnds 0) l = None /\ step opt (TaskEnds 1) l = None /\ step opt (TaskDropped 0) l = None
  | None => False
  end.
Proof. vm_compute. repeat split. Qed.

(** The number returned stands for two things: a loop that was left at the limit
    can return fewer sessions, and one that was shut down while the table was
    full returns the limit, which the caller reports as a forced exit. *)
Example limit_exit_ambiguous :
  let opt := mkOptions 1 true false in
  let args := Lifecycle.mkArgs (Ok tt) None false None None None None false false 1 true in
  let reported xs :=
    match run opt xs (start [] None) with
    | Some l => match phase l with Ended (Ok n) => Some (is_ok (Lifecycle.outcome args (Ok tt) (Ok n))) | _ => None end
    | None => None
    end in
  reported [Accept TcpStream; Accept TcpStream; TaskEnds 0; Drain; Join] = Some true /\
  reported [Accept TcpStream; CancelToken; Shutdown; Drain; TaskDropped 0; Join] = Some false.
Proof. vm_compute. split; reflexivity. Qed.
End Forwarding.
