(* ===== verification/CommandLine.v ===== *)
(** * The command line of the elevated process (src/src/bin/windows_elevation/mod.rs)

    [build_command_line] and [append_quoted_argument], and against them the
    parser of [std::env::args_os], which the elevated process applies to its
    command line.  Text is a list of UTF-16 code units, so unpaired surrogates
    are covered. *)

From S2P Require Import Prelude.

Module CommandLine.

Definition SPACE : Z := 32.
Definition TAB : Z := 9.
Definition QUOTE : Z := 34.
Definition BACKSLASH : Z := 92.

Abbreviation OsString := (list Z).

(** ** Quoting *)

Definition null_terminated (value : OsString) : list Z := value ++ [0].

Definition needs_quotes (argument : OsString) : bool :=
  match argument with
  | [] => true
  | _ => existsb (fun value => (value =? SPACE) || (value =? TAB) || (value =? QUOTE)) argument
  end.

(** The loop over the units of a quoted argument, with the number of
    backslashes seen since the last other unit. *)
Fixpoint quote_loop (argument : OsString) (backslashes : nat) (command_line : list Z) : list Z * nat :=
  match argument with
  | [] => (command_line, backslashes)
  | value :: rest =>
      if value =? BACKSLASH then quote_loop rest (backslashes + 1) command_line
      else
        let run := if value =? QUOTE then (backslashes * 2 + 1)%nat else backslashes in
        quote_loop rest 0 (command_line ++ replicate run BACKSLASH ++ [value])
  end.

Definition append_quoted_argument (command_line : list Z) (argument : OsString) : list Z :=
  if negb (needs_quotes argument) then command_line ++ argument
  else
    let '(command_line, backslashes) := quote_loop argument 0 (command_line ++ [QUOTE]) in
    command_line ++ replicate (backslashes * 2) BACKSLASH ++ [QUOTE].

Definition append_argument (command_line : list Z) (argument : OsString) : list Z :=
  append_quoted_argument (match command_line with [] => [] | _ => command_line ++ [SPACE] end) argument.

Definition build_command_line (args : list OsString) : list Z := foldl append_argument [] args ++ [0].

(** ** The arguments of a process *)

Definition is_blank (w : Z) : bool := (w =? SPACE) || (w =? TAB).

(** [advance_while]: how many units are skipped and what follows. *)
Fixpoint advance_while (p : Z -> bool) (units : list Z) : nat * list Z :=
  match units with
  | w :: rest => if p w then let '(n, after) := advance_while p rest in (S n, after) else (0%nat, units)
  | [] => (0%nat, [])
  end.

(** The units up to the terminator. *)
Fixpoint until_nul (units : list Z) : list Z :=
  match units with w :: rest => if w =? 0 then [] else w :: until_nul rest | [] => [] end.

(** The name of the program: quotes only group. *)
Fixpoint parse_program (units : list Z) (in_quotes : bool) (cur : OsString) : OsString * list Z :=
  match units with
  | [] => (cur, [])
  | w :: rest =>
      if w =? QUOTE then parse_program rest (negb in_quotes) cur
      else if is_blank w && negb in_quotes then (cur, rest)
      else parse_program rest in_quotes (cur ++ [w])
  end.

Fixpoint parse_arguments (fuel : nat) (units : list Z) (cur : OsString) (in_quotes : bool) : option (list OsString) :=
  match fuel with
  | O => None
  | S fuel' =>
      match units with
      | [] => Some (if negb (bool_decide (cur = [])) || in_quotes then [cur] else [])
      | w :: rest =>
          if is_blank w && negb in_quotes then
            args ← parse_arguments fuel' (advance_while is_blank rest).2 [] false; Some (cur :: args)
          else if w =? BACKSLASH then
            let '(n, after) := advance_while (Z.eqb BACKSLASH) rest in
            let backslash_count := (n + 1)%nat in
            if bool_decide (head after = Some QUOTE) then
              let cur := cur ++ replicate (backslash_count / 2) BACKSLASH in
              if (backslash_count mod 2 =? 1)%nat then parse_arguments fuel' (tail after) (cur ++ [QUOTE]) in_quotes
              else parse_arguments fuel' after cur in_quotes
            else parse_arguments fuel' after (cur ++ replicate backslash_count BACKSLASH) in_quotes
          else if (w =? QUOTE) && in_quotes then
            match rest with
            | [] => Some [cur]
            | w2 :: rest2 =>
                if w2 =? QUOTE then parse_arguments fuel' rest2 (cur ++ [QUOTE]) in_quotes
                else parse_arguments fuel' rest cur false
            end
          else if w =? QUOTE then parse_arguments fuel' rest cur true
          else parse_arguments fuel' rest (cur ++ [w]) in_quotes
      end
  end.

Definition args_os (command_line : list Z) : option (list OsString) :=
  let '(program, rest) := parse_program (until_nul command_line) false [] in
  let units := (advance_while is_blank rest).2 in
  args ← parse_arguments (S (length units)) units [] false;
  Some (program :: args).

(** ** The parser by its equations *)

Lemma advance_while_length p units : (length (advance_while p units).2 <= length units)%nat.
Proof.
  induction units as [|w rest IH]; simpl; [lia|]. destruct (p w); simpl; [|lia].
  destruct (advance_while p rest) as [n after]. simpl in *. lia.
Qed.

Lemma command_line_parse_total n units cur q : (length units < n)%nat -> is_Some (parse_arguments n units cur q).
Proof.
  revert units cur q. induction n as [|n IH]; intros units cur q Hl; [lia|].
  destruct units as [|w rest]; simpl in *; [by eexists|].
  pose proof (advance_while_length is_blank rest) as Hb. pose proof (advance_while_length (Z.eqb BACKSLASH) rest) as Hs.
  destruct (advance_while (Z.eqb BACKSLASH) rest) as [k after]. simpl in *.
  assert (Ht : (length (tail after) <= length after)%nat) by (destruct after; simpl; lia).
  repeat case_match; subst; simpl in *; try (by eexists); try (apply IH; simpl; lia).
  destruct (IH (advance_while is_blank rest).2 [] false) as [? ->]; [lia|]. by eexists.
Qed.

Lemma parse_fuel n m units cur q :
  (length units < n)%nat -> (length units < m)%nat -> parse_arguments n units cur q = parse_arguments m units cur q.
Proof.
  revert m units cur q. induction n as [|n IH]; intros m units cur q Hn Hm; [lia|]. destruct m as [|m]; [lia|].
  destruct units as [|w rest]; [done|]. cbn [parse_arguments].
  pose proof (advance_while_length is_blank rest) as Hb. pose proof (advance_while_length (Z.eqb BACKSLASH) rest) as Hs.
  destruct (advance_while (Z.eqb BACKSLASH) rest) as [k after]. simpl in Hs, Hn, Hm.
  assert (Ht : (length (tail after) <= length after)%nat) by (destruct after; simpl; lia).
  rewrite (IH m (advance_while is_blank rest).2) by lia.
  repeat case_match; subst; simpl in *; try done; apply IH; simpl; lia.
Qed.

(** The parser with enough fuel. *)
Definition parse (units : list Z) (cur : OsString) (q : bool) : option (list OsString) :=
  parse_arguments (S (length units)) units cur q.

Lemma parse_enough n units cur q : (length units < n)%nat -> parse_arguments n units cur q = parse units cur q.
Proof. intros. apply parse_fuel; lia. Qed.

(** One turn of the loop. *)
Lemma parse_cons w rest cur q :
  parse (w :: rest) cur q =
  if is_blank w && negb q then args ← parse (advance_while is_blank rest).2 [] false; Some (cur :: args)
  else if w =? BACKSLASH then
    let '(n, after) := advance_while (Z.eqb BACKSLASH) rest in
    if bool_decide (head after = Some QUOTE) then
      if ((n + 1) mod 2 =? 1)%nat then parse (tail after) (cur ++ replicate ((n + 1) / 2) BACKSLASH ++ [QUOTE]) q
      else parse after (cur ++ replicate ((n + 1) / 2) BACKSLASH) q
    else parse after (cur ++ replicate (n + 1) BACKSLASH) q
  else if (w =? QUOTE) && q then
    match rest with
    | [] => Some [cur]
    | w2 :: rest2 => if w2 =? QUOTE then parse rest2 (cur ++ [QUOTE]) q else parse rest cur false
    end
  else if w =? QUOTE then parse rest cur true
  else parse rest (cur ++ [w]) q.
Proof.
  unfold parse at 1. simpl length. remember (S (length rest)) as n eqn:Hn. cbn [parse_arguments]. cbv zeta.
  pose proof (advance_while_length is_blank rest) as Hb. pose proof (advance_while_length (Z.eqb BACKSLASH) rest) as Hs.
  destruct (advance_while (Z.eqb BACKSLASH) rest) as [k after]. simpl in Hs.
  assert (Ht : (length (tail after) <= length after)%nat) by (destruct after; simpl; lia).
  rewrite (parse_enough n (advance_while is_blank rest).2) by lia.
  repeat case_match; subst; rewrite ?parse_enough by (simpl in *; lia); rewrite <- ?(assoc_L (++)); done.
Qed.

(** A unit without meaning. *)
Lemma parse_plain w rest cur q :
  w <> QUOTE -> w <> BACKSLASH -> is_blank w = false \/ q = true ->
  parse (w :: rest) cur q = parse rest (cur ++ [w]) q.
Proof.
  intros Hq Hs Hb. rewrite parse_cons.
  replace (is_blank w && negb q) with false by (destruct Hb as [-> | ->]; by rewrite ?andb_false_r).
  by rewrite (proj2 (Z.eqb_neq w BACKSLASH) Hs), (proj2 (Z.eqb_neq w QUOTE) Hq).
Qed.

(** An opening quote. *)
Lemma parse_open rest cur : parse (QUOTE :: rest) cur false = parse rest cur true.
Proof. by rewrite parse_cons. Qed.

(** A closing quote before a blank. *)
Lemma parse_close_blank rest cur : parse (QUOTE :: SPACE :: rest) cur true = parse (SPACE :: rest) cur false.
Proof. by rewrite parse_cons. Qed.

(** A blank between arguments. *)
Lemma parse_blank w rest cur :
  is_blank w = false -> parse (SPACE :: w :: rest) cur false = (args ← parse (w :: rest) [] false; Some (cur :: args)).
Proof.
  intros Hw. rewrite parse_cons. change (is_blank SPACE && negb false) with true. cbn [advance_while]. by rewrite Hw.
Qed.

(** *** Backslashes *)

Lemma advance_replicate k rest :
  head rest <> Some BACKSLASH -> advance_while (Z.eqb BACKSLASH) (replicate k BACKSLASH ++ rest) = (k, rest).
Proof.
  intros Hh. induction k as [|k IH]; cbn [replicate app advance_while].
  - destruct rest as [|w rest]; [done|]. cbn [advance_while].
    by rewrite (proj2 (Z.eqb_neq BACKSLASH w)) by (intros <-; by destruct Hh).
  - by rewrite IH.
Qed.

Lemma parse_run k rest cur q :
  head rest <> Some BACKSLASH ->
  parse (replicate (S k) BACKSLASH ++ rest) cur q =
  if bool_decide (head rest = Some QUOTE) then
    if (S k mod 2 =? 1)%nat then parse (tail rest) (cur ++ replicate (S k / 2) BACKSLASH ++ [QUOTE]) q
    else parse rest (cur ++ replicate (S k / 2) BACKSLASH) q
  else parse rest (cur ++ replicate (S k) BACKSLASH) q.
Proof.
  intros Hh. cbn [replicate app]. rewrite parse_cons.
  replace (is_blank BACKSLASH && negb q) with false by done.
  replace (BACKSLASH =? BACKSLASH) with true by done. rewrite advance_replicate by done. by rewrite Nat.add_1_r.
Qed.

(** Backslashes that no quote follows are literal. *)
Lemma parse_literal k rest cur q :
  head rest <> Some BACKSLASH -> head rest <> Some QUOTE ->
  parse (replicate k BACKSLASH ++ rest) cur q = parse rest (cur ++ replicate k BACKSLASH) q.
Proof.
  intros Hb Hq. destruct k as [|k]; [by rewrite app_nil_r|].
  rewrite parse_run by done. by rewrite bool_decide_false.
Qed.

(** An even number before a quote is halved. *)
Lemma parse_even k rest cur q :
  parse (replicate (k * 2) BACKSLASH ++ QUOTE :: rest) cur q = parse (QUOTE :: rest) (cur ++ replicate k BACKSLASH) q.
Proof.
  destruct k as [|k]; [by rewrite app_nil_r|]. change (S k * 2)%nat with (S (S (k * 2))).
  rewrite parse_run by done. rewrite bool_decide_true by done.
  replace (S (S (k * 2))) with (S k * 2)%nat by lia. rewrite Nat.Div0.mod_mul, Nat.div_mul by lia. done.
Qed.

(** An odd number escapes the quote. *)
Lemma parse_odd k rest cur q :
  parse (replicate (k * 2 + 1) BACKSLASH ++ QUOTE :: rest) cur q = parse rest (cur ++ replicate k BACKSLASH ++ [QUOTE]) q.
Proof.
  rewrite Nat.add_1_r. rewrite parse_run by done. rewrite bool_decide_true by done.
  replace (S (k * 2)) with (1 + k * 2)%nat by lia. rewrite Nat.Div0.mod_add, Nat.div_add by lia. done.
Qed.

(** ** Quoted and plain arguments *)

(** What the loop appends. *)
Lemma quote_loop_app a k cl : quote_loop a k cl = (cl ++ (quote_loop a k []).1, (quote_loop a k []).2).
Proof.
  revert k cl. induction a as [|v a IH]; intros k cl; simpl; [by rewrite app_nil_r|].
  destruct (v =? BACKSLASH); [apply IH|]. rewrite IH, (IH _ (replicate _ _ ++ _)). simpl.
  by rewrite <- !(assoc_L (++)).
Qed.

(** The text of one argument. *)
Definition quoted (a : OsString) : list Z := append_quoted_argument [] a.

Lemma append_quoted a cl : append_quoted_argument cl a = cl ++ quoted a.
Proof.
  unfold quoted, append_quoted_argument. destruct (needs_quotes a); simpl; [|done].
  rewrite (quote_loop_app a 0 (cl ++ [QUOTE])), (quote_loop_app a 0 [QUOTE]). simpl.
  by rewrite <- !(assoc_L (++)).
Qed.

(** After the closing quote. *)
Definition closed (rest : list Z) (a : OsString) : option (list OsString) :=
  match rest with [] => Some [a] | _ => parse rest a false end.

Definition ends_argument (rest : list Z) : Prop := rest = [] \/ exists r, rest = SPACE :: r.

(** Inside quotes: the escaped text gives the argument back. *)
Lemma parse_quoted a k rest cur :
  ends_argument rest ->
  parse ((quote_loop a k []).1 ++ replicate ((quote_loop a k []).2 * 2) BACKSLASH ++ QUOTE :: rest) cur true =
  closed rest (cur ++ replicate k BACKSLASH ++ a).
Proof.
  intros He. revert k cur. induction a as [|v a IH]; intros k cur; simpl.
  - rewrite parse_even, app_nil_r. destruct He as [-> | [r ->]]; [done|]. apply parse_close_blank.
  - destruct (Z.eqb_spec v BACKSLASH) as [->|Hs].
    + rewrite IH. replace (k + 1)%nat with (S k) by lia. rewrite replicate_S_end, <- (assoc_L (++)). done.
    + rewrite (quote_loop_app a 0 (replicate _ _ ++ _)). simpl. rewrite <- !(assoc_L (++)). simpl.
      destruct (Z.eqb_spec v QUOTE) as [->|Hq].
      * rewrite parse_odd, IH. by rewrite <- !(assoc_L (++)).
      * rewrite parse_literal by (simpl; congruence). rewrite parse_plain by auto. rewrite IH.
        by rewrite <- !(assoc_L (++)).
Qed.

(** An argument that needs no quotes. *)
Lemma parse_unquoted a rest cur :
  ends_argument rest -> Forall (fun v => is_blank v = false /\ v <> QUOTE) a ->
  parse (a ++ rest) cur false = parse rest (cur ++ a) false.
Proof.
  intros He Ha. remember (length a) as n eqn:Hn. revert a cur Hn Ha.
  induction n as [n IH] using (well_founded_induction Nat.lt_wf_0). intros a cur -> Ha.
  destruct a as [|v a]; [by rewrite app_nil_r|]. apply Forall_cons in Ha as [[Hb Hq] Ha].
  destruct (decide (v = BACKSLASH)) as [->|Hs].
  2:{ simpl. rewrite parse_plain by auto. rewrite (IH (length a)) by (simpl; auto with lia). by rewrite <- (assoc_L (++)). }
  assert (Hrun : exists k a', BACKSLASH :: a = replicate (S k) BACKSLASH ++ a' /\ head a' <> Some BACKSLASH).
  { clear. induction a as [|w a IH].
    - exists 0%nat, []. done.
    - destruct (decide (w = BACKSLASH)) as [->|Hw].
      + destruct IH as (k & a' & Heq & Hh). exists (S k), a'. cbn [replicate app] in *. split; [congruence|done].
      + exists 0%nat, (w :: a). simpl. split; [done|congruence]. }
  destruct Hrun as (k & a' & Heq & Hh). rewrite Heq.
  assert (Ha' : Forall (fun v => is_blank v = false /\ v <> QUOTE) a').
  { assert (H : Forall (fun v => is_blank v = false /\ v <> QUOTE) (replicate (S k) BACKSLASH ++ a')).
    { rewrite <- Heq. constructor; [done|exact Ha]. } apply Forall_app in H. apply H. }
  rewrite <- (assoc_L (++)). rewrite parse_literal.
  - rewrite (IH (length a')); [|rewrite Heq, length_app, length_replicate; lia|done|done]. by rewrite <- (assoc_L (++)).
  - destruct a'; [|done]. destruct He as [-> | [r ->]]; done.
  - destruct a' as [|w a']; [destruct He as [-> | [r ->]]; done|]. apply Forall_cons in Ha' as [[_ Hw] _]. simpl. congruence.
Qed.

Lemma needs_quotes_false a :
  needs_quotes a = false -> a <> [] /\ Forall (fun v => is_blank v = false /\ v <> QUOTE) a.
Proof.
  unfold needs_quotes. destruct a as [|w a]; [done|]. intros H. split; [done|].
  apply Forall_forall. intros v Hv. destruct (decide ((v =? SPACE) || (v =? TAB) || (v =? QUOTE) = true)) as [Hx|Hx].
  - exfalso. rewrite (proj2 (existsb_exists _ _)) in H; [done|]. exists v. split; [by apply list_elem_of_In|done].
  - apply not_true_is_false, orb_false_iff in Hx as [Hx Hq]. split; [exact Hx|]. by apply Z.eqb_neq.
Qed.

(** An argument starts with a unit that is not blank. *)
Lemma quoted_head a : exists w t, quoted a = w :: t /\ is_blank w = false.
Proof.
  unfold quoted, append_quoted_argument. destruct (needs_quotes a) eqn:E; simpl.
  - rewrite quote_loop_app. simpl. by eexists _, _.
  - apply needs_quotes_false in E as [Hne Ha]. destruct a as [|w t]; [done|]. apply Forall_cons in Ha as [[Hb _] _].
    by exists w, t.
Qed.

(** One argument, followed by the end or by another one. *)
Lemma parse_one a rest : ends_argument rest -> parse (quoted a ++ rest) [] false = closed rest a.
Proof.
  intros He. unfold quoted, append_quoted_argument. destruct (needs_quotes a) eqn:E; simpl.
  - rewrite quote_loop_app. simpl. rewrite parse_open, <- !(assoc_L (++)). simpl. by apply (parse_quoted a 0).
  - apply needs_quotes_false in E as [Hne Ha]. rewrite parse_unquoted by done. simpl.
    destruct He as [-> | [r ->]]; [|done]. unfold parse. simpl. by rewrite bool_decide_false.
Qed.

(** Every argument after the first. *)
Definition following (args : list OsString) : list Z := concat ((fun a => SPACE :: quoted a) <$> args).

Lemma build_following args cl : cl <> [] -> foldl append_argument cl args = cl ++ following args.
Proof.
  revert cl. induction args as [|a args IH]; intros cl Hne; simpl; [by rewrite app_nil_r|].
  unfold append_argument at 2. rewrite append_quoted. destruct cl as [|c cl]; [done|].
  rewrite IH by (by destruct (quoted a)). unfold following. simpl. by rewrite <- !(assoc_L (++)).
Qed.

Lemma build_spec a args : foldl append_argument [] (a :: args) = quoted a ++ following args.
Proof.
  simpl. unfold append_argument at 2. rewrite append_quoted. simpl. apply build_following.
  destruct (quoted_head a) as (w & t & -> & _). done.
Qed.

Lemma parse_following a args : parse (quoted a ++ following args) [] false = Some (a :: args).
Proof.
  revert a. induction args as [|b args IH]; intros a.
  - rewrite app_nil_r. rewrite <- (app_nil_r (quoted a)). rewrite parse_one by (by left). done.
  - change (following (b :: args)) with (SPACE :: quoted b ++ following args).
    rewrite parse_one by (right; by eexists). unfold closed.
    destruct (quoted_head b) as (w & t & Hb & Hw). specialize (IH b). rewrite Hb in *. cbn [app] in *.
    rewrite parse_blank by done. by rewrite IH.
Qed.

(** ** No unit is a terminator *)

Lemma quote_loop_nonzero a k : Forall (fun u => u <> 0) a -> Forall (fun u => u <> 0) (quote_loop a k []).1.
Proof.
  intros Ha. revert k. induction Ha as [|v a Hv Ha IH]; intros k; simpl; [constructor|].
  destruct (v =? BACKSLASH); [apply IH|]. rewrite quote_loop_app. simpl.
  apply Forall_app; split; [|apply IH]. apply Forall_app; split; [by apply Forall_replicate|repeat constructor; done].
Qed.

Lemma quoted_nonzero a : Forall (fun u => u <> 0) a -> Forall (fun u => u <> 0) (quoted a).
Proof.
  intros Ha. unfold quoted, append_quoted_argument. destruct (needs_quotes a); simpl; [|done].
  rewrite quote_loop_app. simpl. constructor; [done|]. apply Forall_app; split; [by apply quote_loop_nonzero|].
  apply Forall_app; split; [by apply Forall_replicate|repeat constructor; done].
Qed.

Lemma following_nonzero args : Forall (Forall (fun u => u <> 0)) args -> Forall (fun u => u <> 0) (following args).
Proof.
  induction 1 as [|a args Ha Hs IH]; unfold following; simpl; [constructor|].
  constructor; [done|]. apply Forall_app; split; [by apply quoted_nonzero|done].
Qed.

Lemma until_nul_app l rest : Forall (fun u => u <> 0) l -> until_nul (l ++ 0 :: rest) = l.
Proof. induction 1 as [|u l Hu Hl IH]; simpl; [done|]. rewrite (proj2 (Z.eqb_neq u 0) Hu). by rewrite IH. Qed.

(** *** The program name in front *)

(** The command line of a process started from this program with these
    parameters: the name in quotes, a space and the parameters. *)
Definition process_command_line (program parameters : list Z) : list Z :=
  [QUOTE] ++ program ++ [QUOTE; SPACE] ++ parameters.

Lemma parse_program_quoted p cur rest :
  Forall (fun u => u <> QUOTE) p ->
  parse_program (p ++ QUOTE :: SPACE :: rest) true cur = (cur ++ p, rest).
Proof.
  intros Hp. revert cur. induction Hp as [|u p Hu Hp IH]; intros cur; simpl; [by rewrite app_nil_r|].
  rewrite (proj2 (Z.eqb_neq u QUOTE) Hu), andb_false_r, IH. by rewrite <- (assoc_L (++)).
Qed.

Lemma parse_program_whole p rest :
  Forall (fun u => u <> QUOTE) p -> parse_program ([QUOTE] ++ p ++ [QUOTE; SPACE] ++ rest) false [] = (p, rest).
Proof. intros Hp. simpl. by rewrite parse_program_quoted. Qed.

(** Arguments without terminators come back from the command line built for
    them, whatever blanks, quotes and backslashes they contain. *)
Lemma args_os_build program args :
  Forall (fun u => u <> QUOTE /\ u <> 0) program -> Forall (Forall (fun u => u <> 0)) args ->
  args_os (process_command_line program (build_command_line args)) = Some (program :: args).
Proof.
  intros Hp Ha. unfold args_os, process_command_line, build_command_line.
  rewrite !(assoc_L (++)). rewrite until_nul_app.
  2:{ apply Forall_app; split; [|destruct args as [|a args]; [constructor|]].
      - repeat (apply Forall_app; split); [by repeat constructor| |by repeat constructor].
        eapply Forall_impl; [exact Hp|]. by intros u [_ ?].
      - rewrite build_spec. apply Forall_cons in Ha as [? ?].
        apply Forall_app; split; [by apply quoted_nonzero|by apply following_nonzero]. }
  rewrite <- !(assoc_L (++)).
  rewrite (parse_program_whole program) by (eapply Forall_impl; [exact Hp|]; by intros u [? _]).
  fold (parse (advance_while is_blank (foldl append_argument [] args)).2 [] false).
  destruct args as [|a args]; [done|]. rewrite build_spec. pose proof (parse_following a args) as Hf.
  destruct (quoted_head a) as (w & t & Hw & Hb). rewrite Hw in *. cbn [app advance_while] in *.
  rewrite Hb. cbn [snd]. by rewrite Hf.
Qed.

(** C29. The elevated process receives exactly the arguments the command line was
    built from, whatever blanks, quotes and backslashes they contain; building
    is injective, so two different argument lists never share a command line. *)
Theorem command_line_roundtrip program args :
  Forall (fun u => u <> QUOTE /\ u <> 0) program -> Forall (Forall (fun u => u <> 0)) args ->
  args_os (process_command_line program (build_command_line args)) = Some (program :: args) /\
  forall args', Forall (Forall (fun u => u <> 0)) args' -> build_command_line args' = build_command_line args -> args' = args.
Proof.
  intros Hp Ha. split; [by apply args_os_build|]. intros args' Ha' Heq.
  pose proof (args_os_build program args Hp Ha) as H1. pose proof (args_os_build program args' Hp Ha') as H2.
  rewrite Heq in H2. congruence.
Qed.

(** A quote inside, blanks with a trailing backslash, the empty argument, a
    network path. *)
Lemma command_line_roundtrip_witness :
  args_os (process_command_line (as_bytes "C:\t.exe")
    (build_command_line [[97; QUOTE; 98]; as_bytes "C:\path with spaces\"; []; as_bytes "\\host\x"]))
  = Some [as_bytes "C:\t.exe"; [97; QUOTE; 98]; as_bytes "C:\path with spaces\"; []; as_bytes "\\host\x"].
Proof.
  apply (command_line_roundtrip (as_bytes "C:\t.exe") [[97; QUOTE; 98]; as_bytes "C:\path with spaces\"; []; as_bytes "\\host\x"]);
    vm_compute; repeat constructor; discriminate.
Defined.

(** The tests of the source. *)
Example quotes_empty_and_whitespace :
  build_command_line (as_bytes <$> ["--proxy"; "http://127.0.0.1:8080"; ""; "two words"]) =
  as_bytes "--proxy http://127.0.0.1:8080 " ++ [QUOTE; QUOTE; SPACE; QUOTE] ++ as_bytes "two words" ++ [QUOTE; 0].
Proof. reflexivity. Qed.

Example simple_backslashes_unquoted :
  build_command_line [as_bytes "C:\proxy\config.toml"] = as_bytes "C:\proxy\config.toml" ++ [0].
Proof. reflexivity. Qed.
End CommandLine.
