(* ===== verification/Elevation.v ===== *)
(** * Elevation on Windows (src/src/bin/windows_elevation/mod.rs, bin/main.rs)

    The relaunch through the elevation prompt, the console of the elevated
    process, and the use of both at the start of [main].  What the system answers
    is a function of the calls made before; a value that is dropped appends its
    calls on every way out. *)

From S2P Require Import Prelude Net Process TraceSession CommandLine.

Module Elevation.
Import CommandLine.

(** ** Calls of the system *)

(** [SHELLEXECUTEINFOW]: the fields that are set. *)
Record ExecuteInfo := mkExecute {
  fMask : Z;
  lpVerb : list Z;
  lpFile : list Z;
  lpParameters : list Z;
  lpDirectory : option (list Z);
  nShow : Z }.

Inductive Std := StdInput | StdOutput | StdError.

#[export] Instance Std_eq_dec : EqDecision Std.
Proof. solve_decision. Defined.

Inductive WinCall :=
  | OpenProcessToken (token : option Z)
  | GetTokenInformation (token : Z) (elevated : option Z)
  | CloseHandle (h : Z)
  | InstallCtrlC (ok : bool)
  | RemoveCtrlC
  | ShellExecuteExW (info : ExecuteInfo) (process : option Z)
  | WaitForSingleObject (process result : Z)
  | GetExitCodeProcess (process : Z) (code : option Z)
  | FreeConsole
  | AttachConsole (pid : Z) (ok : bool)
  | CreateFileW (name : list Z) (h : option Z)
  | SetStdHandle (which : Std) (h : Z) (ok : bool).

Definition History : Type := list WinCall.

(** The answers; a handle of zero is the null handle. *)
Record Win := mkWin {
  w_token : History -> option Z;
  w_elevation : Z -> History -> option Z;
  w_ctrl_c : History -> bool;
  w_execute : ExecuteInfo -> History -> option Z;
  w_wait : Z -> History -> Z;
  w_exit_code : Z -> History -> option Z;
  w_attach : Z -> History -> bool;
  w_create : list Z -> History -> option Z;
  w_set_std : Std -> Z -> History -> bool;
  current_exe : option OsString;
  current_dir : option OsString;
  process_args : list OsString;
  GetCurrentProcessId : Z }.

Definition last_os_error : IoError := io_other "os error".

Abbreviation W := (M History IoError).

(** A call with its answer. *)
Definition call {A} (answer : History -> A) (event : A -> WinCall) : W A :=
  fun h => let a := answer h in (Ok a, h ++ [event a]).

(** The calls of a value that is dropped when its scope is left. *)
Definition dropping {A} (calls : list WinCall) (m : W A) : W A :=
  fun h => let '(r, h') := m h in (r, h' ++ calls).

(** [Drop] for [OwnedHandle]. *)
Definition drop_handle (h : Z) : list WinCall := if h =? 0 then [] else [CloseHandle h].

Definition SEE_MASK_NOCLOSEPROCESS : Z := 64.
Definition SEE_MASK_NOASYNC : Z := 256.
Definition SEE_MASK_NO_CONSOLE : Z := 32768.
Definition launch_mask : Z := Z.lor (Z.lor SEE_MASK_NOCLOSEPROCESS SEE_MASK_NOASYNC) SEE_MASK_NO_CONSOLE.
Definition SW_HIDE : Z := 0.
Definition SW_SHOWNORMAL : Z := 1.
Definition WAIT_OBJECT_0 : Z := 0.
Definition WAIT_FAILED : Z := 4294967295.

Definition ELEVATED_CONSOLE_PID_ARG : OsString := as_bytes "--elevated-console-pid".

Section win.
Variable w : Win.

(** ** Elevated or not *)

Definition is_elevated : W bool :=
  token ← call (w_token w) OpenProcessToken;
  match token with
  | None => throw last_os_error
  | Some token =>
      dropping (drop_handle token)
        (e ← call (w_elevation w token) (GetTokenInformation token);
         match e with None => throw last_os_error | Some v => mret (negb (v =? 0)) end)
  end.

(** ** Relaunching *)

(** The arguments of this process and the console it owns. *)
Definition relaunch_arguments : list OsString :=
  drop 1 (process_args w) ++ [ELEVATED_CONSOLE_PID_ARG; as_bytes (show_dec (GetCurrentProcessId w))].

Definition execute_info (executable : OsString) (arguments : list OsString) (show : Z) : ExecuteInfo :=
  mkExecute launch_mask (null_terminated (as_bytes "runas")) (null_terminated executable) (build_command_line arguments)
    (null_terminated <$> current_dir w) show.

Definition executable : W OsString :=
  match current_exe w with Some e => mret e | None => throw last_os_error end.

(** Waiting for the elevated process; its handle is closed on every way out. *)
Definition await_child (process : Z) : W Z :=
  dropping (drop_handle process)
    (r ← call (w_wait w process) (WaitForSingleObject process);
     if r =? WAIT_FAILED then throw last_os_error
     else if negb (r =? WAIT_OBJECT_0) then throw (io_other "unexpected elevated process wait result")
     else
       c ← call (w_exit_code w process) (GetExitCodeProcess process);
       match c with None => throw last_os_error | Some c => mret c end).

Definition relaunch_if_needed : W (option Z) :=
  e ← is_elevated;
  if (e : bool) then mret None
  else
    exe ← executable;
    let info := execute_info exe relaunch_arguments SW_HIDE in
    installed ← call (w_ctrl_c w) InstallCtrlC;
    if negb installed then throw last_os_error
    else
      dropping [RemoveCtrlC]
        (p ← call (w_execute w info) (ShellExecuteExW info);
         match p with
         | None => throw last_os_error
         | Some process =>
             if process =? 0 then throw (io_other "the elevated process did not return a process handle")
             else c ← await_child process; mret (Some c)
         end).

(** The desktop variant: it does not wait. *)
Definition relaunch_gui_elevated (arguments : list OsString) : W unit :=
  exe ← executable;
  let info := execute_info exe arguments SW_SHOWNORMAL in
  p ← call (w_execute w info) (ShellExecuteExW info);
  match p with
  | None => throw last_os_error
  | Some process =>
      if process =? 0 then throw (io_other "the elevated GUI process did not return a process handle")
      else dropping (drop_handle process) (mret tt)
  end.

(** ** The console of the elevated process *)

Definition set_std (which : Std) (h : Z) : W bool := call (w_set_std w which h) (SetStdHandle which h).

(** [a != 0 && b != 0 && c != 0]: a failure skips the calls behind it. *)
Definition set_handles (input output : Z) : W bool :=
  a ← set_std StdInput input;
  if negb a then mret false
  else b ← set_std StdOutput output; if negb b then mret false else set_std StdError output.

Definition emit (calls : list WinCall) : W unit := fun h => (Ok tt, h ++ calls).

Definition reconnect_standard_handles : W unit :=
  input ← call (w_create w (null_terminated (as_bytes "CONIN$"))) (CreateFileW (null_terminated (as_bytes "CONIN$")));
  match input with
  | None => throw last_os_error
  | Some input =>
      output ← call (w_create w (null_terminated (as_bytes "CONOUT$"))) (CreateFileW (null_terminated (as_bytes "CONOUT$")));
      match output with
      | None => emit [CloseHandle input];; throw last_os_error
      | Some output =>
          set ← set_handles input output;
          if negb set then emit [CloseHandle input; CloseHandle output];; throw last_os_error else mret tt
      end
  end.

Definition attach_to_parent_console (parent_pid : Z) : W unit :=
  emit [FreeConsole];;
  ok ← call (w_attach w parent_pid) (AttachConsole parent_pid);
  if negb ok then throw last_os_error else reconnect_standard_handles.

(** ** The start of [main] *)

(** The options [main] reads before it starts a session. *)
Record Options := mkOptions { elevated_console_pid : option Z; setup : bool; daemonize : bool }.

(** [u32 as i32]. *)
Definition as_i32 (code : Z) : Z := if code <? 2147483648 then code else code - 4294967296.

(** The exit code when this process only waited for the elevated one. *)
Definition elevate (args : Options) : W (option Z) :=
  match elevated_console_pid args with Some pid => attach_to_parent_console pid | None => mret tt end;;
  if setup args then c ← relaunch_if_needed; mret (as_i32 <$> c) else mret None.
End win.

(** ** What is held *)

Inductive Resource := RHandle (h : Z) | RCtrlC.

#[export] Instance Resource_eq_dec : EqDecision Resource.
Proof. solve_decision. Defined.

Fixpoint release (x : Resource) (l : list Resource) : list Resource :=
  match l with [] => [] | y :: l' => if decide (x = y) then l' else y :: release x l' end.

Definition acquire (h : Z) (l : list Resource) : list Resource := if h =? 0 then l else RHandle h :: l.

Definition hold (l : list Resource) (c : WinCall) : list Resource :=
  match c with
  | OpenProcessToken (Some h) | ShellExecuteExW _ (Some h) | CreateFileW _ (Some h) => acquire h l
  | CloseHandle h => release (RHandle h) l
  | InstallCtrlC true => RCtrlC :: l
  | RemoveCtrlC => release RCtrlC l
  | _ => l
  end.

Definition held (h : History) : list Resource := foldl hold [] h.

(** The standard handles set by these calls. *)
Definition set_by (f : Std -> option Z) (c : WinCall) : Std -> option Z :=
  match c with SetStdHandle s h true => fun t => if decide (t = s) then Some h else f t | _ => f end.

Definition std_handles (h : History) : Std -> option Z := foldl set_by (fun _ => None) h.

Definition launches (h : History) : list ExecuteInfo :=
  omap (fun c => match c with ShellExecuteExW info (Some _) => Some info | _ => None end) h.

(** ** Proofs *)

Lemma handles_held_app h1 h2 : held (h1 ++ h2) = foldl hold (held h1) h2.
Proof. unfold held. by rewrite foldl_app. Qed.

Lemma release_hit x l : release x (x :: l) = l.
Proof. simpl. by rewrite decide_True. Qed.

Lemma release_acquire h l : foldl hold (acquire h l) (drop_handle h) = l.
Proof.
  unfold drop_handle, acquire. destruct (h =? 0); [done|]. cbn [foldl hold]. apply release_hit.
Qed.

(** A computation that adds calls after which the same is held. *)
Definition neutral {A} (m : W A) : Prop :=
  forall h, exists calls, (m h).2 = h ++ calls /\ (forall l, foldl hold l calls = l) /\ (m h).1 <> Panic.

Lemma call_app {A} (f : History -> A) ev h : call f ev h = (Ok (f h), h ++ [ev (f h)]).
Proof. done. Qed.

Lemma neutral_call {A} (f : History -> A) ev : (forall a l, hold l (ev a) = l) -> neutral (call f ev).
Proof. intros H h. exists [ev (f h)]. split_and!; [done|intros l; apply H|done]. Qed.

Lemma neutral_ret {A} (a : A) : neutral (mret a).
Proof. intros h. exists []. by rewrite app_nil_r. Qed.

Lemma neutral_throw {A} e : neutral (throw e : W A).
Proof. intros h. exists []. by rewrite app_nil_r. Qed.

Lemma neutral_bind {A B} (m : W A) (k : A -> W B) : neutral m -> (forall a, neutral (k a)) -> neutral (a ← m; k a).
Proof.
  intros Hm Hk h. destruct (Hm h) as (c1 & H1 & H2 & H3). unfold mbind, M_bind. destruct (m h) as [[a|e|] h1]; simpl in *; subst.
  - destruct (Hk a (h ++ c1)) as (c2 & -> & H4 & H5). exists (c1 ++ c2). split_and!; [by rewrite (assoc_L (++))| |done].
    intros l. by rewrite foldl_app, H2.
  - exists c1. by split_and!.
  - done.
Qed.

(** A resource taken by a call and given back when the scope is left. *)
Lemma neutral_scope {A B} (f : History -> A) ev (take : A -> list Resource -> list Resource) (give : A -> list WinCall) (k : A -> W B) :
  (forall a l, hold l (ev a) = take a l) -> (forall a l, foldl hold (take a l) (give a) = l) ->
  (forall a, neutral (k a)) -> neutral (a ← call f ev; dropping (give a) (k a)).
Proof.
  intros Ht Hg Hk h. unfold mbind, M_bind, call, dropping. set (a := f h).
  destruct (Hk a (h ++ [ev a])) as (c & H1 & H2 & H3). destruct (k a (h ++ [ev a])) as [r h1]. simpl in *. subst h1.
  exists ([ev a] ++ c ++ give a). split_and!; [by rewrite <- !(assoc_L (++))| |done].
  intros l. simpl. rewrite foldl_app, H2, Ht. apply Hg.
Qed.

Lemma neutral_ext {A} (m m' : W A) : (forall h, m h = m' h) -> neutral m -> neutral m'.
Proof. intros He Hm h. rewrite <- He. apply Hm. Qed.

#[local] Hint Resolve neutral_ret neutral_throw : core.

Section proofs.
Variable w : Win.

Lemma is_elevated_neutral : neutral (is_elevated w).
Proof.
  eapply (neutral_ext (a ← call (w_token w) OpenProcessToken;
    dropping (match a with Some t => drop_handle t | None => [] end)
      (match a with
       | None => throw last_os_error
       | Some token => e ← call (w_elevation w token) (GetTokenInformation token);
           match e with None => throw last_os_error | Some v => mret (negb (v =? 0)) end
       end))).
  - intros h. unfold is_elevated, mbind, M_bind, call, dropping. destruct (w_token w h); [done|]. simpl. by rewrite app_nil_r.
  - apply (neutral_scope _ _ (fun a l => match a with Some t => acquire t l | None => l end)).
    + by intros [|] l.
    + intros [t|] l; [apply release_acquire|done].
    + intros [t|]; [|auto]. apply neutral_bind; [by apply neutral_call|]. intros [v|]; auto.
Qed.

Lemma relaunch_neutral : neutral (relaunch_if_needed w).
Proof.
  apply neutral_bind; [apply is_elevated_neutral|]. intros [|]; [auto|].
  apply neutral_bind; [unfold executable; destruct (current_exe w); auto|]. intros exe.
  set (info := execute_info w exe (relaunch_arguments w) SW_HIDE).
  set (body := p ← call (w_execute w info) (ShellExecuteExW info);
         match p with
         | None => throw last_os_error
         | Some process =>
             if process =? 0 then throw (io_other "the elevated process did not return a process handle")
             else c ← await_child w process; mret (Some c)
         end).
  apply (neutral_ext (i ← call (w_ctrl_c w) InstallCtrlC; dropping (if i : bool then [RemoveCtrlC] else [])
    (if i then body else throw last_os_error))).
  { intros h. unfold mbind, M_bind, call, dropping. destruct (w_ctrl_c w h); [done|]. simpl. by rewrite app_nil_r. }
  apply (neutral_scope _ _ (fun (a : bool) l => if a then RCtrlC :: l else l)).
  - by intros [|] l.
  - intros [|] l; [|done]. apply release_hit.
  - intros [|]; [|auto]. unfold body. clear body.
    set (wait process := (r ← call (w_wait w process) (WaitForSingleObject process);
       if r =? WAIT_FAILED then throw last_os_error
       else if negb (r =? WAIT_OBJECT_0) then throw (io_other "unexpected elevated process wait result")
       else
         c ← call (w_exit_code w process) (GetExitCodeProcess process);
         match c with None => throw last_os_error | Some c => mret (Some c) end) : W (option Z)).
    apply (neutral_ext (p ← call (w_execute w info) (ShellExecuteExW info);
      dropping (match p with Some q => drop_handle q | None => [] end)
        (match p with
         | None => throw last_os_error
         | Some q => if q =? 0 then throw (io_other "the elevated process did not return a process handle") else wait q
         end))).
    + intros h. unfold wait, await_child, mbind, M_bind, call, dropping, throw, mret, M_ret. cbv beta zeta.
      destruct (w_execute w info h) as [q|]; [|by rewrite app_nil_r].
      destruct (q =? 0) eqn:Eq; [unfold drop_handle; rewrite Eq; by rewrite app_nil_r|].
      by repeat case_match; simplify_eq.
    + apply (neutral_scope _ _ (fun a l => match a with Some t => acquire t l | None => l end)).
      * by intros [|] l.
      * intros [t|] l; [apply release_acquire|done].
      * intros [t|]; [|auto]. destruct (t =? 0); [auto|]. apply neutral_bind; [by apply neutral_call|]. intros r.
        destruct (r =? WAIT_FAILED); [auto|]. destruct (r =? WAIT_OBJECT_0); simpl; [|auto].
        apply neutral_bind; [by apply neutral_call|]. intros [c|]; auto.
Qed.

(** The calls of the check. *)
Definition token_calls (t v : Z) : History := [OpenProcessToken (Some t); GetTokenInformation t (Some v)] ++ drop_handle t.

(** What [relaunch_if_needed] has called, by its result. *)
Definition relaunched (r : res IoError (option Z)) (calls : History) : Prop :=
  match r with
  | Ok None => exists t v, v <> 0 /\ calls = token_calls t v
  | Ok (Some c) =>
      exists t exe p, current_exe w = Some exe /\ p <> 0 /\
        calls = token_calls t 0 ++
          [InstallCtrlC true; ShellExecuteExW (execute_info w exe (relaunch_arguments w) SW_HIDE) (Some p);
           WaitForSingleObject p WAIT_OBJECT_0; GetExitCodeProcess p (Some c); CloseHandle p; RemoveCtrlC]
  | Err _ => True
  | Panic => False
  end.

(** The only process that is launched. *)
Definition launched (l : list ExecuteInfo) : Prop :=
  l = [] \/ exists exe, current_exe w = Some exe /\ l = [execute_info w exe (relaunch_arguments w) SW_HIDE].

Lemma launches_app a b : launches (a ++ b) = launches a ++ launches b.
Proof. apply omap_app. Qed.

Lemma launches_drop h : launches (drop_handle h) = [].
Proof. unfold drop_handle. by destruct (h =? 0). Qed.

(** The result and the calls of the check. *)
Lemma is_elevated_calls h :
  exists calls, (is_elevated w h).2 = h ++ calls /\ launches calls = [] /\
  match (is_elevated w h).1 with
  | Ok b => exists t v, calls = token_calls t v /\ b = negb (v =? 0)
  | Err _ => True
  | Panic => False
  end.
Proof.
  unfold is_elevated, mbind, M_bind, call, dropping, token_calls. destruct (w_token w h) as [t|]; simpl.
  2:{ by eexists. }
  destruct (w_elevation w t _) as [v|]; simpl; rewrite <- !(assoc_L (++)); simpl.
  - eexists. split_and!; [done| |by exists t, v]. simpl. apply launches_drop.
  - eexists. split_and!; [done| |done]. simpl. apply launches_drop.
Qed.

Lemma await_child_calls p h :
  p <> 0 ->
  exists calls, (await_child w p h).2 = h ++ calls /\ launches calls = [] /\
  match (await_child w p h).1 with
  | Ok c => calls = [WaitForSingleObject p WAIT_OBJECT_0; GetExitCodeProcess p (Some c); CloseHandle p]
  | Err _ => True
  | Panic => False
  end.
Proof.
  intros Hp. unfold await_child, mbind, M_bind, call, dropping, throw, mret, M_ret, drop_handle.
  rewrite (proj2 (Z.eqb_neq p 0) Hp). cbv beta zeta. set (r := w_wait w p h).
  destruct (r =? WAIT_FAILED); simpl; rewrite <- ?(assoc_L (++)); [by eexists|].
  destruct (Z.eqb_spec r WAIT_OBJECT_0) as [Hr|]; simpl; [|rewrite <- ?(assoc_L (++)); by eexists].
  rewrite Hr. destruct (w_exit_code w p _) as [c|]; simpl; rewrite <- !(assoc_L (++)); by eexists.
Qed.

Lemma relaunch_calls h :
  exists calls, (relaunch_if_needed w h).2 = h ++ calls /\ relaunched (relaunch_if_needed w h).1 calls /\ launched (launches calls).
Proof.
  unfold relaunch_if_needed, mbind, M_bind.
  destruct (is_elevated_calls h) as (c0 & H0 & Hl0 & Hr). destruct (is_elevated w h) as [[b|e|] h0]; simpl in *; subst.
  2:{ exists c0. by split_and!; [| |left]. }
  2:{ done. }
  destruct Hr as (t & v & -> & ->). destruct (Z.eqb_spec v 0) as [->|Hv]; simpl.
  2:{ eexists. split_and!; [done|by exists t, v|by left]. }
  unfold executable. destruct (current_exe w) as [exe|] eqn:Ee; simpl.
  2:{ eexists. by split_and!; [| |left]. }
  destruct (w_ctrl_c w _); simpl.
  2:{ rewrite <- (assoc_L (++)). eexists. split_and!; [done|done|left]. by rewrite launches_app, Hl0. }
  unfold dropping, call. set (info := execute_info w exe (relaunch_arguments w) SW_HIDE).
  set (h1 := (h ++ token_calls t 0) ++ [InstallCtrlC true]).
  destruct (w_execute w info h1) as [p|]; simpl.
  2:{ unfold h1. rewrite <- !(assoc_L (++)). eexists. split_and!; [done|done|left]. by rewrite launches_app, Hl0. }
  assert (Hone : forall rest, launches rest = [] -> launched (launches (token_calls t 0 ++ [InstallCtrlC true; ShellExecuteExW info (Some p)] ++ rest))).
  { intros rest Hrest. right. exists exe. split; [done|]. rewrite launches_app, Hl0. simpl. by rewrite Hrest. }
  destruct (Z.eqb_spec p 0) as [->|Hp]; simpl.
  { unfold h1. rewrite <- !(assoc_L (++)). eexists. by split_and!; [| |apply (Hone [RemoveCtrlC])]. }
  destruct (await_child_calls p (h1 ++ [ShellExecuteExW info (Some p)]) Hp) as (c1 & H1 & Hl1 & Hc).
  destruct (await_child w p _) as [[c|e|] h2]; simpl in *; subst; [| |done];
    unfold h1; rewrite <- !(assoc_L (++)); eexists; (split_and!; [done| |]).
  - by exists t, exe, p.
  - by apply (Hone [WaitForSingleObject p WAIT_OBJECT_0; GetExitCodeProcess p (Some c); CloseHandle p; RemoveCtrlC]).
  - done.
  - apply (Hone (c1 ++ [RemoveCtrlC])). by rewrite launches_app, Hl1.
Qed.

Hypothesis args_law : Forall (Forall (fun u => u <> 0)) (process_args w).
Hypothesis exe_law : forall exe, current_exe w = Some exe -> Forall (fun u => u <> QUOTE /\ u <> 0) exe.
Hypothesis pid_law : 0 <= GetCurrentProcessId w <= TraceSession.u32_max.

Lemma relaunch_arguments_law : Forall (Forall (fun u => u <> 0)) (relaunch_arguments w).
Proof.
  unfold relaunch_arguments. apply Forall_app. split; [by apply Forall_drop|].
  apply Forall_cons; split; [by repeat constructor|]. apply Forall_singleton.
  eapply Forall_impl; [eapply TraceSession.digits_forall, (TraceSession.digits_shown _ _ pid_law)|]. simpl. lia.
Qed.

(** C28. Relaunching, whatever the system answers: no handle and no console handler
    stays behind, and at most one process is launched.  An elevated process
    launches none.  A result with an exit code is that of the process launched,
    after it ended, and this process received exactly the arguments of its
    parent followed by the parent's identifier. *)
Theorem elevation_relaunch h :
  exists calls, (relaunch_if_needed w h).2 = h ++ calls /\ held (h ++ calls) = held h /\
    relaunched (relaunch_if_needed w h).1 calls /\ (length (launches calls) <= 1)%nat /\
    forall info exe, info ∈ launches calls -> current_exe w = Some exe ->
      lpFile info = null_terminated exe /\
      args_os (process_command_line exe (lpParameters info)) =
        Some (exe :: drop 1 (process_args w) ++ [ELEVATED_CONSOLE_PID_ARG; as_bytes (show_dec (GetCurrentProcessId w))]).
Proof.
  destruct (relaunch_calls h) as (calls & Hh & Hr & Hl). exists calls. split_and!; [done| |done| |].
  - destruct (relaunch_neutral h) as (calls' & Hh' & Hn & _). rewrite Hh in Hh'. simplify_list_eq.
    by rewrite handles_held_app, Hn.
  - by destruct Hl as [-> | (exe & _ & ->)]; simpl; lia.
  - intros info exe Hin He. destruct Hl as [Hl | (exe' & He' & Hl)]; rewrite Hl in Hin; [by apply elem_of_nil in Hin|].
    apply list_elem_of_singleton in Hin as ->. simplify_eq. split; [done|].
    apply args_os_build; [by apply exe_law|apply relaunch_arguments_law].
Qed.

(** ** The console *)

Lemma set_handles_calls i o h :
  exists calls, (set_handles w i o h).2 = h ++ calls /\ (forall l, foldl hold l calls = l) /\
  match (set_handles w i o h).1 with
  | Ok true => calls = [SetStdHandle StdInput i true; SetStdHandle StdOutput o true; SetStdHandle StdError o true]
  | Ok false => True
  | _ => False
  end.
Proof.
  unfold set_handles, set_std, mbind, M_bind, call. cbv beta zeta iota.
  destruct (w_set_std w StdInput i h); simpl; [|by eexists].
  destruct (w_set_std w StdOutput o _); simpl; rewrite <- ?(assoc_L (++)); [|by eexists].
  destruct (w_set_std w StdError o _); simpl; by eexists.
Qed.

(** A handle of a file is never null. *)
Hypothesis create_law : forall name h, w_create w name h <> Some 0.

(** The elevated process takes over the console of its parent before anything
    else: the standard handles then are the console's, opened and still open.
    When any step fails, no handle it opened stays open. *)
Lemma attach_spec pid h :
  let '(r, h') := attach_to_parent_console w pid h in
  match r with
  | Ok _ => exists i o, std_handles h' StdInput = Some i /\ std_handles h' StdOutput = Some o /\
      std_handles h' StdError = Some o /\ held h' = RHandle o :: RHandle i :: held h
  | Err _ => held h' = held h
  | Panic => False
  end.
Proof.
  unfold attach_to_parent_console, emit, mbind, M_bind, call. cbv beta zeta iota.
  destruct (w_attach w pid _); simpl; [|by rewrite <- !(assoc_L (++)), handles_held_app].
  set (h1 := (h ++ [FreeConsole]) ++ [AttachConsole pid true]).
  assert (Hh1 : held h1 = held h) by (unfold h1; by rewrite !handles_held_app).
  unfold reconnect_standard_handles, mbind, M_bind, call, emit, throw. cbv beta zeta iota.
  destruct (w_create w _ h1) as [i|] eqn:Ei; simpl; [|by rewrite handles_held_app].
  assert (Hi : i <> 0) by (intros ->; by eapply create_law). set (h2 := h1 ++ _).
  assert (Hh2 : held h2 = RHandle i :: held h).
  { unfold h2. rewrite handles_held_app, Hh1. simpl. unfold acquire. by rewrite (proj2 (Z.eqb_neq i 0) Hi). }
  destruct (w_create w _ h2) as [o|] eqn:Eo; simpl.
  2:{ rewrite !handles_held_app, Hh2. cbn [foldl hold]. apply release_hit. }
  assert (Ho : o <> 0) by (intros ->; by eapply create_law). set (h3 := h2 ++ _).
  assert (Hh3 : held h3 = RHandle o :: RHandle i :: held h).
  { unfold h3. rewrite handles_held_app, Hh2. simpl. unfold acquire. by rewrite (proj2 (Z.eqb_neq o 0) Ho). }
  destruct (set_handles_calls i o h3) as (cs & H1 & H2 & H3). destruct (set_handles w i o h3) as [[[|]|e|] h4]; simpl in *; subst; try done.
  - exists i, o. split_and!; [..|by rewrite handles_held_app, H2]; unfold std_handles; by rewrite foldl_app.
  - rewrite !handles_held_app, H2, Hh3. cbn [foldl hold release].
    destruct (decide (RHandle i = RHandle o)) as [He|He]; cbn [release]; repeat (case_decide; simplify_eq; try done).
Qed.
End proofs.

(** ** Concrete systems *)

(** A process that is not elevated and whose child exits with this code. *)
Definition example_win (elevated code : Z) (third : bool) : Win :=
  mkWin (fun _ => Some 11) (fun _ _ => Some elevated) (fun _ => true) (fun _ _ => Some 12) (fun _ _ => 0) (fun _ _ => Some code)
    (fun _ _ => true) (fun n _ => Some (len n)) (fun s _ _ => match s with StdError => third | _ => true end)
    (Some (as_bytes "C:\t.exe")) None [as_bytes "t.exe"; as_bytes "--setup"; as_bytes "a b"] 4321.

Lemma elevation_relaunch_witness :
  let w := example_win 0 3 true in
  (relaunch_if_needed w []).1 = Ok (Some 3) /\ held (relaunch_if_needed w []).2 = [] /\
  exists info, launches (relaunch_if_needed w []).2 = [info] /\
  args_os (process_command_line (as_bytes "C:\t.exe") (lpParameters info)) =
    Some (as_bytes <$> ["C:\t.exe"; "--setup"; "a b"; "--elevated-console-pid"; "4321"]).
Proof.
  intros w. split; [reflexivity|].
  destruct (elevation_relaunch w) with (h := [] : History) as (calls & Hc & Hh & _ & _ & Hl).
  - vm_compute. repeat constructor; discriminate.
  - intros exe [= <-]. vm_compute. repeat constructor; discriminate.
  - vm_compute. split; discriminate.
  - rewrite Hc. split; [exact Hh|]. simpl in Hc. subst calls.
    exists (execute_info w (as_bytes "C:\t.exe") (relaunch_arguments w) SW_HIDE). split; [reflexivity|].
    refine (proj2 (Hl _ (as_bytes "C:\t.exe") _ _)); [left|reflexivity].
Defined.

(** When the last of the three calls fails, the standard input and output of
    the process are handles that have been closed. *)
Example standard_handles_dangle :
  let '(r, h) := attach_to_parent_console (example_win 1 0 false) 7 [] in
  is_ok r = false /\ std_handles h StdInput = Some 7 /\ std_handles h StdOutput = Some 8 /\ held h = [].
Proof. vm_compute. done. Qed.

(** An elevated process with a console of its parent attaches and goes on. *)
Example elevated_child_continues :
  (elevate (example_win 1 0 true) (mkOptions (Some 4321) true false) []).1 = Ok None.
Proof. reflexivity. Qed.

(** The exit code is that of the child, also for a negative one. *)
Example exit_code_passed :
  (elevate (example_win 0 4294967295 true) (mkOptions None true false) []).1 = Ok (Some (-1)).
Proof. reflexivity. Qed.
End Elevation.
