(* ===== verification/UdpTable.v ===== *)
(** * The owner table of UDP sockets (src/src/process/windows_udp.rs)

    Reading the table of the operating system: the buffer that grows until the
    table fits, the bounds of the rows in it, and the fields of a row.  A buffer
    is its bytes; a read outside of it has no defined result and is a panic here,
    so a theorem without panics is a theorem of memory safety. *)

From S2P Require Import Prelude Net Process ProcessMatch QueryOrigins TraceSync TraceSyncProofs.

Module UdpTable.
Import ProcessMatch.

(** ** The buffer *)

Definition MAX_BYTES : Z := 32 * 1024 * 1024.

(** One answer of [GetExtendedUdpTable]: success with the size used and the
    bytes written, "buffer too small" with the size wanted, another error. *)
Inductive TableAnswer := TableOk (size : Z) (written : list Z) | TooSmall (size : Z) | TableError (e : IoError).

(** The length in 64-bit words of the new buffer. *)
Definition grown_words (size : Z) : Z :=
  (Z.min (size + Z.max (size / 2) 4096) MAX_BYTES + 7) / 8.

(** [Vec::resize] with zero. *)
Definition resize (n : nat) (buffer : list Z) : list Z := take n (buffer ++ replicate n 0).

(** The bytes the call leaves in the buffer. *)
Definition overwrite (written buffer : list Z) : list Z :=
  take (length buffer) written ++ drop (length written) buffer.

Section table.
(** The answer to the n-th call with a buffer of this many bytes. *)
Variable ask : nat -> Z -> TableAnswer.

Fixpoint table_loop (tries : nat) (n : nat) (buffer : list Z) : res IoError (list Z * Z) :=
  match tries with
  | O => Err (io_other "UDP owner table kept changing")
  | S tries' =>
      match ask n (len buffer) with
      | TableOk size written => Ok (overwrite written buffer, size)
      | TableError e => Err e
      | TooSmall size =>
          if MAX_BYTES <? size then Err (io_other "UDP owner table exceeds size limit")
          else table_loop tries' (S n) (resize (Z.to_nat (grown_words size * 8)) buffer)
      end
  end.

Definition table : res IoError (list Z * Z) := table_loop 4 0 [].
End table.

(** ** Rows *)

Definition slice (pos n : nat) (l : list Z) : list Z := take n (drop pos l).

(** A read of [n] bytes at [pos]. *)
Definition read (pos n : nat) (l : list Z) : res IoError (list Z) :=
  if (length l <? pos + n)%nat then Panic else Ok (slice pos n l).

(** The rows one after the other. *)
Fixpoint read_rows (count : nat) (pos row_size : nat) (buffer : list Z) : res IoError (list (list Z)) :=
  match count with
  | O => Ok []
  | S count' => r ← read pos row_size buffer; rs ← read_rows count' (pos + row_size) row_size buffer; Ok (r :: rs)
  end.

Definition rows (row_size offset : nat) (buffer : list Z) (size : Z) : res IoError (list (list Z)) :=
  if (size <? Z.of_nat offset) || (len buffer <? size) || (offset <? 4)%nat then Err (io_of_kind InvalidData)
  else
    c ← read 0 4 buffer;
    let count := QueryOrigins.of_le c in
    if (size - Z.of_nat offset) / Z.of_nat row_size <? count then Err (io_of_kind InvalidData)
    else read_rows (Z.to_nat count) offset row_size buffer.

(** The layouts of the rows: [MIB_UDPROW_OWNER_MODULE] and its IPv6 variant. *)
Definition TABLE_OFFSET : nat := 8.
Definition ROW4_SIZE : nat := 160.
Definition ROW6_SIZE : nat := 176.

(** [u16::from_be(x as u16)]. *)
Definition from_be16 (x : Z) : Z := (x mod 256) * 256 + (x / 256) mod 256.

Definition u32_at (pos : nat) (row : list Z) : Z := QueryOrigins.of_le (slice pos 4 row).

(** [i64]. *)
Definition i64_at (pos : nat) (row : list Z) : Z :=
  let v := QueryOrigins.of_le (slice pos 8 row) in if v <? 2 ^ 63 then v else v - 2 ^ 64.

Definition entry4 (row : list Z) : SocketEntry :=
  udp_entry (mkSA (V4 (of_be_bytes (slice 0 4 row))) (from_be16 (u32_at 4 row mod 65536))) (u32_at 8 row) (i64_at 16 row).

Definition entry6 (row : list Z) : SocketEntry :=
  udp_entry (mkSA (V6 (of_be_bytes (slice 0 16 row))) (from_be16 (u32_at 20 row mod 65536))) (u32_at 24 row) (i64_at 32 row).

(** [snapshot]: the IPv4 table, then the IPv6 table. *)
Definition snapshot (ask4 ask6 : nat -> Z -> TableAnswer) : res IoError (list SocketEntry) :=
  '(buffer, size) ← table ask4;
  ipv4 ← rows ROW4_SIZE TABLE_OFFSET buffer size;
  '(buffer, size) ← table ask6;
  ipv6 ← rows ROW6_SIZE TABLE_OFFSET buffer size;
  Ok ((entry4 <$> ipv4) ++ (entry6 <$> ipv6)).

(** ** Bounds *)

Lemma length_resize n b : length (resize n b) = n.
Proof. unfold resize. rewrite length_take, length_app, length_replicate. lia. Qed.

Lemma length_overwrite w b : (length w <= length b)%nat -> length (overwrite w b) = length b.
Proof. intros H. unfold overwrite. rewrite length_app, length_take, length_drop. lia. Qed.

Lemma table_loop_safe ask tries n b : table_loop ask tries n b <> Panic.
Proof. revert n b. induction tries as [|t IH]; intros n b; simpl; [done|]. by repeat case_match. Qed.

Lemma read_rows_spec count pos rs b :
  (pos + count * rs <= length b)%nat ->
  read_rows count pos rs b = Ok ((fun i => slice (pos + i * rs) rs b) <$> seq 0 count).
Proof.
  revert pos. induction count as [|c IH]; intros pos Hl; [done|]. cbn [read_rows]. unfold read.
  destruct (Nat.ltb_spec (length b) (pos + rs)); [simpl in Hl; lia|]. cbn [mbind res_bind].
  rewrite IH by (simpl in Hl; lia). cbn [mbind res_bind seq fmap list_fmap]. do 2 f_equal; [f_equal; lia|].
  rewrite <- seq_shift, <- list_fmap_compose. apply list_fmap_ext. intros i x _. simpl. f_equal. lia.
Qed.

(** Every row that is read lies inside the bytes the system reported, and the
    bytes inside the buffer. *)
Lemma rows_safe rs off b size : (0 < rs)%nat -> rows rs off b size <> Panic.
Proof.
  intros Hrs. unfold rows. destruct ((size <? Z.of_nat off) || (len b <? size) || (off <? 4)%nat) eqn:E; [done|]. b2p.
  unfold len in *. unfold read at 1. destruct (Nat.ltb_spec (length b) (0 + 4)); [lia|]. cbn [mbind res_bind].
  set (count := QueryOrigins.of_le _). destruct (Z.ltb_spec ((size - Z.of_nat off) / Z.of_nat rs) count) as [|Hc]; [done|].
  assert (Hm : (size - Z.of_nat off) / Z.of_nat rs * Z.of_nat rs <= size - Z.of_nat off) by (rewrite Z.mul_comm; apply Z.mul_div_le; lia).
  rewrite read_rows_spec; [done|]. destruct (Z.leb_spec count 0); [rewrite Z2Nat.nonpos by lia; lia|]. nia.
Qed.

(** ** What the system wrote *)

(** A row as the system writes it: address and port in network order, the rest
    in the order of the machine; the other fields are arbitrary. *)
Record Row := mkRow { r_ip : IpAddr; r_port : Z; r_pid : Z; r_bound : Z; r_junk : list Z }.

Definition encode_row (r : Row) : list Z :=
  match r_ip r with
  | V4 n => be_bytes 4 n ++ be16 (r_port r) ++ take 2 (r_junk r) ++ TraceSync.le_bytes 4 (r_pid r) ++ take 4 (drop 2 (r_junk r)) ++
            TraceSync.le_bytes 8 (r_bound r mod 2 ^ 64) ++ take 136 (drop 6 (r_junk r))
  | V6 n => be_bytes 16 n ++ take 4 (drop 142 (r_junk r)) ++ be16 (r_port r) ++ take 2 (r_junk r) ++ TraceSync.le_bytes 4 (r_pid r) ++
            take 4 (drop 2 (r_junk r)) ++ TraceSync.le_bytes 8 (r_bound r mod 2 ^ 64) ++ take 136 (drop 6 (r_junk r))
  end.

Definition row_wf (r : Row) : Prop :=
  ip_wf (r_ip r) /\ is_u16 (r_port r) /\ 0 <= r_pid r < 2 ^ 32 /\ - 2 ^ 63 <= r_bound r < 2 ^ 63 /\
  length (r_junk r) = 146%nat /\ Forall is_u8 (r_junk r).

Definition row_size (v6 : bool) : nat := if v6 then ROW6_SIZE else ROW4_SIZE.

(** The whole table of one family. *)
Definition encode_table (rs : list Row) : list Z :=
  TraceSync.le_bytes 4 (len rs) ++ [0; 0; 0; 0] ++ concat (encode_row <$> rs).

Definition entry_of_row (r : Row) : SocketEntry := udp_entry (mkSA (r_ip r) (r_port r)) (r_pid r) (r_bound r).

(** A field behind other fields. *)
Lemma slice_app pos n a b c : length a = pos -> length b = n -> slice pos n (a ++ b ++ c) = b.
Proof. intros <- <-. unfold slice. by rewrite drop_app_length, take_app_length. Qed.

Lemma port_read p x y : is_u16 p -> from_be16 (QueryOrigins.of_le (be16 p ++ [x; y]) mod 65536) = p.
Proof.
  unfold is_u16, from_be16, QueryOrigins.of_le, be16. intros Hp. cbn [app foldr].
  set (hi := (p / 256) mod 256). set (lo := p mod 256).
  assert (Hhi : hi = p / 256) by (apply Z.mod_small; split; [apply Z.div_pos|apply Z.div_lt_upper_bound]; lia).
  assert (Hlo : 0 <= lo < 256) by (apply Z.mod_pos_bound; lia).
  assert (Hh : 0 <= hi < 256) by (apply Z.mod_pos_bound; lia).
  replace (hi + 256 * (lo + 256 * (x + 256 * (y + 256 * 0)))) with (hi + 256 * lo + (x + 256 * y) * 65536) by lia.
  rewrite Z.mod_add by lia. rewrite (Z.mod_small (hi + 256 * lo)) by lia.
  replace (hi + 256 * lo) with (hi + lo * 256) by lia. rewrite Z.mod_add, Z.div_add by lia.
  rewrite (Z.mod_small hi), (Z.div_small hi) by lia. simpl. rewrite Z.mod_small by lia.
  pose proof (Z.div_mod p 256). unfold lo. lia.
Qed.

Lemma bound_read b : - 2 ^ 63 <= b < 2 ^ 63 -> (let v := b mod 2 ^ 64 in if v <? 2 ^ 63 then v else v - 2 ^ 64) = b.
Proof.
  intros Hb. cbv zeta. destruct (Z.ltb_spec b 0).
  - rewrite <- (Z.mod_add b 1) by lia. rewrite Z.mod_small by lia. destruct (Z.ltb_spec (b + 1 * 2 ^ 64) (2 ^ 63)); lia.
  - rewrite Z.mod_small by lia. destruct (Z.ltb_spec b (2 ^ 63)); lia.
Qed.

Lemma slice_at pos n l a b c : l = a ++ b ++ c -> length a = pos -> length b = n -> slice pos n l = b.
Proof. intros ->. apply slice_app. Qed.

Lemma junk_block (j : list Z) a n : (a + n <= length j)%nat -> length (take n (drop a j)) = n.
Proof. intros H. rewrite length_take, length_drop. lia. Qed.

Lemma take_two (j : list Z) : (2 <= length j)%nat -> exists x y, take 2 j = [x; y].
Proof. destruct j as [|x [|y j]]; simpl; [lia|lia|]. by exists x, y. Qed.

(** Both layouts: what follows the address and the scope. *)
Definition tail_fields (r : Row) : list Z :=
  (be16 (r_port r) ++ take 2 (r_junk r)) ++ TraceSync.le_bytes 4 (r_pid r) ++ take 4 (drop 2 (r_junk r)) ++
  TraceSync.le_bytes 8 (r_bound r mod 2 ^ 64) ++ take 136 (drop 6 (r_junk r)).

Lemma tail_read front r :
  row_wf r ->
  from_be16 (u32_at (length front) (front ++ tail_fields r) mod 65536) = r_port r /\
  u32_at (4 + length front) (front ++ tail_fields r) = r_pid r /\
  i64_at (12 + length front) (front ++ tail_fields r) = r_bound r.
Proof.
  intros (_ & Hport & Hpid & Hbound & Hj & _). unfold u32_at, i64_at, tail_fields.
  destruct (take_two (r_junk r)) as (x & y & Hxy); [lia|]. rewrite Hxy.
  assert (Hj4 : length (take 4 (drop 2 (r_junk r))) = 4%nat) by (apply junk_block; lia). split_and!.
  - erewrite (slice_at _ _ _ front (be16 (r_port r) ++ [x; y])); [by apply port_read|done|done|done].
  - erewrite (slice_at _ _ _ (front ++ be16 (r_port r) ++ [x; y]) (TraceSync.le_bytes 4 (r_pid r))).
    + apply TraceSyncProofs.of_le_bytes. lia.
    + by rewrite <- !(assoc_L (++)).
    + rewrite !length_app. simpl. lia.
    + apply TraceSyncProofs.length_le_bytes.
  - erewrite (slice_at _ _ _ (front ++ (be16 (r_port r) ++ [x; y]) ++ TraceSync.le_bytes 4 (r_pid r) ++ take 4 (drop 2 (r_junk r)))
      (TraceSync.le_bytes 8 (r_bound r mod 2 ^ 64))).
    + rewrite TraceSyncProofs.of_le_bytes by (apply Z.mod_pos_bound; lia). by apply bound_read.
    + by rewrite <- !(assoc_L (++)).
    + rewrite !length_app, TraceSyncProofs.length_le_bytes, Hj4. simpl. lia.
    + apply TraceSyncProofs.length_le_bytes.
Qed.

Definition is_v6 (r : Row) : bool := is_ipv6 (r_ip r).

Lemma encode_row_fields r :
  encode_row r = match r_ip r with V4 n => be_bytes 4 n | V6 n => be_bytes 16 n ++ take 4 (drop 142 (r_junk r)) end ++ tail_fields r.
Proof. unfold encode_row, tail_fields. destruct (r_ip r); by rewrite <- !(assoc_L (++)). Qed.

Lemma length_encode_row r : row_wf r -> length (encode_row r) = row_size (is_v6 r).
Proof.
  intros (_ & _ & _ & _ & Hj & _). unfold encode_row, is_v6.
  destruct (r_ip r); rewrite !length_app, !TraceSyncProofs.length_le_bytes, length_be_bytes, !length_take, !length_drop, !Hj; reflexivity.
Qed.

(** The reader gives back every row that was written. *)
Definition entry_reader (v6 : bool) : list Z -> SocketEntry := if v6 then entry6 else entry4.

Lemma entry_read r : row_wf r -> entry_reader (is_v6 r) (encode_row r) = entry_of_row r.
Proof.
  intros Hwf. pose proof Hwf as (Hip & _ & _ & _ & Hj & _). rewrite encode_row_fields. unfold is_v6, entry_of_row.
  destruct (r_ip r) as [n|n] eqn:Eip; simpl in Hip.
  - pose proof (tail_read (be_bytes 4 n) r Hwf) as (H1 & H2 & H3). rewrite length_be_bytes in *.
    change (entry_reader (is_ipv6 (V4 n))) with entry4. unfold entry4.
    simpl Nat.add in *. rewrite H1, H2, H3.
    rewrite (slice_at 0 4 _ [] (be_bytes 4 n) (tail_fields r)) by (done || apply length_be_bytes).
    by rewrite of_be_bytes_be_bytes, Z.mod_small by exact Hip.
  - pose proof (tail_read (be_bytes 16 n ++ take 4 (drop 142 (r_junk r))) r Hwf) as (H1 & H2 & H3).
    rewrite length_app, length_be_bytes, junk_block in * by lia.
    change (entry_reader (is_ipv6 (V6 n))) with entry6. unfold entry6. simpl Nat.add in *. rewrite H1, H2, H3.
    rewrite (slice_at 0 16 _ [] (be_bytes 16 n) (take 4 (drop 142 (r_junk r)) ++ tail_fields r)).
    + by rewrite of_be_bytes_be_bytes, Z.mod_small by exact Hip.
    + by rewrite <- (assoc_L (++)).
    + done.
    + apply length_be_bytes.
Qed.

(** ** A table that fits *)

Lemma concat_length (rs : list Row) k :
  Forall (fun r => length (encode_row r) = k) rs -> length (concat (encode_row <$> rs)) = (length rs * k)%nat.
Proof. induction 1 as [|r rs Hr Hrs IH]; [done|]. cbn [fmap list_fmap concat length]. rewrite length_app, Hr, IH. lia. Qed.

Lemma read_concat k front (rs : list Row) rest :
  Forall (fun r => length (encode_row r) = k) rs ->
  read_rows (length rs) (length front) k (front ++ concat (encode_row <$> rs) ++ rest) = Ok (encode_row <$> rs).
Proof.
  intros H. revert front. induction H as [|r rs Hr Hrs IH]; intros front; [done|]. cbn [length read_rows fmap list_fmap concat].
  unfold read. destruct (Nat.ltb_spec (length (front ++ (encode_row r ++ concat (encode_row <$> rs)) ++ rest)) (length front + k)) as [Hl|_].
  { rewrite !length_app in Hl. lia. }
  rewrite (slice_at _ k _ front (encode_row r) (concat (encode_row <$> rs) ++ rest)) by (done || by rewrite <- !(assoc_L (++))).
  cbn [mbind res_bind]. specialize (IH (front ++ encode_row r)). rewrite length_app, Hr in IH.
  rewrite <- !(assoc_L (++)) in *. by rewrite IH.
Qed.

Lemma length_encode_table v6 rs :
  Forall (fun r => row_wf r /\ is_v6 r = v6) rs -> length (encode_table rs) = (8 + length rs * row_size v6)%nat.
Proof.
  intros H. unfold encode_table. rewrite !length_app, TraceSyncProofs.length_le_bytes, (concat_length rs (row_size v6)); [done|].
  eapply Forall_impl; [exact H|]. intros r [Hw <-]. by apply length_encode_row.
Qed.

Lemma rows_encoded v6 rs rest :
  Forall (fun r => row_wf r /\ is_v6 r = v6) rs -> len rs < 2 ^ 32 ->
  rows (row_size v6) TABLE_OFFSET (encode_table rs ++ rest) (len (encode_table rs)) = Ok (encode_row <$> rs).
Proof.
  intros Hr Hn. pose proof (length_encode_table v6 rs Hr) as Hl. unfold rows, TABLE_OFFSET.
  assert (Hc : slice 0 4 (encode_table rs ++ rest) = TraceSync.le_bytes 4 (len rs)).
  { apply (slice_at 0 4 _ [] _ (([0; 0; 0; 0] ++ concat (encode_row <$> rs)) ++ rest)); [|done|apply TraceSyncProofs.length_le_bytes].
    unfold encode_table. by rewrite <- !(assoc_L (++)). }
  assert (Hs : (0 < row_size v6)%nat) by (destruct v6; unfold row_size, ROW4_SIZE, ROW6_SIZE; lia).
  rewrite (proj2 (Z.ltb_ge _ _)) by (unfold len; lia).
  rewrite (proj2 (Z.ltb_ge (len (_ ++ _)) _)) by (unfold len; rewrite length_app; lia).
  replace ((8 <? 4)%nat) with false by done. cbn [orb]. unfold read at 1.
  destruct (Nat.ltb_spec (length (encode_table rs ++ rest)) (0 + 4)) as [H|_]; [rewrite length_app in H; lia|].
  cbn [mbind res_bind]. rewrite Hc, TraceSyncProofs.of_le_bytes by (pose proof (len_nonneg rs); lia).
  unfold len in *. rewrite Hl. replace (Z.of_nat (8 + length rs * row_size v6) - Z.of_nat 8) with (Z.of_nat (length rs) * Z.of_nat (row_size v6)) by lia.
  rewrite Z.div_mul by lia. rewrite Z.ltb_irrefl, Nat2Z.id.
  unfold encode_table. rewrite !(assoc_L (++)). rewrite <- (assoc_L (++) _ (concat _) rest).
  change 8%nat with (length (TraceSync.le_bytes 4 (len rs) ++ [0; 0; 0; 0])). apply read_concat.
  eapply Forall_impl; [exact Hr|]. intros r [Hw <-]. by apply length_encode_row.
Qed.

(** A system that writes the table of the moment when it fits and otherwise
    tells its size. *)
Definition honest (tables : nat -> list Row) (ask : nat -> Z -> TableAnswer) : Prop :=
  forall n capacity, ask n capacity =
    let t := encode_table (tables n) in if capacity <? len t then TooSmall (len t) else TableOk (len t) t.

(** Between the first two calls the table grew by no more than the room left. *)
Definition settled (v6 : bool) (tables : nat -> list Row) : Prop :=
  (forall n, Forall (fun r => row_wf r /\ is_v6 r = v6) (tables n)) /\
  (forall n, len (encode_table (tables n)) <= MAX_BYTES) /\
  len (encode_table (tables 1%nat)) <= len (encode_table (tables 0%nat)) + Z.max (len (encode_table (tables 0%nat)) / 2) 4096.

Lemma overwrite_front t b : (length t <= length b)%nat -> overwrite t b = t ++ drop (length t) b.
Proof. intros H. unfold overwrite. by rewrite take_ge. Qed.

Lemma table_honest v6 tables ask :
  honest tables ask -> settled v6 tables ->
  exists rest, table ask = Ok (encode_table (tables 1%nat) ++ rest, len (encode_table (tables 1%nat))).
Proof.
  intros Ha (Hr & Hm & Hg). unfold table. cbn [table_loop]. rewrite Ha. cbv zeta.
  set (t0 := encode_table (tables 0%nat)) in *. set (t1 := encode_table (tables 1%nat)) in *.
  assert (H0 : 8 <= len t0) by (unfold t0, len; rewrite (length_encode_table v6) by done; lia).
  replace (len [] <? len t0) with true by (symmetry; apply Z.ltb_lt; unfold len at 1; simpl; lia).
  rewrite (proj2 (Z.ltb_ge MAX_BYTES (len t0)) (Hm 0%nat)). rewrite Ha. cbv zeta. fold t1.
  set (b := resize (Z.to_nat (grown_words (len t0) * 8)) []).
  assert (Hb : len t1 <= len b).
  { unfold b, len at 2. rewrite length_resize. unfold grown_words.
    set (c := Z.min (len t0 + Z.max (len t0 / 2) 4096) MAX_BYTES).
    assert (Hc : len t1 <= c) by (unfold c; specialize (Hm 1%nat); fold t1 in Hm; lia).
    pose proof (Z.div_mod (c + 7) 8). pose proof (Z.mod_pos_bound (c + 7) 8). pose proof (len_nonneg t1). lia. }
  rewrite (proj2 (Z.ltb_ge _ _) Hb). rewrite overwrite_front by (unfold len in Hb; lia). by eexists.
Qed.

(** C38. Reading the owner table is memory safe whatever the system answers.  When the system tells the truth and
    the tables grow by less than half between two calls, the result is every row
    of both tables with its address, port, process and time, in order. *)
Theorem udp_table_read ask4 ask6 :
  snapshot ask4 ask6 <> Panic /\
  forall tables4 tables6, honest tables4 ask4 -> honest tables6 ask6 -> settled false tables4 -> settled true tables6 ->
    snapshot ask4 ask6 = Ok (entry_of_row <$> (tables4 1%nat ++ tables6 1%nat)).
Proof.
  split.
  - unfold snapshot, table. pose proof (table_loop_safe ask4 4 0 []) as H4. pose proof (table_loop_safe ask6 4 0 []) as H6.
    destruct (table_loop ask4 4 0 []) as [[b s]|e|]; cbn [mbind res_bind]; try done.
    pose proof (rows_safe ROW4_SIZE TABLE_OFFSET b s ltac:(unfold ROW4_SIZE; lia)) as Hr.
    destruct (rows ROW4_SIZE TABLE_OFFSET b s); cbn [mbind res_bind]; try done.
    destruct (table_loop ask6 4 0 []) as [[b6 s6]|e|]; cbn [mbind res_bind]; try done.
    pose proof (rows_safe ROW6_SIZE TABLE_OFFSET b6 s6 ltac:(unfold ROW6_SIZE; lia)) as Hr6.
    destruct (rows ROW6_SIZE TABLE_OFFSET b6 s6); cbn [mbind res_bind]; done.
  - intros t4 t6 Ha4 Ha6 Hs4 Hs6. unfold snapshot.
    assert (Hn : forall v6 t, settled v6 t -> len (t 1%nat) < 2 ^ 32).
    { intros v6 t (Hr & Hm & _). specialize (Hm 1%nat). unfold len in *. rewrite (length_encode_table v6) in Hm by done.
      unfold MAX_BYTES in Hm. assert (1 <= row_size v6)%nat by (destruct v6; unfold row_size, ROW4_SIZE, ROW6_SIZE; lia). nia. }
    destruct (table_honest _ _ _ Ha4 Hs4) as [r4 ->]. cbn [mbind res_bind].
    rewrite (rows_encoded false) by (apply Hs4 || by eapply Hn). cbn [mbind res_bind].
    destruct (table_honest _ _ _ Ha6 Hs6) as [r6 ->]. cbn [mbind res_bind].
    rewrite (rows_encoded true) by (apply Hs6 || by eapply Hn). cbn [mbind res_bind].
    rewrite fmap_app, <- !list_fmap_compose. do 2 f_equal; apply list_fmap_ext; intros i r Hi.
    + destruct Hs4 as (Hr & _). pose proof (Forall_lookup_1 _ _ _ _ (Hr 1%nat) Hi) as [Hw Hv].
      pose proof (entry_read r Hw) as He. by rewrite Hv in He.
    + destruct Hs6 as (Hr & _). pose proof (Forall_lookup_1 _ _ _ _ (Hr 1%nat) Hi) as [Hw Hv].
      pose proof (entry_read r Hw) as He. by rewrite Hv in He.
Qed.

Definition example_row (ip : IpAddr) : Row := mkRow ip 5353 77 (-1) (replicate 146 9).

Definition answer_with (tables : nat -> list Row) (n : nat) (capacity : Z) : TableAnswer :=
  let t := encode_table (tables n) in if capacity <? len t then TooSmall (len t) else TableOk (len t) t.

Definition growing (n : nat) : list Row := if decide (n = 0%nat) then [] else [example_row (V4 1)].

(** The table has one row more when it is read than when its size was asked. *)
Lemma udp_table_read_witness :
  snapshot (answer_with growing) (answer_with (fun _ => [example_row (V6 1)])) =
  Ok [entry_of_row (example_row (V4 1)); entry_of_row (example_row (V6 1))].
Proof.
  assert (Hw : forall ip, ip_wf ip -> row_wf (example_row ip)).
  { intros ip Hip. unfold row_wf, is_u16. cbn [r_ip r_port r_pid r_bound r_junk example_row].
    split_and!; try done; try lia. apply Forall_replicate. unfold is_u8. lia. }
  refine (proj2 (udp_table_read _ _) growing (fun _ => [example_row (V6 1)]) _ _ _ _).
  - intros n c. reflexivity.
  - intros n c. reflexivity.
  - split_and!; [| |vm_compute; discriminate].
    + intros n. unfold growing. case_decide; [constructor|]. apply Forall_singleton. by split; [apply Hw|].
    + intros n. unfold growing. case_decide; vm_compute; discriminate.
  - split_and!; [|intros n; vm_compute; discriminate|vm_compute; discriminate].
    intros n. apply Forall_singleton. by split; [apply Hw|].
Defined.
End UdpTable.
