(* ===== verification/UdpgwAccept.v ===== *)
(** * The gateway server and its clients (src/src/bin/udpgw_server.rs)

    [run]: the accept loop, one task per client, its end by the shutdown token,
    by the client or by an error, the clean-up of its sessions, and the drain
    before [run] returns.  The clients share the counter NEXT_GENERATION; what a
    client's tasks do is the step relation of UdpgwServer.v.  Also the wait for a
    frame with its inactivity limit, and the masking of addresses in the log. *)

From S2P Require Import Prelude Net Socks5Impl Rfc1928 ProxyHandler Streams IpText Udpgw UdpgwServer UdpgwServerProofs.

Module UdpgwAccept.
Import Udpgw UdpgwServer UdpgwServerProofs.

(** ** Waiting for a frame *)

(** What the wait sees: the two-second timer at this time with this last
    activity, or the outcome of the read. *)
Inductive WaitEvent := Tick (now last_activity : Z) | FrameRead (r : res IoError Packet).

(** [retrieve_packet_or_disconnect]; [None] while it waits. *)
Fixpoint retrieve_packet_or_disconnect (events : list WaitEvent) : option (res IoError Packet) :=
  match events with
  | [] => None
  | FrameRead r :: _ => Some r
  | Tick now last_activity :: events' =>
      if CLIENT_DISCONNECT_TIMEOUT <=? Z.max 0 (now - last_activity)
      then Some (Err (mkIo TimedOut "client inactivity timeout"))
      else retrieve_packet_or_disconnect events'
  end.

(** ** The log *)

Definition char_is (n : N) (c : Ascii.ascii) : bool := (Ascii.N_of_ascii c =? n)%N.

(** The characters from position [i] of a text of [n] characters. *)
Fixpoint mask_from (n i : nat) (s : string) : string :=
  match s with
  | EmptyString => EmptyString
  | String c s' =>
      String (if (i =? 0)%nat || (i =? n - 1)%nat || char_is 46 c || char_is 58 c then c else Ascii.ascii_of_N 42)
        (mask_from n (S i) s')
  end.

Definition mask_ip (ip : string) : string :=
  if (String.length ip <=? 2)%nat then ip else mask_from (String.length ip) 0 ip.

Definition mask_socket_addr (a : SocketAddr) : string :=
  match sa_ip a with
  | V4 n => mask_ip (show_ipv4 n) +:+ ":" +:+ show_dec (sa_port a)
  | V6 n => "[" +:+ mask_ip (show_ipv6 n) +:+ "]:" +:+ show_dec (sa_port a)
  end.

(** ** The server *)

(** [main_async]: [task] is what the task of [run] returned, if it did not
    panic, and [handler] the installation of the interrupt handler.  The result
    of [run] itself is discarded. *)
Definition main_async (task : option (res Error unit)) (handler : res Error unit) : res Error unit :=
  match handler with
  | Ok _ => match task with Some _ => Ok tt | None => Err (EString "task panicked") end
  | r => r
  end.

(** A client's task: running, over, joined, or aborted when its set is dropped. *)
Inductive TaskState := Live | Finished | Joined | Aborted.

#[export] Instance TaskState_eq_dec : EqDecision TaskState.
Proof. solve_decision. Defined.

Record Client := mkClient { c_state : State; c_task : TaskState }.

Inductive Phase := Listening | Draining | Returned (r : res Error unit).

Record Server := mkServer {
  g_next : Z;                       (* NEXT_GENERATION *)
  clients : gmap nat Client;
  next_client : nat;
  shutdown : bool;                  (* the shutdown token *)
  phase : Phase }.

(** [run] up to its loop. *)
Definition start (next : Z) (bind : res Error unit) : Server :=
  mkServer next ∅ 0 false (match bind with Ok _ => Listening | r => Returned r end).

(** [Client::new] and [ClientSessions::new] for an accepted connection. *)
Definition accept (now : Z) (v : Server) : Server :=
  mkServer (g_next v) (<[next_client v := mkClient (initial (g_next v) now) Live]> (clients v)) (S (next_client v))
    (shutdown v) (phase v).

(** The counter as this client finds it. *)
Definition raise (next : Z) (s : State) : State :=
  mkState (sessions s) (generations s) next (stopped s) (relays s) (queue s) (to_client s) (udp_sent s)
    (client_activity s) (reader s) (connected s).

Definition set_client (c : nat) (x : Client) (next : Z) (v : Server) : Server :=
  mkServer next (<[c := x]> (clients v)) (next_client v) (shutdown v) (phase v).

(** The task is dropped in the middle, wherever its reader was: its connection
    and channel are gone, its sessions are not cancelled. *)
Definition abort_client (x : Client) : Client :=
  match c_task x with
  | Live =>
      let s := c_state x in
      mkClient (mkState (sessions s) (generations s) (next_generation s) (stopped s) (relays s) [] (to_client s) (udp_sent s)
        (client_activity s) (reader s) false) Aborted
  | _ => x
  end.

(** [accepted?]: the error leaves [run] and drops the set of client tasks. *)
Definition accept_fails (e : Error) (v : Server) : Server :=
  mkServer (g_next v) (abort_client <$> clients v) (next_client v) (shutdown v) (Returned (Err e)).

Definition set_phase (p : Phase) (v : Server) : Server :=
  mkServer (g_next v) (clients v) (next_client v) (shutdown v) p.

(** The shutdown token is cancelled. *)
Definition stop (v : Server) : Server := mkServer (g_next v) (clients v) (next_client v) true (phase v).

(** The end of the client's task: its sessions are drained and cancelled. *)
Definition client_ends (c : nat) (x : Client) (v : Server) : Server :=
  set_client c (mkClient (disconnect (c_state x)) Finished) (g_next v) v.

(** [join_next]. *)
Definition join (c : nat) (x : Client) (v : Server) : Server := set_client c (mkClient (c_state x) Joined) (g_next v) v.

Definition after_step (s : State) : Client := mkClient s (if connected s then Live else Finished).

Section server.
Context `{Socks5Laws}.
Variables udp_mtu udp_timeout : Z.

(** What the server does by itself, without anything from a client or the
    network: a client's task sees the shutdown token it selects on and ends, the
    loop sees it and is left, a task that is over is joined, and [run] returns
    when all are. *)
Inductive own_step (v : Server) : Server -> Prop :=
  | o_cancelled c x : clients v !! c = Some x -> c_task x = Live -> shutdown v = true -> own_step v (client_ends c x v)
  | o_break : phase v = Listening -> shutdown v = true -> own_step v (set_phase Draining v)
  | o_join c x : clients v !! c = Some x -> c_task x = Finished -> own_step v (join c x v)
  | o_return :
      phase v = Draining -> (forall c x, clients v !! c = Some x -> c_task x = Joined) ->
      own_step v (set_phase (Returned (Ok tt)) v).

(** Everything that can happen: these steps; a connection, or the failure to
    accept one, which the loop takes only while the token is not cancelled; a
    step of a client's task, also its end by the client or an error; a step of a
    relay; the shutdown. *)
Inductive sstep (v : Server) : Server -> Prop :=
  | s_own v' : own_step v v' -> sstep v v'
  | s_accept now : phase v = Listening -> shutdown v = false -> sstep v (accept now v)
  | s_accept_fails e : phase v = Listening -> shutdown v = false -> sstep v (accept_fails e v)
  | s_client c x s' :
      clients v !! c = Some x -> c_task x = Live -> step udp_mtu udp_timeout (raise (g_next v) (c_state x)) s' ->
      sstep v (set_client c (after_step s') (next_generation s') v)
  | s_relay c x now g ev :
      clients v !! c = Some x ->
      sstep v (set_client c (mkClient (on_relay udp_timeout now g ev (c_state x)) (c_task x)) (g_next v) v)
  | s_shutdown : sstep v (stop v).

(** ** Invariant *)

Lemma inv_raise next s : next_generation s <= next -> inv s -> inv (raise next s).
Proof.
  intros Hle [Hn Hs Hr Hg Hst Hq Ht Ho]. split; simpl; try done.
  - lia.
  - intros g r Hgr. destruct (Hr g r Hgr) as (Hb & Hc & Hd & Hrun & Hp). split_and!; try done; try lia.
    intros item Hi. eapply item_ok_extends; [apply extends_refl|exact Hle|by apply Hp].
  - intros id g Hi. specialize (Hg id g Hi). lia.
  - intros g Hgs. specialize (Hst g Hgs). lia.
  - eapply queue_extends; [apply extends_refl|exact Hle|done].
  - assert (Hfresh : forall id g, fresh_generation (generations s) (next_generation s) (stopped s) (relays s) id g ->
      fresh_generation (generations s) next (stopped s) (relays s) id g).
    { intros id g (? & ? & ? & ? & ?). unfold fresh_generation. split; [done|]. split; [lia|done]. }
    destruct (reader s); simpl in *; try done.
    + destruct Ht. split; [done|lia].
    + destruct Ht as [Hf ?]. split; [by apply Hfresh|done].
    + destruct Ht as (Hf & ? & ?). split_and!; [by apply Hfresh|done|done].
    + eapply item_ok_extends; [apply extends_refl|exact Hle|done].
Qed.

(** A relay never opens a session and does not touch the connection. *)
Lemma on_relay_frame now g ev s :
  next_generation (on_relay udp_timeout now g ev s) = next_generation s /\
  connected (on_relay udp_timeout now g ev s) = connected s /\
  (sessions s = ∅ -> sessions (on_relay udp_timeout now g ev s) = ∅).
Proof.
  unfold on_relay, relay_exit, take_session, touch, set_relay, set_sessions, set_activity, set_queue.
  repeat (case_match; simpl in *; simplify_eq); split_and!; try done; intros Hs; rewrite ?Hs in *;
    repeat (rewrite ?delete_empty in *; simplify_map_eq; try done).
Qed.

(** A connection ends only with its sessions drained. *)
Lemma step_connected s s' :
  step udp_mtu udp_timeout s s' -> connected s' = connected s \/ connected s' = false /\ sessions s' = ∅.
Proof.
  intros Hs. inversion Hs; subst; [left|left|left|left|left|..].
  - unfold on_packet, process_udp, close_session, replace_generation, take_session, set_activity, send_keepalive_response,
      send_error_response, add_sent, set_sessions, set_reader.
    repeat (case_match; simpl in *; simplify_eq); done.
  - unfold on_resolved, send_error_response, set_sessions, set_reader. by repeat case_match.
  - unfold on_sent, send_error_response, add_sent, set_sessions, set_reader, set_relay. by repeat case_match.
  - unfold on_room, set_reader, set_queue. by repeat case_match.
  - apply on_relay_frame.
  - unfold on_write. destruct (queue s); [by left|]. repeat case_match; by (left + right).
  - by right.
Qed.

(** What is known of one client. *)
Definition client_ok (next : Z) (x : Client) : Prop :=
  inv (c_state x) /\ next_generation (c_state x) <= next /\
  match c_task x with
  | Live => connected (c_state x) = true
  | Finished | Joined => connected (c_state x) = false /\ sessions (c_state x) = ∅
  | Aborted => connected (c_state x) = false
  end.

Definition server_ok (v : Server) : Prop :=
  0 <= g_next v /\
  (forall c x, clients v !! c = Some x -> client_ok (g_next v) x) /\
  match phase v with
  | Returned (Ok _) => forall c x, clients v !! c = Some x -> c_task x = Joined
  | Returned _ => True
  | _ => forall c x, clients v !! c = Some x -> c_task x <> Aborted
  end.

Lemma client_ok_mono n n' x : n <= n' -> client_ok n x -> client_ok n' x.
Proof. intros Hle (Hi & Hn & Ht). split_and!; [done|lia|done]. Qed.

Lemma set_client_ok c x next v :
  server_ok v -> g_next v <= next -> client_ok next x ->
  match phase v with Returned (Ok _) => c_task x = Joined | Returned _ => True | _ => c_task x <> Aborted end ->
  server_ok (set_client c x next v).
Proof.
  intros (Hn & Hc & Hp) Hle Hx Ht. split_and!; simpl; [lia| |].
  - intros c' y [[<- <-]|[_ Hy]]%lookup_insert_Some; [done|]. eapply client_ok_mono; [exact Hle|by eapply Hc].
  - destruct (phase v) as [| |[[]|e|]]; try done; intros c' y [[<- <-]|[_ Hy]]%lookup_insert_Some; try done; by eapply Hp.
Qed.

(** What the phase allows for a client that is not aborted. *)
Lemma phase_keeps v c x :
  server_ok v -> clients v !! c = Some x ->
  match phase v with Returned (Ok _) => c_task x = Joined | Returned _ => True | _ => c_task x <> Aborted end.
Proof. intros (_ & _ & Hp) Hx. destruct (phase v) as [| |[[]|e|]]; try done; by eapply Hp. Qed.

Lemma client_step_ok v c x s' :
  server_ok v -> clients v !! c = Some x -> c_task x = Live -> g_next v + 1 <= u64_max ->
  step udp_mtu udp_timeout (raise (g_next v) (c_state x)) s' ->
  server_ok (set_client c (after_step s') (next_generation s') v) /\ next_generation s' <= g_next v + 1.
Proof.
  intros Hv Hx Hl Hb Hs. pose proof Hv as (Hn & Hc & _). destruct (Hc _ _ Hx) as (Hi & Hle & Ht). rewrite Hl in Ht.
  assert (Hr : inv (raise (g_next v) (c_state x))) by by apply inv_raise.
  destruct (step_next udp_mtu udp_timeout (raise (g_next v) (c_state x)) s') as [H1 H2]; [simpl; lia|done|]. simpl in H1, H2.
  split; [|lia]. apply set_client_ok; [done|lia| |].
  - unfold after_step. split_and!; simpl; [eapply step_inv; [| |exact Hs]; simpl; [lia|done]|lia|].
    destruct (connected s') eqn:Ec; [done|]. split; [done|].
    destruct (step_connected _ _ Hs) as [He|[_ He]]; [simpl in He; congruence|done].
  - pose proof (phase_keeps v c x Hv Hx) as Hp. rewrite Hl in Hp. unfold after_step. simpl.
    destruct (phase v) as [| |[[]|e|]]; try done; destruct (connected s'); done.
Qed.

(** The server's own steps keep the invariant and the counter. *)
Lemma own_step_ok v v' : server_ok v -> own_step v v' -> server_ok v' /\ g_next v' = g_next v.
Proof.
  intros Hv Hs. pose proof Hv as (Hn & Hc & Hp).
  inversion Hs as [c x Hx Hl Hsh|Hph Hsh|c x Hx Hf|Hph Hj]; subst v'; simpl; (split; [|done]).
  - destruct (Hc _ _ Hx) as (Hi & Hle & Ht). apply set_client_ok; [done|lia| |].
    + split_and!; simpl; [by apply inv_disconnect|lia|done].
    + pose proof (phase_keeps v c x Hv Hx) as Hk. rewrite Hl in Hk. revert Hk. by destruct (phase v) as [| |[[]|e|]].
  - split_and!; simpl; [done|done|]. by rewrite Hph in Hp.
  - destruct (Hc _ _ Hx) as (Hi & Hle & Ht). apply set_client_ok; [done|lia| |].
    + rewrite Hf in Ht. by split_and!.
    + by destruct (phase v) as [| |[[]|e|]].
  - by split_and!.
Qed.

(** Every step keeps the invariant, and the counter grows by at most one. *)
Lemma sstep_ok v v' :
  server_ok v -> g_next v + 1 <= u64_max -> sstep v v' -> server_ok v' /\ g_next v' <= g_next v + 1.
Proof.
  intros Hv Hb Hs. pose proof Hv as (Hn & Hc & Hp).
  inversion Hs as [v0 Ho|now Hph Hsh|e Hph Hsh|c x s' Hx Hl Hst|c x now g ev Hx|]; subst v'; simpl.
  - destruct (own_step_ok v v0 Hv Ho). split; [done|lia].
  - split; [|lia]. split_and!; simpl; [done| |].
    + intros c x [[<- <-]|[_ Hx]]%lookup_insert_Some; [|by eapply Hc]. split_and!; [by apply inv_initial|simpl; lia|done].
    + rewrite Hph in *. intros c x [[<- <-]|[_ Hx]]%lookup_insert_Some; [done|by eapply Hp].
  - split; [|lia]. split_and!; simpl; [done| |done]. intros c x Hx. rewrite lookup_fmap in Hx. destruct (clients v !! c) as [y|] eqn:Hy; simplify_eq/=.
    destruct (Hc _ _ Hy) as (Hi & Hle & Ht). unfold abort_client. destruct (c_task y) eqn:Ey; try (by split_and!; rewrite ?Ey).
    destruct Hi. split_and!; simpl; [|done|done]. by split.
  - by eapply client_step_ok.
  - split; [|lia]. destruct (on_relay_frame now g ev (c_state x)) as (H1 & H2 & H3). destruct (Hc _ _ Hx) as (Hi & Hle & Ht).
    apply set_client_ok; [done|lia| |exact (phase_keeps v c x Hv Hx)]. split_and!; simpl; [by apply inv_on_relay|lia|].
    rewrite H2. destruct (c_task x); try done; (split; [apply Ht|apply H3, Ht]).
  - split; [by split_and!|lia].
Qed.

Lemma reachable_ok n v v' :
  server_ok v -> g_next v + Z.of_nat n <= u64_max -> nsteps sstep n v v' -> server_ok v'.
Proof.
  intros Hv Hb Hs. revert Hv Hb. induction Hs as [|n v1 v2 v3 H1 H2 IH]; intros Hv Hb; [done|].
  destruct (sstep_ok v1 v2 Hv) as [Hv2 Hg]; [lia|done|]. apply IH; [done|lia].
Qed.

Lemma start_ok next bind : 0 <= next -> server_ok (start next bind).
Proof. intros Hn. split_and!; simpl; [done|done|]. by destruct bind as [[]|e|]. Qed.

(** ** Shutdown completes *)

Definition unjoined (v : Server) : gmap nat Client := filter (fun p => c_task p.2 <> Joined) (clients v).

Lemma unjoined_join c x y v n :
  clients v !! c = Some x -> c_task x <> Joined -> c_task y = Joined -> size (unjoined v) = S n ->
  forall next, size (unjoined (set_client c y next v)) = n.
Proof.
  intros Hx Hnj Hj Hs next. unfold unjoined, set_client in *. simpl. rewrite map_filter_insert_False by (simpl; by destruct 1).
  rewrite map_filter_delete, map_size_delete_Some.
  - lia.
  - exists x. by apply map_lookup_filter_Some.
Qed.

Lemma drain_completes k v :
  server_ok v -> shutdown v = true -> phase v = Draining -> size (unjoined v) = k ->
  exists n v', nsteps own_step n v v' /\ (n <= 2 * k + 1)%nat /\ phase v' = Returned (Ok tt).
Proof.
  revert v. induction k as [|k IH]; intros v Hv Hsh Hp Hk.
  - exists 1%nat, (set_phase (Returned (Ok tt)) v). split_and!; [|lia|done]. apply nsteps_once, o_return; [done|].
    intros c x Hx. apply map_size_empty_inv in Hk. destruct (decide (c_task x = Joined)) as [|Hn]; [done|].
    assert (H1 : unjoined v !! c = Some x) by by apply map_lookup_filter_Some. rewrite Hk in H1. done.
  - destruct (map_choose (unjoined v)) as (c & x & Hx); [intros He; rewrite He, map_size_empty in Hk; done|].
    apply map_lookup_filter_Some in Hx as [Hx Hnj]. simpl in Hnj. pose proof Hv as (Hn & Hc & Ha). rewrite Hp in Ha.
    assert (Hjoin : forall w y, server_ok w -> shutdown w = true -> phase w = Draining -> clients w !! c = Some y -> c_task y = Finished ->
      size (unjoined w) = S k ->
      exists n v', nsteps own_step n w v' /\ (n <= 2 * k + 2)%nat /\ phase v' = Returned (Ok tt)).
    { intros w y Hw Hshw Hpw Hy Hf Hkw. destruct (IH (join c y w)) as (n & v' & Hs & Hle & Hr).
      - pose proof Hw as (Hnw & Hcw & _). apply set_client_ok; [done|lia| |by rewrite Hpw].
        destruct (Hcw _ _ Hy) as (Hi & Hl & Ht). rewrite Hf in Ht. by split_and!.
      - done.
      - done.
      - eapply unjoined_join; [exact Hy|by rewrite Hf|done|done].
      - exists (S n), v'. split_and!; [|lia|done]. econstructor; [by eapply o_join|done]. }
    destruct (c_task x) eqn:Ex; try done.
    2:{ destruct (Hjoin v x) as (n & v' & Hs & Hle & Hr); try done. exists n, v'. split_and!; [done|lia|done]. }
    2:{ by destruct (Ha _ _ Hx). }
    set (w := client_ends c x v).
    assert (Hw : server_ok w).
    { destruct (Hc _ _ Hx) as (Hi & Hle & _). apply set_client_ok; [done|lia| |by rewrite Hp].
      split_and!; simpl; [by apply inv_disconnect|lia|done]. }
    destruct (Hjoin w (mkClient (disconnect (c_state x)) Finished)) as (n & v' & Hs & Hle & Hr); [done|done|done| |done| |].
    + apply lookup_insert_eq.
    + rewrite <- Hk. unfold unjoined, w, client_ends, set_client. simpl. rewrite map_filter_insert_True by done.
      rewrite map_size_insert_Some; [done|]. exists x. apply map_lookup_filter_Some. split; [done|]. simpl. by rewrite Ex.
    + exists (S n), v'. split_and!; [|lia|done]. econstructor; [by eapply o_cancelled|done].
Qed.

(** C16. The gateway server with any number of clients, under every interleaving.
    Every session of every client is current and, once its first datagram is
    sent, has a running relay for its own destination, although the clients share
    one counter.  Once [run] has returned after a shutdown, every client task has
    been joined, no session is left and every relay that still runs has been told
    to stop.  And after a shutdown [run] returns by the server's own steps alone,
    two at most for each client, because every client's task selects on the
    token: no client need close its connection or send anything. *)
Theorem udpgw_server_shutdown n next bind v :
  0 <= next -> next + Z.of_nat n <= u64_max -> nsteps sstep n (start next bind) v ->
  (forall c x id y, clients v !! c = Some x -> sessions (c_state x) !! id = Some y ->
     generations (c_state x) !! id = Some (generation y) /\
     (opening (reader (c_state x)) id y \/
      exists r, relays (c_state x) !! generation y = Some r /\ r_running r = true /\ r_conn r = id /\ r_dst r = dst y)) /\
  (phase v = Returned (Ok tt) -> forall c x, clients v !! c = Some x ->
     c_task x = Joined /\ connected (c_state x) = false /\ sessions (c_state x) = ∅ /\
     forall g r, relays (c_state x) !! g = Some r -> r_running r = true -> g ∈ stopped (c_state x)) /\
  (shutdown v = true -> phase v = Listening \/ phase v = Draining ->
     exists m v', nsteps own_step m v v' /\ (m <= 2 * size (clients v) + 2)%nat /\ phase v' = Returned (Ok tt)).
Proof.
  intros Hn Hb Hs. pose proof (reachable_ok _ _ _ (start_ok next bind Hn) Hb Hs) as Hv. pose proof Hv as (Hg & Hc & Hp). split_and!.
  - intros c x id y Hx Hy. destruct (Hc _ _ Hx) as (Hi & _ & _). destruct (c_sessions _ _ _ _ _ _ _ _ Hi _ _ Hy) as (H1 & _ & H2). done.
  - intros Hr c x Hx. rewrite Hr in Hp. specialize (Hp _ _ Hx). destruct (Hc _ _ Hx) as (Hi & _ & Ht). rewrite Hp in Ht.
    destruct Ht as [Ht1 Ht2]. split_and!; try done. intros g r Hgr Hrun.
    destruct (c_relays _ _ _ _ _ _ _ _ Hi _ _ Hgr) as (_ & _ & _ & Hown & _). destruct (Hown Hrun) as [(y & Hy & _)|]; [|done].
    by rewrite Ht2 in Hy.
  - assert (Hsz : forall w, (size (unjoined w) <= size (clients w))%nat) by (intros w; apply map_subseteq_size, map_filter_subseteq).
    intros Hsh [Hph|Hph].
    + destruct (drain_completes (size (unjoined (set_phase Draining v))) (set_phase Draining v)) as (m & v' & H1 & H2 & H3); [|done|done|done|].
      { split_and!; [done|done|]. by rewrite Hph in Hp. }
      exists (S m), v'. split_and!; [|specialize (Hsz (set_phase Draining v)); simpl in Hsz; lia|done].
      econstructor; [by apply o_break|done].
    + destruct (drain_completes (size (unjoined v)) v) as (m & v' & H1 & H2 & H3); [done|done|done|done|].
      exists m, v'. split_and!; [done|specialize (Hsz v); lia|done].
Qed.
End server.

(** ** The inactivity limit *)

(** The timer fires at these times, none more than two seconds after the one
    before, and the client was last heard of at [last]. *)
Fixpoint ticks (last : Z) (times : list Z) : list WaitEvent :=
  match times with [] => [] | now :: times' => Tick now last :: ticks last times' end.

Fixpoint paced (from : Z) (times : list Z) : Prop :=
  match times with [] => True | now :: times' => from <= now <= from + 2000 /\ paced now times' end.

Lemma wait_patient last times events :
  Forall (fun now => now - last < CLIENT_DISCONNECT_TIMEOUT) times ->
  retrieve_packet_or_disconnect (ticks last times ++ events) = retrieve_packet_or_disconnect events.
Proof.
  unfold CLIENT_DISCONNECT_TIMEOUT. induction 1 as [|now times Hn Hs IH]; simpl; [done|]. unfold CLIENT_DISCONNECT_TIMEOUT.
  by rewrite (proj2 (Z.leb_gt _ _)) by lia.
Qed.

Lemma wait_ends last times now :
  paced last (times ++ [now]) -> CLIENT_DISCONNECT_TIMEOUT <= now - last ->
  exists before t after, times ++ [now] = before ++ t :: after /\
    Forall (fun u => u - last < CLIENT_DISCONNECT_TIMEOUT) before /\
    CLIENT_DISCONNECT_TIMEOUT <= t - last < CLIENT_DISCONNECT_TIMEOUT + 2000.
Proof.
  unfold CLIENT_DISCONNECT_TIMEOUT. intros Hp Hn.
  assert (Hgen : forall ts from, from - last < 60000 -> paced from (ts ++ [now]) ->
    exists before t after, ts ++ [now] = before ++ t :: after /\ Forall (fun u => u - last < 60000) before /\
      60000 <= t - last < 60000 + 2000).
  { induction ts as [|u ts IH]; intros from Hf Hpc; simpl in *.
    - exists [], now, []. split_and!; [done|constructor|lia|lia].
    - destruct Hpc as [Hu Hpc]. destruct (Z.ltb_spec (u - last) 60000) as [Hlt|Hge].
      + destruct (IH u Hlt Hpc) as (b & t & a & -> & Hb & Ht). exists (u :: b), t, a. split_and!; [done|by constructor|lia|lia].
      + exists [], u, (ts ++ [now]). split_and!; [done|constructor|lia|lia]. }
  apply (Hgen times last); [lia|done].
Qed.

(** A frame that arrives while the client is not overdue is always returned,
    whatever timers fired before; a silent client is disconnected, not before
    sixty seconds after its last activity and less than two seconds later. *)
Theorem udpgw_idle_client last times :
  (forall r events, Forall (fun now => now - last < CLIENT_DISCONNECT_TIMEOUT) times ->
     retrieve_packet_or_disconnect (ticks last times ++ FrameRead r :: events) = Some r) /\
  (forall now, paced last (times ++ [now]) -> CLIENT_DISCONNECT_TIMEOUT <= now - last ->
     exists before t after, times ++ [now] = before ++ t :: after /\
       CLIENT_DISCONNECT_TIMEOUT <= t - last < CLIENT_DISCONNECT_TIMEOUT + 2000 /\
       retrieve_packet_or_disconnect (ticks last before) = None /\
       retrieve_packet_or_disconnect (ticks last (before ++ [t])) = Some (Err (mkIo TimedOut "client inactivity timeout"))).
Proof.
  assert (Happ : forall a b, ticks last (a ++ b) = ticks last a ++ ticks last b) by (intros a b; induction a; simpl; congruence).
  split.
  - intros r events Hf. by rewrite wait_patient.
  - intros now Hp Hn. destruct (wait_ends _ _ _ Hp Hn) as (b & t & a & Heq & Hb & Ht). exists b, t, a. split_and!; [done|lia|lia| |].
    + by rewrite <- (app_nil_r (ticks last b)), wait_patient.
    + rewrite Happ, wait_patient by done. simpl. unfold CLIENT_DISCONNECT_TIMEOUT in *. by rewrite (proj2 (Z.leb_le _ _)) by lia.
Qed.

Lemma udpgw_idle_client_witness :
  retrieve_packet_or_disconnect (ticks 0 [2000; 4000] ++ [FrameRead (Err (io_other "closed"))]) = Some (Err (io_other "closed")) /\
  exists before t after, ((fun k => Z.of_nat k * 2000) <$> seq 1 29) ++ [60000] = before ++ t :: after /\ 60000 <= t < 62000.
Proof.
  split.
  - apply (proj1 (udpgw_idle_client 0 [2000; 4000])). vm_compute. repeat constructor.
  - destruct (proj2 (udpgw_idle_client 0 ((fun k => Z.of_nat k * 2000) <$> seq 1 29)) 60000) as (b & t & a & Heq & Ht & _).
    + vm_compute. repeat split; discriminate.
    + vm_compute. discriminate.
    + exists b, t, a. split; [exact Heq|]. unfold CLIENT_DISCONNECT_TIMEOUT in Ht. lia.
Defined.

(** ** Masked addresses *)

Lemma mask_from_length n i s : String.length (mask_from n i s) = String.length s.
Proof. revert i. induction s as [|c s IH]; intros i; simpl; [done|]. by rewrite IH. Qed.

(** The log never shows more of an address than its shape and its first and last
    character: two addresses that agree on these have the same text. *)
Lemma mask_hides s1 s2 :
  String.length s1 = String.length s2 ->
  (forall k c1 c2, String.get k s1 = Some c1 -> String.get k s2 = Some c2 ->
     c1 = c2 \/ (0 < k < String.length s1 - 1)%nat /\ char_is 46 c1 = false /\ char_is 58 c1 = false /\
                char_is 46 c2 = false /\ char_is 58 c2 = false) ->
  mask_ip s1 = mask_ip s2 \/ (String.length s1 <= 2)%nat.
Proof.
  intros Hl Hk. unfold mask_ip. rewrite <- Hl. destruct (Nat.leb_spec (String.length s1) 2) as [|Hn]; [by right|left].
  remember (String.length s1) as n eqn:Hn1. clear Hn.
  assert (Hgen : forall i a b, String.length a = String.length b ->
    (forall k c1 c2, String.get k a = Some c1 -> String.get k b = Some c2 ->
       c1 = c2 \/ (0 < i + k < n - 1)%nat /\ char_is 46 c1 = false /\ char_is 58 c1 = false /\ char_is 46 c2 = false /\ char_is 58 c2 = false) ->
    mask_from n i a = mask_from n i b).
  { intros i a. revert i. induction a as [|c a IH]; intros i [|d b] Hab Hc; simpl in *; try done. f_equal.
    - destruct (Hc 0%nat c d eq_refl eq_refl) as [->|(Hi & -> & -> & -> & ->)]; [done|].
      rewrite (proj2 (Nat.eqb_neq i 0)), (proj2 (Nat.eqb_neq i (n - 1))) by lia. done.
    - apply IH; [lia|]. intros k c1 c2 H1 H2. destruct (Hc (S k) c1 c2 H1 H2) as [|(? & ?)]; [by left|right]. split; [lia|done]. }
  apply Hgen; [congruence|]. intros k c1 c2 H1 H2. destruct (Hk k c1 c2 H1 H2) as [|[Hr Hx]]; [by left|right]. by split.
Qed.

Example masked_address :
  mask_socket_addr (mkSA (ipv4 192 168 1 77) 5000) = "1**.***.*.*7:5000".
Proof. reflexivity. Qed.

(** ** Concrete runs *)

Section examples.
Import Rfc1928.

Let server_addr : SocketAddr := mkSA (ipv4 8 8 8 8) 53.
Let request : Packet := mkPacket (mkHeader DATA 7) (Some (SocketAddress server_addr)) [1].

(** A client whose request has opened a session. *)
Definition connected_client : Server := accept 0 (start 1 (Ok tt)).
Definition state_requested : State := on_packet 1500 0 request (raise 1 (initial 1 0)).
Definition requested : Server := set_client 0 (after_step state_requested) (next_generation state_requested) connected_client.
Definition state_opening : State := on_resolved 0 (Ok [server_addr]) (Ok tt) (raise (g_next requested) state_requested).
Definition opening_session : Server := set_client 0 (after_step state_opening) (next_generation state_opening) requested.
Definition state_served : State := on_sent (H := rfc1928) 1500 (Ok tt) (raise (g_next opening_session) state_opening).
Definition served : Server := set_client 0 (after_step state_served) (next_generation state_served) opening_session.

Lemma served_steps : nsteps (sstep (H := rfc1928) 1500 3) 4 (start 1 (Ok tt)) served.
Proof.
  apply (nsteps_l _ 3 _ connected_client); [by apply s_accept|]. apply (nsteps_l _ 2 _ requested); [|apply (nsteps_l _ 1 _ opening_session); [|apply nsteps_once]].
  - apply (s_client (H := rfc1928) 1500 3 connected_client 0%nat (mkClient (initial 1 0) Live)); [reflexivity|reflexivity|].
    apply (step_packet _ _ _ 0 request); [done..|]. split; unfold is_u8, is_u16; simpl; unfold DATA; lia.
  - apply (s_client (H := rfc1928) 1500 3 requested 0%nat (after_step state_requested)); [reflexivity|reflexivity|].
    apply step_resolved; [done|]. intros ds [= <-]. repeat constructor; vm_compute; done.
  - apply (s_client (H := rfc1928) 1500 3 opening_session 0%nat (after_step state_opening)); [reflexivity|reflexivity|].
    by apply step_sent.
Qed.

Lemma udpgw_server_shutdown_witness :
  (forall y, sessions (c_state (default (mkClient (initial 0 0) Live) (clients served !! 0%nat))) !! 7 = Some y ->
     generation y = 1) /\
  exists m v', nsteps own_step m (stop served) v' /\ (m <= 4)%nat /\ phase v' = Returned (Ok tt).
Proof.
  split.
  - intros y Hy. destruct (proj1 (udpgw_server_shutdown 1500 3 4 1 (Ok tt) served ltac:(lia) ltac:(vm_compute; discriminate) served_steps)
      0%nat (default (mkClient (initial 0 0) Live) (clients served !! 0%nat)) 7 y) as [Hg _].
    + reflexivity.
    + exact Hy.
    + vm_compute in Hg. injection Hg. done.
  - apply (udpgw_server_shutdown 1500 3 5 1 (Ok tt) (stop served)); [lia|vm_compute; discriminate| |reflexivity|by left].
    eapply nsteps_r; [apply served_steps|apply s_shutdown].
Defined.

(** One failed accept ends the server for every client, and the relays of their
    sessions are not told to stop. *)
Example accept_error_ends_server :
  let v := accept_fails (Io (io_other "too many open files")) served in
  sstep (H := rfc1928) 1500 3 served v /\
  phase v = Returned (Err (Io (io_other "too many open files"))) /\
  exists x, clients v !! 0%nat = Some x /\ connected (c_state x) = false /\ size (sessions (c_state x)) = 1%nat /\
    stopped (c_state x) = ∅.
Proof. split; [by apply s_accept_fails|]. split; [done|]. eexists. split; [reflexivity|]. by vm_compute. Qed.

(** A server that cannot bind its address ends with success. *)
Example bind_error_discarded :
  let e := Err (Io (mkIo AddrInUse "address in use")) in
  phase (start 1 e) = Returned e /\ main_async (Some e) (Ok tt) = Ok tt.
Proof. done. Qed.
End examples.
End UdpgwAccept.
