(* ===== verification/Args.v ===== *)
(** * The options of the program (src/src/args.rs)

    The record of options, the constraints its attributes give to the generated
    parser, the checks of [parse_args] and [validate_tun], the defaults of the
    parser and of [Default], and the setters.  The parser itself is generated by
    clap: it is an argument, of which the documented meaning of the attributes
    is assumed.  Text is its UTF-8 bytes. *)

From S2P Require Import Prelude Net Process Routing.

Module Args.
Import Routing.

Inductive Os := Linux | MacOs | Windows | OtherOs.

#[export] Instance Os_eq_dec : EqDecision Os.
Proof. solve_decision. Defined.

(** [log::LevelFilter]. *)
Inductive LevelFilter := LOff | LError | LWarn | LInfo | LDebug | LTrace.

Definition DEFAULT_MTU : Z := 1500.

Section args.
(** [ProxyParameters] of socks5-impl and [IpCidr] of tproxy-config, and the
    handles that only an embedding application sets. *)
Context {ProxyParameters IpCidr RouteBypass UdpRouter : Type}.

Record Args := mkArgs {
  proxy : ProxyParameters;
  tun : option (list Z);
  tun_fd : option Z;
  close_fd_on_drop : option bool;
  unshare : bool;
  unshare_pidfile : option (list Z);
  socket_transfer_fd : option Z;
  admin_command : list (list Z);
  ipv6_enabled : bool;
  setup : bool;
  elevated_console_pid : option Z;
  upstream_bypass : option RouteBypass;
  dns : ArgDns;
  dns_addr : IpAddr;
  virtual_dns_pool : IpCidr;
  virtual_dns_portals : list IpAddr;
  bypass : list IpCidr;
  bypass_process : list (list Z);
  bind_interface : option (list Z);
  mtu : Z;
  tcp_timeout : Z;
  tcp_mss : option Z;
  udp_timeout : Z;
  udp_strategy : ArgUdpStrategy;
  udp_router : option UdpRouter;
  icmp_echo : bool;
  daemonize : bool;
  exit_on_fatal_error : bool;
  max_sessions : Z;
  tcp_read_buffer_size : Z;
  udpgw_server : option SocketAddr;
  udpgw_connections : option Z;
  udpgw_keepalive : option Z;
  verbosity : LevelFilter }.

(** ** Checks *)

(** A byte inside a multi-byte character. *)
Definition is_continuation (b : Z) : bool := (128 <=? b) && (b <? 192).

(** [&p[..n]] of a [str]: a panic when [n] is not at a character boundary. *)
Definition str_prefix (n : nat) (p : list Z) : res Error (list Z) :=
  match p !! n with
  | Some b => if is_continuation b then Panic else Ok (take n p)
  | None => if (length p =? n)%nat then Ok p else Panic
  end.

Definition validate_tun (os : Os) (p : list Z) : res Error (list Z) :=
  if bool_decide (os = MacOs) then
    if (length p <=? 4)%nat then Err (EString "Invalid tun interface name, please use utunX")
    else
      prefix ← str_prefix 4 p;
      if negb (bool_decide (prefix = as_bytes "utun")) then Err (EString "Invalid tun interface name, please use utunX")
      else Ok p
  else Ok p.

(** What the attributes demand of an accepted command line: [conflicts_with],
    [requires], the widths of the types, and the values of [validate_tun]. *)
Record accepted (os : Os) (a : Args) : Prop := {
  tun_or_fd : tun a = None \/ tun_fd a = None;
  close_needs_fd : is_Some (close_fd_on_drop a) -> is_Some (tun_fd a) /\ tun a = None;
  admin_needs_unshare : admin_command a <> [] -> unshare a = true;
  udpgw_needs_server : is_Some (udpgw_connections a) \/ is_Some (udpgw_keepalive a) -> is_Some (udpgw_server a);
  tun_valid : forall p, tun a = Some p -> validate_tun os p = Ok p;
  mtu_width : is_u16 (mtu a);
  no_handles : upstream_bypass a = None /\ udp_router a = None }.

(** [parse_args] behind the generated parser: the options, or the code the
    process exits with. *)
Definition parse_args (os : Os) (args : Args) : Z + Args :=
  if bool_decide (os = Linux) && (negb (setup args) && bool_decide (tun args = None)) then inl (-1) else inr args.

(** ** Defaults *)

(** [Default for Args]. *)
Definition default_args (os : Os) (default_proxy : ProxyParameters) (pool : IpCidr) : Args :=
  mkArgs default_proxy None None None false None None [] false (negb (bool_decide (os = Linux))) None None
    DDirect (ipv4 8 8 8 8) pool [] [] [] None DEFAULT_MTU 600 None 10 SProxy None false false false 200 0 None None None LInfo.

(** The options of a command line that gives only the proxy: every other field
    has its [default_value], or is absent. *)
Definition parsed_default (given_proxy : ProxyParameters) (pool : IpCidr) : Args :=
  mkArgs given_proxy None None None false None None [] false false None None
    DDirect (ipv4 8 8 8 8) pool [] [] [] None DEFAULT_MTU 600 None 10 SProxy None false false false 200 0 None None None LInfo.

(** ** Setters *)

Definition set_proxy (p : ProxyParameters) (a : Args) : Args :=
  mkArgs p (tun a) (tun_fd a) (close_fd_on_drop a) (unshare a) (unshare_pidfile a) (socket_transfer_fd a) (admin_command a)
    (ipv6_enabled a) (setup a) (elevated_console_pid a) (upstream_bypass a) (dns a) (dns_addr a) (virtual_dns_pool a)
    (virtual_dns_portals a) (bypass a) (bypass_process a) (bind_interface a) (mtu a) (tcp_timeout a) (tcp_mss a) (udp_timeout a)
    (udp_strategy a) (udp_router a) (icmp_echo a) (daemonize a) (exit_on_fatal_error a) (max_sessions a)
    (tcp_read_buffer_size a) (udpgw_server a) (udpgw_connections a) (udpgw_keepalive a) (verbosity a).

Definition set_setup (b : bool) (a : Args) : Args :=
  mkArgs (proxy a) (tun a) (tun_fd a) (close_fd_on_drop a) (unshare a) (unshare_pidfile a) (socket_transfer_fd a) (admin_command a)
    (ipv6_enabled a) b (elevated_console_pid a) (upstream_bypass a) (dns a) (dns_addr a) (virtual_dns_pool a)
    (virtual_dns_portals a) (bypass a) (bypass_process a) (bind_interface a) (mtu a) (tcp_timeout a) (tcp_mss a) (udp_timeout a)
    (udp_strategy a) (udp_router a) (icmp_echo a) (daemonize a) (exit_on_fatal_error a) (max_sessions a)
    (tcp_read_buffer_size a) (udpgw_server a) (udpgw_connections a) (udpgw_keepalive a) (verbosity a).

Definition set_tun_fd (fd : option Z) (a : Args) : Args :=
  mkArgs (proxy a) (tun a) fd (close_fd_on_drop a) (unshare a) (unshare_pidfile a) (socket_transfer_fd a) (admin_command a)
    (ipv6_enabled a) (setup a) (elevated_console_pid a) (upstream_bypass a) (dns a) (dns_addr a) (virtual_dns_pool a)
    (virtual_dns_portals a) (bypass a) (bypass_process a) (bind_interface a) (mtu a) (tcp_timeout a) (tcp_mss a) (udp_timeout a)
    (udp_strategy a) (udp_router a) (icmp_echo a) (daemonize a) (exit_on_fatal_error a) (max_sessions a)
    (tcp_read_buffer_size a) (udpgw_server a) (udpgw_connections a) (udpgw_keepalive a) (verbosity a).

Definition set_tun (name : list Z) (a : Args) : Args :=
  mkArgs (proxy a) (Some name) (tun_fd a) (close_fd_on_drop a) (unshare a) (unshare_pidfile a) (socket_transfer_fd a) (admin_command a)
    (ipv6_enabled a) (setup a) (elevated_console_pid a) (upstream_bypass a) (dns a) (dns_addr a) (virtual_dns_pool a)
    (virtual_dns_portals a) (bypass a) (bypass_process a) (bind_interface a) (mtu a) (tcp_timeout a) (tcp_mss a) (udp_timeout a)
    (udp_strategy a) (udp_router a) (icmp_echo a) (daemonize a) (exit_on_fatal_error a) (max_sessions a)
    (tcp_read_buffer_size a) (udpgw_server a) (udpgw_connections a) (udpgw_keepalive a) (verbosity a).

(** ** The options that reach a session *)

Lemma validate_tun_ok os p q : validate_tun os p = Ok q -> q = p /\ (os = MacOs -> take 4 p = as_bytes "utun" /\ (4 < length p)%nat).
Proof.
  unfold validate_tun. case_bool_decide as Ho; [|intros [= <-]; done].
  destruct (Nat.leb_spec (length p) 4) as [|Hl]; [done|]. unfold str_prefix.
  destruct (lookup_lt_is_Some_2 p 4 Hl) as [b ->]. destruct (is_continuation b); [done|]. cbn [mbind res_bind].
  case_bool_decide as Hp; [|done]. intros [= <-]. done.
Qed.

(** Options that pass the parser and [parse_args] name the device a session is
    to use or let the program set it up; the name is acceptable to the system,
    and every dependent option has what it depends on.  On Linux a descriptor is
    only ever accepted together with [--setup]. *)
Theorem args_checked os a b :
  accepted os a -> parse_args os a = inr b ->
  b = a /\ (tun b = None \/ tun_fd b = None) /\ (is_Some (close_fd_on_drop b) -> is_Some (tun_fd b)) /\
  (os = Linux -> setup b = true \/ exists name, tun b = Some name) /\
  (os = Linux -> is_Some (tun_fd b) -> setup b = true) /\
  (os = MacOs -> forall name, tun b = Some name -> take 4 name = as_bytes "utun" /\ (4 < length name)%nat) /\
  (is_Some (udpgw_connections b) -> is_Some (udpgw_server b)) /\ is_u16 (mtu b).
Proof.
  intros Ha Hp. unfold parse_args in Hp. destruct (bool_decide (os = Linux) && _) eqn:E; [done|]. injection Hp as <-.
  destruct Ha as [H1 H2 H3 H4 H5 H6 H7].
  assert (Hl : os = Linux -> setup a = true \/ exists name, tun a = Some name).
  { intros ->. rewrite bool_decide_true in E by done. simpl in E. destruct (setup a); [by left|right].
    simpl in E. apply bool_decide_eq_false_1 in E. destruct (tun a) as [n|]; [by exists n|done]. }
  split_and!; try done.
  - intros Hc. by apply H2.
  - intros Ho Hfd. destruct (Hl Ho) as [|[n Hn]]; [done|]. destruct H1 as [H1|H1]; [congruence|]. rewrite H1 in Hfd. by destruct Hfd.
  - intros -> name Hn. destruct (validate_tun_ok MacOs name name (H5 _ Hn)) as [_ Hu]. by apply Hu.
  - intros Hc. apply H4. by left.
Qed.

(** The defaults of the parser and those of [Default] agree but for the proxy and
    for [setup], which [Default] turns on outside Linux. *)
Lemma defaults_agree os p q pool :
  parsed_default p pool = set_proxy p (set_setup false (default_args os q pool)).
Proof. done. Qed.
End args.

(** A name whose fifth byte is inside a character is not refused: slicing it
    panics. *)
Example tun_name_panics : validate_tun MacOs (as_bytes "tun" ++ [226; 130; 172]) = Panic.
Proof. reflexivity. Qed.

Definition example_args : Args (ProxyParameters := unit) (IpCidr := unit) (RouteBypass := unit) (UdpRouter := unit) :=
  set_tun (as_bytes "tun0") (default_args Linux tt tt).

Lemma args_checked_witness : parse_args Linux example_args = inr example_args /\ (setup example_args = true \/ exists n, tun example_args = Some n).
Proof.
  split; [reflexivity|]. apply (args_checked Linux example_args example_args); [|reflexivity|reflexivity].
  split; [by right|by intros [? ?]|done|by intros [[? ?]|[? ?]]| |vm_compute; split; [discriminate|done]|done].
  by intros p [= <-].
Defined.

(** On Linux a descriptor without [--setup] is refused for a missing name,
    although a name cannot be given with it. *)
Example descriptor_refused :
  parse_args Linux (set_tun_fd (Some 7) (default_args (RouteBypass := unit) (UdpRouter := unit) Linux tt tt)) = inl (-1).
Proof. reflexivity. Qed.
End Args.
