(* ===== verification/Startup.v ===== *)
(** * Starting the program (src/src/bin/main.rs, win_svc.rs, general_api.rs,
    dump_logger.rs)

    [main] with elevation, the daemon, the service and the namespace helper; the
    exported function that takes a command line; the service of Windows; and the
    logger of the library.  What the system and a session answer are arguments;
    a session itself is Lifecycle.v. *)

From S2P Require Import Prelude Net Process Routing Args CommandLine TraceSession Elevation.

Module Startup.
Import Args.

(** ** What is done *)

Inductive Act :=
  | Elevated (r : res IoError (option Z))
  | Daemonized
  | ServiceDispatched
  | RuntimeBuilt
  | SessionRun (mtu : Z) (packet_information : bool)
  | NamespaceHelper (command : list (list Z))
  | HandlerInstalled (ok : bool)
  | ForcedExit.

(** Answers: the files and the fork of the daemon, the service dispatcher, the
    runtime, a session with this MTU ([None] when its task panics), the helper,
    the interrupt handler, and how long dropping the runtime takes. *)
Record Host := mkHost {
  h_win : Elevation.Win;
  h_daemon : res IoError unit;
  h_service : res IoError unit;
  h_runtime : res IoError unit;
  h_session : Z -> bool -> option (res IoError Z);
  h_namespace : res IoError unit;
  h_ctrl_c : res IoError unit;
  h_teardown : Z }.

(** How a process ends: the code given to [exit], or the result of [main]. *)
Inductive Ending := Exit (code : Z) | Return (r : res IoError unit).

Definition exit_status (e : Ending) : Z :=
  match e with Exit c => c | Return (Ok _) => 0 | Return (Err _) => 1 | Return Panic => 101 end.

(** In milliseconds. *)
Definition FORCE_EXIT_TIMEOUT : Z := 2000.

Section startup.
Context {ProxyParameters IpCidr RouteBypass UdpRouter : Type}.
Abbreviation Options := (@Args.Args ProxyParameters IpCidr RouteBypass UdpRouter).

(** ** The namespace helper *)

(** [str::split(' ')]. *)
Fixpoint words (cur : list Z) (s : list Z) : list (list Z) :=
  match s with
  | [] => [cur]
  | c :: s' => if c =? 32 then cur :: words [] s' else words (cur ++ [c]) s'
  end.

Definition unshare_options : list (list Z) :=
  words [] (as_bytes "--user --map-current-user --net --mount --keep-caps --kill-child --fork").

(** The command of [namespace_proxy_main]: this program again, in new
    namespaces, with the socket that brings it sockets of the old one. *)
Definition unshare_command (exe_fd remote_fd : Z) (process_args : list (list Z)) : list (list Z) :=
  [as_bytes "unshare"] ++ unshare_options ++ [as_bytes "/proc/self/fd/" ++ as_bytes (show_dec exe_fd)] ++
  [as_bytes "--socket-transfer-fd"; as_bytes (show_dec remote_fd)] ++ drop 1 process_args.

(** ** main *)

(** Whether the session task only starts the helper. *)
Definition delegates (os : Os) (a : Options) : bool :=
  bool_decide (os = Linux) && unshare a && bool_decide (socket_transfer_fd a = None).

(** The task of the main loop; an error of the helper is only logged. *)
Definition main_loop (os : Os) (host : Host) (exe_fd remote_fd : Z) (process_args : list (list Z)) (a : Options)
    : list Act * option (res IoError Z) :=
  if delegates os a then ([NamespaceHelper (unshare_command exe_fd remote_fd process_args)], Some (Ok 0))
  else ([SessionRun (mtu a) (bool_decide (os = MacOs))], h_session host (mtu a) (bool_decide (os = MacOs))).

(** [main_async]: the task is started before the handler is installed. *)
Definition main_async (os : Os) (host : Host) (exe_fd remote_fd : Z) (process_args : list (list Z)) (a : Options)
    : list Act * res IoError unit :=
  let '(acts, r) := main_loop os host exe_fd remote_fd process_args a in
  let ok := is_ok (h_ctrl_c host) in
  (acts ++ [HandlerInstalled ok],
   match h_ctrl_c host with
   | Ok _ => match r with None => Err (io_other "task panicked") | Some (Ok _) => Ok tt | Some (Err e) => Err e | Some Panic => Panic end
   | Err e => Err e
   | Panic => Panic
   end).

(** From the runtime to the end; the timer thread ends the process when the
    runtime takes too long to stop. *)
Definition run_to_end (os : Os) (host : Host) (exe_fd remote_fd : Z) (process_args : list (list Z)) (a : Options)
    : list Act * Ending :=
  match h_runtime host with
  | Ok _ =>
      let '(acts, r) := main_async os host exe_fd remote_fd process_args a in
      if FORCE_EXIT_TIMEOUT <=? h_teardown host then (RuntimeBuilt :: acts ++ [ForcedExit], Exit (-1))
      else (RuntimeBuilt :: acts, Return r)
  | Err e => ([], Return (Err e))
  | Panic => ([], Return Panic)
  end.

(** [main] behind the parser of the command line. *)
Definition main (os : Os) (host : Host) (exe_fd remote_fd : Z) (process_args : list (list Z)) (parsed : Options) : list Act * Ending :=
  match parse_args os parsed with
  | inl code => ([], Exit code)
  | inr a =>
      let '(elevation, r) :=
        if bool_decide (os = Windows) then
          let r := (Elevation.elevate (h_win host) (Elevation.mkOptions (elevated_console_pid a) (setup a) (daemonize a)) []).1 in
          ([Elevated r], r)
        else ([], Ok None) in
      match r with
      | Err e => (elevation, Return (Err e))
      | Panic => (elevation, Return Panic)
      | Ok (Some code) => (elevation, Exit code)
      | Ok None =>
          if daemonize a && negb (bool_decide (os = Windows)) then
            match h_daemon host with
            | Ok _ => let '(acts, e) := run_to_end os host exe_fd remote_fd process_args a in (elevation ++ [Daemonized] ++ acts, e)
            | Err e => (elevation, Return (Err e))
            | Panic => (elevation, Return Panic)
            end
          else if daemonize a then
            (elevation ++ [ServiceDispatched], Return (h_service host))
          else let '(acts, e) := run_to_end os host exe_fd remote_fd process_args a in (elevation ++ acts, e)
      end
  end.

(** ** The service of Windows *)

Inductive Status := SRunning | SStopped.
Inductive Control := CStop | CInterrogate | COther.
Inductive HandlerResult := NoError | NotImplemented.

(** The event handler: what it answers and whether it cancels the session. *)
Definition event_handler (c : Control) : HandlerResult * bool :=
  match c with CStop => (NoError, true) | CInterrogate => (NoError, false) | COther => (NotImplemented, false) end.

Inductive SvcAct := Registered | Reported (s : Status) | ServiceSession (mtu : Z).

(** [run_service]: [register], [report] and [runtime] are the answers of the
    system; what a session returns is only logged. *)
Definition run_service (register : res IoError unit) (report : Status -> res IoError unit) (runtime : res IoError unit)
    (teardown : Z) : list SvcAct * Ending :=
  match register with
  | Err e => ([], Return (Err e))
  | Panic => ([], Return Panic)
  | Ok _ =>
      match report SRunning with
      | Err e => ([Registered], Return (Err e))
      | Panic => ([Registered], Return Panic)
      | Ok _ =>
          match runtime with
          | Err e => ([Registered; Reported SRunning], Return (Err e))
          | Panic => ([Registered; Reported SRunning], Return Panic)
          | Ok _ =>
              let acts := [Registered; Reported SRunning; ServiceSession DEFAULT_MTU] in
              if FORCE_EXIT_TIMEOUT <=? teardown then (acts, Exit (-1))
              else match report SStopped with
                   | Ok _ => (acts ++ [Reported SStopped], Return (Ok tt))
                   | Err e => (acts, Return (Err e))
                   | Panic => (acts, Return Panic)
                   end
          end
      end
  end.

(** ** The exported function with a command line *)

(** [tun2proxy_run_with_cli_args]: [text] is the argument when it is UTF-8,
    [split] is shlex, [parse] the generated parser, which ends the process when
    it refuses, and [run] is [general_run_for_api]. *)
Definition run_with_cli_args (text : option (list Z)) (split : list Z -> option (list (list Z)))
    (parse : list (list Z) -> option Options) (run : Options -> Z) (usage_code : Z) : Ending :=
  match text with
  | None => Exit (-5)
  | Some t =>
      match split t with
      | None => Exit (-6)
      | Some words => match parse words with Some a => Exit (run a) | None => Exit usage_code end
      end
  end.

(** ** Properties *)

Definition sessions_of (acts : list Act) : list (Z * bool) :=
  omap (fun x => match x with SessionRun m p => Some (m, p) | _ => None end) acts.

Definition helpers_of (acts : list Act) : list (list (list Z)) :=
  omap (fun x => match x with NamespaceHelper c => Some c | _ => None end) acts.

Definition elevations_of (acts : list Act) : list (res IoError (option Z)) :=
  omap (fun x => match x with Elevated r => Some r | _ => None end) acts.

Lemma omap_elevations_app a b : elevations_of (a ++ b) = elevations_of a ++ elevations_of b.
Proof. apply omap_app. Qed.

Lemma omap_sessions_app a b : sessions_of (a ++ b) = sessions_of a ++ sessions_of b.
Proof. apply omap_app. Qed.

Lemma omap_helpers_app a b : helpers_of (a ++ b) = helpers_of a ++ helpers_of b.
Proof. apply omap_app. Qed.

(** What [run_to_end] runs. *)
Lemma run_to_end_spec os host fd rfd pargs a :
  let '(acts, e) := run_to_end os host fd rfd pargs a in
  sessions_of acts = (if is_ok (h_runtime host) && negb (delegates os a) then [(mtu a, bool_decide (os = MacOs))] else []) /\
  helpers_of acts = (if is_ok (h_runtime host) && delegates os a then [unshare_command fd rfd pargs] else []) /\
  elevations_of acts = [] /\
  (exit_status e = 0 <->
     is_ok (h_runtime host) = true /\ is_ok (h_ctrl_c host) = true /\ h_teardown host < FORCE_EXIT_TIMEOUT /\
     (delegates os a = true \/ exists n, h_session host (mtu a) (bool_decide (os = MacOs)) = Some (Ok n))).
Proof.
  unfold run_to_end, main_async, main_loop. destruct (h_runtime host) as [[]|e|]; simpl.
  2,3: split_and!; try done; split; [done|by intros [? _]].
  destruct (delegates os a); simpl;
    (destruct (Z.leb_spec FORCE_EXIT_TIMEOUT (h_teardown host)); simpl; split_and!; try done;
     [split; [done|intros (_ & _ & ? & _); lia]|]).
  - destruct (h_ctrl_c host) as [[]|e|]; simpl; (split; [|by intros (_ & ? & _)]); try done. intros _. split_and!; try done. by left.
  - destruct (h_ctrl_c host) as [[]|e|]; simpl.
    2,3: split; [done|by intros (_ & ? & _)].
    destruct (h_session host (mtu a) (bool_decide (os = MacOs))) as [[n|e|]|]; simpl; split; try done;
      try (intros (_ & _ & _ & [?|[? ?]]); done). intros _. split_and!; try done. right. by exists n.
Qed.

(** What the start of the program promises: at most one session or helper; a
    session only with the MTU of the options and, on Windows, in a process that
    need not be elevated; the code of the elevated process when there is one; and
    success exactly when the session succeeds, if nothing stands before it. *)
Definition started (os : Os) (host : Host) (a : Options) (acts : list Act) (e : Ending) : Prop :=
  (length (sessions_of acts) + length (helpers_of acts) <= 1)%nat /\
  (forall m p, (m, p) ∈ sessions_of acts -> m = mtu a /\ p = bool_decide (os = MacOs) /\
     elevations_of acts = (if bool_decide (os = Windows) then [Ok None] else []) /\ parse_args os a = inr a) /\
  (forall code, elevations_of acts = [Ok (Some code)] -> sessions_of acts = [] /\ exit_status e = code) /\
  (os <> Windows -> parse_args os a = inr a -> daemonize a = false -> delegates os a = false ->
     (exit_status e = 0 <-> is_ok (h_runtime host) = true /\ is_ok (h_ctrl_c host) = true /\ h_teardown host < FORCE_EXIT_TIMEOUT /\
        exists n, h_session host (mtu a) (bool_decide (os = MacOs)) = Some (Ok n))).

(** Nothing was run. *)
Lemma started_quiet os host (a : Options) acts e :
  sessions_of acts = [] -> helpers_of acts = [] ->
  (forall code, elevations_of acts = [Ok (Some code)] -> exit_status e = code) ->
  (os <> Windows -> parse_args os a = inr a -> daemonize a = false -> False) -> started os host a acts e.
Proof.
  intros Hs Hh Hc Hn. unfold started. rewrite Hs, Hh. split_and!; simpl; [lia|by intros ? ? ?%elem_of_nil|by split; [|apply Hc]|].
  intros Ho Hp Hd _. by destruct (Hn Ho Hp Hd).
Qed.

(** The runtime was reached. *)
Lemma started_loud os host fd rfd pargs (a : Options) acts :
  let '(acts1, e) := run_to_end os host fd rfd pargs a in
  parse_args os a = inr a ->
  sessions_of acts = sessions_of acts1 -> helpers_of acts = helpers_of acts1 ->
  elevations_of acts = (if bool_decide (os = Windows) then [Ok None] else []) -> started os host a acts e.
Proof.
  pose proof (run_to_end_spec os host fd rfd pargs a) as Hrun. destruct (run_to_end os host fd rfd pargs a) as [acts1 e].
  destruct Hrun as (Hs1 & Hh1 & Hv1 & He1). intros Hp Hs Hh Hv. unfold started. rewrite Hs, Hh, Hv, Hs1, Hh1. split_and!.
  - destruct (is_ok (h_runtime host)), (delegates os a); simpl; lia.
  - intros m p Hin. destruct (is_ok (h_runtime host) && _); [|by apply elem_of_nil in Hin].
    by apply list_elem_of_singleton in Hin as [= -> ->].
  - intros code Hc. case_bool_decide; simplify_eq.
  - intros _ _ _ Hd. rewrite He1, Hd. split; [intros (? & ? & ? & [?|?]); done|intros (? & ? & ? & ?); auto].
Qed.

(** Starting the program.  It runs at most one session, with the MTU of its
    options, or starts the helper, never both; on Windows a process that set-up
    has to elevate runs none and ends with the code of the elevated one; and
    when nothing stands before the session the program ends with success exactly
    when the session did. *)
Theorem startup_main os host fd rfd pargs (a : Options) :
  let '(acts, e) := main os host fd rfd pargs a in started os host a acts e.
Proof.
  unfold main. destruct (parse_args os a) as [code|b] eqn:Ep.
  { apply started_quiet; try done. intros _ Hp. congruence. }
  assert (b = a) as -> by (unfold parse_args in Ep; destruct (bool_decide _ && _); congruence).
  set (els := if bool_decide (os = Windows) then _ else _).
  assert (Hel : exists acts0 r, els = (acts0, r) /\ sessions_of acts0 = [] /\ helpers_of acts0 = [] /\
    elevations_of acts0 = (if bool_decide (os = Windows) then [r] else []) /\ (os <> Windows -> r = Ok None)).
  { unfold els. case_bool_decide; eexists _, _; (split; [reflexivity|]); by split_and!. }
  destruct Hel as (acts0 & r & -> & Hs0 & Hh0 & Hx & Hnw).
  assert (Hloud := fun acts => started_loud os host fd rfd pargs a acts). pose proof (run_to_end_spec os host fd rfd pargs a) as Hrun.
  destruct (run_to_end os host fd rfd pargs a) as [acts1 e1]. destruct Hrun as (_ & _ & Hv1 & _).
  destruct r as [[code|]|e|]; [| |apply started_quiet; try done; [intros c Hc|intros Ho; by specialize (Hnw Ho)]..].
  - apply started_quiet; [done|done| |intros Ho; by specialize (Hnw Ho)]. intros c Hc. rewrite Hx in Hc. case_bool_decide; by simplify_eq.
  - destruct (daemonize a) eqn:Ed; simpl.
    + destruct (bool_decide (os = Windows)) eqn:Ew; simpl.
      * apply started_quiet; [by rewrite omap_sessions_app, Hs0|by rewrite omap_helpers_app, Hh0| |by b2p].
        intros c Hc. rewrite omap_elevations_app, Hx in Hc. done.
      * destruct (h_daemon host) as [[]|e|]; [|apply started_quiet; try done; [intros c Hc; by rewrite Hx in Hc|congruence]..].
        apply Hloud; [done|by rewrite omap_sessions_app, Hs0|by rewrite omap_helpers_app, Hh0|].
        rewrite omap_elevations_app. change (elevations_of (Daemonized :: acts1)) with (elevations_of acts1).
        by rewrite Hv1, Hx, app_nil_r, ?Ew.
    + apply Hloud; [done|by rewrite omap_sessions_app, Hs0|by rewrite omap_helpers_app, Hh0|].
      by rewrite omap_elevations_app, Hv1, app_nil_r.
  - rewrite Hx in Hc. by case_bool_decide.
  - rewrite Hx in Hc. by case_bool_decide.
Qed.

(** ** The service *)

Definition reports (acts : list SvcAct) : list Status :=
  omap (fun x => match x with Reported s => Some s | _ => None end) acts.

(** A service that ends well has reported that it runs, then run one session,
    then reported that it stopped. *)
Lemma service_reports register report runtime teardown :
  let '(acts, e) := run_service register report runtime teardown in
  e = Return (Ok tt) -> acts = [Registered; Reported SRunning; ServiceSession DEFAULT_MTU; Reported SStopped].
Proof. unfold run_service. by repeat case_match; simplify_eq/=. Qed.
End startup.

(** A service whose runtime cannot be built stays reported as running. *)
Example service_left_running :
  let '(acts, e) := run_service (Ok tt) (fun _ => Ok tt) (Err (io_other "no threads")) 0 in
  exit_status e = 1 /\ reports acts = [SRunning].
Proof. done. Qed.

(** ** The logger of the library (dump_logger.rs) *)

Inductive LogLevel := DOff | DError | DWarn | DInfo | DDebug | DTrace.

(** [From<log::LevelFilter>]. *)
Definition log_level (l : LevelFilter) : LogLevel :=
  match l with LOff => DOff | LError => DError | LWarn => DWarn | LInfo => DInfo | LDebug => DDebug | LTrace => DTrace end.

Definition crate_name : list Z := as_bytes "tun2proxy".

Definition starts_with (p s : list Z) : bool := bool_decide (take (length p) s = p).

(** [Log::log] with [do_dump_log]: what the callback is given.  [line] is the
    formatted text; a zero byte in it has no C string. *)
Definition log (callback : bool) (module_path : option (list Z)) (level : LevelFilter) (line : list Z)
    : res Error (option (LogLevel * list Z)) :=
  if starts_with crate_name (default [] module_path) then
    if existsb (Z.eqb 0) line then Panic
    else Ok (if callback then Some (log_level level, line) else None)
  else Ok None.

(** Only messages of this crate reach the callback, unchanged and with their
    level; logging panics exactly when such a message contains a zero byte. *)
Lemma log_spec callback m level line :
  match log callback m level line with
  | Ok (Some (l, text)) => callback = true /\ l = log_level level /\ text = line /\ take 9 (default [] m) = crate_name
  | Ok None => callback = false \/ take 9 (default [] m) <> crate_name
  | Panic => 0 ∈ line /\ take 9 (default [] m) = crate_name
  | Err _ => False
  end.
Proof.
  unfold log, starts_with. case_bool_decide as Hs; [|by right]. destruct (existsb (Z.eqb 0) line) eqn:E.
  - apply existsb_exists in E as (x & Hx & Heq). apply Z.eqb_eq in Heq as <-. split; [by apply list_elem_of_In|done].
  - destruct callback; [done|by left].
Qed.

(** ** Concrete starts *)

Definition example_host (session : option (res IoError Z)) : Host :=
  mkHost (Elevation.example_win 0 7 true) (Ok tt) (Ok tt) (Ok tt) (fun _ _ => session) (Ok tt) (Ok tt) 10.

Example starts_session :
  main Linux (example_host (Some (Ok 0))) 3 4 [as_bytes "tun2proxy-bin"] Args.example_args =
  ([RuntimeBuilt; SessionRun 1500 false; HandlerInstalled true], Return (Ok tt)).
Proof. reflexivity. Qed.

(** The service runs its session with the default MTU, whatever its options say. *)
Example service_ignores_mtu :
  (run_service (Ok tt) (fun _ => Ok tt) (Ok tt) 0).1 = [Registered; Reported SRunning; ServiceSession 1500; Reported SStopped].
Proof. reflexivity. Qed.

Example unshare_command_example :
  unshare_command 5 6 (as_bytes <$> ["tun2proxy-bin"; "--unshare"; "--setup"]) =
  as_bytes <$> ["unshare"; "--user"; "--map-current-user"; "--net"; "--mount"; "--keep-caps"; "--kill-child"; "--fork";
                "/proc/self/fd/5"; "--socket-transfer-fd"; "6"; "--unshare"; "--setup"].
Proof. reflexivity. Qed.
End Startup.
