(* ===== verification/SessionTask.v ===== *)
(** * The task of a session (src/src/lib.rs)

    What surrounds the relay of a session: the race between the relay and a
    change of the process policy ([run_until_process_policy_change]), and what
    is done with the captured TCP stream when the task is over.  The list of
    bypassed processes changes while the session runs, each time in two steps; a
    poll sees the list of its moment.  Which relay is run is decided in Routing.v. *)

From S2P Require Import Prelude Net ProxyHandler Rfc1928 Process ProcessMatch VirtualDns Routing.

Module SessionTask.
Import Process ProcessMatch Routing.

(** ** The race *)

(** One poll of the task: the list at that moment, the result of the relay if it
    is ready, and which branch is looked at first. *)
Record PollAt (T : Type) := mkPoll { at_list : Shared; relay_ready : option T; relay_first : bool }.
Arguments mkPoll {T}.
Arguments at_list {T}.
Arguments relay_ready {T}.
Arguments relay_first {T}.

(** [run_until_process_policy_change]: [None] while it waits, [Some None] when
    the policy has changed. *)
Fixpoint run_until_process_policy_change {T} (policy : option SessionPolicy) (polls : list (PollAt T)) : option (option T) :=
  match polls with
  | [] => None
  | x :: polls' =>
      match policy with
      | None =>
          match relay_ready x with
          | Some r => Some (Some r)
          | None => run_until_process_policy_change None polls'
          end
      | Some p =>
          match relay_ready x, poll_routing_change (s_list (at_list x)) p with
          | Some r, Changed => Some (if relay_first x then Some r else None)
          | Some r, _ => Some (Some r)
          | None, Changed => Some None
          | None, Idle => run_until_process_policy_change (Some p) polls'
          | None, Irrelevant p' => run_until_process_policy_change (Some p') polls'
          end
      end
  end.

(** ** The policy of a session *)

(** [ProcessMatcher::new], called once when forwarding starts: there is no
    matcher when the list is empty then. *)
Definition process_matcher (initial : ProcessBypass) : bool := is_configured initial.

(** The policy of a session that subscribed at one state of the list and was
    decided at another, and its verdict. *)
Definition session_policy (initial subscribed decided : ProcessBypass) (identity : SessionIdentity) : option SessionPolicy :=
  if process_matcher initial then Some (match_session subscribed decided identity) else None.

Definition bypasses (policy : option SessionPolicy) : bool := match policy with Some p => p_bypass p | None => false end.

(** ** The captured stream *)

Inductive StreamAct := AbortStream | ShutDownStream.

(** What the task does with the stream after its relay, by the branch of the
    dispatch: an error or a changed policy resets the connection, but the error
    of a virtual DNS session is only logged. *)
Definition after_relay {Bind} (action : TcpAction (Bind := Bind)) (result : option (res Error unit)) : list StreamAct :=
  match action, result with
  | TVirtualDns, Some _ => []
  | _, None => [AbortStream]
  | _, Some (Err _) => [AbortStream]
  | _, Some _ => []
  end.

(** The TCP task: its branch, its policy, whether its handler could be created,
    and the polls of its relay; [None] while it runs. *)
Definition tcp_task {Bind} (action : TcpAction (Bind := Bind)) (policy : option SessionPolicy)
    (handler : res IoError unit) (polls : list (PollAt (res Error unit))) : option (list StreamAct) :=
  match action with
  | TRejectProbe => Some [ShutDownStream]
  | TAbort _ => Some [AbortStream]
  | TPanic => Some []
  | TRelay _ _ _ _ _ =>
      match handler with
      | Ok _ => after_relay action <$> run_until_process_policy_change policy polls
      | _ => Some [AbortStream]
      end
  | TPhysicalDns _ | TVirtualDns | TRoutedDns _ => after_relay action <$> run_until_process_policy_change policy polls
  end.

(** The branches that relay. *)
Definition relays {Bind} (action : TcpAction (Bind := Bind)) : bool :=
  match action with TPhysicalDns _ | TVirtualDns | TRoutedDns _ | TRelay _ _ _ _ _ => true | _ => false end.

(** ** Bypassed UDP on Windows *)

(** Where a bypassed UDP session goes: the shared endpoint of its socket, a
    socket of its own bound to this interface, or an error. *)
Inductive BypassPath (Bind : Type) := SharedEndpoint | OwnSocket (bind : option Bind) | BypassFailed (e : IoError).
Arguments SharedEndpoint {Bind}.
Arguments OwnSocket {Bind}.
Arguments BypassFailed {Bind}.

(** [opened] is the answer of the pool within the time limit: a flow or none;
    [None] when it takes too long.  [pool_interface] is the pool's. *)
Definition udp_bypass_path {Bind} (windows local_multicast : bool) (owner : option SocketOwner)
    (opened : option (res IoError bool)) (pool_interface direct_bind : option Bind) : BypassPath Bind :=
  let own := OwnSocket (if windows then match pool_interface with Some i => Some i | None => direct_bind end else direct_bind) in
  if windows && negb local_multicast && bool_decide (is_Some owner) then
    match opened with
    | None => BypassFailed (mkIo TimedOut "UDP bypass setup timed out")
    | Some (Err e) => BypassFailed e
    | Some (Ok true) => SharedEndpoint
    | _ => own
    end
  else own.

(** ** The policy holds at every poll *)

(** The polls of a task: what happened to the list since the poll before. *)
Fixpoint at_polls {T} (b : Shared) (ps : list (list ListEvent * option T * bool)) : list (PollAt T) :=
  match ps with
  | [] => []
  | (es, r, first) :: ps' => mkPoll (updates es b) r first :: at_polls (updates es b) ps'
  end.

Definition written {T} (ps : list (list ListEvent * option T * bool)) : Z := foldr (fun p n => len p.1.1 + n) 0 ps.

Lemma written_nonneg {T} (ps : list (list ListEvent * option T * bool)) : 0 <= written ps.
Proof. induction ps as [|p ps IH]; simpl; [lia|]. pose proof (len_nonneg p.1.1). lia. Qed.

(** The list gives the session's own decision, or a change of it has still to be
    announced; and the relay is not done. *)
Definition undisturbed {T} (p : SessionPolicy) (x : PollAt T) : Prop :=
  (s_pending (at_list x) = 0%nat -> matches_policy (s_list (at_list x)) (p_identities p) = p_bypass p) /\ relay_ready x = None.

(** How the race ended. *)
Definition raced {T} (p : SessionPolicy) (polls : list (PollAt T)) (r : option (option T)) : Prop :=
  match r with
  | None => Forall (undisturbed p) polls
  | Some (Some v) => exists before x after, polls = before ++ x :: after /\ Forall (undisturbed p) before /\ relay_ready x = Some v
  | Some None => exists before x after, polls = before ++ x :: after /\ Forall (undisturbed p) before /\
      matches_policy (s_list (at_list x)) (p_identities p) <> p_bypass p
  end.

Lemma raced_cons {T} p p' x (polls : list (PollAt T)) r :
  p_identities p' = p_identities p -> p_bypass p' = p_bypass p -> undisturbed p x -> raced p' polls r -> raced p (x :: polls) r.
Proof.
  intros Hi Hb Hx Hr.
  assert (Hu : forall y, undisturbed (T := T) p' y <-> undisturbed p y) by (intros y; unfold undisturbed; by rewrite Hi, Hb).
  destruct r as [[v|]|]; simpl in *.
  - destruct Hr as (b & y & a & -> & Hf & Hv). exists (x :: b), y, a. split_and!; [done|constructor; [done|]|done].
    eapply Forall_impl; [exact Hf|]. intros z. by apply Hu.
  - destruct Hr as (b & y & a & -> & Hf & Hv). exists (x :: b), y, a. rewrite Hi, Hb in Hv. split_and!; [done|constructor; [done|]|done].
    eapply Forall_impl; [exact Hf|]. intros z. by apply Hu.
  - constructor; [done|]. eapply Forall_impl; [exact Hr|]. intros z. by apply Hu.
Qed.

(** The policy was decided after [during]; the polls begin after [later]. *)
Lemma race_sound {T} x0 during later p (ps : list (list ListEvent * option T * bool)) :
  bypass_wf (s_list x0) -> len during + len later + written ps < 2 ^ 64 -> p_seen p = changes (s_list x0) ->
  matches_policy (s_list (updates during x0)) (p_identities p) = p_bypass p ->
  let polls := at_polls (updates later (updates during x0)) ps in
  raced p polls (run_until_process_policy_change (Some p) polls).
Proof.
  revert x0 during later p. induction ps as [|[[ls r] first] ps IH]; intros x0 during later p Hb Hl Hs Hd; simpl; [constructor|].
  simpl in Hl. pose proof (written_nonneg ps) as Hw. pose proof (len_nonneg during) as Hld. pose proof (len_nonneg ls) as Hll.
  rewrite <- (updates_app later ls). assert (Hlen : len during + len (later ++ ls) < 2 ^ 64) by (rewrite len_app; lia).
  destruct (poll_exact x0 during (later ++ ls) p Hb Hlen Hs Hd) as [Hp1 Hp2].
  set (current := updates (later ++ ls) (updates during x0)) in *.
  assert (Hu : poll_routing_change (s_list current) p <> Changed -> s_pending current = 0%nat ->
    matches_policy (s_list current) (p_identities p) = p_bypass p).
  { intros Hn Hz. destruct (decide (matches_policy (s_list current) (p_identities p) = p_bypass p)) as [|Hne]; [done|].
    by destruct Hn; apply Hp2. }
  destruct r as [v|].
  - destruct (poll_routing_change (s_list current) p) eqn:Ep.
    + exists [], (mkPoll current (Some v) first), (at_polls current ps). by split_and!.
    + exists [], (mkPoll current (Some v) first), (at_polls current ps). by split_and!.
    + destruct first; (eexists [], _, _; split; [reflexivity|]; split; [constructor|]); [done|by apply Hp1].
  - destruct (poll_routing_change (s_list current) p) as [|p'|] eqn:Ep.
    + eapply raced_cons; [reflexivity|reflexivity|split; [by apply Hu|done]|].
      apply IH; [done|rewrite len_app; lia|done|done].
    + assert (Hc : matches_policy (s_list current) (p_identities p) = p_bypass p /\ p' = mkPolicy (p_identities p) (changes (s_list current)) (p_bypass p) (p_udp_owner p)).
      { unfold poll_routing_change in Ep. destruct (_ =? _); [done|]. destruct (negb _) eqn:En; [done|]. injection Ep as <-.
        split; [|done]. by apply negb_false_iff, Bool.eqb_prop in En. }
      destruct Hc as [Hc ->]. eapply raced_cons; [| |by split|]; [reflexivity|reflexivity|].
      refine (IH current [] [] (mkPolicy (p_identities p) (changes (s_list current)) (p_bypass p) (p_udp_owner p)) _ _ eq_refl Hc).
      * by apply updates_wf, updates_wf.
      * pose proof (len_nonneg later). change (len (A := ListEvent) []) with 0. lia.
    + eexists [], _, _. split; [reflexivity|]. split; [constructor|]. by apply Hp1.
Qed.


(** ** A concrete session *)

Definition curl : Name := as_bytes "curl".

Definition curl_relay : TcpAction (Bind := unit) :=
  TRelay ProxyMgr (mkInfo (mkSA (ipv4 10 0 0 2) 40000) (mkSA (ipv4 1 1 1 1) 443) Tcp 1) None None false.

(** The list before a session. *)
Definition quiet : Shared := mkShared default_bypass 0.


(** A virtual DNS connection whose session fails is dropped without a reset. *)
Example virtual_dns_error_not_reset :
  tcp_task (Bind := unit) TVirtualDns None (Ok tt) [mkPoll quiet (Some (Err (EString "bad query"))) true] = Some [].
Proof. reflexivity. Qed.

(** Names written to the list while it is forwarding apply to new sessions only
    when the list was not empty at the start: otherwise no session is ever
    matched, whatever the list has become, and no established one is ended. *)
Theorem policy_needs_initial_names initial later identity :
  let current := s_list (updates later (mkShared initial 0)) in
  bypasses (session_policy initial current current identity) =
    is_configured initial && matches_policy current (i_names identity) /\
  (is_configured initial = false -> forall T (polls : list (PollAt T)),
     run_until_process_policy_change (session_policy initial current current identity) polls <> Some None).
Proof.
  intros current. unfold session_policy, process_matcher. split.
  - by destruct (is_configured initial).
  - intros -> T polls. induction polls as [|x polls IH]; simpl; [done|]. by destruct (relay_ready x).
Qed.

(** A process that is added to an empty list is still sent to the proxy. *)
Lemma policy_needs_initial_names_witness :
  let identity := mkIdentity [curl] None in
  let current := s_list (updates [Written [curl]; Announced] quiet) in
  matches_policy current [curl] = true /\ bypasses (session_policy default_bypass current current identity) = false.
Proof.
  intros identity current. split; [reflexivity|].
  exact (proj1 (policy_needs_initial_names default_bypass [Written [curl]; Announced] identity)).
Defined.

(** Local multicast never uses the shared endpoint. *)
Lemma multicast_isolated {Bind} windows owner opened (pool direct : option Bind) :
  exists b, udp_bypass_path windows true owner opened pool direct = OwnSocket b.
Proof. unfold udp_bypass_path. rewrite andb_false_r. simpl. by eexists. Qed.
End SessionTask.
