(* ===== verification/ProcessNames.v ===== *)
(** * Reading process names (src/src/process/linux.rs, macos.rs, windows.rs)

    The back ends that ask the operating system for the name of a process: the
    two sources of Linux, the checked answers of macOS, and on Windows the
    iteration of the process table and the query by handle.  What the system
    answers on Windows is a function of the calls made before; the walk over the
    ancestors and the matching are in ProcessMatch.v. *)

From S2P Require Import Prelude Net Process ProcessMatch CommandLine.

Module ProcessNames.
Import Process ProcessMatch.

(** ** Linux *)

(** The components of a path. *)
Fixpoint split_on (c : Z) (cur s : Name) : list Name :=
  match s with
  | [] => [cur]
  | x :: s' => if x =? c then cur :: split_on c [] s' else split_on c (cur ++ [x]) s'
  end.

Definition SLASH : Z := 47.

Definition ordinary (c : Name) : bool := negb (bool_decide (c = [])) && negb (bool_decide (c = [46])).

(** [Path::file_name] on Unix: the last component that is not empty or a dot,
    unless it is the parent. *)
Definition file_name (p : Name) : option Name :=
  match last (List.filter ordinary (split_on SLASH [] p)) with
  | Some c => if bool_decide (c = [46; 46]) then None else Some c
  | None => None
  end.

Section linux.
(** [OsStr::to_str]. *)
Variable to_str : list Z -> option Name.

(** [process_name]: [exe] is the target of /proc/<pid>/exe and [comm] the text of
    /proc/<pid>/comm, when they can be read. *)
Definition process_name_linux (exe : option (list Z)) (comm : option Name) : option Name :=
  match (e ← exe; n ← file_name e; n ← to_str n; if bool_decide (n = []) then None else Some n) with
  | Some n => Some n
  | None =>
      text ← comm;
      let name := trim text in
      if bool_decide (name = []) then None else Some (default name (file_name name))
  end.

Definition process_names_linux (exe : option (list Z)) (comm : option Name) : list Name :=
  option_list (process_name_linux exe comm).
End linux.

Lemma split_on_plain c cur s : Forall (fun x => x <> c) s -> split_on c cur s = [cur ++ s].
Proof.
  intros Hs. revert cur. induction Hs as [|x s Hx Hs IH]; intros cur; simpl; [by rewrite app_nil_r|].
  rewrite (proj2 (Z.eqb_neq x c) Hx), IH. by rewrite <- (assoc_L (++)).
Qed.

Lemma split_on_app c cur a b : exists l, split_on c cur (a ++ c :: b) = l ++ split_on c [] b.
Proof.
  revert cur. induction a as [|x a IH]; intros cur; simpl.
  - rewrite Z.eqb_refl. by exists [cur].
  - destruct (x =? c); [|apply IH]. destruct (IH []) as [l ->]. by exists (cur :: l).
Qed.

(** The file name of a path is what follows the last slash. *)
Lemma file_name_base dir base :
  Forall (fun x => x <> SLASH) base -> ordinary base = true -> base <> [46; 46] ->
  file_name (dir ++ SLASH :: base) = Some base /\ file_name base = Some base.
Proof.
  intros Hb Ho Hp. unfold file_name. destruct (split_on_app SLASH [] dir base) as [l ->].
  rewrite !(split_on_plain SLASH [] base) by done. simpl. rewrite List.filter_app. simpl. rewrite Ho.
  rewrite last_snoc. simpl. by rewrite !bool_decide_false.
Qed.

Lemma split_on_no_slash c cur s x : x ∈ split_on c cur s -> Forall (fun y => y <> c) cur -> Forall (fun y => y <> c) x.
Proof.
  revert cur. induction s as [|y s IH]; intros cur; simpl.
  - intros ->%list_elem_of_singleton. done.
  - destruct (Z.eqb_spec y c) as [->|Hy].
    + intros [->|Hx]%elem_of_cons Hc; [done|]. by eapply IH; [exact Hx|constructor].
    + intros Hx Hc. eapply IH; [exact Hx|]. apply Forall_app; split; [done|by repeat constructor].
Qed.

Lemma file_name_clean p n : file_name p = Some n -> n <> [] /\ Forall (fun y => y <> SLASH) n.
Proof.
  unfold file_name. destruct (last _) as [c|] eqn:E; [|done]. case_bool_decide; [done|]. intros [= ->].
  apply last_Some_elem_of, list_elem_of_In, List.filter_In in E as [Hin Ho]. unfold ordinary in Ho. b2p. split; [done|].
  eapply split_on_no_slash; [by apply list_elem_of_In|constructor].
Qed.

Lemma trim_start_plain s : Forall (fun c => is_whitespace c = false) s -> trim_start s = s.
Proof. destruct 1 as [|c s Hc Hs]; simpl; [done|]. by rewrite Hc. Qed.

(** The text of /proc/<pid>/comm is the name and a line feed. *)
Lemma trim_line s : Forall (fun c => is_whitespace c = false) s -> trim (s ++ [10]) = s.
Proof.
  intros Hs. unfold trim. destruct s as [|c s]; [done|]. simpl trim_start. inversion Hs as [|? ? Hc Hr]; subst. rewrite Hc.
  rewrite app_comm_cons, rev_app_distr. change (trim_start (rev [10] ++ rev (c :: s))) with (trim_start (rev (c :: s))).
  rewrite trim_start_plain by (by apply Forall_rev). apply rev_involutive.
Qed.

(** The name of a process on Linux: the file name of its executable in full when
    that can be read, whatever the truncated name says; otherwise the name of
    the command; it is never empty. *)
Lemma linux_process_name to_str dir base comm exe :
  Forall (fun x => x <> SLASH) base -> ordinary base = true -> base <> [46; 46] -> to_str base = Some base ->
  process_name_linux to_str (Some (dir ++ SLASH :: base)) comm = Some base /\
  (Forall (fun c => is_whitespace c = false) base -> process_name_linux to_str None (Some (base ++ [10])) = Some base) /\
  (forall n, process_name_linux to_str exe comm = Some n -> n <> []).
Proof.
  intros Hb Ho Hp Ht. destruct (file_name_base dir base Hb Ho Hp) as [Hf Hf']. split_and!.
  - unfold process_name_linux. cbn [mbind option_bind].
    rewrite Hf. cbn [mbind option_bind]. rewrite Ht. cbn [mbind option_bind]. unfold ordinary in Ho. b2p. by rewrite bool_decide_false.
  - intros Hw. unfold process_name_linux. cbn [mbind option_bind]. rewrite trim_line by done. unfold ordinary in Ho. b2p.
    rewrite bool_decide_false by done. by rewrite Hf'.
  - intros n. unfold process_name_linux. destruct (e ← exe; _) as [m|] eqn:Em.
    + intros [= ->]. destruct exe as [e|]; [|done]. simpl in Em. destruct (file_name e) as [f|]; [|done]. simpl in Em.
      destruct (to_str f) as [g|]; [|done]. simpl in Em. by case_bool_decide; simplify_eq.
    + destruct comm as [text|]; [|done]. simpl. case_bool_decide; [done|]. intros [= <-].
      destruct (file_name (trim text)) as [f|] eqn:Ef; [|done]. simpl. by apply file_name_clean in Ef as [? _].
Qed.

(** ** macOS *)

(** [process_name]: [length] is what [proc_pidpath] returned for a buffer that
    then holds these bytes; a longer answer than the buffer would be a panic. *)
Definition process_name_macos (from_utf8_lossy : list Z -> Name) (buffer : list Z) (length_ : Z) : res Error (option Name) :=
  if length_ <=? 0 then Ok None
  else if len buffer <? length_ then Panic
  else Ok (n ← file_name (from_utf8_lossy (take (Z.to_nat length_) buffer)); if bool_decide (n = []) then None else Some n).

(** [parent_pid]: [written] bytes of a structure of [size] with this parent. *)
Definition parent_pid_macos (pid written size pbi_ppid : Z) : option Z :=
  if negb (written =? size) then None
  else if (pbi_ppid =? 0) || (pbi_ppid =? pid) then None
  else Some pbi_ppid.

(** An answer within the buffer is never a panic, and a parent is another,
    existing process. *)
Lemma macos_answers lossy buffer n pid written size pp q :
  (n <= len buffer -> process_name_macos lossy buffer n <> Panic) /\
  (parent_pid_macos pid written size pp = Some q -> q = pp /\ q <> 0 /\ q <> pid /\ written = size).
Proof.
  split.
  - intros Hn. unfold process_name_macos. destruct (n <=? 0); [done|]. by rewrite (proj2 (Z.ltb_ge _ _)).
  - unfold parent_pid_macos. destruct (written =? size) eqn:Ew; [|done]. simpl.
    destruct ((pp =? 0) || (pp =? pid)) eqn:E; [done|]. intros [= <-]. b2p. done.
Qed.

(** ** Windows *)

(** [PROCESSENTRY32W]. *)
Record ProcEntry := mkEntry { szExeFile : list Z; th32ProcessID : Z; th32ParentProcessID : Z }.

Inductive Call :=
  | CreateSnapshot (h : option Z)
  | NextEntry (e : ProcEntry)
  | OpenProcess (pid : Z) (h : option Z)
  | QueryImageName (h : Z) (path : option (list Z))
  | CloseHandle (h : Z).

Definition History : Type := list Call.

Record Win := mkWin {
  w_snapshot : History -> option Z;
  w_entries : History -> list ProcEntry;
  w_open : Z -> History -> option Z;
  w_path : Z -> History -> option (list Z);
  from_utf16_lossy : list Z -> Name;
  w_file_name : Name -> option Name }.

Section windows.
Variable w : Win.

(** The entry of the table: the name ends at its terminator. *)
Definition snapshot_process (e : ProcEntry) : SnapshotProcess :=
  mkProcess (from_utf16_lossy w (CommandLine.until_nul (szExeFile e))) (th32ParentProcessID e).

Definition add_process (m : gmap Z SnapshotProcess) (e : ProcEntry) : gmap Z SnapshotProcess :=
  <[th32ProcessID e := snapshot_process e]> m.

Definition toolhelp_processes (h : History) : gmap Z SnapshotProcess * History :=
  match w_snapshot w h with
  | None => (∅, h ++ [CreateSnapshot None])
  | Some s =>
      let h1 := h ++ [CreateSnapshot (Some s)] in
      let es := w_entries w h1 in
      (foldl add_process ∅ es, h1 ++ (NextEntry <$> es) ++ [CloseHandle s])
  end.

Definition process_path_from_handle (pid : Z) (h : History) : option Name * History :=
  match w_open w pid h with
  | None => (None, h ++ [OpenProcess pid None])
  | Some p =>
      let h1 := h ++ [OpenProcess pid (Some p)] in
      let path := w_path w p h1 in
      let h2 := h1 ++ [QueryImageName p path; CloseHandle p] in
      (match path with
       | Some units => if bool_decide (units = []) then None else Some (from_utf16_lossy w units)
       | None => None
       end, h2)
  end.

Definition process_names (pid : Z) (h : History) : list Name * History :=
  if pid =? 0 then ([], h)
  else
    let '(processes, h1) := toolhelp_processes h in
    let names := default [] (ancestors (S (size processes)) processes [] pid) in
    let '(names, h2) :=
      if bool_decide (names = []) then
        let '(path, h2) := process_path_from_handle pid h1 in
        (option_list (path ≫= w_file_name w), h2)
      else (names, h1) in
    if matches_names WeGame names then (names ++ [rule WeGame], h2)
    else
      let '(path, h3) := process_path_from_handle pid h2 in
      (if match path with Some p => matches_path WeGame p | None => false end then names ++ [rule WeGame] else names, h3).
End windows.

(** The handles open after these calls. *)
Fixpoint release (x : Z) (l : list Z) : list Z :=
  match l with [] => [] | y :: l' => if decide (x = y) then l' else y :: release x l' end.

Definition hold (l : list Z) (c : Call) : list Z :=
  match c with
  | CreateSnapshot (Some h) | OpenProcess _ (Some h) => h :: l
  | CloseHandle h => release h l
  | _ => l
  end.

Definition held (h : History) : list Z := foldl hold [] h.

Section proofs.
Variable w : Win.

Lemma held_entries es l : foldl hold l (NextEntry <$> es) = l.
Proof. revert l. induction es as [|e es IH]; intros l; simpl; [done|]. apply IH. Qed.

(** *** What the calls of a lookup are *)

(** The calls that list the processes, with the entries they gave. *)
Inductive listed : list ProcEntry -> History -> Prop :=
  | l_none : listed [] [CreateSnapshot None]
  | l_some s es : listed es (CreateSnapshot (Some s) :: (NextEntry <$> es) ++ [CloseHandle s]).

(** The calls that ask for the path of a process, with the answer. *)
Inductive queried (pid : Z) : option Name -> History -> Prop :=
  | q_denied : queried pid None [OpenProcess pid None]
  | q_failed p : queried pid None [OpenProcess pid (Some p); QueryImageName p None; CloseHandle p]
  | q_empty p : queried pid None [OpenProcess pid (Some p); QueryImageName p (Some []); CloseHandle p]
  | q_path p units : units <> [] ->
      queried pid (Some (from_utf16_lossy w units)) [OpenProcess pid (Some p); QueryImageName p (Some units); CloseHandle p].

Lemma toolhelp_listed h : exists es c, listed es c /\ toolhelp_processes w h = (foldl (add_process w) ∅ es, h ++ c).
Proof.
  unfold toolhelp_processes. destruct (w_snapshot w h) as [s|].
  - eexists _, _. split; [apply (l_some s)|]. by rewrite <- (assoc_L (++)).
  - exists [], [CreateSnapshot None]. by split; [constructor|].
Qed.

Lemma path_queried pid h : exists r c, queried pid r c /\ process_path_from_handle w pid h = (r, h ++ c).
Proof.
  unfold process_path_from_handle. destruct (w_open w pid h) as [p|]; [|by eexists _, _; split; [constructor|]].
  destruct (w_path w p _) as [units|]; [|eexists _, _; split; [apply (q_failed _ p)|by rewrite <- (assoc_L (++))]].
  case_bool_decide as E; [subst; eexists _, _; split; [apply (q_empty _ p)|by rewrite <- (assoc_L (++))]|].
  eexists _, _. split; [by apply (q_path _ p)|by rewrite <- (assoc_L (++))].
Qed.

(** *** The ancestors in the entries *)

(** The entry that counts for a process: the last one with its id. *)
Definition entry_of (es : list ProcEntry) (pid : Z) (e : ProcEntry) : Prop :=
  exists before after, es = before ++ e :: after /\ th32ProcessID e = pid /\
    Forall (fun x => th32ProcessID x <> pid) after.

(** The process and its ancestors: each is the parent named by the one before;
    the line ends at a process with id zero, without an entry, or met before. *)
Inductive lineage (es : list ProcEntry) (seen : list Z) : Z -> list ProcEntry -> Prop :=
  | ln_end pid : pid = 0 \/ pid ∈ seen \/ (forall e, e ∈ es -> th32ProcessID e <> pid) -> lineage es seen pid []
  | ln_step pid e line : pid <> 0 -> pid ∉ seen -> entry_of es pid e ->
      lineage es (pid :: seen) (th32ParentProcessID e) line -> lineage es seen pid (e :: line).

(** The name of an entry: the text before its terminator. *)
Definition exe_name (e : ProcEntry) (n : Name) : Prop :=
  exists text rest, szExeFile e = text ++ rest /\ (0 ∉ text) /\ (rest = [] \/ head rest = Some 0) /\
    n = from_utf16_lossy w text.

Definition line_names (line : list ProcEntry) (names : list Name) : Prop :=
  exists all, Forall2 exe_name line all /\ names = List.filter (fun n => negb (bool_decide (n = []))) all.

Lemma until_nul_split l :
  exists rest, l = CommandLine.until_nul l ++ rest /\ (0 ∉ CommandLine.until_nul l) /\ (rest = [] \/ head rest = Some 0).
Proof.
  induction l as [|u l (rest & E & Hn & Hr)]; [exists []; split_and!; [done|apply not_elem_of_nil|by left]|].
  cbn [CommandLine.until_nul]. destruct (Z.eqb_spec u 0) as [->|Hu].
  - exists (0 :: l). split_and!; [done|apply not_elem_of_nil|by right].
  - exists rest. split_and!; [by rewrite E at 1|by apply not_elem_of_cons|done].
Qed.

Lemma snapshot_name e : exe_name e (p_name (snapshot_process w e)).
Proof. destruct (until_nul_split (szExeFile e)) as (rest & ? & ? & ?). by exists (CommandLine.until_nul (szExeFile e)), rest. Qed.

Lemma processes_entry es pid m :
  match foldl (add_process w) m es !! pid with
  | Some p => (exists e, entry_of es pid e /\ p = snapshot_process w e) \/
      m !! pid = Some p /\ Forall (fun x => th32ProcessID x <> pid) es
  | None => m !! pid = None /\ Forall (fun x => th32ProcessID x <> pid) es
  end.
Proof.
  revert m. induction es as [|e es IH]; intros m; cbn [foldl].
  { destruct (m !! pid) eqn:E; [right|]; by rewrite ?E. }
  specialize (IH (add_process w m e)).
  destruct (foldl (add_process w) (add_process w m e) es !! pid) as [p|].
  - destruct IH as [(e' & (a & b & -> & Hp & Hb) & ->)|[Hm Hf]]; [left; exists e'; split; [by exists (e :: a), b|done]|].
    unfold add_process in Hm. destruct (decide (th32ProcessID e = pid)) as [He|He].
    + rewrite He, lookup_insert_eq in Hm. injection Hm as <-. left. exists e. split; [by exists [], es|done].
    + rewrite lookup_insert_ne in Hm by done. right. split; [done|by constructor].
  - destruct IH as [Hm Hf]. unfold add_process in Hm. apply lookup_insert_None in Hm as [Hm He]. split; [done|by constructor].
Qed.

Lemma walk_lineage es seen pid ps :
  walk (foldl (add_process w) ∅ es) seen pid ps -> exists line, lineage es seen pid line /\ ps = snapshot_process w <$> line.
Proof.
  induction 1 as [seen pid Hend|seen pid p ps H0 Hs Hp _ (line & Hl & ->)].
  - exists []. split; [|done]. apply ln_end. destruct Hend as [?|[?|Hn]]; [tauto|tauto|]. right. right.
    pose proof (processes_entry es pid ∅) as Hx. rewrite Hn in Hx. destruct Hx as [_ Hf]. by apply Forall_forall.
  - pose proof (processes_entry es pid ∅) as Hx. rewrite Hp in Hx. destruct Hx as [(e & He & ->)|[Hx _]]; [|by rewrite lookup_empty in Hx].
    exists (e :: line). split; [by apply ln_step|done].
Qed.

Lemma ancestors_lineage es pid :
  exists line, lineage es [] pid line /\
    line_names line (default [] (ancestors (S (size (foldl (add_process w) ∅ es))) (foldl (add_process w) ∅ es) [] pid)).
Proof.
  destruct (ancestors_walk (S (size (foldl (add_process w) ∅ es))) (foldl (add_process w) ∅ es) [] pid) as (ps & Hw & ->);
    [constructor|by intros x ?%not_elem_of_nil|simpl; lia|].
  apply walk_lineage in Hw as (line & Hl & ->). exists line. split; [done|]. cbn [default]. unfold named.
  exists (p_name <$> (snapshot_process w <$> line)). split; [|done].
  clear Hl. induction line; constructor; [apply snapshot_name|done].
Qed.

Lemma listed_held es c h : listed es c -> held (h ++ c) = held h.
Proof.
  unfold held. destruct 1; rewrite foldl_app; [done|]. cbn [foldl hold]. rewrite foldl_app, held_entries. simpl. by rewrite decide_True.
Qed.

Lemma queried_held pid r c h : queried pid r c -> held (h ++ c) = held h.
Proof. unfold held. destruct 1; rewrite foldl_app; simpl; by rewrite ?decide_True. Qed.

(** The names found directly, by the calls [c]: those of the line, or the file
    name of the path if there are none. *)
Inductive direct_names (pid : Z) (own : list Name) : list Name -> History -> Prop :=
  | d_line : own <> [] -> direct_names pid own own []
  | d_path path c : own = [] -> queried pid path c -> direct_names pid own (option_list (path ≫= w_file_name w)) c.

(** The profile is added, by the calls [c], if these names or the path match. *)
Inductive profiled (pid : Z) (base : list Name) : list Name -> History -> Prop :=
  | p_names : matches_names WeGame base = true -> profiled pid base (base ++ [rule WeGame]) []
  | p_path path c : matches_names WeGame base = false -> queried pid (Some path) c -> matches_path WeGame path = true ->
      profiled pid base (base ++ [rule WeGame]) c
  | p_plain path c : matches_names WeGame base = false -> queried pid path c ->
      (forall p, path = Some p -> matches_path WeGame p = false) -> profiled pid base base c.

Lemma profile_spec pid base h :
  exists c names,
    (if matches_names WeGame base then (base ++ [rule WeGame], h)
     else let '(path, h3) := process_path_from_handle w pid h in
          (if match path with Some p => matches_path WeGame p | None => false end then base ++ [rule WeGame] else base, h3))
      = (names, h ++ c) /\ profiled pid base names c.
Proof.
  destruct (matches_names WeGame base) eqn:Em.
  { exists [], (base ++ [rule WeGame]). rewrite app_nil_r. split; [done|by constructor]. }
  destruct (path_queried pid h) as (r & c & Hq & ->). destruct r as [p|].
  - destruct (matches_path WeGame p) eqn:Ep; eexists c, _; (split; [done|]); [by eapply p_path|].
    eapply p_plain; [done|exact Hq|]. by intros p' [= <-].
  - exists c, base. split; [done|]. by eapply p_plain.
Qed.

(** C39. The names of a process on Windows, whatever the system answers: one
    snapshot of the processes is read; the names are the non-empty executable
    names of the process and its ancestors in it, nearest first, where the last
    entry of an id counts and the line ends at id zero, at a missing process or
    before a repetition; if there are none, the file name of the path that
    opening the process gives.  The name of the profile is added exactly if
    these names match it or the path asked for after them does.  Every handle
    that was opened has been closed. *)
Theorem windows_process_names pid h :
  pid <> 0 ->
  held (process_names w pid h).2 = held h /\
  exists es line own base c1 c2 c3, listed es c1 /\ lineage es [] pid line /\ line_names line own /\
    direct_names pid own base c2 /\ profiled pid base (process_names w pid h).1 c3 /\
    (process_names w pid h).2 = h ++ c1 ++ c2 ++ c3.
Proof.
  intros Hpid. unfold process_names. rewrite (proj2 (Z.eqb_neq _ _) Hpid).
  destruct (toolhelp_listed h) as (es & c1 & Hc1 & ->). destruct (ancestors_lineage es pid) as (line & Hl & Hn).
  cbv beta iota zeta. set (own := default [] _) in *.
  set (found := if bool_decide (own = []) then _ else _).
  assert (Hd : exists base c2, direct_names pid own base c2 /\ found = (base, h ++ c1 ++ c2)).
  { unfold found. case_bool_decide as E; [|exists own, []; rewrite app_nil_r; split; [by constructor|done]].
    destruct (path_queried pid (h ++ c1)) as (r & c2 & Hq & ->). eexists _, c2. split; [by apply d_path|by rewrite <- (assoc_L (++))]. }
  destruct Hd as (base & c2 & Hd & Hf). rewrite Hf. destruct (profile_spec pid base (h ++ c1 ++ c2)) as (c3 & names & -> & Hp).
  cbn [fst snd]. split.
  - assert (H3 : held ((h ++ c1 ++ c2) ++ c3) = held (h ++ c1 ++ c2)) by (destruct Hp; rewrite ?app_nil_r; [done|by eapply queried_held..]).
    rewrite H3, (assoc_L (++)). assert (H2 : held ((h ++ c1) ++ c2) = held (h ++ c1)) by (destruct Hd; rewrite ?app_nil_r; [done|by eapply queried_held]).
    rewrite H2. by eapply listed_held.
  - exists es, line, own, base, c1, c2, c3. split_and!; try done. by rewrite <- !(assoc_L (++)).
Qed.

(** There is no process with id zero. *)
Lemma windows_idle_process h : process_names w 0 h = ([], h).
Proof. done. Qed.
End proofs.

(** A table with one entry twice: the later one counts. *)
Definition example_win : Win :=
  mkWin (fun _ => Some 5) (fun _ => [mkEntry (as_bytes "old" ++ [0; 9]) 7 0; mkEntry (as_bytes "curl.exe" ++ [0]) 7 3])
    (fun _ _ => None) (fun _ _ => None) (fun u => u) (fun _ => None).

Lemma windows_process_names_witness :
  (process_names example_win 7 []).1 = [as_bytes "curl.exe"] /\ held (process_names example_win 7 []).2 = [] /\
  exists es line own base c1 c2 c3, listed es c1 /\ lineage es [] 7 line /\ line_names example_win line own /\
    direct_names example_win 7 own base c2 /\ profiled example_win 7 base [as_bytes "curl.exe"] c3 /\
    (process_names example_win 7 []).2 = [] ++ c1 ++ c2 ++ c3.
Proof.
  split; [reflexivity|]. exact (windows_process_names example_win 7 [] ltac:(discriminate)).
Defined.
End ProcessNames.
