(* ===== verification/Entry.v ===== *)
(** * Entering the forwarding loop (src/src/lib.rs, src/src/general_api.rs)

    The entry points of the library and everything [run_with_preselected_egress]
    does before its loop accepts a session: the upstream, the fake resolver, the
    interface, the stack, the Echo flows, the transferred sockets, the gateway
    client, and the tasks that are spawned on the way.  What the system and the
    libraries answer is a record of functions; what was done is a history.  The
    loop itself is in Forwarding.v, the decisions of its sessions in Routing.v.
    The wait for the routes of an earlier session is at the end. *)

From S2P Require Import Prelude Net Socks5Impl Persistence VirtualDns VirtualDnsQuery Routing Process Icmp Direct SocketTransfer Udpgw UdpgwClient Lifecycle Forwarding Args.

Module Entry.
Import Routing Args.

(** ** What happens before the loop *)

(** [ipstack::TcpConfig] and [IpStackConfig]: the fields that are set here. *)
Record TcpConfig := mkTcp { tcp_idle : Z; read_buffer_size : Z; mss_option : option Z }.
Record StackConfig := mkStack { stack_mtu : Z; stack_tcp : TcpConfig; stack_udp_timeout : Z }.

(** The tasks owned by the loop that are not sessions. *)
Inductive Background :=
  | RefreshEgress
  | RetryTrace
  | Producer (p : SocketTransfer.SocketProtocol) (d : SocketTransfer.SocketDomain)
  | Heartbeat
  | MaintainBypass
  | ReportSessions.

Inductive Event :=
  | Resolved (r : res IoError (list SocketAddr))
  | Detected (manual tun : option (list Z)) (r : res Error Direct.BindInterface)
  | TraceStarted (ok : bool)
  | StackCreated (c : StackConfig)
  | FdTouched (e : SocketTransfer.FdEvent)
  | Spawned (t : Background).

Definition spawned (h : list Event) : list Background :=
  omap (fun e => match e with Spawned t => Some t | _ => None end) h.

Definition detections (h : list Event) : list (res Error Direct.BindInterface) :=
  omap (fun e => match e with Detected _ _ r => Some r | _ => None end) h.

(** The target and the features of the build. *)
Record Build := mkBuild { target : Os; unshare_feature : bool; udpgw_feature : bool }.

Definition is_desktop (b : Build) : bool := negb (bool_decide (target b = OtherOs)).
Definition is_windows (b : Build) : bool := bool_decide (target b = Windows).
Definition takes_sockets (b : Build) : bool := bool_decide (target b = Linux) && unshare_feature b.

(** The answers: the resolver, the interfaces, whether the trace of DNS callers
    starts, the limits of the stack, and the descriptor behind a number. *)
Record Host := mkHost {
  resolve_using_tokio : Address -> res IoError (list SocketAddr);
  detect : option (list Z) -> option (list Z) -> res Error Direct.BindInterface;
  trace_starts : bool;
  accepts_mtu : Z -> res Error unit;
  tcp_default : TcpConfig;
  descriptor : Z -> SocketTransfer.Descriptor }.

Definition UDPGW_MAX_CONNECTIONS : Z := 5.
Definition UDPGW_KEEPALIVE_TIME : Z := 30.

Section entry.
Context `{VirtualDns.LruCache} {RouteBypass : Type}.

Abbreviation Router := (SocketAddr -> option string -> bool -> Routing.UdpRoute) (only parsing).
Abbreviation Options :=
  (Args.Args (ProxyParameters := Icmp.EchoProxy) (IpCidr := IpAddr * IpAddr) (RouteBypass := RouteBypass) (UdpRouter := Router)).

(** What the loop starts with. *)
Record Prepared := mkPrepared {
  p_manager : Routing.Upstream;
  p_virtual_dns : option VirtualDns.VirtualDns;
  p_matches : bool;
  p_bind : option Direct.BindInterface;
  p_echo : option Icmp.EchoFlows;
  p_stack : StackConfig;
  p_queue : bool;
  p_udpgw : option UdpgwClient.UdpGwClient }.

Variable b : Build.
Variable host : Host.

Definition Prep (A : Type) : Type := M (list Event) Error A.

Definition note (e : Event) : Prep unit := modify (fun h => h ++ [e]).

(** The address of the proxy: the first one its name resolves to. *)
Definition server_addr (a : Options) : Prep (option SocketAddr) :=
  match Icmp.ep_addr (proxy a) with
  | None => mret None
  | Some addr =>
      let r := resolve_using_tokio host addr in
      note (Resolved r);;
      l ← lift (map_err Io r);
      mret (head l)
  end.

(** The resolver of fake addresses: the one of the caller, also when names are
    no longer faked, or else a fresh one. *)
Definition virtual_dns (a : Options) (state : option VirtualDns.VirtualDns) : option VirtualDns.VirtualDns :=
  match state with
  | Some v => Some v
  | None =>
      if bool_decide (dns a = Routing.DVirtual)
      then Some (VirtualDns.new (virtual_dns_pool a).1 (virtual_dns_pool a).2) else None
  end.

Definition process_matcher (env : Forwarding.NetworkEnvironment) (names : Process.ProcessBypass) : bool :=
  is_desktop b && Forwarding.matches_processes env names.

Definition find_egress (a : Options) (env : Forwarding.NetworkEnvironment) : Prep (option Direct.BindInterface) :=
  if is_desktop b then
    match env with
    | Forwarding.Physical None =>
        let r := detect host (bind_interface a) (tun a) in
        note (Detected (bind_interface a) (tun a) r);;
        lift (Forwarding.direct_bind env r)
    | _ => lift (Forwarding.direct_bind env (detect host (bind_interface a) (tun a)))
    end
  else mret (match env with Forwarding.Physical egress => egress | Forwarding.Provider => None end).

(** The refresh of the interface and the trace of DNS callers, on Windows. *)
Definition watch_egress (bind : option Direct.BindInterface) : Prep unit :=
  match is_windows b, bind with
  | true, Some _ =>
      note (Spawned RefreshEgress);;
      note (TraceStarted (trace_starts host));;
      (if trace_starts host then mret tt else note (Spawned RetryTrace))
  | _, _ => mret tt
  end.

Definition stack_config (mtu : Z) (a : Options) : StackConfig :=
  let d := tcp_default host in
  mkStack mtu
    (mkTcp (tcp_timeout a)
       (if 0 <? tcp_read_buffer_size a then tcp_read_buffer_size a else read_buffer_size d)
       (match tcp_mss a with Some mss => Some mss | None => mss_option d end))
    (udp_timeout a).

Definition touch (r : res IoError unit * list SocketTransfer.FdEvent) : Prep unit :=
  modify (fun h => h ++ (FdTouched <$> r.2));; lift (map_err Io r.1).

(** [create_socket_queue]: a task for every kind of socket. *)
Definition create_socket_queue (a : Options) : Prep unit :=
  note (Spawned (Producer SocketTransfer.TcpSockets SocketTransfer.IpV4));;
  (if ipv6_enabled a then note (Spawned (Producer SocketTransfer.TcpSockets SocketTransfer.IpV6)) else mret tt);;
  note (Spawned (Producer SocketTransfer.UdpSockets SocketTransfer.IpV4));;
  (if ipv6_enabled a then note (Spawned (Producer SocketTransfer.UdpSockets SocketTransfer.IpV6)) else mret tt).

Definition socket_queue (a : Options) : Prep bool :=
  match takes_sockets b, socket_transfer_fd a with
  | true, Some fd =>
      touch (SocketTransfer.reconstruct_socket (descriptor host fd));;
      touch (SocketTransfer.reconstruct_transfer_socket (descriptor host fd));;
      create_socket_queue a;;
      mret true
  | _, _ => mret false
  end.

Definition udpgw_client (mtu : Z) (a : Options) : Prep (option UdpgwClient.UdpGwClient) :=
  match udpgw_feature b, udpgw_server a with
  | true, Some addr =>
      note (Spawned Heartbeat);;
      mret (Some (UdpgwClient.new_client mtu
        (Z.to_nat (default UDPGW_MAX_CONNECTIONS (udpgw_connections a)))
        (default UDPGW_KEEPALIVE_TIME (udpgw_keepalive a)) (udp_timeout a) addr))
  | _, _ => mret None
  end.

(** [run_with_preselected_egress] up to its loop. *)
Definition prepare (mtu : Z) (a : Options) (names : Process.ProcessBypass) (state : option VirtualDns.VirtualDns)
    (env : Forwarding.NetworkEnvironment) : Prep Prepared :=
  (if negb (is_desktop b) && bool_decide (dns a = Routing.DPhysical)
   then throw (EString "physical DNS requires a desktop physical interface") else mret tt);;
  addr ← server_addr a;
  mgr ← lift (Routing.select_manager (Icmp.ep_type (proxy a)) addr);
  bind ← find_egress a env;
  watch_egress bind;;
  lift (accepts_mtu host mtu);;
  note (StackCreated (stack_config mtu a));;
  echo ← lift (map_err Io (Icmp.new (icmp_echo a) (proxy a) mtu));
  queue ← socket_queue a;
  udpgw ← udpgw_client mtu a;
  (if is_windows b then note (Spawned MaintainBypass) else mret tt);;
  note (Spawned ReportSessions);;
  mret (mkPrepared mgr (virtual_dns a state) (process_matcher env names) bind echo (stack_config mtu a) queue udpgw).

(** When the code of a background task is over: the refresh and the producers
    loop forever, the maintenance of the flows and the report wait for the
    shutdown, a retry ends with its success and the heartbeat with an error. *)
Definition lifetime (t : Background) : Forwarding.Lifetime :=
  match t with
  | RefreshEgress | Producer _ _ => Forwarding.Endless
  | MaintainBypass | ReportSessions => Forwarding.UntilShutdown
  | RetryTrace | Heartbeat => Forwarding.MayEnd
  end.

(** The loop that follows: the tasks spawned so far, and the interface. *)
Definition first_loop (p : Prepared) (h : list Event) : Forwarding.Loop :=
  Forwarding.start (lifetime <$> spawned h) (p_bind p).

Definition loop_options (a : Options) : Forwarding.Options :=
  Forwarding.mkOptions (max_sessions a) (exit_on_fatal_error a) (is_windows b).

(** The configuration that the sessions are dispatched with. *)
Definition session_config (a : Options) (p : Prepared) : Routing.Config :=
  Routing.mkConfig (is_desktop b) (dns a) (dns_addr a) (ipv6_enabled a) (udp_strategy a) (Icmp.ep_type (proxy a))
    (virtual_dns_portals a) (udp_router a) (UdpgwClient.udpgw_server <$> p_udpgw p) (p_bind p).

(** ** The entry points *)

Definition run_with_process_bypass_and_virtual_dns (mtu : Z) (a : Options) (names : Process.ProcessBypass)
    (state : option VirtualDns.VirtualDns) : Prep Prepared :=
  prepare mtu a names state (Forwarding.Physical None).

Definition run_with_process_bypass (mtu : Z) (a : Options) (names : Process.ProcessBypass) : Prep Prepared :=
  run_with_process_bypass_and_virtual_dns mtu a names None.

Definition run (mtu : Z) (a : Options) : Prep Prepared :=
  run_with_process_bypass mtu a (Process.new (bypass_process a)).

(** The guard of [run_with_system_managed_network], and the call. *)
Definition run_with_system_managed_network (mtu : Z) (a : Options) (state : option VirtualDns.VirtualDns) : Prep Prepared :=
  if setup a || negb (bool_decide (bypass_process a = [])) || bool_decide (is_Some (bind_interface a)) ||
     bool_decide (dns a = Routing.DPhysical)
  then throw (EString "system-managed packet tunnels cannot configure routes, bind an interface or match processes")
  else prepare mtu a (Process.new []) state Forwarding.Provider.

(** ** Properties *)

(** The tasks of a start that succeeds, in order. *)
Definition watch_tasks (bind : option Direct.BindInterface) : list Background :=
  if is_windows b && bool_decide (is_Some bind) then RefreshEgress :: Lifecycle.when (negb (trace_starts host)) [RetryTrace] else [].

Definition producer_tasks (a : Options) : list Background :=
  let both p := Producer p SocketTransfer.IpV4 :: Lifecycle.when (ipv6_enabled a) [Producer p SocketTransfer.IpV6] in
  Lifecycle.when (takes_sockets b && bool_decide (is_Some (socket_transfer_fd a)))
    (both SocketTransfer.TcpSockets ++ both SocketTransfer.UdpSockets).

Definition start_tasks (a : Options) (bind : option Direct.BindInterface) : list Background :=
  watch_tasks bind ++ producer_tasks a ++
  Lifecycle.when (udpgw_feature b && bool_decide (is_Some (udpgw_server a))) [Heartbeat] ++
  Lifecycle.when (is_windows b) [MaintainBypass] ++ [ReportSessions].

(** The interface that belongs to an environment, and the lookups it takes. *)
Definition egress_of (env : Forwarding.NetworkEnvironment) (bind : option Direct.BindInterface) (h : list Event) : Prop :=
  match env with
  | Forwarding.Provider => bind = None /\ detections h = []
  | Forwarding.Physical (Some i) => bind = Some i /\ detections h = []
  | Forwarding.Physical None =>
      if is_desktop b then exists i, bind = Some i /\ detections h = [Ok i] else bind = None /\ detections h = []
  end.

(** The system and the libraries return. *)
Record safe_host : Prop := {
  s_resolve : forall x, resolve_using_tokio host x <> Panic;
  s_detect : forall m t, detect host m t <> Panic;
  s_mtu : forall m, accepts_mtu host m <> Panic;
  s_fd : forall n, (SocketTransfer.reconstruct_socket (descriptor host n)).1 <> Panic /\
                   (SocketTransfer.reconstruct_transfer_socket (descriptor host n)).1 <> Panic }.

(** [m] returns and adds events to the history, related by [P]. *)
Definition emits {A} (m : Prep A) (P : res Error A -> list Event -> Prop) : Prop :=
  forall h, exists r d, m h = (r, h ++ d) /\ r <> Panic /\ P r d.

Lemma emits_bind {A B} (m : Prep A) (k : A -> Prep B) P Q :
  emits m P ->
  (forall x d, P (Ok x) d -> emits (k x) (fun r d' => Q r (d ++ d'))) ->
  (forall e d, P (Err e) d -> Q (Err e) d) ->
  emits (m ≫= k) Q.
Proof.
  intros Hm Hk He h. destruct (Hm h) as (r & d & E & Hr & HP). unfold mbind, M_bind. rewrite E.
  destruct r as [x | e |]; [| by exists (Err e), d; auto | done].
  destruct (Hk x d HP (h ++ d)) as (r & d' & E' & Hr' & HQ). exists r, (d ++ d'). rewrite E', app_assoc. auto.
Qed.

Lemma emits_weaken {A} (m : Prep A) (P Q : res Error A -> list Event -> Prop) :
  emits m P -> (forall r d, r <> Panic -> P r d -> Q r d) -> emits m Q.
Proof. intros Hm Hw h. destruct (Hm h) as (r & d & ? & ? & ?). exists r, d. auto. Qed.

Lemma emits_ret {A} (x : A) : emits (mret x) (fun r d => r = Ok x /\ d = []).
Proof. intros h. exists (Ok x), []. by rewrite app_nil_r. Qed.

Lemma emits_lift {A} (r : res Error A) : r <> Panic -> emits (lift r) (fun r' d => r' = r /\ d = []).
Proof. intros Hr h. exists r, []. by rewrite app_nil_r. Qed.

Lemma emits_note e : emits (note e) (fun r d => r = Ok tt /\ d = [e]).
Proof. intros h. by exists (Ok tt), [e]. Qed.

Lemma map_err_safe {A E F} (f : E -> F) (r : res E A) : r <> Panic -> map_err f r <> Panic.
Proof. by destruct r. Qed.

Lemma spawned_app h d : spawned (h ++ d) = spawned h ++ spawned d.
Proof. apply omap_app. Qed.

Lemma detections_app h d : detections (h ++ d) = detections h ++ detections d.
Proof. apply omap_app. Qed.

(** Nothing spawned, nothing looked up. *)
Definition quiet (d : list Event) : Prop := spawned d = [] /\ detections d = [].

Section specs.
Hypothesis safe : safe_host.

Lemma server_addr_emits a : emits (server_addr a) (fun _ d => quiet d).
Proof.
  unfold server_addr. destruct (Icmp.ep_addr (proxy a)) as [x |].
  - eapply emits_bind; [apply emits_note | | by intros ? ? [? ?]]. intros _ d [_ ->].
    eapply emits_bind; [apply emits_lift, map_err_safe, (s_resolve safe) | |].
    + intros l d [_ ->]. eapply emits_weaken; [apply emits_ret |]. by intros r d _ [-> ->].
    + by intros e d [_ ->].
  - eapply emits_weaken; [apply emits_ret |]. by intros r d _ [-> ->].
Qed.

Lemma find_egress_emits a env :
  emits (find_egress a env) (fun r d => spawned d = [] /\
    match r with
    | Ok bind => egress_of env bind d
    | _ => env = Forwarding.Physical None /\ is_desktop b = true
    end).
Proof.
  unfold find_egress, egress_of. destruct (is_desktop b).
  - destruct env as [[i |] |]; try (eapply emits_weaken; [by apply emits_lift | by intros r d _ [-> ->]]).
    eapply emits_bind; [apply emits_note | | by intros ? ? [? ?]]. intros _ d [_ ->].
    pose proof (s_detect safe (bind_interface a) (tun a)) as Hd.
    destruct (detect host _ _) as [i | e |] eqn:E; [| | done]; cbn [Forwarding.direct_bind mbind res_bind];
      (eapply emits_weaken; [by apply emits_lift |]); intros r d _ [-> ->]; [split; [done | by eexists] | done].
  - eapply emits_weaken; [apply emits_ret |]. intros r d _ [-> ->]. by destruct env as [[i |] |].
Qed.

Lemma watch_egress_emits bind :
  emits (watch_egress bind) (fun r d => r = Ok tt /\ spawned d = watch_tasks bind /\ detections d = []).
Proof.
  intros h. unfold watch_egress, watch_tasks. destruct (is_windows b), bind as [i |];
    try (exists (Ok tt), []; by rewrite app_nil_r).
  unfold note; destruct (trace_starts host); run_M; (eexists (Ok tt), _; rewrite <- ?app_assoc; split; [reflexivity | done]).
Qed.

Lemma touch_emits r : r.1 <> Panic -> emits (touch r) (fun _ d => quiet d).
Proof.
  intros Hr h. exists (map_err Io r.1), (FdTouched <$> r.2). split; [done |]. split; [by apply map_err_safe |].
  unfold quiet, spawned, detections. destruct r as [x l]. cbn [fst snd]. clear Hr.
  split; induction l as [| e l IH]; done.
Qed.

Lemma socket_queue_emits a :
  emits (socket_queue a) (fun r d => detections d = [] /\ spawned d = match r with Ok _ => producer_tasks a | _ => [] end).
Proof.
  unfold socket_queue, producer_tasks. destruct (takes_sockets b), (socket_transfer_fd a) as [fd |];
    try (eapply emits_weaken; [apply emits_ret |]; by intros r d _ [-> ->]).
  destruct (s_fd safe fd) as [H1 H2].
  eapply emits_bind; [by apply touch_emits | | by intros e d [-> ->]]. intros _ d1 [S1 D1].
  eapply emits_bind; [by apply touch_emits | | intros e d [S2 D2]; by rewrite spawned_app, detections_app, S1, S2, D1, D2].
  intros _ d2 [S2 D2] h. unfold create_socket_queue. destruct (ipv6_enabled a); run_M;
    (eexists (Ok true), _; rewrite <- ?app_assoc; split; [reflexivity |]; split; [done |];
     by rewrite !detections_app, !spawned_app, D1, D2, S1, S2).
Qed.

Lemma udpgw_client_emits mtu a :
  emits (udpgw_client mtu a) (fun r d => detections d = [] /\
    spawned d = Lifecycle.when (udpgw_feature b && bool_decide (is_Some (udpgw_server a))) [Heartbeat] /\ exists c, r = Ok c).
Proof.
  intros h. unfold udpgw_client. destruct (udpgw_feature b), (udpgw_server a) as [addr |]; run_M;
    [eexists _, [_] | eexists _, [] | eexists _, [] | eexists _, []]; rewrite ?app_nil_r;
    (split; [reflexivity |]); (split; [done |]); split_and!; eauto.
Qed.

Lemma select_manager_safe t addr : Routing.select_manager t addr <> Panic.
Proof. by destruct t, addr. Qed.

Lemma echo_safe e p mtu : map_err Io (Icmp.new e p mtu) <> Panic.
Proof. unfold Icmp.new, Icmp.validate_options. destruct e; [| done]. cbn. by destruct (Icmp.echo_endpoint p). Qed.

(** What a start that fails may have done. *)
Definition failed_start (env : Forwarding.NetworkEnvironment) (d : list Event) : Prop :=
  (forall t, t ∈ spawned d -> is_windows b = true /\ (t = RefreshEgress \/ t = RetryTrace)) /\
  (detections d = [] \/ env = Forwarding.Physical None /\ is_desktop b = true).

Definition good_start (a : Options) (names : Process.ProcessBypass) (state : option VirtualDns.VirtualDns)
    (env : Forwarding.NetworkEnvironment) (mtu : Z) (p : Prepared) (d : list Event) : Prop :=
  spawned d = start_tasks a (p_bind p) /\ egress_of env (p_bind p) d /\
  p_virtual_dns p = virtual_dns a state /\ p_matches p = process_matcher env names /\
  StackCreated (stack_config mtu a) ∈ d /\ (is_desktop b = true \/ dns a <> Routing.DPhysical).

Lemma failed_watch bind t : t ∈ watch_tasks bind -> is_windows b = true /\ (t = RefreshEgress \/ t = RetryTrace).
Proof.
  unfold watch_tasks. destruct (is_windows b); [| by intros ?%not_elem_of_nil]. cbn [andb].
  destruct (bool_decide _); [| by intros ?%not_elem_of_nil]. rewrite elem_of_cons. intros [-> | Ht]; [auto |].
  destruct (trace_starts host); cbn in Ht; [by apply not_elem_of_nil in Ht | apply list_elem_of_singleton in Ht; auto].
Qed.

Lemma egress_lookups env bind d :
  egress_of env bind d -> detections d = [] \/ env = Forwarding.Physical None /\ is_desktop b = true.
Proof. unfold egress_of. destruct env as [[i |] |]; [by intros [_ ?]; left | | by intros [_ ?]; left]. destruct (is_desktop b); [by right | by intros [_ ?]; left]. Qed.

Lemma egress_quiet env bind d d' : egress_of env bind d -> detections d' = [] -> egress_of env bind (d ++ d').
Proof. intros He Hd. unfold egress_of in *. by rewrite detections_app, Hd, app_nil_r. Qed.

(** From the interface on: [d] is what happened before. *)
Lemma stack_emits mtu a names state env mgr bind d :
  (is_desktop b = true \/ dns a <> Routing.DPhysical) ->
  spawned d = [] -> egress_of env bind d ->
  emits (watch_egress bind;; lift (accepts_mtu host mtu);; note (StackCreated (stack_config mtu a));;
         echo ← lift (map_err Io (Icmp.new (icmp_echo a) (proxy a) mtu));
         queue ← socket_queue a;
         udpgw ← udpgw_client mtu a;
         (if is_windows b then note (Spawned MaintainBypass) else mret tt);;
         note (Spawned ReportSessions);;
         mret (mkPrepared mgr (virtual_dns a state) (process_matcher env names) bind echo (stack_config mtu a) queue udpgw))
    (fun r d' => match r with Ok p => good_start a names state env mtu p (d ++ d') | _ => failed_start env (d ++ d') end).
Proof.
  intros Hdns Hs He.
  eapply emits_bind; [apply watch_egress_emits | | by intros ? ? [? _]]. intros _ d1 (_ & S1 & D1).
  assert (Hf : forall d', spawned d' = [] -> detections d' = [] -> failed_start env (d ++ d1 ++ d')).
  { intros d' S' D'. split.
    - intros t. rewrite !spawned_app, Hs, S1, S', app_nil_r. apply failed_watch.
    - rewrite !detections_app, D1, D', app_nil_r. by apply egress_lookups in He. }
  eapply emits_bind; [apply emits_lift, (s_mtu safe) | | intros e x [_ ->]; by apply Hf]. intros _ d2 [_ ->].
  eapply emits_bind; [apply emits_note | | by intros ? ? [? _]]. intros _ d3 [_ ->]. cbn [app].
  eapply emits_bind; [apply emits_lift, echo_safe | | intros e x [_ ->]; by apply Hf]. intros echo d4 [_ ->]. cbn [app].
  eapply emits_bind; [apply socket_queue_emits | | intros e x [Dx Sx]; by apply Hf]. intros q d5 [D5 S5].
  eapply emits_bind; [apply udpgw_client_emits | | by intros e x (_ & _ & c & ?)]. intros c d6 (D6 & S6 & _) h.
  set (w := Lifecycle.when (is_windows b) [Spawned MaintainBypass]).
  eexists (Ok _), (w ++ [Spawned ReportSessions]). split; [| split; [done |]].
  { unfold note, w. destruct (is_windows b); run_M; by rewrite <- ?app_assoc. }
  unfold good_start. cbn [p_bind p_virtual_dns p_matches]. split_and!; try done.
  - rewrite !spawned_app, Hs, S1. cbn [app]. change (spawned (StackCreated ?c :: ?l)) with (spawned l). rewrite !spawned_app, S5, S6. unfold start_tasks, w. by destruct (is_windows b).
  - apply egress_quiet; [done |]. rewrite !detections_app, D1. change (detections (StackCreated ?c :: ?l)) with (detections l).
    rewrite !detections_app, D5, D6. unfold w. by destruct (is_windows b).
  - rewrite !elem_of_app. right. right. by left.
Qed.

Lemma prepare_emits mtu a names state env :
  emits (prepare mtu a names state env)
    (fun r d => match r with Ok p => good_start a names state env mtu p d | _ => failed_start env d end).
Proof.
  assert (Hq : forall d, quiet d -> failed_start env d).
  { intros d [S D]. split; [| by left]. rewrite S. by intros t ?%not_elem_of_nil. }
  unfold prepare. destruct (negb (is_desktop b) && _) eqn:E.
  { intros h. eexists (Err _), []. rewrite app_nil_r. split; [reflexivity |]. split; [done |]. by apply Hq. }
  eapply emits_bind; [apply emits_ret | | by intros ? ? [? _]]. intros _ d0 [_ ->]. cbn [app].
  eapply emits_bind; [apply server_addr_emits | | by intros e d ?; apply Hq]. intros addr d1 [S1 D1].
  eapply emits_bind; [apply emits_lift, select_manager_safe | | intros e d [_ ->]; rewrite app_nil_r; by apply Hq].
  intros mgr d2 [_ ->]. cbn [app].
  eapply emits_bind; [apply find_egress_emits | | intros e d [S2 ?]; split; [| by right]].
  - intros bind d3 [S3 He]. eapply emits_weaken; [apply (stack_emits _ _ _ _ _ _ _ (d1 ++ d3)) |].
    + apply andb_false_iff in E as [E%negb_false_iff | E%bool_decide_eq_false]; auto.
    + by rewrite spawned_app, S1, S3.
    + unfold egress_of in *. by rewrite detections_app, D1.
    + intros r d' _. cbn beta. by rewrite <- app_assoc.
  - intros t. rewrite spawned_app, S1, S2. by intros ?%not_elem_of_nil.
Qed.

(** C19. Entering the loop respects its environment, whatever the system answers.
    A start that fails has spawned nothing but the two watchers of Windows, no
    producer of transferred sockets among them, and has looked for an interface
    only where none was given.  A start that succeeds has spawned exactly the
    tasks its options ask for, which are the ones the loop owns; inside a
    system-managed tunnel no interface is looked up, no process is matched and
    no session is ever bound to an interface; an interface selected before the
    routes were changed is used as it is; there is a resolver wherever names are
    faked; and no datagram makes the dispatch panic. *)
Theorem entry_environment mtu a names state env r h :
  prepare mtu a names state env [] = (r, h) ->
  match r with
  | Panic => False
  | Err _ => failed_start env h
  | Ok p =>
      spawned h = start_tasks a (p_bind p) /\ egress_of env (p_bind p) h /\
      p_matches p = process_matcher env names /\ (env = Forwarding.Provider -> p_matches p = false) /\
      (forall v, state = Some v -> p_virtual_dns p = Some v) /\
      (dns a = Routing.DVirtual -> is_Some (p_virtual_dns p)) /\
      (forall e policy i vd, Routing.env_total e -> (Routing.udp_dispatch (session_config a p) e policy i vd).1 <> Routing.UPanic) /\
      (forall xs l n proto bind, 0 <= max_sessions a <= u64_max ->
        Forwarding.run (loop_options a) xs (first_loop p h) = Some l ->
        Forwarding.managed_tasks l !! n = Some (Forwarding.SessionTask proto bind) ->
        (is_windows b = false -> bind = p_bind p) /\ (env = Forwarding.Provider -> bind = None))
  end.
Proof.
  intros Hp. destruct (prepare_emits mtu a names state env []) as (r' & d & E & Hr & HP).
  rewrite Hp in E. injection E as <- ->. destruct r as [p | e |]; [| done | done].
  destruct HP as (Hs & He & Hv & Hm & _ & Hd). split_and!; try done.
  - by rewrite Hm; intros ->; unfold process_matcher; destruct (is_desktop b).
  - rewrite Hv. by intros v ->.
  - rewrite Hv. intros Hx. unfold virtual_dns. destruct state; [by eexists |]. by rewrite bool_decide_eq_true_2 by done.
  - intros e policy i vd Ht. apply Routing.udp_dispatch_total; [done |]. unfold Routing.startup. cbn.
    destruct Hd as [-> | Hd]; [done |]. by rewrite bool_decide_eq_false_2, andb_false_r by done.
  - intros xs l n proto bind Hl Hrun Hn.
    pose proof (Forwarding.loop_inv_run (loop_options a) Hl (p_bind p) xs _ l (Forwarding.loop_inv_start (loop_options a) Hl (p_bind p) _) Hrun) as [].
    destruct (i_tasks n _ Hn) as [_ (_ & Hw & Hi)]. split; [exact Hw |]. intros ->. apply Hi. by destruct He.
Qed.

(** Inside a system-managed tunnel a start with options that would change the
    system is refused before anything was asked or spawned. *)
Lemma provider_refuses mtu a state :
  setup a = true \/ bypass_process a <> [] \/ is_Some (bind_interface a) \/ dns a = Routing.DPhysical ->
  exists e, run_with_system_managed_network mtu a state [] = (Err e, []).
Proof.
  intros Hx. unfold run_with_system_managed_network. eexists.
  replace (_ || _ || _ || _) with true; [reflexivity |]. symmetry. rewrite !orb_true_iff, negb_true_iff, !bool_decide_eq_true, bool_decide_eq_false. tauto.
Qed.
End specs.
End entry.

(** ** Waiting for the routes of an earlier session *)

Definition SETTLE_TIMEOUT : Z := 2000.
Definition POLL_INTERVAL : Z := 100.

Section wait.
(** [tproxy_config::TUN_IPV4] and the details of an interface, as in Direct.v;
    the answers at each turn of the loop, and the time since it was entered, in
    milliseconds. *)
Context (TUN_IPV4 : IpAddr) (details : Direct.Interface -> res IoError (Z * Z * list IpAddr)).
Variables (os : Direct.Os) (tun_name : option string).
Variables (answers : nat -> Direct.NetAnswers) (default_interface : nat -> option Direct.Interface) (elapsed : nat -> Z).

Definition settled (n : nat) : bool :=
  is_ok (Direct.detect TUN_IPV4 details os None tun_name (answers n)) &&
  match default_interface n with Some i => negb (Direct.is_tun i) | None => false end.

(** The turn that ends the loop, and whether the routes had settled. *)
Fixpoint wait_loop (fuel n : nat) : option (nat * bool) :=
  match fuel with
  | O => None
  | S fuel' =>
      if settled n then Some (n, true)
      else if SETTLE_TIMEOUT <=? elapsed n then Some (n, false)
      else wait_loop fuel' (S n)
  end.

Definition wait_for_physical_default_route : option (nat * bool) :=
  match os with Direct.Windows => Some (0%nat, true) | _ => wait_loop 21 0 end.

Lemma wait_loop_ends fuel n :
  (forall m, elapsed m + POLL_INTERVAL <= elapsed (S m)) -> Z.of_nat n * POLL_INTERVAL <= elapsed n -> (20 < n + fuel)%nat ->
  (n <= 20)%nat ->
  exists k ok, wait_loop fuel n = Some (k, ok) /\ (n <= k <= 20)%nat /\
    (forall m, (n <= m < k)%nat -> settled m = false /\ elapsed m < SETTLE_TIMEOUT) /\
    (if ok then settled k = true else settled k = false /\ SETTLE_TIMEOUT <= elapsed k).
Proof.
  intros Hc. revert n. induction fuel as [| fuel IH]; intros n Hn Hf Hb; [lia |]. cbn.
  destruct (settled n) eqn:Es; [exists n, true; split_and!; try done; lia |].
  destruct (SETTLE_TIMEOUT <=? elapsed n) eqn:Et; [exists n, false; b2p; split_and!; try done; lia |]. b2p.
  assert (n <> 20)%nat by (intros ->; unfold SETTLE_TIMEOUT, POLL_INTERVAL in *; lia).
  destruct (IH (S n)) as (k & ok & E & Hk & Hm & Hok); [specialize (Hc n); unfold POLL_INTERVAL in *; lia | lia | lia |].
  exists k, ok. split_and!; try done; [lia | lia |]. intros m Hr. destruct (decide (m = n)) as [-> | ?]; [done |]. apply Hm. lia.
Qed.

(** The wait ends after at most twenty pauses: at the first turn at which the
    routes have settled, or after two seconds. *)
Theorem wait_for_routes_ends :
  0 <= elapsed 0 -> (forall m, elapsed m + POLL_INTERVAL <= elapsed (S m)) -> os <> Direct.Windows ->
  exists k ok, wait_for_physical_default_route = Some (k, ok) /\ (k <= 20)%nat /\
    (forall m, (m < k)%nat -> settled m = false /\ elapsed m < SETTLE_TIMEOUT) /\
    (if ok then settled k = true else settled k = false /\ SETTLE_TIMEOUT <= elapsed k).
Proof.
  intros H0 Hc Ho. destruct (wait_loop_ends 21 0 Hc) as (k & ok & E & Hk & Hm & Hok); [lia | lia | lia |].
  exists k, ok. split_and!; try done; [rewrite <- E; unfold wait_for_physical_default_route; by destruct os | lia |]. intros m ?. apply Hm. lia.
Qed.
End wait.

(** ** Examples *)

Definition example_host : Host := mkHost
  (fun _ => Ok [mkSA (ipv4 127 0 0 1) 1080])
  (fun _ _ => Err (EString "no physical network interface is available"))
  false (fun _ => Ok tt) (mkTcp 60 4096 None)
  (fun n => SocketTransfer.mkDescriptor n (Ok 0) (Ok tt) (Ok SocketTransfer.Datagram) (Ok tt) SocketTransfer.IpV4).

Definition example_options : Args.Args (ProxyParameters := Icmp.EchoProxy) (IpCidr := IpAddr * IpAddr) (RouteBypass := unit)
    (UdpRouter := SocketAddr -> option string -> bool -> Routing.UdpRoute) :=
  set_tun (as_bytes "tun0") (default_args Linux
    (Icmp.mkEchoProxy Routing.PSocks5 false (Some (SocketAddress (mkSA (ipv4 127 0 0 1) 1080))))
    (ipv4 198 18 0 0, ipv4 198 18 255 255)).

Lemma entry_environment_witness :
  let b := mkBuild Linux true true in
  let i := Direct.mkBind 2 2 None [] "eth0" in
  match prepare (H := VirtualDnsQuery.list_lru) b example_host 1500 example_options (Process.new []) None (Forwarding.Physical (Some i)) [] with
  | (Ok p, h) => spawned h = [ReportSessions] /\ p_bind p = Some i
  | _ => False
  end.
Proof.
  cbv zeta. set (b := mkBuild Linux true true). set (i := Direct.mkBind 2 2 None [] "eth0").
  destruct (prepare b example_host 1500 example_options (Process.new []) None (Forwarding.Physical (Some i)) []) as [r h] eqn:E.
  assert (Hs : safe_host example_host) by (split; done).
  pose proof (entry_environment b example_host Hs 1500 example_options (Process.new []) None (Forwarding.Physical (Some i)) r h E) as HE.
  destruct r as [p | e |]; [| vm_compute in E; discriminate E | done].
  destruct HE as (Hsp & [Hb _] & _). rewrite Hsp, Hb. split; reflexivity.
Defined.
End Entry.
