(* ===== verification/WideText.v ===== *)
(** * Wide text of the Windows calls (src/src/windows_network_config.rs)

    [wide_string] and the decoding of [String::from_utf16_lossy]: a Rust string
    is its UTF-8 bytes, a wide text its 16-bit units.  Text without a zero
    character survives the way to the system and back. *)

From S2P Require Import Prelude Net Process QueryOrigins.

Module WideText.
Import Process QueryOrigins.

(** ** UTF-8 *)

Definition utf8_char (c : Z) : list Z :=
  if c <? 0x80 then [c]
  else if c <? 0x800 then [0xC0 + c / 64; 0x80 + c mod 64]
  else if c <? 0x10000 then [0xE0 + c / 64 / 64; 0x80 + c / 64 mod 64; 0x80 + c mod 64]
  else [0xF0 + c / 64 / 64 / 64; 0x80 + c / 64 / 64 mod 64; 0x80 + c / 64 mod 64; 0x80 + c mod 64].

(** [str::chars] on the bytes of a string. *)
Fixpoint chars (bs : list Z) : Name :=
  match bs with
  | [] => []
  | b :: r =>
      if b <? 0x80 then b :: chars r
      else
        match r with
        | [] => []
        | b1 :: r1 =>
            if b <? 0xE0 then (b - 0xC0) * 64 + (b1 - 0x80) :: chars r1
            else
              match r1 with
              | [] => []
              | b2 :: r2 =>
                  if b <? 0xF0 then ((b - 0xE0) * 64 + (b1 - 0x80)) * 64 + (b2 - 0x80) :: chars r2
                  else
                    match r2 with
                    | [] => []
                    | b3 :: r3 => (((b - 0xF0) * 64 + (b1 - 0x80)) * 64 + (b2 - 0x80)) * 64 + (b3 - 0x80) :: chars r3
                    end
              end
        end
  end.

Definition of_bytes (bs : list Z) : string :=
  String.string_of_list_ascii ((fun b => Ascii.ascii_of_N (Z.to_N b)) <$> bs).

(** The string of these characters. *)
Definition text (cs : Name) : string := of_bytes (flat_map utf8_char cs).

(** ** UTF-16 *)

Definition encode_utf16 (s : string) : list Z := flat_map encode_char (chars (as_bytes s)).

Definition wide_string (value : string) : list Z := encode_utf16 value ++ [0].

Definition REPLACEMENT_CHARACTER : Z := 0xFFFD.

(** [String::from_utf16_lossy], by characters: a surrogate without its pair is
    replaced. *)
Fixpoint lossy (units : list Z) : Name :=
  match units with
  | [] => []
  | u :: rest =>
      if (0xD800 <=? u) && (u <=? 0xDFFF) then
        match rest with
        | v :: rest' =>
            if (u <=? 0xDBFF) && (0xDC00 <=? v) && (v <=? 0xDFFF)
            then 0x10000 + (u - 0xD800) * 0x400 + (v - 0xDC00) :: lossy rest'
            else REPLACEMENT_CHARACTER :: lossy rest
        | [] => [REPLACEMENT_CHARACTER]
        end
      else u :: lossy rest
  end.

Definition from_utf16_lossy (units : list Z) : string := text (lossy units).

(** The units before the terminator. *)
Fixpoint until_zero (units : list Z) : list Z :=
  match units with [] => [] | u :: rest => if u =? 0 then [] else u :: until_zero rest end.

(** ** Properties *)

Lemma utf8_char_u8 c : scalar c -> Forall is_u8 (utf8_char c).
Proof.
  intros [H _]. unfold utf8_char, is_u8, u8_max.
  pose proof (Z.div_mod c 64). pose proof (Z.mod_pos_bound c 64).
  pose proof (Z.div_mod (c / 64) 64). pose proof (Z.mod_pos_bound (c / 64) 64).
  pose proof (Z.div_mod (c / 64 / 64) 64). pose proof (Z.mod_pos_bound (c / 64 / 64) 64).
  destruct (c <? 0x80) eqn:E1; b2p; [repeat constructor; lia |].
  destruct (c <? 0x800) eqn:E2; b2p; [repeat constructor; lia |].
  destruct (c <? 0x10000) eqn:E3; b2p; repeat constructor; lia.
Qed.

Lemma chars_utf8 c rest : scalar c -> chars (utf8_char c ++ rest) = c :: chars rest.
Proof.
  intros [H _]. unfold utf8_char.
  pose proof (Z.div_mod c 64). pose proof (Z.mod_pos_bound c 64).
  pose proof (Z.div_mod (c / 64) 64). pose proof (Z.mod_pos_bound (c / 64) 64).
  pose proof (Z.div_mod (c / 64 / 64) 64). pose proof (Z.mod_pos_bound (c / 64 / 64) 64).
  split_if E1; b2p; [cbn [app chars]; by rewrite (proj2 (Z.ltb_lt _ _)) by lia |].
  split_if E2; b2p; [| split_if E3; b2p]; cbn [app chars];
    rewrite ?(proj2 (Z.ltb_ge _ _)) by lia; rewrite ?(proj2 (Z.ltb_lt _ _)) by lia; f_equal; lia.
Qed.

Lemma chars_text cs : Forall scalar cs -> chars (flat_map utf8_char cs) = cs.
Proof. induction 1 as [| c cs Hc _ IH]; [done |]. cbn [flat_map]. by rewrite chars_utf8, IH. Qed.

Lemma bytes_of_text bs : Forall is_u8 bs -> as_bytes (of_bytes bs) = bs.
Proof.
  unfold of_bytes. induction 1 as [| b bs Hb _ IH]; [done |]. cbn. rewrite IH. f_equal.
  unfold is_u8, u8_max in Hb. rewrite Ascii.N_ascii_embedding by lia. lia.
Qed.

Lemma text_bytes cs : Forall scalar cs -> as_bytes (text cs) = flat_map utf8_char cs.
Proof.
  intros H. apply bytes_of_text. induction H as [| c cs Hc _ IH]; [constructor |]. cbn. apply Forall_app. auto using utf8_char_u8.
Qed.

Lemma encode_utf16_text cs : Forall scalar cs -> encode_utf16 (text cs) = flat_map encode_char cs.
Proof. intros H. unfold encode_utf16. by rewrite text_bytes, chars_text. Qed.

Lemma until_zero_app us rest : Forall unit16 us -> until_zero (us ++ 0 :: rest) = us.
Proof.
  induction 1 as [| u us Hu _ IH]; [done |]. cbn. unfold unit16 in Hu. destruct (u =? 0) eqn:E; b2p; [lia |]. by rewrite IH.
Qed.

Lemma lossy_encode s : Forall scalar s -> lossy (flat_map encode_char s) = s.
Proof.
  induction 1 as [| c s [Hr Hs] _ IH]; [done |]. cbn [flat_map]. unfold encode_char at 1. destruct (c <=? 0xFFFF) eqn:E; b2p.
  - cbn. destruct ((0xD800 <=? c) && (c <=? 0xDFFF)) eqn:E1; b2p; [lia |]. by rewrite IH.
  - assert (0 <= (c - 0x10000) / 0x400 < 0x400) by (split; [apply Z.div_pos; lia | apply Z.div_lt_upper_bound; lia]).
    pose proof (Z.mod_pos_bound (c - 0x10000) 0x400). pose proof (Z.div_mod (c - 0x10000) 0x400).
    set (h := (c - 0x10000) / 0x400) in *. set (l := (c - 0x10000) mod 0x400) in *. cbn.
    rewrite !(proj2 (Z.leb_le _ _)) by lia. cbn. rewrite IH. f_equal. lia.
Qed.

(** Text without a zero character, read back from its wide form. *)
Lemma wide_string_roundtrip cs : Forall scalar cs -> from_utf16_lossy (until_zero (wide_string (text cs))) = text cs.
Proof.
  intros H. unfold wide_string, from_utf16_lossy. rewrite encode_utf16_text by done.
  rewrite until_zero_app by by apply encode_units. by rewrite lossy_encode.
Qed.

(** A zero character cuts the text off: what is behind it never arrives. *)
Example zero_cuts_text : from_utf16_lossy (until_zero (wide_string (of_bytes [97; 0; 98]))) = "a".
Proof. reflexivity. Qed.

Example unpaired_surrogate : lossy [0x61; 0xD800; 0x62] = [0x61; REPLACEMENT_CHARACTER; 0x62].
Proof. reflexivity. Qed.
End WideText.
