(* ===== verification/WindowsForeign.v ===== *)
(** * The foreign interface of the IP Helper operations

    The unsafe parts of [IpHelperOperations] in
    src/src/windows_network_config.rs: buffers and tables are blocks of a memory,
    reached through pointers, and every block has an owner that frees it when it
    goes out of scope.  Reading outside a block, reading or freeing a block that
    is gone, and a null pointer that is followed are faults.  The operations
    refine those of WindowsIpHelper.v: no fault, the same results, and a memory
    without a block more or less, on every way out. *)

From S2P Require Import Prelude Net WindowsConfig WindowsConfigProofs WindowsIpHelper Process QueryOrigins WideText.

Module WindowsForeign.
Import WindowsConfig WindowsConfigProofs WindowsIpHelper WideText.

(** ** Memory *)

(** What a block holds: 16-bit units, a table of the system with its rows, or a
    loaded library. *)
Inductive Block :=
  | Units (us : list Z)
  | ForwardTable (rows : list ForwardRow)
  | InterfaceTable (rows : list InterfaceRow)
  | Library.

Record Memory := mkMemory { blocks : gmap nat Block; fresh : nat }.

Inductive outcome (A : Type) := Done (r : res NetError A) | Fault.
Arguments Done {A}.
Arguments Fault {A}.

(** The texts of [DNS_INTERFACE_SETTINGS] that a call allocates: the name servers,
    and the others, which are not looked at. *)
Record DnsTexts := mkTexts { t_name_server : option (list Z); t_others : list (list Z) }.

(** The functions of the system as they are called, over a system [S]: text is
    units, a table or a text that the call allocates is its content. *)
Class ForeignApi (S : Type) := {
  FGuid : Type;
  f_initial_forward : ForwardRow;
  f_initial_interface : InterfaceRow;
  f_alias_to_luid : list Z -> S -> (Z * Z) * S;
  f_luid_to_alias : Z -> nat -> S -> (Z * list Z) * S;
  f_luid_to_guid : Z -> S -> (Z * FGuid) * S;
  f_luid_to_index : Z -> S -> (Z * Z) * S;
  f_best_route : SockaddrInet -> S -> (Z * ForwardRow) * S;
  f_forward_table : S -> (Z * option (list ForwardRow)) * S;
  f_interface_table : Z -> S -> (Z * option (list InterfaceRow)) * S;
  f_get_entry : InterfaceRow -> S -> (Z * InterfaceRow) * S;
  f_set_entry : InterfaceRow -> S -> Z * S;
  f_create_forward : ForwardRow -> S -> Z * S;
  f_delete_forward : ForwardRow -> S -> Z * S;
  f_load_library : list Z -> S -> bool * S;
  f_last_error : S -> Z;
  f_proc_address : string -> S -> bool * S;
  f_free_library : S -> unit * S;
  f_get_dns : FGuid -> S -> (Z * DnsTexts) * S;
  f_set_dns : FGuid -> option (list Z) -> S -> Z * S;
}.

(** What the documentation of the calls promises: a call that fails hands out no
    allocation, text is zero-terminated, an alias fits its buffer. *)
Class ForeignLaws (S : Type) `{ForeignApi S} := {
  forward_fails : forall s, ((f_forward_table s).1.1 =? NO_ERROR) = false -> (f_forward_table s).1.2 = None;
  interface_fails : forall f s, ((f_interface_table f s).1.1 =? NO_ERROR) = false -> (f_interface_table f s).1.2 = None;
  dns_fails : forall g s, ((f_get_dns g s).1.1 =? NO_ERROR) = false -> (f_get_dns g s).1.2 = mkTexts None [];
  dns_terminated : forall g s us, t_name_server (f_get_dns g s).1.2 = Some us -> 0 ∈ us;
  alias_fits : forall luid n s, (length (f_luid_to_alias luid n s).1.2 <= n)%nat;
}.

Section foreign.
Context {S : Type} `{F : ForeignApi S}.

(** ** The values behind the calls *)

(** The calls of WindowsIpHelper.v: text instead of units. *)
#[export] Instance value_api : WinApi S := {|
  Guid := FGuid;
  initial_forward_entry := f_initial_forward;
  initial_interface_entry := f_initial_interface;
  ConvertInterfaceAliasToLuid alias := f_alias_to_luid (until_zero (wide_string alias));
  ConvertInterfaceLuidToAlias luid s :=
    let '(status, us, s1) := f_luid_to_alias luid 257 s in (status, from_utf16_lossy (until_zero us), s1);
  ConvertInterfaceLuidToGuid := f_luid_to_guid;
  ConvertInterfaceLuidToIndex := f_luid_to_index;
  GetBestRoute2 := f_best_route;
  GetIpForwardTable2 := f_forward_table;
  GetIpInterfaceTable := f_interface_table;
  GetIpInterfaceEntry := f_get_entry;
  SetIpInterfaceEntry := f_set_entry;
  CreateIpForwardEntry2 := f_create_forward;
  DeleteIpForwardEntry2 := f_delete_forward;
  LoadLibraryW := f_load_library (until_zero (wide_string "iphlpapi.dll"));
  last_os_error := f_last_error;
  GetProcAddress := f_proc_address;
  FreeLibrary := f_free_library;
  GetInterfaceDnsSettings guid s :=
    let '(status, ts, s1) := f_get_dns guid s in
    (status, (fun us => from_utf16_lossy (until_zero us)) <$> t_name_server ts, s1);
  SetInterfaceDnsSettings guid text := f_set_dns guid ((fun t => until_zero (wide_string t)) <$> text);
|}.

(** ** Programs over the memory *)

Definition Prog (A : Type) : Type := S * Memory -> outcome A * (S * Memory).

#[export] Instance Prog_ret : MRet Prog := fun _ a w => (Done (Ok a), w).

#[export] Instance Prog_bind : MBind Prog := fun _ _ k m w =>
  match m w with
  | (Done (Ok a), w1) => k a w1
  | (Done (Err e), w1) => (Done (Err e), w1)
  | (Done Panic, w1) => (Done Panic, w1)
  | (Fault, w1) => (Fault, w1)
  end.

Definition fail {A} (e : NetError) : Prog A := fun w => (Done (Err e), w).

(** A call of the system, which does not touch the memory of the program. *)
Definition call {A} (f : S -> A * S) : Prog A := fun w => let '(a, s1) := f w.1 in (Done (Ok a), (s1, w.2)).

Definition of_result {A} (r : res NetError A) : Prog A := fun w => (Done r, w).

Definition status_result (status : Z) : Prog unit :=
  if status =? NO_ERROR then mret tt else fail (RawOs (as_i32 status)).

Definition alloc (b : Block) : Prog nat := fun w =>
  let m := w.2 in (Done (Ok (fresh m)), (w.1, mkMemory (<[fresh m := b]> (blocks m)) (Datatypes.S (fresh m)))).

Definition free (p : nat) : Prog unit := fun w =>
  match blocks w.2 !! p with
  | Some _ => (Done (Ok tt), (w.1, mkMemory (delete p (blocks w.2)) (fresh w.2)))
  | None => (Fault, w)
  end.

(** An owner: [m] runs, and then the block is freed, whatever [m] returned. *)
Definition owning {A} (release : Prog unit) (m : Prog A) : Prog A := fun w =>
  match m w with
  | (Done r, w1) => match release w1 with (Done (Ok _), w2) => (Done r, w2) | (_, w2) => (Fault, w2) end
  | (Fault, w1) => (Fault, w1)
  end.

(** The result of [m] as a value. *)
Definition attempt {A} (m : Prog A) : Prog (res NetError A) := fun w =>
  match m w with (Done r, w1) => (Done (Ok r), w1) | (Fault, w1) => (Fault, w1) end.

(** One unit of a buffer. *)
Definition read_unit (p offset : nat) : Prog Z := fun w =>
  match blocks w.2 !! p with
  | Some (Units us) => match us !! offset with Some u => (Done (Ok u), w) | None => (Fault, w) end
  | _ => (Fault, w)
  end.

(** The units behind a pointer up to the terminator, one by one: what the system
    does with a text it is given, and [optional_wide_string]. *)
Fixpoint read_text (fuel p offset : nat) : Prog (list Z) :=
  match fuel with
  | O => fun w => (Fault, w)
  | Datatypes.S fuel' =>
      u ← read_unit p offset;
      if u =? 0 then mret [] else rest ← read_text fuel' p (Datatypes.S offset); mret (u :: rest)
  end.

(** The fuel is the length of the block: a read behind it is a fault. *)
Definition wide_text (p : nat) : Prog (list Z) := fun w =>
  match blocks w.2 !! p with
  | Some (Units us) => read_text (Datatypes.S (length us)) p 0 w
  | _ => (Fault, w)
  end.

(** A text of our own, passed by pointer: it lives until [k] is over. *)
Definition with_wide_string {A} (value : string) (k : nat -> Prog A) : Prog A :=
  p ← alloc (Units (wide_string value)); owning (free p) (k p).

(** [optional_wide_string]. *)
Definition optional_wide_string (p : option nat) : Prog (option string) :=
  match p with
  | None => mret None
  | Some p => us ← wide_text p; mret (Some (from_utf16_lossy us))
  end.

(** ** The operations *)

Definition IF_MAX_STRING_SIZE : nat := 256.

(** The call writes to a buffer of ours, which it must not exceed. *)
Definition store (p : nat) (us : list Z) : Prog unit := fun w =>
  match blocks w.2 !! p with
  | Some (Units old) =>
      if (length us <=? length old)%nat
      then (Done (Ok tt), (w.1, mkMemory (<[p := Units (us ++ drop (length us) old)]> (blocks w.2)) (fresh w.2)))
      else (Fault, w)
  | _ => (Fault, w)
  end.

Definition load (p : nat) : Prog (list Z) := fun w =>
  match blocks w.2 !! p with Some (Units us) => (Done (Ok us), w) | _ => (Fault, w) end.

(** [interface_alias]: the units before the first zero, or all of them. *)

Definition foreign_alias (luid : Z) : Prog string :=
  p ← alloc (Units (replicate (IF_MAX_STRING_SIZE + 1) 0));
  owning (free p)
    ('(status, us) ← call (f_luid_to_alias luid (IF_MAX_STRING_SIZE + 1));
     store p us;;
     status_result status;;
     alias ← load p;
     mret (from_utf16_lossy (until_zero alias))).

Definition foreign_luid (alias : string) : Prog Z :=
  with_wide_string alias (fun p =>
    us ← wide_text p;
    '(status, luid) ← call (f_alias_to_luid us);
    status_result status;; mret luid).

(** Row [i] of a table. *)
Definition forward_row (p i : nat) : Prog ForwardRow := fun w =>
  match blocks w.2 !! p with
  | Some (ForwardTable rows) => match rows !! i with Some r => (Done (Ok r), w) | None => (Fault, w) end
  | _ => (Fault, w)
  end.

Definition interface_row (p i : nat) : Prog InterfaceRow := fun w =>
  match blocks w.2 !! p with
  | Some (InterfaceTable rows) => match rows !! i with Some r => (Done (Ok r), w) | None => (Fault, w) end
  | _ => (Fault, w)
  end.

(** [NumEntries]. *)
Definition num_entries (p : nat) : Prog nat := fun w =>
  match blocks w.2 !! p with
  | Some (ForwardTable rows) => (Done (Ok (length rows)), w)
  | Some (InterfaceTable rows) => (Done (Ok (length rows)), w)
  | _ => (Fault, w)
  end.

(** A table that the call allocates, as a pointer or null. *)
Definition table_pointer (b : option Block) : Prog (option nat) :=
  match b with None => mret None | Some b => p ← alloc b; mret (Some p) end.

(** A part that makes no use of the memory, as in WindowsIpHelper.v. *)
Definition pure {A} (m : M S NetError A) : Prog A := fun w => let '(r, s1) := m w.1 in (Done r, (s1, w.2)).

Fixpoint foreign_scan (n p i : nat) (cache : gmap (Z * Z) (option InterfaceRow)) (routes : list (RouteSpec * Z))
    : Prog (list (RouteSpec * Z)) :=
  match n with
  | O => mret routes
  | Datatypes.S n' =>
      row ← forward_row p i;
      '(iface, cache1) ← pure (interface_of row cache);
      match x ← iface; physical_route_metric row x with
      | None => foreign_scan n' p (Datatypes.S i) cache1 routes
      | Some iface_metric =>
          destination ← of_result (route_address (f_prefix row));
          hop ← of_result (route_address (f_next_hop row));
          foreign_scan n' p (Datatypes.S i) cache1
            (routes ++ [(mkRoute (ra_ip destination) (f_prefix_len row) hop (f_luid row) (f_metric row), iface_metric)])
      end
  end.

Definition foreign_physical_routes : Prog (list (RouteSpec * Z)) :=
  '(status, rows) ← call f_forward_table;
  table ← table_pointer (ForwardTable <$> rows);
  status_result status;;
  match table with
  | None => fail (Plain "GetIpForwardTable2 returned a null table")
  | Some p => owning (free p) (n ← num_entries p; foreign_scan n p 0 ∅ [])
  end.

Fixpoint foreign_interfaces (n p i : nat) (targets : list InterfaceTarget) : Prog (list InterfaceTarget) :=
  match n with
  | O => mret targets
  | Datatypes.S n' =>
      row ← interface_row p i;
      alias ← attempt (foreign_alias (i_luid row));
      foreign_interfaces n' p (Datatypes.S i)
        (match alias with
         | Ok alias => if is_wsl_hns_alias alias then targets ++ [mkTarget (i_luid row) alias WslHns] else targets
         | _ => targets
         end)
  end.

Definition foreign_wsl_hns_interfaces : Prog (list InterfaceTarget) :=
  '(status, rows) ← call (f_interface_table AF_INET);
  table ← table_pointer (InterfaceTable <$> rows);
  status_result status;;
  match table with
  | None => fail (Plain "GetIpInterfaceTable returned a null IPv4 interface table")
  | Some p => owning (free p) (n ← num_entries p; foreign_interfaces n p 0 [])
  end.

(** [FreeLibrary]: the module is gone. *)
Definition free_module (p : nat) : Prog unit := free p;; call f_free_library.

(** [InterfaceDnsApi::load]. *)
Definition foreign_load : Prog nat :=
  loaded ← with_wide_string "iphlpapi.dll" (fun p => us ← wide_text p; call (f_load_library us));
  if (loaded : bool) then
    module ← alloc Library;
    get ← call (f_proc_address "GetInterfaceDnsSettings");
    set ← call (f_proc_address "SetInterfaceDnsSettings");
    release ← call (f_proc_address "FreeInterfaceDnsSettings");
    if (get && set && release : bool) then mret module
    else
      free_module module;;
      fail (Plain "transactional Windows TUN DNS setup requires Windows 10 version 2004 (build 19041) or newer")
  else fun w => (Done (Err (RawOs (f_last_error w.1))), w).

(** The functions are called only while the module is loaded. *)
Definition loaded_call {A} (module : nat) (f : S -> A * S) : Prog A := fun w =>
  match blocks w.2 !! module with Some Library => call f w | _ => (Fault, w) end.

Definition foreign_guid (luid : Z) : Prog FGuid :=
  '(status, guid) ← call (f_luid_to_guid luid); status_result status;; mret guid.

(** The texts of the settings, as pointers: the name servers or null, and the
    others. *)
Fixpoint alloc_all (bs : list Block) : Prog (list nat) :=
  match bs with [] => mret [] | b :: bs' => p ← alloc b; ps ← alloc_all bs'; mret (p :: ps) end.

Definition settings_pointers (ts : DnsTexts) : Prog (option nat * list nat) :=
  name_server ← table_pointer (Units <$> t_name_server ts);
  others ← alloc_all (Units <$> t_others ts);
  mret (name_server, others).

(** [FreeInterfaceDnsSettings], a function of the module: every text of the
    settings. *)
Fixpoint free_all (ps : list nat) : Prog unit :=
  match ps with [] => mret tt | p :: ps' => free_all ps';; free p end.

Definition free_settings (module : nat) (settings : option nat * list nat) : Prog unit := fun w =>
  match blocks w.2 !! module with
  | Some Library => free_all (option_list settings.1 ++ settings.2) w
  | _ => (Fault, w)
  end.

(** [snapshot_dns]: the name servers are read, and the settings are freed. *)
Definition foreign_snapshot_dns (luid : Z) : Prog (option string) :=
  module ← foreign_load;
  owning (free_module module)
    (guid ← foreign_guid luid;
     '(status, texts) ← loaded_call module (f_get_dns guid);
     settings ← settings_pointers texts;
     status_result status;;
     snapshot ← optional_wide_string settings.1;
     free_settings module settings;;
     mret snapshot).

Definition foreign_set_dns (luid : Z) (name_servers : option string) : Prog unit :=
  module ← foreign_load;
  owning (free_module module)
    (guid ← foreign_guid luid;
     status ← match name_servers with
              | None => loaded_call module (f_set_dns guid None)
              | Some value =>
                  with_wide_string value (fun p => us ← wide_text p; loaded_call module (f_set_dns guid (Some us)))
              end;
     status_result status).

(** ** Refinement *)

Definition wf (h : Memory) : Prop := forall p, is_Some (blocks h !! p) -> (p < fresh h)%nat.

(** Blocks that exist, with their content. *)
Definition has (l : list (nat * Block)) (m : gmap nat Block) : Prop := forall p b, (p, b) ∈ l -> m !! p = Some b.

(** Where the blocks [l] exist, [m] does what [n] does, without a fault, and
    leaves the blocks as they were. *)
Definition refines {A} (l : list (nat * Block)) (m : Prog A) (n : M S NetError A) : Prop :=
  forall s h, wf h -> has l (blocks h) ->
    exists h', m (s, h) = (Done (n s).1, ((n s).2, h')) /\ wf h' /\ blocks h' = blocks h.

Lemma refines_ret {A} l (a : A) : refines l (mret a) (mret a).
Proof. intros s h Hw _. by exists h. Qed.

Lemma refines_fail {A} l e : refines (A := A) l (fail e) (throw e).
Proof. intros s h Hw _. by exists h. Qed.

Lemma refines_call {A} l (f : S -> A * S) : refines l (call f) (sys f).
Proof. intros s h Hw _. exists h. unfold call, sys. cbn. by destruct (f s). Qed.

Lemma refines_pure {A} l (m : M S NetError A) : refines l (pure m) m.
Proof. intros s h Hw _. exists h. unfold pure. cbn. by destruct (m s). Qed.

Lemma refines_result {A} l (r : res NetError A) : refines l (of_result r) (lift r).
Proof. intros s h Hw _. by exists h. Qed.

Lemma refines_status l status : refines l (status_result status) (win32_result status).
Proof. unfold status_result, win32_result. destruct (_ =? _); [apply refines_ret | apply refines_fail]. Qed.

Lemma refines_bind {A B} l (m : Prog A) (n : M S NetError A) (k : A -> Prog B) (j : A -> M S NetError B) :
  refines l m n -> (forall a, refines l (k a) (j a)) -> refines l (m ≫= k) (n ≫= j).
Proof.
  intros Hm Hk s h Hw Hh. destruct (Hm s h Hw Hh) as (h1 & E & Hw1 & Hb1).
  unfold mbind, Prog_bind, M_bind. rewrite E. destruct (n s) as [[a | e |] s1]; cbn; [| by exists h1 | by exists h1].
  destruct (Hk a s1 h1 Hw1) as (h2 & E2 & Hw2 & Hb2); [by rewrite Hb1 |]. exists h2. rewrite E2. split_and!; [done | done | congruence].
Qed.

(** The answer of a call at hand. *)
Lemma refines_answer {A B} l (f : S -> A * S) (k : A -> Prog B) (j : A -> M S NetError B) :
  (forall s, refines l (k (f s).1) (j (f s).1)) -> refines l (call f ≫= k) (sys f ≫= j).
Proof.
  intros Hk s h Hw Hh. specialize (Hk s). unfold mbind, Prog_bind, M_bind, call, sys. cbn [fst snd].
  destruct (f s) as [a s1]. by apply Hk.
Qed.

(** A part that only looks at the memory. *)
Lemma refines_look {A B} l (m : Prog A) (a : A) (k : A -> Prog B) (n : M S NetError B) :
  (forall w, has l (blocks w.2) -> m w = (Done (Ok a), w)) -> refines l (k a) n -> refines l (m ≫= k) n.
Proof.
  intros Hm Hk s h Hw Hh. unfold mbind, Prog_bind. rewrite Hm by done. by apply Hk.
Qed.

Lemma refines_weaken {A} l l' (m : Prog A) (n : M S NetError A) :
  (forall p b, (p, b) ∈ l -> (p, b) ∈ l') -> refines l m n -> refines l' m n.
Proof. intros Hl Hm s h Hw Hh. apply Hm; [done |]. intros p b Hp. by apply Hh, Hl. Qed.

Lemma fresh_none h : wf h -> blocks h !! fresh h = None.
Proof. intros Hw. destruct (blocks h !! fresh h) eqn:E; [| done]. assert (fresh h < fresh h)%nat by (apply Hw; eauto). lia. Qed.

(** A new block next to the others. *)
Lemma alloc_spec b s h l :
  wf h -> has l (blocks h) ->
  exists h1, alloc b (s, h) = (Done (Ok (fresh h)), (s, h1)) /\ wf h1 /\ blocks h1 = <[fresh h := b]> (blocks h) /\
    has ((fresh h, b) :: l) (blocks h1).
Proof.
  intros Hw Hh. eexists. split; [reflexivity |]. cbn [blocks fresh]. split_and!; [| done |].
  - intros p. cbn. rewrite lookup_insert_is_Some'. intros [-> | Hp]; [lia | apply Hw in Hp; lia].
  - intros p x. rewrite elem_of_cons. intros [[= -> ->] | Hp]; [by rewrite lookup_insert_eq |].
    apply Hh in Hp. rewrite lookup_insert_ne; [done |]. intros <-. by rewrite fresh_none in Hp.
Qed.

Lemma free_spec p b s h m :
  wf h -> blocks h = <[p := b]> m -> m !! p = None ->
  exists h1, free p (s, h) = (Done (Ok tt), (s, h1)) /\ wf h1 /\ blocks h1 = m.
Proof.
  intros Hw Hb Hn. eexists. unfold free. cbn. rewrite Hb, lookup_insert_eq. split; [reflexivity |]. cbn [blocks fresh].
  rewrite delete_insert_id by done. split; [| done]. intros q Hq. apply Hw. rewrite Hb. cbn in Hq.
  destruct (decide (p = q)) as [-> | ?]; [by rewrite Hn in Hq; destruct Hq |]. by rewrite lookup_insert_ne.
Qed.

(** An owned block is freed on every way out. *)
Lemma refines_owning {A} l b (k : nat -> Prog A) (n : M S NetError A) :
  (forall p, refines ((p, b) :: l) (k p) n) -> refines l (p ← alloc b; owning (free p) (k p)) n.
Proof.
  intros Hk s h Hw Hh. destruct (alloc_spec b s h l Hw Hh) as (h1 & E1 & Hw1 & Hb1 & Hh1).
  unfold mbind, Prog_bind. rewrite E1. destruct (Hk (fresh h) s h1 Hw1 Hh1) as (h2 & E2 & Hw2 & Hb2).
  unfold owning. rewrite E2. rewrite Hb1 in Hb2.
  destruct (free_spec (fresh h) b (n s).2 h2 (blocks h) Hw2 Hb2 (fresh_none h Hw)) as (h3 & E3 & Hw3 & Hb3).
  rewrite E3. by exists h3.
Qed.

(** ** Text *)

Lemma read_text_spec pre tail p fuel w :
  blocks w.2 !! p = Some (Units (pre ++ tail)) -> 0 ∈ tail -> (length tail < fuel)%nat ->
  read_text fuel p (length pre) w = (Done (Ok (until_zero tail)), w).
Proof.
  revert pre fuel. induction tail as [| u tail IH]; intros pre fuel Hp H0 Hf; [by apply not_elem_of_nil in H0 |].
  destruct fuel as [| fuel]; [cbn in Hf; lia |]. cbn [read_text until_zero].
  unfold mbind, Prog_bind at 1, read_unit. rewrite Hp, list_lookup_middle by done.
  destruct (u =? 0) eqn:E; [done |]. b2p. apply elem_of_cons in H0 as [? | H0]; [lia |].
  replace (Datatypes.S (length pre)) with (length (pre ++ [u])) by (rewrite length_app; cbn; lia).
  unfold Prog_bind at 1. rewrite IH; [done | by rewrite <- (assoc_L app) | done | cbn in Hf; lia].
Qed.

Lemma wide_text_spec p us w :
  blocks w.2 !! p = Some (Units us) -> 0 ∈ us -> wide_text p w = (Done (Ok (until_zero us)), w).
Proof. intros Hp H0. unfold wide_text. rewrite Hp. apply (read_text_spec [] us); [done | done | lia]. Qed.

Lemma wide_string_terminated s : 0 ∈ wide_string s.
Proof. unfold wide_string. apply elem_of_app. right. by left. Qed.

(** A text passed by pointer arrives as it is. *)
Lemma refines_wide_string {A} l value (k : list Z -> Prog A) (n : M S NetError A) :
  (forall p, refines ((p, Units (wide_string value)) :: l) (k (until_zero (wide_string value))) n) ->
  refines l (with_wide_string value (fun p => us ← wide_text p; k us)) n.
Proof.
  intros Hk. apply refines_owning. intros p. eapply refines_look; [| apply Hk].
  intros w Hh. apply wide_text_spec; [| apply wide_string_terminated]. apply Hh. by left.
Qed.

(** ** The operations *)

Lemma foreign_luid_refines l alias : refines l (foreign_luid alias) (helper_interface_luid alias).
Proof.
  apply refines_wide_string. intros p. unfold helper_interface_luid. eapply refines_bind; [apply refines_call |].
  intros [status luid]. eapply refines_bind; [apply refines_status |]. intros _. apply refines_ret.
Qed.

Context `{!ForeignLaws S}.

Lemma until_zero_zeros us n : until_zero (us ++ replicate n 0) = until_zero us.
Proof. induction us as [| u us IH]; cbn; [by destruct n |]. destruct (u =? 0); [done |]. by rewrite IH. Qed.

Lemma foreign_alias_refines l luid : refines l (foreign_alias luid) (interface_alias luid).
Proof.
  intros s h Hw Hh. unfold foreign_alias.
  destruct (alloc_spec (Units (replicate (IF_MAX_STRING_SIZE + 1) 0)) s h l Hw Hh) as (h1 & E1 & Hw1 & Hb1 & Hh1).
  unfold mbind, Prog_bind at 1. rewrite E1. pose proof (alias_fits luid (IF_MAX_STRING_SIZE + 1) s) as Hfit.
  unfold owning, Prog_bind, call, interface_alias, sys, ConvertInterfaceLuidToAlias, value_api. unfold mbind, M_bind. cbn [fst snd].
  change (IF_MAX_STRING_SIZE + 1)%nat with 257%nat in *.
  destruct (f_luid_to_alias luid 257 s) as [[status us] s1]. cbn [fst snd] in *.
  set (units := us ++ drop (length us) (replicate 257 0)).
  set (h2 := mkMemory (<[fresh h := Units units]> (blocks h1)) (fresh h1)).
  assert (Hst : store (fresh h) us (s1, h1) = (Done (Ok tt), (s1, h2))).
  { unfold store. cbn [fst snd]. rewrite Hb1, lookup_insert_eq, length_replicate, (proj2 (Nat.leb_le _ _)) by done.
    unfold h2, units. by rewrite Hb1. }
  assert (Hb2 : blocks h2 = <[fresh h := Units units]> (blocks h)).
  { unfold h2. cbn [blocks]. rewrite Hb1. apply insert_insert_eq. }
  assert (Hw2 : wf h2).
  { intros p Hp. rewrite Hb2 in Hp. apply lookup_insert_is_Some' in Hp as [<- | Hp].
    - apply Hw1. rewrite Hb1. apply lookup_insert_is_Some'. by left.
    - apply Hw1. rewrite Hb1. apply lookup_insert_is_Some'. by right. }
  destruct (free_spec (fresh h) (Units units) s1 h2 (blocks h) Hw2 Hb2 (fresh_none h Hw)) as (h3 & E3 & Hw3 & Hb3).
  exists h3. rewrite Hst. unfold status_result, win32_result. destruct (status =? NO_ERROR).
  - unfold mret, Prog_ret, M_ret, load. cbn [fst snd]. rewrite Hb2, lookup_insert_eq. rewrite E3.
    assert (units = us ++ replicate (257 - length us) 0) as -> by (unfold units; by rewrite drop_replicate).
    by rewrite until_zero_zeros.
  - unfold fail, throw. rewrite E3. by split_and!.
Qed.

Lemma table_row {A} (rows : list A) i n : (i + Datatypes.S n = length rows)%nat ->
  exists row, rows !! i = Some row /\ drop i rows = row :: drop (Datatypes.S i) rows.
Proof.
  intros Hl. destruct (lookup_lt_is_Some_2 rows i) as [row Hr]; [lia |]. exists row. split; [done |]. by apply drop_S.
Qed.

Lemma foreign_scan_refines l p rows n i cache routes :
  (p, ForwardTable rows) ∈ l -> (i + n = length rows)%nat ->
  refines l (foreign_scan n p i cache routes) (scan_rows (drop i rows) cache routes).
Proof.
  intros Hp. revert i cache routes. induction n as [| n IH]; intros i cache routes Hl; cbn [foreign_scan].
  - rewrite drop_ge by lia. apply refines_ret.
  - destruct (table_row rows i n Hl) as (row & Hr & ->). cbn [scan_rows].
    apply (refines_look _ _ row).
    { intros w Hh. unfold forward_row. by rewrite (Hh _ _ Hp), Hr. }
    eapply refines_bind; [apply refines_pure |]. intros [iface cache1].
    destruct (x ← iface; physical_route_metric row x) as [iface_metric |]; [| by apply IH; lia].
    eapply refines_bind; [apply refines_result |]. intros d. eapply refines_bind; [apply refines_result |]. intros hop.
    apply IH. lia.
Qed.

Lemma foreign_interfaces_refines l p rows n i targets :
  (p, InterfaceTable rows) ∈ l -> (i + n = length rows)%nat ->
  refines l (foreign_interfaces n p i targets) (scan_interfaces (drop i rows) targets).
Proof.
  intros Hp. revert i targets. induction n as [| n IH]; intros i targets Hl; cbn [foreign_interfaces].
  - rewrite drop_ge by lia. apply refines_ret.
  - destruct (table_row rows i n Hl) as (row & Hr & ->). cbn [scan_interfaces].
    apply (refines_look _ _ row).
    { intros w Hh. unfold interface_row. by rewrite (Hh _ _ Hp), Hr. }
    intros s h Hw Hh. destruct (foreign_alias_refines l (i_luid row) s h Hw Hh) as (h1 & E1 & Hw1 & Hb1).
    unfold mbind, Prog_bind, attempt. rewrite E1. rewrite <- Hb1 in Hh.
    destruct (interface_alias (i_luid row) s) as [r s1]. cbn [fst snd].
    destruct r as [alias | e |]; rewrite <- Hb1; apply IH; (done || lia).
Qed.

(** A table that the call hands out, guarded from then on. *)
Lemma refines_table {A} l (b : Block) (k : nat -> Prog A) (n : M S NetError A) (none : Prog A) :
  (forall p, refines ((p, b) :: l) (k p) n) ->
  refines l (table ← table_pointer (Some b); status_result NO_ERROR;;
             match table with None => none | Some p => owning (free p) (k p) end) n.
Proof.
  intros Hk s h Hw Hh. destruct (refines_owning l b k n Hk s h Hw Hh) as (h1 & E & H1 & H2). exists h1. split; [| done].
  rewrite <- E. reflexivity.
Qed.

Lemma foreign_routes_refines l : refines l foreign_physical_routes helper_physical_routes.
Proof.
  apply refines_answer. intros s. pose proof (forward_fails s) as Hf.
  change (GetIpForwardTable2 s) with (f_forward_table s) in *. destruct (f_forward_table s) as [[status rows] s1]. cbn [fst snd] in *.
  destruct (status =? NO_ERROR) eqn:E.
  - b2p. subst status. destruct rows as [rows |]; [| apply refines_fail].
    apply (refines_table l (ForwardTable rows)). intros p. apply (refines_look _ _ (length rows)).
    { intros w Hx. unfold num_entries. rewrite (Hx p (ForwardTable rows)) by (by left). done. }
    apply (foreign_scan_refines _ p rows _ 0); [by left | done].
  - rewrite Hf by done. unfold status_result, win32_result. rewrite E. apply refines_fail.
Qed.

Lemma foreign_wsl_refines l : refines l foreign_wsl_hns_interfaces helper_wsl_hns_interfaces.
Proof.
  apply refines_answer. intros s. pose proof (interface_fails AF_INET s) as Hf.
  change (GetIpInterfaceTable AF_INET s) with (f_interface_table AF_INET s) in *.
  destruct (f_interface_table AF_INET s) as [[status rows] s1]. cbn [fst snd] in *. destruct (status =? NO_ERROR) eqn:E.
  - b2p. subst status. destruct rows as [rows |]; [| apply refines_fail].
    apply (refines_table l (InterfaceTable rows)). intros p. apply (refines_look _ _ (length rows)).
    { intros w Hx. unfold num_entries. rewrite (Hx p (InterfaceTable rows)) by (by left). done. }
    apply (foreign_interfaces_refines _ p rows _ 0); [by left | done].
  - rewrite Hf by done. unfold status_result, win32_result. rewrite E. apply refines_fail.
Qed.

(** [InterfaceDnsApi]: the module is loaded while its functions are used, and
    unloaded on every way out. *)
Lemma module_refines {A} l (k : nat -> Prog A) (n : M S NetError A) :
  (forall p, refines ((p, Library) :: l) (k p) n) ->
  refines l (module ← foreign_load; owning (free_module module) (k module)) (with_dns_api n).
Proof.
  intros Hk s h Hw Hh. unfold foreign_load, with_dns_api, dns_api_load.
  set (ld := with_wide_string "iphlpapi.dll" _). assert (refines l ld (sys LoadLibraryW)) as Hl.
  { apply refines_wide_string. intros p. apply refines_call. }
  destruct (Hl s h Hw Hh) as (h0 & E0 & Hw0 & Hb0). unfold mbind, Prog_bind, M_bind. rewrite E0. clear E0 Hl.
  unfold sys, call. destruct (LoadLibraryW s) as [loaded s1]. cbn [fst snd]. destruct loaded; [| by exists h0].
  rewrite <- Hb0 in Hh. destruct (alloc_spec Library s1 h0 l Hw0 Hh) as (h1 & E1 & Hw1 & Hb1 & Hh1). rewrite E1. cbn [fst snd].
  change (GetProcAddress (WinApi := value_api)) with f_proc_address.
  destruct (f_proc_address "GetInterfaceDnsSettings" s1) as [get s2]. cbn [fst snd].
  destruct (f_proc_address "SetInterfaceDnsSettings" s2) as [set s3]. cbn [fst snd].
  destruct (f_proc_address "FreeInterfaceDnsSettings" s3) as [release s4]. cbn [fst snd].
  assert (Hfree : forall s5 h2, wf h2 -> blocks h2 = blocks h1 ->
    exists h3, free_module (fresh h0) (s5, h2) = (Done (Ok tt), ((f_free_library s5).2, h3)) /\ wf h3 /\ blocks h3 = blocks h).
  { intros s5 h2 Hw2 Hb2. rewrite Hb1 in Hb2.
    destruct (free_spec (fresh h0) Library s5 h2 (blocks h0) Hw2 Hb2 (fresh_none h0 Hw0)) as (h3 & E3 & Hw3 & Hb3).
    exists h3. unfold free_module, mbind, Prog_bind. rewrite E3. unfold call. cbn. destruct (f_free_library s5) as [[] s6].
    split_and!; [done | done | congruence]. }
  destruct (get && set && release).
  - destruct (Hk (fresh h0) s4 h1 Hw1 Hh1) as (h2 & E2 & Hw2 & Hb2). unfold owning, then_free, mret, Prog_ret, M_ret. rewrite E2.
    destruct (n s4) as [r s5]. cbn [fst snd]. destruct (Hfree s5 h2 Hw2 Hb2) as (h3 & E3 & Hw3 & Hb3). rewrite E3. by exists h3.
  - destruct (Hfree s4 h1 Hw1 eq_refl) as (h3 & E3 & Hw3 & Hb3). rewrite E3. exists h3.
    change (FreeLibrary (WinApi := value_api)) with f_free_library. by destruct (f_free_library s4).
Qed.

(** A function of the module, and its answer as a value. *)
Lemma refines_loaded {A A' B} l p (f : S -> A * S) (f' : S -> A' * S) (g : A -> A') (k : A -> Prog B) (j : A' -> M S NetError B) :
  (p, Library) ∈ l -> (forall s, f' s = (g (f s).1, (f s).2)) ->
  (forall s, refines l (k (f s).1) (j (g (f s).1))) -> refines l (loaded_call p f ≫= k) (sys f' ≫= j).
Proof.
  intros Hp Hf Hk s h Hw Hh. specialize (Hk s). unfold mbind, Prog_bind, M_bind, loaded_call, call, sys. cbn [fst snd].
  rewrite (Hh _ _ Hp), Hf. destruct (f s) as [a s1]. by apply Hk.
Qed.

Lemma foreign_guid_refines l luid : refines l (foreign_guid luid) (luid_to_guid luid).
Proof.
  unfold foreign_guid, luid_to_guid. eapply refines_bind; [apply (refines_call l (f_luid_to_guid luid)) |].
  intros [status guid]. eapply refines_bind; [apply refines_status |]. intros _. apply refines_ret.
Qed.

(** Blocks that are allocated together, and freed together. *)
Lemma alloc_all_spec bs s h l :
  wf h -> has l (blocks h) ->
  exists ps h1, alloc_all bs (s, h) = (Done (Ok ps), (s, h1)) /\ wf h1 /\ has l (blocks h1) /\
    forall s', exists h2, free_all ps (s', h1) = (Done (Ok tt), (s', h2)) /\ wf h2 /\ blocks h2 = blocks h.
Proof.
  revert h l. induction bs as [| b bs IH]; intros h l Hw Hh.
  { exists [], h. split_and!; [done | done | done |]. intros s'. by exists h. }
  destruct (alloc_spec b s h l Hw Hh) as (h1 & E1 & Hw1 & Hb1 & Hh1).
  destruct (IH h1 _ Hw1 Hh1) as (ps & h2 & E2 & Hw2 & Hh2 & Hf). exists (fresh h :: ps), h2.
  cbn [alloc_all free_all]. unfold mbind, Prog_bind. rewrite E1, E2. split_and!; [done | done | |].
  - intros p x Hp. apply Hh2. by right.
  - intros s'. destruct (Hf s') as (h3 & E3 & Hw3 & Hb3). rewrite E3. rewrite Hb1 in Hb3.
    exact (free_spec (fresh h) b s' h3 (blocks h) Hw3 Hb3 (fresh_none h Hw)).
Qed.

(** The texts of a call that succeeded: the name servers are read, and all of
    them are freed while the module is loaded. *)
Lemma refines_settings l module status ts :
  (module, Library) ∈ l -> ((status =? NO_ERROR) = false -> ts = mkTexts None []) ->
  (forall t, t_name_server ts = Some t -> 0 ∈ t) ->
  refines l
    (settings ← settings_pointers ts; status_result status;;
     snapshot ← optional_wide_string settings.1;
     free_settings module settings;;
     mret snapshot)
    (win32_result status;; mret ((fun t => from_utf16_lossy (until_zero t)) <$> t_name_server ts)).
Proof.
  intros Hm Hf Ht. unfold status_result, win32_result. destruct (status =? NO_ERROR) eqn:E.
  2:{ rewrite Hf by done. intros s h Hw _. by exists h. }
  clear Hf. destruct ts as [[us |] others]; intros s h Hw Hh; cbn [t_name_server] in *.
  - destruct (alloc_spec (Units us) s h l Hw Hh) as (h1 & E1 & Hw1 & Hb1 & Hh1).
    destruct (alloc_all_spec (Units <$> others) s h1 _ Hw1 Hh1) as (ps & h2 & E2 & Hw2 & Hh2 & Hfree).
    destruct (Hfree s) as (h3 & E3 & Hw3 & Hb3). rewrite Hb1 in Hb3.
    destruct (free_spec (fresh h) (Units us) s h3 (blocks h) Hw3 Hb3 (fresh_none h Hw)) as (h4 & E4 & Hw4 & Hb4).
    exists h4. unfold settings_pointers. cbn [fmap option_fmap option_map table_pointer t_name_server t_others].
    unfold mbind, Prog_bind, M_bind. rewrite E1. unfold mret, Prog_ret. rewrite E2. cbn [fst optional_wide_string].
    unfold mbind, Prog_bind. rewrite (wide_text_spec (fresh h) us) by (auto; apply Hh2; by left).
    unfold mret, Prog_ret, free_settings. cbn [fst snd]. rewrite (Hh2 module Library) by (by right).
    change (option_list (Some (fresh h)) ++ ps) with (fresh h :: ps). cbn [free_all].
    unfold mbind, Prog_bind. rewrite E3, E4. by split_and!.
  - destruct (alloc_all_spec (Units <$> others) s h l Hw Hh) as (ps & h2 & E2 & Hw2 & Hh2 & Hfree).
    destruct (Hfree s) as (h3 & E3 & Hw3 & Hb3). exists h3.
    unfold settings_pointers. cbn [fmap option_fmap option_map table_pointer t_name_server t_others].
    unfold mbind, Prog_bind, M_bind, mret, Prog_ret. rewrite E2. cbn [fst optional_wide_string].
    unfold mret, Prog_ret, free_settings. cbn [fst snd]. rewrite (Hh2 module Library) by done.
    change (option_list None ++ ps) with ps. rewrite E3. by split_and!.
Qed.

Lemma foreign_snapshot_refines l luid : refines l (foreign_snapshot_dns luid) (helper_snapshot_dns luid).
Proof.
  apply module_refines. intros p. eapply refines_bind; [apply foreign_guid_refines |]. intros guid.
  eapply (refines_loaded _ p _ _ (fun a => (a.1, (fun t => from_utf16_lossy (until_zero t)) <$> t_name_server a.2))); [by left | |].
  - intros s. cbn. by destruct (f_get_dns guid s) as [[status us] s1].
  - intros s. pose proof (dns_fails guid s) as Hf. pose proof (dns_terminated guid s) as Ht.
    destruct (f_get_dns guid s) as [[status us] s1]. cbn [fst snd] in *. apply refines_settings; [by left | done | done].
Qed.

Lemma foreign_set_refines l luid name_servers : refines l (foreign_set_dns luid name_servers) (helper_set_dns luid name_servers).
Proof.
  apply module_refines. intros p. eapply refines_bind; [apply foreign_guid_refines |]. intros guid.
  eapply (refines_bind _ _ (sys (SetInterfaceDnsSettings (WinApi := value_api) guid name_servers))); [| intros status; apply refines_status].
  assert (Hm : forall q text, (p, Library) ∈ q ->
    refines q (loaded_call p (f_set_dns guid text)) (sys (f_set_dns guid text))).
  { intros q text Hq s h Hw Hh. unfold loaded_call. cbn [fst snd]. rewrite (Hh _ _ Hq). by apply (refines_call q). }
  destruct name_servers as [value |]; cbn; [| by apply Hm; left].
  apply refines_wide_string. intros q. apply Hm. right. by left.
Qed.

(** C14. Whatever the system answers within its documentation, the operations that
    pass pointers commit no fault: text and tables are read inside their blocks
    and while these exist, the functions of the library only while it is loaded.
    They return what the operations on values return, and every buffer, table,
    text and module is released exactly once on every way out.  Text without a
    zero character is handed to the system whole and read back the same. *)
Theorem windows_foreign_refines s h :
  wf h ->
  (forall alias, exists h', foreign_luid alias (s, h) = (Done (helper_interface_luid alias s).1, ((helper_interface_luid alias s).2, h')) /\ blocks h' = blocks h) /\
  (exists h', foreign_physical_routes (s, h) = (Done (helper_physical_routes s).1, ((helper_physical_routes s).2, h')) /\ blocks h' = blocks h) /\
  (exists h', foreign_wsl_hns_interfaces (s, h) = (Done (helper_wsl_hns_interfaces s).1, ((helper_wsl_hns_interfaces s).2, h')) /\ blocks h' = blocks h) /\
  (forall luid, exists h', foreign_snapshot_dns luid (s, h) = (Done (helper_snapshot_dns luid s).1, ((helper_snapshot_dns luid s).2, h')) /\ blocks h' = blocks h) /\
  (forall luid servers, exists h', foreign_set_dns luid servers (s, h) = (Done (helper_set_dns luid servers s).1, ((helper_set_dns luid servers s).2, h')) /\ blocks h' = blocks h) /\
  (forall cs, Forall QueryOrigins.scalar cs -> from_utf16_lossy (until_zero (wide_string (text cs))) = text cs).
Proof.
  intros Hw. assert (Hh : has [] (blocks h)) by (intros p b Hp; by apply not_elem_of_nil in Hp).
  assert (Hr : forall A (m : Prog A) n, refines [] m n -> exists h', m (s, h) = (Done (n s).1, ((n s).2, h')) /\ blocks h' = blocks h).
  { intros A m n Hm. destruct (Hm s h Hw Hh) as (h' & E & _ & Hb). by exists h'. }
  split_and!; intros; try apply Hr; auto using foreign_luid_refines, foreign_routes_refines, foreign_wsl_refines,
    foreign_snapshot_refines, foreign_set_refines, wide_string_roundtrip.
Qed.
End foreign.

(** ** A system *)

(** A system that keeps the name servers of one interface, and has one route. *)
Definition row0 : ForwardRow := mkForward 7 (Ipv4 0) 0 (Ipv4 3232235777) 25 3 0 1 false.
Definition interface0 : InterfaceRow := mkInterface AF_INET 7 (mkSettings false false false) true false 5.

#[export] Instance one_interface : ForeignApi (option (list Z)) := {|
  FGuid := Z;
  f_initial_forward := row0;
  f_initial_interface := interface0;
  f_alias_to_luid us s := ((if bool_decide (us = encode_utf16 "Ethernet") then NO_ERROR else 2, 7), s);
  f_luid_to_alias luid n s := ((NO_ERROR, take n (wide_string "vEthernet (WSL)")), s);
  f_luid_to_guid luid s := ((NO_ERROR, luid), s);
  f_luid_to_index luid s := ((NO_ERROR, luid), s);
  f_best_route a s := ((NO_ERROR, row0), s);
  f_forward_table s := ((NO_ERROR, Some [row0]), s);
  f_interface_table f s := ((NO_ERROR, Some [interface0]), s);
  f_get_entry r s := ((NO_ERROR, interface0), s);
  f_set_entry r s := (NO_ERROR, s);
  f_create_forward r s := (NO_ERROR, s);
  f_delete_forward r s := (NO_ERROR, s);
  f_load_library us s := (true, s);
  f_last_error s := 0;
  f_proc_address name s := (true, s);
  f_free_library s := (tt, s);
  f_get_dns g s := ((NO_ERROR, mkTexts ((fun t => t ++ [0]) <$> s) [wide_string "lan"]), s);
  f_set_dns g text s := (NO_ERROR, text) |}.

#[export] Instance one_interface_laws : ForeignLaws (option (list Z)).
Proof.
  split; cbn; try done.
  - intros _ s us Hs. destruct s as [t |]; [| done]. cbn in Hs. injection Hs as <-. apply elem_of_app. right. by left.
  - intros luid n s. rewrite length_take. lia.
Qed.

Lemma windows_foreign_refines_witness :
  let h0 := mkMemory ∅ 0 in
  exists h1 h2, foreign_set_dns 7 (Some "10.0.0.1,fd00::1") (None, h0) = (Done (Ok tt), (Some (encode_utf16 "10.0.0.1,fd00::1"), h1)) /\
    foreign_snapshot_dns 7 (Some (encode_utf16 "10.0.0.1,fd00::1"), h1) =
      (Done (Ok (Some "10.0.0.1,fd00::1")), (Some (encode_utf16 "10.0.0.1,fd00::1"), h2)) /\ blocks h1 = ∅ /\ blocks h2 = ∅.
Proof.
  cbv zeta. set (h0 := mkMemory ∅ 0).
  assert (H0 : wf h0) by (intros p [x Hx]; cbn in Hx; by rewrite lookup_empty in Hx).
  destruct (windows_foreign_refines (None : option (list Z)) h0 H0) as (_ & _ & _ & _ & Hset & _).
  destruct (Hset 7 (Some "10.0.0.1,fd00::1")) as (h1 & E1 & B1).
  assert (H1 : wf h1) by (intros p [x Hx]; rewrite B1 in Hx; cbn in Hx; by rewrite lookup_empty in Hx).
  destruct (windows_foreign_refines (Some (encode_utf16 "10.0.0.1,fd00::1")) h1 H1) as (_ & _ & _ & Hget & _ & _).
  destruct (Hget 7) as (h2 & E2 & B2). exists h1, h2. split_and!; [exact E1 | exact E2 | exact B1 | by rewrite B2].
Defined.
End WindowsForeign.
