(* ===== verification/Android.v ===== *)
(** * The interface of Android (src/src/android.rs)

    The two functions that Java calls, over the start and stop of the exported
    interface in Lifecycle.v, and the strategy number of args.rs.  Reading a Java
    string, splitting it (shlex), the generated parser, and the policy of the
    jni crate that turns an error into a number are arguments. *)

From S2P Require Import Prelude Net Process Routing Args Lifecycle.

Module Android.
Import Routing Args.

(** [TryFrom<jint> for ArgDns]. *)
Definition dns_of_jint (value : Z) : res Error ArgDns :=
  if value =? 0 then Ok DVirtual
  else if value =? 1 then Ok DOverTcp
  else if value =? 2 then Ok DDirect
  else Err (EString "Invalid DNS strategy").

Definition starts_with (prefix s : list Z) : bool := bool_decide (take (length prefix) s = prefix).

(** The tokens that count as a choice of the DNS strategy. *)
Definition chooses_dns (token : list Z) : bool :=
  bool_decide (token = as_bytes "--dns") || starts_with (as_bytes "--dns=") token ||
  bool_decide (token = as_bytes "-d") || starts_with (as_bytes "-d") token.

Section android.
Context {ProxyParameters IpCidr RouteBypass UdpRouter : Type}.
Abbreviation Options := (@Args.Args ProxyParameters IpCidr RouteBypass UdpRouter).

(** [try_to_string], [shlex::split], [try_parse_from], [LogErrorAndDefault]. *)
Variable java_string : res Error (list Z).
Variable split : list Z -> option (list (list Z)).
Variable try_parse_from : list (list Z) -> string + Options.
Variable policy : Error -> Z.

(** Everything before the session. *)
Definition checked : res Error Options :=
  cli_args ← java_string;
  tokens ← ok_or (EString "Failed to split CLI args") (split cli_args);
  args ← match try_parse_from tokens with inr args => Ok args | inl err => Err (EString "Parse CLI args") end;
  if negb (existsb chooses_dns tokens) then Err (EString "--dns is required for Android")
  else if bool_decide (tun_fd args = None) then Err (EString "tun_fd is required for Android")
  else Ok args.

(** [Java_com_github_shadowsocks_bg_Tun2proxy_run] up to the start of the
    session: the code it returns at once, or the options the session runs with.
    [runtime] says whether the runtime could be built. *)
Definition java_run (runtime : bool) (q : Lifecycle.Quit) : (Z + Options) * Lifecycle.Quit :=
  match checked with
  | Ok args =>
      match Lifecycle.api_begin runtime q with
      | (Some code, q1) => (inl code, q1)
      | (None, q1) => (inr args, q1)
      end
  | Err e => (inl (policy e), q)
  | Panic => (inl 0, q)
  end.

(** [Java_com_github_shadowsocks_bg_Tun2proxy_stop]. *)
Definition java_stop (q : Lifecycle.Quit) : Z * Lifecycle.Quit := Lifecycle.api_stop q.

(** ** Properties *)

(** What passed the checks. *)
Lemma checked_ok args :
  checked = Ok args ->
  (exists text tokens token, java_string = Ok text /\ split text = Some tokens /\ try_parse_from tokens = inr args /\
     token ∈ tokens /\ chooses_dns token = true) /\ is_Some (tun_fd args).
Proof.
  unfold checked. destruct java_string as [text | e |]; cbn [mbind res_bind]; [| done | done].
  destruct (split text) as [tokens |] eqn:Es; cbn [ok_or mbind res_bind]; [| done].
  destruct (try_parse_from tokens) as [e | a] eqn:Ep; cbn [mbind res_bind]; [done |].
  destruct (existsb chooses_dns tokens) eqn:Ex; cbn [negb]; [| done].
  case_bool_decide as Hf; [done |]. intros [= ->]. apply existsb_exists in Ex as (token & Hin & Hd).
  split; [| by destruct (tun_fd args); [eexists |]].
  exists text, tokens, token. split_and!; try done. by apply list_elem_of_In.
Qed.

Lemma checked_safe : java_string <> Panic -> checked <> Panic.
Proof.
  intros Hs. unfold checked. destruct java_string as [text | e |]; cbn [mbind res_bind]; [| done | done].
  destruct (split text) as [tokens |]; cbn [ok_or mbind res_bind]; [| done].
  destruct (try_parse_from tokens); cbn [mbind res_bind]; [done |]. by repeat case_match.
Qed.

(** A session is started from Java only with options that were read from its
    command line, with a strategy for DNS on it and with a descriptor; the
    session is then the one in the slot and a stop reaches it.  Whatever is
    refused before leaves the slot as it was; and a start is refused with minus
    one while another session holds the slot. *)
Theorem android_entry runtime q :
  java_string <> Panic ->
  match java_run runtime q with
  | (inr args, q1) =>
      (exists text tokens token, java_string = Ok text /\ split text = Some tokens /\ try_parse_from tokens = inr args /\
         token ∈ tokens /\ chooses_dns token = true) /\
      is_Some (tun_fd args) /\ Lifecycle.quit q = None /\ runtime = true /\
      exists n, Lifecycle.quit q1 = Some n /\ Lifecycle.running q1 = n :: Lifecycle.running q /\
        java_stop q1 = (0, Lifecycle.mkQuit None (n :: Lifecycle.cancelled q) (n :: Lifecycle.running q) (S n))
  | (inl code, q1) =>
      (exists e, checked = Err e /\ code = policy e /\ q1 = q) \/
      (exists args, checked = Ok args /\
        ((is_Some (Lifecycle.quit q) /\ code = -1 /\ q1 = q) \/ (runtime = false /\ code = -3)))
  end.
Proof.
  intros Hs. pose proof (checked_safe Hs) as Hn. unfold java_run. destruct checked as [args | e |] eqn:E; [| left; by exists e | done].
  unfold Lifecycle.api_begin. destruct (Lifecycle.quit q) as [n |] eqn:Eq; [right; exists args; eauto 10 |].
  destruct runtime; [| right; exists args; eauto 10]. destruct (checked_ok args E) as [Hc Hf]. split_and!; try done. by eexists.
Qed.
End android.

(** A start without a strategy for DNS. *)
Definition example_parse (tokens : list (list Z)) : string + Args.Args (ProxyParameters := unit) (IpCidr := unit) (RouteBypass := unit) (UdpRouter := unit) :=
  inr (set_tun_fd (Some 43) (default_args OtherOs tt tt)).

Definition example_tokens : list (list Z) := [as_bytes "tun2proxy"; as_bytes "--tun-fd"; as_bytes "43"; as_bytes "--dns=virtual"].

Lemma android_entry_witness :
  match java_run (Ok []) (fun _ => Some example_tokens) example_parse (fun _ => 0) true Lifecycle.no_run with
  | (inr args, q) => tun_fd args = Some 43 /\ Lifecycle.quit q = Some 0%nat
  | _ => False
  end.
Proof.
  pose proof (android_entry (Ok []) (fun _ => Some example_tokens) example_parse (fun _ => 0) true Lifecycle.no_run) as H.
  destruct (java_run _ _ _ _ _ _) as [[code | args] q] eqn:E; [vm_compute in E; discriminate E |].
  destruct H as (_ & _ & _ & _ & n & _); [done |]. vm_compute in E. injection E as <- <-. split; reflexivity.
Defined.

(** A refused command line and a session that ended well give the same number:
    the policy of the jni crate returns the default of the type. *)
Example refused_start_returns_zero :
  fst (java_run (Ok []) (fun _ => Some [as_bytes "tun2proxy"]) example_parse (fun _ => 0) true Lifecycle.no_run) = inl 0 /\
  fst (Lifecycle.api_end 0 (Ok 0) (snd (Lifecycle.api_begin true Lifecycle.no_run))) = 0.
Proof. split; reflexivity. Qed.

(** A value that merely begins like the short option counts as a choice. *)
Example directory_counts_as_dns : chooses_dns (as_bytes "-data") = true.
Proof. reflexivity. Qed.
End Android.
