(* ===== verification/UdpLookup.v ===== *)
(** * Owner lookups of the UDP bypass pool (src/src/udp_bypass.rs)

    [Pool::snapshot] as it is used by [open] and [maintain]: a semaphore with one
    permit covers the read of the socket table on a blocking thread and the use
    of what was read.  Both the caller and the thread hold the permit, so that a
    caller that is dropped does not let the next read overlap with its own.  What
    a snapshot is used for is in UdpBypass.v. *)

From Stdlib Require Import Sorted.
From S2P Require Import Prelude.

Module UdpLookup.

(** A caller: it waits for the permit, holds it while its read is under way,
    holds it with the result, has used the result, or was dropped.  A result is
    the version of the table that was read, or a failure. *)
Inductive Caller := Waiting | Holding | Ready (r : option Z) | Used | Dropped.

(** The job on the blocking thread, with the version of the table at the time
    its read began. *)
Inductive Job := Queued | Reading (since : Z).

#[export] Instance Caller_eq_dec : EqDecision Caller.
Proof. solve_decision. Defined.

Record World := mkWorld { callers : gmap nat Caller; jobs : gmap nat Job; version : Z; applied : list (option Z) }.

Definition start : World := mkWorld ∅ ∅ 0 [].

Definition holds (c : Caller) : bool := match c with Holding | Ready _ => true | _ => false end.

(** The permit is back when neither a caller nor a thread has it. *)
Definition permit_free (w : World) : bool :=
  bool_decide (map_Forall (fun _ c => holds c = false) (callers w)) && bool_decide (jobs w = ∅).

Definition set_caller (n : nat) (c : Caller) (w : World) : World :=
  mkWorld (<[n := c]> (callers w)) (jobs w) (version w) (applied w).

Inductive Label :=
  | Begin (n : nat) | Acquire (n : nat) | StartRead (n : nat) | Finish (n : nat) (r : option Z)
  | Apply (n : nat) | Drop (n : nat) | TableChanges.

(** [acquire_owned]: the permit is shared with the thread from the start. *)
Definition acquire (n : nat) (w : World) : option World :=
  match callers w !! n with
  | Some Waiting =>
      if permit_free w then Some (mkWorld (<[n := Holding]> (callers w)) (<[n := Queued]> (jobs w)) (version w) (applied w))
      else None
  | _ => None
  end.

(** The read returns a version that was current while it ran; the thread gives
    its permit back, and the caller has the result if it still waits. *)
Definition finish (n : nat) (r : option Z) (w : World) : option World :=
  match jobs w !! n with
  | Some (Reading since) =>
      if match r with Some v => (since <=? v) && (v <=? version w) | None => true end then
        Some (mkWorld (match callers w !! n with Some Holding => <[n := Ready r]> (callers w) | _ => callers w end)
                (delete n (jobs w)) (version w) (applied w))
      else None
  | _ => None
  end.

Definition step (l : Label) (w : World) : option World :=
  match l with
  | Begin n => match callers w !! n with None => Some (set_caller n Waiting w) | Some _ => None end
  | Acquire n => acquire n w
  | StartRead n =>
      match jobs w !! n with
      | Some Queued => Some (mkWorld (callers w) (<[n := Reading (version w)]> (jobs w)) (version w) (applied w))
      | _ => None
      end
  | Finish n r => finish n r w
  | Apply n =>
      match callers w !! n with
      | Some (Ready r) => Some (mkWorld (<[n := Used]> (callers w)) (jobs w) (version w) (applied w ++ [r]))
      | _ => None
      end
  | Drop n =>
      match callers w !! n with
      | Some Waiting | Some Holding | Some (Ready _) => Some (set_caller n Dropped w)
      | _ => None
      end
  | TableChanges => Some (mkWorld (callers w) (jobs w) (version w + 1) (applied w))
  end.

Fixpoint run (ls : list Label) (w : World) : option World :=
  match ls with [] => Some w | l :: ls' => w1 ← step l w; run ls' w1 end.

(** ** Properties *)

(** A lookup under way: its caller has the permit, or its thread. *)
Definition active (w : World) (n : nat) : Prop :=
  (exists c, callers w !! n = Some c /\ holds c = true) \/ is_Some (jobs w !! n).

(** The versions that were used. *)
Definition versions (w : World) : list Z := omap id (applied w).

Definition below (v : Z) (w : World) : Prop := forall x, x ∈ versions w -> x <= v.

Record inv (w : World) : Prop := {
  i_one : forall n m, active w n -> active w m -> n = m;
  i_holding : forall n, callers w !! n = Some Holding -> is_Some (jobs w !! n);
  i_ready : forall n r, callers w !! n = Some (Ready r) -> jobs w = ∅ /\ (forall v, r = Some v -> v <= version w /\ below v w);
  i_reading : forall n v, jobs w !! n = Some (Reading v) -> v <= version w /\ below v w;
  i_below : below (version w) w;
  i_sorted : StronglySorted Z.le (versions w) }.

Lemma lookup_initial : inv start.
Proof.
  split; try (intros *; cbn; by rewrite lookup_empty).
  - intros n m [[c [Hc _]] | [j Hj]]; cbn in *; by rewrite lookup_empty in *.
  - intros x Hx. by apply not_elem_of_nil in Hx.
  - constructor.
Qed.

Lemma permit_free_spec w : permit_free w = true -> (forall n, ~ active w n) /\ jobs w = ∅.
Proof.
  unfold permit_free. intros [Hc Hj]%andb_true_iff. apply bool_decide_eq_true in Hc, Hj. split; [| done].
  intros n [[c [En Hh]] | Hs]; [| rewrite Hj, lookup_empty in Hs; by destruct Hs].
  specialize (Hc n c En). cbn in Hc. congruence.
Qed.

(** A caller that no longer has the permit. *)
Lemma active_release w n c m :
  holds c = false -> active (set_caller n c w) m -> active w m.
Proof.
  intros Hc [[d [Hd Hh]] | Hj]; [| by right]. cbn in Hd. apply lookup_insert_Some in Hd as [[<- <-] | [_ Hd]]; [congruence |].
  left. by exists d.
Qed.

Lemma lookup_release w n c : holds c = false -> inv w -> inv (set_caller n c w).
Proof.
  intros Hc []. split; try done.
  - intros x y Hx Hy. apply i_one0; by eapply active_release.
  - intros x Hx. cbn in Hx. apply lookup_insert_Some in Hx as [[_ ->] | [_ Hx]]; [done | by apply i_holding0].
  - intros x r Hx. cbn in Hx. apply lookup_insert_Some in Hx as [[_ ->] | [_ Hx]]; [done | by apply (i_ready0 x)].
Qed.

Lemma versions_app w cs js r : versions (mkWorld cs js (version w) (applied w ++ [r])) =
  versions w ++ match r with Some v => [v] | None => [] end.
Proof. unfold versions. cbn. rewrite omap_app. by destruct r. Qed.

Lemma sorted_snoc l (v : Z) : StronglySorted Z.le l -> (forall x, x ∈ l -> x <= v) -> StronglySorted Z.le (l ++ [v]).
Proof.
  induction 1 as [| a l Hl IH Ha]; intros Hv; cbn; [by repeat constructor |]. constructor.
  - apply IH. intros x Hx. apply Hv. by right.
  - apply Forall_app. split; [done |]. constructor; [apply Hv; by left | constructor].
Qed.

Lemma inv_acquire w n w' : inv w -> acquire n w = Some w' -> inv w'.
Proof.
  intros H Ha. unfold acquire in Ha. destruct (callers w !! n) as [[] |] eqn:En; try done.
  destruct (permit_free w) eqn:Ef; [| done]. injection Ha as <-. apply permit_free_spec in Ef as [Hn Hj]. pose proof H as [].
  assert (Hno : forall m c, callers w !! m = Some c -> holds c = false).
  { intros m c Hm. destruct (holds c) eqn:Eh; [| done]. exfalso. apply (Hn m). left. by exists c. }
  split; cbn; try done.
  - intros x y Hx Hy. cut (forall z, active (mkWorld (<[n := Holding]> (callers w)) (<[n := Queued]> (jobs w)) (version w) (applied w)) z -> z = n).
    { intros Hz. rewrite (Hz x Hx), (Hz y Hy). done. }
    intros z [[c [Hc Hh]] | [j Hz]]; cbn in *.
    + apply lookup_insert_Some in Hc as [[-> _] | [_ Hc]]; [done |]. by rewrite (Hno z c Hc) in Hh.
    + apply lookup_insert_Some in Hz as [[-> _] | [_ Hz]]; [done |]. by rewrite Hj, lookup_empty in Hz.
  - intros x Hx. apply lookup_insert_Some in Hx as [[<- _] | [Hne Hx]]; [by rewrite lookup_insert_eq; eexists |].
    by apply Hno in Hx.
  - intros x r Hx. apply lookup_insert_Some in Hx as [[_ ?] | [_ Hx]]; [done |]. by apply Hno in Hx.
  - intros x v Hx. apply lookup_insert_Some in Hx as [[_ ?] | [_ Hx]]; [done |]. by rewrite Hj, lookup_empty in Hx.
Qed.

Lemma inv_start_read w n : inv w -> jobs w !! n = Some Queued ->
  inv (mkWorld (callers w) (<[n := Reading (version w)]> (jobs w)) (version w) (applied w)).
Proof.
  intros H En. pose proof H as [].
  assert (Ha : forall z, active (mkWorld (callers w) (<[n := Reading (version w)]> (jobs w)) (version w) (applied w)) z -> active w z).
  { intros z [Hc | [j Hz]]; [by left |]. right. cbn in Hz. apply lookup_insert_Some in Hz as [[-> _] | [_ Hz]]; by eexists. }
  split; cbn; try done.
  - intros x y Hx Hy. apply i_one0; by apply Ha.
  - intros x Hx. apply lookup_insert_is_Some'. right. by apply i_holding0.
  - intros x r Hx. destruct (i_ready0 x r Hx) as [E _]. by rewrite E, lookup_empty in En.
  - intros x v Hx. apply lookup_insert_Some in Hx as [[_ [= <-]] | [_ Hx]]; [split; [lia | done] | by apply (i_reading0 x)].
Qed.

Lemma lookup_finish w n r w' : inv w -> finish n r w = Some w' -> inv w'.
Proof.
  intros H Hf. unfold finish in Hf. destruct (jobs w !! n) as [[| since] |] eqn:En; try done. pose proof H as [].
  destruct (match r with Some v => _ | None => true end) eqn:Er; [| done]. injection Hf as <-.
  destruct (i_reading0 n since En) as [Hv Hb].
  assert (Hone : jobs w = {[ n := Reading since ]}).
  { apply map_eq. intros m. destruct (decide (n = m)) as [<- | Hne]; [by rewrite lookup_singleton_eq |].
    rewrite lookup_singleton_ne by done. destruct (jobs w !! m) eqn:Em; [| done]. destruct Hne. apply i_one0; right; by eexists. }
  assert (Hd : delete n (jobs w) = ∅) by (rewrite Hone; apply delete_singleton_eq).
  set (cs := match callers w !! n with Some Holding => <[n := Ready r]> (callers w) | _ => callers w end).
  assert (Hcs : forall m c, cs !! m = Some c -> m = n /\ c = Ready r \/ callers w !! m = Some c /\ (c = Holding -> m <> n)).
  { intros m c Hm. unfold cs in Hm. destruct (callers w !! n) as [[] |] eqn:Ec;
      try (right; split; [done |]; intros ->; congruence).
    apply lookup_insert_Some in Hm as [[<- <-] | [Hne Hm]]; [by left | right; auto]. }
  split; cbn; rewrite ?Hd; try (intros *; by rewrite lookup_empty); try done.
  - intros x y Hx Hy. cut (forall z, active (mkWorld cs ∅ (version w) (applied w)) z -> active w z).
    { intros Hz. apply i_one0; by apply Hz. }
    intros z [[c [Hc Hh]] | [j Hz]]; cbn in *; [| by rewrite lookup_empty in Hz].
    destruct (Hcs z c Hc) as [[-> _] | [Hc' _]]; [right; by eexists | left; by exists c].
  - intros m Hm. destruct (Hcs m Holding Hm) as [[_ ?] | [Hm' Hne]]; [done |]. exfalso. apply Hne; [done |].
    apply i_one0; [left; by exists Holding | right; by eexists].
  - intros m r' Hm. split; [done |]. destruct (Hcs m (Ready r') Hm) as [[_ [= ->]] | [Hm' _]].
    + intros v ->. b2p. split; [lia |]. intros x Hx. apply Hb in Hx. lia.
    + destruct (i_ready0 m r' Hm') as [E _]. by rewrite E, lookup_empty in En.
Qed.

Lemma inv_apply w n r : inv w -> callers w !! n = Some (Ready r) ->
  inv (mkWorld (<[n := Used]> (callers w)) (jobs w) (version w) (applied w ++ [r])).
Proof.
  intros H En. pose proof H as []. destruct (i_ready0 n r En) as [Hj Hr].
  assert (Hc : forall m c, <[n := Used]> (callers w) !! m = Some c -> holds c = false).
  { intros m c Hm. apply lookup_insert_Some in Hm as [[_ <-] | [Hne Hm]]; [done |]. destruct (holds c) eqn:Eh; [| done].
    destruct Hne. apply i_one0; left; [by exists (Ready r) | by exists c]. }
  assert (Hi : forall x, x ∈ versions w ++ match r with Some v => [v] | None => [] end ->
    (exists v, r = Some v /\ x <= v) \/ x ∈ versions w /\ r = None).
  { intros x. rewrite elem_of_app. destruct r as [v |].
    - intros [Hx | ->%list_elem_of_singleton]; left; exists v; (split; [done |]); [| lia]. destruct (Hr v eq_refl) as [_ Hb]. by apply Hb.
    - intros [Hx | Hx%not_elem_of_nil]; [by right | done]. }
  split; cbn; rewrite ?Hj; try (intros *; by rewrite lookup_empty).
  - intros x y [[c [Hx Hh]] | [j Hx]]; cbn in *; [by rewrite (Hc x c Hx) in Hh | by rewrite lookup_empty in Hx].
  - intros m Hm. by apply Hc in Hm.
  - intros m r' Hm. by apply Hc in Hm.
  - intros x Hx. rewrite versions_app in Hx. destruct (Hi x Hx) as [(v & -> & Hv) | [Hx' _]]; [| by apply i_below0].
    destruct (Hr v eq_refl) as [? _]. cbn. lia.
  - enough (StronglySorted Z.le (versions w ++ match r with Some v => [v] | None => [] end)) as Hso
      by (rewrite <- (versions_app w (callers w) (jobs w)) in Hso; exact Hso).
    destruct r as [v |]; [| by rewrite app_nil_r]. apply sorted_snoc; [done |]. by apply (Hr v).
Qed.

Lemma inv_step_lookup w l w' : inv w -> step l w = Some w' -> inv w'.
Proof.
  intros H Hs. destruct l as [n | n | n | n r | n | n |]; cbn in Hs.
  - destruct (callers w !! n); [done |]. injection Hs as <-. by apply lookup_release.
  - by eapply inv_acquire.
  - destruct (jobs w !! n) as [[] |] eqn:E; try done. injection Hs as <-. by apply inv_start_read.
  - by eapply lookup_finish.
  - destruct (callers w !! n) as [[] |] eqn:E; try done. injection Hs as <-. by apply inv_apply.
  - destruct (callers w !! n) as [[] |] eqn:E; try done; injection Hs as <-; by apply lookup_release.
  - injection Hs as <-. pose proof H as []. split; cbn; try done.
    + intros n r Hn. destruct (i_ready0 n r Hn) as [? Hr]. split; [done |]. intros v Hv. destruct (Hr v Hv). split; [lia | done].
    + intros n v Hn. destruct (i_reading0 n v Hn). split; [lia | done].
    + intros x Hx. apply i_below0 in Hx. cbn. lia.
Qed.

Lemma inv_run_lookup ls w w' : inv w -> run ls w = Some w' -> inv w'.
Proof.
  revert w. induction ls as [| l ls IH]; intros w H; cbn; [by intros [= <-] |].
  destruct (step l w) as [w1 |] eqn:E; [| done]. cbn. apply IH. by eapply inv_step_lookup.
Qed.

(** Steps that bring a lookup to its end. *)
Definition advances (l : Label) : Prop :=
  match l with Acquire _ | StartRead _ | Finish _ _ | Apply _ => True | _ => False end.

(** The owner lookups of the pool under every interleaving, with callers dropped
    at any time: two lookups are never under way at once, from the permit to the
    use of the result; what is used is never older than what was used before; and
    while a caller waits, a lookup can always advance. *)
Theorem udp_lookups_serialized ls w :
  run ls start = Some w ->
  (forall n m, active w n -> active w m -> n = m) /\
  StronglySorted Z.le (versions w) /\
  (forall n, callers w !! n = Some Waiting -> exists l w', step l w = Some w' /\ advances l).
Proof.
  intros Hr. pose proof (inv_run_lookup ls start w lookup_initial Hr) as H. pose proof H as []. split_and!; [done | done |].
  intros n Hn. destruct (permit_free w) eqn:Ef.
  { exists (Acquire n). cbn. unfold acquire. rewrite Hn, Ef. by eexists. }
  destruct (decide (jobs w = ∅)) as [Hj | Hj].
  - unfold permit_free in Ef. rewrite (bool_decide_eq_true_2 (jobs w = ∅)), andb_true_r in Ef by done.
    apply bool_decide_eq_false, map_not_Forall in Ef as (m & c & Hm & Hc); [| intros; apply _].
    destruct c as [| | r | |]; try (by destruct Hc).
    + destruct (i_holding0 m Hm) as [j Hx]. by rewrite Hj, lookup_empty in Hx.
    + exists (Apply m). cbn. rewrite Hm. by eexists.
  - apply map_choose in Hj as (m & [| since] & Hm).
    + exists (StartRead m). cbn. rewrite Hm. by eexists.
    + exists (Finish m None). cbn. unfold finish. rewrite Hm. by eexists.
Qed.

(** A caller that is dropped while its thread reads: the next one waits. *)
Lemma udp_lookups_serialized_witness :
  let ls := [Begin 0; Begin 1; Acquire 0; StartRead 0; Drop 0; TableChanges; Finish 0 (Some 0); Acquire 1; StartRead 1;
             Finish 1 (Some 1); Apply 1] in
  exists w, run ls start = Some w /\ versions w = [1] /\ StronglySorted Z.le (versions w) /\
    run [Begin 0; Begin 1; Acquire 0; StartRead 0; Drop 0; Acquire 1] start = None.
Proof.
  cbv zeta. destruct (run _ start) as [w |] eqn:E; [| vm_compute in E; discriminate E].
  exists w. pose proof (udp_lookups_serialized _ w E) as (_ & Hs & _). split_and!; [done | | done | vm_compute; reflexivity].
  vm_compute in E. injection E as <-. reflexivity.
Defined.
End UdpLookup.
