(* ===== verification/TunSession.v ===== *)
(** * A whole TUN session (src/src/general_api.rs, src/src/lib.rs)

    The entry points of general_api.rs, and the composition of the parts: the
    life of a session (Lifecycle.v) whose forwarding task is the start of the
    loop (Entry.v) followed by the loop under any schedule (Forwarding.v). *)

From S2P Require Import Prelude Net Socks5Impl ProxyHandler Streams Persistence VirtualDns VirtualDnsQuery Routing Process Icmp Direct SocketTransfer Udpgw UdpgwClient Sessions Lifecycle Forwarding Args Entry WideText.

Module TunSession.
Import Routing Args.

(** The system of a build. *)
Definition target_of (os : Direct.Os) : Os :=
  match os with Direct.Windows => Windows | Direct.Linux => Linux | Direct.MacOs => MacOs end.

(** The loop under a schedule; a step that is not possible is left out. *)
Fixpoint follow (opt : Forwarding.Options) (xs : list Forwarding.Label) (l : Forwarding.Loop) : Forwarding.Loop :=
  match xs with
  | [] => l
  | x :: xs' => match Forwarding.step opt x l with Some l1 => follow opt xs' l1 | None => follow opt xs' l end
  end.

Section session.
Context `{VirtualDns.LruCache} {RouteBypass : Type}.

Abbreviation Options :=
  (Args.Args (ProxyParameters := Icmp.EchoProxy) (IpCidr := IpAddr * IpAddr) (RouteBypass := RouteBypass)
     (UdpRouter := SocketAddr -> option string -> bool -> Routing.UdpRoute)).

(** The options as the life of a session sees them. *)
Definition life_args (a : Options) : Lifecycle.Args :=
  Lifecycle.mkArgs
    (match Icmp.validate_options (icmp_echo a) (proxy a) with Ok _ => Ok tt | Err e => Err e | Panic => Panic end)
    ((fun _ => "proxy") <$> Icmp.ep_addr (proxy a))
    (setup a) (WideText.of_bytes <$> tun a) (tun_fd a) (close_fd_on_drop a) (WideText.of_bytes <$> bind_interface a) (ipv6_enabled a)
    (bool_decide (is_Some (upstream_bypass a))) (max_sessions a) (exit_on_fatal_error a).

(** [args.tun] once the device has a name. *)
Definition with_tun (name : option string) (a : Options) : Options :=
  match name with Some n => set_tun (as_bytes n) a | None => a end.

Context {St : Type} (os : Direct.Os) (b : Entry.Build) (host : Lifecycle.Host St) (ehost : Entry.Host).

(** The options, list and resolver that a session is started with, and the
    schedule of its loop. *)
Record Start := mkStart {
  st_mtu : Z; st_args : Options; st_names : Process.ProcessBypass; st_dns : option VirtualDns.VirtualDns;
  st_schedule : list Forwarding.Label }.

(** The start of the loop behind the chosen interface. *)
Definition enter (s : Start) (i : Direct.BindInterface) (name : option string) : res Error Entry.Prepared * list Entry.Event :=
  Entry.prepare b ehost (st_mtu s) (with_tun name (st_args s)) (st_names s) (st_dns s) (Forwarding.Physical (Some i)) [].

Definition loop_end (s : Start) (p : Entry.Prepared) (h : list Entry.Event) : Forwarding.Loop :=
  follow (Entry.loop_options b (st_args s)) (st_schedule s) (Entry.first_loop p h).

(** The forwarding task, as the one who joins it sees it. *)
Definition forwarding_task (s : Start) (i : Direct.BindInterface) (name : option string) : option Lifecycle.Joined :=
  match enter s i name with
  | (Ok p, h) =>
      match Forwarding.phase (loop_end s p h) with
      | Forwarding.Ended r => Some (Lifecycle.Finished r)
      | _ => None
      end
  | (Err e, _) => Some (Lifecycle.Finished (Err e))
  | (Panic, _) => Some Lifecycle.TaskFailed
  end.

Definition host_of (s : Start) : Lifecycle.Host St :=
  Lifecycle.mkHost St (Lifecycle.h_dropped host) (Lifecycle.h_resolve host) (Lifecycle.h_adapters host) (Lifecycle.h_route host) (Lifecycle.h_detect host)
    (Lifecycle.h_create host) (Lifecycle.h_name host) (Lifecycle.h_split host) (Lifecycle.h_setup host)
    (fun i name _ => forwarding_task s i name) (Lifecycle.h_remove host).

(** ** The entry points *)

(** [general_run_async_with_process_bypass_inner]; [ready] says whether someone
    waits for readiness. *)
Definition run_inner (s : Start) (ready : bool) : progress (res IoError Z) * Lifecycle.World :=
  Lifecycle.general_run os (host_of s) (life_args (st_args s)) (Lifecycle.mkWorld [] ready).

Variable schedule : list Forwarding.Label.

Definition general_run_async_with_process_bypass (a : Options) (tun_mtu : Z) (names : Process.ProcessBypass) :=
  run_inner (mkStart tun_mtu a names None schedule) false.

Definition general_run_async (a : Options) (tun_mtu : Z) :=
  general_run_async_with_process_bypass a tun_mtu (Process.new (bypass_process a)).

Definition general_run_async_with_process_bypass_and_virtual_dns (a : Options) (tun_mtu : Z) (names : Process.ProcessBypass)
    (state : VirtualDns.VirtualDns) := run_inner (mkStart tun_mtu a names (Some state) schedule) false.

Definition general_run_async_with_process_bypass_and_ready (a : Options) (tun_mtu : Z) (names : Process.ProcessBypass) :=
  run_inner (mkStart tun_mtu a names None schedule) true.

Definition general_run_async_with_process_bypass_and_ready_and_virtual_dns (a : Options) (tun_mtu : Z)
    (names : Process.ProcessBypass) (state : VirtualDns.VirtualDns) := run_inner (mkStart tun_mtu a names (Some state) schedule) true.

(** ** Properties *)

Lemma follow_run opt xs l : exists ys, Forwarding.run opt ys l = Some (follow opt xs l).
Proof.
  revert l. induction xs as [| x xs IH]; intros l; [by exists [] |]. cbn.
  destruct (Forwarding.step opt x l) as [l1 |] eqn:E; [| apply IH]. destruct (IH l1) as [ys Hy]. exists (x :: ys). cbn. by rewrite E.
Qed.

(** Only the life that runs has forwarding in it, and only through the interface
    it picked. *)
Lemma life_forwards a rdy (h : Lifecycle.Host St) p ms i :
  Lifecycle.life os h a rdy p ms -> Lifecycle.Forwarding i ∈ ms ->
  Lifecycle.Egress i ∈ ms /\ exists so given, Lifecycle.ran os h a i so p given.
Proof.
  assert (Hfd : Lifecycle.Forwarding i ∉ Lifecycle.milestones (Lifecycle.owned_fd (St := St) os a)).
  { unfold Lifecycle.owned_fd. destruct (bool_decide _); [apply not_elem_of_nil |].
    destruct (Lifecycle.a_tun_fd a); [| apply not_elem_of_nil]. destruct (default true _); [| apply not_elem_of_nil].
    cbn. rewrite list_elem_of_singleton. done. }
  assert (Ht : forall r, Lifecycle.Forwarding i ∉ Lifecycle.when rdy [Lifecycle.Told (St := St) r]).
  { intros r. destruct rdy; cbn; [| apply not_elem_of_nil]. by rewrite list_elem_of_singleton. }
  assert (Hg : forall so p' given j, Lifecycle.ran os h a j so p' given -> Lifecycle.Forwarding i ∉ given).
  { assert (Hx : forall so, Lifecycle.Forwarding i ∉ Lifecycle.guarded_of (St := St) so).
    { intros [x |]; cbn; [by rewrite list_elem_of_singleton | apply not_elem_of_nil]. }
    intros so p' given j [(_ & -> & _) | (? & ? & ? & _ & [(_ & _ & ->) | (c & _ & _ & ->)])]; [apply Hx | apply Hx |].
    destruct so as [y |]; [| apply not_elem_of_nil]. cbn. destruct (_ && _); rewrite ?elem_of_cons, elem_of_nil; by intuition. }
  intros [(e & _ & ->) | [(_ & ->) | [(e & j & failed & _ & Hf & ->) | [(j & _ & _ & _ & ->) | (j & so & given & _ & Hr & ->)]]]] Hin.
  - by apply Ht in Hin.
  - by apply elem_of_nil in Hin.
  - rewrite !elem_of_app in Hin. destruct Hin as [Hin%list_elem_of_singleton | [Hin | [Hin | Hin]]];
      [done | | by apply Hfd in Hin | by apply Ht in Hin].
    destruct Hf as [-> | (_ & e' & ->)]; [by apply elem_of_nil in Hin | by apply list_elem_of_singleton in Hin].
  - rewrite elem_of_app, !elem_of_cons in Hin. destruct Hin as [[? | [? | []%elem_of_nil]] | Hin]; [done | done | by apply Hfd in Hin].
  - rewrite !elem_of_app in Hin. destruct Hin as [Hin%list_elem_of_singleton | [Hin | [Hin | [Hin%list_elem_of_singleton | [Hin | Hin]]]]];
      [done | | by apply Ht in Hin | injection Hin as -> | by eapply Hg in Hin | by apply Hfd in Hin].
    + destruct so; cbn in Hin; [by apply list_elem_of_singleton in Hin | by apply not_elem_of_nil in Hin].
    + split; [by left | by exists so, given].
Qed.

(** What a session that returned a number stands for. *)
Lemma outcome_number a c f n :
  Lifecycle.outcome a c f = Ok n ->
  f = Ok n /\ (Lifecycle.a_exit_on_fatal a = true -> n < Lifecycle.a_max_sessions a).
Proof.
  unfold Lifecycle.outcome. destruct c; [| done | done]. destruct f as [m | e |]; [| done | done].
  destruct (Lifecycle.a_exit_on_fatal a); cbn [andb]; [| by intros [= <-]].
  destruct (_ <=? _) eqn:E; [done |]. b2p. intros [= <-]. split; [done | lia].
Qed.

Lemma loop_options_with_tun name a : Entry.loop_options b (with_tun name a) = Entry.loop_options b a.
Proof. by destruct name. Qed.

(** The loop never ends with a panic. *)
Definition calm (l : Forwarding.Loop) : Prop :=
  match Forwarding.phase l with
  | Forwarding.Accepting => True
  | Forwarding.Broken r | Forwarding.Draining _ r => r <> Panic
  | Forwarding.Closing r | Forwarding.Ended r => r <> Panic
  end.

Lemma end_phase n l l' : Forwarding.end_task n l = Some l' -> Forwarding.phase l' = Forwarding.phase l.
Proof.
  unfold Forwarding.end_task. destruct (Forwarding.managed_tasks l !! n) as [[pr bind |] |]; [| by intros [= <-] | done].
  destruct (Sessions.drop_permit _ _); [by intros [= <-] | done | done].
Qed.

Lemma calm_step opt x l l' : calm l -> Forwarding.step opt x l = Some l' -> calm l'.
Proof.
  unfold calm, Forwarding.step. intros Hc Hs. destruct x as [a | | | n | n | r | | |].
  - destruct (Forwarding.phase l) eqn:Ep; try done.
    assert (Hsess : forall pr l1, Forwarding.on_session opt pr l = Some l1 -> calm l1).
    { intros pr l1. unfold Forwarding.on_session, calm. destruct (Sessions.try_acquire _ _ _) as [[c | e |] |];
        [| done | done |]; [| destruct (Forwarding.exit_on_fatal_error opt)]; intros [= <-]; cbn; rewrite ?Ep; done. }
    destruct a as [| | [] | | e]; cbn in Hs; [by apply Hsess in Hs | by apply Hsess in Hs | | | |];
      injection Hs as <-; cbn; by rewrite ?Ep.
  - by injection Hs as <-.
  - destruct (Forwarding.phase l); try done. destruct (Forwarding.cancelled l); by simplify_eq.
  - unfold Forwarding.finish_task in Hs. case_match; [| done]. case_match; [| done]. by rewrite (end_phase n l l').
  - unfold Forwarding.drop_task in Hs. case_match; [| done]. by rewrite (end_phase n l l').
  - assert (Hp : Forwarding.phase l' = Forwarding.phase l); [| by rewrite Hp].
    assert (Hr : Forwarding.phase (Forwarding.refresh opt r l) = Forwarding.phase l).
    { unfold Forwarding.refresh. destruct (Forwarding.windows opt), (Forwarding.current l), r; try done. by destruct (bool_decide _). }
    destruct (Forwarding.phase l); try done; injection Hs as <-; done.
  - destruct (Forwarding.phase l); try done. injection Hs as <-. done.
  - destruct (Forwarding.phase l) as [| | active r | |]; try done. unfold Forwarding.join_all in Hs. case_match; [| done].
    injection Hs as <-. cbn. destruct (Forwarding.windows opt); by destruct r.
  - destruct (Forwarding.phase l); try done. by injection Hs as <-.
Qed.

Lemma calm_follow opt xs l : calm l -> calm (follow opt xs l).
Proof.
  revert l. induction xs as [| x xs IH]; intros l Hc; cbn; [done |].
  destruct (Forwarding.step opt x l) as [l1 |] eqn:E; [| by apply IH]. apply IH. by eapply calm_step.
Qed.

Section theorem.
Hypothesis safe : Lifecycle.safe_host host.
Hypothesis entry_safe : Entry.safe_host ehost.
Hypothesis desktop : b = Entry.mkBuild (target_of os) (Entry.unshare_feature b) (Entry.udpgw_feature b).

Lemma enter_safe s i name : (enter s i name).1 <> Panic.
Proof.
  unfold enter. destruct (Entry.prepare_emits b ehost entry_safe (st_mtu s) (with_tun name (st_args s)) (st_names s) (st_dns s)
    (Forwarding.Physical (Some i)) []) as (r & d & E & Hr & _). by rewrite E.
Qed.

(** The states the loop of a session goes through. *)
Lemma loop_inv s i name p h ys l :
  0 <= max_sessions (st_args s) <= u64_max -> enter s i name = (Ok p, h) ->
  Forwarding.run (Entry.loop_options b (st_args s)) ys (Entry.first_loop p h) = Some l ->
  Entry.p_bind p = Some i /\ Forwarding.inv (Entry.loop_options b (st_args s)) (Some i) l.
Proof.
  intros Hm He Hr. unfold enter in He.
  destruct (Entry.prepare_emits b ehost entry_safe (st_mtu s) (with_tun name (st_args s)) (st_names s) (st_dns s)
    (Forwarding.Physical (Some i)) []) as (r & d & E & _ & HP). rewrite He in E. injection E as <- <-.
  destruct HP as (_ & [Hb _] & _). split; [done |]. unfold Entry.first_loop in Hr. rewrite Hb in Hr.
  refine (Forwarding.loop_inv_run _ _ (Some i) ys _ l (Forwarding.loop_inv_start _ _ _ _) Hr); done.
Qed.

Lemma host_of_safe s : 0 <= max_sessions (st_args s) <= u64_max -> Lifecycle.safe_host (host_of s).
Proof.
  intros Hm. destruct safe as (H1 & H2 & H3 & H4 & H5 & H6 & _ & H8). split_and!; try done.
  intros i name hist. cbn. unfold forwarding_task. destruct (enter s i name) as [[p | e |] h] eqn:E; [| done | done].
  destruct (Forwarding.phase (loop_end s p h)) as [| | | | r] eqn:Ep; [done | done | done | done |]. intros [= ->].
  assert (Hc : calm (loop_end s p h)) by (by apply calm_follow). unfold calm in Hc. by rewrite Ep in Hc.
Qed.

Lemma session_life s ready p w :
  0 <= max_sessions (st_args s) <= u64_max -> Lifecycle.a_echo (life_args (st_args s)) <> Panic ->
  Lifecycle.general_run os (host_of s) (life_args (st_args s)) (Lifecycle.mkWorld [] ready) = (p, w) ->
  p <> Returned Panic /\
  Lifecycle.life os (host_of s) (life_args (st_args s)) ready p (Lifecycle.milestones (Lifecycle.events w)).
Proof. intros Hm He Hr. by apply (Lifecycle.general_run_lives os (host_of s) (host_of_safe s Hm)). Qed.

Lemma enter_failed s i name e h : enter s i name = (Err e, h) -> Entry.failed_start b (Forwarding.Physical (Some i)) h.
Proof.
  intros He. unfold enter in He.
  destruct (Entry.prepare_emits b ehost entry_safe (st_mtu s) (with_tun name (st_args s)) (st_names s) (st_dns s)
    (Forwarding.Physical (Some i)) []) as (r & d & E & _ & HP). rewrite He in E. injection E as <- <-. done.
Qed.

(** The loop of a session that has returned. *)
Lemma loop_returned s i name pr h r :
  0 <= max_sessions (st_args s) <= u64_max -> enter s i name = (Ok pr, h) ->
  (exists j c, forwarding_task s i name = Some j /\
     r = Lifecycle.outcome (life_args (st_args s)) c (Lifecycle.forwarding_result j)) ->
  Forwarding.managed_tasks (loop_end s pr h) = ∅ /\ Forwarding.counts (loop_end s pr h) = Sessions.default_counts /\
  forall n, r = Ok n -> 0 <= n <= max_sessions (st_args s) /\ (exit_on_fatal_error (st_args s) = true -> n < max_sessions (st_args s)).
Proof.
  intros Hm He (j & c & Hf & ->). unfold forwarding_task in Hf. rewrite He in Hf.
  destruct (Forwarding.phase (loop_end s pr h)) as [| | | | q] eqn:Ep; try done. injection Hf as <-.
  destruct (follow_run (Entry.loop_options b (st_args s)) (st_schedule s) (Entry.first_loop pr h)) as [ys Hy].
  destruct (loop_inv s i name pr h ys _ Hm He Hy) as [_ Hinv]. fold (loop_end s pr h) in Hinv. pose proof Hinv as [].
  rewrite Ep in i_phase. destruct i_phase as [Et Hn]. split; [done |]. split.
  - rewrite Et, !Forwarding.sessions_empty in *. destruct (Forwarding.counts (loop_end s pr h)) as [x y z]. cbn in *. by subst.
  - intros n Ho. apply outcome_number in Ho as [Ho Hx]. cbn in Ho. split; [by apply Hn | done].
Qed.

(** C5. A whole TUN session, whatever the system answers and under every schedule of
    its loop: it never panics and has the life of Lifecycle.v.  Forwarding goes
    through the interface that was picked before anything was installed.  A
    failed start has spawned no task but, on Windows, the refresh of the
    interface and the retry of the trace (their owner aborts them when the call
    returns), and its error is the session's, unless the session is dropped while
    it cleans up.  Otherwise every session of the loop, at every time, is bound
    to the interface that was picked or, on Windows only, to one that a refresh
    found since.  When the session has returned no task is left and every permit
    is back, and a number it returns is within the limit, below it if the limit
    ends the program. *)
Theorem tun_session_composed s ready p w :
  0 <= max_sessions (st_args s) <= u64_max ->
  run_inner s ready = (p, w) ->
  p <> Returned Panic /\
  Lifecycle.life os (host_of s) (life_args (st_args s)) ready p (Lifecycle.milestones (Lifecycle.events w)) /\
  forall i, Lifecycle.Forwarding i ∈ Lifecycle.milestones (Lifecycle.events w) ->
    Lifecycle.Egress i ∈ Lifecycle.milestones (Lifecycle.events w) /\
    exists name, match enter s i name with
    | (Panic, _) => False
    | (Err e, h) =>
        Entry.failed_start b (Forwarding.Physical (Some i)) h /\
        (p = Waiting /\ os <> Direct.Windows \/ exists c, p = Returned (Lifecycle.outcome (life_args (st_args s)) c (Err e)))
    | (Ok pr, h) =>
        Entry.p_bind pr = Some i /\
        (forall ys l n proto bind,
          Forwarding.run (Entry.loop_options b (st_args s)) ys (Entry.first_loop pr h) = Some l ->
          Forwarding.managed_tasks l !! n = Some (Forwarding.SessionTask proto bind) ->
          bind = Some i \/ os = Direct.Windows /\ exists j, bind = Some j /\ Forwarding.Refresh (Ok j) ∈ ys) /\
        (forall r, p = Returned r ->
          Forwarding.managed_tasks (loop_end s pr h) = ∅ /\ Forwarding.counts (loop_end s pr h) = Sessions.default_counts /\
          forall n, r = Ok n -> 0 <= n <= max_sessions (st_args s) /\ (exit_on_fatal_error (st_args s) = true -> n < max_sessions (st_args s)))
    end.
Proof.
  intros Hm Hr. unfold run_inner in Hr.
  assert (Hecho : Lifecycle.a_echo (life_args (st_args s)) <> Panic).
  { cbn. unfold Icmp.validate_options. destruct (negb _); [done |]. by destruct (Icmp.echo_endpoint _). }
  destruct (session_life s ready p w Hm Hecho Hr) as [Hp Hl]. split; [done |]. split; [done |].
  intros i Hi. destruct (life_forwards _ _ _ _ _ i Hl Hi) as (Heg & so & given & Hran). split; [done |].
  assert (Hname : exists name, (p = Waiting /\ (os <> Direct.Windows \/ forwarding_task s i name = None)) \/
    exists j c, forwarding_task s i name = Some j /\ p = Returned (Lifecycle.outcome (life_args (st_args s)) c (Lifecycle.forwarding_result j))).
  { destruct Hran as [(-> & _ & name & hist & Hf) | (name & hist & j & Hf & [(-> & Ho & _) | (c & _ & -> & _)])]; exists name;
      [left; auto | left; auto | right; by exists j, c]. }
  destruct Hname as [name Htask]. exists name. pose proof (enter_safe s i name) as Hsafe.
  destruct (enter s i name) as [[pr | e |] h] eqn:Ee; [| | done].
  - split; [| split].
    + by destruct (loop_inv s i name pr h [] _ Hm Ee eq_refl).
    + intros ys l n proto bind Hrun Hn. destruct (loop_inv s i name pr h ys l Hm Ee Hrun) as [Hb _].
      unfold Entry.first_loop in Hrun. rewrite Hb in Hrun.
      destruct (Forwarding.run_bound _ _ _ ys l n proto bind Hrun Hn) as [-> | [Hw Hj]]; [by left | right].
      split; [| done]. revert Hw. cbn. rewrite desktop. cbn. by destruct os.
    + intros r ->. apply (loop_returned s i name pr h); [done | done |].
      destruct Htask as [[? _] | (j & c & Hf & [= ->])]; [done | by exists j, c].
  - split; [by apply (enter_failed s i name e) |]. destruct Htask as [[-> [Ho | Hf]] | (j & c & Hf & ->)]; [by left | |]; unfold forwarding_task in Hf; rewrite Ee in Hf; [done |].
    injection Hf as <-. right. by exists c.
Qed.
End theorem.
End session.

(** ** A session on Linux *)

Definition example_start : Start (H := VirtualDnsQuery.list_lru) (RouteBypass := unit) :=
  mkStart 1500 Entry.example_options (Process.new []) None
    [Forwarding.Accept Forwarding.TcpStream; Forwarding.Join; Forwarding.CancelToken; Forwarding.Shutdown; Forwarding.Drain;
     Forwarding.TaskDropped 1; Forwarding.TaskDropped 0; Forwarding.Join].

Lemma tun_session_composed_witness :
  let b := Entry.mkBuild Linux true true in
  let '(p, w) := run_inner Direct.Linux b Lifecycle.example_host Entry.example_host example_start true in
  p = Returned (Ok 1) /\ Lifecycle.Egress (Direct.mkBind 2 2 None [] "eth0") ∈ Lifecycle.milestones (Lifecycle.events w).
Proof.
  cbv zeta. set (b := Entry.mkBuild Linux true true).
  destruct (run_inner Direct.Linux b Lifecycle.example_host Entry.example_host example_start true) as [p w] eqn:E.
  assert (Hs : Lifecycle.safe_host Lifecycle.example_host) by (repeat split; discriminate).
  assert (He : Entry.safe_host Entry.example_host) by (split; done).
  assert (Hm : 0 <= max_sessions (st_args example_start) <= u64_max) by (cbn; unfold u64_max; lia).
  destruct (tun_session_composed Direct.Linux b Lifecycle.example_host Entry.example_host Hs He eq_refl example_start true p w Hm E) as (_ & _ & H).
  specialize (H (Direct.mkBind 2 2 None [] "eth0")). vm_compute in E. injection E as <- <-.
  split; [reflexivity |]. apply H. apply list_elem_of_In. cbn. right. right. left. reflexivity.
Defined.
End TunSession.
