(* ===== verification/VirtualDnsState.v ===== *)
(** * The shared state of fake addresses (src/src/virtual_dns.rs)

    [VirtualDnsState]: the handle by which an embedding application keeps the
    resolver across restarts of a session.  A clone is the same resolver. *)

From S2P Require Import Prelude Net Socks5Impl Dns Persistence VirtualDns VirtualDnsProofs VirtualDnsQuery Routing.

Module VirtualDnsState.
Import VirtualDns VirtualDnsProofs.

Section state.
Context `{LruCache} `{CacheCodec : Persistence.CacheCodec}.

(** [VirtualDnsState::new], on the first and last address of the pool. *)
Definition new (ip_pool : IpAddr * IpAddr) : VirtualDns := VirtualDns.new ip_pool.1 ip_pool.2.

(** [VirtualDnsState::resolve_ip]. *)
Definition resolve_ip (address : IpAddr) (v : VirtualDns) : res IoError (option string) * VirtualDns :=
  match Routing.resolve_virtual_domain address (Some v) with
  | (r, Some v1) => (r, v1)
  | (r, None) => (r, v)
  end.

Definition CACHE_FILE_NAME : string := "tun-virtual-dns-v1.jsonl".

(** [enable_persistence_in]: [files] is the file behind a path. *)
Definition enable_persistence_in (windows : bool) (join : string -> string -> string) (files : string -> Persistence.Disk)
    (directory : string) : M VirtualDns IoError nat :=
  enable_persistence windows (files (join directory CACHE_FILE_NAME)).

Context `{!LruCacheLaws}.

(** Using an entry reorders the cache. *)
Lemma get_reorders k c : lru_iter (lru_get k c).2 ≡ₚ lru_iter c.
Proof.
  apply NoDup_Permutation; [apply (NoDup_fmap_1 fst), iter_nodup | apply (NoDup_fmap_1 fst), iter_nodup |].
  intros e. rewrite get_iter. destruct (lru_peek k c) as [v |] eqn:E; [| done]. rewrite elem_of_app, elem_of_without, list_elem_of_singleton.
  pose proof (proj1 (peek_spec k c v) E) as Hin. split; [intros [[He _] | ->]; done |]. intros He.
  destruct (decide (e.1 = k)) as [Hk | Hk]; [| by left]. right. destruct e as [k' v']. cbn in Hk. subst k'.
  apply (peek_spec k c v') in He. congruence.
Qed.

Lemma get_keeps_peek k k' c : lru_peek k' (lru_get k c).2 = lru_peek k' c.
Proof.
  apply option_eq. intros x. rewrite !peek_spec. by rewrite (get_reorders k c).
Qed.

(** Looking an address up through the handle neither allocates nor rewrites a
    mapping: names, cursor, pool and file stay, and the entries are only
    reordered.  A mapped address gives its name, an unmapped one of the pool is
    refused, any other is none of the resolver's. *)
Theorem virtual_state_reads address v r v1 :
  vd_wf v -> resolve_ip address v = (r, v1) ->
  name_to_ip v1 = name_to_ip v /\ next_addr v1 = next_addr v /\ persistence v1 = persistence v /\
  network_addr v1 = network_addr v /\ broadcast_addr v1 = broadcast_addr v /\
  lru_iter (lru_cache v1) ≡ₚ lru_iter (lru_cache v) /\
  (forall name, name_to_ip v !! name = Some address -> r = Ok (Some name)) /\
  ((forall name, name_to_ip v !! name <> Some address) ->
     r = if contains_address address v
         then Err (mkIo NotFound "stale virtual DNS address; reconnect after refreshing DNS") else Ok None).
Proof.
  intros (_ & _ & _ & _ & Hag) Hr. unfold resolve_ip, Routing.resolve_virtual_domain, VirtualDns.resolve_ip in Hr.
  cbn [lru_cache touch_ip set_lru set_maps] in Hr.
  pose proof (get_value address (lru_get address (lru_cache v)).2) as Hv. rewrite get_keeps_peek in Hv.
  pose proof (get_reorders address (lru_get address (lru_cache v)).2) as Hp. rewrite (get_reorders address (lru_cache v)) in Hp.
  destruct (lru_get address (lru_get address (lru_cache v)).2) as [d c]. cbn [fst snd] in *. subst d.
  destruct (lru_peek address (lru_cache v)) as [name |] eqn:E.
  - injection Hr as <- <-. split_and!; try done.
    + intros n Hn. apply Hag in Hn. apply peek_spec in Hn. congruence.
    + intros Hn. destruct (Hn name). apply Hag. by apply peek_spec.
  - change (contains_address address _) with (contains_address address v) in Hr.
    destruct (contains_address address v) eqn:Ec; injection Hr as <- <-; (split_and!; try done);
      intros n Hn; apply Hag in Hn; apply peek_spec in Hn; congruence.
Qed.
End state.

(** The last address of a pool whose first one is in use, and the first one. *)
Lemma virtual_state_reads_witness :
  (resolve_ip (ipv4 198 18 0 1) VirtualDnsQuery.one_name).1 =
    Err (mkIo NotFound "stale virtual DNS address; reconnect after refreshing DNS") /\
  (resolve_ip (ipv4 198 18 0 0) VirtualDnsQuery.one_name).1 = Ok (Some "a.org").
Proof.
  split.
  - destruct (resolve_ip (ipv4 198 18 0 1) VirtualDnsQuery.one_name) as [r v1] eqn:E.
    destruct (virtual_state_reads (H0 := VirtualDnsQuery.list_lru_laws) _ _ r v1 VirtualDnsQuery.one_name_wf E) as (_ & _ & _ & _ & _ & _ & _ & Hno).
    cbn [fst]. rewrite Hno; [vm_compute; reflexivity |]. intros name Hn.
    change (name_to_ip VirtualDnsQuery.one_name) with ({["a.org" := (ipv4 198 18 0 0)]} : gmap string IpAddr) in Hn.
    apply lookup_singleton_Some in Hn as [_ Hn]. discriminate Hn.
  - destruct (resolve_ip (ipv4 198 18 0 0) VirtualDnsQuery.one_name) as [r v1] eqn:E.
    destruct (virtual_state_reads (H0 := VirtualDnsQuery.list_lru_laws) _ _ r v1 VirtualDnsQuery.one_name_wf E) as (_ & _ & _ & _ & _ & _ & Hyes & _).
    cbn [fst]. apply Hyes. vm_compute. reflexivity.
Defined.
End VirtualDnsState.
