(* ===== verification/CacheCrash.v ===== *)
(** * The cache file when the process is killed (src/src/virtual_dns/persistence.rs)

    The cache file and the temporary file as bytes, the calls by which
    [append_mapping] and [rewrite] change them, and a process that ends at any
    point of them, also inside a write.  A loss of power is not considered: what
    a call has written stays written. *)

From S2P Require Import Prelude Net Socks5Impl Rfc1928 Dns Process Persistence VirtualDns VirtualDnsProofs VirtualDnsJournal VirtualDnsQuery WideText.

Module CacheCrash.
Import VirtualDns VirtualDnsProofs VirtualDnsJournal.

(** ** Lines of a file *)

Definition NEWLINE : Z := 10.
Definition CARRIAGE_RETURN : Z := 13.

(** The bytes of each line, and whether a newline ends it. *)
Fixpoint raw_lines (bs : list Z) : list (list Z * bool) :=
  match bs with
  | [] => []
  | b :: bs' =>
      if b =? NEWLINE then ([], true) :: raw_lines bs'
      else match raw_lines bs' with
           | [] => [([b], false)]
           | (l, e) :: ls => (b :: l, e) :: ls
           end
  end.

(** [str::from_utf8] accepts the bytes. *)
Definition is_utf8 (bs : list Z) : bool :=
  bool_decide (flat_map WideText.utf8_char (WideText.chars bs) = bs) &&
  forallb (fun c => (0 <=? c) && (c <=? 0x10FFFF) && negb ((0xD800 <=? c) && (c <=? 0xDFFF))) (WideText.chars bs).

(** [BufRead::lines]: the newline is cut off, with a carriage return before it;
    [None] is the error for a line that is not UTF-8. *)
Definition read_line (l : list Z * bool) : option string :=
  let bs := if l.2 && bool_decide (last l.1 = Some CARRIAGE_RETURN) then removelast l.1 else l.1 in
  if is_utf8 bs then Some (Rfc1928.of_bytes bs) else None.

Definition read_lines (bs : list Z) : list (option string) := read_line <$> raw_lines bs.

(** ** Calls of the file system *)

Record Fs := mkFs { cache : option (list Z); temp : option (list Z) }.

Inductive FsOp :=
  | OpenAppend | Append (bs : list Z)
  | CreateTemp | WriteTemp (bs : list Z) | RemoveCache | RenameTemp.

Definition perform (o : FsOp) (fs : Fs) : Fs :=
  match o with
  | OpenAppend => mkFs (Some (default [] (cache fs))) (temp fs)
  | Append bs => mkFs (Some (default [] (cache fs) ++ bs)) (temp fs)
  | CreateTemp => mkFs (cache fs) (Some [])
  | WriteTemp bs => mkFs (cache fs) (Some (default [] (temp fs) ++ bs))
  | RemoveCache => mkFs None (temp fs)
  | RenameTemp => match temp fs with Some bs => mkFs (Some bs) None | None => fs end
  end.

Fixpoint perform_all (ops : list FsOp) (fs : Fs) : Fs :=
  match ops with [] => fs | o :: ops' => perform_all ops' (perform o fs) end.

(** The first [k] bytes of a write; other calls happen or do not. *)
Definition cut (k : nat) (o : FsOp) : list FsOp :=
  match o with
  | Append bs => [Append (take k bs)]
  | WriteTemp bs => [WriteTemp (take k bs)]
  | _ => []
  end.

(** The process is killed in call number [n], after [k] bytes. *)
Definition killed (n k : nat) (ops : list FsOp) (fs : Fs) : Fs :=
  perform_all (take n ops ++ match ops !! n with Some o => cut k o | None => [] end) fs.

Section crash.
Context `{LL : LruCacheLaws} `{CL : Persistence.CacheCodecLaws}.
Variable windows : bool.

(** [write_cache_record]. *)
Definition record_bytes (r : Persistence.CacheRecord) : list Z := as_bytes (Persistence.encode r) ++ [NEWLINE].

Definition append_ops (ip : IpAddr) (name : string) : list FsOp :=
  [OpenAppend; Append (record_bytes (Persistence.Mapping ip name))].

Definition header (v : VirtualDns) (cursor : IpAddr) : Persistence.CacheRecord :=
  Persistence.Header Persistence.CACHE_VERSION (network_addr v) (broadcast_addr v) cursor.

(** [replace_file]. *)
Definition replace_ops : list FsOp := if windows then [RemoveCache; RenameTemp] else [RenameTemp].

Definition rewrite_ops (v : VirtualDns) : list FsOp :=
  [CreateTemp; WriteTemp (record_bytes (header v (next_addr v)))] ++
  ((fun m => WriteTemp (record_bytes (Persistence.Mapping m.1 m.2))) <$> lru_iter (lru_cache v)) ++
  replace_ops.

(** The calls of [persist_mapping] on a file that is not empty, none of which
    fails; [records] is the count of the journal. *)
Definition persist_ops (records : Z) (ip : IpAddr) (name : string) (v : VirtualDns) : list FsOp :=
  append_ops ip name ++
  (if Persistence.should_compact (Z.of_nat (lru_len (lru_cache v)))
        (Persistence.mkCache (Persistence.sat (records + 1)) false (Persistence.mkDisk None []))
   then rewrite_ops v else []).

(** The disk as the resolver finds it. *)
Definition disk_of (fs : Fs) : Persistence.Disk := Persistence.mkDisk (read_lines <$> cache fs) [].

(** ** Reading back what was written *)

(** What is relied on of the encoding: a record is one line of JSON, which its
    closing brace ends, so that no shorter piece of it is a record. *)
Definition record_text (r : Persistence.CacheRecord) : bool :=
  match r with Persistence.Header _ _ _ _ => true | Persistence.Mapping _ name => is_utf8 (as_bytes name) end.

Class CacheTextLaws : Prop := {
  encode_one_line : forall r, NEWLINE ∉ as_bytes (Persistence.encode r);
  encode_closed : forall r, last (as_bytes (Persistence.encode r)) <> Some CARRIAGE_RETURN;
  encode_utf8 : forall r, record_text r = true -> is_utf8 (as_bytes (Persistence.encode r)) = true;
  decode_torn : forall r k, (k < length (as_bytes (Persistence.encode r)))%nat ->
    Persistence.decode (Rfc1928.of_bytes (take k (as_bytes (Persistence.encode r)))) = None }.
Context `{TL : CacheTextLaws}.

Lemma raw_lines_line l rest : NEWLINE ∉ l -> raw_lines (l ++ NEWLINE :: rest) = (l, true) :: raw_lines rest.
Proof.
  induction l as [| b l IH]; intros Hl; [done |]. apply not_elem_of_cons in Hl as [Hb Hl]. cbn [app raw_lines].
  destruct (b =? NEWLINE) eqn:E; [b2p; congruence |]. by rewrite (IH Hl).
Qed.

Lemma raw_lines_open l : NEWLINE ∉ l -> l <> [] -> raw_lines l = [(l, false)].
Proof.
  induction l as [| b l IH]; intros Hl Hne; [done |]. apply not_elem_of_cons in Hl as [Hb Hl]. cbn [raw_lines].
  destruct (b =? NEWLINE) eqn:E; [b2p; congruence |]. destruct l as [| b' l]; [done |]. by rewrite IH.
Qed.

(** A record is read back, whatever follows it. *)
Lemma read_record r rest :
  record_text r = true -> read_lines (record_bytes r ++ rest) = Some (Persistence.encode r) :: read_lines rest.
Proof.
  intros Hr. unfold read_lines, record_bytes. rewrite <- app_assoc. cbn [app]. rewrite raw_lines_line by apply encode_one_line.
  cbn [fmap list_fmap]. f_equal. unfold read_line. cbn [fst snd andb]. rewrite bool_decide_eq_false_2 by apply encode_closed.
  rewrite encode_utf8 by done. f_equal. apply Rfc1928.of_bytes_as_bytes.
Qed.

(** A piece of a line that is no record. *)
Definition spoilt (x : option string) : Prop := match x with Some l => Persistence.decode l = None | None => True end.

(** What is read of a record that was cut: nothing, the whole record, or a
    spoilt line. *)
Lemma read_cut r k :
  record_text r = true ->
  read_lines (take k (record_bytes r)) = [] \/
  read_lines (take k (record_bytes r)) = [Some (Persistence.encode r)] \/
  exists x, read_lines (take k (record_bytes r)) = [x] /\ spoilt x.
Proof.
  intros Hr. unfold record_bytes. set (e := as_bytes (Persistence.encode r)).
  destruct (decide (k = 0)%nat) as [-> | Hk]; [by left |]. right.
  destruct (decide (length e < k)%nat) as [Hl | Hl].
  { left. rewrite take_ge by (rewrite length_app; cbn; lia). fold (record_bytes r). rewrite <- (app_nil_r (e ++ _)).
    exact (read_record r [] Hr). }
  rewrite take_app_le by lia. assert (Hne : take k e <> []).
  { intros Hz%(f_equal length). rewrite length_take in Hz. cbn in Hz.
    pose proof (Persistence.encode_not_empty r) as Hn. destruct (Persistence.encode r) eqn:E; [done |].
    subst e. cbn in Hz. destruct k; lia. }
  assert (Hin : NEWLINE ∉ take k e).
  { intros Hn. apply (encode_one_line r). fold e. rewrite <- (take_drop k e). apply elem_of_app. by left. }
  unfold read_lines. rewrite (raw_lines_open _ Hin Hne). cbn [fmap list_fmap]. unfold read_line. cbn [fst snd andb].
  destruct (decide (k = length e)) as [-> | Hneq].
  - left. rewrite firstn_all. subst e. rewrite encode_utf8 by done. by rewrite Rfc1928.of_bytes_as_bytes.
  - right. eexists. split; [reflexivity |]. destruct (is_utf8 _); [| done]. cbn. apply decode_torn. fold e. lia.
Qed.

(** The bytes of a file with these records. *)
Definition file_bytes (v : VirtualDns) (cursor : IpAddr) (ms : list (IpAddr * string)) : list Z :=
  record_bytes (header v cursor) ++ concat ((fun m => record_bytes (Persistence.Mapping m.1 m.2)) <$> ms).

Definition texts (ms : list (IpAddr * string)) : Prop := Forall (fun m => is_utf8 (as_bytes m.2) = true) ms.

Lemma read_file v cursor ms rest :
  texts ms -> read_lines (file_bytes v cursor ms ++ rest) = journal_lines v cursor ms ++ read_lines rest.
Proof.
  intros Ht. unfold file_bytes, journal_lines. rewrite <- app_assoc, read_record by done. cbn [app]. f_equal.
  induction Ht as [| m ms Hm _ IH]; [done |]. cbn [fmap list_fmap concat encode_all]. rewrite <- app_assoc, read_record by done.
  cbn [app]. f_equal. exact IH.
Qed.

Lemma read_whole v cursor ms : texts ms -> read_lines (file_bytes v cursor ms) = journal_lines v cursor ms.
Proof. intros Ht. pose proof (read_file v cursor ms [] Ht) as Hr. by rewrite !app_nil_r in Hr. Qed.

Lemma disk_of_cache fs bs : cache fs = Some bs -> disk_of fs = Persistence.mkDisk (Some (read_lines bs)) [].
Proof. intros E. unfold disk_of. by rewrite E. Qed.

Lemma load_spoilt ms x k :
  Forall (fun m => ip_wf m.1) ms -> spoilt x -> exists n, Persistence.load_lines (encode_all ms ++ [x]) k = (ms, true, n).
Proof.
  intros Hok Hx. revert k. induction Hok as [| [ip n] ms Hip _ IH]; intros k; cbn [encode_all fmap list_fmap app Persistence.load_lines].
  - destruct x as [l |]; [| by eexists]. cbn in Hx. rewrite Hx. case_bool_decide; by eexists.
  - rewrite bool_decide_eq_false_2 by apply Persistence.encode_not_empty. cbn [fst snd]. rewrite Persistence.decode_encode by done.
    destruct (IH (Persistence.sat (k + 1))) as [m Hm]. unfold encode_all in Hm. rewrite Hm. by eexists.
Qed.

(** ** Killed at any point *)

(** The file is up to date for [v]. *)
Definition stored (v : VirtualDns) (cursor : IpAddr) (ms : list (IpAddr * string)) (bs : list Z) : Prop :=
  bs = file_bytes v cursor ms /\ address_in_pool v cursor = true /\
  Forall (fun m => address_in_pool v m.1 = true) ms /\ texts ms /\ replays v ms.

(** A new resolver [v0] that is started on this disk has the table. *)
Definition recovers (v0 : VirtualDns) (fs : Fs) (table : gmap string IpAddr) : Prop :=
  exists k v2, enable_persistence windows (disk_of fs) v0 = (Ok k, v2) /\ vd_wf v2 /\ name_to_ip v2 = table.

Lemma in_pool_forall v (ms : list (IpAddr * string)) : vd_wf v -> Forall (fun m => address_in_pool v m.1 = true) ms -> Forall (fun m => ip_wf m.1) ms.
Proof. intros Hwf Hms. eapply Forall_impl; [exact Hms |]. intros m. apply in_pool_wf. by destruct Hwf. Qed.

Lemma stored_recovers v cursor ms bs fs v0 :
  vd_wf v -> vd_wf v0 -> same_pool v v0 -> stored v cursor ms bs -> cache fs = Some bs -> recovers v0 fs (name_to_ip v).
Proof.
  intros Hwf Hwf0 Hsp (-> & Hcur & Hms & Ht & Hrep) Hfs.
  destruct (lines_restart windows v v0 cursor ms [] false Hwf Hwf0 Hsp Hcur Hrep) as (k & v2 & He & Hv2).
  { intros k. rewrite app_nil_r. apply load_lines_encoded. by apply (in_pool_forall v). }
  exists k, v2. split; [| done]. rewrite (disk_of_cache _ _ Hfs), read_whole by done. by rewrite app_nil_r in He.
Qed.

(** A cut record behind the others. *)
Lemma cut_recovers v v1 cursor ms ip name fs v0 k bs :
  vd_wf v -> vd_wf v1 -> vd_wf v0 -> same_pool v v0 -> same_pool v1 v0 -> is_utf8 (as_bytes name) = true ->
  stored v cursor ms bs -> stored v1 cursor (ms ++ [(ip, name)]) (bs ++ record_bytes (Persistence.Mapping ip name)) ->
  cache fs = Some (bs ++ take k (record_bytes (Persistence.Mapping ip name))) ->
  recovers v0 fs (name_to_ip v) \/ recovers v0 fs (name_to_ip v1).
Proof.
  intros Hwf Hwf1 Hwf0 Hsp Hsp1 Hname Hst Hst1 Hfs. pose proof Hst as (-> & Hcur & Hms & Ht & Hrep).
  assert (Hd : disk_of fs = Persistence.mkDisk (Some (journal_lines v cursor ms ++
    read_lines (take k (record_bytes (Persistence.Mapping ip name))))) []).
  { by rewrite (disk_of_cache _ _ Hfs), read_file. }
  destruct (read_cut (Persistence.Mapping ip name) k Hname) as [E | [E | (x & E & Hx)]]; rewrite E in Hd.
  - left. destruct (lines_restart windows v v0 cursor ms [] false Hwf Hwf0 Hsp Hcur Hrep) as (n & v2 & He & Hv2).
    { intros n. rewrite app_nil_r. apply load_lines_encoded. by apply (in_pool_forall v). }
    exists n, v2. by rewrite Hd.
  - right. destruct (stored_recovers v1 cursor _ _ (mkFs (Some _) None) v0 Hwf1 Hwf0 Hsp1 Hst1 eq_refl) as (n & v2 & He & Hv2).
    exists n, v2. split; [| done]. rewrite Hd. unfold disk_of in He. cbn [cache fmap option_fmap option_map] in He.
    rewrite <- (app_nil_r (record_bytes _)), read_file, read_record in He by done. exact He.
  - left. destruct (lines_restart windows v v0 cursor ms [x] true Hwf Hwf0 Hsp Hcur Hrep) as (n & v2 & He & Hv2).
    { intros n. apply load_spoilt; [by apply (in_pool_forall v) | done]. }
    exists n, v2. by rewrite Hd.
Qed.

Lemma perform_app a b fs : perform_all (a ++ b) fs = perform_all b (perform_all a fs).
Proof. revert fs. induction a as [| o a IH]; intros fs; [done | apply IH]. Qed.

Lemma killed_past n k a b fs : (length a <= n)%nat -> killed n k (a ++ b) fs = killed (n - length a) k b (perform_all a fs).
Proof. intros Hn. unfold killed. by rewrite take_app_ge, lookup_app_r, <- app_assoc, perform_app by lia. Qed.

Lemma killed_within n k a b fs : (n < length a)%nat -> killed n k (a ++ b) fs = killed n k a fs.
Proof. intros Hn. unfold killed. by rewrite take_app_le, lookup_app_l by lia. Qed.

(** Calls that leave the cache file alone. *)
Definition is_temp (o : FsOp) : Prop := match o with CreateTemp | WriteTemp _ => True | _ => False end.

Lemma temp_ops_cache ops fs : Forall is_temp ops -> cache (perform_all ops fs) = cache fs.
Proof. intros Ho. revert fs. induction Ho as [| o ops Hx _ IH]; intros fs; [done |]. cbn. rewrite IH. by destruct o. Qed.

Lemma temp_ops_killed n k ops fs : Forall is_temp ops -> cache (killed n k ops fs) = cache fs.
Proof.
  intros Ho. apply temp_ops_cache. apply Forall_app. split; [by apply Forall_take |].
  destruct (ops !! n) as [o |] eqn:E; [| constructor]. eapply Forall_lookup_1 in E; [| done].
  destruct o; cbn in *; repeat constructor; done.
Qed.

Lemma write_temps ms fs old :
  temp fs = Some old ->
  perform_all ((fun m => WriteTemp (record_bytes (Persistence.Mapping m.1 m.2))) <$> ms) fs =
    mkFs (cache fs) (Some (old ++ concat ((fun m => record_bytes (Persistence.Mapping m.1 m.2)) <$> ms))).
Proof.
  revert fs old. induction ms as [| m ms IH]; intros [c t] old E; cbn in E; subst t; cbn; [by rewrite app_nil_r |].
  erewrite IH by reflexivity. cbn. by rewrite <- app_assoc.
Qed.

(** The new contents are complete before the cache file is touched. *)
Definition temp_part (v : VirtualDns) : list FsOp :=
  [CreateTemp; WriteTemp (record_bytes (header v (next_addr v)))] ++
  ((fun m => WriteTemp (record_bytes (Persistence.Mapping m.1 m.2))) <$> lru_iter (lru_cache v)).

Lemma temp_part_temp v : Forall is_temp (temp_part v).
Proof. unfold temp_part. cbn. repeat constructor. apply Forall_fmap, Forall_true. done. Qed.

Lemma temp_part_done v fs :
  perform_all (temp_part v) fs = mkFs (cache fs) (Some (file_bytes v (next_addr v) (lru_iter (lru_cache v)))).
Proof. unfold temp_part. rewrite perform_app. cbn [perform_all perform cache temp default app]. by erewrite write_temps by reflexivity. Qed.

Lemma rewrite_split v : rewrite_ops v = temp_part v ++ replace_ops.
Proof. unfold rewrite_ops, temp_part. by rewrite <- app_assoc. Qed.

Lemma rewrite_done v fs : cache (perform_all (rewrite_ops v) fs) = Some (file_bytes v (next_addr v) (lru_iter (lru_cache v))).
Proof. rewrite rewrite_split, perform_app, temp_part_done. unfold replace_ops. by destruct windows. Qed.

(** A rewrite that is killed leaves the old file or the new one, on Windows
    possibly none. *)
Lemma rewrite_killed n k v fs :
  cache (killed n k (rewrite_ops v) fs) = cache fs \/
  cache (killed n k (rewrite_ops v) fs) = Some (file_bytes v (next_addr v) (lru_iter (lru_cache v))) \/
  (windows = true /\ cache (killed n k (rewrite_ops v) fs) = None).
Proof.
  rewrite rewrite_split. destruct (decide (n < length (temp_part v))%nat) as [Hn | Hn].
  { left. rewrite killed_within by done. apply temp_ops_killed, temp_part_temp. }
  rewrite killed_past, temp_part_done by lia. unfold replace_ops. destruct (n - length (temp_part v))%nat as [| [| m]], windows; cbn; auto.
  right. left. by rewrite take_nil.
Qed.

Lemma stored_append v cursor ms bs name ip v1 :
  vd_wf v -> name_ok v name -> is_utf8 (as_bytes name) = true -> name_to_ip v !! name = None -> allocated v name ip v1 ->
  stored v cursor ms bs -> stored v1 cursor (ms ++ [(ip, name)]) (bs ++ record_bytes (Persistence.Mapping ip name)).
Proof.
  intros Hwf Hnm Hu Hno Hal (-> & Hcur & Hms & Ht & Hrep). pose proof Hal as (Hsp & Hip & _). pose proof Hsp as (_ & Hn & Hb).
  split.
  { unfold file_bytes, header. rewrite Hn, Hb, fmap_app, concat_app. cbn. by rewrite app_nil_r, <- !app_assoc. }
  split; [by rewrite (in_pool_same v v1) |]. split.
  { apply Forall_app. split; [| by constructor; [rewrite (in_pool_same v v1) | constructor]].
    eapply Forall_impl; [exact Hms |]. intros m Hm. by rewrite (in_pool_same v v1). }
  split; [apply Forall_app; split; [done | by constructor] | by apply (replays_allocated v)].
Qed.

Lemma stored_rewrite v :
  vd_wf v -> names_ok v -> texts (lru_iter (lru_cache v)) ->
  stored v (next_addr v) (lru_iter (lru_cache v)) (file_bytes v (next_addr v) (lru_iter (lru_cache v))).
Proof.
  intros Hwf Hns Ht. pose proof Hwf as (_ & Hn & _ & Hin & _). split_and!; try done; [by apply Forall_forall | by apply replays_entries].
Qed.

Lemma texts_allocated v name ip v1 :
  is_utf8 (as_bytes name) = true -> allocated v name ip v1 -> texts (lru_iter (lru_cache v)) -> texts (lru_iter (lru_cache v1)).
Proof.
  intros Hu (_ & _ & _ & Hcase) Ht. unfold texts in *. destruct Hcase as [(_ & -> & _) | (old & rest & Hv & -> & _)]; apply Forall_app;
    (split; [| by constructor]); [done |]. rewrite Hv in Ht. by apply Forall_cons in Ht as [_ Ht].
Qed.

(** The calls are those of [persist_mapping]. *)
Lemma persist_ops_done v cursor ms bs name ip v1 fs records :
  allocated v name ip v1 -> is_utf8 (as_bytes name) = true -> texts (lru_iter (lru_cache v1)) ->
  stored v cursor ms bs -> cache fs = Some bs -> persistence v1 = Some (Persistence.mkCache records false (disk_of fs)) ->
  exists m, persistence (persist_mapping windows ip name v1) =
    Some (Persistence.mkCache m false (disk_of (perform_all (persist_ops records ip name v1) fs))).
Proof.
  intros Hal Hu Ht1 (-> & Hcur & Hms & Ht & Hrep) Hfs Hp.
  rewrite (disk_of_cache _ _ Hfs), read_whole in Hp by done. unfold persist_mapping, persist_result, persist_ops. rewrite Hp, perform_app.
  cbn [Persistence.needs_rewrite Persistence.dirty Persistence.try_io Persistence.attempt
    Persistence.next_outcome Persistence.outcomes Persistence.disk Persistence.file journal_lines].
  unfold Persistence.append_mapping. run_M. set (p2 := Persistence.mkCache _ false _).
  change (Persistence.should_compact (Z.of_nat (lru_len (lru_cache v1))) (Persistence.mkCache _ false (Persistence.mkDisk None [])))
    with (Persistence.should_compact (Z.of_nat (lru_len (lru_cache v1))) p2).
  destruct (Persistence.should_compact _ p2).
  - edestruct (rewrite_ok windows (set_persistence (Some p2) v1)) as [m Hrw]; [reflexivity |]. rewrite Hrw.
    exists m. by rewrite (disk_of_cache _ _ (rewrite_done v1 _)), read_whole.
  - rewrite (disk_of_cache _ (file_bytes v cursor ms ++ record_bytes (Persistence.Mapping ip name))); [| cbn; by rewrite Hfs].
    rewrite read_file, <- (app_nil_r (record_bytes _)), read_record by done. by eexists.
Qed.

(** What a lookup finds, and leaves behind. *)
Definition kept (v : VirtualDns) (fs : Fs) : Prop :=
  vd_wf v /\ names_ok v /\ texts (lru_iter (lru_cache v)) /\
  exists cursor ms bs records, stored v cursor ms bs /\ cache fs = Some bs /\
    persistence v = Some (Persistence.mkCache records false (disk_of fs)).

Lemma kept_recovers v fs v0 : kept v fs -> vd_wf v0 -> same_pool v v0 -> recovers v0 fs (name_to_ip v).
Proof. intros (Hwf & _ & _ & cursor & ms & bs & records & Hst & Hfs & _) Hwf0 Hsp. by apply (stored_recovers v cursor ms bs). Qed.

(** Recording a new mapping, killed at any point. *)
Lemma mapping_killed v name ip v1 fs cursor ms bs records v0 n k :
  vd_wf v -> name_ok v name -> is_utf8 (as_bytes name) = true -> name_to_ip v !! name = None -> allocated v name ip v1 ->
  names_ok v1 -> texts (lru_iter (lru_cache v1)) -> stored v cursor ms bs -> cache fs = Some bs -> vd_wf v0 -> same_pool v v0 ->
  let fs' := killed n k (persist_ops records ip name v1) fs in
  recovers v0 fs' (name_to_ip v) \/ recovers v0 fs' (name_to_ip v1) \/ (windows = true /\ cache fs' = None).
Proof.
  intros Hwf Hnm Hu Hno Hal Hns1 Ht1 Hst Hfs Hwf0 Hsp0. pose proof Hal as (Hsp & _).
  pose proof (allocated_wf _ _ _ _ Hwf Hno Hal) as Hwf1. pose proof (stored_append _ _ _ _ _ _ _ Hwf Hnm Hu Hno Hal Hst) as Hst1.
  assert (Hsp1 : same_pool v1 v0) by (eapply same_pool_trans; [by apply same_pool_sym | done]).
  set (fs1 := perform_all (append_ops ip name) fs).
  assert (Hc1 : cache fs1 = Some (bs ++ record_bytes (Persistence.Mapping ip name))) by (unfold fs1; cbn; by rewrite Hfs).
  assert (Hnew : forall f, cache f = cache fs1 \/ cache f = Some (file_bytes v1 (next_addr v1) (lru_iter (lru_cache v1))) ->
    recovers v0 f (name_to_ip v1)).
  { intros f [E | E]; [rewrite Hc1 in E; by apply (stored_recovers v1 cursor _ _ f v0 Hwf1 Hwf0 Hsp1 Hst1) |].
    by apply (stored_recovers v1 _ _ _ f v0 Hwf1 Hwf0 Hsp1 (stored_rewrite v1 Hwf1 Hns1 Ht1)). }
  cbv zeta. unfold persist_ops. destruct n as [| [| n]].
  - left. by apply (stored_recovers v cursor ms bs).
  - rewrite killed_within by (cbn; lia).
    destruct (cut_recovers v v1 cursor ms ip name (killed 1 k (append_ops ip name) fs) v0 k bs); try done; [| by left | by right; left].
    cbn. by rewrite Hfs.
  - rewrite killed_past by (cbn; lia). fold fs1. destruct (Persistence.should_compact _ _).
    + destruct (rewrite_killed (S (S n) - 2) k v1 fs1) as [E | [E | E]]; [right; left; apply Hnew; by left | right; left; apply Hnew; by right |].
      right. by right.
    + right. left. apply Hnew. left. unfold killed. by rewrite take_nil.
Qed.

(** The same, with its calls complete. *)
Lemma mapping_kept v name ip v1 fs cursor ms bs records :
  vd_wf v -> name_ok v name -> is_utf8 (as_bytes name) = true -> name_to_ip v !! name = None -> allocated v name ip v1 ->
  names_ok v1 -> texts (lru_iter (lru_cache v1)) -> stored v cursor ms bs -> cache fs = Some bs ->
  persistence v1 = Some (Persistence.mkCache records false (disk_of fs)) ->
  kept (persist_mapping windows ip name v1) (perform_all (persist_ops records ip name v1) fs).
Proof.
  intros Hwf Hnm Hu Hno Hal Hns1 Ht1 Hst Hfs Hp.
  pose proof (allocated_wf _ _ _ _ Hwf Hno Hal) as Hwf1. pose proof (stored_append _ _ _ _ _ _ _ Hwf Hnm Hu Hno Hal Hst) as Hst1.
  destruct (persist_ops_done v cursor ms bs name ip v1 fs records Hal Hu Ht1 Hst Hfs Hp) as [m Hm].
  destruct (persist_frame windows ip name v1) as [q Hq]. rewrite Hq in *.
  split; [exact Hwf1 |]. split; [exact Hns1 |]. split; [exact Ht1 |]. unfold persist_ops in *. rewrite perform_app in *.
  destruct (Persistence.should_compact _ _).
  - exists (next_addr v1), (lru_iter (lru_cache v1)), (file_bytes v1 (next_addr v1) (lru_iter (lru_cache v1))), m.
    split; [exact (stored_rewrite v1 Hwf1 Hns1 Ht1) |]. split; [apply rewrite_done | exact Hm].
  - exists cursor, (ms ++ [(ip, name)]), (bs ++ record_bytes (Persistence.Mapping ip name)), m.
    split; [exact Hst1 |]. split; [cbn; by rewrite Hfs | exact Hm].
Qed.

(** The calls of a lookup: a name that is known needs none. *)
Definition records_of (v : VirtualDns) : Z :=
  match persistence v with Some p => Persistence.journal_records p | None => 0 end.

Definition lookup_ops (name : string) (v : VirtualDns) : list FsOp :=
  match name_to_ip v !! canonical_name v name, find_or_allocate_ip windows name v with
  | None, (Ok ip, v') => persist_ops (records_of v) ip (canonical_name v name) v'
  | _, _ => []
  end.

Fixpoint run_ops (names : list string) (v : VirtualDns) : list FsOp :=
  match names with
  | [] => []
  | n :: ns => lookup_ops n v ++ run_ops ns (find_or_allocate_ip windows n v).2
  end.

(** A name as a question can contain it. *)
Definition text_ok (v : VirtualDns) (name : string) : Prop :=
  name_ok v (canonical_name v name) /\ is_utf8 (as_bytes (canonical_name v name)) = true.

Lemma text_ok_pool v w name : same_pool v w -> text_ok v name -> text_ok w name.
Proof. intros Hs [Hn Hu]. unfold text_ok. rewrite (canonical_same_pool v w) by done. split; [by eapply name_ok_pool | done]. Qed.

Lemma lookup_killed name v fs v0 :
  kept v fs -> text_ok v name -> vd_wf v0 -> same_pool v v0 ->
  let v' := (find_or_allocate_ip windows name v).2 in
  kept v' (perform_all (lookup_ops name v) fs) /\ same_pool v v' /\
  forall n k, (n < length (lookup_ops name v))%nat ->
    let fs' := killed n k (lookup_ops name v) fs in
    recovers v0 fs' (name_to_ip v) \/ recovers v0 fs' (name_to_ip v') \/ (windows = true /\ cache fs' = None).
Proof.
  intros (Hwf & Hns & Ht & cursor & ms & bs & records & Hst & Hfs & Hp) [Hnm Hu] Hwf0 Hsp0.
  destruct (find_cases windows name v Hwf) as (ip & v' & Hf & Hc). unfold lookup_ops. rewrite Hf. cbn [snd].
  destruct (find_wf windows name v ip v' Hwf Hf) as (Hwf' & Hsp' & _).
  destruct Hc as [[Hl ->] | [Hl (v1 & Hal & Hp1 & ->)]]; rewrite Hl.
  - split; [| split; [exact Hsp' | cbn; lia]]. unfold retry_dirty_persistence in *. cbn [persistence touch_ip set_lru set_maps] in *.
    rewrite Hp in *. cbn [Persistence.dirty perform_all] in *. split; [exact Hwf' |]. split; [| split].
    + intros e. cbn. rewrite get_entries. apply Hns.
    + apply Forall_forall. intros e. cbn. rewrite get_entries. intros He. by eapply Forall_forall in Ht.
    + exists cursor, ms, bs, records. split_and!; done.
  - pose proof (names_ok_allocated _ _ _ _ Hns Hnm Hal) as Hns1. pose proof (texts_allocated _ _ _ _ Hu Hal Ht) as Ht1.
    assert (Hr : records_of v = records) by (unfold records_of; by rewrite Hp).
    destruct (persist_frame windows ip (canonical_name v name) v1) as [q Hq].
    assert (Hops : persist_ops (records_of v) ip (canonical_name v name) (persist_mapping windows ip (canonical_name v name) v1) =
      persist_ops records ip (canonical_name v name) v1) by (by rewrite Hr, Hq). rewrite Hops.
    split; [by apply (mapping_kept v _ _ _ _ cursor ms bs); [..| congruence] |]. split; [done |]. intros n k _. cbv zeta.
    assert (Hn : name_to_ip (persist_mapping windows ip (canonical_name v name) v1) = name_to_ip v1) by (by rewrite Hq). rewrite Hn.
    by apply (mapping_killed v (canonical_name v name) ip v1 fs cursor ms bs).
Qed.

(** A sequence of lookups that is killed. *)
Lemma run_killed names v fs v0 n k :
  kept v fs -> Forall (text_ok v) names -> vd_wf v0 -> same_pool v v0 ->
  let fs' := killed n k (run_ops names v) fs in
  exists j, (j <= length names)%nat /\
    (recovers v0 fs' (name_to_ip (lookups windows (take j names) v)) \/ (windows = true /\ cache fs' = None)) /\
    forall i, (i <= length names)%nat -> (length (run_ops (take i names) v) <= n)%nat -> (i <= j)%nat.
Proof.
  revert v fs n. induction names as [| name names IH]; intros v fs n Hk Hok Hwf0 Hsp.
  { exists 0%nat. split; [done |]. split; [| cbn; lia]. left. cbn. unfold killed. rewrite take_nil. by apply kept_recovers. }
  apply Forall_cons in Hok as [Hn Hok]. destruct (lookup_killed name v fs v0 Hk Hn Hwf0 Hsp) as (Hk' & Hsp' & Hkill).
  cbv zeta. cbn [run_ops]. destruct (decide (n < length (lookup_ops name v))%nat) as [Hlt | Hge].
  - rewrite killed_within by done.
    assert (Hno : forall j i, (i <= length (name :: names))%nat -> (length (run_ops (take i (name :: names)) v) <= n)%nat -> (i <= j)%nat).
    { intros j [| i] _ Hi; [lia |]. cbn [take run_ops] in Hi. rewrite length_app in Hi. lia. }
    destruct (Hkill n k Hlt) as [Hr | [Hr | Hr]].
    + exists 0%nat. split; [lia |]. split; [by left | apply Hno].
    + exists 1%nat. split; [cbn; lia |]. split; [by left | apply Hno].
    + exists 0%nat. split; [lia |]. split; [by right | apply Hno].
  - rewrite killed_past by lia. edestruct (IH (find_or_allocate_ip windows name v).2 (perform_all (lookup_ops name v) fs)
      (n - length (lookup_ops name v))%nat Hk') as (j & Hj & Hr & Hi).
    + eapply Forall_impl; [exact Hok |]. intros m. by apply text_ok_pool.
    + done.
    + eapply same_pool_trans; [by apply same_pool_sym | done].
    + exists (S j). split; [cbn; lia |]. split; [exact Hr |]. intros [| i] Hle Hlen; [lia |].
      cbn [take run_ops length] in *. rewrite length_app in Hlen. specialize (Hi i). lia.
Qed.

(** C9. A process that starts without a cache file, answers any lookups of names whose
    canonical form is UTF-8 text of 1 to 253 bytes (the name of the root is not,
    see [root_name_lost]), with every call on the file system succeeding, and is
    killed at any point, also in the middle of a line: the next start has the table as
    it was after some of the lookups, among them every one whose calls were
    complete.  On Windows the table may be empty instead, when the process was
    killed while it replaced the file. *)
Theorem cache_survives_kill first last names leftover n k :
  pool_wf first last -> Forall (text_ok (new first last)) names ->
  exists v1, enable_persistence windows (Persistence.mkDisk None []) (new first last) = (Ok 0%nat, v1) /\
  let ops := fun names => rewrite_ops v1 ++ run_ops names v1 in
  let fs := killed n k (ops names) (mkFs None leftover) in
  exists j, (j <= length names)%nat /\
    (recovers (new first last) fs (name_to_ip (lookups windows (take j names) v1)) \/
     (windows = true /\ recovers (new first last) fs ∅)) /\
    forall i, (i <= length names)%nat -> (length (ops (take i names)) <= n)%nat -> (i <= j)%nat.
Proof.
  intros Hp Hnames. destruct (first_start windows first last Hp) as (v1 & He & Hwf & Hns & _ & Hsp & Hn & Hempty & m & Hdisk).
  exists v1. split; [done |]. cbv zeta. pose proof (new_wf first last Hp) as Hwf0. apply same_pool_sym in Hsp as Hsp0.
  assert (Hmiss : forall fs, cache fs = None -> recovers (new first last) fs ∅).
  { intros fs E. exists 0%nat, v1. unfold disk_of. rewrite E. by split_and!. }
  assert (Ht : texts (lru_iter (lru_cache v1))) by (rewrite Hempty; constructor).
  assert (Hk : forall fs, cache fs = Some (file_bytes v1 (next_addr v1) (lru_iter (lru_cache v1))) -> kept v1 fs).
  { intros fs E. split_and!; [done.. |]. exists (next_addr v1), (lru_iter (lru_cache v1)), (file_bytes v1 (next_addr v1) (lru_iter (lru_cache v1))), m.
    split; [by apply stored_rewrite |]. split; [done |]. by rewrite (disk_of_cache _ _ E), read_whole. }
  destruct (decide (n < length (rewrite_ops v1))%nat) as [Hlt | Hge].
  - rewrite killed_within by done. exists 0%nat. split; [lia |]. split.
    2: { intros i _ Hi. rewrite length_app in Hi. lia. }
    left. change (recovers (new first last) (killed n k (rewrite_ops v1) (mkFs None leftover)) (name_to_ip v1)).
    destruct (rewrite_killed n k v1 (mkFs None leftover)) as [E | [E | [_ E]]].
    + rewrite Hn. by apply Hmiss.
    + by apply kept_recovers; [apply Hk | done | done].
    + rewrite Hn. by apply Hmiss.
  - rewrite killed_past by lia. destruct (run_killed names v1 (perform_all (rewrite_ops v1) (mkFs None leftover)) (new first last)
      (n - length (rewrite_ops v1)) k) as (j & Hj & Hr & Hi); [by apply Hk, rewrite_done | | done | done |].
    { eapply Forall_impl; [exact Hnames |]. intros x. by apply text_ok_pool. }
    exists j. split; [done |]. split; [destruct Hr as [Hr | [Hw Hr]]; [by left | right; auto] |].
    intros i Hle Hlen. rewrite length_app in Hlen. apply Hi; [done | lia].
Qed.

(** On Windows there is a moment at which the complete new file exists only
    under its temporary name, where no start looks for it. *)
Lemma windows_replace_gap v fs :
  windows = true ->
  exists n, killed n 0 (rewrite_ops v) fs = mkFs None (Some (file_bytes v (next_addr v) (lru_iter (lru_cache v)))).
Proof.
  intros Hw. exists (S (length (temp_part v))). rewrite rewrite_split, killed_past, temp_part_done by lia. unfold replace_ops. rewrite Hw.
  by replace (S (length (temp_part v)) - length (temp_part v))%nat with 1%nat by lia.
Qed.
End crash.

(** ** An encoding in braces *)

Definition hex (b : Z) : list Z := [65 + b / 16; 65 + b mod 16].

Fixpoint unhex (bs : list Z) : option (list Z) :=
  match bs with
  | [] => None
  | [a] => if a =? 125 then Some [] else None
  | a :: b :: r => if (a <=? 80) && (b <=? 80) then cons (16 * (a - 65) + (b - 65)) <$> unhex r else None
  end.

Definition braced_bytes (r : Persistence.CacheRecord) : list Z :=
  123 :: flat_map hex (as_bytes (Persistence.encode (CacheCodec := VirtualDnsQuery.byte_codec) r)) ++ [125].

#[local] Instance braced : Persistence.CacheCodec := {
  Persistence.encode := fun r => Rfc1928.of_bytes (braced_bytes r);
  Persistence.decode := fun s =>
    match as_bytes s with
    | [] => None
    | a :: r => if a =? 123 then bs ← unhex r; Persistence.decode (CacheCodec := VirtualDnsQuery.byte_codec) (Rfc1928.of_bytes bs) else None
    end }.

Lemma hex_range b x : is_u8 b -> x ∈ hex b -> 65 <= x <= 80.
Proof.
  unfold is_u8, u8_max. intros Hb. pose proof (Z.div_lt_upper_bound b 16 16). pose proof (Z.div_pos b 16).
  pose proof (Z.mod_pos_bound b 16). unfold hex. rewrite !elem_of_cons. intros [-> | [-> | []%elem_of_nil]]; lia.
Qed.

Lemma hexes_range bs : Forall is_u8 bs -> Forall (fun x => 65 <= x <= 80) (flat_map hex bs).
Proof.
  induction 1 as [| b bs Hb _ IH]; [constructor |]. cbn [flat_map]. apply Forall_app. split; [| done].
  apply Forall_forall. intros x. by apply hex_range.
Qed.

Lemma braced_range r : Forall (fun x => 65 <= x <= 125) (braced_bytes r).
Proof.
  unfold braced_bytes. constructor; [lia |]. apply Forall_app. split; [| constructor; [lia | constructor]].
  eapply Forall_impl; [apply hexes_range, as_bytes_u8 |]. cbn. lia.
Qed.

Lemma braced_as_bytes r : as_bytes (Persistence.encode r) = braced_bytes r.
Proof. apply Rfc1928.as_bytes_of_bytes. eapply Forall_impl; [apply braced_range |]. unfold is_u8, u8_max. cbn. lia. Qed.

Lemma unhex_hex bs : Forall is_u8 bs -> unhex (flat_map hex bs ++ [125]) = Some bs.
Proof.
  induction 1 as [| b bs Hb _ IH]; [done |]. cbn [flat_map hex app unhex]. rewrite IH. cbn [fmap option_fmap option_map].
  pose proof (hex_range b (65 + b / 16) Hb ltac:(by left)). pose proof (hex_range b (65 + b mod 16) Hb ltac:(by right; left)).
  rewrite !(proj2 (Z.leb_le _ 80)) by lia. cbn [andb]. pose proof (Z.div_mod b 16). do 2 f_equal. lia.
Qed.

(** A piece without the closing brace. *)
Lemma unhex_open bs : Forall (fun x => 65 <= x <= 80) bs -> unhex bs = None.
Proof.
  remember (length bs) as n eqn:E. revert bs E. induction n as [n IH] using lt_wf_ind. intros [| a [| b r]] E Hb; [done | |].
  - apply Forall_cons in Hb as [Ha _]. cbn. by rewrite (proj2 (Z.eqb_neq a 125)) by lia.
  - apply Forall_cons in Hb as [_ Hb]. apply Forall_cons in Hb as [_ Hb]. cbn in E. cbn [unhex]. rewrite (IH (length r)) by (done || lia).
    by destruct (_ && _).
Qed.

#[local] Instance braced_laws : Persistence.CacheCodecLaws.
Proof.
  constructor.
  - intros r Hr. unfold Persistence.decode, braced at 1. rewrite braced_as_bytes. unfold braced_bytes. rewrite Z.eqb_refl.
    rewrite unhex_hex by apply as_bytes_u8. cbn [mbind option_bind]. rewrite Rfc1928.of_bytes_as_bytes.
    by apply (Persistence.decode_encode (CacheCodecLaws := VirtualDnsQuery.byte_codec_laws)).
  - intros r. discriminate.
Qed.

Lemma ascii_chars bs : Forall (fun b => 65 <= b <= 125) bs -> WideText.chars bs = bs.
Proof.
  induction 1 as [| b bs Hb _ IH]; [done |]. cbn [WideText.chars]. by rewrite (proj2 (Z.ltb_lt b 0x80)), IH by lia.
Qed.

Lemma ascii_utf8 bs : Forall (fun b => 65 <= b <= 125) bs -> is_utf8 bs = true.
Proof.
  intros Hb. unfold is_utf8. rewrite ascii_chars by done. apply andb_true_intro. split.
  - apply bool_decide_eq_true_2. induction Hb as [| b bs Hx _ IH]; [done |]. cbn [flat_map]. unfold WideText.utf8_char at 1.
    rewrite (proj2 (Z.ltb_lt b 0x80)) by lia. by rewrite IH.
  - apply forallb_forall. intros x Hx%list_elem_of_In. eapply Forall_forall in Hb; [| exact Hx]. cbn in Hb.
    destruct ((0xD800 <=? x) && _) eqn:E; b2p; [lia |]. cbn. rewrite andb_true_r. apply andb_true_intro. lia.
Qed.

#[local] Instance braced_text : CacheTextLaws.
Proof.
  constructor; intros r; rewrite braced_as_bytes; pose proof (braced_range r) as Hr.
  - intros Hn. eapply Forall_forall in Hr; [| exact Hn]. unfold NEWLINE in Hr. lia.
  - unfold braced_bytes. rewrite app_comm_cons, last_snoc. discriminate.
  - intros _. by apply ascii_utf8.
  - intros k Hk. unfold Persistence.decode, braced. rewrite Rfc1928.as_bytes_of_bytes.
    2: { apply Forall_take. eapply Forall_impl; [exact Hr |]. unfold is_u8, u8_max. cbn. lia. }
    unfold braced_bytes in *. destruct k as [| k]; [done |]. cbn [take]. rewrite Z.eqb_refl. cbn [length] in Hk.
    rewrite length_app in Hk. cbn [length] in Hk.
    rewrite take_app_le by lia. rewrite unhex_open; [done |]. apply Forall_take, hexes_range, as_bytes_u8.
Qed.

(** ** A pool of two addresses *)

#[local] Existing Instance VirtualDnsQuery.list_lru.
#[local] Existing Instance VirtualDnsQuery.list_lru_laws.

Definition fresh : VirtualDns := new (ipv4 198 18 0 0) (ipv4 198 18 0 1).

(** The first start, and its cache file. *)
Definition started : VirtualDns := (enable_persistence false (Persistence.mkDisk None []) fresh).2.

Definition first_file : list Z := file_bytes started (next_addr started) [].
Definition first_fs : Fs := mkFs (Some first_file) None.

(** Killed in the middle of the line of "a.org". *)
Lemma cache_survives_kill_witness :
  exists v1 j, (j <= 1)%nat /\
    (let fs := killed 4 7 (rewrite_ops false v1 ++ run_ops false ["a.org"] v1) (mkFs None None) in
     recovers false fresh fs (name_to_ip (lookups false (take j ["a.org"]) v1)) \/ (false = true /\ recovers false fresh fs ∅)).
Proof.
  destruct (cache_survives_kill false (ipv4 198 18 0 0) (ipv4 198 18 0 1) ["a.org"] None 4 7) as (v1 & _ & j & Hj & Hr & _).
  - exact VirtualDnsQuery.small_pool.
  - constructor; [| constructor]. split; [split; [vm_compute; reflexivity | split; [discriminate | vm_compute; lia]] | vm_compute; reflexivity].
  - exists v1, j. split; [exact Hj | exact Hr].
Defined.

(** The root: its canonical name is empty.  A lookup of it gets an address like
    any other and its record is written, but the loader refuses an empty name, so
    a restart forgets this mapping, and only this one. *)
Example root_name_lost :
  let v := lookups false ["."; "a.org"] started in
  exists p ip, persistence v = Some p /\ name_to_ip v !! EmptyString = Some ip /\
    is_Some (name_to_ip v !! "a.org") /\
    name_to_ip (enable_persistence false (Persistence.disk p) fresh).2 = delete EmptyString (name_to_ip v).
Proof.
  cbv zeta. eexists _, (ipv4 198 18 0 1). split; [vm_compute; reflexivity |]. split; [vm_compute; reflexivity |].
  split; [vm_compute; by eexists | vm_compute; reflexivity].
Qed.

(** The newline of a record is written by a call of its own.  When the process
    is killed before it, the record is loaded at the next start and the file is
    not repaired; the next record is written behind it on the same line, and
    the start after that has lost both. *)
Definition table_of (fs : Fs) : gmap string IpAddr := name_to_ip (enable_persistence false (disk_of fs) fresh).2.

Example unterminated_record_merges :
  let record := as_bytes (Persistence.encode (Persistence.Mapping (ipv4 198 18 0 1) "a.org")) in
  let fs1 := killed 1 (length record) (append_ops (ipv4 198 18 0 1) "a.org") first_fs in
  let fs2 := perform_all (append_ops (ipv4 198 18 0 0) "b.org") fs1 in
  table_of fs1 = {["a.org" := ipv4 198 18 0 1]} /\
  Persistence.disk <$> persistence (enable_persistence false (disk_of fs1) fresh).2 = Some (disk_of fs1) /\
  table_of fs2 = ∅.
Proof. cbv zeta. split; [| split]; vm_compute; reflexivity. Qed.
End CacheCrash.
